(* ===== verification/_CoqProject ===== *)
-Q . S2P
Prelude.v
Links.v
LinkedList.v
CString.v
HashTable.v
Algorithm.v
QSort.v
Vector.v
RingBuffer.v
TimeSpec.v
Context.v
Cred.v
Sched.v
SchedFacts.v
SchedLinks.v
SchedProps.v
FdTable.v
FdFacts.v
FdProps.v
Vfs.v
Tmpfs.v
TmpfsProps.v
VfsCalls.v
VfsTree.v
Mount.v
VfsFacts.v
VfsInv.v
TmpfsInv.v
VfsReach.v
VfsProps.v
Futex.v
FutexProps.v
Time.v
TimeProps.v
Process.v
Wait.v
ProcFacts.v
ProcProps.v
Signal.v
SignalProps.v
Isr.v
IsrProps.v
Pmm.v
PmmProps.v
Vmm.v
VmmTables.v
VmmFault.v
VmmRanges.v
Vmem.v
VmemFacts.v
VmemProps.v
Bump.v
Objects.v
ObjectProps.v
Poll.v
PollProps.v
Sockets.v
SocketProps.v
Printf.v
Dev.v
Tty.v
TtyProps.v
Exec.v
ExecProps.v
ElfProps.v
Screen.v
ScreenFacts.v
ScreenProps.v
Input.v
InputFacts.v
InputProps.v
Hid.v
HidProps.v
Initramfs.v
Access.v
Procfs.v
ProcfsProps.v
Dma.v
