(* ===== verification/Prelude.v ===== *)
(** * A verification of the SabaOS kernel (src/kernel/kernel/src)

    The kernel is a Unix-like one in C++: threads and a round-robin scheduler driven
    by the timer interrupt, events threads sleep on, signals, futexes, processes with
    descriptors, a virtual file system with tmpfs, physical and virtual memory, and
    the containers (klib) the rest is built with. All state that calls share is
    explicit here: a call takes the state of its part of the kernel and returns its
    result and the state after, in the type [outcome] below: [Ret], or [Panic] when an
    ASSERT fails, or [Undef] when the code would use a null, dangling or out-of-range
    pointer or corrupt a list. The kernel runs on one processor with interrupts off
    in the parts modelled, so a call that does not sleep is one step; one that sleeps
    is cut where it calls [Event::wait], into a [begin] and an [end] function, and
    what happens in between is the other steps of the system.

    Pointers are integers: keys of finite maps, 0 the null pointer. Integers are [Z]
    with the wrap-around of their width written where the code computes
    ([u64], [i32], ...). Strings are lists of bytes.

    ** Files

    - klib: Algorithm.v, QSort.v (algorithm.hpp, bitmap.hpp), Vector.v (vector.hpp),
      RingBuffer.v (ring_buffer.hpp), TimeSpec.v (timespec.hpp), CString.v
      (cstring.cpp, hashes and byte swaps of common.hpp), HashTable.v
      (hashtable.hpp), Printf.v (cstdio.hpp, cstdio.cpp), LinkedList.v (list.hpp,
      pointer by pointer) and Links.v, the lists as sequences the rest of the
      development uses, which LinkedList.v justifies.
    - threads: Context.v (sched/context.cpp), Cred.v (userland/cred.cpp), Sched.v
      (Thread, Process and the kernel state; sched/event.cpp; the run queue and the
      signals of sched/sched.cpp), with the lemmas of SchedFacts.v and SchedLinks.v
      and the theorems of SchedProps.v; Isr.v and IsrProps.v ([scheduler_isr]);
      Time.v and TimeProps.v (sched/time.cpp); Futex.v and FutexProps.v
      (userland/futex.cpp).
    - processes: Process.v, Wait.v (sched/sched.cpp, userland/pid.cpp: creation,
      groups, exit, fork, wait), ProcFacts.v, ProcProps.v; Signal.v and
      SignalProps.v (userland/signal.cpp, the signal work of cpu/syscall/syscall.cpp);
      Exec.v (userland/elf.cpp, execve in sched/sched.cpp), ExecProps.v (the first
      stack), ElfProps.v (the segments).
    - files: FdTable.v, FdFacts.v, FdProps.v (descriptors: fs/vfs.hpp and the calls of
      fs/vfs.cpp on them); Vfs.v (entries and paths), VfsCalls.v (open, read, write,
      seek), VfsTree.v (directories, links, attributes), Mount.v (drivers, mounts,
      statfs, ioctl), all of fs/vfs.cpp; Tmpfs.v (fs/tmpfs.cpp); TmpfsProps.v,
      VfsFacts.v, VfsInv.v, TmpfsInv.v, VfsReach.v, VfsProps.v; Initramfs.v
      (fs/initramfs.cpp: the archive the first files come from); Procfs.v and
      ProcfsProps.v (fs/procfs.cpp: the directory of processes, the snapshots that are
      read from it).
    - memory: Pmm.v, PmmProps.v (mem/pmm.cpp); Vmm.v (mem/vmm.cpp) with Access.v (the
      copies to and from another address space), VmmTables.v
      (page tables), VmmFault.v (page faults) and VmmRanges.v (the ranges of an
      address space); Vmem.v (mem/vmem.cpp) with VmemFacts.v and VmemProps.v; Bump.v
      (mem/bump.cpp, klib/cstdlib.cpp); Dma.v (mem/dma.cpp: the memory devices share).
    - objects behind descriptors: Objects.v and ObjectProps.v (userland/pipe.cpp,
      eventfd.cpp, signalfd.cpp, inotify.cpp, memfd.cpp); Poll.v and PollProps.v
      ([poll] and [select] of fs/vfs.cpp, userland/epoll.cpp); Sockets.v and
      SocketProps.v (userland/socket/socket.cpp, local/stream.cpp, local/datagram.cpp).
    - devices: Dev.v (dev/devnode.cpp, simple_char.hpp, io_service.cpp); Tty.v and
      TtyProps.v (dev/tty: terminals, pseudo-terminals, the console's keys); Screen.v,
      ScreenFacts.v and ScreenProps.v (gfx/terminal.cpp, gfx/framebuffer.cpp: the text
      terminal, its control sequences and its drawing); Input.v, InputFacts.v and
      InputProps.v (dev/input: devices and their listeners, evdev.cpp, the PS/2
      keyboard and mouse), Hid.v and HidProps.v (usbhid.cpp: report descriptors and
      reports).

    A definition has the name of the function it translates; loops and branches that
    are definitions of their own are named after it.

    ** How the parts meet

    [kernel] (Sched.v) is the state of threads, processes, descriptions and events;
    Futex.v, Process.v, Wait.v, Signal.v, Isr.v, Time.v and FdTable.v work on it.
    [machine] (Vmm.v) adds the page tables, the ranges and the frames of Pmm.v.
    [vfs] (Vfs.v) is the tree; its private part is that of the file systems, which are
    reached through the interfaces [FilesystemOps], [VNodeOps], [FilesystemInfo] and
    [FilesystemDriverOps], the virtual functions of the code. The laws a file system
    must keep are the class [TreeLaws] (VfsInv.v): theorems on the tree are proved from
    them, and TmpfsInv.v proves them of tmpfs. [HashKey] (HashTable.v) is the interface
    of the keys of a hash table. [ipc] (Objects.v) adds the heap of objects to
    [kernel], and [vnode_poll] (Poll.v) dispatches on them as the virtual functions do;
    [net] (Sockets.v) adds the sockets and the names bound in the tree. A description
    whose object is of a kind the development does not know is [OOther], or [SOther]
    among the sockets. [ttys] (Tty.v) adds the terminals to [kernel]; [user_exec]
    (Exec.v) works on [kernel], [CPU] and [vfs] and sees user memory as [space], bytes
    at the addresses mapped, which is what the page tables of Vmm.v make of it. A
    [VirtualTerminal] (Screen.v) is on its own: it is written to by the console. [world]
    (Input.v) adds the input devices and their listeners to [kernel]; the drivers of
    Input.v and Hid.v turn the bytes of the hardware into events pushed to a device,
    which hands full reports to the listeners of event nodes and of the console.
    Initramfs.v is written over [vfs] and the interfaces of a file system, whichever it is.
    The private part of procfs is [system] (Procfs.v): the machine, whose processes its
    nodes describe, and the snapshots of the nodes that are open. [dma.state] (Dma.v) is a
    machine with the pool of memory for devices.

    ** Theorems

    - refinement: the list, the vector, the ring buffer, the hash table and tmpfs files
      implement sequences, bounded queues, association lists and byte strings under any
      run of their operations; so do pipes (bounded queues of bytes), datagram sockets
      (queues of messages) and the arena of virtual addresses (an allocator of disjoint
      segments) and pseudo-terminals (two queues with the line discipline between);
      the text terminal is a screen (ScreenProps.v), whatever is written to it; walking
      a path is resolving its components.
    - invariants: descriptions are counted exactly (ProcProps.v), pages have one owner
      (PmmProps.v), the tree of directories is a forest after any calls (VfsProps.v).
    - liveness and termination: a trigger or a timer wakes the sleeping thread, the
      scheduler runs every ready thread, sorting and the safe list loop end.
    - round trips: an interrupted thread, a signal, a wait status, an anonymous
      mapping, a list of groups, device numbers, the numbers printed and read back, the
      arguments given to a program and those it finds on its stack, the records of
      an archive and the files loaded from it, the layout of a USB device's reports
      and the descriptor it is read from.
    - safety and errors: no call raises the privilege of a process; what the code does
      where it departs from its intent is proved too, in the last part of each file
      with theorems.

    ** Bounds and fuel

    Loops recurse on the data they walk, or on a fuel that is enough:
    [qsort] the length of the range; [add_range]'s loop three turns, since each leaves
    no overlap it resolves; a page fault the number of mirrors it can go through, each
    strictly older; [walk] the length of the path, since each turn drops a character;
    [grow_capacity] 33 quadruplings of a 64-bit capacity, after which it wraps;
    [reduce] the number of entries, since a chain of redirections without a cycle is
    shorter. [path_to_entry] and [print_path] recurse on the kernel stack: their
    [depth] is the nesting the stack has room for, and running out of it is [Undef].

    ** Not modelled

    Device drivers (graphics, USB controllers, PCI, virtio, network), the set-up of the
    PS/2 controller, interrupt controllers and processor set-up are I/O on hardware. Locks and interrupt masking are left
    out, as the parts modelled run with interrupts off. Network sockets need the card
    and its protocols. Where a modelled call reaches what is not modelled, the call
    takes its behaviour as an argument. *)

From Stdlib Require Export ZArith Lia.
From stdpp Require Export base numbers list gmap sets strings.

Declare Scope saba_scope.
Delimit Scope saba_scope with saba.
Open Scope Z_scope.
Open Scope saba_scope.

(** ** Automation *)

(** [lia] sees through [mod] and [/] by a constant. *)
Ltac Zify.zify_post_hook ::= Z.to_euclidean_division_equations.

(** Boolean comparisons of the code to propositions, everywhere. *)
Ltac zbool :=
  repeat match goal with
  | H : (_ && _)%bool = true |- _ => apply andb_prop in H; destruct H
  | H : (_ || _)%bool = false |- _ => apply orb_false_elim in H; destruct H
  | H : negb _ = true |- _ => apply negb_true_iff in H
  | H : negb _ = false |- _ => apply negb_false_iff in H
  | H : (_ <? _) = true |- _ => apply Z.ltb_lt in H
  | H : (_ <? _) = false |- _ => apply Z.ltb_ge in H
  | H : (_ <=? _) = true |- _ => apply Z.leb_le in H
  | H : (_ <=? _) = false |- _ => apply Z.leb_gt in H
  | H : (_ >? _) = true |- _ => apply Z.gtb_lt in H
  | H : (_ =? _) = true |- _ => apply Z.eqb_eq in H
  | H : (_ =? _) = false |- _ => apply Z.eqb_neq in H
  end.

(** Case analysis on the first condition of the goal, closing the
    impossible branches. *)
Ltac case_if :=
  match goal with
  | |- context [if ?b then _ else _] =>
      let E := fresh "E" in destruct b eqn:E; zbool; simpl
  end.

(** ** Machine words

    A [w]-bit unsigned integer is a [Z] in [0, 2^w); the wrap-around of an
    operation is the reduction below, written where the code computes. *)

Definition u64 (z : Z) : Z := z mod 18446744073709551616.
Definition u32 (z : Z) : Z := z mod 4294967296.
Definition u16 (z : Z) : Z := z mod 65536.
Definition u8 (z : Z) : Z := z mod 256.
(** Two's complement reinterpretations. *)
Definition i64 (z : Z) : Z :=
  (z + 9223372036854775808) mod 18446744073709551616 - 9223372036854775808.
Definition i32 (z : Z) : Z := (z + 2147483648) mod 4294967296 - 2147483648.

Ltac word := unfold u64, u32, u16, u8, i64, i32 in *; lia.

Create HintDb word.

Lemma u64_range z : 0 <= u64 z < 18446744073709551616.
Proof. word. Qed.
Lemma u64_small z : 0 <= z < 18446744073709551616 -> u64 z = z.
Proof. intros. unfold u64. by apply Z.mod_small. Qed.
Lemma u64_u64 z : u64 (u64 z) = u64 z.
Proof. apply u64_small, u64_range. Qed.
Lemma u64_add_l a b : u64 (u64 a + b) = u64 (a + b).
Proof. unfold u64. by rewrite Zplus_mod_idemp_l. Qed.
Lemma u64_add_r a b : u64 (a + u64 b) = u64 (a + b).
Proof. unfold u64. by rewrite Zplus_mod_idemp_r. Qed.
Lemma u64_sub_l a b : u64 (u64 a - b) = u64 (a - b).
Proof. unfold u64. by rewrite Zminus_mod_idemp_l. Qed.
Lemma u64_sub_r a b : u64 (a - u64 b) = u64 (a - b).
Proof. unfold u64. by rewrite Zminus_mod_idemp_r. Qed.
Lemma i64_small z : - 9223372036854775808 <= z < 9223372036854775808 -> i64 z = z.
Proof. word. Qed.

#[export] Hint Resolve u64_range : word.
#[export] Hint Rewrite u64_u64 u64_add_l u64_add_r u64_sub_l u64_sub_r : word.

(** [x & m] used as a condition. *)
Definition flag (x m : Z) : bool := negb (Z.land x m =? 0).
Notation "x &? m" := (flag x m) (at level 40) : saba_scope.
(** [x & ~m] for non-negative values. *)
Notation "x &~ m" := (Z.ldiff x m) (at level 40) : saba_scope.
Notation "x .| m" := (Z.lor x m) (at level 50) : saba_scope.

Definition PAGE_SIZE : Z := 4096.

(** ** errno values (Linux ABI) *)
Definition EPERM := 1.
Definition ENOENT := 2.
Definition ESRCH := 3.
Definition EINTR := 4.
Definition ENXIO := 6.
Definition ENOEXEC := 8.
Definition EBADF := 9.
Definition ECHILD := 10.
Definition EAGAIN := 11.
Definition EWOULDBLOCK := 11.
Definition ENOMEM := 12.
Definition EACCES := 13.
Definition EFAULT := 14.
Definition EEXIST := 17.
Definition ENODEV := 19.
Definition ENOTDIR := 20.
Definition EISDIR := 21.
Definition EINVAL := 22.
Definition ENOTTY := 25.
Definition ESPIPE := 29.
Definition EPIPE := 32.
Definition ERANGE := 34.
Definition ENOSYS := 38.
Definition ELOOP := 40.
Definition ENOTSUP := 95.
Definition ETIMEDOUT := 110.

(** ** Outcomes

    [Ret]: the code returns.  [Panic]: an [ASSERT] fails or [panic] is called.
    [Undef]: the code dereferences a null or dangling pointer, indexes out of
    range, unlinks a node that is in no list or links one that is in a list. *)

Inductive outcome (A : Type) : Type :=
| Ret (a : A)
| Panic
| Undef.
Arguments Ret {A} a.
Arguments Panic {A}.
Arguments Undef {A}.

Definition obind {A B} (x : outcome A) (f : A -> outcome B) : outcome B :=
  match x with Ret a => f a | Panic => Panic | Undef => Undef end.
Notation "'let!' x ':=' e 'in' k" := (obind e (fun x => k))
  (at level 200, x pattern, e at level 100, k at level 200) : saba_scope.
Definition assert (b : bool) : outcome unit := if b then Ret tt else Panic.
(** A pointer or index that must be valid. *)
Definition deref {A} (x : option A) : outcome A :=
  match x with Some a => Ret a | None => Undef end.

(** Reading a result out of an outcome, for concrete runs. *)
Definition ret_of {A} (d : A) (o : outcome A) : A := match o with Ret a => a | _ => d end.

Lemma obind_Ret {A B} (x : outcome A) (f : A -> outcome B) b :
  obind x f = Ret b <-> exists a, x = Ret a /\ f a = Ret b.
Proof. destruct x; naive_solver. Qed.

(** Splits a successful sequence of steps into its steps. *)
Ltac inv_ret :=
  repeat match goal with
  | H : obind _ _ = Ret _ |- _ =>
      apply obind_Ret in H; let a := fresh "a" in let E := fresh "E" in
      destruct H as (a & E & H)
  | H : assert ?b = Ret _ |- _ => destruct b eqn:?; [clear H | discriminate H]; zbool
  | H : deref ?x = Ret _ |- _ => destruct x eqn:?; [simpl in H | discriminate H]
  | H : Ret _ = Ret _ |- _ => injection H as H; try subst
  end.

(** ** Record update

    [r <| f := v |>] for a record type with a [Settable] instance, which spells
    the record out of its projections. *)

Class Settable (R : Type) := eta : R -> R.
Arguments eta R {_}.
Class Setter {R T : Type} (proj : R -> T) := upd : (T -> T) -> R -> R.
Arguments upd {R T} proj {_} f r /.
Ltac find_setter :=
  lazymatch goal with
  | |- @Setter ?R _ ?proj =>
      let e := eval hnf in (eta R) in
      let p := eval pattern proj in e in
      lazymatch p with ?with_field _ => exact (fun f => with_field (fun r => f (proj r))) end
  end.
#[export] Hint Extern 1 (Setter _) => find_setter : typeclass_instances.
Notation "r <| f := v |>" := (upd f (fun _ => v) r)
  (at level 12, f at next level, v at level 200, left associativity) : saba_scope.
Notation "r <| f ::= g |>" := (upd f g r)
  (at level 12, f at next level, g at level 200, left associativity) : saba_scope.

(** ** Lists as memory *)

(** [memcpy]'s destination: [src] written over [dst] at [off]. *)
Definition splice {A} (off : nat) (src dst : list A) : list A :=
  take off dst ++ src ++ drop (off + length src) dst.

Section splice.
Context {A : Type}.
Implicit Types (src dst l : list A) (off i : nat).

Lemma length_splice off src dst :
  (off + length src <= length dst)%nat ->
  length (splice off src dst) = length dst.
Proof. intros. unfold splice. rewrite !length_app, length_take, length_drop. lia. Qed.

Lemma splice_nil off dst : splice off [] dst = dst.
Proof. unfold splice. simpl. by rewrite Nat.add_0_r, take_drop. Qed.

Lemma lookup_splice off src dst i :
  (off + length src <= length dst)%nat ->
  splice off src dst !! i =
    if decide (off <= i < off + length src)%nat then src !! (i - off)%nat else dst !! i.
Proof.
  intros Hlen. unfold splice. case_decide as Hi.
  - rewrite lookup_app_r by (rewrite length_take; lia).
    rewrite length_take, Nat.min_l by lia. by rewrite lookup_app_l by lia.
  - destruct (decide (i < off)%nat).
    + rewrite lookup_app_l by (rewrite length_take; lia). by rewrite lookup_take_lt by lia.
    + rewrite lookup_app_r by (rewrite length_take; lia).
      rewrite length_take, Nat.min_l by lia.
      rewrite lookup_app_r by lia. rewrite lookup_drop. f_equal. lia.
Qed.

(** [n] elements of [l] starting at [off], wrapping once around the end. *)
Lemma lookup_rot l off i :
  (off < length l)%nat -> (i < length l)%nat ->
  (drop off l ++ take off l) !! i = l !! ((off + i) mod length l)%nat.
Proof.
  intros Ho Hi. destruct (decide (i < length l - off)%nat).
  - rewrite lookup_app_l by (rewrite length_drop; lia).
    rewrite lookup_drop, Nat.mod_small by lia. done.
  - rewrite lookup_app_r by (rewrite length_drop; lia).
    rewrite length_drop, lookup_take_lt by lia. f_equal.
    replace (off + i)%nat with ((i - (length l - off)) + 1 * length l)%nat by lia.
    rewrite Nat.Div0.mod_add, Nat.mod_small by lia. done.
Qed.
End splice.

(** ** Words in memory, the least significant byte first *)

Fixpoint le_bytes (n : nat) (z : Z) : list Z :=
  match n with O => [] | S n => z mod 256 :: le_bytes n (z / 256) end.
Definition le_value (l : list Z) : Z := foldr (fun b z => b + 256 * z) 0 l.
(** The word of [n] bytes at an offset. *)
Definition word_at (n off : nat) (m : list Z) : Z := le_value (take n (drop off m)).

Lemma length_le_bytes n z : length (le_bytes n z) = n.
Proof. revert z. induction n; intros z; simpl; auto. Qed.
Lemma le_value_bytes n z : 0 <= z < 256 ^ Z.of_nat n -> le_value (le_bytes n z) = z.
Proof.
  revert z. induction n as [|n IH]; intros z Hz; [change (256 ^ Z.of_nat 0) with 1 in Hz; simpl; lia|].
  rewrite Nat2Z.inj_succ, Z.pow_succ_r in Hz by lia. simpl. rewrite IH; lia.
Qed.

(** ** Blocking calls

    A call that may sleep is run against the sequence of what happens while it
    sleeps: for each wait, the value [Event::wait] returned and the state the
    caller finds when it runs again. *)

Inductive blocking (S R : Type) : Type :=
| Done (r : R) (s : S)        (** the call returned *)
| Sleeping (s : S).           (** the call is still waiting *)
Arguments Done {S R} r s.
Arguments Sleeping {S R} s.
