(* ===== verification/Links.v ===== *)
(** * Intrusive lists as sequences

    A linked list of the kernel is the sequence of its members. Linking a member
    twice or unlinking a stranger corrupts the list, and is [Undef] here;
    LinkedList.v proves that the pointer operations implement these. *)

From S2P Require Import Prelude.

(** ** Sequences *)

(** [head.add_before(&x->link)] and [x->link.remove()] on the members. *)
Definition link_tail {A} `{EqDecision A} (x : A) (l : list A) : outcome (list A) :=
  if decide (x ∈ l) then Undef else Ret (l ++ [x]).
Definition unlink {A} `{EqDecision A} (x : A) (l : list A) : outcome (list A) :=
  if decide (x ∈ l) then Ret (filter (fun y => y <> x) l) else Undef.

Section lists.
Context {A : Type} `{EqDecision A}.
Implicit Types (x : A) (l : list A).

Lemma link_tail_Ret x l : x ∉ l -> link_tail x l = Ret (l ++ [x]).
Proof. intros. unfold link_tail. by rewrite decide_False. Qed.

Lemma unlink_Ret x l : x ∈ l -> unlink x l = Ret (filter (fun y => y <> x) l).
Proof. intros. unfold unlink. by rewrite decide_True. Qed.

Lemma NoDup_snoc x l : NoDup l -> x ∉ l -> NoDup (l ++ [x]).
Proof.
  intros. apply NoDup_app. split_and!; [done| |apply NoDup_singleton].
  intros y ? ->%list_elem_of_singleton. done.
Qed.

Lemma filter_ne_id x l : x ∉ l -> filter (fun y => y <> x) l = l.
Proof.
  induction l as [|y l IH]; [done|]. intros [??]%not_elem_of_cons.
  rewrite filter_cons_True by congruence. by rewrite IH.
Qed.

Lemma filter_ne_app x l1 l2 : x ∉ l1 -> x ∉ l2 -> filter (fun y => y <> x) (l1 ++ x :: l2) = l1 ++ l2.
Proof.
  intros. rewrite filter_app, filter_cons_False by auto. by rewrite !filter_ne_id.
Qed.

Lemma length_filter_ne x l :
  NoDup l -> x ∈ l -> S (length (filter (fun y => y <> x) l)) = length l.
Proof.
  intros Hl (l1 & l2 & ->)%list_elem_of_split.
  apply NoDup_app in Hl as (_ & H1 & [H2 _]%NoDup_cons).
  rewrite filter_ne_app; [|intros Hx; apply (H1 _ Hx); left|done].
  rewrite !length_app. simpl. lia.
Qed.
End lists.
