(* ===== verification/LinkedList.v ===== *)
(** * klib::ListHead (klib/list.hpp)

    The intrusive circular list, at the level of its pointers: a heap of nodes
    with [next] and [prev], the operations as the assignments the code makes, and
    the sequences they implement. The other files work on the sequences
    ([link_tail], [unlink]); [list_refines_sequences] is what allows it. *)

From S2P Require Import Prelude Links.

(** ** Nodes and heaps; [nullptr] is 0 and is no node *)

Record ListHead := mkListHead { next : Z; prev : Z }.
#[export] Instance eta_ListHead : Settable ListHead := fun n => mkListHead (next n) (prev n).

Abbreviation heap := (gmap Z ListHead).

Definition set_next (a v : Z) (h : heap) : outcome heap :=
  let! n := deref (h !! a) in Ret (<[a := n <| next := v |>]> h).
Definition set_prev (a v : Z) (h : heap) : outcome heap :=
  let! n := deref (h !! a) in Ret (<[a := n <| prev := v |>]> h).

(** ** The operations *)

Definition list_init (this : Z) (h : heap) : outcome heap :=
  let! h := set_next this this h in set_prev this this h.

Definition list_add (this entry : Z) (h : heap) : outcome heap :=
  let! n := deref (h !! this) in
  let! h := set_prev (next n) entry h in
  let! n := deref (h !! this) in
  let! h := set_next entry (next n) h in
  let! h := set_prev entry this h in
  set_next this entry h.

Definition list_add_before (this entry : Z) (h : heap) : outcome heap :=
  let! n := deref (h !! this) in
  let! h := set_next (prev n) entry h in
  let! n := deref (h !! this) in
  let! h := set_prev entry (prev n) h in
  let! h := set_next entry this h in
  set_prev this entry h.

Definition list_remove (this : Z) (h : heap) : outcome heap :=
  let! n := deref (h !! this) in
  let! h := set_prev (next n) (prev n) h in
  let! n := deref (h !! this) in
  let! h := set_next (prev n) (next n) h in
  let! h := set_next this 0 h in
  set_prev this 0 h.

Definition is_empty (this : Z) (h : heap) : outcome bool :=
  let! n := deref (h !! this) in Ret (next n =? this).
Definition is_invalid (this : Z) (h : heap) : outcome bool :=
  let! n := deref (h !! this) in Ret ((next n =? 0) || (prev n =? 0)).

(** 0 for the null pointer. *)
Definition list_pop_front (head : Z) (h : heap) : outcome (heap * Z) :=
  let! e := is_empty head h in
  if e then Ret (h, 0) else
  let! n := deref (h !! head) in
  let! h := list_remove (next n) h in
  Ret (h, next n).

(** ** The loops: [LIST_FOR_EACH] and [LIST_FOR_EACH_SAFE]

    The body works on the heap and a state of its own. The first reads the
    successor after the body, the second before it. *)

Section loops.
Context {A : Type} (body : Z -> heap -> A -> outcome (heap * A)).

Fixpoint for_each_loop (fuel : nat) (head pos : Z) (h : heap) (a : A) : outcome (heap * A) :=
  if pos =? head then Ret (h, a) else
  match fuel with
  | O => Undef
  | S fuel =>
      let! (h, a) := body pos h a in
      let! n := deref (h !! pos) in
      for_each_loop fuel head (next n) h a
  end.
Definition LIST_FOR_EACH (fuel : nat) (head : Z) (h : heap) (a : A) : outcome (heap * A) :=
  let! n := deref (h !! head) in for_each_loop fuel head (next n) h a.

Fixpoint for_each_safe_loop (fuel : nat) (head pos nxt : Z) (h : heap) (a : A)
    : outcome (heap * A) :=
  if pos =? head then Ret (h, a) else
  match fuel with
  | O => Undef
  | S fuel =>
      let! (h, a) := body pos h a in
      let! n := deref (h !! nxt) in
      for_each_safe_loop fuel head nxt (next n) h a
  end.
Definition LIST_FOR_EACH_SAFE (fuel : nat) (head : Z) (h : heap) (a : A) : outcome (heap * A) :=
  let! n := deref (h !! head) in
  let! m := deref (h !! next n) in
  for_each_safe_loop fuel head (next n) (next m) h a.
End loops.

(** ** What a ring of nodes is *)

(** From node [p] through [xs] to node [q], linked both ways. *)
Fixpoint chain (h : heap) (p : Z) (xs : list Z) (q : Z) : Prop :=
  match xs with
  | [] => (next <$> h !! p) = Some q /\ (prev <$> h !! q) = Some p
  | x :: xs => ((next <$> h !! p) = Some x /\ (prev <$> h !! x) = Some p) /\ chain h x xs q
  end.

(** The list with head [a] and members [xs]. *)
Definition ring (h : heap) (a : Z) (xs : list Z) : Prop := NoDup (a :: xs) /\ chain h a xs a.

Lemma chain_app h p xs x ys q : chain h p (xs ++ x :: ys) q <-> chain h p xs x /\ chain h x ys q.
Proof. revert p. induction xs as [|y xs IH]; intros p; simpl; [tauto|]. rewrite IH. tauto. Qed.

(** A chain is what it is by the [next] of its sources and the [prev] of its targets. *)
Lemma chain_ext h h' p xs q :
  (forall a, a ∈ p :: xs -> next <$> h' !! a = next <$> h !! a) ->
  (forall a, a ∈ xs ++ [q] -> prev <$> h' !! a = prev <$> h !! a) ->
  chain h p xs q -> chain h' p xs q.
Proof.
  revert p. induction xs as [|x xs IH]; intros p Hn Hp; simpl.
  - rewrite Hn, Hp by left. done.
  - rewrite (Hn p), (Hp x) by left. intros [? ?]. split; [done|].
    apply IH; [|by intros; apply Hp; right|done]. intros a Ha. apply Hn. by right.
Qed.

Lemma chain_source h p xs q : chain h p xs q -> exists n, h !! p = Some n /\ next n = hd q xs.
Proof. destruct xs; simpl; intros H; destruct (h !! p); naive_solver. Qed.
Lemma chain_target h p xs q : chain h p xs q -> exists n, h !! q = Some n /\ prev n = List.last xs p.
Proof.
  destruct xs as [|x xs _] using rev_ind; [simpl; destruct (h !! q); naive_solver|].
  intros [_ H]%chain_app. rewrite List.last_last. simpl in H. destruct (h !! q); naive_solver.
Qed.

(** ** The operations on the fields *)

(** [e] has come between [p] and [q]; nothing else has changed. *)
Definition linked_in (p e q : Z) (h h' : heap) : Prop :=
  dom h' = dom h /\ forall c,
  next <$> h' !! c = (if decide (c = p) then Some e else if decide (c = e) then Some q
                      else next <$> h !! c) /\
  prev <$> h' !! c = (if decide (c = q) then Some e else if decide (c = e) then Some p
                      else prev <$> h !! c).

(** [e] has gone from between [p] and [q]. *)
Definition linked_out (p e q : Z) (h h' : heap) : Prop :=
  dom h' = dom h /\ forall c,
  next <$> h' !! c = (if decide (c = e) then Some 0 else if decide (c = p) then Some q
                      else next <$> h !! c) /\
  prev <$> h' !! c = (if decide (c = e) then Some 0 else if decide (c = q) then Some p
                      else prev <$> h !! c).

Lemma set_next_fields a v h : a ∈ dom h ->
  exists h', set_next a v h = Ret h' /\ dom h' = dom h /\ forall c,
    next <$> h' !! c = (if decide (c = a) then Some v else next <$> h !! c) /\
    prev <$> h' !! c = prev <$> h !! c.
Proof.
  intros [n Hn]%elem_of_dom. unfold set_next. rewrite Hn. simpl. eexists.
  split; [done|]. split; [by apply dom_insert_lookup_L|]. intros c. rewrite lookup_insert.
  repeat case_decide; simplify_eq; by rewrite ?Hn.
Qed.
Lemma set_prev_fields a v h : a ∈ dom h ->
  exists h', set_prev a v h = Ret h' /\ dom h' = dom h /\ forall c,
    prev <$> h' !! c = (if decide (c = a) then Some v else prev <$> h !! c) /\
    next <$> h' !! c = next <$> h !! c.
Proof.
  intros [n Hn]%elem_of_dom. unfold set_prev. rewrite Hn. simpl. eexists.
  split; [done|]. split; [by apply dom_insert_lookup_L|]. intros c. rewrite lookup_insert.
  repeat case_decide; simplify_eq; by rewrite ?Hn.
Qed.
Lemma read_node (h : heap) a : a ∈ dom h ->
  exists n, h !! a = Some n /\ next <$> h !! a = Some (next n) /\ prev <$> h !! a = Some (prev n).
Proof. intros [n Hn]%elem_of_dom. exists n. by rewrite Hn. Qed.

(** Runs a straight-line sequence of reads and assignments of fields. *)
Ltac in_dom := repeat match goal with H : dom _ = dom _ |- _ => rewrite H; clear H end; done.
Ltac field_step :=
  match goal with
  | |- context [deref (?h !! ?a)] =>
      let n := fresh "n" in let Hn := fresh "Hn" in
      destruct (read_node h a) as (n & Hn & ? & ?); [in_dom|]; rewrite Hn; clear Hn;
      cbn [deref obind]
  | |- context [set_next ?a ?v ?h] =>
      let h' := fresh "h" in let E := fresh "E" in
      destruct (set_next_fields a v h) as (h' & E & ? & ?); [in_dom|]; rewrite E; clear E;
      cbn [obind]
  | |- context [set_prev ?a ?v ?h] =>
      let h' := fresh "h" in let E := fresh "E" in
      destruct (set_prev_fields a v h) as (h' & E & ? & ?); [in_dom|]; rewrite E; clear E;
      cbn [obind]
  end.
(** Computes the fields of the last heap, case by case on the equalities of nodes. *)
Ltac use_fields :=
  repeat match goal with H : forall c : Z, _ /\ _ |- _ =>
    let H1 := fresh "F" in let H2 := fresh "F" in
    assert (H1 := fun c => proj1 (H c)); assert (H2 := fun c => proj2 (H c)); clear H end;
  repeat match goal with
  | H : forall c : Z, _ <$> ?h !! c = _ |- context [?f <$> ?h !! _] => rewrite H
  | H : forall c : Z, _ <$> ?h !! c = _, H2 : context [?f <$> ?h !! _] |- _ => rewrite H in H2
  end; repeat case_decide; simplify_eq; try done.

Lemma list_add_fields this e q h :
  next <$> h !! this = Some q -> q ∈ dom h -> e ∈ dom h -> e <> this -> e <> q ->
  exists h', list_add this e h = Ret h' /\ linked_in this e q h h'.
Proof.
  intros Hn Hq He Ht Hqe. assert (this ∈ dom h).
  { apply elem_of_dom. destruct (h !! this); naive_solver. }
  unfold list_add. field_step.
  assert (next n = q) as -> by congruence.
  field_step. field_step. assert (next n0 = q) as -> by (use_fields; congruence).
  do 3 field_step. eexists. split; [done|]. split; [congruence|]. intros c. split; use_fields.
Qed.

Lemma list_add_before_fields this e p h :
  prev <$> h !! this = Some p -> p ∈ dom h -> e ∈ dom h -> e <> this -> e <> p ->
  exists h', list_add_before this e h = Ret h' /\ linked_in p e this h h'.
Proof.
  intros Hn Hp He Ht Hpe. assert (this ∈ dom h).
  { apply elem_of_dom. destruct (h !! this); naive_solver. }
  unfold list_add_before. field_step.
  assert (prev n = p) as -> by congruence.
  field_step. field_step. assert (prev n0 = p) as -> by (use_fields; congruence).
  do 3 field_step. eexists. split; [done|]. split; [congruence|]. intros c. split; use_fields.
Qed.

Lemma list_remove_fields e p q h :
  next <$> h !! e = Some q -> prev <$> h !! e = Some p -> p ∈ dom h -> q ∈ dom h ->
  e <> p -> e <> q ->
  exists h', list_remove e h = Ret h' /\ linked_out p e q h h'.
Proof.
  intros Hn Hpv Hp Hq Hep Heq. assert (e ∈ dom h).
  { apply elem_of_dom. destruct (h !! e); naive_solver. }
  unfold list_remove. field_step.
  assert (next n = q) as -> by congruence. assert (prev n = p) as -> by congruence.
  do 2 field_step.
  assert (next n0 = q) as -> by (use_fields; congruence).
  assert (prev n0 = p) as -> by (use_fields; congruence).
  do 3 field_step. eexists. split; [done|]. split; [congruence|]. intros c. split; use_fields.
Qed.

(** ** The operations on rings *)

Lemma last_cons_default {A} (l : list A) x d : List.last (x :: l) d = List.last l x.
Proof.
  revert x d. induction l as [|y l IH]; [done|]. intros x d.
  change (List.last (y :: l) d = List.last (y :: l) x). by rewrite !IH.
Qed.
Lemma last_in {A} (l : list A) d : List.last l d ∈ d :: l.
Proof. induction l as [|y l _] using rev_ind; [left|]. rewrite List.last_last. set_solver. Qed.
Lemma hd_in {A} (l : list A) d : hd d l ∈ l ++ [d].
Proof. destruct l; set_solver. Qed.

(** One field of the new heap, by cases on the nodes changed. *)
Ltac field Hf c :=
  destruct (Hf c) as [? ?];
  match goal with
  | H : ?f <$> ?h !! c = _ |- ?f <$> ?h !! c = _ => rewrite H
  end; repeat case_decide; subst; try done; exfalso; set_solver.

Lemma chain_insert h h' e p l r z :
  linked_in (List.last l p) e (hd z r) h h' ->
  NoDup (p :: l ++ r) -> NoDup (l ++ r ++ [z]) -> e ∉ p :: l ++ r ++ [z] ->
  chain h p (l ++ r) z -> chain h' p (l ++ e :: r) z.
Proof.
  intros [_ Hf]. revert p Hf. induction l as [|x l IH]; intros p Hf Hnd Hnd' He Hc.
  - cbn [app chain List.last] in *. pose proof (hd_in r z).
    split; [split; [field Hf p|field Hf e]|].
    destruct r as [|x r]; cbn [app chain hd] in *; [split; [field Hf e|field Hf z]|].
    destruct Hc as [_ Hc]. apply NoDup_cons in Hnd as [Hp _]. apply NoDup_cons in Hnd' as [Hx _].
    split; [split; [field Hf e|field Hf x]|].
    eapply chain_ext; [..|exact Hc]; intros a Ha; field Hf a.
  - rewrite last_cons_default in Hf. cbn [app chain] in *. destruct Hc as [[Hn Hp] Hc].
    pose proof Hnd as [Hpn ?]%NoDup_cons. pose proof Hnd' as [Hxn ?]%NoDup_cons.
    pose proof (last_in l x). pose proof (hd_in r z).
    split; [split; [field Hf p|field Hf x]|]. apply IH; try done. set_solver.
Qed.

Lemma chain_delete h h' e p l r z :
  linked_out (List.last l p) e (hd z r) h h' ->
  NoDup (p :: l ++ e :: r) -> NoDup (l ++ e :: r ++ [z]) ->
  chain h p (l ++ e :: r) z -> chain h' p (l ++ r) z.
Proof.
  intros [_ Hf]. revert p Hf. induction l as [|x l IH]; intros p Hf Hnd Hnd' Hc.
  - cbn [app chain List.last] in *. destruct Hc as [_ Hc].
    apply NoDup_cons in Hnd as [Hp [He Hnd]%NoDup_cons]. apply NoDup_cons in Hnd' as [He' Hnd'].
    destruct r as [|x r]; cbn [app chain hd] in *; [split; [field Hf p|field Hf z]|].
    destruct Hc as [_ Hc]. apply NoDup_cons in Hnd' as [Hx _].
    split; [split; [field Hf p|field Hf x]|].
    eapply chain_ext; [..|exact Hc]; intros a Ha; field Hf a.
  - rewrite last_cons_default in Hf. cbn [app chain] in *. destruct Hc as [[Hn Hp] Hc].
    pose proof Hnd as [Hpn ?]%NoDup_cons. pose proof Hnd' as [Hxn ?]%NoDup_cons.
    pose proof (last_in l x). pose proof (hd_in r z).
    split; [split; [field Hf p|field Hf x]|]. by apply IH.
Qed.

(** ** Families of lists

    [lists] maps the head of each list of the heap to its members. *)

Abbreviation lists := (gmap Z (list Z)).

Definition is_free (F : lists) (c : Z) : bool :=
  bool_decide (map_Forall (fun a xs => c ∉ a :: xs) F).

Record repr (h : heap) (N : gset Z) (F : lists) : Prop := {
  repr_dom : dom h = N;
  repr_null : 0 ∉ N;
  repr_ring a xs : F !! a = Some xs -> ring h a xs;
  repr_disjoint a b xs ys c : F !! a = Some xs -> F !! b = Some ys ->
    c ∈ a :: xs -> c ∈ b :: ys -> a = b;
  repr_invalid c : c ∈ N -> is_free F c = true -> is_invalid c h = Ret true
}.

Lemma is_free_spec F c : is_free F c = true <-> forall a xs, F !! a = Some xs -> c ∉ a :: xs.
Proof. unfold is_free. by rewrite bool_decide_eq_true. Qed.

Lemma chain_dom h p l q : chain h p l q -> forall c, c ∈ p :: l -> c ∈ dom h.
Proof.
  revert p. induction l as [|x l IH]; intros p Hc c Hin.
  - apply list_elem_of_singleton in Hin as ->. apply elem_of_dom.
    destruct (chain_source _ _ _ _ Hc) as (n & -> & _). eauto.
  - apply elem_of_cons in Hin as [->|Hin].
    + apply elem_of_dom. destruct (chain_source _ _ _ _ Hc) as (n & -> & _). eauto.
    + destruct Hc as [_ Hc]. exact (IH x Hc c Hin).
Qed.

Lemma ring_dom h a l c : ring h a l -> c ∈ a :: l -> c ∈ dom h.
Proof. intros [_ Hc] Hin. by eapply chain_dom. Qed.

(** The neighbours of a place in a ring. *)
Lemma ring_split h a l r : ring h a (l ++ r) ->
  next <$> h !! List.last l a = Some (hd a r) /\ prev <$> h !! hd a r = Some (List.last l a).
Proof.
  intros [_ Hc]. assert (forall p z, chain h p (l ++ r) z ->
    next <$> h !! List.last l p = Some (hd z r) /\ prev <$> h !! hd z r = Some (List.last l p)) as H.
  { clear. induction l as [|x l IH]; intros p z Hc; [destruct r; apply Hc|].
    rewrite last_cons_default. apply IH, Hc. }
  by apply H.
Qed.

Lemma ring_nodup h a l : ring h a l -> NoDup (a :: l) /\ NoDup (l ++ [a]).
Proof.
  intros [Hn _]. split; [done|]. apply NoDup_cons in Hn as [? ?]. by apply NoDup_snoc.
Qed.

(** A ring none of whose nodes changed. *)
Lemma ring_frame h h' b ys :
  (forall c, c ∈ b :: ys -> next <$> h' !! c = next <$> h !! c /\ prev <$> h' !! c = prev <$> h !! c) ->
  ring h b ys -> ring h' b ys.
Proof.
  intros Hf [Hn Hc]. split; [done|]. eapply chain_ext; [..|exact Hc]; intros c Hin; apply Hf; [done|].
  set_solver.
Qed.

Lemma is_invalid_fields c h h' :
  next <$> h' !! c = next <$> h !! c -> prev <$> h' !! c = prev <$> h !! c ->
  is_invalid c h' = is_invalid c h.
Proof.
  unfold is_invalid. destruct (h' !! c), (h !! c); simpl; intros; simplify_eq; congruence.
Qed.

Section repr.
Context (h h' : heap) (N : gset Z) (F : lists) (a x : Z) (l r : list Z).
Context (Hr : repr h N F).

Lemma repr_link :
  F !! a = Some (l ++ r) -> x ∈ N -> is_free F x = true ->
  linked_in (List.last l a) x (hd a r) h h' -> repr h' N (<[a := l ++ x :: r]> F).
Proof.
  intros Ha HxN Hx Hl. pose proof (repr_ring _ _ _ Hr _ _ Ha) as Hring.
  pose proof (ring_nodup _ _ _ Hring) as [Hn1 Hn2].
  pose proof (proj1 (is_free_spec _ _) Hx) as Hfree. pose proof (Hfree _ _ Ha) as Hxa.
  pose proof (last_in l a) as Hla. pose proof (hd_in r a) as Hra. destruct Hl as [Hd Hf]. split.
  - rewrite Hd. apply Hr.
  - apply Hr.
  - intros b ys Hb. apply lookup_insert_Some in Hb as [[<- <-]|[Hne Hb]].
    + split; [|eapply (chain_insert h); [done|done|by rewrite app_assoc| |apply Hring]; set_solver].
      assert (a :: l ++ x :: r ≡ₚ x :: a :: l ++ r) as ->
        by (rewrite app_comm_cons, <- Permutation_middle; done).
      apply NoDup_cons. split; [set_solver|done].
    + eapply ring_frame; [|by apply (repr_ring _ _ _ Hr)]. intros c Hc.
      assert (c ∉ a :: l ++ r) by (intros Hin; apply Hne; by eapply (repr_disjoint _ _ _ Hr)).
      pose proof (Hfree _ _ Hb). split; field Hf c.
  - intros b b' ys ys' c Hb Hb' Hc Hc'.
    apply lookup_insert_Some in Hb as [[<- <-]|[Hne Hb]];
      apply lookup_insert_Some in Hb' as [[<- <-]|[Hne' Hb']]; [done|..].
    + destruct (decide (c = x)) as [->|]; [by apply Hfree in Hc'|].
      eapply (repr_disjoint _ _ _ Hr _ _ _ _ c Ha Hb'); set_solver.
    + destruct (decide (c = x)) as [->|]; [by apply Hfree in Hc|].
      eapply (repr_disjoint _ _ _ Hr _ _ _ _ c Hb Ha); set_solver.
    + by eapply (repr_disjoint _ _ _ Hr).
  - intros c HcN Hc. rewrite is_free_spec in Hc.
    pose proof (Hc a _ (lookup_insert_eq _ _ _)) as Hca.
    assert (is_free F c = true) as Hc0.
    { apply is_free_spec. intros b ys Hb. destruct (decide (b = a)) as [->|Hne]; [set_solver|].
      apply Hc. by rewrite lookup_insert_ne. }
    rewrite <- (repr_invalid _ _ _ Hr c HcN Hc0). apply is_invalid_fields; field Hf c.
Qed.

Lemma repr_unlink :
  F !! a = Some (l ++ x :: r) -> linked_out (List.last l a) x (hd a r) h h' ->
  repr h' N (<[a := l ++ r]> F).
Proof.
  intros Ha [Hd Hf]. pose proof (repr_ring _ _ _ Hr _ _ Ha) as Hring.
  pose proof (ring_nodup _ _ _ Hring) as [Hn1 Hn2].
  assert (a :: l ++ x :: r ≡ₚ x :: a :: l ++ r) as Hperm
    by (rewrite app_comm_cons, <- Permutation_middle; done).
  pose proof Hn1 as Hn3. rewrite Hperm in Hn3. apply NoDup_cons in Hn3 as [Hxn Hn3].
  pose proof (last_in l a) as Hla. pose proof (hd_in r a) as Hra. split.
  - rewrite Hd. apply Hr.
  - apply Hr.
  - intros b ys Hb. apply lookup_insert_Some in Hb as [[<- <-]|[Hne Hb]].
    + split; [done|]. eapply (chain_delete h); [done|done|by rewrite <- app_assoc in Hn2|apply Hring].
    + eapply ring_frame; [|by apply (repr_ring _ _ _ Hr)]. intros c Hc.
      assert (c ∉ a :: l ++ x :: r) by (intros Hin; apply Hne; by eapply (repr_disjoint _ _ _ Hr)).
      split; field Hf c.
  - intros b b' ys ys' c Hb Hb' Hc Hc'.
    apply lookup_insert_Some in Hb as [[<- <-]|[Hne Hb]];
      apply lookup_insert_Some in Hb' as [[<- <-]|[Hne' Hb']]; [done|..].
    + eapply (repr_disjoint _ _ _ Hr _ _ _ _ c Ha Hb'); set_solver.
    + eapply (repr_disjoint _ _ _ Hr _ _ _ _ c Hb Ha); set_solver.
    + by eapply (repr_disjoint _ _ _ Hr).
  - intros c HcN Hc. destruct (decide (c = x)) as [->|Hcx].
    { destruct (Hf x) as [Hx _]. rewrite decide_True in Hx by done. unfold is_invalid.
      destruct (h' !! x); simplify_eq/=. rewrite Hx. done. }
    rewrite is_free_spec in Hc. pose proof (Hc a _ (lookup_insert_eq _ _ _)) as Hca.
    assert (is_free F c = true) as Hc0.
    { apply is_free_spec. intros b ys Hb. destruct (decide (b = a)) as [->|Hne]; [set_solver|].
      apply Hc. by rewrite lookup_insert_ne. }
    rewrite <- (repr_invalid _ _ _ Hr c HcN Hc0). apply is_invalid_fields; field Hf c.
Qed.
End repr.

(** ** The operations against their specifications *)

Inductive list_op :=
| OInit (a : Z)                (** [a.init()] *)
| OAdd (a x : Z)               (** [a.add(x)] at the front *)
| OAddTail (a x : Z)           (** [a.add_before(x)], [list_add_tail] *)
| OInsert (a y x : Z)          (** [y->link.add_before(x)], [y] a member *)
| ORemove (a x : Z)            (** [x->link.remove()] *)
| OPop (a : Z)                 (** [list_pop_front(a)] *)
| OIsEmpty (a : Z).            (** [a.is_empty()], [list_empty] *)

Definition exec_op (o : list_op) (h : heap) : outcome (heap * Z) :=
  let void (r : outcome heap) := let! h := r in Ret (h, 0) in
  match o with
  | OInit a => void (list_init a h)
  | OAdd a x => void (list_add a x h)
  | OAddTail a x => void (list_add_before a x h)
  | OInsert _ y x => void (list_add_before y x h)
  | ORemove _ x => void (list_remove x h)
  | OPop a => list_pop_front a h
  | OIsEmpty a => let! b := is_empty a h in Ret (h, Z.b2z b)
  end.

Fixpoint insert_before (y x : Z) (l : list Z) : list Z :=
  match l with
  | [] => []
  | z :: l => if z =? y then x :: z :: l else z :: insert_before y x l
  end.

(** What each promises; [None] where it promises nothing: a node that is in no
    heap or is already in use, a stranger removed. *)
Definition spec_op (N : gset Z) (o : list_op) (F : lists) : option (lists * Z) :=
  let at_list a (f : list Z -> option (lists * Z)) := F !! a ≫= f in
  let fresh x := bool_decide (x ∈ N) && is_free F x in
  match o with
  | OInit a => if fresh a then Some (<[a := []]> F, 0) else None
  | OAdd a x => at_list a (fun xs => if fresh x then Some (<[a := x :: xs]> F, 0) else None)
  | OAddTail a x => at_list a (fun xs => if fresh x then Some (<[a := xs ++ [x]]> F, 0) else None)
  | OInsert a y x => at_list a (fun xs =>
      if bool_decide (y ∈ xs) && fresh x then Some (<[a := insert_before y x xs]> F, 0) else None)
  | ORemove a x => at_list a (fun xs =>
      if bool_decide (x ∈ xs) then Some (<[a := filter (fun y => y <> x) xs]> F, 0) else None)
  | OPop a => at_list a (fun xs => Some (<[a := tail xs]> F, hd 0 xs))
  | OIsEmpty a => at_list a (fun xs => Some (F, Z.b2z (bool_decide (xs = []))))
  end.

Fixpoint exec_ops (os : list list_op) (h : heap) : outcome (heap * list Z) :=
  match os with
  | [] => Ret (h, [])
  | o :: os => let! (h, v) := exec_op o h in let! (h, vs) := exec_ops os h in Ret (h, v :: vs)
  end.
Fixpoint spec_ops (N : gset Z) (os : list list_op) (F : lists) : option (lists * list Z) :=
  match os with
  | [] => Some (F, [])
  | o :: os => '(F, v) ← spec_op N o F; '(F, vs) ← spec_ops N os F; Some (F, v :: vs)
  end.

Lemma insert_before_spec y x l : y ∈ l ->
  exists l1 l2, l = l1 ++ y :: l2 /\ insert_before y x l = l1 ++ x :: y :: l2.
Proof.
  induction l as [|z l IH]; [by intros ?%not_elem_of_nil|]. intros Hin. simpl.
  destruct (Z.eqb_spec z y) as [->|Hne]; [by exists [], l|].
  destruct IH as (l1 & l2 & -> & ->); [set_solver|]. by exists (z :: l1), l2.
Qed.

Section exec.
Context (h : heap) (N : gset Z) (F : lists).
Context (Hr : repr h N F).

Lemma in_ring_dom a xs c : F !! a = Some xs -> c ∈ a :: xs -> c ∈ dom h.
Proof. intros Ha Hin. eapply ring_dom; [by apply (repr_ring _ _ _ Hr)|done]. Qed.

(** [add] after the node that ends [l], [add_before] before the one that begins [r]. *)
Lemma add_in_ring a x l r (add : heap -> outcome heap) :
  F !! a = Some (l ++ r) -> x ∈ N -> is_free F x = true ->
  add = list_add (List.last l a) x \/ add = list_add_before (hd a r) x ->
  exists h', add h = Ret h' /\ repr h' N (<[a := l ++ x :: r]> F).
Proof.
  intros Ha HxN Hx Hadd. pose proof (proj1 (is_free_spec _ _) Hx _ _ Ha) as Hxa.
  destruct (ring_split _ _ _ _ (repr_ring _ _ _ Hr _ _ Ha)) as [Hn Hp].
  pose proof (last_in l a) as Hla. pose proof (hd_in r a) as Hra.
  assert (List.last l a ∈ dom h /\ hd a r ∈ dom h) as [Hdl Hdr]
    by (split; eapply in_ring_dom; try done; set_solver).
  assert (x <> List.last l a /\ x <> hd a r) as [? ?] by (split; intros ->; set_solver).
  assert (x ∈ dom h) by (by rewrite (repr_dom _ _ _ Hr)).
  assert (exists h', add h = Ret h' /\ linked_in (List.last l a) x (hd a r) h h') as (h' & ? & ?).
  { destruct Hadd as [-> | ->]; [by apply list_add_fields|by apply list_add_before_fields]. }
  exists h'. split; [done|]. by eapply repr_link.
Qed.

Lemma remove_in_ring a x l r :
  F !! a = Some (l ++ x :: r) ->
  exists h', list_remove x h = Ret h' /\ repr h' N (<[a := l ++ r]> F).
Proof.
  intros Ha. pose proof (repr_ring _ _ _ Hr _ _ Ha) as Hring.
  destruct (ring_split _ _ _ _ Hring) as [_ Hp].
  assert (ring h a ((l ++ [x]) ++ r)) as Hring' by (by rewrite <- app_assoc).
  destruct (ring_split _ _ _ _ Hring') as [Hn _]. rewrite List.last_last in Hn. simpl in Hp.
  pose proof (ring_nodup _ _ _ Hring) as [Hn1 Hn2].
  pose proof (last_in l a) as Hla. pose proof (hd_in r a) as Hra.
  assert (a :: l ++ x :: r ≡ₚ x :: a :: l ++ r) as Hperm
    by (rewrite app_comm_cons, <- Permutation_middle; done).
  rewrite Hperm in Hn1. apply NoDup_cons in Hn1 as [Hxn _].
  destruct (list_remove_fields x (List.last l a) (hd a r) h) as (h' & ? & ?); try done.
  - eapply in_ring_dom; [done|set_solver].
  - eapply in_ring_dom; [done|set_solver].
  - intros ->. set_solver.
  - intros ->. set_solver.
  - exists h'. split; [done|]. by eapply repr_unlink.
Qed.

Lemma init_ring a :
  a ∈ N -> is_free F a = true -> exists h', list_init a h = Ret h' /\ repr h' N (<[a := []]> F).
Proof.
  intros HaN Ha. pose proof (proj1 (is_free_spec _ _) Ha) as Hfree.
  assert (a ∈ dom h) by (by rewrite (repr_dom _ _ _ Hr)).
  unfold list_init. do 2 field_step. eexists. split; [done|].
  set (h' := h1). assert (dom h' = dom h) by (unfold h'; congruence).
  assert (forall c, next <$> h' !! c = (if decide (c = a) then Some a else next <$> h !! c) /\
    prev <$> h' !! c = (if decide (c = a) then Some a else prev <$> h !! c)) as Hf
    by (intros c; unfold h'; split; use_fields). clearbody h'. split.
  - rewrite (repr_dom _ _ _ Hr) in *. done.
  - apply Hr.
  - intros b ys Hb. apply lookup_insert_Some in Hb as [[<- <-]|[Hne Hb]].
    + split; [apply NoDup_singleton|]. split; field Hf a.
    + eapply ring_frame; [|by apply (repr_ring _ _ _ Hr)]. intros c Hc. pose proof (Hfree _ _ Hb).
      split; field Hf c.
  - intros b b' ys ys' c Hb Hb' Hc Hc'.
    apply lookup_insert_Some in Hb as [[<- <-]|[Hne Hb]];
      apply lookup_insert_Some in Hb' as [[<- <-]|[Hne' Hb']]; [done|..].
    + apply list_elem_of_singleton in Hc as ->. by apply Hfree in Hc'.
    + apply list_elem_of_singleton in Hc' as ->. by apply Hfree in Hc.
    + by eapply (repr_disjoint _ _ _ Hr).
  - intros c HcN Hc. rewrite is_free_spec in Hc.
    pose proof (Hc a _ (lookup_insert_eq _ _ _)) as Hca.
    assert (is_free F c = true) as Hc0.
    { apply is_free_spec. intros b ys Hb. destruct (decide (b = a)) as [->|Hne]; [by apply Hfree in Hb; set_solver|].
      apply Hc. by rewrite lookup_insert_ne. }
    rewrite <- (repr_invalid _ _ _ Hr c HcN Hc0). apply is_invalid_fields; field Hf c.
Qed.

Lemma is_empty_ring a xs : F !! a = Some xs -> is_empty a h = Ret (bool_decide (xs = [])).
Proof.
  intros Ha. pose proof (repr_ring _ _ _ Hr _ _ Ha) as [Hn Hc].
  destruct (chain_source _ _ _ _ Hc) as (n & Hh & Hx). unfold is_empty. rewrite Hh. simpl. f_equal.
  rewrite Hx. destruct xs as [|x xs]; cbn [hd].
  - by rewrite Z.eqb_refl, bool_decide_true.
  - apply NoDup_cons in Hn as [Hn _]. rewrite bool_decide_false by done. apply Z.eqb_neq. set_solver.
Qed.

End exec.

Lemma exec_op_refines h N F o F' v :
  repr h N F -> spec_op N o F = Some (F', v) -> exists h', exec_op o h = Ret (h', v) /\ repr h' N F'.
Proof.
  destruct o as [a|a x|a x|a y x|a x|a|a]; simpl; intros Hr Hs.
  - case_match; [|done]. zbool. simplify_eq.
    destruct (init_ring h N F Hr a) as (h' & -> & ?); [by eapply bool_decide_eq_true|done|]. by exists h'.
  - destruct (F !! a) as [xs|] eqn:Ha; [|done]. simpl in Hs. case_match; [|done]. zbool. simplify_eq.
    destruct (add_in_ring h N F Hr a x [] xs (list_add a x)) as (h' & -> & ?);
      [done|by eapply bool_decide_eq_true|done|by left|]. by exists h'.
  - destruct (F !! a) as [xs|] eqn:Ha; [|done]. simpl in Hs. case_match; [|done]. zbool. simplify_eq.
    destruct (add_in_ring h N F Hr a x xs [] (list_add_before a x)) as (h' & -> & ?);
      [by rewrite app_nil_r|by eapply bool_decide_eq_true|done|by right|]. by exists h'.
  - destruct (F !! a) as [xs|] eqn:Ha; [|done]. simpl in Hs. case_match; [|done]. zbool. simplify_eq.
    destruct (insert_before_spec y x xs) as (l & r & -> & ->); [by eapply bool_decide_eq_true|].
    destruct (add_in_ring h N F Hr a x l (y :: r) (list_add_before y x)) as (h' & -> & ?);
      [done|by eapply bool_decide_eq_true|done|by right|]. by exists h'.
  - destruct (F !! a) as [xs|] eqn:Ha; [|done]. simpl in Hs. case_bool_decide as Hx; [|done]. simplify_eq.
    apply list_elem_of_split in Hx as (l & r & ->).
    destruct (remove_in_ring h N F Hr a x l r Ha) as (h' & -> & ?). exists h'. split; [done|].
    pose proof (repr_ring _ _ _ Hr _ _ Ha) as [[_ Hn]%NoDup_cons _].
    apply NoDup_app in Hn as (_ & Hl & [Hxr _]%NoDup_cons).
    rewrite filter_ne_app; [done| |done]. intros Hx. apply (Hl _ Hx). left.
  - destruct (F !! a) as [xs|] eqn:Ha; [|done]. simpl in Hs. simplify_eq.
    unfold list_pop_front. rewrite (is_empty_ring h N F Hr a xs Ha). cbn [obind].
    destruct xs as [|x xs]; simpl.
    + exists h. by rewrite insert_id.
    + destruct (remove_in_ring h N F Hr a x [] xs Ha) as (h' & Hrm & ?).
      destruct (chain_source _ _ _ _ (proj2 (repr_ring _ _ _ Hr _ _ Ha))) as (n & -> & Hx).
      simpl in Hx. cbn [deref obind]. rewrite Hx, Hrm. by exists h'.
  - destruct (F !! a) as [xs|] eqn:Ha; [|done]. simpl in Hs. simplify_eq.
    rewrite (is_empty_ring _ _ _ Hr a xs Ha). by exists h.
Qed.

(** ** Loops over a list *)

(** A body that removes the nodes [P] selects and folds [step]. *)
Section traverse.
Context {A : Type} (body : Z -> heap -> A -> outcome (heap * A)) (step : Z -> A -> A) (P : Z -> bool).

Definition removes : Prop := forall x h a,
  body x h a = if P x then let! h := list_remove x h in Ret (h, step x a) else Ret (h, step x a).
Context (Hb : removes) (N : gset Z).

Lemma next_of_place h F a l r :
  repr h N F -> F !! a = Some (l ++ r) ->
  exists n, h !! List.last l a = Some n /\ next n = hd a r.
Proof.
  intros Hr Ha. destruct (ring_split _ _ _ _ (repr_ring _ _ _ Hr _ _ Ha)) as [Hn _].
  destruct (h !! List.last l a); simplify_eq/=. eauto.
Qed.

Lemma for_each_safe_loop_spec rest : forall fuel F h a kept nxt v,
  repr h N F -> F !! a = Some (kept ++ rest) -> (length rest <= fuel)%nat ->
  (rest = [] \/ nxt = hd a (tail rest)) ->
  exists h', for_each_safe_loop body fuel a (hd a rest) nxt h v =
      Ret (h', fold_left (fun v x => step x v) rest v) /\
    repr h' N (<[a := kept ++ filter (fun x => P x = false) rest]> F).
Proof.
  induction rest as [|x rest IH]; intros fuel F h a kept nxt v Hr Ha Hfuel Hnxt.
  { destruct fuel; simpl; rewrite Z.eqb_refl; exists h; by rewrite insert_id. }
  destruct fuel as [|fuel]; [simpl in Hfuel; lia|]. destruct Hnxt as [| ->]; [done|]. cbn [tail].
  pose proof (repr_ring _ _ _ Hr _ _ Ha) as [Hna _]. apply NoDup_cons in Hna as [Hna _].
  cbn [for_each_safe_loop hd]. destruct (Z.eqb_spec x a) as [->|Hxa]; [set_solver|].
  assert (exists h1 kept', body x h v = Ret (h1, step x v) /\
    repr h1 N (<[a := kept' ++ rest]> F) /\
    kept' ++ filter (fun x => P x = false) rest = kept ++ filter (fun x => P x = false) (x :: rest))
    as (h1 & kept' & -> & Hr1 & <-).
  { rewrite Hb, filter_cons. destruct (P x) eqn:HP.
    - destruct (remove_in_ring h N F Hr a x kept rest Ha) as (h1 & -> & Hr1).
      exists h1, kept. by rewrite decide_False.
    - exists h, (kept ++ [x]). rewrite decide_True, <- !app_assoc by done. simpl.
      by rewrite insert_id. }
  cbn [obind]. pose proof (lookup_insert_eq F a (kept' ++ rest)) as Ha1.
  assert (exists n, h1 !! hd a rest = Some n /\ (rest = [] \/ next n = hd a (tail rest))) as (n & -> & Hn).
  { destruct rest as [|y rest]; simpl.
    - assert (a ∈ dom h1) as [n ?]%elem_of_dom by (eapply in_ring_dom; [done..|left]). eauto.
    - assert (<[a := kept' ++ y :: rest]> F !! a = Some ((kept' ++ [y]) ++ rest)) as Ha2
        by (by rewrite <- app_assoc).
      destruct (next_of_place _ _ _ _ _ Hr1 Ha2) as (n & Hn & ?). rewrite List.last_last in Hn. eauto. }
  cbn [deref obind]. destruct (IH fuel _ h1 a kept' (next n) (step x v) Hr1 Ha1) as (h' & -> & Hr');
    [simpl in Hfuel; lia|done|]. exists h'. split; [done|]. by rewrite insert_insert_eq in Hr'.
Qed.
End traverse.

Lemma LIST_FOR_EACH_SAFE_spec {A} (body : Z -> heap -> A -> outcome (heap * A)) step P h N F a xs fuel v :
  removes body step P -> repr h N F -> F !! a = Some xs -> (length xs <= fuel)%nat ->
  exists h', LIST_FOR_EACH_SAFE body fuel a h v = Ret (h', fold_left (fun v x => step x v) xs v) /\
    repr h' N (<[a := filter (fun x => P x = false) xs]> F).
Proof.
  intros Hb Hr Ha Hf. unfold LIST_FOR_EACH_SAFE.
  destruct (next_of_place N h F a [] xs Hr Ha) as (n & Hn & Hx). simpl in Hn. rewrite Hn. cbn [deref obind].
  rewrite Hx. assert (hd a xs ∈ dom h) as [m Hm]%elem_of_dom.
  { eapply in_ring_dom; [done..|]. destruct xs; set_solver. }
  rewrite Hm. cbn [deref obind].
  apply (for_each_safe_loop_spec body step P Hb N xs fuel F h a [] (next m) v); try done.
  destruct xs as [|x xs]; [by left|right]. simpl in Hm.
  destruct (next_of_place N h F a [x] xs Hr Ha) as (m' & Hm' & Hx'). simpl in *. congruence.
Qed.

(** [LIST_FOR_EACH] with a body that leaves the lists alone. *)
Lemma for_each_loop_spec {A} (step : Z -> A -> A) N h F a rest : forall fuel kept v,
  repr h N F -> F !! a = Some (kept ++ rest) -> (length rest <= fuel)%nat ->
  for_each_loop (fun x h v => Ret (h, step x v)) fuel a (hd a rest) h v =
    Ret (h, fold_left (fun v x => step x v) rest v).
Proof.
  induction rest as [|x rest IH]; intros fuel kept v Hr Ha Hfuel.
  { destruct fuel; simpl; by rewrite Z.eqb_refl. }
  destruct fuel as [|fuel]; [simpl in Hfuel; lia|].
  pose proof (repr_ring _ _ _ Hr _ _ Ha) as [Hna _]. apply NoDup_cons in Hna as [Hna _].
  cbn [for_each_loop hd]. destruct (Z.eqb_spec x a) as [->|Hxa]; [set_solver|]. cbn [obind].
  replace (kept ++ x :: rest) with ((kept ++ [x]) ++ rest) in Ha by (by rewrite <- app_assoc).
  destruct (next_of_place N h F a _ _ Hr Ha) as (n & Hn & Hnx). rewrite List.last_last in Hn.
  rewrite Hn. cbn [deref obind fold_left]. rewrite Hnx. apply (IH fuel (kept ++ [x])); [done..|].
  simpl in Hfuel. lia.
Qed.

(** The members of a list, read by walking it. *)
Definition members (fuel : nat) (a : Z) (h : heap) : outcome (heap * list Z) :=
  LIST_FOR_EACH (fun x h seen => Ret (h, seen ++ [x])) fuel a h [].

Lemma fold_snoc (l acc : list Z) : fold_left (fun v x => v ++ [x]) l acc = acc ++ l.
Proof.
  revert acc. induction l as [|y l IH]; intros acc; simpl; [by rewrite app_nil_r|].
  by rewrite IH, <- app_assoc.
Qed.

Lemma members_spec h N F a xs :
  repr h N F -> F !! a = Some xs -> members (length xs) a h = Ret (h, xs).
Proof.
  intros Hr Ha. unfold members, LIST_FOR_EACH.
  destruct (next_of_place N h F a [] xs Hr Ha) as (n & Hn & Hx). simpl in Hn. rewrite Hn.
  cbn [deref obind]. rewrite Hx, (for_each_loop_spec _ N h F a xs _ [] []) by done.
  by rewrite fold_snoc.
Qed.

Lemma exec_ops_refines os h N F F' vs :
  repr h N F -> spec_ops N os F = Some (F', vs) ->
  exists h', exec_ops os h = Ret (h', vs) /\ repr h' N F'.
Proof.
  revert h F vs. induction os as [|o os IH]; intros h F vs Hr Hs; simpl in Hs; simplify_eq.
  { by exists h. }
  destruct (spec_op N o F) as [[F1 v]|] eqn:Ho; [|done]. simpl in Hs.
  destruct (spec_ops N os F1) as [[F2 vs']|] eqn:Hos; [|done]. simplify_eq/=.
  destruct (exec_op_refines _ _ _ _ _ _ Hr Ho) as (h1 & -> & Hr1). cbn [obind].
  destruct (IH _ _ _ Hr1 Hos) as (h2 & -> & Hr2). by exists h2.
Qed.

(** A loop body that unlinks the nodes [P] selects and notes what it visits. *)
Definition visit_remove (P : Z -> bool) (x : Z) (h : heap) (seen : list Z) : outcome (heap * list Z) :=
  if P x then let! h := list_remove x h in Ret (h, seen ++ [x]) else Ret (h, seen ++ [x]).

(** ** Theorems *)

(** C36. The intrusive list implements sequences: on a heap that represents a
    family of disjoint lists, any run of [init], [add], [add_before], [remove],
    [list_pop_front] and [is_empty], each used within what it asks for (a node
    linked must be in no list, a node removed must be in the list), is defined at
    the level of pointers, returns what the sequences return, and leaves a heap
    that represents the resulting family: every list a well-linked ring, the lists
    disjoint and every unlinked node [is_invalid]. [LIST_FOR_EACH] over any of the
    lists then visits exactly its members in order, and stops. *)
Theorem list_refines_sequences os h N F F' vs :
  repr h N F -> spec_ops N os F = Some (F', vs) ->
  exists h', exec_ops os h = Ret (h', vs) /\ repr h' N F' /\
    forall a xs, F' !! a = Some xs -> members (length xs) a h' = Ret (h', xs).
Proof.
  intros Hr Hs. destruct (exec_ops_refines _ _ _ _ _ _ Hr Hs) as (h' & ? & ?).
  exists h'. split_and!; [done..|]. intros. by eapply members_spec.
Qed.

(** [LIST_FOR_EACH_SAFE] visits the members once each, in order, although its
    body unlinks some of the nodes it visits, in at most as many turns as there
    are members; afterwards the list holds the others, in order, and no other
    list has changed. *)
Theorem for_each_safe_removes P h N F a xs :
  repr h N F -> F !! a = Some xs ->
  exists h', LIST_FOR_EACH_SAFE (visit_remove P) (length xs) a h [] = Ret (h', xs) /\
    repr h' N (<[a := filter (fun x => P x = false) xs]> F).
Proof.
  intros Hr Ha.
  destruct (LIST_FOR_EACH_SAFE_spec (visit_remove P)
    (fun x seen => seen ++ [x]) P h N F a xs (length xs) []) as (h' & -> & Hr'); [done..|].
  exists h'. by rewrite fold_snoc in *.
Qed.

(** ** Concrete lists: nodes 1 to 6, none of them linked *)

Definition loose_heap : heap := list_to_map ((fun a => (a, mkListHead 0 0)) <$> [1; 2; 3; 4; 5; 6]).

Lemma loose_repr : repr loose_heap {[1; 2; 3; 4; 5; 6]} ∅.
Proof.
  split; [vm_compute; reflexivity|set_solver|done|done|].
  intros c Hc _. unfold is_invalid. rewrite !elem_of_union, !elem_of_singleton in Hc.
  naive_solver.
Qed.

Definition queue_run : list list_op :=
  [OInit 1; OInit 2; OAddTail 1 3; OAddTail 1 4; OAdd 1 5; OInsert 1 4 6; ORemove 1 4;
   OAddTail 2 4; OPop 1; OPop 2; OPop 2; OIsEmpty 2; OIsEmpty 1].

Lemma list_refines_sequences_witness :
  spec_ops {[1; 2; 3; 4; 5; 6]} queue_run ∅ =
    Some ({[1 := [3; 6]; 2 := []]}, [0; 0; 0; 0; 0; 0; 0; 0; 5; 4; 0; 1; 0]) /\
  exists h', exec_ops queue_run loose_heap = Ret (h', [0; 0; 0; 0; 0; 0; 0; 0; 5; 4; 0; 1; 0]) /\
    repr h' {[1; 2; 3; 4; 5; 6]} {[1 := [3; 6]; 2 := []]} /\
    forall a xs, ({[1 := [3; 6]; 2 := []]} : lists) !! a = Some xs -> members (length xs) a h' = Ret (h', xs).
Proof.
  split; [vm_compute; reflexivity|].
  apply (list_refines_sequences _ _ _ ∅); [apply loose_repr|vm_compute; reflexivity].
Defined.

Definition four_heap : heap :=
  ret_of ∅ (let! (h, _) := exec_ops [OInit 1; OAddTail 1 2; OAddTail 1 3; OAddTail 1 4; OAddTail 1 5] loose_heap
            in Ret h).

Lemma four_repr : repr four_heap {[1; 2; 3; 4; 5; 6]} {[1 := [2; 3; 4; 5]]}.
Proof.
  destruct (exec_ops_refines [OInit 1; OAddTail 1 2; OAddTail 1 3; OAddTail 1 4; OAddTail 1 5]
    loose_heap {[1; 2; 3; 4; 5; 6]} ∅ {[1 := [2; 3; 4; 5]]} [0; 0; 0; 0; 0]) as (h' & He & Hr);
    [apply loose_repr|vm_compute; reflexivity|]. unfold four_heap. by rewrite He.
Qed.

Lemma for_each_safe_removes_witness :
  exists h', LIST_FOR_EACH_SAFE (visit_remove Z.even) 4 1 four_heap [] = Ret (h', [2; 3; 4; 5]) /\
    repr h' {[1; 2; 3; 4; 5; 6]}
      (<[1 := filter (fun x => Z.even x = false) [2; 3; 4; 5]]> {[1 := [2; 3; 4; 5]]}).
Proof.
  apply (for_each_safe_removes Z.even four_heap _ _ 1 [2; 3; 4; 5]); [apply four_repr|reflexivity].
Defined.
