(* ===== verification/CString.v ===== *)
(** * C strings: klib/cstring.cpp, and the hashes and byte swaps of klib/common.hpp

    A pointer into memory is the list of the bytes from it on, each in [0, 256):
    reading past the end is [Undef]. The loops recurse on the memory they walk. *)

From S2P Require Import Prelude.

(** ** klib/cstring.cpp *)

Abbreviation mem := (list Z).

Fixpoint strlen (str : mem) : outcome nat :=
  match str with
  | [] => Undef
  | c :: str => if c =? 0 then Ret 0%nat else let! n := strlen str in Ret (S n)
  end.

Fixpoint strnlen (str : mem) (maxlen : nat) : outcome nat :=
  match maxlen with
  | O => Ret 0%nat
  | S maxlen =>
      let! c := deref (head str) in
      if c =? 0 then Ret 0%nat else let! n := strnlen (tail str) maxlen in Ret (S n)
  end.

(** [memcpy(dst, src, n)], returning the destination as it is afterwards. *)
Definition memcpy (dst src : mem) (n : nat) : outcome mem :=
  if decide (n <= length src /\ n <= length dst)%nat then Ret (splice 0 (take n src) dst) else Undef.

Definition strcpy (dst src : mem) : outcome mem :=
  let! n := strlen src in memcpy dst src (n + 1).

(** The first loop of [strncpy] from index [i]: where it stops. *)
Fixpoint strncpy_copy (dst src : mem) (i n : nat) : outcome (mem * nat) :=
  match n with
  | O => Ret (dst, i)
  | S n =>
      let! c := deref (src !! i) in
      if c =? 0 then Ret (dst, i) else
      let! _ := deref (dst !! i) in
      strncpy_copy (<[i := c]> dst) src (S i) n
  end.
Fixpoint strncpy_fill (dst : mem) (i n : nat) : outcome mem :=
  match n with
  | O => Ret dst
  | S n => let! _ := deref (dst !! i) in strncpy_fill (<[i := 0]> dst) (S i) n
  end.
Definition strncpy (dst src : mem) (n : nat) : outcome mem :=
  let! (dst, i) := strncpy_copy dst src 0 n in strncpy_fill dst i (n - i).

(** The new block; [None] when there is no memory for it. *)
Definition strdup (have_memory : bool) (src : mem) : outcome (option mem) :=
  let! n := strlen src in
  if have_memory then let! s := memcpy (replicate (n + 1) 0) src (n + 1) in Ret (Some s)
  else Ret None.

Definition strcat (dst src : mem) : outcome mem :=
  let! n := strlen dst in
  let! d := strcpy (drop n dst) src in
  Ret (take n dst ++ d).

Fixpoint strcmp (lhs rhs : mem) : outcome Z :=
  match lhs, rhs with
  | l :: lhs, r :: rhs =>
      if negb (l =? 0) && (l =? r) then strcmp lhs rhs else Ret (l - r)
  | _, _ => Undef
  end.

Fixpoint strncmp (lhs rhs : mem) (count : nat) {struct count} : outcome Z :=
  match count with
  | O => Ret 0
  | S count =>
      match lhs, rhs with
      | l :: lhs, r :: rhs =>
          if negb (l =? 0) && (l =? r) then strncmp lhs rhs count else Ret (l - r)
      | _, _ => Undef
      end
  end.

(** The offset of the character found. *)
Fixpoint strchr (str : mem) (c : Z) : outcome (option nat) :=
  match str with
  | [] => Undef
  | x :: str =>
      if x =? c then Ret (Some 0%nat) else
      if x =? 0 then Ret None else
      let! r := strchr str c in Ret (S <$> r)
  end.

(** [memcmp(lhs, rhs, n) == 0]; it reads up to the first difference. *)
Fixpoint memcmp_eq (lhs rhs : mem) (n : nat) {struct n} : outcome bool :=
  match n with
  | O => Ret true
  | S n =>
      match lhs, rhs with
      | l :: lhs, r :: rhs => if l =? r then memcmp_eq lhs rhs n else Ret false
      | _, _ => Undef
      end
  end.

Fixpoint strstr_loop (str substr : mem) (n : nat) : outcome (option nat) :=
  match str with
  | [] => Undef
  | c :: rest =>
      if c =? 0 then Ret None else
      let! b := memcmp_eq str substr n in
      if (b : bool) then Ret (Some 0%nat) else
      let! r := strstr_loop rest substr n in Ret (S <$> r)
  end.
Definition strstr (str substr : mem) : outcome (option nat) :=
  let! n := strlen substr in strstr_loop str substr n.

(** ** klib/common.hpp *)

(** [char] is signed. *)
Definition i8 (z : Z) : Z := (z + 128) mod 256 - 128.

(** [klib::hash] of a C string: djb2a. *)
Fixpoint hash_loop (str : mem) (hash : Z) : outcome Z :=
  match str with
  | [] => Undef
  | c :: str =>
      if c =? 0 then Ret hash
      else hash_loop str (u32 (Z.lxor (u32 (u32 (Z.shiftl hash 5) + hash)) (u32 (i8 c))))
  end.
Definition hash_string (str : mem) : outcome Z := hash_loop str 5381.

(** [klib::hash(u64)]: murmur64's finaliser. *)
Definition hash_u64 (h : Z) : Z :=
  let h := Z.lxor h (Z.shiftr h 33) in
  let h := u64 (h * 18397679294719823053) in
  let h := Z.lxor h (Z.shiftr h 33) in
  let h := u64 (h * 14181476777654086739) in
  Z.lxor h (Z.shiftr h 33).

Definition hash_combine (old_hash new_hash : Z) : Z :=
  Z.lxor old_hash
    (u64 (u64 (u64 (new_hash + 11400714819323198485) + u64 (Z.shiftl old_hash 6)) +
          Z.shiftr old_hash 2)).

Definition bswap16 (x : Z) : Z := u16 (Z.lor (Z.shiftr x 8) (Z.shiftl x 8)).
Definition bswap32 (x : Z) : Z :=
  Z.lor (Z.lor (Z.lor (Z.shiftr x 24) (Z.land (u32 (Z.shiftl x 8)) 16711680))
               (Z.land (Z.shiftr x 8) 65280)) (u32 (Z.shiftl x 24)).

(** [BigEndian<u32>]: the bytes in memory, lowest address first. *)
Definition BigEndian32 (x : Z) : Z := bswap32 x.
Definition from_BigEndian32 (data : Z) : Z := bswap32 data.

(** ** Strings *)

(** The bytes of a C string, without its terminator. *)
Definition is_char (c : Z) : Prop := 0 < c < 256.
Definition text (s : list Z) : Prop := Forall is_char s.
(** Most functions only ask that no character is the terminator. *)
Definition chars (s : list Z) : Prop := Forall (fun c => c <> 0) s.
(** A string in memory, with whatever follows it. *)
Definition cstr (s rest : list Z) : mem := s ++ 0 :: rest.

Lemma is_char_nz c : is_char c -> (c =? 0) = false.
Proof. unfold is_char. lia. Qed.
Lemma text_chars s : text s -> chars s.
Proof. intros Hs. eapply Forall_impl; [exact Hs|]. unfold is_char. lia. Qed.
#[export] Hint Extern 0 (chars _) => apply text_chars; assumption : core.

Lemma cstr_cons c s rest : cstr (c :: s) rest = c :: cstr s rest.
Proof. done. Qed.

Lemma strlen_cstr s rest : chars s -> strlen (cstr s rest) = Ret (length s).
Proof.
  induction 1 as [|c s Hc _ IH]; [done|]. rewrite cstr_cons. simpl.
  by rewrite (proj2 (Z.eqb_neq c 0) Hc), IH.
Qed.

Lemma strlen_Ret m n : strlen m = Ret n -> exists s rest, m = cstr s rest /\ chars s /\ length s = n.
Proof.
  revert n. induction m as [|c m IH]; intros n H; [done|]. simpl in H. destruct (Z.eqb_spec c 0) as [->|Hc].
  - injection H as <-. exists [], m. split; [done|]. split; [constructor|done].
  - destruct (strlen m) as [n'| |]; try done. injection H as <-.
    destruct (IH n' eq_refl) as (s & rest & -> & Hs & <-). exists (c :: s), rest. split; [done|].
    split; [by constructor|done].
Qed.

Lemma memcpy_Ret dst src n : (n <= length src)%nat -> (n <= length dst)%nat ->
  memcpy dst src n = Ret (take n src ++ drop n dst).
Proof.
  intros. unfold memcpy. rewrite decide_True by done. unfold splice. simpl.
  rewrite length_take, Nat.min_l by done. done.
Qed.

Lemma strcpy_cstr dst s rest : chars s -> (length s < length dst)%nat ->
  strcpy dst (cstr s rest) = Ret (cstr s (drop (length s + 1) dst)).
Proof.
  intros Hs Hl. unfold strcpy. rewrite strlen_cstr by done. cbn [obind].
  rewrite memcpy_Ret by (unfold cstr; rewrite ?length_app; simpl; lia). f_equal.
  unfold cstr. rewrite take_app_ge by lia.
  replace (length s + 1 - length s)%nat with 1%nat by lia. by rewrite <- app_assoc.
Qed.

Lemma strcat_cstr a b ra rb : text a -> text b -> (length b <= length ra)%nat ->
  strcat (cstr a ra) (cstr b rb) = Ret (cstr (a ++ b) (drop (length b) ra)).
Proof.
  intros Ha Hb Hl. unfold strcat. rewrite strlen_cstr by done. cbn [obind].
  unfold cstr at 1. rewrite drop_app_length.
  rewrite strcpy_cstr by (simpl; auto with lia). cbn [obind].
  unfold cstr. rewrite take_app_length, <- !app_assoc. by rewrite Nat.add_1_r.
Qed.

Lemma strdup_cstr s rest : chars s -> strdup true (cstr s rest) = Ret (Some (cstr s [])).
Proof.
  intros. unfold strdup. rewrite strlen_cstr by done. cbn [obind].
  rewrite memcpy_Ret by (unfold cstr; rewrite ?length_app, ?length_replicate; simpl; lia). cbn [obind].
  do 2 f_equal. unfold cstr. rewrite take_app_ge by lia.
  replace (length s + 1 - length s)%nat with 1%nat by lia.
  rewrite drop_ge by (rewrite length_replicate; lia). simpl. by rewrite app_nil_r.
Qed.

(** Lexicographic comparison of strings. *)
Fixpoint compare (a b : list Z) : comparison :=
  match a, b with
  | [], [] => Eq
  | [], _ => Lt
  | _, [] => Gt
  | x :: a, y :: b => match x ?= y with Eq => compare a b | c => c end
  end.

Lemma compare_eq a b : compare a b = Eq <-> a = b.
Proof.
  revert b. induction a as [|x a IH]; intros [|y b]; simpl; try done.
  destruct (Z.compare_spec x y); subst; rewrite ?IH; split; intros; simplify_eq; try done; lia.
Qed.

Lemma strcmp_compare a b ra rb : text a -> text b ->
  exists d, strcmp (cstr a ra) (cstr b rb) = Ret d /\ (d ?= 0) = compare a b.
Proof.
  intros Ha. revert b. induction Ha as [|x a Hx Ha IH]; intros b Hb; destruct Hb as [|y b Hy Hb];
    rewrite ?cstr_cons; unfold is_char in *.
  - by exists 0.
  - exists (0 - y). split; [done|]. simpl. apply Z.compare_lt_iff. lia.
  - exists (x - 0). simpl. rewrite is_char_nz by done. simpl. destruct (Z.eqb_spec x 0); [lia|].
    split; [done|]. apply Z.compare_gt_iff. lia.
  - simpl. rewrite is_char_nz by done. simpl. destruct (Z.eqb_spec x y) as [->|Hne].
    + rewrite Z.compare_refl. by apply IH.
    + exists (x - y). split; [done|]. destruct (Z.compare_spec x y); [lia|..].
      * apply Z.compare_lt_iff. lia.
      * apply Z.compare_gt_iff. lia.
Qed.

Lemma strcmp_cstr a b ra rb : chars a -> chars b ->
  exists d, strcmp (cstr a ra) (cstr b rb) = Ret d /\ (d = 0 <-> a = b).
Proof.
  intros Ha. revert b. induction Ha as [|x a Hx Ha IH]; intros b Hb; destruct Hb as [|y b Hy Hb];
    rewrite ?cstr_cons; simpl.
  - by exists 0.
  - exists (0 - y). split; [done|]. split; [lia|done].
  - rewrite (proj2 (Z.eqb_neq x 0)) by done. simpl.
    exists (x - 0). split; [done|]. split; [lia|done].
  - rewrite (proj2 (Z.eqb_neq x 0)) by done. simpl. destruct (Z.eqb_spec x y) as [->|Hne].
    + destruct (IH b Hb) as (d & ? & Hd). exists d. split; [done|]. rewrite Hd.
      split; [by intros ->|by intros [= ->]].
    + exists (x - y). split; [done|]. split; [lia|intros [= -> ?]; done].
Qed.

Lemma strchr_cstr s c rest : chars s -> c <> 0 ->
  strchr (cstr s rest) c =
    Ret (fst <$> list_find (fun x => x = c) s).
Proof.
  intros Hs Hc. induction Hs as [|x s Hx _ IH]; unfold cstr; cbn [app strchr list_find].
  - by rewrite (proj2 (Z.eqb_neq 0 c)) by done.
  - rewrite (proj2 (Z.eqb_neq x 0) Hx). destruct (Z.eqb_spec x c); [by rewrite decide_True|].
    rewrite decide_False by done. fold (cstr s rest). rewrite IH. cbn [obind].
    by destruct (list_find _ s) as [[]|].
Qed.

(** The offset of the first place where [t] occurs in [s]. *)
Fixpoint find_sub (t s : list Z) : option nat :=
  if decide (t `prefix_of` s) then Some 0%nat else
  match s with [] => None | _ :: s => S <$> find_sub t s end.

Lemma memcmp_eq_prefix s t rest rt : text s -> text t ->
  memcmp_eq (cstr s rest) (cstr t rt) (length t) = Ret (bool_decide (t `prefix_of` s)).
Proof.
  intros Hs Ht. revert s Hs. induction Ht as [|y t Hy Ht IH]; intros s Hs.
  { rewrite bool_decide_true by apply prefix_nil. done. }
  destruct Hs as [|x s Hx Hs]; unfold cstr; cbn [app length memcmp_eq].
  - destruct (Z.eqb_spec 0 y); [unfold is_char in *; lia|].
    rewrite bool_decide_false; [done|]. by intros [? ?].
  - destruct (Z.eqb_spec x y) as [->|Hne].
    + change (s ++ 0 :: rest) with (cstr s rest). change (t ++ 0 :: rt) with (cstr t rt).
      rewrite IH by done. f_equal. apply bool_decide_ext.
      split; [apply prefix_cons|apply prefix_cons_inv_2].
    + rewrite bool_decide_false; [done|]. intros ?%prefix_cons_inv_1. congruence.
Qed.

(** [t] occurs in [s] first at [i]. *)
Definition first_occurrence (t s : list Z) (i : nat) : Prop :=
  (i <= length s)%nat /\ t `prefix_of` drop i s /\
  forall j, (j < i)%nat -> ~ t `prefix_of` drop j s.

Lemma strstr_loop_spec s t rest rt : text s -> text t -> t <> [] ->
  exists r, strstr_loop (cstr s rest) (cstr t rt) (length t) = Ret r /\
    match r with
    | Some i => first_occurrence t s i
    | None => forall i, ~ t `prefix_of` drop i s
    end.
Proof.
  intros Hs Ht Hne. induction Hs as [|c s Hc Hs IH].
  { exists None. split; [done|]. intros i. rewrite drop_nil. by intros ->%prefix_nil_inv. }
  rewrite cstr_cons. cbn [strstr_loop]. rewrite (is_char_nz _ Hc), <- cstr_cons.
  rewrite memcmp_eq_prefix; [|by constructor|done]. cbn [obind]. case_bool_decide as Hp.
  { exists (Some 0%nat). split; [done|]. split_and!; [lia|done|lia]. }
  destruct IH as (r & -> & Hr). exists (S <$> r). split; [done|]. destruct r as [i|]; simpl.
  - destruct Hr as (? & ? & Hj). split_and!; [simpl; lia|done|].
    intros [|j] ?; [done|]. apply Hj. lia.
  - intros [|i]; [done|apply Hr].
Qed.

(** The string functions on C strings in memory, whatever follows their
    terminators: [strcmp] returns a number whose sign is the lexicographic order of
    the strings, 0 exactly for equal ones; [strchr] finds the first occurrence of
    a character; [strstr] finds the first occurrence of a non-empty string and
    reads nothing past either terminator; [strcat] appends, when the destination
    has room for it, and [strlen] of the result is the sum of the lengths. *)
Theorem string_functions a b c ra rb :
  text a -> text b -> b <> [] -> c <> 0 -> (length b <= length ra)%nat ->
  (exists d, strcmp (cstr a ra) (cstr b rb) = Ret d /\ (d ?= 0) = compare a b /\ (d = 0 <-> a = b)) /\
  strchr (cstr a ra) c = Ret (fst <$> list_find (fun x => x = c) a) /\
  (exists r, strstr (cstr a ra) (cstr b rb) = Ret r /\
    match r with Some i => first_occurrence b a i | None => forall i, ~ b `prefix_of` drop i a end) /\
  (exists m, strcat (cstr a ra) (cstr b rb) = Ret m /\
    m = cstr (a ++ b) (drop (length b) ra) /\ strlen m = Ret (length a + length b)%nat).
Proof.
  intros Ha Hb Hne Hc Hl. split_and!.
  - destruct (strcmp_compare a b ra rb Ha Hb) as (d & ? & Hd). exists d. split_and!; [done..|].
    rewrite <- compare_eq, <- Hd. symmetry. apply Z.compare_eq_iff.
  - by apply strchr_cstr.
  - unfold strstr. rewrite strlen_cstr by done. by apply strstr_loop_spec.
  - eexists. split_and!; [by apply strcat_cstr|done|].
    rewrite strlen_cstr by (apply Forall_app; split; by apply text_chars). by rewrite length_app.
Qed.

(** "kernel" and "ne", the destination with room for three more bytes. *)
Lemma string_functions_witness :
  let a := [107; 101; 114; 110; 101; 108] in let b := [110; 101] in
  strstr (cstr a [9; 9; 9]) (cstr b [5]) = Ret (Some 3%nat) /\
  (exists d, strcmp (cstr a [9; 9; 9]) (cstr b [5]) = Ret d /\ (d ?= 0) = compare a b /\ (d = 0 <-> a = b)) /\
  strchr (cstr a [9; 9; 9]) 101 = Ret (fst <$> list_find (fun x => x = 101) a) /\
  (exists r, strstr (cstr a [9; 9; 9]) (cstr b [5]) = Ret r /\
    match r with Some i => first_occurrence b a i | None => forall i, ~ b `prefix_of` drop i a end) /\
  (exists m, strcat (cstr a [9; 9; 9]) (cstr b [5]) = Ret m /\
    m = cstr (a ++ b) (drop (length b) [9; 9; 9]) /\ strlen m = Ret (length a + length b)%nat).
Proof.
  intros a b. split; [vm_compute; reflexivity|].
  apply (string_functions a b 101 [9; 9; 9] [5]);
    [repeat constructor..|discriminate|discriminate|simpl; lia].
Defined.

(** [strstr] of the empty string in the empty string is a null pointer. *)
Lemma strstr_empty : strstr (cstr [] []) (cstr [] []) = Ret None.
Proof. reflexivity. Qed.

(** ** Hashes *)

(** The hash of a string depends on its bytes alone. *)
Lemma hash_string_cstr s rest rest' : chars s ->
  exists h, hash_string (cstr s rest) = Ret h /\ hash_string (cstr s rest') = Ret h.
Proof.
  unfold hash_string. generalize 5381. intros h0 Hs. revert h0.
  induction Hs as [|c s Hc _ IH]; intros h0; simpl; [by eexists|].
  rewrite (proj2 (Z.eqb_neq c 0) Hc). apply IH.
Qed.

(** ** Byte order *)

(** Where bit [i] of a swapped word comes from. *)
Definition mirror (n i : Z) : Z := 8 * (n - 1 - i / 8) + i mod 8.

Lemma testbit_u32 x i : 0 <= i -> Z.testbit (u32 x) i = (i <? 32) && Z.testbit x i.
Proof.
  intros. unfold u32. change 4294967296 with (2 ^ 32). destruct (Z.ltb_spec i 32).
  - by rewrite Z.mod_pow2_bits_low.
  - by rewrite Z.mod_pow2_bits_high by lia.
Qed.

Lemma testbit_high x i n : 0 <= x < 2 ^ n -> n <= i -> Z.testbit x i = false.
Proof.
  intros Hx Hi. destruct (Z.eq_dec x 0) as [->|]; [apply Z.bits_0|].
  apply Z.bits_above_log2; [lia|]. apply Z.log2_lt_pow2; [lia|].
  apply Z.lt_le_trans with (2 ^ n); [lia|]. apply Z.pow_le_mono_r; lia.
Qed.

(** A statement about each of the first 32 bits. *)
Lemma for_bits (P : Z -> Prop) :
  Forall P (seqZ 0 32) -> forall i, 0 <= i < 32 -> P i.
Proof. intros H i Hi. rewrite Forall_forall in H. apply H. by apply elem_of_seqZ. Qed.

Lemma testbit_bswap32 x i : 0 <= x < 2 ^ 32 -> 0 <= i ->
  Z.testbit (bswap32 x) i = (i <? 32) && Z.testbit x (mirror 4 i).
Proof.
  intros Hx Hi. unfold bswap32. destruct (Z.ltb_spec i 32) as [Hl|Hl].
  - revert i Hi Hl. assert (forall i, 0 <= i < 32 -> Z.testbit (bswap32 x) i = Z.testbit x (mirror 4 i));
      [|intros; unfold bswap32 in *; auto]. apply for_bits. unfold bswap32.
    let l := eval vm_compute in (seqZ 0 32) in change (seqZ 0 32) with l.
    repeat (apply Forall_cons; split;
      [rewrite !Z.lor_spec, !Z.land_spec, !testbit_u32, !Z.shiftr_spec, !Z.shiftl_spec by done;
       cbn -[Z.testbit]; rewrite ?(Z.testbit_neg_r x), ?andb_false_r, ?andb_true_r, ?orb_false_r by done;
       cbn -[Z.testbit]; try (rewrite (testbit_high x _ 32) by done); try done|]).
    apply Forall_nil_2.
  - assert (forall m, 0 <= m < 2 ^ 32 -> Z.testbit m i = false) as Hm
      by (intros; by apply (testbit_high _ _ 32)).
    rewrite !Z.lor_spec, !Z.land_spec, !testbit_u32, !Z.shiftr_spec by done.
    rewrite (Hm 16711680), (Hm 65280), (testbit_high x _ 32) by lia.
    destruct (Z.ltb_spec i 32); [lia|]. by rewrite !andb_false_r.
Qed.

Lemma bswap32_range x : 0 <= x < 2 ^ 32 -> 0 <= bswap32 x < 2 ^ 32.
Proof.
  intros Hx. assert (bswap32 x = bswap32 x mod 2 ^ 32) as ->.
  { apply Z.bits_inj'. intros i Hi. destruct (Z.lt_ge_cases i 32).
    - by rewrite Z.mod_pow2_bits_low.
    - rewrite Z.mod_pow2_bits_high, testbit_bswap32 by lia. by destruct (Z.ltb_spec i 32); [lia|]. }
  apply Z.mod_pos_bound. lia.
Qed.

(** A word stored big-endian and read back is itself. *)
Lemma bswap32_involutive x : 0 <= x < 2 ^ 32 -> from_BigEndian32 (BigEndian32 x) = x.
Proof.
  intros Hx. apply Z.bits_inj'. intros i Hi. unfold from_BigEndian32, BigEndian32.
  rewrite !testbit_bswap32 by (try apply bswap32_range; unfold mirror; lia).
  destruct (Z.ltb_spec i 32); simpl; [|by rewrite (testbit_high x _ 32)].
  rewrite testbit_bswap32 by (unfold mirror; lia).
  replace (mirror 4 (mirror 4 i)) with i by (unfold mirror; lia).
  destruct (Z.ltb_spec (mirror 4 i) 32); [done|unfold mirror in *; lia].
Qed.

Lemma testbit_u16 x i : 0 <= i -> Z.testbit (u16 x) i = (i <? 16) && Z.testbit x i.
Proof.
  intros. unfold u16. change 65536 with (2 ^ 16). destruct (Z.ltb_spec i 16).
  - by rewrite Z.mod_pow2_bits_low.
  - by rewrite Z.mod_pow2_bits_high by lia.
Qed.

Lemma testbit_bswap16 x i : 0 <= x < 2 ^ 16 -> 0 <= i ->
  Z.testbit (bswap16 x) i = (i <? 16) && Z.testbit x (mirror 2 i).
Proof.
  intros Hx Hi. unfold bswap16. rewrite testbit_u16 by done.
  destruct (Z.ltb_spec i 16); [|done]. rewrite !andb_true_l, Z.lor_spec, Z.shiftr_spec, Z.shiftl_spec by done.
  destruct (Z.lt_ge_cases i 8) as [Hl|Hl].
  - rewrite (Z.testbit_neg_r x (i - 8)), orb_false_r by lia. f_equal. unfold mirror. lia.
  - rewrite (testbit_high x (i + 8) 16) by lia. rewrite orb_false_l. f_equal. unfold mirror. lia.
Qed.

Lemma bswap16_involutive x : 0 <= x < 2 ^ 16 -> bswap16 (bswap16 x) = x.
Proof.
  intros Hx. apply Z.bits_inj'. intros i Hi.
  rewrite testbit_bswap16 by (try (unfold bswap16, u16; apply Z.mod_pos_bound); unfold mirror; lia).
  destruct (Z.ltb_spec i 16); simpl; [|by rewrite (testbit_high x _ 16)].
  rewrite testbit_bswap16 by (unfold mirror; lia).
  replace (mirror 2 (mirror 2 i)) with i by (unfold mirror; lia).
  destruct (Z.ltb_spec (mirror 2 i) 16); [done|unfold mirror in *; lia].
Qed.
