(* ===== verification/HashTable.v ===== *)
(** * klib::HashTable (klib/hashtable.hpp)

    A fixed array of buckets, each an intrusive list of entries kept here as the
    sequence of its members, latest first. Keys are compared by [operator ==],
    except that a lookup of a C string compares with [strcmp]; the table is
    proved against an interface of keys that gives both comparisons and the hash. *)

From S2P Require Import Prelude CString.

(** ** Keys *)

Class HashKey (K : Type) := {
  hash : K -> outcome Z;               (** [klib::hash] *)
  key_lookup_eq : K -> K -> outcome bool;   (** the comparison of [operator \[\]] *)
  key_remove_eq : K -> K -> bool            (** the comparison of [remove] *)
}.

(** [usize] and [uptr] keys. *)
#[export] Instance HashKey_u64 : HashKey Z := {
  hash k := Ret (hash_u64 k);
  key_lookup_eq a b := Ret (a =? b);
  key_remove_eq a b := a =? b
}.

(** [const char*]: the pointer and the memory it points to. *)
Record char_ptr := mkCharPtr { address : Z; pointee : mem }.
#[export] Instance HashKey_string : HashKey char_ptr := {
  hash k := hash_string (pointee k);
  key_lookup_eq a b := let! d := strcmp (pointee a) (pointee b) in Ret (d =? 0);
  key_remove_eq a b := address a =? address b
}.

(** ** The table *)

Section table.
Context {K V : Type} `{HashKey K}.

Record HashTable := mkHashTable { table : list (list (K * V)); num_stored : Z }.
#[local] Instance eta_HashTable : Settable HashTable := fun t => mkHashTable (table t) (num_stored t).

Definition table_size (t : HashTable) : Z := Z.of_nat (length (table t)).

(** [HashTable(table_size)]. *)
Definition HashTable_init (size : nat) : HashTable := mkHashTable (replicate size []) 0.

(** The index of the bucket; [% 0] is undefined. *)
Definition get_hash_bucket (t : HashTable) (key : K) : outcome nat :=
  let! h := hash key in
  if table_size t =? 0 then Undef else Ret (Z.to_nat (h mod table_size t)).

Fixpoint find_entry (key : K) (bucket : list (K * V)) : outcome (option V) :=
  match bucket with
  | [] => Ret None
  | (k, v) :: bucket =>
      let! e := key_lookup_eq k key in
      if (e : bool) then Ret (Some v) else find_entry key bucket
  end.
(** [operator \[\]]. *)
Definition ht_lookup (t : HashTable) (key : K) : outcome (option V) :=
  let! i := get_hash_bucket t key in
  let! b := deref (table t !! i) in
  find_entry key b.

Definition emplace (t : HashTable) (key : K) (value : V) : outcome HashTable :=
  let! i := get_hash_bucket t key in
  let! b := deref (table t !! i) in
  Ret (t <| table ::= <[i := (key, value) :: b]> |> <| num_stored ::= fun n => u64 (n + 1) |>).

(** The bucket without its first entry for the key, or [None] if it has none. *)
Fixpoint remove_entry (key : K) (bucket : list (K * V)) : option (list (K * V)) :=
  match bucket with
  | [] => None
  | (k, v) :: bucket =>
      if key_remove_eq k key then Some bucket else cons (k, v) <$> remove_entry key bucket
  end.
Definition ht_remove (t : HashTable) (key : K) : outcome HashTable :=
  let! i := get_hash_bucket t key in
  let! b := deref (table t !! i) in
  match remove_entry key b with
  | Some b' => Ret (t <| num_stored ::= fun n => u64 (n - 1) |> <| table ::= <[i := b']> |>)
  | None => Ret t
  end.

Definition ht_for_each {S} (func : S -> K -> V -> S) (t : HashTable) (s : S) : S :=
  fold_left (fun s b => fold_left (fun s e => func s (fst e) (snd e)) b s) (table t) s.
End table.
Arguments HashTable : clear implicits.
#[export] Instance eta_HashTable' {K V} : Settable (HashTable K V) :=
  fun t => mkHashTable (table t) (num_stored t).

(** ** What a table is of *)

(** Keys whose two comparisons are one decidable equality [same], which the hash
    respects. *)
Class GoodKey (K : Type) `{HashKey K} (valid : K -> Prop) := {
  same : K -> K -> bool;
  good_hash k : valid k -> exists h, hash k = Ret h /\ 0 <= h;
  good_lookup a b : valid a -> valid b -> key_lookup_eq a b = Ret (same a b);
  good_remove a b : key_remove_eq a b = same a b;
  same_equiv a b c : valid a -> valid b -> valid c -> same a a = true /\ same a b = same b a /\
    (same a b = true -> same b c = same a c);
  same_hash a b : valid a -> valid b -> same a b = true -> hash a = hash b
}.

Lemma lxor_nonneg a b : 0 <= a -> 0 <= b -> 0 <= Z.lxor a b.
Proof. intros. by apply Z.lxor_nonneg. Qed.

#[export] Program Instance GoodKey_u64 : GoodKey Z (fun k => 0 <= k < 18446744073709551616) := {
  same a b := a =? b
}.
Next Obligation.
  intros k Hk. eexists. split; [reflexivity|]. unfold hash_u64.
  repeat first [apply lxor_nonneg | apply Z.shiftr_nonneg | apply u64_range]; lia.
Qed.
Next Obligation. done. Qed.
Next Obligation. done. Qed.
Next Obligation.
  intros a b c _ _ _. split_and!; [apply Z.eqb_refl|apply Z.eqb_sym|].
  intros ->%Z.eqb_eq. done.
Qed.
Next Obligation. simpl. intros a b _ _ ->%Z.eqb_eq. done. Qed.

(** ** The specification: one association list, latest first *)

Inductive ht_op (K V : Type) :=
| HEmplace (k : K) (v : V)
| HRemove (k : K)
| HLookup (k : K).
Arguments HEmplace {K V} k v.
Arguments HRemove {K V} k.
Arguments HLookup {K V} k.

Definition op_key {K V} (o : ht_op K V) : K :=
  match o with HEmplace k _ | HRemove k | HLookup k => k end.

Fixpoint ht_exec {K V} `{HashKey K} (os : list (ht_op K V)) (t : HashTable K V)
    : outcome (HashTable K V * list (option V)) :=
  match os with
  | [] => Ret (t, [])
  | o :: os =>
      let! (t, r) := match o with
                     | HEmplace k v => let! t := emplace t k v in Ret (t, None)
                     | HRemove k => let! t := ht_remove t k in Ret (t, None)
                     | HLookup k => let! r := ht_lookup t k in Ret (t, r)
                     end in
      let! (t, rs) := ht_exec os t in Ret (t, r :: rs)
  end.

Section spec.
Context {K V : Type} (valid : K -> Prop) `{GoodKey K valid}.
Implicit Types (l b : list (K * V)) (k : K) (t : HashTable K V).

Fixpoint assoc (k : K) l : option V :=
  match l with [] => None | (k', v) :: l => if same k' k then Some v else assoc k l end.
Fixpoint assoc_remove (k : K) l : list (K * V) :=
  match l with [] => [] | (k', v) :: l => if same k' k then l else (k', v) :: assoc_remove k l end.

Fixpoint spec_exec (os : list (ht_op K V)) l : list (K * V) * list (option V) :=
  match os with
  | [] => (l, [])
  | o :: os =>
      let '(l, r) := match o with
                     | HEmplace k v => ((k, v) :: l, None)
                     | HRemove k => (assoc_remove k l, None)
                     | HLookup k => (l, assoc k l)
                     end in
      let '(l, rs) := spec_exec os l in (l, r :: rs)
  end.

(** ** The refinement *)

(** The entries with a key. *)
Definition entries_of (k : K) l : list (K * V) := filter (fun e => same (fst e) k = true) l.

Definition valid_entries l : Prop := Forall (fun e => valid (fst e)) l.

Record refines t l : Prop := {
  ref_size : 0 < table_size t;
  ref_stored : num_stored t = u64 (Z.of_nat (length l));
  ref_valid : Forall valid_entries (table t);
  ref_perm : concat (table t) ≡ₚ l;
  ref_bucket k i b : valid k -> get_hash_bucket t k = Ret i -> table t !! i = Some b ->
    entries_of k b = entries_of k l
}.

Lemma find_entry_spec k b : valid k -> valid_entries b -> find_entry k b = Ret (snd <$> head (entries_of k b)).
Proof.
  intros Hk. induction 1 as [|[k' v] b Hv _ IH]; [done|]. simpl. rewrite good_lookup by done. simpl.
  unfold entries_of. rewrite filter_cons. simpl. destruct (same k' k); [done|]. by rewrite decide_False.
Qed.

Lemma assoc_spec k l : assoc k l = snd <$> head (entries_of k l).
Proof.
  induction l as [|[k' v] l IH]; [done|]. unfold entries_of. rewrite filter_cons. simpl.
  destruct (same k' k); [done|]. by rewrite decide_False.
Qed.

Lemma bucket_lookup t k : 0 < table_size t -> valid k ->
  exists i b, get_hash_bucket t k = Ret i /\ table t !! i = Some b.
Proof.
  intros Ht Hk. destruct (good_hash k Hk) as (h & Hh & Hp). unfold get_hash_bucket. rewrite Hh. simpl.
  destruct (Z.eqb_spec (table_size t) 0); [lia|].
  assert (Z.to_nat (h mod table_size t) < length (table t))%nat as [b Hb]%lookup_lt_is_Some
    by (unfold table_size in *; lia).
  eauto.
Qed.

Lemma get_hash_bucket_length t t' k : length (table t') = length (table t) ->
  get_hash_bucket t' k = get_hash_bucket t k.
Proof. intros Hl. unfold get_hash_bucket, table_size. by rewrite Hl. Qed.

Lemma same_bucket t k k' : valid k -> valid k' -> same k k' = true ->
  get_hash_bucket t k = get_hash_bucket t k'.
Proof. intros ? ? Hs. unfold get_hash_bucket. by rewrite (same_hash k k'). Qed.

Lemma concat_insert (ls : list (list (K * V))) i b : ls !! i = Some b ->
  exists rest, concat ls ≡ₚ b ++ rest /\ forall b', concat (<[i := b']> ls) ≡ₚ b' ++ rest.
Proof.
  intros (l1 & l2 & -> & ->)%list_elem_of_split_length. exists (concat l1 ++ concat l2).
  assert (forall x : list (K * V), concat (l1 ++ x :: l2) ≡ₚ x ++ concat l1 ++ concat l2) as Hp
    by (intros x; rewrite concat_app; simpl; by rewrite !app_assoc, (Permutation_app_comm x)).
  split; [apply Hp|]. intros b'. rewrite <- (Nat.add_0_r (length l1)), insert_app_r. apply Hp.
Qed.

(** Whether the removal finds its key in [b], and what it leaves. *)
Lemma remove_entry_spec k b :
  match remove_entry k b with
  | Some b' => exists l1 e l2, b = l1 ++ e :: l2 /\ b' = l1 ++ l2 /\ same (fst e) k = true /\
      entries_of k l1 = []
  | None => entries_of k b = []
  end.
Proof.
  induction b as [|[k' v] b IH]; [done|]. simpl. rewrite good_remove.
  destruct (same k' k) eqn:E; [by exists [], (k', v), b|].
  destruct (remove_entry k b) as [b'|]; simpl.
  - destruct IH as (l1 & e & l2 & -> & -> & ? & ?). exists ((k', v) :: l1), e, l2. split_and!; try done.
    unfold entries_of. rewrite filter_cons_False; [done|]. simpl. by rewrite E.
  - unfold entries_of. rewrite filter_cons_False; [done|]. simpl. by rewrite E.
Qed.
Lemma assoc_remove_spec k l :
  (exists l1 e l2, l = l1 ++ e :: l2 /\ assoc_remove k l = l1 ++ l2 /\ same (fst e) k = true /\
      entries_of k l1 = []) \/
  (assoc_remove k l = l /\ entries_of k l = []).
Proof.
  induction l as [|[k' v] l IH]; [by right|]. simpl. destruct (same k' k) eqn:E.
  { left. by exists [], (k', v), l. }
  destruct IH as [(l1 & e & l2 & -> & -> & ? & ?)|[-> ?]].
  - left. exists ((k', v) :: l1), e, l2. split_and!; try done.
    unfold entries_of. rewrite filter_cons_False; [done|]. simpl. by rewrite E.
  - right. split; [done|]. unfold entries_of. rewrite filter_cons_False; [done|]. simpl. by rewrite E.
Qed.

Lemma entries_of_same k k' l : valid k -> valid k' -> valid_entries l -> same k k' = true ->
  entries_of k' l = entries_of k l.
Proof.
  intros Hk Hk' Hl Hs. unfold entries_of. induction Hl as [|e l He _ IH]; [done|].
  rewrite !filter_cons, IH.
  destruct (same_equiv k k' (fst e) Hk Hk' He) as (_ & _ & Htr). specialize (Htr Hs).
  destruct (same_equiv (fst e) k k' He Hk Hk') as (_ & -> & _).
  destruct (same_equiv (fst e) k' k He Hk' Hk) as (_ & -> & _). by rewrite Htr.
Qed.

(** Removing the first entry of [k] takes one from the entries of [k]. *)
Lemma entries_of_remove k k' l1 e l2 :
  valid k -> valid k' -> valid_entries (l1 ++ e :: l2) ->
  same (fst e) k = true -> entries_of k l1 = [] ->
  entries_of k' (l1 ++ l2) =
    if same k k' then tail (entries_of k' (l1 ++ e :: l2)) else entries_of k' (l1 ++ e :: l2).
Proof.
  intros Hk Hk' Hv Hs Hl1. apply Forall_app in Hv as [Hv1 [He Hv2]%Forall_cons].
  unfold entries_of. rewrite !filter_app, filter_cons.
  destruct (same_equiv (fst e) k k' He Hk Hk') as (_ & _ & Htr). rewrite (Htr Hs).
  destruct (same (fst e) k') eqn:E; [|by rewrite decide_False].
  rewrite decide_True by done. assert (same k k' = true) as Ek by (by rewrite Htr).
  pose proof (entries_of_same k k' l1 Hk Hk' Hv1 Ek) as Hl. unfold entries_of in *.
  by rewrite Hl, Hl1.
Qed.

Lemma entries_of_cons k k' v l :
  entries_of k ((k', v) :: l) = if same k' k then (k', v) :: entries_of k l else entries_of k l.
Proof. unfold entries_of. rewrite filter_cons. simpl. destruct (same k' k); by case_decide. Qed.

Lemma ht_lookup_refines t l k : refines t l -> valid k -> ht_lookup t k = Ret (assoc k l).
Proof.
  intros Hr Hk. destruct (bucket_lookup t k (ref_size _ _ Hr) Hk) as (i & b & Hi & Hb).
  unfold ht_lookup. rewrite Hi. simpl. rewrite Hb. simpl. rewrite find_entry_spec; [|done|].
  - by rewrite (ref_bucket _ _ Hr _ _ _ Hk Hi Hb), assoc_spec.
  - eapply Forall_lookup_1; [apply (ref_valid _ _ Hr)|done].
Qed.

Section step.
Context (t : HashTable K V) (l : list (K * V)) (Hr : refines t l).

Lemma table_size_insert i b : table_size (t <| table ::= <[i := b]> |>) = table_size t.
Proof. unfold table_size. simpl. by rewrite length_insert. Qed.

Lemma emplace_refines k v : valid k -> exists t', emplace t k v = Ret t' /\ refines t' ((k, v) :: l).
Proof.
  intros Hk. destruct (bucket_lookup t k (ref_size _ _ Hr) Hk) as (i & b & Hi & Hb).
  unfold emplace. rewrite Hi. simpl. rewrite Hb. simpl. eexists. split; [done|]. split; simpl.
  - unfold table_size. simpl. rewrite length_insert. apply (ref_size _ _ Hr).
  - rewrite (ref_stored _ _ Hr). rewrite u64_add_l. f_equal. lia.
  - apply Forall_insert; [apply (ref_valid _ _ Hr)|]. constructor; [done|].
    eapply Forall_lookup_1; [apply (ref_valid _ _ Hr)|done].
  - destruct (concat_insert _ _ _ Hb) as (rest & Hc & Hc'). rewrite Hc'. simpl. f_equiv.
    rewrite <- (ref_perm _ _ Hr). by rewrite Hc.
  - intros k' j b' Hk' Hj Hb'. rewrite (get_hash_bucket_length t) in Hj by (simpl; by rewrite length_insert).
    rewrite entries_of_cons. apply list_lookup_insert_Some in Hb' as [(-> & <- & _)|[Hne Hb']].
    + rewrite entries_of_cons. rewrite (ref_bucket _ _ Hr k' _ b Hk' Hj Hb). done.
    + rewrite (ref_bucket _ _ Hr k' _ _ Hk' Hj Hb'). destruct (same k k') eqn:E; [|done].
      rewrite (same_bucket t k k') in Hi by done. congruence.
Qed.

Lemma ht_remove_refines k : valid k ->
  exists t', ht_remove t k = Ret t' /\ refines t' (assoc_remove k l).
Proof.
  intros Hk. destruct (bucket_lookup t k (ref_size _ _ Hr) Hk) as (i & b & Hi & Hb).
  pose proof (ref_bucket _ _ Hr _ _ _ Hk Hi Hb) as Hkb.
  assert (valid_entries b) as Hvb by (eapply Forall_lookup_1; [apply (ref_valid _ _ Hr)|done]).
  assert (valid_entries l) as Hvl by (unfold valid_entries; rewrite <- (ref_perm _ _ Hr);
    apply Forall_concat, (ref_valid _ _ Hr)).
  unfold ht_remove. rewrite Hi. simpl. rewrite Hb. simpl.
  pose proof (remove_entry_spec k b) as Hrm. destruct (remove_entry k b) as [b'|].
  - destruct Hrm as (b1 & e & b2 & -> & -> & He & Hb1).
    assert (head (entries_of k (b1 ++ e :: b2)) = Some e) as Hhd.
    { unfold entries_of in *. rewrite filter_app, Hb1, filter_cons_True by done. done. }
    destruct (assoc_remove_spec k l) as [(l1 & e' & l2 & -> & -> & He' & Hl1)|[_ Hn]];
      [|rewrite Hkb, Hn in Hhd; done].
    assert (e' = e) as ->.
    { rewrite Hkb in Hhd. unfold entries_of in Hhd, Hl1.
      rewrite filter_app, Hl1, filter_cons_True in Hhd by done. by injection Hhd. }
    eexists. split; [done|]. split; simpl.
    + unfold table_size. simpl. rewrite length_insert. apply (ref_size _ _ Hr).
    + rewrite (ref_stored _ _ Hr), u64_sub_l, !length_app. simpl. f_equal. lia.
    + apply Forall_insert; [apply (ref_valid _ _ Hr)|].
      apply Forall_app in Hvb as [? [_ ?]%Forall_cons]. by apply Forall_app.
    + destruct (concat_insert _ _ _ Hb) as (rest & Hc & Hc'). rewrite Hc'.
      pose proof (ref_perm _ _ Hr) as Hp. rewrite Hc in Hp.
      apply (Permutation_cons_inv (a := e)). rewrite (Permutation_middle l1).
      rewrite <- Hp, <- (Permutation_middle b1). done.
    + intros k' j b' Hk' Hj Hb'. rewrite (get_hash_bucket_length t) in Hj by (simpl; by rewrite length_insert).
      rewrite (entries_of_remove k k' l1 e l2) by done.
      apply list_lookup_insert_Some in Hb' as [(-> & <- & _)|[Hne Hb']].
      * rewrite (entries_of_remove k k' b1 e b2) by done. by rewrite (ref_bucket _ _ Hr k' _ _ Hk' Hj Hb).
      * rewrite (ref_bucket _ _ Hr k' _ _ Hk' Hj Hb'). destruct (same k k') eqn:E; [|done].
        rewrite (same_bucket t k k') in Hi by done. congruence.
  - exists t. split; [done|]. destruct (assoc_remove_spec k l) as [(l1 & e & l2 & Hl & _ & He & _)|[-> _]]; [|done].
    rewrite Hkb, Hl in Hrm. unfold entries_of in Hrm. rewrite filter_app, (filter_cons_True _ e) in Hrm by done.
    by apply app_eq_nil in Hrm as [_ ?].
Qed.
End step.

Lemma init_refines n : (0 < n)%nat -> refines (HashTable_init n) [].
Proof.
  intros Hn. split; simpl.
  - unfold table_size. simpl. rewrite length_replicate. lia.
  - done.
  - apply Forall_replicate. constructor.
  - clear. by induction n.
  - intros k i b _ _ Hb. by apply lookup_replicate in Hb as [-> _].
Qed.

Lemma ht_exec_refines os t l : refines t l -> Forall (fun o => valid (op_key o)) os ->
  exists t', ht_exec os t = Ret (t', snd (spec_exec os l)) /\ refines t' (fst (spec_exec os l)).
Proof.
  intros Hr Hos. revert t l Hr. induction Hos as [|o os Ho _ IH]; intros t l Hr; [by exists t|].
  destruct o as [k v|k|k]; simpl in *.
  - destruct (emplace_refines t l Hr k v Ho) as (t1 & -> & Hr1). simpl.
    destruct (IH _ _ Hr1) as (t' & -> & Hr'). simpl. destruct (spec_exec os _). eauto.
  - destruct (ht_remove_refines t l Hr k Ho) as (t1 & -> & Hr1). simpl.
    destruct (IH _ _ Hr1) as (t' & -> & Hr'). simpl. destruct (spec_exec os _). eauto.
  - rewrite (ht_lookup_refines t l k Hr Ho). simpl.
    destruct (IH _ _ Hr) as (t' & -> & Hr'). simpl. destruct (spec_exec os _). eauto.
Qed.

Lemma ht_for_each_refines t l : refines t l ->
  ht_for_each (fun es k v => es ++ [(k, v)]) t [] ≡ₚ l.
Proof.
  intros Hr. rewrite <- (ref_perm _ _ Hr). unfold ht_for_each.
  assert (forall b acc, fold_left (fun (s : list (K * V)) e => s ++ [(fst e, snd e)]) b acc = acc ++ b) as Hb.
  { induction b as [|[] b IH]; intros acc; simpl; [by rewrite app_nil_r|]. by rewrite IH, <- app_assoc. }
  enough (forall bs acc, fold_left (fun s b => fold_left (fun (s : list (K * V)) e => s ++ [(fst e, snd e)]) b s) bs acc =
    acc ++ concat bs) as -> by done.
  induction bs as [|b bs IH]; intros acc; simpl; [by rewrite app_nil_r|]. by rewrite Hb, IH, <- app_assoc.
Qed.

(** C37. The hash table implements an association list, latest entry first: on a
    table of any positive number of buckets, any run of [emplace], [remove] and
    lookups with valid keys is defined, returns what the list returns (a lookup the
    latest value of the key, a removal the latest entry gone), counts its entries,
    and [for_each] then visits exactly the entries of the list. *)
Theorem hashtable_refines_list n os :
  (0 < n)%nat -> Forall (fun o => valid (op_key o)) os ->
  exists t', ht_exec os (HashTable_init n) = Ret (t', snd (spec_exec os [])) /\
    num_stored t' = u64 (Z.of_nat (length (fst (spec_exec os [])))) /\
    ht_for_each (fun es k v => es ++ [(k, v)]) t' [] ≡ₚ fst (spec_exec os []).
Proof.
  intros Hn Hos. destruct (ht_exec_refines os _ _ (init_refines n Hn) Hos) as (t' & He & Hr).
  exists t'. split_and!; [done|apply (ref_stored _ _ Hr)|by apply ht_for_each_refines].
Qed.
End spec.

(** Two entries of the futex table in one bucket, a key emplaced twice. *)
Definition ht_run : list (ht_op Z Z) :=
  [HEmplace 4096 1; HEmplace 8192 2; HEmplace 4096 3; HLookup 4096; HRemove 4096; HLookup 4096;
   HRemove 4096; HLookup 4096; HLookup 8192].

Lemma hashtable_refines_list_witness :
  snd (spec_exec (fun k => 0 <= k < 18446744073709551616) ht_run []) =
    [None; None; None; Some 3; None; Some 1; None; None; Some 2] /\
  exists t', ht_exec ht_run (HashTable_init 1) =
      Ret (t', snd (spec_exec (fun k => 0 <= k < 18446744073709551616) ht_run [])) /\
    num_stored t' = u64 (Z.of_nat (length (fst (spec_exec (fun k => 0 <= k < 18446744073709551616) ht_run [])))) /\
    ht_for_each (fun es k v => es ++ [(k, v)]) t' [] ≡ₚ
      fst (spec_exec (fun k => 0 <= k < 18446744073709551616) ht_run []).
Proof.
  split; [reflexivity|]. apply hashtable_refines_list; [lia|]. repeat constructor; simpl; lia.
Defined.

(** With C strings for keys, a removal does not find the entry a lookup finds,
    unless it is given the very pointer the entry was made with. *)
Lemma string_remove_by_pointer :
  let t := ret_of (HashTable_init 8) (emplace (HashTable_init 8) (mkCharPtr 4096 [97; 0]) 1) in
  ht_lookup t (mkCharPtr 8192 [97; 0]) = Ret (Some 1) /\
  ht_remove t (mkCharPtr 8192 [97; 0]) = Ret t.
Proof. split; reflexivity. Qed.
