(* ===== verification/Algorithm.v ===== *)
(** * klib/algorithm.hpp and klib/bitmap.hpp

    [Module klib] holds the integer helpers ([min], [max], [clamp],
    [align_up], [align_down], [bits_to], [num_digits]), at the [usize]
    instantiation the kernel uses; [Module Bitmap] the fixed-size bitmap. *)

From S2P Require Import Prelude.

Module klib.
Definition min (a b : Z) : Z := if b <? a then b else a.
Definition max (a b : Z) : Z := if a <? b then b else a.
Definition clamp (v low high : Z) : Z := min (max v low) high.

Definition align_up (i alignment : Z) : Z :=
  if negb (i mod alignment =? 0) then u64 (u64 (i / alignment + 1) * alignment) else i.
Definition align_down (i alignment : Z) : Z :=
  if negb (i mod alignment =? 0) then u64 (i / alignment * alignment) else i.
(** [bits_to<usize>]: words of 64 bits needed for [i] bits. *)
Definition bits_to (i : Z) : Z := align_up i 64 / 64.

(** [while (x /= base) i++;] with [fuel] turns. *)
Fixpoint num_digits_loop (fuel : nat) (i x base : Z) : option Z :=
  match fuel with
  | O => None
  | S fuel =>
      let x := x / base in
      if x =? 0 then Some i else num_digits_loop fuel (u64 (i + 1)) x base
  end.
Definition num_digits (x base : Z) : option Z := num_digits_loop 65 0 x base.

Lemma min_Zmin a b : min a b = Z.min a b.
Proof. unfold min. case_if; lia. Qed.
Lemma max_Zmax a b : max a b = Z.max a b.
Proof. unfold max. case_if; lia. Qed.

Lemma align_up_spec i a :
  0 < a -> 0 <= i -> i + a <= 18446744073709551616 ->
  i <= align_up i a < i + a /\ align_up i a mod a = 0 /\ 0 <= align_up i a.
Proof.
  intros Ha Hi Hb. unfold align_up.
  pose proof (Z.div_mod i a ltac:(lia)) as Hdm. pose proof (Z.mod_pos_bound i a Ha).
  assert (0 <= i / a) by (apply Z.div_pos; lia).
  assert (i / a <= i) by (apply Z.div_le_upper_bound; nia).
  case_if; [|lia].
  destruct (decide (i / a + 1 = 18446744073709551616)) as [Hq|Hq].
  { assert (a = 1) by nia. subst. rewrite Z.mod_1_r in *. lia. }
  rewrite (u64_small (i / a + 1)) by lia.
  destruct (decide ((i / a + 1) * a = 18446744073709551616)); [nia|].
  rewrite u64_small by nia. split_and!; [nia|nia| |nia]. apply Z.mod_mul. lia.
Qed.

Lemma align_down_spec i a :
  0 < a -> 0 <= i < 18446744073709551616 ->
  i - a < align_down i a <= i /\ align_down i a mod a = 0 /\ 0 <= align_down i a.
Proof.
  intros Ha Hi. unfold align_down.
  pose proof (Z.div_mod i a ltac:(lia)). pose proof (Z.mod_pos_bound i a Ha).
  assert (0 <= i / a) by (apply Z.div_pos; lia).
  case_if; [|lia]. rewrite u64_small by nia.
  split_and!; [nia|nia| |nia]. apply Z.mod_mul. lia.
Qed.

Lemma align_down_page i :
  0 <= i < 18446744073709551616 -> align_down i PAGE_SIZE = i / PAGE_SIZE * PAGE_SIZE.
Proof. intros. unfold align_down, PAGE_SIZE. case_if; [word|lia]. Qed.

Lemma align_up_page i :
  0 <= i <= 18446744073709547520 ->
  align_up i PAGE_SIZE = (i + PAGE_SIZE - 1) / PAGE_SIZE * PAGE_SIZE.
Proof. intros. unfold align_up, PAGE_SIZE. case_if; word. Qed.

Lemma num_digits_loop_spec fuel i x base :
  2 <= base -> 0 <= x < 2 ^ Z.of_nat fuel -> 0 <= i -> i + Z.of_nat fuel < 2 ^ 63 ->
  exists n, num_digits_loop (S fuel) i x base = Some (i + n) /\ 0 <= n <= Z.of_nat fuel /\
    x < base ^ (n + 1) /\ (x = 0 \/ base ^ n <= x).
Proof.
  intros Hb. revert i x. induction fuel as [|fuel IH]; intros i x Hx Hi Hf.
  - assert (x = 0) as -> by lia. exists 0. cbn [num_digits_loop].
    rewrite Z.div_0_l, Z.add_0_r by lia. split_and!; [done|lia|lia|lia|by left].
  - cbn [num_digits_loop]. case_if.
    + exists 0. assert (x < base) by (apply Z.div_small_iff in E; lia).
      rewrite Z.add_0_r. split_and!; [done|lia|lia|lia|]. rewrite Z.pow_0_r. lia.
    + destruct (IH (i + 1) (x / base)) as (n & Heq & Hn & Hlt & Hge); [|lia|lia|].
      { split; [apply Z.div_pos; lia|]. apply Z.div_lt_upper_bound; [lia|].
        rewrite Nat2Z.inj_succ, Z.pow_succ_r in Hx by lia. nia. }
      exists (n + 1). rewrite u64_small by lia. cbn [num_digits_loop] in Heq.
      rewrite Heq. split_and!; [f_equal; lia|lia|lia| |].
      * rewrite (Z.pow_add_r base (n + 1)) by lia. rewrite Z.pow_1_r.
        pose proof (Z.mul_succ_div_gt x base ltac:(lia)). nia.
      * right. destruct Hge as [|Hge]; [lia|]. rewrite Z.pow_add_r, Z.pow_1_r by lia.
        pose proof (Z.mul_div_le x base ltac:(lia)). nia.
Qed.
End klib.

(** ** [klib::Bitmap<size>] *)
Module Bitmap.
Definition bits_per_usize : Z := 64.
Record t := mk { data : list Z }.

Definition init (size : Z) : t := mk (replicate (Z.to_nat (klib.bits_to size)) 0).

Definition get (b : t) (index : Z) : outcome bool :=
  let! w := deref (data b !! Z.to_nat (index / bits_per_usize)) in
  Ret (Z.land (Z.shiftr w (index mod bits_per_usize)) 1 =? 1).

Definition set (b : t) (index : Z) (value : bool) : outcome t :=
  let d := Z.to_nat (index / bits_per_usize) in
  let r := index mod bits_per_usize in
  let! w := deref (data b !! d) in
  Ret (mk (<[d := if value then Z.lor w (Z.shiftl 1 r)
                  else Z.land w (u64 (Z.lnot (Z.shiftl 1 r)))]> (data b))).

(** Every word fits 64 bits. *)
Definition wf (b : t) : Prop := Forall (fun w => 0 <= w < 18446744073709551616) (data b).

Lemma get_testbit b index w :
  0 <= index -> data b !! Z.to_nat (index / bits_per_usize) = Some w ->
  get b index = Ret (Z.testbit w (index mod bits_per_usize)).
Proof.
  intros Hi Hw. unfold get. rewrite Hw. simpl. f_equal. unfold bits_per_usize.
  pose proof (Z.mod_pos_bound index 64 ltac:(lia)).
  rewrite Z.testbit_odd. set (x := Z.shiftr _ _).
  change 1 with (Z.ones 1) at 1. rewrite Z.land_ones, Z.pow_1_r, Zmod_odd by lia.
  by destruct (Z.odd x).
Qed.

Lemma testbit_not_mask w r j :
  0 <= r < 64 -> 0 <= j < 64 ->
  Z.testbit (Z.land w (u64 (Z.lnot (Z.shiftl 1 r)))) j = Z.testbit w j && negb (j =? r).
Proof.
  intros Hr Hj. rewrite Z.land_spec. f_equal. unfold u64.
  change 18446744073709551616 with (2 ^ 64).
  rewrite Z.mod_pow2_bits_low, Z.lnot_spec, Z.shiftl_spec by lia. f_equal.
  destruct (Z.eqb_spec j r) as [->|]; [by rewrite Z.sub_diag|].
  destruct (decide (j < r)); [by rewrite Z.testbit_neg_r by lia|].
  apply Z.bits_above_log2; simpl; lia.
Qed.

Lemma testbit_mask w r j :
  0 <= r < 64 -> 0 <= j < 64 ->
  Z.testbit (Z.lor w (Z.shiftl 1 r)) j = Z.testbit w j || (j =? r).
Proof.
  intros Hr Hj. rewrite Z.lor_spec, Z.shiftl_spec by lia. f_equal.
  destruct (Z.eqb_spec j r) as [->|]; [by rewrite Z.sub_diag|].
  destruct (decide (j < r)); [by rewrite Z.testbit_neg_r by lia|].
  apply Z.bits_above_log2; simpl; lia.
Qed.

Lemma set_get b i j v b' :
  0 <= i -> 0 <= j -> set b i v = Ret b' ->
  get b' j = if decide (i = j) then Ret v else get b j.
Proof.
  intros Hi Hj Hset. unfold set in Hset. inv_ret.
  lazymatch goal with H : data b !! _ = Some ?x |- _ => rename x into w, H into Hw end.
  unfold bits_per_usize in *.
  pose proof (Z.mod_pos_bound i 64 ltac:(lia)). pose proof (Z.mod_pos_bound j 64 ltac:(lia)).
  pose proof (lookup_lt_Some _ _ _ Hw) as Hlen.
  destruct (decide (i / 64 = j / 64)) as [Hd|Hd].
  - rewrite Hd in Hw, Hlen |- *.
    erewrite (get_testbit (mk _)); [|lia|simpl; by rewrite list_lookup_insert_eq].
    rewrite (get_testbit b j w) by done. unfold bits_per_usize.
    case_decide as Hij; [subst|].
    + destruct v; [rewrite testbit_mask by lia|rewrite testbit_not_mask by lia];
        rewrite Z.eqb_refl; [by rewrite orb_true_r|by rewrite andb_false_r].
    + assert (j mod 64 =? i mod 64 = false) as Hne by (apply Z.eqb_neq; lia).
      destruct v; [rewrite testbit_mask by lia|rewrite testbit_not_mask by lia];
        rewrite Hne; [by rewrite orb_false_r|by rewrite andb_true_r].
  - rewrite decide_False by congruence. unfold get. simpl.
    rewrite list_lookup_insert_ne; [done|]. unfold bits_per_usize.
    assert (0 <= i / 64) by (apply Z.div_pos; lia).
    assert (0 <= j / 64) by (apply Z.div_pos; lia). lia.
Qed.
End Bitmap.
