(* ===== verification/QSort.v ===== *)
(** * klib::qsort (klib/algorithm.hpp)

    The Hoare partition and the quicksort over it, on an array of integers given
    by its contents; positions are indices. A read or write outside the array is
    [Undef]. The loops carry fuel, one unit per iteration; the theorem shows that
    the array's length is enough. *)

From S2P Require Import Prelude.

(** ** Definitions *)

(** [while ( *low < pivot ) ++low;] *)
Fixpoint scan_up (fuel : nat) (l : list Z) (low : nat) (pivot : Z) : outcome nat :=
  match fuel with
  | O => Undef
  | S fuel =>
      let! x := deref (l !! low) in
      if x <? pivot then scan_up fuel l (S low) pivot else Ret low
  end.

(** [do --high; while (pivot < *high);] *)
Fixpoint scan_down (fuel : nat) (l : list Z) (high : nat) (pivot : Z) : outcome nat :=
  match fuel with
  | O => Undef
  | S fuel =>
      match high with
      | O => Undef
      | S high =>
          let! x := deref (l !! high) in
          if pivot <? x then scan_down fuel l high pivot else Ret high
      end
  end.

Definition swap (l : list Z) (i j : nat) : outcome (list Z) :=
  let! x := deref (l !! i) in
  let! y := deref (l !! j) in
  Ret (<[j := x]> (<[i := y]> l)).

Fixpoint partition_loop (fuel : nat) (l : list Z) (low high : nat) (pivot : Z)
    : outcome (nat * list Z) :=
  match fuel with
  | O => Undef
  | S fuel =>
      let! low := scan_up (S (length l)) l low pivot in
      let! high := scan_down (S (length l)) l high pivot in
      if (high <=? low)%nat then Ret (low, l) else
      let! l := swap l low high in
      partition_loop fuel l (S low) high pivot
  end.

Definition qsort_partition (l : list Z) (low high : nat) : outcome (nat * list Z) :=
  let! pivot := deref (l !! (low + (high - low) / 2)%nat) in
  partition_loop (S (length l)) l low high pivot.

Fixpoint qsort (fuel : nat) (l : list Z) (begin end_ : nat) : outcome (list Z) :=
  match fuel with
  | O => Undef
  | S fuel =>
      if (end_ - begin <? 2)%nat then Ret l else
      let! (p, l) := qsort_partition l begin end_ in
      let! l := qsort fuel l begin p in
      qsort fuel l p end_
  end.

(** ** The loops *)

Lemma scan_up_spec l pivot k x : forall fuel low,
  (low <= k)%nat -> l !! k = Some x -> pivot <= x -> (k - low < fuel)%nat ->
  exists i y, scan_up fuel l low pivot = Ret i /\ (low <= i <= k)%nat /\ l !! i = Some y /\
    pivot <= y /\ forall j z, (low <= j < i)%nat -> l !! j = Some z -> z < pivot.
Proof.
  intros fuel. induction fuel as [|fuel IH]; intros low Hle Hk Hx Hf; [lia|]. cbn [scan_up].
  destruct (lookup_lt_is_Some_2 l low) as [y Hy]; [apply lookup_lt_Some in Hk; lia|].
  rewrite Hy. cbn [deref obind]. destruct (Z.ltb_spec y pivot).
  - assert (low <> k) by (intros ->; simplify_eq; lia).
    destruct (IH (S low)) as (i & z & -> & ? & ? & ? & Hb); [lia|done..|lia|].
    exists i, z. split_and!; [done|lia|lia|done|done|]. intros j w Hj Hw.
    destruct (decide (j = low)) as [->|]; [naive_solver|]. eapply Hb; [|done]. lia.
  - exists low, y. split_and!; try done; try lia.
Qed.

Lemma scan_down_spec l pivot k x : forall fuel high,
  (k < high <= length l)%nat -> l !! k = Some x -> x <= pivot -> (high - k <= fuel)%nat ->
  exists i y, scan_down fuel l high pivot = Ret i /\ (k <= i < high)%nat /\ l !! i = Some y /\
    y <= pivot /\ forall j z, (i < j < high)%nat -> l !! j = Some z -> pivot < z.
Proof.
  intros fuel. induction fuel as [|fuel IH]; intros high Hle Hk Hx Hf; [lia|].
  destruct high as [|high]; [lia|]. cbn [scan_down].
  destruct (lookup_lt_is_Some_2 l high) as [y Hy]; [lia|].
  rewrite Hy. cbn [deref obind]. destruct (Z.ltb_spec pivot y).
  - assert (high <> k) by (intros ->; simplify_eq; lia).
    destruct (IH high) as (i & z & -> & ? & ? & ? & Hb); [lia|done..|lia|].
    exists i, z. split_and!; [done|lia|lia|done|done|]. intros j w Hj Hw.
    destruct (decide (j = high)) as [->|]; [naive_solver|]. eapply Hb; [|done]. lia.
  - exists high, y. split_and!; try done; try lia.
Qed.

(** ** Permuting a range of the array *)

(** [l'] is [l] with the elements of [b, e) reordered. *)
Record perm_in (b e : nat) (l l' : list Z) : Prop := {
  perm_perm : l ≡ₚ l';
  perm_outside i : (i < b \/ e <= i)%nat -> l' !! i = l !! i
}.

#[export] Instance perm_in_preorder b e : PreOrder (perm_in b e).
Proof.
  split; [done|]. intros l1 l2 l3 [H1 H1'] [H2 H2']. split; [by etrans|].
  intros i Hi. by rewrite H2', H1'.
Qed.

Lemma perm_in_length b e l l' : perm_in b e l l' -> length l' = length l.
Proof. intros [H _]. by rewrite H. Qed.

Lemma perm_in_weaken b e b' e' l l' :
  perm_in b e l l' -> (b' <= b)%nat -> (e <= e')%nat -> perm_in b' e' l l'.
Proof. intros [H H'] ? ?. split; [done|]. intros i Hi. apply H'. lia. Qed.

Lemma split3 (b e : nat) (l : list Z) : (b <= e)%nat ->
  l = take b l ++ take (e - b) (drop b l) ++ drop e l.
Proof.
  intros. transitivity (take b l ++ drop b l); [by rewrite take_drop|]. f_equal.
  transitivity (take (e - b) (drop b l) ++ drop (e - b) (drop b l)); [by rewrite take_drop|].
  f_equal. rewrite drop_drop. f_equal. lia.
Qed.

(** What holds of every element of the range survives. *)
Lemma perm_in_Forall (P : Z -> Prop) b e l l' : (b <= e)%nat -> perm_in b e l l' ->
  (forall i x, (b <= i < e)%nat -> l !! i = Some x -> P x) ->
  forall i x, (b <= i < e)%nat -> l' !! i = Some x -> P x.
Proof.
  intros Hbe [Hp Ho] HP i x Hi Hx.
  assert (take (e - b) (drop b l) ≡ₚ take (e - b) (drop b l')) as Hseg.
  { rewrite (split3 b e l Hbe), (split3 b e l' Hbe) in Hp.
    assert (take b l' = take b l) as E1.
    { apply list_eq. intros j. destruct (decide (j < b)%nat).
      - rewrite !lookup_take_lt by done. apply Ho. lia.
      - rewrite !lookup_take_ge by lia. done. }
    assert (drop e l' = drop e l) as E2.
    { apply list_eq. intros j. rewrite !lookup_drop. apply Ho. lia. }
    rewrite E1, E2 in Hp. by apply Permutation_app_inv_l, Permutation_app_inv_r in Hp. }
  assert (x ∈ take (e - b) (drop b l')) as Hin.
  { apply (list_elem_of_lookup_2 _ (i - b)). rewrite lookup_take_lt, lookup_drop by lia.
    rewrite <- Hx. f_equal. lia. }
  rewrite <- Hseg in Hin. apply list_elem_of_lookup in Hin as [j Hj].
  assert (j < e - b)%nat by (apply lookup_lt_Some in Hj; rewrite length_take in Hj; lia).
  rewrite lookup_take_lt, lookup_drop in Hj by lia. apply (HP (b + j)%nat); [lia|done].
Qed.

Lemma swap_spec l i j x y : (i < j)%nat -> l !! i = Some x -> l !! j = Some y ->
  exists l', swap l i j = Ret l' /\ l ≡ₚ l' /\ l' !! i = Some y /\ l' !! j = Some x /\
    forall k, k <> i -> k <> j -> l' !! k = l !! k.
Proof.
  intros Hij Hx Hy. pose proof (lookup_lt_Some _ _ _ Hx). pose proof (lookup_lt_Some _ _ _ Hy).
  exists (<[j := x]> (<[i := y]> l)). unfold swap. rewrite Hx, Hy.
  split_and!; [done| | | |].
  - rewrite <- (take_drop_middle l i x Hx) at 1.
    assert (drop (S i) l !! (j - S i)%nat = Some y) as Hy'.
    { rewrite lookup_drop. rewrite <- Hy. f_equal. lia. }
    rewrite <- (take_drop_middle _ _ _ Hy').
    rewrite <- (take_drop_middle (<[j:=x]> (<[i:=y]> l)) i y).
    2:{ rewrite list_lookup_insert_ne by lia. by apply list_lookup_insert_eq. }
    assert (drop (S i) (<[j:=x]> (<[i:=y]> l)) !! (j - S i)%nat = Some x) as Hx'.
    { rewrite lookup_drop. replace (S i + (j - S i))%nat with j by lia.
      apply list_lookup_insert_eq. by rewrite length_insert. }
    rewrite <- (take_drop_middle _ _ _ Hx').
    assert (take i (<[j:=x]> (<[i:=y]> l)) = take i l) as ->.
    { rewrite !take_insert_ge by lia. done. }
    assert (drop (S i) (<[j:=x]> (<[i:=y]> l)) = <[(j - S i)%nat := x]> (drop (S i) l)) as ->.
    { rewrite drop_insert_ge by lia. by rewrite drop_insert_lt by lia. }
    rewrite take_insert_ge by lia. rewrite drop_insert_lt by lia. solve_Permutation.
  - rewrite list_lookup_insert_ne by lia. by apply list_lookup_insert_eq.
  - apply list_lookup_insert_eq. by rewrite length_insert.
  - intros k ? ?. by rewrite !list_lookup_insert_ne.
Qed.

(** ** The partition *)

(** What the loop keeps: [pivot] separates what is behind the two positions, and
    both scans have an element to stop at. *)
Record part_inv (l : list Z) (b low high e : nat) (pivot : Z) : Prop := {
  part_range : (b <= low <= high)%nat /\ (high <= e <= length l)%nat;
  part_low i x : (b <= i < low)%nat -> l !! i = Some x -> x <= pivot;
  part_high i x : (high <= i < e)%nat -> l !! i = Some x -> pivot <= x;
  part_up : exists k x, (low <= k < e)%nat /\ (k <= high)%nat /\ l !! k = Some x /\ pivot <= x;
  part_down : exists k x, (b <= k < high)%nat /\ l !! k = Some x /\ x <= pivot /\
    (b < low \/ b < k)%nat
}.

Lemma partition_loop_spec b e pivot : forall fuel l low high,
  part_inv l b low high e pivot -> (high - low < fuel)%nat ->
  exists p l', partition_loop fuel l low high pivot = Ret (p, l') /\ perm_in b e l l' /\
    (b < p < e)%nat /\
    (forall i x, (b <= i < p)%nat -> l' !! i = Some x -> x <= pivot) /\
    (forall i x, (p <= i < e)%nat -> l' !! i = Some x -> pivot <= x).
Proof.
  intros fuel. induction fuel as [|fuel IH]; intros l low high Hinv Hf; [lia|].
  cbn [partition_loop]. destruct Hinv as [Hr Hlow Hhigh (ku & xu & ? & ? & Hku & ?)
    (kd & xd & ? & Hkd & ? & Hprog)].
  destruct (scan_up_spec l pivot ku xu (S (length l)) low) as (i & x & -> & ? & Hi & ? & Hup);
    [lia|done..|lia|].
  destruct (scan_down_spec l pivot kd xd (S (length l)) high) as (j & y & -> & ? & Hj & ? & Hdn);
    [lia|done..|lia|].
  cbn [obind]. destruct (Nat.leb_spec j i).
  - exists i, l. split_and!; [done|reflexivity|lia|lia| |].
    + intros k z Hk Hz. destruct (decide (k < low)%nat); [eapply Hlow; [|done]; lia|].
      assert (z < pivot); [|lia]. eapply (Hup k); [lia|done].
    + intros k z Hk Hz. destruct (decide (high <= k)%nat); [eapply Hhigh; [|done]; lia|].
      destruct (decide (k = i)) as [->|]; [naive_solver|].
      assert (pivot < z); [|lia]. eapply (Hdn k); [lia|done].
  - destruct (swap_spec l i j x y ltac:(lia) Hi Hj) as (l' & -> & Hp & Hi' & Hj' & Hk').
    cbn [obind]. pose proof (Permutation_length Hp) as Hlen.
    destruct (IH l' (S i) j) as (p & l2 & -> & Hp2 & ? & ? & ?).
    + split; [lia| | | |].
      * intros k z Hk Hz. destruct (decide (k = i)) as [->|]; [naive_solver|].
        rewrite Hk' in Hz by lia. destruct (decide (k < low)%nat); [eapply Hlow; [|done]; lia|].
        assert (z < pivot); [|lia]. eapply (Hup k); [lia|done].
      * intros k z Hk Hz. destruct (decide (k = j)) as [->|]; [naive_solver|].
        rewrite Hk' in Hz by lia. destruct (decide (high <= k)%nat); [eapply Hhigh; [|done]; lia|].
        assert (pivot < z); [|lia]. eapply (Hdn k); [lia|done].
      * exists j, x. split_and!; try done; lia.
      * exists i, y. split_and!; try done; lia.
    + lia.
    + exists p, l2. split_and!; try done; try lia. transitivity l'; [|done]. split; [done|].
      intros k Hk. apply Hk'; lia.
Qed.

Lemma qsort_partition_spec l b e :
  (b + 2 <= e <= length l)%nat ->
  exists pivot p l', qsort_partition l b e = Ret (p, l') /\ perm_in b e l l' /\ (b < p < e)%nat /\
    (forall i x, (b <= i < p)%nat -> l' !! i = Some x -> x <= pivot) /\
    (forall i x, (p <= i < e)%nat -> l' !! i = Some x -> pivot <= x).
Proof.
  intros H. unfold qsort_partition. set (m := (b + (e - b) / 2)%nat).
  assert (b < m < e)%nat.
  { unfold m. pose proof (Nat.div_str_pos (e - b) 2). pose proof (Nat.div_lt (e - b) 2). lia. }
  destruct (lookup_lt_is_Some_2 l m) as [pivot Hm]; [lia|]. rewrite Hm. cbn [deref obind].
  exists pivot. eapply partition_loop_spec; [|lia]. split; [lia|lia|lia| |].
  - exists m, pivot. split_and!; try done; lia.
  - exists m, pivot. split_and!; try done; lia.
Qed.

(** ** Theorem *)

(** The elements of [b, e) are in ascending order. *)
Definition sorted_in (b e : nat) (l : list Z) : Prop :=
  forall i j x y, (b <= i < j)%nat -> (j < e)%nat -> l !! i = Some x -> l !! j = Some y -> x <= y.

Lemma qsort_spec : forall fuel l b e,
  (b <= e <= length l)%nat -> (e - b <= fuel)%nat -> (0 < fuel)%nat ->
  exists l', qsort fuel l b e = Ret l' /\ perm_in b e l l' /\ sorted_in b e l'.
Proof.
  intros fuel. induction fuel as [|fuel IH]; intros l b e Hbe Hf H0; [lia|]. cbn [qsort].
  destruct (Nat.ltb_spec (e - b) 2).
  { exists l. split_and!; [done|reflexivity|]. intros i j x y ? ?. lia. }
  destruct (qsort_partition_spec l b e ltac:(lia)) as (pivot & p & l1 & -> & Hp1 & Hp & Hl & Hh).
  pose proof (perm_in_length _ _ _ _ Hp1). cbn [obind].
  destruct (IH l1 b p) as (l2 & -> & Hp2 & Hs2); [lia..|].
  pose proof (perm_in_length _ _ _ _ Hp2). cbn [obind].
  destruct (IH l2 p e) as (l3 & -> & Hp3 & Hs3); [lia..|].
  exists l3. split; [done|]. split.
  { etrans; [done|]. etrans; eapply perm_in_weaken; done || lia. }
  assert (forall k, (k < p)%nat -> l3 !! k = l2 !! k) as H32 by (intros; apply Hp3; lia).
  intros i j x y Hij Hj Hx Hy. destruct (decide (j < p)%nat).
  { rewrite H32 in Hx, Hy by lia. eapply Hs2; done. }
  destruct (decide (p <= i)%nat); [eapply (Hs3 i j); done || lia|].
  transitivity pivot.
  - rewrite H32 in Hx by lia.
    eapply (perm_in_Forall (fun x => x <= pivot) b p l1 l2); [lia|done..| |exact Hx]. lia.
  - eapply (perm_in_Forall (fun x => pivot <= x) p e l2 l3); [lia|done| |split; [|exact Hj]; lia|exact Hy].
    intros k z Hk Hz. eapply Hh; [exact Hk|]. rewrite <- Hz. symmetry. apply Hp2. lia.
Qed.

(** C35. [klib::qsort] terminates on every array within its length in recursion
    depth, never reads or writes outside the range it is given, leaves the rest of
    the array alone, and leaves the range a sorted permutation of what it was. *)
Theorem qsort_sorts l b e :
  (b <= e <= length l)%nat ->
  exists l', qsort (S (length l)) l b e = Ret l' /\ l ≡ₚ l' /\ sorted_in b e l' /\
    forall i, (i < b \/ e <= i)%nat -> l' !! i = l !! i.
Proof.
  intros H. destruct (qsort_spec (S (length l)) l b e H ltac:(lia) ltac:(lia))
    as (l' & ? & [? ?] & ?). eauto.
Qed.

Lemma qsort_sorts_witness :
  (1 <= 6 <= length [9; 5; 2; 2; 8; 1; 0])%nat /\
  exists l', qsort 8 [9; 5; 2; 2; 8; 1; 0] 1 6 = Ret l' /\ [9; 5; 2; 2; 8; 1; 0] ≡ₚ l' /\
    sorted_in 1 6 l' /\
    forall i, (i < 1 \/ 6 <= i)%nat -> l' !! i = [9; 5; 2; 2; 8; 1; 0] !! i.
Proof. split; [simpl; lia|apply (qsort_sorts [9; 5; 2; 2; 8; 1; 0]); simpl; lia]. Defined.
