(* ===== verification/Vector.v ===== *)
(** * klib::Vector (klib/vector.hpp)

    The contents and the capacity of a growable array. Growing moves the elements
    to a new buffer and frees the old one, so pointers into it dangle: [moves]
    tells when a [push_back] does that. *)

From S2P Require Import Prelude.

(** ** Definitions *)

(** [items] are the first [m_size] elements of the buffer. *)
Record Vector (A : Type) := mkVector { items : list A; m_capacity : Z }.
Arguments mkVector {A} items m_capacity.
Arguments items {A} v : rename.
Arguments m_capacity {A} v : rename.

Section vector.
Context {A : Type}.
Implicit Types (v : Vector A) (x : A).

Definition empty_vector : Vector A := mkVector [] 0.
Definition vsize v : Z := Z.of_nat (length (items v)).

(** [while (cap < new_cap) cap *= 2;] *)
Fixpoint grow (fuel : nat) (cap new_cap : Z) : outcome Z :=
  match fuel with
  | O => Undef
  | S fuel => if cap <? new_cap then grow fuel (u64 (cap * 2)) new_cap else Ret cap
  end.

Definition reserve_internal v (new_cap : Z) : outcome (Vector A) :=
  if new_cap <=? m_capacity v then Ret v else
  let! cap := grow 65 (if m_capacity v =? 0 then 1 else m_capacity v) new_cap in
  Ret (mkVector (items v) cap).

(** A [push_back] moves the elements. *)
Definition moves v : bool := m_capacity v <? vsize v + 1.

Definition vget v (i : Z) : option A := if i <? 0 then None else items v !! Z.to_nat i.
Definition vset v (i : Z) x : Vector A := mkVector (<[Z.to_nat i := x]> (items v)) (m_capacity v).

Definition push_back v x : outcome (Vector A) :=
  let! v := reserve_internal v (vsize v + 1) in
  Ret (mkVector (items v ++ [x]) (m_capacity v)).

Definition pop_back v : Vector A :=
  if vsize v =? 0 then v
  else mkVector (take (length (items v) - 1) (items v)) (m_capacity v).

(** [x0] is the default-constructed element. *)
Definition resize v (new_size : Z) (x0 : A) : outcome (Vector A) :=
  if new_size <? vsize v then Ret (mkVector (take (Z.to_nat new_size) (items v)) (m_capacity v))
  else
    let! v := reserve_internal v new_size in
    Ret (mkVector (items v ++ replicate (Z.to_nat (new_size - vsize v)) x0) (m_capacity v)).

Definition clear v : Vector A := mkVector [] (m_capacity v).

(** The shift [for (i = index; i < m_size - 1; ++i) buffer[i] = buffer[i + 1]]. *)
Fixpoint shift_down (n : nat) (i : nat) (l : list A) : outcome (list A) :=
  match n with
  | O => Ret l
  | S n => let! x := deref (l !! S i) in shift_down n (S i) (<[i := x]> l)
  end.

Definition vremove v (index : Z) : outcome (Vector A) :=
  if index >=? vsize v then Ret v else
  let! l := shift_down (length (items v) - 1 - Z.to_nat index) (Z.to_nat index) (items v) in
  Ret (mkVector (take (length (items v) - 1) l) (m_capacity v)).

(** ** Lemmas *)

Definition vector_wf v : Prop := vsize v <= m_capacity v.

Lemma grow_spec fuel cap n :
  0 < cap -> n <= 9223372036854775808 -> n <= cap * 2 ^ Z.of_nat (fuel - 1) ->
  (0 < fuel)%nat -> exists c, grow fuel cap n = Ret c /\ Z.max n cap <= c /\ (c = cap \/ c < 2 * n).
Proof.
  revert cap. induction fuel as [|fuel IH]; intros cap Hc Hn Hf H0; [lia|]. cbn [grow].
  destruct (Z.ltb_spec cap n); [|exists cap; split_and!; [done|lia|by left]].
  destruct fuel as [|fuel]; [simpl in Hf; lia|].
  rewrite u64_small by lia. destruct (IH (cap * 2)) as (c & -> & ? & Hc'); [lia|done| |lia|].
  - replace (S (S fuel) - 1)%nat with (S (S fuel - 1)) in Hf by lia.
    rewrite Nat2Z.inj_succ, Z.pow_succ_r in Hf by lia. lia.
  - exists c. split_and!; [done|lia|right; lia].
Qed.

Lemma reserve_spec v n :
  0 <= m_capacity v -> n <= 9223372036854775808 ->
  exists c, reserve_internal v n = Ret (mkVector (items v) c) /\ Z.max n (m_capacity v) <= c.
Proof.
  intros Hc Hn. unfold reserve_internal. destruct (Z.leb_spec n (m_capacity v)).
  { exists (m_capacity v). split; [by destruct v|lia]. }
  destruct (grow_spec 65 (if m_capacity v =? 0 then 1 else m_capacity v) n) as (c & -> & Hm & _);
    [destruct (Z.eqb_spec (m_capacity v) 0); lia|done| |lia|].
  - change (Z.of_nat (65 - 1)) with 64. destruct (Z.eqb_spec (m_capacity v) 0); nia.
  - exists c. split; [done|]. destruct (Z.eqb_spec (m_capacity v) 0); lia.
Qed.

Lemma reserve_same v n : n <= m_capacity v -> reserve_internal v n = Ret v.
Proof. intros. unfold reserve_internal. by rewrite (proj2 (Z.leb_le _ _)). Qed.

Lemma push_back_spec v x :
  vector_wf v -> vsize v < 9223372036854775808 ->
  exists c, push_back v x = Ret (mkVector (items v ++ [x]) c) /\ m_capacity v <= c /\
    vsize v + 1 <= c.
Proof.
  intros Hwf Hs. unfold push_back, vector_wf, vsize in *.
  destruct (reserve_spec v (Z.of_nat (length (items v)) + 1)) as (c & -> & ?); [lia|lia|].
  exists c. split_and!; [done|lia|lia].
Qed.

Lemma push_back_in_place v x :
  moves v = false -> push_back v x = Ret (mkVector (items v ++ [x]) (m_capacity v)).
Proof. unfold moves. intros. zbool. unfold push_back. by rewrite reserve_same by lia. Qed.

Lemma shift_down_spec n i l :
  (i + n < length l)%nat ->
  exists l', shift_down n i l = Ret l' /\ length l' = length l /\
    forall j, l' !! j = if decide (i <= j < i + n)%nat then l !! S j else l !! j.
Proof.
  revert i l. induction n as [|n IH]; intros i l Hl.
  { exists l. split_and!; [done..|]. intros j. rewrite decide_False by lia. done. }
  cbn [shift_down]. destruct (lookup_lt_is_Some_2 l (S i)) as [x Hx]; [lia|]. rewrite Hx.
  cbn [deref obind]. destruct (IH (S i) (<[i := x]> l)) as (l' & -> & Hlen & Hl');
    [rewrite length_insert; lia|].
  exists l'. rewrite length_insert in Hlen. split_and!; [done..|]. intros j. rewrite Hl'.
  destruct (decide (j = i)) as [->|].
  - rewrite decide_False, decide_True by lia. rewrite list_lookup_insert_eq by lia. done.
  - case_decide; [rewrite decide_True by lia|rewrite decide_False by lia];
      by rewrite list_lookup_insert_ne by lia.
Qed.

Lemma delete_out (l : list A) i : (length l <= i)%nat -> delete i l = l.
Proof.
  intros. rewrite delete_take_drop, take_ge, drop_ge by lia. by rewrite app_nil_r.
Qed.

Lemma vremove_spec v i :
  0 <= i -> vremove v i = Ret (mkVector (delete (Z.to_nat i) (items v)) (m_capacity v)).
Proof.
  intros Hi. unfold vremove, vsize. rewrite Z.geb_leb.
  destruct (Z.leb_spec (Z.of_nat (length (items v))) i).
  { rewrite delete_out by lia. by destruct v. }
  destruct (shift_down_spec (length (items v) - 1 - Z.to_nat i) (Z.to_nat i) (items v))
    as (l' & -> & Hlen & Hl'); [lia|]. cbn [obind]. do 2 f_equal. apply list_eq. intros j.
  destruct (decide (j < length (items v) - 1)%nat).
  - rewrite lookup_take_lt, Hl' by lia. rewrite list_lookup_delete.
    case_decide; [rewrite decide_False by lia|]; [done|].
    rewrite decide_True by lia. done.
  - rewrite lookup_take_ge by lia. symmetry. apply lookup_ge_None.
    rewrite length_delete by (apply lookup_lt_is_Some; lia). lia.
Qed.

(** ** Sequences of operations *)

Inductive vec_op :=
| PushBack (x : A) | PopBack | Resize (n : Z) (x0 : A) | Clear | Remove (i : Z).

Definition vec_run v (o : vec_op) : outcome (Vector A) :=
  match o with
  | PushBack x => push_back v x
  | PopBack => Ret (pop_back v)
  | Resize n x0 => resize v n x0
  | Clear => Ret (clear v)
  | Remove i => vremove v i
  end.

(** The same operation on the abstract sequence. *)
Definition list_run (l : list A) (o : vec_op) : list A :=
  match o with
  | PushBack x => l ++ [x]
  | PopBack => take (length l - 1) l
  | Resize n x0 => take (Z.to_nat n) l ++ replicate (Z.to_nat n - length l) x0
  | Clear => []
  | Remove i => delete (Z.to_nat i) l
  end.

Definition op_ok (n : Z) (o : vec_op) : Prop :=
  match o with Resize m _ => 0 <= m <= n | Remove i => 0 <= i | _ => True end.

Lemma vec_step_spec v o n :
  vector_wf v -> vsize v < n -> n <= 9223372036854775808 -> op_ok n o ->
  exists c, vec_run v o = Ret (mkVector (list_run (items v) o) c) /\
    vector_wf (mkVector (list_run (items v) o) c).
Proof.
  intros Hwf Hs Hn Hok. unfold vector_wf in *. destruct o as [x| |m x0| |i]; cbn [vec_run list_run].
  - destruct (push_back_spec v x Hwf ltac:(lia)) as (c & -> & ? & ?). exists c. split; [done|].
    unfold vsize in *. simpl. rewrite length_app. simpl. lia.
  - unfold pop_back. destruct (Z.eqb_spec (vsize v) 0) as [E|].
    + exists (m_capacity v). unfold vsize in *. destruct v as [[|] c]; simpl in *; [done|lia].
    + exists (m_capacity v). split; [done|]. unfold vsize in *. simpl. rewrite length_take. lia.
  - simpl in Hok. unfold resize. destruct (Z.ltb_spec m (vsize v)).
    + exists (m_capacity v). unfold vsize in *.
      replace (Z.to_nat m - length (items v))%nat with 0%nat by lia. simpl. rewrite app_nil_r.
      split; [done|]. rewrite length_take. lia.
    + destruct (reserve_spec v m) as (c & -> & ?); [unfold vsize in *; lia|lia|]. exists c.
      unfold vsize in *. cbn [obind items m_capacity]. rewrite take_ge by lia.
      replace (Z.to_nat m - length (items v))%nat
        with (Z.to_nat (m - Z.of_nat (length (items v)))) by lia.
      split; [done|]. rewrite length_app, length_replicate. lia.
  - exists (m_capacity v). unfold vsize in *. simpl. split; [done|]. lia.
  - exists (m_capacity v). rewrite vremove_spec by done. split; [done|].
    unfold vsize in *. simpl. pose proof (length_delete (items v) (Z.to_nat i)).
    destruct (decide (is_Some (items v !! Z.to_nat i))) as [Hi|Hi]; [rewrite H by done; lia|].
    rewrite delete_out; [done|]. by apply lookup_ge_None, eq_None_not_Some.
Qed.

Fixpoint run_ops v (os : list vec_op) : outcome (Vector A) :=
  match os with [] => Ret v | o :: os => let! v := vec_run v o in run_ops v os end.

(** No state along the run reaches [n] elements. *)
Fixpoint bounded (n : Z) (l : list A) (os : list vec_op) : Prop :=
  Z.of_nat (length l) < n /\
  match os with [] => True | o :: os => op_ok n o /\ bounded n (list_run l o) os end.

(** [Vector] implements a sequence: any run of [push_back], [pop_back],
    [resize], [clear] and [remove] on a vector that never exceeds 2^63 elements is
    defined, leaves exactly the elements the same operations give on a list, and
    never more elements than the buffer has room for. *)
Theorem vector_refines_list v os :
  vector_wf v -> bounded 9223372036854775808 (items v) os ->
  exists v', run_ops v os = Ret v' /\ items v' = fold_left list_run os (items v) /\ vector_wf v'.
Proof.
  revert v. induction os as [|o os IH]; intros v Hwf Hb; [by exists v|].
  destruct Hb as (Hl & Hok & Hb). cbn [run_ops fold_left].
  destruct (vec_step_spec v o 9223372036854775808 Hwf Hl ltac:(lia) Hok) as (c & -> & Hwf').
  apply (IH _ Hwf' Hb).
Qed.
End vector.

Lemma vector_refines_list_witness :
  exists v', run_ops empty_vector [PushBack 3; PushBack 1; Resize 4 0; Remove 1; PopBack] = Ret v' /\
    items v' = [3; 0] /\ vector_wf v'.
Proof.
  apply (vector_refines_list empty_vector [PushBack 3; PushBack 1; Resize 4 0; Remove 1; PopBack]);
    [unfold vector_wf, vsize; simpl; lia|simpl; lia].
Defined.
