(* ===== verification/RingBuffer.v ===== *)
(** * klib/ring_buffer.hpp

    The ring buffer behind pipes, sockets, ttys and input queues, with its
    free-running 64-bit indices, and its refinement to a bounded FIFO. *)

From S2P Require Import Prelude Algorithm.

Section ring.
Context {T : Type}.

Record RingBuffer := mkRing {
  read_index : Z;
  write_index : Z;
  data : list T
}.
Implicit Types (r : RingBuffer) (buffer : list T).

(** [static constexpr usize size = s]: the length of the array. *)
Definition size r : Z := Z.of_nat (length (data r)).

Definition empty_ring (storage : list T) : RingBuffer := mkRing 0 0 storage.

Definition data_count r : Z := u64 (write_index r - read_index r).
Definition free_count r : Z := u64 (size r - data_count r).
Definition is_empty r : bool := data_count r =? 0.
Definition is_full r : bool := data_count r =? size r.

(** [memcpy(dst, src + offset, n)]: the bytes copied. *)
Definition slice (offset n : Z) (src : list T) : list T :=
  take (Z.to_nat n) (drop (Z.to_nat offset) src).

(** The count returned, the elements written to the caller's buffer, the ring. *)
Definition read r (count : Z) : Z * list T * RingBuffer :=
  let count := klib.min count (data_count r) in
  if count =? 0 then (0, [], r) else
  let first_pass_offset := read_index r mod size r in
  let first_pass_remaining := u64 (size r - first_pass_offset) in
  let first_pass_count := klib.min count first_pass_remaining in
  let out := slice first_pass_offset first_pass_count (data r) in
  let out := if first_pass_count <? count
             then out ++ slice 0 (u64 (count - first_pass_count)) (data r) else out in
  (count, out, mkRing (u64 (read_index r + count)) (write_index r) (data r)).

Definition write r buffer (count : Z) : Z * RingBuffer :=
  let count := klib.min count (free_count r) in
  let first_pass_offset := write_index r mod size r in
  let first_pass_remaining := u64 (size r - first_pass_offset) in
  let first_pass_count := klib.min count first_pass_remaining in
  let d := splice (Z.to_nat first_pass_offset) (slice 0 first_pass_count buffer) (data r) in
  let d := if first_pass_count <? count
           then splice 0 (slice first_pass_count (u64 (count - first_pass_count)) buffer) d
           else d in
  (count, mkRing (read_index r) (u64 (write_index r + count)) d).

Definition truncate r (count : Z) : Z * RingBuffer :=
  let count := klib.min count (data_count r) in
  (count, mkRing (u64 (read_index r + count)) (write_index r) (data r)).

Definition write_truncate r buffer (count : Z) : Z * RingBuffer :=
  let r := if free_count r <? count then snd (truncate r count) else r in
  write r buffer count.

Definition peek r : Z * list T :=
  if is_empty r then (0, [])
  else (1, slice (read_index r mod size r) 1 (data r)).

(** ** Abstraction: the elements queued, oldest first *)

Definition contents r : list T :=
  let o := Z.to_nat (read_index r mod size r) in
  take (Z.to_nat (data_count r)) (drop o (data r) ++ take o (data r)).

(** Indices are machine words, no more is stored than fits, and the position
    [index mod size] survives the wrap-around of the index. *)
Definition wf r : Prop :=
  0 < size r < 18446744073709551616 /\
  (size r | 18446744073709551616) /\
  0 <= read_index r < 18446744073709551616 /\
  0 <= write_index r < 18446744073709551616 /\
  data_count r <= size r.

Lemma data_count_nonneg r : 0 <= data_count r.
Proof. unfold data_count. pose proof (u64_range (write_index r - read_index r)). lia. Qed.

Lemma free_count_eq r : wf r -> free_count r = size r - data_count r.
Proof.
  intros (? & ? & ? & ? & ?). pose proof (data_count_nonneg r).
  unfold free_count. rewrite u64_small; lia.
Qed.

Lemma u64_mod_size s z : 0 < s -> (s | 18446744073709551616) -> u64 z mod s = z mod s.
Proof.
  intros Hs [k Hk]. unfold u64. rewrite Hk at 1.
  rewrite (Z.mul_comm k s), Z.rem_mul_r by nia.
  rewrite Z.mul_comm, Z.mod_add, Z.mod_mod by lia. done.
Qed.

Lemma length_contents r : wf r -> Z.of_nat (length (contents r)) = data_count r.
Proof.
  intros (Hs & _ & _ & _ & Hc). pose proof (data_count_nonneg r). unfold contents.
  rewrite length_take, length_app, length_drop, length_take. unfold size in *.
  pose proof (Z.mod_pos_bound (read_index r) (Z.of_nat (length (data r))) ltac:(lia)). lia.
Qed.

(** Element [i] of the queue is at [(read_index + i) mod size]. *)
Lemma lookup_contents r i :
  wf r -> (Z.of_nat i < data_count r) ->
  contents r !! i = data r !! Z.to_nat ((read_index r + Z.of_nat i) mod size r).
Proof.
  intros (Hs & _ & _ & _ & Hc) Hi. unfold contents.
  pose proof (Z.mod_pos_bound (read_index r) (size r) ltac:(lia)).
  unfold size in *. rewrite lookup_take_lt by lia. rewrite lookup_rot by lia. f_equal.
  apply Nat2Z.inj. rewrite Nat2Z.inj_mod, Nat2Z.inj_add, !Z2Nat.id by (try apply Z.mod_pos_bound; lia).
  by rewrite Zplus_mod_idemp_l.
Qed.

Lemma contents_nil_iff r : wf r -> is_empty r = true <-> contents r = [].
Proof.
  intros Hwf. pose proof (length_contents r Hwf) as Hl. unfold is_empty. rewrite Z.eqb_eq.
  destruct (contents r); simpl in *; split; intros; try done; lia.
Qed.

Lemma is_full_iff r : wf r -> is_full r = true <-> free_count r = 0.
Proof. intros Hwf. rewrite free_count_eq by done. unfold is_full. rewrite Z.eqb_eq. lia. Qed.

Lemma wf_empty storage :
  0 < Z.of_nat (length storage) < 18446744073709551616 ->
  (Z.of_nat (length storage) | 18446744073709551616) ->
  wf (empty_ring storage) /\ contents (empty_ring storage) = [].
Proof.
  intros Hs Hd. assert (wf (empty_ring storage)) as Hwf.
  { assert (data_count (empty_ring storage) = 0) as Hz by done.
    unfold wf. rewrite Hz. unfold size. simpl. split_and!; lia || done. }
  split; [done|]. by apply contents_nil_iff.
Qed.

(** *** Dropping from the front *)

Lemma truncate_spec r count n r' :
  wf r -> 0 <= count -> truncate r count = (n, r') ->
  n = Z.min count (data_count r) /\ wf r' /\ data r' = data r /\
  contents r' = drop (Z.to_nat n) (contents r) /\ data_count r' = data_count r - n.
Proof.
  intros Hwf Hc [= <- <-]. rewrite klib.min_Zmin. set (n := Z.min count (data_count r)).
  pose proof (data_count_nonneg r) as Hdc. pose proof Hwf as (Hs & Hd & Hr & Hw & Hle).
  set (r' := mkRing _ _ _).
  assert (data_count r' = data_count r - n) as Hdc'.
  { unfold data_count at 1. simpl. rewrite u64_sub_r.
    replace (write_index r - (read_index r + n)) with (write_index r - read_index r - n) by lia.
    rewrite <- u64_sub_l. fold (data_count r).
    rewrite u64_small; [done|]. unfold data_count in *. pose proof (u64_range (write_index r - read_index r)). lia. }
  assert (wf r') as Hwf'.
  { unfold wf, size in *. rewrite Hdc'. simpl. pose proof (u64_range (read_index r + n)). split_and!; lia || done. }
  split_and!; try done. apply list_eq. intros i. rewrite lookup_drop.
  destruct (decide (Z.of_nat i < data_count r')) as [Hi|Hi].
  - rewrite !lookup_contents by (done || lia). simpl. change (size r') with (size r). f_equal.
    f_equal. rewrite <- Zplus_mod_idemp_l, u64_mod_size by (done || lia).
    rewrite Zplus_mod_idemp_l. f_equal. lia.
  - pose proof (length_contents r Hwf). pose proof (length_contents r' Hwf').
    rewrite !lookup_ge_None_2; [done|lia|lia].
Qed.

Lemma read_out r count n out r' :
  wf r -> 0 <= count -> read r count = (n, out, r') ->
  out = take (Z.to_nat n) (contents r) /\ truncate r count = (n, r').
Proof.
  intros Hwf Hc Hrd. unfold read in Hrd. unfold truncate.
  rewrite klib.min_Zmin in *. set (k := Z.min count (data_count r)) in *.
  pose proof (data_count_nonneg r) as Hdc. pose proof Hwf as (Hs & Hd & Hri & Hw & Hle).
  destruct (Z.eqb_spec k 0) as [Hk|Hk].
  { injection Hrd as <- <- <-. split; [done|]. rewrite Hk, Z.add_0_r, u64_small by done.
    by destruct r. }
  pose proof (Z.mod_pos_bound (read_index r) (size r) ltac:(lia)) as Ho.
  set (o := read_index r mod size r) in *. rewrite klib.min_Zmin in Hrd.
  rewrite (u64_small (size r - o)) in Hrd by lia.
  injection Hrd as <- <- <-. split; [|done].
  unfold contents. fold o. rewrite take_take.
  replace (Z.to_nat k `min` Z.to_nat (data_count r))%nat with (Z.to_nat k) by lia.
  unfold slice, size in *. case_if.
  - rewrite take_app, length_drop.
    rewrite !(take_ge (drop (Z.to_nat o) (data r))) by (rewrite length_drop; lia). f_equal.
    rewrite drop_0, take_take. f_equal. rewrite u64_small by lia. lia.
  - rewrite take_app_le by (rewrite length_drop; lia). f_equal. lia.
Qed.

(** *** Appending at the back *)

Lemma write_data r buffer n :
  wf r -> 0 <= n <= free_count r -> n <= Z.of_nat (length buffer) ->
  let o := write_index r mod size r in
  let f := Z.min n (size r - o) in
  let d := splice (Z.to_nat o) (slice 0 f buffer) (data r) in
  let d := if f <? n then splice 0 (slice f (u64 (n - f)) buffer) d else d in
  length d = length (data r) /\
  forall j, 0 <= j < size r ->
    let p := (j - o) mod size r in
    d !! Z.to_nat j = if decide (p < n) then buffer !! Z.to_nat p else data r !! Z.to_nat j.
Proof.
  intros Hwf Hn Hb. cbv zeta. rewrite free_count_eq in Hn by done.
  pose proof (data_count_nonneg r). destruct Hwf as (Hs & _ & _ & _ & _).
  pose proof (Z.mod_pos_bound (write_index r) (size r) ltac:(lia)) as Ho.
  set (o := write_index r mod size r) in *. set (f := Z.min n (size r - o)).
  unfold slice. set (l1 := take (Z.to_nat f) (drop (Z.to_nat 0) buffer)).
  assert (length l1 = Z.to_nat f) as Hl1 by (unfold l1; rewrite length_take, length_drop; lia).
  unfold size in *.
  assert (forall i, (i < Z.to_nat f)%nat -> l1 !! i = buffer !! i) as Hlk1.
  { intros i Hi. unfold l1. by rewrite lookup_take_lt by lia. }
  assert (forall j, 0 <= j < Z.of_nat (length (data r)) ->
    (j - o) mod Z.of_nat (length (data r)) =
      if decide (o <= j) then j - o else j - o + Z.of_nat (length (data r))) as Hmod.
  { intros j Hj. case_decide; [by apply Z.mod_small; lia|].
    rewrite <- (Z.mod_add _ 1) by lia. rewrite Z.mod_small; lia. }
  destruct (Z.ltb_spec f n) as [Hf|Hf].
  - rewrite u64_small by lia. set (l2 := take _ (drop _ buffer)).
    assert (length l2 = Z.to_nat (n - f)) as Hl2 by (unfold l2; rewrite length_take, length_drop; lia).
    rewrite length_splice by (rewrite length_splice; lia). split; [by rewrite length_splice by lia|].
    intros j Hj. rewrite Hmod by done.
    rewrite lookup_splice by (rewrite length_splice; lia). rewrite lookup_splice by lia.
    rewrite Hl1, Hl2. destruct (decide (o <= j)) as [Hoj|Hoj].
    + rewrite decide_False by lia. rewrite decide_True by lia. rewrite decide_True by lia.
      rewrite Hlk1 by lia. f_equal. lia.
    + destruct (decide (j < n - f)).
      * rewrite !decide_True by lia. unfold l2. rewrite lookup_take_lt by lia.
        rewrite lookup_drop. f_equal. lia.
      * by rewrite !decide_False by lia.
  - rewrite length_splice by lia. split; [done|].
    intros j Hj. rewrite Hmod by done. rewrite lookup_splice, Hl1 by lia.
    destruct (decide (o <= j)) as [Hoj|Hoj].
    + destruct (decide (j - o < n)).
      * rewrite !decide_True by lia. rewrite Hlk1 by lia. f_equal. lia.
      * by rewrite !decide_False by lia.
    + by rewrite !decide_False by lia.
Qed.

Lemma write_spec r buffer count n r' :
  wf r -> 0 <= count <= Z.of_nat (length buffer) -> write r buffer count = (n, r') ->
  n = Z.min count (free_count r) /\ wf r' /\ size r' = size r /\
  contents r' = contents r ++ take (Z.to_nat n) buffer.
Proof.
  intros Hwf Hc Hwr. pose proof (free_count_eq r Hwf) as Hfc.
  pose proof (data_count_nonneg r) as Hdc. pose proof Hwf as (Hs & Hd & Hri & Hwi & Hle).
  unfold write in Hwr. rewrite !klib.min_Zmin in Hwr.
  set (k := Z.min count (free_count r)) in *.
  pose proof (Z.mod_pos_bound (write_index r) (size r) ltac:(lia)) as Ho.
  rewrite (u64_small (size r - _)) in Hwr by lia.
  destruct (write_data r buffer k Hwf ltac:(lia) ltac:(lia)) as [Hlen Hlk].
  injection Hwr as <- <-. set (r' := mkRing _ _ _).
  assert (size r' = size r) as Hsz by (unfold size; simpl; by rewrite Hlen).
  assert (data_count r' = data_count r + k) as Hdc'.
  { unfold data_count at 1. simpl. rewrite u64_sub_l.
    replace (write_index r + k - read_index r) with (write_index r - read_index r + k) by lia.
    rewrite <- u64_add_l. fold (data_count r). apply u64_small. lia. }
  assert (wf r') as Hwf'.
  { unfold wf. rewrite Hsz, Hdc'. simpl. pose proof (u64_range (write_index r + k)). split_and!; lia || done. }
  split_and!; try done. apply list_eq. intros i.
  pose proof (length_contents r Hwf) as Hl. pose proof (length_contents r' Hwf') as Hl'.
  destruct (decide (Z.of_nat i < data_count r')) as [Hi|Hi].
  2:{ rewrite !lookup_ge_None_2; [done|rewrite length_app, length_take; lia|lia]. }
  rewrite (lookup_contents r') by done. simpl. rewrite Hsz.
  rewrite Hlk by (apply Z.mod_pos_bound; lia).
  assert (((read_index r + Z.of_nat i) mod size r - write_index r mod size r) mod size r
          = (Z.of_nat i - data_count r) mod size r) as Hp.
  { rewrite <- Zminus_mod. unfold data_count.
    rewrite <- (u64_mod_size (size r) (_ - u64 _)), u64_sub_r, u64_mod_size by done || lia.
    f_equal. lia. }
  rewrite Hp. destruct (decide (Z.of_nat i < data_count r)) as [Hold|Hnew].
  - rewrite lookup_app_l by lia. rewrite lookup_contents by done.
    rewrite decide_False; [done|].
    rewrite <- (Z.mod_add _ 1), Z.mod_small; lia.
  - rewrite lookup_app_r by lia. rewrite Z.mod_small by lia.
    rewrite decide_True by lia. rewrite lookup_take_lt by lia. f_equal. lia.
Qed.

Lemma peek_spec r : wf r -> peek r = (if is_empty r then 0 else 1, take 1 (contents r)).
Proof.
  intros Hwf. unfold peek. destruct (is_empty r) eqn:E.
  - apply contents_nil_iff in E; [|done]. by rewrite E.
  - f_equal. unfold is_empty in E. zbool. pose proof (data_count_nonneg r).
    pose proof Hwf as (Hs & _ & _ & _ & Hle).
    pose proof (Z.mod_pos_bound (read_index r) (size r) ltac:(lia)).
    unfold contents, slice. rewrite take_take.
    replace (1 `min` Z.to_nat (data_count r))%nat with 1%nat by lia. unfold size in *.
    rewrite take_app_le by (rewrite length_drop; lia). done.
Qed.
End ring.
Arguments RingBuffer T : clear implicits.

#[export] Hint Resolve data_count_nonneg : word.

(** ** The FIFO specification

    What clients may assume of a bounded queue of capacity [cap] holding [q]. *)
Inductive fifo_step {T} (cap : Z) : list T -> list T -> Prop :=
| fifo_push q l : Z.of_nat (length (q ++ l)) <= cap -> fifo_step cap q (q ++ l)
| fifo_pop l q : fifo_step cap (l ++ q) q.

(** C8.  The ring buffer implements a bounded FIFO: on a well-formed buffer,
    [read] hands out the oldest [min(count, stored)] elements in order, [write]
    appends the first [min(count, free)] elements of the caller's buffer,
    [truncate] drops from the front and [peek] shows the oldest element; each
    keeps the buffer well formed and its capacity, also when the 64-bit indices
    wrap around.  [write_truncate] stores the whole of an input no longer than the
    capacity, dropping as many old elements as the input has when it would not fit. *)
Theorem ring_buffer_fifo {T} (r : RingBuffer T) (count : Z) (buffer : list T) :
  wf r -> 0 <= count <= Z.of_nat (length buffer) ->
  (exists n out r', read r count = (n, out, r') /\ wf r' /\ size r' = size r /\
     n = Z.min count (Z.of_nat (length (contents r))) /\
     contents r = out ++ contents r' /\ Z.of_nat (length out) = n) /\
  (exists n r', write r buffer count = (n, r') /\ wf r' /\ size r' = size r /\
     n = Z.min count (size r - Z.of_nat (length (contents r))) /\
     contents r' = contents r ++ take (Z.to_nat n) buffer /\
     fifo_step (size r) (contents r) (contents r')) /\
  (exists n r', truncate r count = (n, r') /\ wf r' /\ size r' = size r /\
     contents r' = drop (Z.to_nat n) (contents r) /\ fifo_step (size r) (contents r) (contents r')) /\
  (exists n r', write_truncate r buffer count = (n, r') /\ wf r' /\
     (count <= size r -> n = count /\
      contents r' = (if free_count r <? count then drop (Z.to_nat count) (contents r)
                     else contents r) ++ take (Z.to_nat count) buffer)) /\
  snd (peek r) = take 1 (contents r).
Proof.
  intros Hwf Hc. pose proof (length_contents r Hwf) as Hl. pose proof (free_count_eq r Hwf) as Hfc.
  pose proof Hwf as (_ & _ & _ & _ & Hle). pose proof (data_count_nonneg r).
  destruct (truncate r count) as [nt rt] eqn:Et.
  destruct (truncate_spec r count nt rt Hwf ltac:(lia) Et) as (Hnt & Hwft & Hdt & Hct & Hdct).
  assert (size rt = size r) as Hst by (unfold size; by rewrite Hdt).
  assert (contents r = take (Z.to_nat nt) (contents r) ++ contents rt) as Hsplit
    by (by rewrite Hct, take_drop).
  split; [|split; [|split; [|split]]].
  - destruct (read r count) as [[n out] r'] eqn:Er.
    destruct (read_out r count n out r' Hwf ltac:(lia) Er) as [-> Ht].
    rewrite Et in Ht. injection Ht as <- <-.
    exists nt, (take (Z.to_nat nt) (contents r)), rt. rewrite length_take. split_and!; done || lia.
  - destruct (write r buffer count) as [n r'] eqn:Ew.
    destruct (write_spec r buffer count n r' Hwf ltac:(lia) Ew) as (Hn & Hwf' & Hs & Hcon).
    exists n, r'. split_and!; try (done || lia). rewrite Hcon. constructor.
    rewrite length_app, length_take. lia.
  - exists nt, rt. split_and!; try done. rewrite Hsplit. constructor.
  - unfold write_truncate. rewrite Et. cbn [snd].
    destruct (Z.ltb_spec (free_count r) count).
    + destruct (write rt buffer count) as [n r'] eqn:Ew.
      destruct (write_spec rt buffer count n r' Hwft ltac:(lia) Ew) as (Hn & Hwf' & Hs & Hcon).
      exists n, r'. split_and!; try done. intros Hcs.
      rewrite free_count_eq in Hn by done. assert (n = count) as -> by lia. split; [done|].
      rewrite Hcon, Hct. f_equal. destruct (decide (count <= data_count r)).
      * by replace nt with count by lia.
      * rewrite !drop_ge by lia. done.
    + destruct (write r buffer count) as [n r'] eqn:Ew.
      destruct (write_spec r buffer count n r' Hwf ltac:(lia) Ew) as (Hn & Hwf' & Hs & Hcon).
      exists n, r'. split_and!; try done. intros. assert (n = count) as -> by lia. done.
  - by rewrite peek_spec.
Qed.

(** A ring of eight cells whose indices are about to wrap around 2^64. *)
Definition wrapping_ring : RingBuffer Z :=
  mkRing 18446744073709551613 18446744073709551615 [0; 1; 2; 3; 4; 5; 6; 7].

Lemma ring_buffer_fifo_witness :
  contents wrapping_ring = [5; 6] /\
  exists n r', write wrapping_ring [8; 9; 10] 3 = (n, r') /\ contents r' = [5; 6; 8; 9; 10].
Proof.
  split; [reflexivity|].
  destruct (ring_buffer_fifo wrapping_ring 3 [8; 9; 10]) as (_ & (n & r' & Hw & _ & _ & Hn & Hc & _) & _).
  - unfold wf. split_and!; try (vm_compute; congruence).
    exists 2305843009213693952. reflexivity.
  - vm_compute. split; congruence.
  - exists n, r'. split; [exact Hw|]. rewrite Hc, Hn. reflexivity.
Defined.
