(* ===== verification/TimeSpec.v ===== *)
(** * klib::TimeSpec (klib/timespec.hpp)

    Seconds and nanoseconds, with the carries of [+=] and the borrows of [-=]. *)

From S2P Require Import Prelude.

Record TimeSpec := mkTimeSpec { seconds : Z; nanoseconds : Z }.
Definition zero_time : TimeSpec := mkTimeSpec 0 0.

Definition from_seconds (s : Z) : TimeSpec := mkTimeSpec (i64 s) 0.
Definition from_microseconds (us : Z) : TimeSpec :=
  mkTimeSpec (i64 (us / 1000000)) (i64 (us mod 1000000 * 1000)).
(** A [timeval] is its seconds and microseconds. *)
Definition from_timeval (sec usec : Z) : TimeSpec := mkTimeSpec sec (i64 (usec * 1000)).
(** [nanoseconds / 1'000] rounds towards zero. *)
Definition to_timeval (t : TimeSpec) : Z * Z := (seconds t, Z.quot (nanoseconds t) 1000).

Definition is_zero (t : TimeSpec) : bool := (seconds t =? 0) && (nanoseconds t =? 0).

Definition time_add (l r : TimeSpec) : TimeSpec :=
  if nanoseconds l + nanoseconds r >? 999999999 then
    mkTimeSpec (i64 (seconds l + 1 + seconds r)) (i64 (nanoseconds l + nanoseconds r - 1000000000))
  else mkTimeSpec (i64 (seconds l + seconds r)) (i64 (nanoseconds l + nanoseconds r)).

Definition time_sub (l r : TimeSpec) : TimeSpec :=
  if (nanoseconds r >? nanoseconds l) && (seconds l =? 0) then zero_time else
  let '(s, ns) :=
    if nanoseconds r >? nanoseconds l
    then (seconds l - 1, 999999999 - (nanoseconds r - nanoseconds l))
    else (seconds l, nanoseconds l - nanoseconds r) in
  if seconds r >? s then zero_time else mkTimeSpec (s - seconds r) ns.

(** ** Meaning *)

Definition total_ns (t : TimeSpec) : Z := seconds t * 1000000000 + nanoseconds t.
(** A time after 0 whose seconds are far from the limits of [i64]. *)
Definition normal (t : TimeSpec) : Prop :=
  0 <= seconds t < 4611686018427387904 /\ 0 <= nanoseconds t < 1000000000.

(** The subtraction borrows a second. *)
Definition borrows (l r : TimeSpec) : bool := nanoseconds r >? nanoseconds l.

Lemma is_zero_spec t : normal t -> is_zero t = true <-> total_ns t = 0.
Proof.
  unfold normal, total_ns, is_zero. intros [Hs Hn]. rewrite andb_true_iff, !Z.eqb_eq. lia.
Qed.

Lemma time_sub_spec l r :
  normal l -> normal r ->
  normal (time_sub l r) /\
  total_ns (time_sub l r) =
    (if total_ns l <? total_ns r then 0
     else total_ns l - total_ns r - (if borrows l r then 1 else 0)).
Proof.
  unfold normal, total_ns, borrows. intros [Hs Hn] [Hs' Hn']. destruct l as [s n], r as [s' n'].
  simpl in *. unfold time_sub. simpl.
  destruct (Z.gtb_spec n' n), (Z.eqb_spec s 0),
    (Z.ltb_spec (s * 1000000000 + n) (s' * 1000000000 + n')),
    (Z.gtb_spec s' (s - 1)), (Z.gtb_spec s' s); simpl; split_and!; try done; lia.
Qed.

(** [TimeSpec] arithmetic, exactly: on normal times [+=] is addition of
    nanoseconds with a normal result; [-=] stops at zero when the subtrahend is
    the larger, and otherwise subtracts, but loses one nanosecond whenever it
    borrows, because it borrows 999'999'999 of them. A time is zero only if it
    has no nanoseconds. *)
Theorem timespec_arithmetic l r :
  normal l -> normal r ->
  total_ns (time_add l r) = total_ns l + total_ns r /\
  0 <= nanoseconds (time_add l r) < 1000000000 /\ 0 <= seconds (time_add l r) /\
  normal (time_sub l r) /\
  total_ns (time_sub l r) =
    (if total_ns l <? total_ns r then 0
     else total_ns l - total_ns r - (if borrows l r then 1 else 0)) /\
  (is_zero l = true <-> total_ns l = 0).
Proof.
  intros Hl Hr. destruct (time_sub_spec l r Hl Hr) as [Hn Ht].
  enough (total_ns (time_add l r) = total_ns l + total_ns r /\
    0 <= nanoseconds (time_add l r) < 1000000000 /\ 0 <= seconds (time_add l r)) as (? & ? & ?)
    by (split_and!; try tauto; try lia; by apply is_zero_spec).
  clear Hn Ht. destruct l as [s n], r as [s' n']. unfold normal, total_ns, time_add in *. simpl in *.
  assert (forall x, - 9223372036854775808 <= x < 9223372036854775808 -> i64 x = x) as Hi
    by apply i64_small.
  destruct (Z.gtb_spec (n + n') 999999999); simpl; rewrite ?Hi by lia; lia.
Qed.

Lemma timespec_arithmetic_witness :
  time_sub (mkTimeSpec 2 0) (mkTimeSpec 1 1) = mkTimeSpec 0 999999998 /\
  total_ns (time_sub (mkTimeSpec 2 0) (mkTimeSpec 1 1)) = 2000000000 - 1000000001 - 1.
Proof.
  split; [reflexivity|].
  apply (timespec_arithmetic (mkTimeSpec 2 0) (mkTimeSpec 1 1)); unfold normal; simpl; lia.
Defined.
