(* ===== verification/Context.v ===== *)
(** * cpu::InterruptState and sched/context.{hpp,cpp}

    The saved registers of a thread and their conversion to and from the user
    context of a signal frame. *)

From S2P Require Import Prelude.

(** [cpu::InterruptState]. *)
Record InterruptState := mkInterruptState {
  ds : Z; es : Z;
  r15 : Z; r14 : Z; r13 : Z; r12 : Z; r11 : Z; r10 : Z; r9 : Z; r8 : Z;
  rbp : Z; rdi : Z; rsi : Z; rdx : Z; rcx : Z; rbx : Z; rax : Z;
  err : Z;
  rip : Z; cs : Z; rflags : Z; rsp : Z; ss : Z
}.
#[export] Instance eta_InterruptState : Settable InterruptState := fun s =>
  mkInterruptState (ds s) (es s) (r15 s) (r14 s) (r13 s) (r12 s) (r11 s) (r10 s) (r9 s) (r8 s)
    (rbp s) (rdi s) (rsi s) (rdx s) (rcx s) (rbx s) (rax s) (err s) (rip s) (cs s) (rflags s)
    (rsp s) (ss s).

(** The general registers of a [sigcontext], with the saved FPU state its
    [fpstate] points to. *)
Record sigcontext := mkSigcontext {
  m_r15 : Z; m_r14 : Z; m_r13 : Z; m_r12 : Z; m_r11 : Z; m_r10 : Z; m_r9 : Z; m_r8 : Z;
  m_rbp : Z; m_rdi : Z; m_rsi : Z; m_rdx : Z; m_rcx : Z; m_rbx : Z; m_rax : Z;
  m_rip : Z; m_rsp : Z; m_eflags : Z;
  m_fpstate : list Z
}.

Record KernelUContext := mkUContext { uc_mcontext : sigcontext; uc_sigmask : Z }.

(** A [SignalFrame] on the user stack, with the [siginfo] fields the kernel fills. *)
Record SignalFrame := mkFrame {
  restorer_ptr : Z;
  ucontext : KernelUContext;
  si_signo : Z;
  si_code : Z
}.

Definition from_ucontext (gpr_state : InterruptState) (u : KernelUContext)
    : InterruptState * list Z :=
  let m := uc_mcontext u in
  (mkInterruptState (ds gpr_state) (es gpr_state)
     (m_r15 m) (m_r14 m) (m_r13 m) (m_r12 m) (m_r11 m) (m_r10 m) (m_r9 m) (m_r8 m)
     (m_rbp m) (m_rdi m) (m_rsi m) (m_rdx m) (m_rcx m) (m_rbx m) (m_rax m)
     (err gpr_state) (m_rip m) (cs gpr_state) (m_eflags m) (m_rsp m) (ss gpr_state),
   m_fpstate m).

Definition to_ucontext (g : InterruptState) (extended_state : list Z) : sigcontext :=
  mkSigcontext (r15 g) (r14 g) (r13 g) (r12 g) (r11 g) (r10 g) (r9 g) (r8 g)
    (rbp g) (rdi g) (rsi g) (rdx g) (rcx g) (rbx g) (rax g) (rip g) (rsp g) (rflags g)
    extended_state.

(** Restoring what was saved gives the saved registers, whatever general
    registers were live in between; segments and the error code are kept. *)
Lemma from_to_ucontext g g' x mask :
  from_ucontext g' (mkUContext (to_ucontext g x) mask) =
    (g <| ds := ds g' |> <| es := es g' |> <| err := err g' |> <| cs := cs g' |> <| ss := ss g' |>, x).
Proof. reflexivity. Qed.
