(* ===== verification/Cred.v ===== *)
(** * Credentials: userland/cred.hpp and userland/cred.cpp

    The id sets of a thread, the system calls that change them, and what a process
    without privilege can reach by any sequence of them. A call takes the
    credentials of the calling thread and the [dumpable] flag of its process. *)

From S2P Require Import Prelude QSort.

(** ** Data *)

(** [(uint)-1]. *)
Definition UINT_MAX : Z := 4294967295.

Record IdSet := mkIdSet { rid : Z; eid : Z; fsid : Z; sid : Z }.
#[export] Instance eta_IdSet : Settable IdSet := fun i =>
  mkIdSet (rid i) (eid i) (fsid i) (sid i).
Definition default_ids : IdSet := mkIdSet UINT_MAX UINT_MAX UINT_MAX UINT_MAX.

Definition contains (ids : IdSet) (id : Z) : bool :=
  (rid ids =? id) || (eid ids =? id) || (sid ids =? id).

Record Cred := mkCred { uids : IdSet; gids : IdSet; cred_groups : list Z }.
#[export] Instance eta_Cred : Settable Cred := fun c => mkCred (uids c) (gids c) (cred_groups c).

Definition CAP_SETGID : Z := 6.
Definition CAP_SETUID : Z := 7.

Definition has_capability (c : Cred) (cap : Z) : bool := eid (uids c) =? 0.

(** ** Changing ids *)

Definition ids_of (is_gid : bool) (c : Cred) : IdSet := if is_gid then gids c else uids c.
Definition set_ids (is_gid : bool) (i : IdSet) (c : Cred) : Cred :=
  if is_gid then c <| gids := i |> else c <| uids := i |>.

Definition setid (c : Cred) (dumpable is_gid : bool) (id : Z) : Z * Cred * bool :=
  let ids := ids_of is_gid c in
  let dumpable' := if negb (id =? eid ids) then false else dumpable in
  if has_capability c (if is_gid then CAP_SETGID else CAP_SETUID) then
    (0, set_ids is_gid (mkIdSet id id id id) c, dumpable')
  else if contains ids id then
    (0, set_ids is_gid (ids <| eid := id |> <| fsid := id |>) c, dumpable')
  else (- EPERM, c, dumpable).

(** One of the three ids of an unprivileged [setresid]: [None] is -EPERM. *)
Definition pick (ids : IdSet) (privileged : bool) (id old : Z) : option Z :=
  if id =? UINT_MAX then Some old
  else if privileged || contains ids id then Some id else None.

Definition setresid (c : Cred) (dumpable is_gid : bool) (r e s : Z) : Z * Cred * bool :=
  let ids := ids_of is_gid c in
  let p := has_capability c (if is_gid then CAP_SETGID else CAP_SETUID) in
  match pick ids p e (eid ids), pick ids p r (rid ids), pick ids p s (sid ids) with
  | Some e, Some r, Some s =>
      let new_ids := mkIdSet r e e s in
      let dumpable := if negb (e =? eid ids) || negb (e =? fsid ids) then false else dumpable in
      (0, set_ids is_gid new_ids c, dumpable)
  | _, _, _ => (- EPERM, c, dumpable)
  end.

Definition syscall_setreuid c d r e := setresid c d false r e UINT_MAX.
Definition syscall_setregid c d r e := setresid c d true r e UINT_MAX.

Definition syscall_getresuid (c : Cred) : Z * Z * Z := (rid (uids c), eid (uids c), sid (uids c)).
Definition syscall_getresgid (c : Cred) : Z * Z * Z := (rid (gids c), eid (gids c), sid (gids c)).

(** ** Supplementary groups *)

(** The value and the ids copied out. *)
Definition syscall_getgroups (c : Cred) (size : Z) : Z * list Z :=
  let actual_size := Z.of_nat (length (cred_groups c)) in
  if size =? 0 then (actual_size, [])
  else if size <? actual_size then (- EINVAL, [])
  else (actual_size, cred_groups c).

Definition syscall_setgroups (c : Cred) (size : Z) (ids : list Z) : outcome (Z * Cred) :=
  if size <? 0 then Ret (- EINVAL, c)
  else if size >? 0 then
    let groups := take (Z.to_nat size) ids in
    let! groups := qsort (S (length groups)) groups 0 (length groups) in
    Ret (0, c <| cred_groups := groups |>)
  else Ret (0, c <| cred_groups := [] |>).

(** ** Sequences of calls *)

Inductive cred_call :=
| Setid (is_gid : bool) (id : Z)
| Setresid (is_gid : bool) (r e s : Z).

Definition cred_step (s : Cred * bool) (a : cred_call) : Cred * bool :=
  let '(c, d) := s in
  let '(_, c, d) := match a with
    | Setid g id => setid c d g id
    | Setresid g r e s => setresid c d g r e s
    end in (c, d).

(** ** Theorems *)

Lemma pick_unprivileged ids id old x :
  pick ids false id old = Some x -> contains ids old = true -> contains ids x = true.
Proof. unfold pick. repeat case_match; naive_solver. Qed.

Lemma contains_own ids :
  contains ids (rid ids) = true /\ contains ids (eid ids) = true /\ contains ids (sid ids) = true.
Proof. unfold contains. rewrite !Z.eqb_refl, ?orb_true_r. done. Qed.

Lemma contains_iff ids id : contains ids id = true <-> id = rid ids \/ id = eid ids \/ id = sid ids.
Proof. unfold contains. rewrite !orb_true_iff, !Z.eqb_eq. intuition congruence. Qed.

(** No id of [c'] that a check can find is new, and none is found by [fsid]. *)
Definition ids_within (c' c : Cred) : Prop :=
  forall g id, contains (ids_of g c') id = true -> contains (ids_of g c) id = true.

Lemma set_ids_within c g i :
  (forall id, contains i id = true -> contains (ids_of g c) id = true) ->
  ids_within (set_ids g i c) c.
Proof. intros H g' id. destruct g, g'; simpl; auto. Qed.

Lemma cred_step_within c d a :
  eid (uids c) <> 0 -> ids_within (fst (cred_step (c, d) a)) c.
Proof.
  intros He. assert (forall cap, has_capability c cap = false) as Hcap.
  { intros. by apply Z.eqb_neq. }
  unfold cred_step. destruct a as [g id|g r e s].
  - unfold setid. rewrite Hcap. destruct (contains _ id) eqn:Hc; simpl; [|by intros ? ?].
    apply set_ids_within. intros id'. rewrite !contains_iff in *. simpl. naive_solver.
  - unfold setresid. rewrite Hcap. destruct (contains_own (ids_of g c)) as (Hr & Hee & Hs).
    destruct (pick _ _ e _) as [e'|] eqn:E1; [|by intros ? ?].
    destruct (pick _ _ r _) as [r'|] eqn:E2; [|by intros ? ?].
    destruct (pick _ _ s _) as [s'|] eqn:E3; [|by intros ? ?]. simpl. apply set_ids_within.
    intros id'. rewrite (contains_iff (mkIdSet _ _ _ _)). simpl.
    intros [->|[->| ->]]; eapply pick_unprivileged; done.
Qed.

(** C34. No escalation: a process none of whose user ids is 0 only ever holds ids
    it started with, real, effective and saved, of users and of groups, whatever
    sequence of the uid and gid system calls it makes; so it never becomes
    privileged. *)
Theorem cred_no_escalation c d calls :
  contains (uids c) 0 = false ->
  ids_within (fst (fold_left cred_step calls (c, d))) c /\
  has_capability (fst (fold_left cred_step calls (c, d))) CAP_SETUID = false.
Proof.
  revert c d. induction calls as [|a calls IH]; intros c d H0.
  - split; [by intros ? ?|]. unfold contains in H0. zbool. by apply Z.eqb_neq.
  - cbn [fold_left]. assert (eid (uids c) <> 0) as He by (unfold contains in H0; by zbool).
    pose proof (cred_step_within c d a He) as Hw.
    destruct (cred_step (c, d) a) as [c1 d1]. simpl in Hw.
    assert (contains (uids c1) 0 = false) as H1.
    { apply not_true_iff_false. intros Ht. apply (Hw false) in Ht. simpl in Ht. congruence. }
    destruct (IH c1 d1 H1) as [H2 H3]. split; [|done]. intros g id Hid. auto.
Qed.

Lemma cred_no_escalation_witness :
  let c := mkCred (mkIdSet 1000 1001 1001 1002) (mkIdSet 100 100 100 100) [] in
  has_capability (fst (fold_left cred_step
    [Setid false 1002; Setresid false 0 0 0; Setresid false UINT_MAX 1001 1000; Setid true 0]
    (c, true))) CAP_SETUID = false.
Proof.
  intros c. apply (cred_no_escalation c true
    [Setid false 1002; Setresid false 0 0 0; Setresid false UINT_MAX 1001 1000; Setid true 0]).
  reflexivity.
Defined.

(** [setgroups] then [getgroups] gives back the groups in ascending order:
    for a list of the given size, the sort terminates, what is stored is a sorted
    permutation of it, a query of size 0 gives the count and a large enough buffer
    receives the whole list. *)
Theorem setgroups_getgroups c ids size :
  size = Z.of_nat (length ids) ->
  exists c', syscall_setgroups c size ids = Ret (0, c') /\
    cred_groups c' ≡ₚ ids /\ sorted_in 0 (length ids) (cred_groups c') /\
    syscall_getgroups c' 0 = (size, []) /\
    (forall n, 0 < n -> size <= n -> syscall_getgroups c' n = (size, cred_groups c')) /\
    (forall n, n <> 0 -> n < size -> syscall_getgroups c' n = (- EINVAL, [])) /\
    uids c' = uids c /\ gids c' = gids c.
Proof.
  intros ->.
  assert (exists g, syscall_setgroups c (Z.of_nat (length ids)) ids =
      Ret (0, c <| cred_groups := g |>) /\ g ≡ₚ ids /\ sorted_in 0 (length ids) g)
    as (g & -> & Hp & Hs).
  { unfold syscall_setgroups. rewrite (proj2 (Z.ltb_ge _ _)) by lia.
    destruct (Z.gtb_spec (Z.of_nat (length ids)) 0).
    - rewrite take_ge by lia.
      destruct (qsort_spec (S (length ids)) ids 0 (length ids)) as (g & Hq & Hp & Hs); [lia..|].
      cbv zeta. rewrite Hq. exists g. split_and!; [done|symmetry; apply Hp|done].
    - exists []. destruct ids; [|simpl in *; lia]. split_and!; try done. }
  eexists. split; [done|]. pose proof (Permutation_length Hp) as Hl.
  unfold syscall_getgroups. simpl. rewrite Hl. split_and!; try done.
  - intros n ? ?. rewrite (proj2 (Z.eqb_neq _ _)), (proj2 (Z.ltb_ge _ _)) by lia. done.
  - intros n ? ?. rewrite (proj2 (Z.eqb_neq _ _)), (proj2 (Z.ltb_lt _ _)) by lia. done.
Qed.

Lemma setgroups_getgroups_witness :
  exists c', syscall_setgroups (mkCred default_ids default_ids []) 3 [20; 4; 7] = Ret (0, c') /\
    cred_groups c' ≡ₚ [20; 4; 7] /\ sorted_in 0 3 (cred_groups c').
Proof.
  destruct (setgroups_getgroups (mkCred default_ids default_ids []) [20; 4; 7] 3 eq_refl)
    as (c' & ? & ? & ? & _). exists c'. auto.
Defined.
