(* ===== verification/Sched.v ===== *)
(** * Threads, events and signals: sched/event.cpp and the core of sched/sched.cpp

    The state of the scheduler (threads, events, processes and the run queue) and
    the operations that move threads between its states: [enqueue_thread],
    [dequeue_thread], [Event::wait], [Event::trigger], [clear_listeners],
    [send_signal].

    A linked list of the kernel is the list of its members; linking a member
    twice or unlinking a stranger is [Undef]. Pointers are keys of the maps of
    the state. [Event::wait] gives up the processor in the middle, so it is two
    functions: [wait_begin] up to the call of [yield], [wait_end] after it. *)

From S2P Require Import Prelude Context Cred Vector Links.

(** ** Data *)

Inductive State := READY | RUNNING | BLOCKED | STOPPED | ZOMBIE.
#[export] Instance State_eq_dec : EqDecision State.
Proof. solve_decision. Defined.

(** [Thread::listeners] holds, per listener, the event it is linked to and the
    index [which] that [wait] is to return. *)
Record Thread := mkThread {
  tid : Z;
  process : Z;
  gpr_state : InterruptState;
  extended_state : list Z;
  gs_base : Z; fs_base : Z;
  thread_user_stack : Z;
  saved_user_stack : Z; saved_kernel_stack : Z;
  syscall_state : InterruptState;
  yield_await : bool;
  listeners : list (Z * Z);
  listeners_capacity : Z;
  which_event : Z;
  cred : Cred;
  ss_sp : Z; ss_flags : Z; ss_size : Z;
  signal_mask : Z;
  pending_signals : Z;
  enqueued_by_signal : Z;
  entering_signal : bool;
  exiting_signal : bool;
  signal_frame : Z;
  poll_saved_signal_mask : Z;
  has_poll_saved_signal_mask : bool;
  signal_event : Z;
  signal_return_event : Z;
  last_syscall_num : Z; last_syscall_rip : Z; last_syscall_ret : Z;
  set_child_tid : Z;
  clear_child_tid : Z;
  state : State
}.
#[export] Instance eta_Thread : Settable Thread := fun t =>
  mkThread (tid t) (process t) (gpr_state t) (extended_state t) (gs_base t) (fs_base t)
    (thread_user_stack t) (saved_user_stack t) (saved_kernel_stack t) (syscall_state t)
    (yield_await t) (listeners t) (listeners_capacity t) (which_event t) (cred t) (ss_sp t)
    (ss_flags t) (ss_size t) (signal_mask t) (pending_signals t) (enqueued_by_signal t)
    (entering_signal t) (exiting_signal t) (signal_frame t) (poll_saved_signal_mask t)
    (has_poll_saved_signal_mask t) (signal_event t) (signal_return_event t)
    (last_syscall_num t) (last_syscall_rip t) (last_syscall_ret t) (set_child_tid t)
    (clear_child_tid t) (state t).

(** [Event]: its listeners as (thread, which), in the order they wait. *)
Record Event := mkEvent { pending : Z; num_listeners : Z; listener_list : list (Z * Z) }.
#[export] Instance eta_Event : Settable Event := fun e =>
  mkEvent (pending e) (num_listeners e) (listener_list e).

Record KernelSigaction := mkSigaction { handler : Z; flags : Z; restorer : Z; mask : Z }.
#[export] Instance eta_KernelSigaction : Settable KernelSigaction := fun a =>
  mkSigaction (handler a) (flags a) (restorer a) (mask a).

(** [vfs::FileDescriptor]: the description it points to and its flag bit. *)
Record FileDescriptor := mkFd { description : option Z; fd_flags : Z }.
#[export] Instance eta_FileDescriptor : Settable FileDescriptor := fun d =>
  mkFd (description d) (fd_flags d).

(** [vfs::FileDescription]. *)
Record FileDescription := mkDescription {
  d_vnode : Z; d_entry : Z; cursor : Z; d_flags : Z; ref_count : Z
}.
#[export] Instance eta_FileDescription : Settable FileDescription := fun d =>
  mkDescription (d_vnode d) (d_entry d) (cursor d) (d_flags d) (ref_count d).

Record Process := mkProcess {
  pid : Z;
  thread_list : list Z;
  num_living_threads : Z;
  pagemap : option Z;
  file_descriptors : Vector FileDescriptor;
  num_file_descriptors : Z;
  first_free_fdnum : Z;
  cwd : Z; exe : Z;
  umask : Z;
  dumpable : bool;
  mmap_anon_base : Z; brk : Z;
  parent : Z;
  children_list : list Z;
  zombie_event : Z; stopped_event : Z; continued_event : Z;
  wait_status : Z; wait_code : Z;
  is_zombie : bool;
  has_performed_execve : bool;
  signal_actions : list KernelSigaction;
  group : option Z
}.
#[export] Instance eta_Process : Settable Process := fun p =>
  mkProcess (pid p) (thread_list p) (num_living_threads p) (pagemap p) (file_descriptors p)
    (num_file_descriptors p) (first_free_fdnum p) (cwd p) (exe p) (umask p) (dumpable p)
    (mmap_anon_base p) (brk p) (parent p) (children_list p) (zombie_event p) (stopped_event p)
    (continued_event p) (wait_status p) (wait_code p) (is_zombie p) (has_performed_execve p)
    (signal_actions p) (group p).

Record ProcessGroup := mkGroup { session : Z; leader_process : Z; process_list : list Z }.
#[export] Instance eta_ProcessGroup : Settable ProcessGroup := fun g =>
  mkGroup (session g) (leader_process g) (process_list g).

Record Session := mkSession { leader_group : Z; process_group_list : list Z }.
#[export] Instance eta_Session : Settable Session := fun s =>
  mkSession (leader_group s) (process_group_list s).

(** [sched_list] is the run queue; [frames] the signal frames in user memory;
    [closed] the descriptions on whose vnode [VNode::close] was called, latest
    first; [futex_table] the futex event of a physical address; [page_table] the
    physical page a (pagemap, virtual page) is mapped to and [memory] the 32-bit
    words at physical addresses; [next_obj] the address of the next object
    allocated. *)
Record kernel := mkKernel {
  threads : gmap Z Thread;
  events : gmap Z Event;
  processes : gmap Z Process;
  groups : gmap Z ProcessGroup;
  sessions : gmap Z Session;
  descriptions : gmap Z FileDescription;
  sched_list : list Z;
  thread_table : list (option Z);
  num_threads : Z;
  first_free_tid : Z;
  init_process : Z;
  idle_thread : Z;
  frames : gmap Z SignalFrame;
  closed : list Z;
  futex_table : gmap Z Z;
  page_table : gmap (Z * Z) Z;
  memory : gmap Z Z;
  next_obj : Z
}.
#[export] Instance eta_kernel : Settable kernel := fun k =>
  mkKernel (threads k) (events k) (processes k) (groups k) (sessions k) (descriptions k)
    (sched_list k) (thread_table k) (num_threads k) (first_free_tid k) (init_process k)
    (idle_thread k) (frames k) (closed k) (futex_table k) (page_table k) (memory k)
    (next_obj k).

(** Writing back one object. *)
Definition put_thread (t : Z) (th : Thread) (k : kernel) : kernel :=
  k <| threads ::= <[t := th]> |>.
Definition put_event (e : Z) (ev : Event) (k : kernel) : kernel :=
  k <| events ::= <[e := ev]> |>.
Definition put_process (p : Z) (pr : Process) (k : kernel) : kernel :=
  k <| processes ::= <[p := pr]> |>.

(** A thread as its member initialisers and constructor leave it; members they do
    not set are 0. *)
Definition zero_regs : InterruptState :=
  mkInterruptState 0 0 0 0 0 0 0 0 0 0 0 0 0 0 0 0 0 0 0 0 0 0 0.
Definition Thread_init (t p kernel_stack sig sigret : Z) : Thread :=
  {| tid := t; process := p; gpr_state := zero_regs; extended_state := []; gs_base := 0;
     fs_base := 0; thread_user_stack := 0; saved_user_stack := 0;
     saved_kernel_stack := kernel_stack; syscall_state := zero_regs; yield_await := false;
     listeners := []; listeners_capacity := 0; which_event := 0;
     cred := mkCred default_ids default_ids []; ss_sp := 0; ss_flags := 0; ss_size := 0;
     signal_mask := 0; pending_signals := 0; enqueued_by_signal := -1; entering_signal := false;
     exiting_signal := false; signal_frame := 0; poll_saved_signal_mask := 0;
     has_poll_saved_signal_mask := false; signal_event := sig; signal_return_event := sigret;
     last_syscall_num := 0; last_syscall_rip := 0; last_syscall_ret := 0; set_child_tid := 0;
     clear_child_tid := 0; state := BLOCKED |}.
Definition Process_init (p zombie stopped continued : Z) : Process :=
  {| pid := p; thread_list := []; num_living_threads := 0; pagemap := None;
     file_descriptors := empty_vector; num_file_descriptors := 0; first_free_fdnum := 0; cwd := 0; exe := 0;
     umask := 18; dumpable := true; mmap_anon_base := 0; brk := 0; parent := 0;
     children_list := []; zombie_event := zombie; stopped_event := stopped;
     continued_event := continued; wait_status := 0; wait_code := 0; is_zombie := false;
     has_performed_execve := false; signal_actions := replicate 64 (mkSigaction 0 0 0 0);
     group := None |}.
Definition Event_init : Event := mkEvent 0 0 [].

(** ** Signals numbers and flags used here *)
Definition SIGCHLD : Z := 17.
Definition SIGCONT : Z := 18.
Definition SA_NOCLDSTOP : Z := 1.
Definition CLD_EXITED : Z := 1.
Definition CLD_KILLED : Z := 2.
Definition CLD_STOPPED : Z := 5.
Definition CLD_CONTINUED : Z := 6.
Definition INT_MAX : Z := 2147483647.

Definition get_signal_bit (signal : Z) : Z := u64 (Z.shiftl 1 (signal - 1)).

(** ** Run queue *)

Definition enqueue_thread (k : kernel) (t signal : Z) : outcome kernel :=
  let! th := deref (threads k !! t) in
  if decide (state th <> BLOCKED /\ state th <> STOPPED) then Ret k else
  if decide (state th = STOPPED /\ signal <> SIGCONT) then Ret k else
  let! q := link_tail t (sched_list k) in
  let th := th <| enqueued_by_signal := signal |> in
  let th := if decide (state th = BLOCKED) then th <| state := READY |> else th in
  Ret (put_thread t th (k <| sched_list := q |>)).

(** ** Event::trigger *)

(** The loop over [listener_list_head]; [max_to_wake] is tested after each. *)
Fixpoint wake_listeners (k : kernel) (l : list (Z * Z)) (max_to_wake num_woken_up : Z)
    : outcome (kernel * Z) :=
  match l with
  | [] => Ret (k, num_woken_up)
  | (t, which) :: l =>
      let! th := deref (threads k !! t) in
      let! k := enqueue_thread (put_thread t (th <| which_event := which |>) k) t (-1) in
      let n := num_woken_up + 1 in
      if n >=? max_to_wake then Ret (k, n) else wake_listeners k l max_to_wake n
  end.

Definition trigger (k : kernel) (e : Z) (drop : bool) (max_to_wake : Z) : outcome (kernel * Z) :=
  let! ev := deref (events k !! e) in
  if num_listeners ev =? 0 then
    Ret (if drop then k else put_event e (ev <| pending := i32 (pending ev + 1) |>) k, 0)
  else wake_listeners k (listener_list ev) max_to_wake 0.

(** [trigger()] with the default arguments. *)
Definition trigger_all (k : kernel) (e : Z) : outcome kernel :=
  let! (k, _) := trigger k e false INT_MAX in Ret k.

(** ** Signals *)

Definition has_pending_signals (th : Thread) : bool :=
  negb (pending_signals th &~ signal_mask th =? 0).

(** [Thread::send_signal]. *)
Definition send_signal (k : kernel) (t signal : Z) : outcome kernel :=
  let! th := deref (threads k !! t) in
  let th := th <| pending_signals := pending_signals th .| get_signal_bit signal |> in
  let! k := enqueue_thread (put_thread t th k) t signal in
  trigger_all k (signal_event th).

(** [Process::get_main_thread]: the first thread, whose tid must be the pid. *)
Definition get_main_thread (k : kernel) (p : Z) : outcome Z :=
  let! pr := deref (processes k !! p) in
  let! t := deref (head (thread_list pr)) in
  let! th := deref (threads k !! t) in
  let! _ := assert (tid th =? pid pr) in
  Ret t.

Definition process_send_signal (k : kernel) (p signal : Z) : outcome kernel :=
  let! t := get_main_thread k p in send_signal k t signal.

Definition dequeue_thread (k : kernel) (t stop_signal : Z) : outcome kernel :=
  let! th := deref (threads k !! t) in
  let! _ := assert (bool_decide (state th = READY \/ state th = RUNNING)) in
  let! q := unlink t (sched_list k) in
  let k := k <| sched_list := q |> in
  if negb (stop_signal =? -1) then
    let k := put_thread t (th <| state := STOPPED |>) k in
    let! pr := deref (processes k !! process th) in
    let pr := pr <| wait_status := stop_signal |> <| wait_code := CLD_STOPPED |> in
    let! k := trigger_all (put_process (process th) pr k) (stopped_event pr) in
    let! pa := deref (processes k !! parent pr) in
    let! act := deref (signal_actions pa !! Z.to_nat SIGCHLD) in
    if negb (flags act &? SA_NOCLDSTOP) then process_send_signal k (parent pr) SIGCHLD else Ret k
  else Ret (put_thread t (th <| state := BLOCKED |>) k).

(** ** Event::wait *)

(** The first event whose [pending] is positive, with its index. *)
Fixpoint find_pending (k : kernel) (i : Z) (evs : list (option Z)) : outcome (option (Z * Z)) :=
  match evs with
  | [] => Ret None
  | None :: evs => find_pending k (i + 1) evs
  | Some e :: evs =>
      let! ev := deref (events k !! e) in
      if pending ev >? 0 then Ret (Some (e, i)) else find_pending k (i + 1) evs
  end.

(** [listeners.emplace_back]: growing the vector moves the listeners and frees
    their old storage, to which the events' lists still point. *)
Definition listeners_reserve (size capacity : Z) : outcome Z :=
  if size + 1 <=? capacity then Ret capacity
  else if size =? 0 then Ret 1 else Undef.

Fixpoint register (k : kernel) (t i : Z) (evs : list (option Z)) : outcome kernel :=
  match evs with
  | [] => Ret k
  | None :: evs => register k t (i + 1) evs
  | Some e :: evs =>
      let! th := deref (threads k !! t) in
      let! ev := deref (events k !! e) in
      let! cap := listeners_reserve (Z.of_nat (length (listeners th))) (listeners_capacity th) in
      let! l := link_tail (t, i) (listener_list ev) in
      let k := put_thread t (th <| listeners := listeners th ++ [(e, i)] |>
                                <| listeners_capacity := cap |>) k in
      let k := put_event e (ev <| listener_list := l |> <| num_listeners ::= Z.add 1 |>) k in
      register k t (i + 1) evs
  end.

(** [inl]: the value returned without sleeping; [inr]: the thread sleeps. *)
Definition wait_begin (k : kernel) (t : Z) (evs : list (option Z)) (nonblocking : bool)
    : outcome (Z * kernel + kernel) :=
  let! th := deref (threads k !! t) in
  if has_pending_signals th then Ret (inl (- EINTR, k)) else
  let! p := find_pending k 0 evs in
  match p with
  | Some (e, i) =>
      let! ev := deref (events k !! e) in
      Ret (inl (i, put_event e (ev <| pending := pending ev - 1 |>) k))
  | None =>
      if nonblocking then Ret (inl (- EWOULDBLOCK, k)) else
      let! _ := assert (bool_decide (listeners th = [])) in
      let! k := register k t 0 evs in
      let! k := dequeue_thread k t (-1) in
      Ret (inr k)
  end.

Fixpoint unlink_listeners (k : kernel) (t : Z) (ls : list (Z * Z)) : outcome kernel :=
  match ls with
  | [] => Ret k
  | (e, which) :: ls =>
      let! ev := deref (events k !! e) in
      let! l := unlink (t, which) (listener_list ev) in
      unlink_listeners
        (put_event e (ev <| listener_list := l |> <| num_listeners ::= fun n => n - 1 |>) k) t ls
  end.

Definition clear_listeners (k : kernel) (t : Z) : outcome kernel :=
  let! th := deref (threads k !! t) in
  let! k := unlink_listeners k t (listeners th) in
  Ret (put_thread t (th <| listeners := [] |>) k).

(** What [wait] does once the thread runs again. *)
Definition wait_end (k : kernel) (t : Z) : outcome (Z * kernel) :=
  let! k := clear_listeners k t in
  let! th := deref (threads k !! t) in
  Ret (if negb (enqueued_by_signal th =? -1) then - EINTR else which_event th, k).
