(* ===== verification/SchedFacts.v ===== *)
(** * Invariants of the scheduler state

    [queue_wf]: the run queue holds each runnable thread once and no sleeping one;
    [links_wf]: the listener lists of the events and the listeners of the threads
    are the two sides of one relation, and no thread waits for an event that is
    pending. Every operation of Sched.v keeps both and
    is defined on them, under the conditions stated. *)

From S2P Require Import Prelude Context Links Sched.

(** ** The invariants *)

Definition runnable (th : Thread) : Prop := state th = READY \/ state th = RUNNING.

Record queue_wf (k : kernel) : Prop := {
  queue_nodup : NoDup (sched_list k);
  queue_awake t : t ∈ sched_list k ->
    exists th, threads k !! t = Some th /\ state th <> BLOCKED /\ state th <> ZOMBIE;
  queue_complete t th : threads k !! t = Some th -> runnable th -> t <> idle_thread k ->
    t ∈ sched_list k
}.

Record links_wf (k : kernel) : Prop := {
  links_event e ev : events k !! e = Some ev ->
    NoDup (listener_list ev) /\ num_listeners ev = Z.of_nat (length (listener_list ev));
  links_to e ev t w : events k !! e = Some ev -> (t, w) ∈ listener_list ev ->
    exists th, threads k !! t = Some th /\ (e, w) ∈ listeners th;
  links_from t th e w : threads k !! t = Some th -> (e, w) ∈ listeners th ->
    exists ev, events k !! e = Some ev /\ (t, w) ∈ listener_list ev;
  links_nodup t th : threads k !! t = Some th -> NoDup (listeners th);
  links_pending e ev : events k !! e = Some ev -> listener_list ev <> [] -> pending ev <= 0
}.

Definition sched_wf (k : kernel) : Prop := queue_wf k /\ links_wf k.

(** Two states with the same events and the same listeners. *)
Definition same_links (k k' : kernel) : Prop :=
  events k' = events k /\
  forall t, listeners <$> threads k' !! t = listeners <$> threads k !! t.

#[export] Instance same_links_preorder : PreOrder same_links.
Proof.
  split; [done|]. intros k1 k2 k3 [He1 Ht1] [He2 Ht2]. split; [congruence|].
  intros t. by rewrite Ht2.
Qed.

Lemma same_links_thread k k' t th :
  same_links k k' -> threads k !! t = Some th ->
  exists th', threads k' !! t = Some th' /\ listeners th' = listeners th.
Proof.
  intros [_ Ht] Hth. specialize (Ht t). rewrite Hth in Ht. simpl in Ht.
  destruct (threads k' !! t) as [th'|]; simplify_eq/=. eauto.
Qed.

Lemma same_links_sym k k' : same_links k k' -> same_links k' k.
Proof. intros [He Ht]. split; [done|]. intros t. by rewrite Ht. Qed.

Lemma links_wf_same k k' : same_links k k' -> links_wf k -> links_wf k'.
Proof.
  intros Hs Hwf. pose proof (same_links_sym _ _ Hs) as Hs'. pose proof Hs as [He _].
  split; rewrite ?He.
  - apply (links_event _ Hwf).
  - intros e ev t w Hev Hin. destruct (links_to _ Hwf _ _ _ _ Hev Hin) as (th & Hth & ?).
    destruct (same_links_thread _ _ _ _ Hs Hth) as (th' & ? & Hl). exists th'. by rewrite Hl.
  - intros t th e w Hth Hin. destruct (same_links_thread _ _ _ _ Hs' Hth) as (th' & Hth' & Hl).
    rewrite <- Hl in Hin. apply (links_from _ Hwf _ _ _ _ Hth' Hin).
  - intros t th Hth. destruct (same_links_thread _ _ _ _ Hs' Hth) as (th' & Hth' & Hl).
    rewrite <- Hl. apply (links_nodup _ Hwf _ _ Hth').
  - apply (links_pending _ Hwf).
Qed.

Lemma put_thread_same_links k t th th' :
  threads k !! t = Some th -> listeners th' = listeners th -> same_links k (put_thread t th' k).
Proof.
  intros Hth Hl. split; [done|]. intros t'. simpl. rewrite lookup_insert.
  case_decide; simplify_eq; [|done]. rewrite Hth. simpl. by rewrite Hl.
Qed.

(** Changes that leave the states of the threads alone. *)
Lemma queue_wf_put_thread k t th th' :
  queue_wf k -> threads k !! t = Some th -> state th' = state th ->
  queue_wf (put_thread t th' k).
Proof.
  intros Hq Hth Hs. split; simpl.
  - apply (queue_nodup _ Hq).
  - intros t' Hin. destruct (queue_awake _ Hq _ Hin) as (th2 & Hth2 & ?).
    rewrite lookup_insert. case_decide; simplify_eq; [|eauto].
    eexists. split; [done|]. by rewrite Hs.
  - intros t' th2 Hth2 Hr Hi. rewrite lookup_insert in Hth2. unfold runnable in Hr.
    case_decide; simplify_eq; [rewrite Hs in Hr|]; by eapply (queue_complete _ Hq).
Qed.

Lemma queue_wf_put_event k e ev : queue_wf k -> queue_wf (put_event e ev k).
Proof. by intros []. Qed.

Lemma queue_wf_put_process k p pr : queue_wf k -> queue_wf (put_process p pr k).
Proof. by intros []. Qed.

(** ** enqueue_thread *)

(** What it makes of the thread, and whether it links it. *)
Definition enq_links (th : Thread) (signal : Z) : bool :=
  bool_decide (state th = BLOCKED \/ (state th = STOPPED /\ signal = SIGCONT)).
Definition enq_thread (th : Thread) (signal : Z) : Thread :=
  if enq_links th signal then
    th <| enqueued_by_signal := signal |>
       <| state := if decide (state th = BLOCKED) then READY else state th |>
  else th.

(** The one case in which the thread is linked a second time. *)
Definition double_link (k : kernel) (t : Z) (th : Thread) (signal : Z) : Prop :=
  state th = STOPPED /\ signal = SIGCONT /\ t ∈ sched_list k.

Lemma enqueue_thread_eq k t th signal :
  queue_wf k -> threads k !! t = Some th -> ~ double_link k t th signal ->
  enqueue_thread k t signal =
    Ret (put_thread t (enq_thread th signal)
           (k <| sched_list := if enq_links th signal then sched_list k ++ [t]
                               else sched_list k |>)).
Proof.
  intros Hq Hth Hnd. unfold enqueue_thread, enq_thread, enq_links. rewrite Hth. simpl.
  assert (state th = BLOCKED -> t ∉ sched_list k) as Hb.
  { intros Hs Hin. destruct (queue_awake _ Hq _ Hin) as (th' & ? & ? & ?). congruence. }
  assert (put_thread t th k = k) as Hid.
  { unfold put_thread. simpl. rewrite insert_id by done. by destruct k. }
  destruct (decide (state th = BLOCKED)) as [Hs|Hs].
  - rewrite decide_False by naive_solver. rewrite decide_False by (intros [? ?]; congruence).
    rewrite link_tail_Ret by auto. simpl. rewrite bool_decide_true by auto.
    by destruct (decide (state th = BLOCKED)).
  - destruct (decide (state th = STOPPED /\ signal = SIGCONT)) as [[Hst Hc]|Hn].
    + rewrite decide_False by naive_solver. rewrite decide_False by naive_solver.
      rewrite link_tail_Ret by (intros ?; apply Hnd; done). simpl.
      rewrite bool_decide_true by auto. done.
    + rewrite bool_decide_false by tauto.
      assert (Ret k = Ret (put_thread t th (k <|sched_list := sched_list k|>))) as Hr.
      { f_equal. rewrite <- Hid at 1. by destruct k. }
      destruct (decide (state th = STOPPED)).
      * rewrite decide_False by naive_solver. rewrite decide_True by tauto. done.
      * rewrite decide_True by done. done.
Qed.

Lemma queue_wf_enqueue k t th signal :
  queue_wf k -> threads k !! t = Some th -> ~ double_link k t th signal ->
  queue_wf (put_thread t (enq_thread th signal)
           (k <| sched_list := if enq_links th signal then sched_list k ++ [t]
                               else sched_list k |>)).
Proof.
  intros Hq Hth Hnd. unfold enq_thread. case_eq (enq_links th signal); intros El.
  - apply bool_decide_eq_true in El.
    assert (t ∉ sched_list k) as Hni.
    { intros Hin. destruct (queue_awake _ Hq _ Hin) as (th' & ? & ? & ?). unfold double_link in *.
      naive_solver. }
    split; simpl.
    + apply NoDup_snoc; [apply (queue_nodup _ Hq)|done].
    + intros t' [Hin| ->%list_elem_of_singleton]%elem_of_app.
      * destruct (decide (t = t')) as [->|]; [done|]. rewrite lookup_insert_ne by done.
        by apply (queue_awake _ Hq).
      * rewrite lookup_insert_eq. eexists. split; [done|]. simpl.
        destruct El as [Es|[Es _]]; rewrite Es; split; case_decide; congruence.
    + intros t' th' Hth' Hr Hi. apply elem_of_app. destruct (decide (t = t')) as [->|].
      * right. by apply list_elem_of_singleton.
      * left. rewrite lookup_insert_ne in Hth' by done. by eapply (queue_complete _ Hq).
  - replace (put_thread _ _ _) with k; [done|].
    unfold put_thread. simpl. rewrite insert_id by done. by destruct k.
Qed.

Lemma enq_thread_listeners th s : listeners (enq_thread th s) = listeners th.
Proof. unfold enq_thread. by destruct (enq_links th s). Qed.

Lemma enqueue_same_links k t th q s :
  threads k !! t = Some th -> same_links k (put_thread t (enq_thread th s) (k <| sched_list := q |>)).
Proof.
  intros Hth. split; [done|]. intros t'. simpl. rewrite lookup_insert.
  case_decide; simplify_eq; [|done]. rewrite Hth. simpl. by rewrite enq_thread_listeners.
Qed.

(** Enqueueing twice with no signal is enqueueing once. *)
Lemma enq_thread_which th s w :
  enq_thread (th <| which_event := w |>) s = enq_thread th s <| which_event := w |>.
Proof. unfold enq_thread, enq_links. simpl. by case_match. Qed.

Lemma enq_thread_idem th : enq_thread (enq_thread th (-1)) (-1) = enq_thread th (-1).
Proof.
  unfold enq_thread at 2 3. case_eq (enq_links th (-1)); intros E;
    [|unfold enq_thread; by rewrite E].
  apply bool_decide_eq_true in E as [E|[_ ?]]; [|done]. unfold enq_thread, enq_links. simpl.
  by rewrite E.
Qed.

Lemma no_double_link_trigger k t th : ~ double_link k t th (-1).
Proof. intros (_ & ? & _). done. Qed.

(** ** trigger *)

(** The [which] of the last of thread [t]'s listeners in [l]. *)
Definition last_which (t : Z) (l : list (Z * Z)) : option Z :=
  last (snd <$> filter (fun x => fst x = t) l).

Definition woken (th : Thread) (w : option Z) : Thread :=
  match w with None => th | Some w => enq_thread th (-1) <| which_event := w |> end.

Lemma last_which_cons t u w l :
  last_which t ((u, w) :: l) =
    match last_which t l with
    | Some v => Some v
    | None => if decide (u = t) then Some w else None
    end.
Proof.
  unfold last_which. rewrite filter_cons. simpl. case_decide; simpl; [|by destruct (last _)].
  rewrite last_cons. by destruct (last _).
Qed.

Lemma wake_listeners_spec l k max n :
  queue_wf k -> (forall t w, (t, w) ∈ l -> is_Some (threads k !! t)) ->
  exists k', wake_listeners k l max n =
      Ret (k', n + Z.of_nat (length (take (Z.to_nat (Z.max 1 (max - n))) l))) /\
    queue_wf k' /\ same_links k k' /\ processes k' = processes k /\
    idle_thread k' = idle_thread k /\
    forall t, threads k' !! t =
      (fun th => woken th (last_which t (take (Z.to_nat (Z.max 1 (max - n))) l))) <$> threads k !! t.
Proof.
  revert k n. induction l as [|[t w] l IH]; intros k n Hq Hl.
  { exists k. rewrite take_nil, Z.add_0_r. split_and!; [done..|]. intros t.
    unfold last_which. simpl. by destruct (threads k !! t). }
  cbn [wake_listeners]. destruct (Hl t w ltac:(left)) as [th Hth]. rewrite Hth. cbn [obind deref].
  set (k1 := put_thread t (th <| which_event := w |>) k).
  assert (queue_wf k1) as Hq1 by (by eapply queue_wf_put_thread).
  assert (threads k1 !! t = Some (th <| which_event := w |>)) as Hth1 by apply lookup_insert_eq.
  rewrite (enqueue_thread_eq k1 t _ (-1) Hq1 Hth1 (no_double_link_trigger _ _ _)).
  pose proof (queue_wf_enqueue k1 t _ (-1) Hq1 Hth1 (no_double_link_trigger _ _ _)) as Hq2.
  set (k2 := put_thread _ _ (k1 <|sched_list := _|>)) in *. cbn [obind].
  assert (same_links k k2) as Hs2.
  { etrans; [|by apply enqueue_same_links]. by eapply put_thread_same_links. }
  assert (forall t', threads k2 !! t' =
      if decide (t = t') then Some (woken th (Some w)) else threads k !! t') as Hk2.
  { intros t'. unfold k2, k1. rewrite enq_thread_which. unfold woken. simpl.
    rewrite !lookup_insert. by case_decide. }
  replace (Z.to_nat (Z.max 1 (max - n))) with (S (Z.to_nat (Z.max 1 (max - n)) - 1)) by lia.
  cbn [take length]. rewrite Z.geb_leb. destruct (Z.leb_spec max (n + 1)).
  - replace (Z.to_nat (Z.max 1 (max - n)) - 1)%nat with 0%nat by lia. rewrite take_0.
    exists k2. simpl. split_and!; [done..|]. intros t'. rewrite Hk2, last_which_cons.
    change (last_which t' []) with (@None Z). simpl. case_decide; subst.
    + by rewrite Hth.
    + by destruct (threads k !! t').
  - replace (Z.to_nat (Z.max 1 (max - n)) - 1)%nat with (Z.to_nat (Z.max 1 (max - (n + 1)))) by lia.
    destruct (IH k2 (n + 1) Hq2) as (k' & -> & Hq' & Hs' & Hp' & Hi' & Hk').
    { intros t' w' Hin. rewrite Hk2. case_decide; [done|]. apply (Hl t' w'). by right. }
    exists k'. split_and!; [f_equal; f_equal; lia|done|by etrans|done|done|].
    intros t'. rewrite Hk', Hk2, last_which_cons. case_decide; subst.
    + rewrite Hth. unfold fmap, option_fmap, option_map. f_equal.
      destruct (last_which _ _); [|done]. unfold woken.
      by rewrite enq_thread_which, enq_thread_idem.
    + destruct (threads k !! t'); simpl; [|done]. by destruct (last_which _ _).
Qed.

Lemma woken_woken th w : woken (woken th w) w = woken th w.
Proof. destruct w; [|done]. unfold woken. by rewrite enq_thread_which, enq_thread_idem. Qed.

(** ** Deciding the invariants of a concrete state *)

Definition queue_wf_dec (k : kernel) : bool :=
  bool_decide (NoDup (sched_list k)) &&
  forallb (fun t => match threads k !! t with
                    | Some th => bool_decide (state th <> BLOCKED /\ state th <> ZOMBIE)
                    | None => false end) (sched_list k) &&
  bool_decide (map_Forall (fun t th => runnable th -> t <> idle_thread k -> t ∈ sched_list k)
                 (threads k)).
#[export] Instance runnable_dec th : Decision (runnable th).
Proof. unfold runnable. apply _. Defined.

Lemma queue_wf_check k : queue_wf_dec k = true -> queue_wf k.
Proof.
  unfold queue_wf_dec. intros H. zbool. split.
  - by eapply bool_decide_eq_true.
  - intros t Hin. match goal with H : forallb _ _ = true |- _ => rewrite forallb_forall in H;
      specialize (H t (proj1 (list_elem_of_In _ _) Hin)) end.
    destruct (threads k !! t) as [th|]; [|done].
    exists th. split; [done|]. by eapply bool_decide_eq_true.
  - intros t th Hth. match goal with H : bool_decide (map_Forall _ _) = true |- _ =>
      apply bool_decide_eq_true in H; apply (H t th Hth) end.
Qed.

(** A state in which nobody waits. *)
Definition links_fresh_dec (k : kernel) : bool :=
  bool_decide (map_Forall (fun _ th => listeners th = []) (threads k)) &&
  bool_decide (map_Forall (fun _ ev => listener_list ev = [] /\ num_listeners ev = 0) (events k)).

Lemma links_wf_fresh k : links_fresh_dec k = true -> links_wf k.
Proof.
  unfold links_fresh_dec. intros H. zbool.
  repeat match goal with H : bool_decide _ = true |- _ => apply bool_decide_eq_true in H end.
  split.
  - intros e ev Hev. destruct (H0 e ev Hev) as [-> ->]. split; [constructor|done].
  - intros e ev t w Hev Hin. destruct (H0 e ev Hev) as [Hn _]. rewrite Hn in Hin. by apply elem_of_nil in Hin.
  - intros t th e w Hth Hin. rewrite (H t th Hth) in Hin. by apply elem_of_nil in Hin.
  - intros t th Hth. rewrite (H t th Hth). constructor.
  - intros e ev Hev Hne. by destruct (H0 e ev Hev).
Qed.
