(* ===== verification/SchedLinks.v ===== *)
(** * Listeners: what [register], [clear_listeners] and [trigger] do to them

    The lemmas by which the invariants of SchedFacts.v survive [Event::wait] and
    [Event::trigger]. *)

From S2P Require Import Prelude Context Links Sched SchedFacts.

(** ** One listener linked or unlinked *)

Lemma links_wf_link k t th e ev i cap :
  links_wf k -> threads k !! t = Some th -> events k !! e = Some ev -> pending ev <= 0 ->
  (e, i) ∉ listeners th ->
  links_wf (put_event e (ev <| listener_list := listener_list ev ++ [(t, i)] |>
                            <| num_listeners ::= Z.add 1 |>)
    (put_thread t (th <| listeners := listeners th ++ [(e, i)] |>
                      <| listeners_capacity := cap |>) k)).
Proof.
  intros Hwf Hth Hev Hp Hni. pose proof (links_event _ Hwf _ _ Hev) as [Hnd Hnum].
  assert ((t, i) ∉ listener_list ev) as Hni'.
  { intros Hin. destruct (links_to _ Hwf _ _ _ _ Hev Hin) as (th' & ? & ?). naive_solver. }
  split; simpl.
  - intros e' ev'. rewrite lookup_insert. case_decide; [|by apply (links_event _ Hwf)].
    intros ?; simplify_eq/=. split; [by apply NoDup_snoc|]. rewrite length_app. simpl. lia.
  - intros e' ev' t' w. rewrite !lookup_insert. case_decide as He; intros Hev' Hin; simplify_eq/=.
    + apply elem_of_app in Hin as [Hin| Hin%list_elem_of_singleton]; simplify_eq.
      * destruct (links_to _ Hwf _ _ _ _ Hev Hin) as (th' & Hth' & ?).
        case_decide; [|eauto]; simplify_eq. eexists; split; [done|]. simpl. set_solver.
      * rewrite decide_True by done. eexists; split; [done|]. simpl. set_solver.
    + destruct (links_to _ Hwf _ _ _ _ Hev' Hin) as (th' & Hth' & ?).
      case_decide; [|eauto]; simplify_eq. eexists; split; [done|]. simpl. set_solver.
  - intros t' th' e' w. rewrite !lookup_insert.
    case_decide as Ht; intros Hth' Hin; simplify_eq/=.
    + apply elem_of_app in Hin as [Hin| Hin%list_elem_of_singleton]; simplify_eq.
      * destruct (links_from _ Hwf _ _ _ _ Hth Hin) as (ev' & Hev' & ?).
        case_decide; [|eauto]; simplify_eq. eexists; split; [done|]. simpl. set_solver.
      * rewrite decide_True by done. eexists; split; [done|]. simpl. set_solver.
    + destruct (links_from _ Hwf _ _ _ _ Hth' Hin) as (ev' & Hev' & ?).
      case_decide; [|eauto]; simplify_eq. eexists; split; [done|]. simpl. set_solver.
  - intros t' th'. rewrite lookup_insert. case_decide; [|by apply (links_nodup _ Hwf)].
    intros ?; simplify_eq/=. apply NoDup_snoc; [by apply (links_nodup _ Hwf _ _ Hth)|done].
  - intros e' ev'. rewrite lookup_insert. case_decide; [|by apply (links_pending _ Hwf)].
    intros ?; by simplify_eq/=.
Qed.

Lemma links_wf_unlink k t th e ev w ls :
  threads k !! t = Some th ->
  links_wf (put_thread t (th <| listeners := (e, w) :: ls |>) k) -> events k !! e = Some ev ->
  (t, w) ∈ listener_list ev /\
  links_wf (put_thread t (th <| listeners := ls |>)
    (put_event e (ev <| listener_list := filter (fun y => y <> (t, w)) (listener_list ev) |>
                     <| num_listeners ::= fun n => n - 1 |>) k)).
Proof.
  intros Hth Hwf Hev. pose proof (links_event _ Hwf _ _ Hev) as [Hnd Hnum].
  pose proof (links_nodup _ Hwf t _ ltac:(apply lookup_insert_eq)) as Hl. simpl in Hl.
  apply NoDup_cons in Hl as [Hni Hl].
  assert ((t, w) ∈ listener_list ev) as Hin.
  { destruct (links_from _ Hwf t _ e w ltac:(apply lookup_insert_eq)) as (ev' & Hev' & ?);
      [simpl; left|]. simpl in Hev'. by simplify_eq. }
  split; [done|].
  pose proof (length_filter_ne _ _ Hnd Hin) as Hlen.
  split; simpl.
  - intros e' ev'. rewrite lookup_insert. case_decide; [|by apply (links_event _ Hwf)].
    intros ?; simplify_eq/=. split; [by apply NoDup_filter|]. lia.
  - intros e' ev' t' w'. rewrite !lookup_insert. case_decide as He; intros Hev' Hin'; simplify_eq/=.
    + apply list_elem_of_filter in Hin' as [Hne Hin'].
      destruct (links_to _ Hwf _ _ _ _ Hev Hin') as (th' & Hth' & Hw). simpl in Hth'.
      rewrite lookup_insert in Hth'. case_decide; simplify_eq/=; [|eauto].
      eexists; split; [done|]. simpl. set_solver.
    + destruct (links_to _ Hwf _ _ _ _ Hev' Hin') as (th' & Hth' & Hw). simpl in Hth'.
      rewrite lookup_insert in Hth'. case_decide; simplify_eq/=; [|eauto].
      eexists; split; [done|]. simpl. set_solver.
  - intros t' th' e' w'. rewrite !lookup_insert.
    case_decide as Ht; intros Hth' Hin'; simplify_eq/=.
    + destruct (links_from _ Hwf t' _ e' w' ltac:(apply lookup_insert_eq)) as (ev' & Hev' & ?);
        [simpl; by right|]. simpl in Hev'.
      case_decide; simplify_eq; [|eauto]. eexists; split; [done|]. simpl.
      apply list_elem_of_filter. split; [|done]. by intros [= <-].
    + destruct (links_from _ Hwf t' th' e' w') as (ev' & Hev' & ?);
        [simpl; by rewrite lookup_insert_ne|done|]. simpl in Hev'.
      case_decide; simplify_eq; [|eauto]. eexists; split; [done|]. simpl.
      apply list_elem_of_filter. split; [|done]. by intros [= -> ->].
  - intros t' th'. rewrite lookup_insert. case_decide; intros ?; simplify_eq/=; [done|].
    apply (links_nodup _ Hwf t'). simpl. by rewrite lookup_insert_ne.
  - intros e' ev'. rewrite lookup_insert. case_decide; [|by apply (links_pending _ Hwf)].
    intros ?; simplify_eq/=. intros _. apply (links_pending _ Hwf _ _ Hev).
    intros Hn. rewrite Hn in Hin. by apply elem_of_nil in Hin.
Qed.

Lemma links_wf_pending k e ev p :
  links_wf k -> events k !! e = Some ev -> (listener_list ev = [] \/ p <= 0) ->
  links_wf (put_event e (ev <| pending := p |>) k).
Proof.
  intros Hwf Hev Hp. split; simpl.
  - intros e' ev'. rewrite lookup_insert. case_decide; intros; simplify_eq/=;
      by eapply (links_event _ Hwf).
  - intros e' ev' t w. rewrite lookup_insert. case_decide; intros; simplify_eq/=;
      by eapply (links_to _ Hwf).
  - intros t th e' w Hth Hin. destruct (links_from _ Hwf _ _ _ _ Hth Hin) as (ev' & Hev' & ?).
    rewrite lookup_insert. case_decide; simplify_eq; eauto.
  - apply (links_nodup _ Hwf).
  - intros e' ev'. rewrite lookup_insert. case_decide; intros; simplify_eq/=; [tauto|].
    by eapply (links_pending _ Hwf).
Qed.

(** ** register *)

(** The listeners [register] adds, in order. *)
Fixpoint entries (i : Z) (evs : list (option Z)) : list (Z * Z) :=
  match evs with
  | [] => []
  | None :: evs => entries (i + 1) evs
  | Some e :: evs => (e, i) :: entries (i + 1) evs
  end.

Lemma entries_spec i evs e w :
  (e, w) ∈ entries i evs <-> i <= w /\ evs !! Z.to_nat (w - i) = Some (Some e).
Proof.
  revert i. induction evs as [|o evs IH]; intros i; simpl.
  { split; [by intros ?%elem_of_nil|]. intros [_ ?]. done. }
  assert ((e, w) ∈ entries (i + 1) evs <->
    i + 1 <= w /\ (o :: evs) !! Z.to_nat (w - i) = Some (Some e)) as H.
  { rewrite IH. split; intros [? H]; split; try done;
      replace (Z.to_nat (w - i)) with (S (Z.to_nat (w - (i + 1)))) in * by lia; done. }
  destruct o as [e'|]; [rewrite elem_of_cons|]; rewrite H; clear IH H.
  - split.
    + intros [[= -> ->]|[? ?]]; [|split; [lia|done]]. by rewrite Z.sub_diag.
    + intros [? Hl]. destruct (decide (w = i)) as [->|]; [|right; split; [lia|done]].
      rewrite Z.sub_diag in Hl. simpl in Hl. left. congruence.
  - split; intros [? Hl]; split; try done; try lia.
    destruct (decide (w = i)) as [->|]; [|lia]. by rewrite Z.sub_diag in Hl.
Qed.

Lemma length_entries i evs : (length (entries i evs) <= length evs)%nat.
Proof.
  revert i. induction evs as [|[] evs IH]; intros i; simpl; [done| |];
    specialize (IH (i + 1)); lia.
Qed.

(** The vector of listeners does not move while events are added. *)
Definition room (th : Thread) (n : nat) : Prop :=
  n = 0%nat \/ Z.of_nat (length (listeners th) + n) <= listeners_capacity th \/
  (listeners th = [] /\ n = 1%nat).

Lemma register_spec evs k t th i :
  links_wf k -> queue_wf k -> threads k !! t = Some th ->
  (forall e, Some e ∈ evs -> exists ev, events k !! e = Some ev /\ pending ev <= 0) ->
  (forall e w, (e, w) ∈ listeners th -> w < i) ->
  room th (length (entries i evs)) ->
  exists k' cap, register k t i evs = Ret k' /\ links_wf k' /\ queue_wf k' /\
    sched_list k' = sched_list k /\ idle_thread k' = idle_thread k /\
    processes k' = processes k /\
    threads k' = <[t := th <| listeners := listeners th ++ entries i evs |>
                            <| listeners_capacity := cap |>]> (threads k).
Proof.
  revert k th i. induction evs as [|o evs IH]; intros k th i Hwf Hq Hth Hevs Hw Hroom.
  { exists k, (listeners_capacity th). simpl. rewrite app_nil_r. split_and!; [done..|].
    rewrite insert_id; [done|]. rewrite Hth. by destruct th. }
  destruct o as [e|]; cbn [register entries] in *.
  2:{ apply IH; try done; [set_solver|]. intros ? ? ?. etrans; [by eapply Hw|lia]. }
  destruct (Hevs e) as (ev & Hev & Hp); [left|]. rewrite Hth, Hev. cbn [obind deref].
  assert (exists cap, listeners_reserve (Z.of_nat (length (listeners th)))
            (listeners_capacity th) = Ret cap /\
          room (th <| listeners := listeners th ++ [(e, i)] |> <| listeners_capacity := cap |>)
            (length (entries (i + 1) evs))) as (cap & -> & Hroom').
  { unfold listeners_reserve, room in *. simpl in Hroom |- *. rewrite length_app. simpl.
    destruct Hroom as [?|[Hr|[Hr ?]]]; [done|..].
    - rewrite (proj2 (Z.leb_le _ _)) by lia. eexists; split; [done|]. right; left. lia.
    - rewrite Hr. simpl. case_if; (eexists; split; [done|]; left; lia). }
  cbn [obind]. assert ((e, i) ∉ listeners th) as Hni.
  { intros Hin. apply Hw in Hin. lia. }
  rewrite link_tail_Ret.
  2:{ intros Hin. destruct (links_to _ Hwf _ _ _ _ Hev Hin) as (th' & ? & ?). naive_solver. }
  cbn [obind].
  match goal with |- context [register ?k1 t (i + 1) evs] =>
    destruct (IH k1 (th <| listeners := listeners th ++ [(e, i)] |>
                        <| listeners_capacity := cap |>) (i + 1))
      as (k' & cap' & Hr & ? & ? & Hs & Hi & Hpr & Ht) end.
  - by eapply links_wf_link.
  - apply (queue_wf_put_event). eapply queue_wf_put_thread; done.
  - apply lookup_insert_eq.
  - intros e' Hin. simpl. destruct (Hevs e') as (ev' & ? & ?); [by right|].
    rewrite lookup_insert. case_decide; simplify_eq; eauto.
  - simpl. intros e' w Hin. apply elem_of_app in Hin as [Hin|Hin%list_elem_of_singleton].
    + apply Hw in Hin. lia.
    + simplify_eq. lia.
  - done.
  - exists k', cap'. split_and!; try done. rewrite Ht. simpl. rewrite insert_insert_eq.
    rewrite <- app_assoc. done.
Qed.

(** ** clear_listeners *)

Lemma unlink_listeners_spec ls k t th :
  threads k !! t = Some th ->
  links_wf (put_thread t (th <| listeners := ls |>) k) -> queue_wf k ->
  exists k', unlink_listeners k t ls = Ret k' /\
    links_wf (put_thread t (th <| listeners := [] |>) k') /\ queue_wf k' /\
    threads k' = threads k /\ sched_list k' = sched_list k /\
    processes k' = processes k /\ idle_thread k' = idle_thread k.
Proof.
  revert k. induction ls as [|[e w] ls IH]; intros k Hth Hwf Hq; [by exists k|].
  cbn [unlink_listeners].
  destruct (links_from _ Hwf t _ e w ltac:(apply lookup_insert_eq)) as (ev & Hev & _); [left|].
  change (events k !! e = Some ev) in Hev. rewrite Hev. cbn [obind deref].
  destruct (links_wf_unlink k t th e ev w ls Hth Hwf Hev) as [Hin Hwf'].
  rewrite unlink_Ret by done. cbn [obind].
  match type of Hwf' with links_wf (put_thread _ _ ?k1) =>
    destruct (IH k1 Hth Hwf' (queue_wf_put_event _ _ _ Hq)) as (k' & Hr & Hs) end.
  exists k'. by rewrite Hr.
Qed.

Lemma clear_listeners_spec k t th :
  sched_wf k -> threads k !! t = Some th ->
  exists k', clear_listeners k t = Ret k' /\ sched_wf k' /\
    threads k' = <[t := th <| listeners := [] |>]> (threads k) /\
    sched_list k' = sched_list k /\ processes k' = processes k /\
    idle_thread k' = idle_thread k.
Proof.
  intros [Hq Hl] Hth. unfold clear_listeners. rewrite Hth. cbn [obind deref].
  destruct (unlink_listeners_spec (listeners th) k t th) as (k' & -> & ? & ? & Ht & Hs);
    [done|..|done|].
  { unfold put_thread. simpl. rewrite insert_id; [by destruct k|]. rewrite Hth. by destruct th. }
  eexists. split; [done|]. split; [split|].
  - eapply queue_wf_put_thread; [done| |]; [by rewrite Ht|done].
  - done.
  - simpl. by rewrite Ht.
Qed.

(** ** trigger *)

Lemma trigger_spec k e ev d max :
  sched_wf k -> events k !! e = Some ev ->
  exists k' n, trigger k e d max = Ret (k', n) /\ sched_wf k' /\
    processes k' = processes k /\ idle_thread k' = idle_thread k /\
    n = Z.of_nat (length (take (Z.to_nat (Z.max 1 max)) (listener_list ev))) /\
    forall t, threads k' !! t =
      (fun th => woken th (last_which t (take (Z.to_nat (Z.max 1 max)) (listener_list ev))))
        <$> threads k !! t.
Proof.
  intros [Hq Hl] Hev. unfold trigger. rewrite Hev. cbn [obind deref].
  destruct (links_event _ Hl _ _ Hev) as [_ ->].
  destruct (listener_list ev) as [|x l] eqn:El.
  - simpl. eexists _, 0. split; [done|].
    assert (forall p, links_wf (put_event e (ev <| pending := p |>) k)) as Hp.
    { intros p. apply links_wf_pending; auto. }
    rewrite take_nil. destruct d; (split; [|split_and!; try done]);
      try by (intros t; unfold last_which; simpl; destruct (threads k !! t)).
    + done.
    + split; [by apply queue_wf_put_event|apply Hp].
  - rewrite (proj2 (Z.eqb_neq _ _)) by (simpl; lia). rewrite <- El.
    destruct (wake_listeners_spec (listener_list ev) k max 0 Hq) as (k' & -> & ? & Hs & ? & ? & Ht).
    { intros t w Hin. destruct (links_to _ Hl _ _ _ _ Hev Hin) as (th & -> & _). done. }
    rewrite Z.sub_0_r, Z.add_0_l in *.
    eexists _, _. split; [done|]. split_and!; try done. split; [done|by eapply links_wf_same].
Qed.

Lemma trigger_all_spec k e ev :
  sched_wf k -> events k !! e = Some ev ->
  exists k', trigger_all k e = Ret k' /\ sched_wf k' /\
    processes k' = processes k /\ idle_thread k' = idle_thread k /\
    forall t, exists w, threads k' !! t = (fun th => woken th w) <$> threads k !! t.
Proof.
  intros Hwf Hev. unfold trigger_all.
  destruct (trigger_spec k e ev false INT_MAX Hwf Hev) as (k' & n & -> & ? & ? & ? & _ & Ht).
  exists k'. split_and!; [done..|]. eauto.
Qed.

(** ** The operations keep the invariants *)

Lemma register_room evs k t th i k' :
  register k t i evs = Ret k' -> threads k !! t = Some th -> room th (length (entries i evs)).
Proof.
  revert k th i. induction evs as [|[e|] evs IH]; intros k th i; cbn [register entries].
  - intros _ _. by left.
  - intros H Hth. rewrite Hth in H. cbn [obind deref] in H. inv_ret.
    eapply IH in H; [|apply lookup_insert_eq]. unfold room, listeners_reserve in *. simpl in H |- *.
    rewrite length_app in H. simpl in H. right.
    destruct (Z.leb_spec (Z.of_nat (length (listeners th)) + 1) (listeners_capacity th)).
    { simplify_eq. left. destruct H as [?|[?|[Hn _]]]; [lia|lia|by destruct (listeners th)]. }
    destruct (Z.eqb_spec (Z.of_nat (length (listeners th))) 0) as [En|]; [|done]. simplify_eq.
    destruct (listeners th); [|simpl in En; lia]. right. split; [done|]. simpl in H.
    destruct H as [->|[?|[? _]]]; [done|lia|done].
  - apply IH.
Qed.

Lemma find_pending_None evs k i :
  find_pending k i evs = Ret None ->
  forall e, Some e ∈ evs -> exists ev, events k !! e = Some ev /\ pending ev <= 0.
Proof.
  revert i. induction evs as [|[e|] evs IH]; intros i H e' Hin; cbn [find_pending] in H.
  - by apply elem_of_nil in Hin.
  - inv_ret. destruct (Z.gtb_spec (pending a) 0); [done|].
    apply elem_of_cons in Hin as [[= ->]|Hin]; eauto.
  - apply elem_of_cons in Hin as [|Hin]; [done|]. eauto.
Qed.

Lemma find_pending_Some evs k i e j :
  find_pending k i evs = Ret (Some (e, j)) ->
  i <= j /\ evs !! Z.to_nat (j - i) = Some (Some e) /\
  exists ev, events k !! e = Some ev /\ 0 < pending ev.
Proof.
  revert i. induction evs as [|[e'|] evs IH]; intros i H; cbn [find_pending] in H; [done| |].
  - inv_ret. destruct (Z.gtb_spec (pending a) 0).
    + simplify_eq. rewrite Z.sub_diag. eauto with lia.
    + apply IH in H as (? & H & ?). split_and!; [lia| |done].
      by replace (Z.to_nat (j - i)) with (S (Z.to_nat (j - (i + 1)))) by lia.
  - apply IH in H as (? & H & ?). split_and!; [lia| |done].
    by replace (Z.to_nat (j - i)) with (S (Z.to_nat (j - (i + 1)))) by lia.
Qed.

Lemma queue_wf_unqueue k t th st :
  queue_wf k -> threads k !! t = Some th -> st = BLOCKED \/ st = STOPPED ->
  queue_wf (put_thread t (th <| state := st |>)
    (k <| sched_list := filter (fun y => y <> t) (sched_list k) |>)).
Proof.
  intros Hq Hth Hst. split; simpl.
  - apply NoDup_filter, (queue_nodup _ Hq).
  - intros t' [Hne Hin]%list_elem_of_filter. rewrite lookup_insert_ne by done.
    by apply (queue_awake _ Hq).
  - intros t' th' Hth' Hr Hi. rewrite lookup_insert in Hth'. case_decide; simplify_eq.
    { destruct Hr as [Hr|Hr]; simpl in Hr; destruct Hst; congruence. }
    apply list_elem_of_filter. split; [done|]. by eapply (queue_complete _ Hq).
Qed.

Lemma sched_wf_enqueue k t s k' :
  sched_wf k -> enqueue_thread k t s = Ret k' -> sched_wf k'.
Proof.
  intros [Hq Hl] He. destruct (threads k !! t) as [th|] eqn:Hth.
  2:{ unfold enqueue_thread in He. by rewrite Hth in He. }
  assert (~ double_link k t th s) as Hnd.
  { intros (Hs & -> & Hin). unfold enqueue_thread in He. rewrite Hth in He. simpl in He.
    rewrite Hs in He. unfold link_tail in He. simpl in He. by rewrite decide_True in He. }
  rewrite (enqueue_thread_eq _ _ _ _ Hq Hth Hnd) in He. injection He as <-. split.
  - by apply queue_wf_enqueue.
  - eapply links_wf_same; [by apply enqueue_same_links|done].
Qed.

Lemma sched_wf_put_thread k t th th' :
  sched_wf k -> threads k !! t = Some th -> state th' = state th ->
  listeners th' = listeners th -> sched_wf (put_thread t th' k).
Proof.
  intros [Hq Hl] Hth Hs Hls. split; [by eapply queue_wf_put_thread|].
  eapply links_wf_same; [by eapply put_thread_same_links|done].
Qed.

Lemma sched_wf_put_process k p pr : sched_wf k -> sched_wf (put_process p pr k).
Proof. intros [[] []]. by split. Qed.

Lemma sched_wf_trigger k e d m k' n :
  sched_wf k -> trigger k e d m = Ret (k', n) -> sched_wf k'.
Proof.
  intros Hwf Ht. destruct (events k !! e) as [ev|] eqn:Hev.
  - destruct (trigger_spec k e ev d m Hwf Hev) as (k2 & n2 & H & ? & _). congruence.
  - unfold trigger in Ht. by rewrite Hev in Ht.
Qed.

Lemma sched_wf_trigger_all k e k' : sched_wf k -> trigger_all k e = Ret k' -> sched_wf k'.
Proof.
  unfold trigger_all. intros Hwf Ht. inv_ret. destruct a. inv_ret. by eapply sched_wf_trigger.
Qed.

Lemma sched_wf_send_signal k t s k' : sched_wf k -> send_signal k t s = Ret k' -> sched_wf k'.
Proof.
  unfold send_signal. intros Hwf Hs. inv_ret. eapply sched_wf_trigger_all; [|done].
  eapply sched_wf_enqueue; [|done]. by eapply sched_wf_put_thread.
Qed.

Lemma sched_wf_process_send_signal k p s k' :
  sched_wf k -> process_send_signal k p s = Ret k' -> sched_wf k'.
Proof. unfold process_send_signal. intros Hwf Hs. inv_ret. by eapply sched_wf_send_signal. Qed.

Lemma sched_wf_unqueue k t th st :
  sched_wf k -> threads k !! t = Some th -> st = BLOCKED \/ st = STOPPED ->
  sched_wf (put_thread t (th <| state := st |>)
    (k <| sched_list := filter (fun y => y <> t) (sched_list k) |>)).
Proof.
  intros [Hq Hl] Hth Hst. split; [by apply queue_wf_unqueue|].
  eapply links_wf_same; [|exact Hl]. split; [done|]. intros t'. simpl.
  rewrite lookup_insert. case_decide; [|done]. subst. by rewrite Hth.
Qed.

Lemma dequeue_thread_blocked k t k' :
  dequeue_thread k t (-1) = Ret k' -> exists th, threads k !! t = Some th /\ runnable th /\
    t ∈ sched_list k /\
    k' = put_thread t (th <| state := BLOCKED |>)
           (k <| sched_list := filter (fun y => y <> t) (sched_list k) |>).
Proof.
  unfold dequeue_thread, unlink. intros H. inv_ret. case_decide; [|done]. inv_ret.
  cbn [negb Z.eqb Z.opp Pos.eqb] in H. inv_ret. eexists. split; [done|]. split; [|done].
  match goal with H : bool_decide _ = true |- _ => by apply bool_decide_eq_true in H end.
Qed.

Lemma sched_wf_dequeue k t s k' : sched_wf k -> dequeue_thread k t s = Ret k' -> sched_wf k'.
Proof.
  intros Hwf H. destruct (Z.eqb_spec s (-1)) as [->|Hs].
  { apply dequeue_thread_blocked in H as (th & Hth & _ & _ & ->). apply sched_wf_unqueue; auto. }
  unfold dequeue_thread, unlink in H. inv_ret. case_decide; [|done]. inv_ret.
  rewrite (proj2 (Z.eqb_neq _ _) Hs) in H. cbn [negb] in H. inv_ret.
  match goal with E : trigger_all _ _ = Ret ?k1 |- _ => assert (sched_wf k1) as Hwf' end.
  { eapply sched_wf_trigger_all; [|eassumption]. apply sched_wf_put_process.
    by apply sched_wf_unqueue; auto. }
  case_match; [by eapply sched_wf_process_send_signal|by inv_ret].
Qed.
