(* ===== verification/SchedProps.v ===== *)
(** * Correctness of Event::wait and Event::trigger

    What a call of [wait] leaves behind on each of its branches, that the
    invariants survive it, and that a thread that went to sleep is woken by the
    event it waits for. *)

From S2P Require Import Prelude Context Links Sched SchedFacts SchedLinks.

(** ** The halves of wait *)

Lemma wait_begin_sleep k t evs nb k' :
  sched_wf k -> wait_begin k t evs nb = Ret (inr k') ->
  sched_wf k' /\ exists th cap, threads k !! t = Some th /\
    threads k' = <[t := th <| listeners := entries 0 evs |> <| listeners_capacity := cap |>
                           <| state := BLOCKED |>]> (threads k) /\
    sched_list k' = filter (fun y => y <> t) (sched_list k) /\
    processes k' = processes k /\ idle_thread k' = idle_thread k.
Proof.
  intros [Hq Hl]. unfold wait_begin. destruct (threads k !! t) as [th|] eqn:Hth; [|done].
  cbn [obind deref]. case_match; [done|]. intros H'. inv_ret. destruct a as [[e i]|]; [by inv_ret|].
  destruct nb; [done|]. inv_ret.
  match goal with H : bool_decide _ = true |- _ => apply bool_decide_eq_true in H as Hnil end.
  match goal with H : find_pending _ _ _ = _ |- _ =>
    pose proof (find_pending_None _ _ _ H) as Hevs end.
  match goal with H : register _ _ _ _ = Ret _ |- _ => rename H into Hr end.
  pose proof (register_room _ _ _ _ _ _ Hr Hth) as Hroom.
  destruct (register_spec evs k t th 0 Hl Hq Hth Hevs) as (k2 & cap & Hr2 & Hl2 & Hq2 & Hs & Hi & Hp & Ht);
    [|done|].
  { rewrite Hnil. by intros ? ? ?%elem_of_nil. }
  rewrite Hr2 in Hr. simplify_eq.
  match goal with H : dequeue_thread _ _ _ = Ret _ |- _ => rename H into Hd end.
  split; [by eapply sched_wf_dequeue|].
  apply dequeue_thread_blocked in Hd as (th2 & Hth2 & _ & _ & ->).
  rewrite Ht, lookup_insert_eq in Hth2. simplify_eq. exists th, cap. split; [done|].
  simpl. by rewrite Ht, insert_insert_eq, Hs, Hnil.
Qed.

Lemma wait_begin_return k t evs nb r k' :
  sched_wf k -> wait_begin k t evs nb = Ret (inl (r, k')) ->
  sched_wf k' /\ threads k' = threads k.
Proof.
  intros Hwf. unfold wait_begin. destruct (threads k !! t) as [th|] eqn:Hth; [|done].
  cbn [obind deref]. case_match; [intros; by simplify_eq|]. intros H'. inv_ret.
  destruct a as [[e i]|].
  - match goal with H : find_pending _ _ _ = _ |- _ =>
      apply find_pending_Some in H as (_ & _ & ev & Hev & Hp) end.
    rewrite Hev in H'. injection H' as <- <-. split; [|done].
    split; [apply queue_wf_put_event, Hwf|]. apply links_wf_pending; [apply Hwf|done|].
    destruct (listener_list ev) eqn:El; [by left|right].
    assert (pending ev <= 0); [|lia]. apply (links_pending _ (proj2 Hwf) _ _ Hev). by rewrite El.
  - destruct nb; [by inv_ret|]. inv_ret. done.
Qed.

Lemma wait_end_spec k t th :
  sched_wf k -> threads k !! t = Some th ->
  exists k', wait_end k t =
      Ret (if negb (enqueued_by_signal th =? -1) then - EINTR else which_event th, k') /\
    sched_wf k' /\ threads k' = <[t := th <| listeners := [] |>]> (threads k) /\
    sched_list k' = sched_list k.
Proof.
  intros Hwf Hth. unfold wait_end.
  destruct (clear_listeners_spec k t th Hwf Hth) as (k' & -> & ? & Ht & ? & _ & _). cbn [obind].
  rewrite Ht, lookup_insert_eq. cbn [obind deref]. by exists k'.
Qed.

Lemma find_pending_first evs k i e j :
  find_pending k i evs = Ret (Some (e, j)) ->
  forall j' e' ev', i <= j' < j -> evs !! Z.to_nat (j' - i) = Some (Some e') ->
    events k !! e' = Some ev' -> pending ev' <= 0.
Proof.
  revert i. induction evs as [|o evs IH]; intros i H j' e' ev' Hj Hl Hev; [done|].
  destruct (decide (j' = i)) as [->|].
  - rewrite Z.sub_diag in Hl. simpl in Hl. simplify_eq. cbn [find_pending] in H.
    rewrite Hev in H. cbn [obind deref] in H. destruct (Z.gtb_spec (pending ev') 0); [|done].
    simplify_eq. lia.
  - assert (find_pending k (i + 1) evs = Ret (Some (e, j))) as H'.
    { destruct o as [e0|]; cbn [find_pending] in H; [|done]. inv_ret. case_match; [|done].
      simplify_eq. lia. }
    eapply (IH (i + 1) H' j'); [lia| |done].
    by replace (Z.to_nat (j' - i)) with (S (Z.to_nat (j' - (i + 1)))) in Hl by lia.
Qed.

Lemma find_pending_total evs k i :
  (forall e, Some e ∈ evs -> is_Some (events k !! e)) -> exists r, find_pending k i evs = Ret r.
Proof.
  revert i. induction evs as [|[e|] evs IH]; intros i H; cbn [find_pending]; [eauto| |].
  - destruct (H e) as [ev ->]; [left|]. cbn [obind deref]. case_match; [eauto|].
    apply IH. intros; apply H. by right.
  - apply IH. intros; apply H. by right.
Qed.

Lemma wait_begin_total k t th evs nb :
  sched_wf k -> threads k !! t = Some th -> runnable th -> t <> idle_thread k ->
  listeners th = [] -> (forall e, Some e ∈ evs -> is_Some (events k !! e)) ->
  room th (length (entries 0 evs)) -> exists r, wait_begin k t evs nb = Ret r.
Proof.
  intros [Hq Hl] Hth Hrun Hi Hnil Hevs Hroom. unfold wait_begin. rewrite Hth. cbn [obind deref].
  case_match; [eauto|]. destruct (find_pending_total evs k 0 Hevs) as [r Hr]. rewrite Hr.
  cbn [obind]. destruct r as [[e i]|].
  { apply find_pending_Some in Hr as (_ & _ & ev & -> & _). cbn [obind deref]. eauto. }
  destruct nb; [eauto|]. rewrite bool_decide_true by done. cbn [assert obind].
  destruct (register_spec evs k t th 0 Hl Hq Hth (find_pending_None _ _ _ Hr))
    as (k2 & cap & -> & _ & _ & Hs & Hid & _ & Ht); [|done|].
  { rewrite Hnil. by intros ? ? ?%elem_of_nil. }
  cbn [obind]. unfold dequeue_thread. rewrite Ht, lookup_insert_eq. cbn [obind deref].
  rewrite bool_decide_true by done. cbn [assert obind]. rewrite unlink_Ret.
  - cbn [obind]. eauto.
  - rewrite Hs. by eapply (queue_complete _ Hq).
Qed.

Lemma last_which_elem t l : (exists w, (t, w) ∈ l) ->
  exists w, last_which t l = Some w /\ (t, w) ∈ l.
Proof.
  induction l as [|[u v] l IH]; [by intros [? ?%elem_of_nil]|]. intros [w Hw].
  rewrite last_which_cons. destruct (last_which t l) as [w'|] eqn:El.
  - destruct IH as (w2 & ? & ?); [|exists w'; split; [done|right; congruence]].
    apply last_Some_elem_of in El. apply list_elem_of_fmap in El as ([? ?] & -> & Hin).
    apply list_elem_of_filter in Hin as [Heq Hin]. simpl in Heq. subst. eauto.
  - apply elem_of_cons in Hw as [[= -> ->]|Hw].
    + rewrite decide_True by done. exists v. split; [done|left].
    + destruct IH as (? & ? & ?); [eauto|done].
Qed.

Lemma trigger_wakes k e ev t th d max :
  sched_wf k -> events k !! e = Some ev -> threads k !! t = Some th -> state th = BLOCKED ->
  (exists w, (e, w) ∈ listeners th) -> num_listeners ev <= max ->
  exists k' n w, trigger k e d max = Ret (k', n) /\ sched_wf k' /\ idle_thread k' = idle_thread k /\
    (e, w) ∈ listeners th /\
    threads k' !! t = Some (th <| enqueued_by_signal := -1 |> <| state := READY |>
                               <| which_event := w |>).
Proof.
  intros Hwf Hev Hth Hb [w0 Hw] Hmax.
  destruct (trigger_spec k e ev d max Hwf Hev) as (k' & n & Ht & Hwf' & _ & Hi & _ & Hths).
  destruct (links_event _ (proj2 Hwf) _ _ Hev) as [_ Hn].
  destruct (links_from _ (proj2 Hwf) _ _ _ _ Hth Hw) as (ev' & Hev' & Hin).
  assert (ev' = ev) as -> by congruence. rewrite take_ge in Hths by lia.
  destruct (last_which_elem t (listener_list ev)) as (w & Hlw & Hw'); [eauto|].
  exists k', n, w. split_and!; try done.
  { destruct (links_to _ (proj2 Hwf) _ _ _ _ Hev Hw') as (th' & ? & ?). naive_solver. }
  rewrite Hths, Hth, Hlw. cbn [fmap option_fmap option_map]. unfold woken, enq_thread, enq_links.
  rewrite Hb. done.
Qed.

(** ** Theorems *)

(** C1. No lost wake-up for a single sleep: a thread whose [Event::wait] went to
    sleep on a list of events is runnable and back in the run queue after a
    [trigger] of any of them that wakes at least as many listeners as wait, and
    its [wait] then returns an index of that event, with none of its listeners
    left linked and the scheduler's invariants intact. *)
Theorem wait_trigger_wakes k t evs k1 e ev d max :
  sched_wf k -> t <> idle_thread k ->
  wait_begin k t evs false = Ret (inr k1) -> Some e ∈ evs ->
  events k1 !! e = Some ev -> num_listeners ev <= max ->
  exists k2 n th2 i k3,
    trigger k1 e d max = Ret (k2, n) /\ threads k2 !! t = Some th2 /\ state th2 = READY /\
    t ∈ sched_list k2 /\ wait_end k2 t = Ret (i, k3) /\ evs !! Z.to_nat i = Some (Some e) /\
    threads k3 !! t = Some (th2 <| listeners := [] |>) /\ sched_wf k3.
Proof.
  intros Hwf Hi Hb Hin Hev Hmax.
  destruct (wait_begin_sleep _ _ _ _ _ Hwf Hb) as (Hwf1 & th & cap & Hth & Ht1 & Hs1 & Hp1 & Hi1).
  assert (exists th1, threads k1 !! t = Some th1 /\ listeners th1 = entries 0 evs /\
    state th1 = BLOCKED) as (th1 & Hth1 & Hl1 & Hst1).
  { eexists. rewrite Ht1, lookup_insert_eq. done. }
  destruct (trigger_wakes k1 e ev t th1 d max Hwf1 Hev Hth1 Hst1)
    as (k2 & n & w & Htr & Hwf2 & Hi2 & Hw & Ht2); [|done|].
  { apply list_elem_of_lookup in Hin as [j Hj]. exists (Z.of_nat j). rewrite Hl1.
    apply entries_spec. split; [lia|]. by rewrite Z.sub_0_r, Nat2Z.id. }
  destruct (wait_end_spec k2 t _ Hwf2 Ht2) as (k3 & He & Hwf3 & Ht3 & _).
  exists k2, n. eexists _, w, k3. split_and!; try done.
  - eapply (queue_complete _ (proj1 Hwf2)); [done|by left|congruence].
  - rewrite Hl1 in Hw. apply entries_spec in Hw as [_ Hw]. by rewrite Z.sub_0_r in Hw.
  - rewrite Ht3. apply lookup_insert_eq.
Qed.

(** ** Concrete states *)

(** A thread with no listener, room for [cap] of them, and the given events. *)
Definition sample_thread (t p cap sig sigret : Z) (st : State) : Thread :=
  Thread_init t p 0 sig sigret <| listeners_capacity := cap |> <| state := st |>.
Definition sample_process (p parent0 : Z) (ts : list Z) (e : Z) : Process :=
  Process_init p e (e + 1) (e + 2) <| thread_list := ts |> <| parent := parent0 |>
    <| num_living_threads := Z.of_nat (length ts) |> <| group := Some 1 |>.
(** Thread 0 idles; threads 1 and 2 run; event 100 is the one they use. *)
Definition sample : kernel :=
  {| threads := {[0 := sample_thread 0 0 1 10 11 READY; 1 := sample_thread 1 1 4 12 13 RUNNING;
                  2 := sample_thread 2 2 4 14 15 READY]};
     events := list_to_map ((fun e => (e, Event_init)) <$>
       [10; 11; 12; 13; 14; 15; 20; 21; 22; 23; 24; 25; 100; 101]);
     processes := {[1 := sample_process 1 1 [1] 20 <| children_list := [2] |>;
                    2 := sample_process 2 1 [2] 23]};
     groups := {[1 := mkGroup 1 1 [1; 2]]}; sessions := {[1 := mkSession 1 [1]]};
     descriptions := ∅; sched_list := [1; 2]; thread_table := [None; Some 1; Some 2];
     num_threads := 2; first_free_tid := 3; init_process := 1; idle_thread := 0;
     frames := ∅; closed := []; futex_table := ∅; page_table := ∅; memory := ∅;
     next_obj := 1000 |}.

Lemma sample_wf : sched_wf sample.
Proof. split; [apply queue_wf_check|apply links_wf_fresh]; vm_compute; reflexivity. Qed.

Definition sleeping (k : kernel) (t : Z) (evs : list (option Z)) : kernel :=
  match wait_begin k t evs false with Ret (inr k') => k' | _ => k end.

Lemma wait_trigger_wakes_witness :
  wait_begin sample 1 [Some 101; None; Some 100] false =
    Ret (inr (sleeping sample 1 [Some 101; None; Some 100])) /\
  exists k2 n th2 i k3,
    trigger (sleeping sample 1 [Some 101; None; Some 100]) 100 false 1 = Ret (k2, n) /\
    threads k2 !! 1 = Some th2 /\ state th2 = READY /\ 1 ∈ sched_list k2 /\
    wait_end k2 1 = Ret (i, k3) /\ [Some 101; None; Some 100] !! Z.to_nat i = Some (Some 100) /\
    threads k3 !! 1 = Some (th2 <| listeners := [] |>) /\ sched_wf k3.
Proof.
  split; [vm_compute; reflexivity|].
  apply (wait_trigger_wakes sample 1 _ _ _ (mkEvent 0 1 [(1, 2)])).
  - apply sample_wf.
  - vm_compute. discriminate.
  - vm_compute. reflexivity.
  - right; right; left.
  - vm_compute. reflexivity.
  - vm_compute. discriminate.
Defined.

(** [Event::wait] is total on a well-formed scheduler state with room for its
    listeners, and its result is one of: -EINTR if a deliverable signal is pending
    (nothing changed); the index of the first event with a positive count, which
    it decrements; -EWOULDBLOCK for a non-blocking call with no such event; or
    sleep, the thread [BLOCKED], out of the run queue, with one listener on each
    event it was given and no other thread touched. The invariants hold after. *)
Theorem wait_begin_cases k t th evs nb :
  sched_wf k -> threads k !! t = Some th -> runnable th -> t <> idle_thread k ->
  listeners th = [] -> (forall e, Some e ∈ evs -> is_Some (events k !! e)) ->
  room th (length (entries 0 evs)) ->
  match wait_begin k t evs nb with
  | Ret (inl (r, k')) => sched_wf k' /\ threads k' = threads k /\
      ((has_pending_signals th = true /\ r = - EINTR /\ k' = k) \/
       (has_pending_signals th = false /\ exists e ev,
          evs !! Z.to_nat r = Some (Some e) /\ events k !! e = Some ev /\ 0 < pending ev /\
          k' = put_event e (ev <| pending := pending ev - 1 |>) k /\
          forall j e' ev', 0 <= j < r -> evs !! Z.to_nat j = Some (Some e') ->
            events k !! e' = Some ev' -> pending ev' <= 0) \/
       (has_pending_signals th = false /\ nb = true /\ r = - EWOULDBLOCK /\ k' = k /\
        forall e ev, Some e ∈ evs -> events k !! e = Some ev -> pending ev <= 0))
  | Ret (inr k') => sched_wf k' /\ has_pending_signals th = false /\ nb = false /\
      (forall e ev, Some e ∈ evs -> events k !! e = Some ev -> pending ev <= 0) /\
      t ∉ sched_list k' /\
      exists th', threads k' = <[t := th']> (threads k) /\ state th' = BLOCKED /\
        listeners th' = entries 0 evs
  | _ => False
  end.
Proof.
  intros Hwf Hth Hrun Hidle Hnil Hevs Hroom.
  destruct (wait_begin k t evs nb) as [[[r k']|k']| |] eqn:Hw.
  1,2: pose proof Hw as Hw0; unfold wait_begin in Hw; rewrite Hth in Hw; cbn [obind deref] in Hw.
  1,2: destruct (has_pending_signals th) eqn:Hs; [simplify_eq|].
  - destruct (wait_begin_return _ _ _ _ _ _ Hwf Hw0). split_and!; auto.
  - inv_ret. destruct (wait_begin_return _ _ _ _ _ _ Hwf Hw0) as [? ?]. split; [done|split; [done|]].
    destruct a as [[e i]|].
    + match goal with H : find_pending _ _ _ = _ |- _ =>
        pose proof (find_pending_first _ _ _ _ _ H) as Hfirst;
        apply find_pending_Some in H as (? & Hi & ev & Hev & Hp) end.
      rewrite Hev in Hw. injection Hw as <- <-. right; left. split; [done|]. exists e, ev.
      rewrite Z.sub_0_r in Hi. split_and!; try done. intros j e' ev' Hj Hl.
      apply (Hfirst j); [done|]. by rewrite Z.sub_0_r.
    + destruct nb; [|inv_ret; done]. simplify_eq. right; right. split_and!; try done.
      intros e ev He Hev. match goal with H : find_pending _ _ _ = _ |- _ =>
        destruct (find_pending_None _ _ _ H e He) as (ev' & ? & ?) end. by simplify_eq.
  - destruct (wait_begin_sleep _ _ _ _ _ Hwf Hw0) as (? & th' & cap & Hth' & Ht & Hl & _).
    simplify_eq. inv_ret. destruct a as [[e i]|]; [by inv_ret|]. destruct nb; [done|].
    split_and!; try done.
    + intros e ev He Hev. match goal with H : find_pending _ _ _ = _ |- _ =>
        destruct (find_pending_None _ _ _ H e He) as (ev' & ? & ?) end. by simplify_eq.
    + rewrite Hl. by intros [? _]%list_elem_of_filter.
    + eexists. split; [exact Ht|]. done.
  - destruct (wait_begin_total k t th evs nb) as [r Hr]; [done..|congruence].
  - destruct (wait_begin_total k t th evs nb) as [r Hr]; [done..|congruence].
Qed.

Lemma wait_begin_cases_witness :
  let evs := [None; Some 100; Some 101] in
  wait_begin sample 1 evs false = Ret (inr (sleeping sample 1 evs)) /\
  (forall e ev, Some e ∈ evs -> events sample !! e = Some ev -> pending ev <= 0) /\
  1 ∉ sched_list (sleeping sample 1 evs).
Proof.
  intros evs.
  assert (wait_begin sample 1 evs false = Ret (inr (sleeping sample 1 evs))) as E
    by (vm_compute; reflexivity).
  assert (threads sample !! 1 = Some (sample_thread 1 1 4 12 13 RUNNING)) as Ht
    by (vm_compute; reflexivity).
  assert (1 <> idle_thread sample) as Hi by (vm_compute; discriminate).
  assert (forall e, Some e ∈ evs -> is_Some (events sample !! e)) as He.
  { intros e He. repeat (apply elem_of_cons in He as [He|He];
      [first [discriminate He | injection He as ->; eexists; vm_compute; reflexivity]|]).
    by apply elem_of_nil in He. }
  assert (room (sample_thread 1 1 4 12 13 RUNNING) (length (entries 0 evs))) as Hr
    by (right; left; vm_compute; discriminate).
  pose proof (wait_begin_cases sample 1 _ evs false sample_wf Ht (or_intror eq_refl) Hi eq_refl
    He Hr) as H.
  rewrite E in H. split; [exact E|]. destruct H as (_ & _ & _ & Hp & Hn & _).
  split; [exact Hp|exact Hn].
Defined.

(** A woken thread stays on the event's listener list until it runs again:
    when an event has listeners, a second [trigger] before any of them has run
    reports as many woken threads as the first, but wakes none of the others. So
    two [futex_wake]s of one thread each may wake a single waiter. *)
Theorem trigger_twice_wakes_same k e ev d d' max :
  sched_wf k -> events k !! e = Some ev -> listener_list ev <> [] ->
  exists k1 k2 n, trigger k e d max = Ret (k1, n) /\ trigger k1 e d' max = Ret (k2, n) /\
    0 < n /\ threads k2 = threads k1.
Proof.
  intros Hwf Hev Hne.
  destruct (trigger_spec k e ev d max Hwf Hev) as (k1 & n & Ht1 & Hwf1 & _ & _ & Hn & Hk1).
  assert (events k1 !! e = Some ev) as Hev1.
  { unfold trigger in Ht1. rewrite Hev in Ht1. cbn [obind deref] in Ht1.
    destruct (links_event _ (proj2 Hwf) _ _ Hev) as [_ Hnum]. rewrite Hnum in Ht1.
    destruct (listener_list ev) as [|x l] eqn:El; [done|].
    rewrite (proj2 (Z.eqb_neq _ _)) in Ht1 by (simpl; lia). rewrite <- El in Ht1.
    destruct (wake_listeners_spec (listener_list ev) k max 0 (proj1 Hwf))
      as (k' & Hw & _ & [He _] & _); [|rewrite Hw in Ht1; simplify_eq; by rewrite He].
    intros t w Hin. destruct (links_to _ (proj2 Hwf) _ _ _ _ Hev Hin) as (th & -> & _). done. }
  destruct (trigger_spec k1 e ev d' max Hwf1 Hev1) as (k2 & n2 & Ht2 & _ & _ & _ & Hn2 & Hk2).
  exists k1, k2, n. split_and!; [done|by rewrite Ht2, Hn, Hn2| |].
  - rewrite Hn, length_take. destruct (listener_list ev); [done|]. simpl. lia.
  - apply map_eq. intros t. rewrite Hk2, Hk1. destruct (threads k !! t); [|done].
    simpl. f_equal. apply woken_woken.
Qed.

(** Two threads sleep on event 100; waking one, twice, leaves thread 2 asleep. *)
Definition both_asleep : kernel := sleeping (sleeping sample 1 [Some 100]) 2 [Some 100].

Lemma both_asleep_wf : sched_wf both_asleep.
Proof.
  unfold both_asleep.
  destruct (wait_begin_sleep sample 1 [Some 100] false (sleeping sample 1 [Some 100]))
    as [Hwf _]; [apply sample_wf|vm_compute; reflexivity|].
  apply (wait_begin_sleep (sleeping sample 1 [Some 100]) 2 [Some 100] false);
    [done|vm_compute; reflexivity].
Qed.

Lemma trigger_twice_wakes_same_witness :
  exists k1 k2 n, trigger both_asleep 100 true 1 = Ret (k1, n) /\
    trigger k1 100 true 1 = Ret (k2, n) /\ 0 < n /\ threads k2 = threads k1 /\
    (state <$> threads k2 !! 1) = Some READY /\ (state <$> threads k2 !! 2) = Some BLOCKED.
Proof.
  destruct (trigger_twice_wakes_same both_asleep 100 (mkEvent 0 2 [(1, 0); (2, 0)]) true true 1)
    as (k1 & k2 & n & H1 & H2 & ? & Ht);
    [apply both_asleep_wf|vm_compute; reflexivity|discriminate|].
  exists k1, k2, n. split_and!; try assumption; rewrite Ht;
    assert (k1 = fst (ret_of (both_asleep, 0) (trigger both_asleep 100 true 1))) as ->
      by (rewrite H1; reflexivity); vm_compute; reflexivity.
Defined.

(** The vector of listeners grows by moving them: waiting on two events with no
    room left frees storage that the first event still links to. *)
Lemma wait_growth_dangles :
  wait_begin (put_thread 1 (sample_thread 1 1 0 12 13 RUNNING) sample) 1 [Some 100; Some 101] false
    = Undef.
Proof. vm_compute. reflexivity. Qed.
