(* ===== verification/FdTable.v ===== *)
(** * File descriptors: vfs::FileDescriptor, vfs::FileDescription and their calls

    fs/vfs.hpp 130-200, the close, dup, dup2, dup3, close_range and fcntl calls of
    fs/vfs.cpp, [Process::allocate_fdnum] and the descriptor loops of fork, exec
    and exit in sched/sched.cpp.

    [VNode::close] is a virtual call: it is recorded in [closed]. Growing the
    descriptor table moves it; a pointer into it taken before and used after
    is [Undef]. *)

From S2P Require Import Prelude Vector Links Sched.

(** ** Constants *)
Definition FD_CLOEXEC : Z := 1.
Definition O_ACCMODE : Z := 3.
Definition O_RDONLY : Z := 0.
Definition O_WRONLY : Z := 1.
Definition O_RDWR : Z := 2.
Definition O_APPEND : Z := 1024.
Definition O_NONBLOCK : Z := 2048.
(** O_APPEND | O_ASYNC | O_DIRECT | O_NOATIME | O_NONBLOCK *)
Definition setfl_mask : Z := 1024 .| 8192 .| 16384 .| 262144 .| 2048.
Definition CLOSE_RANGE_UNSHARE : Z := 2.
Definition CLOSE_RANGE_CLOEXEC : Z := 4.
Definition PIPE_CAPACITY : Z := 65536.

Inductive fcntl_cmd :=
| F_DUPFD | F_DUPFD_CLOEXEC | F_GETFD | F_SETFD | F_GETFL | F_SETFL
| F_SETLK | F_SETLKW | F_GETPIPE_SZ | F_unknown.

(** ** FileDescription *)

Definition can_read (d : FileDescription) : bool :=
  (Z.land (d_flags d) O_ACCMODE =? O_RDONLY) || (Z.land (d_flags d) O_ACCMODE =? O_RDWR).
Definition can_write (d : FileDescription) : bool :=
  (Z.land (d_flags d) O_ACCMODE =? O_WRONLY) || (Z.land (d_flags d) O_ACCMODE =? O_RDWR).

Definition put_description (d : Z) (fd : FileDescription) (k : kernel) : kernel :=
  k <| descriptions ::= <[d := fd]> |>.

Definition increment_ref_count (k : kernel) (d : Z) : outcome kernel :=
  let! fd := deref (descriptions k !! d) in
  Ret (put_description d (fd <| ref_count ::= Z.add 1 |>) k).

(** With the destructor, run by [delete this]. *)
Definition decrement_ref_count (k : kernel) (d : Z) : outcome kernel :=
  let! fd := deref (descriptions k !! d) in
  let n := ref_count fd - 1 in
  if n =? 0 then Ret (k <| descriptions ::= delete d |> <| closed ::= cons d |>)
  else Ret (put_description d (fd <| ref_count := n |>) k).

(** ** FileDescriptor *)

Definition no_fd : FileDescriptor := mkFd None 0.
Definition set_flags (f : FileDescriptor) (flags : Z) : FileDescriptor :=
  f <| fd_flags := Z.land flags FD_CLOEXEC |>.

(** [FileDescriptor::close], on slot [fd] of process [p]. *)
Definition fd_close (k : kernel) (p fd : Z) : outcome kernel :=
  let! pr := deref (processes k !! p) in
  let! f := deref (vget (file_descriptors pr) fd) in
  let! d := deref (description f) in
  let! k := decrement_ref_count k d in
  Ret (put_process p
    (pr <| file_descriptors ::= fun v => vset v fd no_fd |>
        <| num_file_descriptors ::= fun n => u64 (n - 1) |>
        <| first_free_fdnum ::= fun ff => if ff >? fd then fd else ff |>) k).

Definition duplicate (k : kernel) (f : FileDescriptor) (keep_flags : bool)
    : outcome (FileDescriptor * kernel) :=
  let! d := deref (description f) in
  let! k := increment_ref_count k d in
  Ret (if keep_flags then f else f <| fd_flags := 0 |>, k).

(** ** Process::allocate_fdnum *)

Fixpoint find_free (fds : list FileDescriptor) (i : Z) : option Z :=
  match fds with
  | [] => None
  | f :: fds => if decide (description f = None) then Some i else find_free fds (i + 1)
  end.

(** The scan from [begin]; a negative one is past the end of the table. *)
Definition search_free (v : Vector FileDescriptor) (begin : Z) : option Z :=
  if begin <? 0 then None else find_free (drop (Z.to_nat begin) (items v)) begin.

(** The number, the process after, and whether the table moved. *)
Definition allocate_fdnum (pr : Process) (min_fdnum : Z) : outcome (Z * Process * bool) :=
  let pr := pr <| num_file_descriptors ::= fun n => u64 (n + 1) |> in
  let v := file_descriptors pr in
  let below := min_fdnum <? first_free_fdnum pr in
  let begin := if below then first_free_fdnum pr else min_fdnum in
  match search_free v begin with
  | Some i => Ret (i, if below then pr <| first_free_fdnum := i32 (i + 1) |> else pr, false)
  | None =>
      let pr := if below then pr <| first_free_fdnum := i32 (vsize v) |> else pr in
      let! v' := push_back v no_fd in
      Ret (i32 (vsize v), pr <| file_descriptors := v' |>, moves v)
  end.

(** ** System calls, made by process [p] *)

(** [fd >= (int)process->file_descriptors.size() || fd < 0] *)
Definition bad_fd (pr : Process) (fd : Z) : bool :=
  (fd >=? i32 (vsize (file_descriptors pr))) || (fd <? 0).

Definition get_file_description (k : kernel) (p fd : Z) : outcome (option Z) :=
  let! pr := deref (processes k !! p) in
  if bad_fd pr fd then Ret None else
  let! f := deref (vget (file_descriptors pr) fd) in
  Ret (description f).

Definition syscall_close (k : kernel) (p fd : Z) : outcome (Z * kernel) :=
  let! pr := deref (processes k !! p) in
  if bad_fd pr fd then Ret (- EBADF, k) else
  let! f := deref (vget (file_descriptors pr) fd) in
  if decide (description f = None) then Ret (- EBADF, k) else
  let! k := fd_close k p fd in
  Ret (0, k).

(** The loop of [close_range] from [first], [n] descriptors. *)
Fixpoint close_range_loop (n : nat) (k : kernel) (p first : Z) (cloexec : bool) : outcome kernel :=
  match n with
  | O => Ret k
  | S n =>
      let! pr := deref (processes k !! p) in
      let! f := deref (vget (file_descriptors pr) first) in
      let! k :=
        match description f with
        | None => Ret k
        | Some _ =>
            if cloexec then
              Ret (put_process p
                (pr <| file_descriptors ::= fun v => vset v first (set_flags f FD_CLOEXEC) |>) k)
            else fd_close k p first
        end in
      close_range_loop n k p (first + 1) cloexec
  end.

Definition syscall_close_range (k : kernel) (p first last flags : Z) : outcome (Z * kernel) :=
  let! pr := deref (processes k !! p) in
  if negb (flags &~ (CLOSE_RANGE_CLOEXEC .| CLOSE_RANGE_UNSHARE) =? 0) then Ret (- EINVAL, k) else
  if first >? last then Ret (- EINVAL, k) else
  let last := u32 (Z.min last (u64 (vsize (file_descriptors pr) - 1))) in
  let! k := close_range_loop (Z.to_nat (last + 1 - first)) k p first (flags &? CLOSE_RANGE_CLOEXEC) in
  Ret (0, k).

Definition fcntl_impl (k : kernel) (p fd : Z) (cmd : fcntl_cmd) (arg : Z) : outcome (Z * kernel) :=
  let! pr := deref (processes k !! p) in
  if bad_fd pr fd then Ret (- EBADF, k) else
  let! f := deref (vget (file_descriptors pr) fd) in
  match description f with
  | None => Ret (- EBADF, k)
  | Some d =>
      let! desc := deref (descriptions k !! d) in
      match cmd with
      | F_DUPFD | F_DUPFD_CLOEXEC =>
          let! (newfd, pr, moved) := allocate_fdnum pr (i32 arg) in
          if moved : bool then Undef else (* [descriptor] points into the old table *)
          let! (g, k) := duplicate k f false in
          let g := match cmd with F_DUPFD_CLOEXEC => set_flags g FD_CLOEXEC | _ => g end in
          let! _ := deref (vget (file_descriptors pr) newfd) in
          Ret (newfd, put_process p (pr <| file_descriptors ::= fun v => vset v newfd g |>) k)
      | F_GETFD => Ret (fd_flags f, k)
      | F_SETFD =>
          Ret (0, put_process p
                    (pr <| file_descriptors ::= fun v => vset v fd (set_flags f arg) |>) k)
      | F_GETFL => Ret (i64 (d_flags desc), k)
      | F_SETFL =>
          Ret (0, put_description d
            (desc <| d_flags := (d_flags desc &~ setfl_mask) .| Z.land arg setfl_mask |>) k)
      | F_SETLK | F_SETLKW => Ret (0, k)
      | F_GETPIPE_SZ => Ret (PIPE_CAPACITY, k)
      | F_unknown => Ret (- EINVAL, k)
      end
  end.

(** [dup3_impl]'s loop that extends the table with empty descriptors; with
    whether the table moved. *)
Fixpoint extend_table (n : nat) (v : Vector FileDescriptor)
    : outcome (Vector FileDescriptor * bool) :=
  match n with
  | O => Ret (v, false)
  | S n =>
      let! v' := push_back v no_fd in
      let! (v'', moved) := extend_table n v' in
      Ret (v'', moves v || moved)
  end.

Definition dup3_impl (k : kernel) (p oldfd newfd flags : Z) : outcome (Z * kernel) :=
  let! pr := deref (processes k !! p) in
  if bad_fd pr oldfd then Ret (- EBADF, k) else
  if (newfd >? 1023) || (newfd <? 0) then Ret (- EBADF, k) else
  let! f := deref (vget (file_descriptors pr) oldfd) in
  if decide (description f = None) then Ret (- EBADF, k) else
  if negb (flags &~ FD_CLOEXEC =? 0) then Ret (- EINVAL, k) else
  if oldfd =? newfd then Ret (newfd, k) else
  let n := i32 (vsize (file_descriptors pr)) in
  let! (v, moved) := extend_table (Z.to_nat (newfd + 1 - n)) (file_descriptors pr) in
  let k := put_process p (pr <| file_descriptors := v |>) k in
  let! g := deref (vget v newfd) in
  let! k := if decide (description g = None) then Ret k else fd_close k p newfd in
  if moved : bool then Undef else (* [old_descriptor] points into the old table *)
  let! (h, k) := duplicate k f false in
  let! pr := deref (processes k !! p) in
  Ret (newfd, put_process p
    (pr <| file_descriptors ::= fun v => vset v newfd (set_flags h flags) |>) k).

Definition syscall_dup k p oldfd := fcntl_impl k p oldfd F_DUPFD 0.
Definition syscall_dup2 k p oldfd newfd := dup3_impl k p oldfd newfd 0.
Definition syscall_dup3 (k : kernel) (p oldfd newfd flags : Z) : outcome (Z * kernel) :=
  if oldfd =? newfd then Ret (- EINVAL, k) else dup3_impl k p oldfd newfd flags.

(** ** The descriptor loops of exit, exec and fork *)

(** [for (i = 0; i < file_descriptors.size(); i++)] over slots [i] to [i + n]:
    close those [pred] selects. *)
Fixpoint close_where (pred : FileDescriptor -> bool) (n : nat) (k : kernel) (p i : Z)
    : outcome kernel :=
  match n with
  | O => Ret k
  | S n =>
      let! pr := deref (processes k !! p) in
      let! f := deref (vget (file_descriptors pr) i) in
      let! k := if pred f then fd_close k p i else Ret k in
      close_where pred n k p (i + 1)
  end.

Definition close_all (k : kernel) (p : Z) : outcome kernel :=
  let! pr := deref (processes k !! p) in
  close_where (fun f => bool_decide (description f <> None)) (length (items (file_descriptors pr))) k p 0.

Definition close_on_exec (k : kernel) (p : Z) : outcome kernel :=
  let! pr := deref (processes k !! p) in
  close_where (fun f => fd_flags f &? FD_CLOEXEC) (length (items (file_descriptors pr))) k p 0.

(** [clone_impl]'s copy of the table into a new one. *)
Fixpoint copy_table (k : kernel) (fds : list FileDescriptor) (v : Vector FileDescriptor)
    : outcome (Vector FileDescriptor * kernel) :=
  match fds with
  | [] => Ret (v, k)
  | f :: fds =>
      let! (g, k) := if decide (description f = None) then Ret (no_fd, k) else duplicate k f true in
      let! v := push_back v g in
      copy_table k fds v
  end.

(** A new description installed in the slot [allocate_fdnum] gave, as the calls
    that create descriptors do. *)
Definition install (k : kernel) (p fd d flags : Z) (desc : FileDescription) : outcome kernel :=
  let! pr := deref (processes k !! p) in
  let! _ := deref (vget (file_descriptors pr) fd) in
  Ret (put_process p (pr <| file_descriptors ::= fun v => vset v fd (mkFd (Some d) flags) |>)
    (put_description d desc k)).
