(* ===== verification/FdFacts.v ===== *)
(** * Reference counts of open files

    [fd_wf]: the reference count of every description is the number of descriptors
    that refer to it, over all processes, and a description is gone exactly when
    none does. *)

From S2P Require Import Prelude Vector Links Sched FdTable.

(** ** Counting references *)

Definition count (d : Z) (fds : list FileDescriptor) : Z :=
  Z.of_nat (length (filter (fun f => description f = Some d) fds)).
Definition pcount (d : Z) (pr : Process) : Z := count d (items (file_descriptors pr)).
Definition refs (k : kernel) (d : Z) : Z :=
  map_fold (fun _ pr n => pcount d pr + n) 0 (processes k).

Definition fd_wf (k : kernel) : Prop := forall d,
  match descriptions k !! d with
  | Some desc => ref_count desc = refs k d /\ 0 < refs k d
  | None => refs k d = 0
  end.

Definition delta (d : Z) (f : FileDescriptor) : Z :=
  if decide (description f = Some d) then 1 else 0.

Lemma count_nonneg d fds : 0 <= count d fds.
Proof. unfold count. lia. Qed.

Lemma count_cons d f fds : count d (f :: fds) = delta d f + count d fds.
Proof.
  unfold count, delta. rewrite filter_cons. case_decide; simpl; lia.
Qed.

Lemma count_app d l1 l2 : count d (l1 ++ l2) = count d l1 + count d l2.
Proof. unfold count. rewrite filter_app, length_app. lia. Qed.

Lemma count_insert d fds i f g :
  fds !! i = Some f -> count d (<[i := g]> fds) = count d fds - delta d f + delta d g.
Proof.
  revert i. induction fds as [|h fds IH]; intros [|i] Hi; simplify_eq/=.
  - rewrite !count_cons. lia.
  - rewrite !count_cons, (IH i) by done. lia.
Qed.

Lemma refs_put_process k p pr pr' d :
  processes k !! p = Some pr -> refs (put_process p pr' k) d = refs k d - pcount d pr + pcount d pr'.
Proof.
  intros Hp. unfold refs, put_process. simpl. rewrite <- insert_delete_eq.
  rewrite map_fold_insert_L; [|lia|apply lookup_delete_eq].
  rewrite <- (insert_delete_id (processes k) p pr Hp) at 2.
  rewrite map_fold_insert_L; [|lia|apply lookup_delete_eq]. lia.
Qed.

Lemma refs_nonneg k d : 0 <= refs k d.
Proof.
  unfold refs. apply (map_fold_weak_ind (fun n _ => 0 <= n)); [lia|].
  intros p pr m n _ ?. pose proof (count_nonneg d (items (file_descriptors pr))).
  unfold pcount. lia.
Qed.

Lemma refs_ge k p pr d : processes k !! p = Some pr -> pcount d pr <= refs k d.
Proof.
  intros Hp. unfold refs. rewrite <- (insert_delete_id _ _ _ Hp).
  rewrite map_fold_insert_L; [|lia|apply lookup_delete_eq].
  enough (0 <= map_fold (fun _ pr n => pcount d pr + n) 0 (delete p (processes k))) by lia.
  apply (map_fold_weak_ind (fun n _ => 0 <= n)); [lia|].
  intros q pq m n _ ?. pose proof (count_nonneg d (items (file_descriptors pq))).
  unfold pcount. lia.
Qed.

Lemma refs_same k k' d : processes k' = processes k -> refs k' d = refs k d.
Proof. unfold refs. by intros ->. Qed.

(** A descriptor in use refers to a live description. *)
Lemma fd_live k p pr fd f d :
  fd_wf k -> processes k !! p = Some pr -> vget (file_descriptors pr) fd = Some f ->
  description f = Some d -> exists desc, descriptions k !! d = Some desc /\ ref_count desc = refs k d /\ 0 < refs k d.
Proof.
  intros Hwf Hp Hf Hd. assert (0 < refs k d).
  { eapply Z.lt_le_trans; [|by eapply refs_ge]. unfold pcount, count, vget in *.
    destruct (fd <? 0); [done|].
    assert (f ∈ filter (fun f => description f = Some d) (items (file_descriptors pr))) as Hin
      by (apply list_elem_of_filter; split; [done|by eapply list_elem_of_lookup_2]).
    destruct (filter _ _); [by apply elem_of_nil in Hin|simpl; lia]. }
  specialize (Hwf d). destruct (descriptions k !! d) as [desc|]; [|lia]. eauto.
Qed.

(** ** The primitive changes *)

(** The table of [p] becomes [v]; [n d] is how many references to [d] it gains. *)
Definition gains (pr pr' : Process) (d : Z) : Z := pcount d pr' - pcount d pr.

Lemma fd_wf_same_refs k p pr pr' :
  fd_wf k -> processes k !! p = Some pr -> (forall d, pcount d pr' = pcount d pr) ->
  fd_wf (put_process p pr' k).
Proof.
  intros Hwf Hp Hs d. rewrite (refs_put_process _ _ _ _ _ Hp), Hs.
  replace (refs k d - pcount d pr + pcount d pr) with (refs k d) by lia. apply (Hwf d).
Qed.

Lemma fd_wf_acquire k p pr pr' d0 desc :
  fd_wf k -> processes k !! p = Some pr -> descriptions k !! d0 = Some desc ->
  (forall d, pcount d pr' = pcount d pr + if decide (d = d0) then 1 else 0) ->
  fd_wf (put_process p pr' (put_description d0 (desc <| ref_count ::= Z.add 1 |>) k)).
Proof.
  intros Hwf Hp Hd Hg d. rewrite (refs_put_process _ _ pr) by done. rewrite Hg.
  pose proof (Hwf d) as Hwd. rewrite (refs_same k) by done. simpl.
  rewrite lookup_insert. case_decide; subst.
  - rewrite Hd in Hwd. rewrite decide_True by done. simpl. lia.
  - rewrite decide_False by congruence.
    replace (refs k d - pcount d pr + (pcount d pr + 0)) with (refs k d) by lia. done.
Qed.

Lemma fd_wf_release k k' p pr pr' d0 :
  fd_wf k -> processes k !! p = Some pr -> decrement_ref_count k d0 = Ret k' ->
  (forall d, pcount d pr' = pcount d pr - if decide (d = d0) then 1 else 0) ->
  fd_wf (put_process p pr' k').
Proof.
  intros Hwf Hp Hd Hg. unfold decrement_ref_count in Hd.
  destruct (descriptions k !! d0) as [desc|] eqn:Hdesc; [|done]. cbn [deref obind] in Hd.
  pose proof (Hwf d0) as H0. rewrite Hdesc in H0. destruct H0 as [H0 H0'].
  assert (processes k' = processes k) as Hpk by (case_match; by simplify_eq).
  intros d. rewrite (refs_put_process _ _ pr) by (by rewrite Hpk). rewrite (refs_same k) by done.
  rewrite Hg. pose proof (Hwf d) as Hwd.
  destruct (Z.eqb_spec (ref_count desc - 1) 0); injection Hd as <-; simpl.
  - rewrite lookup_delete. case_decide; subst.
    + rewrite decide_True by done. lia.
    + rewrite decide_False by congruence.
      replace (refs k d - pcount d pr + (pcount d pr - 0)) with (refs k d) by lia. done.
  - rewrite lookup_insert. case_decide; subst.
    + rewrite decide_True by done. simpl. lia.
    + rewrite decide_False by congruence.
      replace (refs k d - pcount d pr + (pcount d pr - 0)) with (refs k d) by lia. done.
Qed.

(** ** Closing *)

Lemma vget_Some {A} (v : Vector A) i x :
  vget v i = Some x <-> 0 <= i /\ items v !! Z.to_nat i = Some x.
Proof. unfold vget. destruct (Z.ltb_spec i 0); split; naive_solver lia. Qed.

Lemma pcount_vset pr pr' fd f g d :
  file_descriptors pr' = vset (file_descriptors pr) fd g ->
  vget (file_descriptors pr) fd = Some f ->
  pcount d pr' = pcount d pr - delta d f + delta d g.
Proof. intros E [_ Hf]%vget_Some. unfold pcount. rewrite E. by apply count_insert. Qed.

(** [VNode::close] was called, once, on exactly the descriptions that went. *)
Definition closes (k k' : kernel) : Prop := exists new,
  closed k' = new ++ closed k /\ NoDup new /\
  (forall d, d ∈ new <-> is_Some (descriptions k !! d) /\ descriptions k' !! d = None) /\
  (forall d, is_Some (descriptions k' !! d) -> is_Some (descriptions k !! d)).

#[export] Instance closes_preorder : PreOrder closes.
Proof.
  split.
  - intros k. exists []. split_and!; [done|constructor| |done]. intros d. split.
    + by intros ?%elem_of_nil.
    + intros [[? Hs] Hn]. congruence.
  - intros k1 k2 k3 (n1 & Hc1 & Hd1 & H1 & Hs1) (n2 & Hc2 & Hd2 & H2 & Hs2).
    exists (n2 ++ n1). split_and!.
    + by rewrite Hc2, Hc1, app_assoc.
    + apply NoDup_app. split_and!; [done| |done]. intros d Hin2 Hin1.
      apply H2 in Hin2 as [Hs _]. apply H1 in Hin1 as [_ Hn]. rewrite Hn in Hs. by destruct Hs.
    + intros d. rewrite elem_of_app, H1, H2. split.
      * intros [[? ?]|[? Hn]]; [by auto|]. split; [done|]. apply eq_None_not_Some.
        intros [x Hx]. assert (is_Some (descriptions k2 !! d)) as [? ?] by eauto. congruence.
      * intros [Hs Hn]. destruct (descriptions k2 !! d) as [x|] eqn:E; [|by right].
        left. split; [by eexists|done].
    + auto.
Qed.

Lemma closes_same k k' :
  closed k' = closed k -> (forall d, is_Some (descriptions k' !! d) <-> is_Some (descriptions k !! d)) ->
  closes k k'.
Proof.
  intros Hc Hd. exists []. split_and!; [done|constructor| |apply Hd]. intros d. split.
  - by intros ?%elem_of_nil.
  - intros [Hs Hn]. apply Hd in Hs. rewrite Hn in Hs. by destruct Hs.
Qed.

Lemma decrement_closes k d k' : decrement_ref_count k d = Ret k' -> closes k k'.
Proof.
  unfold decrement_ref_count. destruct (descriptions k !! d) as [desc|] eqn:Hd; [|done].
  cbn [deref obind]. case_match; intros [= <-].
  - exists [d]. simpl. split_and!; [done|apply NoDup_singleton| |].
    + intros d'. rewrite list_elem_of_singleton, lookup_delete. split.
      * intros ->. rewrite Hd, decide_True by done. split; [by eexists|done].
      * intros [[x Hx] Hn]. case_decide; [done|]. congruence.
    + intros d'. rewrite lookup_delete. case_decide; [by intros []|done].
  - apply closes_same; [done|]. intros d'. simpl. rewrite lookup_insert. case_decide; [|done].
    subst. rewrite Hd. split; by eexists.
Qed.

(** What a step of the calls below keeps and does. *)
Definition fd_step (k k' : kernel) : Prop := fd_wf k -> fd_wf k' /\ closes k k'.

#[export] Instance fd_step_preorder : PreOrder fd_step.
Proof.
  split; [by intros k ?|]. intros k1 k2 k3 H1 H2 Hwf. destruct (H1 Hwf) as [Hwf2 ?].
  destruct (H2 Hwf2) as [? ?]. split; [done|by etrans].
Qed.

Lemma fd_step_table k p pr pr' :
  processes k !! p = Some pr -> (forall d, pcount d pr' = pcount d pr) ->
  fd_step k (put_process p pr' k).
Proof. intros Hp Hs Hwf. split; [by eapply fd_wf_same_refs|by apply closes_same]. Qed.

Lemma decrement_processes k d k' : decrement_ref_count k d = Ret k' -> processes k' = processes k.
Proof.
  unfold decrement_ref_count. intros H. inv_ret. case_match; by inv_ret.
Qed.

Lemma fd_close_step k p fd k' : fd_close k p fd = Ret k' -> fd_step k k'.
Proof.
  unfold fd_close. intros H. inv_ret. intros Hwf.
  match goal with H : decrement_ref_count _ _ = Ret _ |- _ => rename H into Hd end. split.
  - eapply fd_wf_release; [done..|]. intros d. unfold pcount. simpl.
    match goal with H : vget _ _ = Some _ |- _ => apply vget_Some in H as [_ H]; 
      rewrite (count_insert _ _ _ _ _ H) end.
    unfold delta. simpl. repeat case_decide; simplify_eq; try lia; congruence.
  - etrans; [by eapply decrement_closes|]. by apply closes_same.
Qed.

(** ** allocate_fdnum *)

Lemma find_free_spec fds i j :
  find_free fds i = Some j -> i <= j /\
  (exists f, fds !! Z.to_nat (j - i) = Some f /\ description f = None) /\
  forall j' f, i <= j' < j -> fds !! Z.to_nat (j' - i) = Some f -> description f <> None.
Proof.
  revert i. induction fds as [|f fds IH]; intros i H; [done|]. cbn [find_free] in H.
  case_decide as Hf.
  - simplify_eq. rewrite Z.sub_diag. split_and!; [lia|by exists f|lia].
  - apply IH in H as (? & (g & Hg & ?) & Hall). split_and!; [lia| |].
    + exists g. split; [|done].
      by replace (Z.to_nat (j - i)) with (S (Z.to_nat (j - (i + 1)))) by lia.
    + intros j' g' Hj Hg'. destruct (decide (j' = i)) as [->|].
      { rewrite Z.sub_diag in Hg'. by simplify_eq/=. }
      eapply (Hall j'); [lia|].
      by replace (Z.to_nat (j' - i)) with (S (Z.to_nat (j' - (i + 1)))) in Hg' by lia.
Qed.

Lemma find_free_None fds i : find_free fds i = None ->
  forall j f, fds !! j = Some f -> description f <> None.
Proof.
  revert i. induction fds as [|f fds IH]; intros i H j g Hg; [done|]. cbn [find_free] in H.
  case_decide; [done|]. destruct j; simplify_eq/=; eauto.
Qed.

Lemma push_back_items {A} (v v' : Vector A) x : push_back v x = Ret v' -> items v' = items v ++ [x].
Proof.
  unfold push_back, reserve_internal. intros H.
  case_match; cbn [obind] in H; [by simplify_eq|]. inv_ret. done.
Qed.

(** The slot it gives is empty, and no descriptor changed. *)
Lemma allocate_fdnum_refs pr min fd pr' moved d :
  allocate_fdnum pr min = Ret (fd, pr', moved) -> pcount d pr' = pcount d pr.
Proof.
  unfold allocate_fdnum. cbn zeta. destruct (search_free _ _).
  - intros [= _ <- _]. by case_match.
  - intros H'. inv_ret. apply push_back_items in E. unfold pcount. simpl. rewrite E. simpl.
    rewrite count_app. unfold count at 2. simpl. lia.
Qed.

(** The slot [allocate_fdnum] gives is inside the table and empty. *)
Lemma allocate_fdnum_slot pr min fd pr' moved :
  vsize (file_descriptors pr) < 2147483648 ->
  allocate_fdnum pr min = Ret (fd, pr', moved) ->
  exists f, vget (file_descriptors pr') fd = Some f /\ description f = None.
Proof.
  unfold allocate_fdnum, search_free. cbn zeta. intros Hsz H.
  set (b := if min <? _ then _ else min) in *. clearbody b.
  destruct (Z.ltb_spec b 0) as [Hb|Hb]; [|destruct (find_free _ _) as [i|] eqn:Hff].
  2:{ apply find_free_spec in Hff as (? & (f & Hf & ?) & _). rewrite lookup_drop in Hf.
    injection H as <- <- _. exists f. split; [|done]. apply vget_Some. split; [lia|].
    replace (Z.to_nat i) with (Z.to_nat b + Z.to_nat (i - b))%nat by lia.
    rewrite <- Hf. by case_match. }
  all: inv_ret; exists no_fd; split; [|done]; apply push_back_items in E; apply vget_Some;
    unfold vsize in *; simpl; rewrite E; simpl in E |- *; unfold i32;
    rewrite Z.mod_small by lia; (split; [lia|]);
    replace (Z.to_nat _) with (length (items (file_descriptors pr))) by lia;
    by rewrite lookup_app_r, Nat.sub_diag by lia.
Qed.

(** ** The calls *)

Lemma syscall_close_step k p fd r k' : syscall_close k p fd = Ret (r, k') -> fd_step k k'.
Proof.
  unfold syscall_close. intros H. inv_ret. case_match; [by inv_ret|]. inv_ret.
  case_match; [by inv_ret|]. inv_ret. by eapply fd_close_step.
Qed.

Lemma pcount_set_flags pr fd f flags d :
  vget (file_descriptors pr) fd = Some f ->
  pcount d (pr <| file_descriptors ::= fun v => vset v fd (set_flags f flags) |>) = pcount d pr.
Proof. intros Hf. rewrite (pcount_vset pr _ fd f (set_flags f flags)) by done. unfold delta. simpl. lia. Qed.

Lemma close_range_loop_step n k p first c k' :
  close_range_loop n k p first c = Ret k' -> fd_step k k'.
Proof.
  revert k first. induction n as [|n IH]; intros k first H; cbn [close_range_loop] in H.
  { by inv_ret. }
  inv_ret. etrans; [|by eapply IH]. case_match; [|by inv_ret].
  destruct c; [|by eapply fd_close_step]. inv_ret. eapply fd_step_table; [done|].
  intros d. by apply pcount_set_flags.
Qed.

Lemma close_where_step pred n k p i k' : close_where pred n k p i = Ret k' -> fd_step k k'.
Proof.
  revert k i. induction n as [|n IH]; intros k i H; cbn [close_where] in H.
  { by inv_ret. }
  inv_ret. etrans; [|by eapply IH]. case_match; [by eapply fd_close_step|by inv_ret].
Qed.

(** Giving an empty slot a reference to a description in use. *)
Lemma fd_step_acquire k p pr pr' d0 desc :
  processes k !! p = Some pr -> descriptions k !! d0 = Some desc ->
  (forall d, pcount d pr' = pcount d pr + if decide (d = d0) then 1 else 0) ->
  fd_step k (put_process p pr' (put_description d0 (desc <| ref_count ::= Z.add 1 |>) k)).
Proof.
  intros Hp Hd Hg Hwf. split; [by eapply fd_wf_acquire|]. apply closes_same; [done|].
  intros d. simpl. rewrite lookup_insert. case_decide; [|done]. subst. rewrite Hd.
  split; intros _; by eexists.
Qed.

Lemma put_description_step k d desc desc' :
  descriptions k !! d = Some desc -> ref_count desc' = ref_count desc ->
  fd_step k (put_description d desc' k).
Proof.
  intros Hd Hr Hwf. split.
  - intros d'. simpl. rewrite (refs_same k) by done. pose proof (Hwf d') as H'.
    rewrite lookup_insert. case_decide; [|done]. subst. rewrite Hd in H'. by rewrite Hr.
  - apply closes_same; [done|]. intros d'. simpl. rewrite lookup_insert. case_decide; [|done].
    subst. rewrite Hd. split; intros _; by eexists.
Qed.

Lemma put_process_twice p pr pr' k : put_process p pr' (put_process p pr k) = put_process p pr' k.
Proof. unfold put_process. simpl. by rewrite insert_insert_eq. Qed.

Lemma fcntl_step k p pr fd cmd arg r k' :
  processes k !! p = Some pr -> vsize (file_descriptors pr) < 2147483648 ->
  fcntl_impl k p fd cmd arg = Ret (r, k') -> fd_step k k'.
Proof.
  intros Hp Hsz. unfold fcntl_impl. rewrite Hp. cbn [deref obind]. case_match; [intros; by simplify_eq|].
  intros H'. inv_ret. destruct (description a) as [d|] eqn:Hd; [|by inv_ret]. inv_ret.
  destruct cmd; try by inv_ret.
  1,2: inv_ret; match goal with a : Z * Process * bool |- _ => destruct a as [[newfd pr1] moved] end;
    destruct moved; [done|]; unfold duplicate, increment_ref_count in H'; inv_ret; simplify_eq;
    match goal with H : allocate_fdnum _ _ = _ |- _ =>
      pose proof (fun d => allocate_fdnum_refs _ _ _ _ _ d H) as Hrefs;
      apply allocate_fdnum_slot in H as (f0 & Hf0 & Hn); [|done] end;
    eapply fd_step_acquire; [done|eassumption|]; intros d';
    erewrite (pcount_vset pr1 _ _ f0) by (reflexivity || done);
    rewrite Hrefs; unfold delta; rewrite Hn; simpl;
    repeat case_decide; simplify_eq; try lia; congruence.
  - inv_ret. eapply fd_step_table; [done|]. intros d'. by apply pcount_set_flags.
  - inv_ret. by eapply put_description_step.
Qed.

Lemma extend_table_items n v v' moved :
  extend_table n v = Ret (v', moved) -> items v' = items v ++ replicate n no_fd.
Proof.
  revert v v' moved. induction n as [|n IH]; intros v v' moved H; cbn [extend_table] in H.
  { inv_ret. by rewrite app_nil_r. }
  inv_ret. destruct a0 as [v2 m2]. injection H as <- _.
  apply push_back_items in E. apply IH in E0. rewrite E0, E, <- app_assoc. done.
Qed.

Lemma count_replicate d n : count d (replicate n no_fd) = 0.
Proof. induction n; [done|]. simpl. rewrite count_cons. unfold delta. simpl. lia. Qed.

Lemma fd_close_slot k p fd k' :
  fd_close k p fd = Ret k' ->
  exists pr', processes k' !! p = Some pr' /\ vget (file_descriptors pr') fd = Some no_fd.
Proof.
  unfold fd_close. intros H. inv_ret. simpl. rewrite lookup_insert_eq. eexists. split; [done|].
  match goal with H : vget _ _ = Some _ |- _ => apply vget_Some in H as [? Hl] end.
  apply vget_Some. split; [done|]. simpl. apply list_lookup_insert_eq. by eapply lookup_lt_Some.
Qed.

Lemma dup3_step k p oldfd newfd flags r k' :
  dup3_impl k p oldfd newfd flags = Ret (r, k') -> fd_step k k'.
Proof.
  unfold dup3_impl. intros H. inv_ret.
  do 2 (case_match; [by inv_ret|]). inv_ret. case_match; [by inv_ret|].
  do 2 (case_match; [by inv_ret|]). inv_ret.
  match goal with a : Vector _ * bool |- _ => destruct a as [v moved] end. inv_ret.
  match goal with H : extend_table _ _ = _ |- _ => rename H into Hext end.
  match goal with H : (if decide _ then _ else _) = Ret ?k2 |- _ =>
    rename H into Hcl; rename k2 into k3 end.
  destruct moved; [done|]. unfold duplicate, increment_ref_count in H. inv_ret. simplify_eq.
  apply extend_table_items in Hext.
  transitivity k3.
  - etrans; [eapply (fd_step_table _ p); [done|]|].
    + intros d. instantiate (1 := _ <| file_descriptors := v |>). unfold pcount. simpl.
      rewrite Hext, count_app, count_replicate. lia.
    + case_decide; [by inv_ret|]. by eapply fd_close_step.
  - assert (exists pr f0, processes k3 !! p = Some pr /\
      vget (file_descriptors pr) r = Some f0 /\ description f0 = None) as (pr & f0 & Hpr & Hf0 & Hn).
    { case_decide.
      - inv_ret. simpl. rewrite lookup_insert_eq. eexists _, _. split_and!; done.
      - apply fd_close_slot in Hcl as (pr & ? & ?). by exists pr, no_fd. }
    simpl in *. simplify_eq. eapply fd_step_acquire; [done..|]. intros d'.
    erewrite (pcount_vset _ _ _ f0) by (reflexivity || done).
    unfold delta. rewrite Hn. simpl. repeat case_decide; simplify_eq; try lia; congruence.
Qed.

Lemma close_range_step k p first last flags r k' :
  syscall_close_range k p first last flags = Ret (r, k') -> fd_step k k'.
Proof.
  unfold syscall_close_range. intros H. inv_ret. do 2 (case_match; [by inv_ret|]). inv_ret.
  by eapply close_range_loop_step.
Qed.

(** ** Deciding the invariant of a concrete state *)

Definition live_fd (k : kernel) (f : FileDescriptor) : bool :=
  match description f with Some d => bool_decide (is_Some (descriptions k !! d)) | None => true end.
Definition fd_wf_dec (k : kernel) : bool :=
  bool_decide (map_Forall (fun d desc => ref_count desc = refs k d /\ 0 < refs k d) (descriptions k)) &&
  bool_decide (map_Forall (fun _ pr => forallb (live_fd k) (items (file_descriptors pr)) = true)
                 (processes k)).

Lemma fd_wf_check k : fd_wf_dec k = true -> fd_wf k.
Proof.
  unfold fd_wf_dec. intros [H1 H2]%andb_prop.
  apply bool_decide_eq_true in H1. apply bool_decide_eq_true in H2.
  intros d. destruct (descriptions k !! d) as [desc|] eqn:Hd; [by apply (H1 d)|].
  unfold refs. induction (processes k) as [|p pr m Hm IH] using map_ind; [done|].
  rewrite map_fold_insert_L by (lia || done). apply map_Forall_insert in H2 as [Hpr H2]; [|done].
  rewrite IH by done. rewrite Z.add_0_r. unfold pcount. clear -Hpr Hd.
  induction (items (file_descriptors pr)) as [|f fds IH]; [done|].
  simpl in Hpr. apply andb_prop in Hpr as [Hf Hfds]. rewrite count_cons, IH by done.
  unfold delta. rewrite decide_False; [done|]. intros Hdf. unfold live_fd in Hf. rewrite Hdf in Hf.
  apply bool_decide_eq_true in Hf as [x Hx]. congruence.
Qed.
