(* ===== verification/FdProps.v ===== *)
(** * Correctness of the descriptor table

    Descriptor numbers are allocated lowest first; descriptions are counted
    exactly and closed once; [dup2] redirects one descriptor and nothing else. *)

From S2P Require Import Prelude Vector Links Sched FdTable FdFacts.

(** ** Lowest free descriptor *)

(** [first_free_fdnum] is a lower bound of the free numbers. *)
Record table_wf (pr : Process) : Prop := {
  table_vector : vector_wf (file_descriptors pr);
  table_size : vsize (file_descriptors pr) < 2147483647;
  table_first : 0 <= first_free_fdnum pr <= vsize (file_descriptors pr);
  table_used i f : i < first_free_fdnum pr -> vget (file_descriptors pr) i = Some f ->
    description f <> None
}.

Lemma vget_lt {A} (v : Vector A) i x : vget v i = Some x -> 0 <= i < vsize v.
Proof. intros [? Hl]%vget_Some. apply lookup_lt_Some in Hl. unfold vsize. lia. Qed.

Lemma vget_is_Some {A} (v : Vector A) i : 0 <= i < vsize v -> exists x, vget v i = Some x.
Proof.
  intros Hi. unfold vsize in Hi.
  destruct (lookup_lt_is_Some_2 (items v) (Z.to_nat i)) as [x Hx]; [lia|].
  exists x. apply vget_Some. split; [lia|done].
Qed.

Lemma vget_vset {A} (v : Vector A) i j x :
  0 <= i < vsize v -> vget (vset v i x) j = if decide (j = i) then Some x else vget v j.
Proof.
  intros Hi. unfold vget, vset. simpl. destruct (Z.ltb_spec j 0).
  - rewrite decide_False by lia. done.
  - case_decide; subst.
    + apply list_lookup_insert_eq. unfold vsize in Hi. lia.
    + apply list_lookup_insert_ne. lia.
Qed.

Lemma search_free_spec v b j :
  search_free v b = Some j -> 0 <= b <= j /\
  (exists f, vget v j = Some f /\ description f = None) /\
  forall i f, b <= i < j -> vget v i = Some f -> description f <> None.
Proof.
  unfold search_free. destruct (Z.ltb_spec b 0); [done|].
  intros (? & (f & Hf & Hn) & Hall)%find_free_spec. rewrite lookup_drop in Hf.
  split; [done|]. split.
  - exists f. split; [|done]. apply vget_Some. split; [lia|]. rewrite <- Hf. f_equal. lia.
  - intros i g Hi [_ Hg]%vget_Some. eapply (Hall i); [done|]. rewrite lookup_drop.
    rewrite <- Hg. f_equal. lia.
Qed.

Lemma search_free_None v b : 0 <= b -> search_free v b = None ->
  forall i f, b <= i -> vget v i = Some f -> description f <> None.
Proof.
  intros Hb. unfold search_free. rewrite (proj2 (Z.ltb_ge _ _)) by done. intros H i f Hi Hf.
  apply vget_Some in Hf as [_ Hf]. eapply (find_free_None _ _ H (Z.to_nat i - Z.to_nat b)).
  rewrite lookup_drop. rewrite <- Hf. f_equal. lia.
Qed.

(** Installing a description in the one slot that may be empty below the bound. *)
Lemma table_wf_install pr fd g :
  vector_wf (file_descriptors pr) -> vsize (file_descriptors pr) < 2147483647 ->
  0 <= first_free_fdnum pr <= vsize (file_descriptors pr) -> 0 <= fd < vsize (file_descriptors pr) ->
  (forall i f, i < first_free_fdnum pr -> i <> fd -> vget (file_descriptors pr) i = Some f ->
     description f <> None) -> description g <> None ->
  table_wf (pr <| file_descriptors ::= fun v => vset v fd g |>).
Proof.
  intros Hv Hsz Hff Hfd Hused Hg.
  split; simpl; unfold vector_wf, vsize in *; simpl; rewrite ?length_insert; try done.
  intros i f Hi. rewrite vget_vset by (unfold vsize; lia). case_decide; [naive_solver|]. by apply Hused.
Qed.

(** Where the scan starts. *)
Definition scan_begin (pr : Process) (min : Z) : Z :=
  if min <? first_free_fdnum pr then first_free_fdnum pr else min.

Lemma scan_begin_spec pr min :
  table_wf pr -> 0 <= min <= vsize (file_descriptors pr) ->
  min <= scan_begin pr min <= vsize (file_descriptors pr) /\
  first_free_fdnum pr <= scan_begin pr min /\
  (min < first_free_fdnum pr -> scan_begin pr min = first_free_fdnum pr) /\
  forall i f, min <= i < scan_begin pr min -> vget (file_descriptors pr) i = Some f ->
    description f <> None.
Proof.
  intros [_ _ Hff Hused] Hmin. unfold scan_begin.
  destruct (Z.ltb_spec min (first_free_fdnum pr)); split_and!; try lia.
  intros i f Hi. apply Hused. lia.
Qed.

(** What the theorem below says of a result. *)
Definition allocated (pr : Process) (min fd : Z) (pr' : Process) : Prop :=
  min <= fd <= vsize (file_descriptors pr) /\
  (forall f, vget (file_descriptors pr) fd = Some f -> description f = None) /\
  (forall i f, min <= i < fd -> vget (file_descriptors pr) i = Some f -> description f <> None) /\
  items (file_descriptors pr') = items (file_descriptors pr) ++
    (if fd =? vsize (file_descriptors pr) then [no_fd] else []) /\
  (forall g, description g <> None -> vsize (file_descriptors pr') < 2147483647 ->
    table_wf (pr' <| file_descriptors ::= fun v => vset v fd g |>)).

Lemma allocated_found pr min fd :
  table_wf pr -> 0 <= min <= vsize (file_descriptors pr) ->
  search_free (file_descriptors pr) (scan_begin pr min) = Some fd ->
  allocated pr min fd
    (let pr1 := pr <| num_file_descriptors ::= fun n => u64 (n + 1) |> in
     if min <? first_free_fdnum pr then pr1 <| first_free_fdnum := i32 (fd + 1) |> else pr1).
Proof.
  intros Hwf Hmin Hs. pose proof (scan_begin_spec _ _ Hwf Hmin) as (Hb & Hbf & Hbe & Hlow).
  destruct Hwf as [Hv Hsz Hff Hused].
  apply search_free_spec in Hs as (Hbj & (f0 & Hf0 & Hn) & Hall). pose proof (vget_lt _ _ _ Hf0).
  cbv zeta. split_and!; try lia; [naive_solver| | |].
  - intros i f Hi. destruct (decide (i < scan_begin pr min)); [apply Hlow|apply Hall]; lia.
  - rewrite (proj2 (Z.eqb_neq fd _)) by lia. rewrite app_nil_r. by case_match.
  - intros g Hg _. unfold i32 in *.
    destruct (Z.ltb_spec min (first_free_fdnum pr));
      apply table_wf_install; simpl; try done; try lia;
      intros i f Hi ? Hf; (destruct (decide (i < first_free_fdnum pr)); [exact (Hused i f ltac:(lia) Hf)|]);
      exact (Hall i f ltac:(lia) Hf).
Qed.

Lemma allocated_pushed pr min c :
  table_wf pr -> 0 <= min <= vsize (file_descriptors pr) ->
  search_free (file_descriptors pr) (scan_begin pr min) = None ->
  vsize (file_descriptors pr) + 1 <= c ->
  allocated pr min (vsize (file_descriptors pr))
    (let pr1 := pr <| num_file_descriptors ::= fun n => u64 (n + 1) |> in
     (if min <? first_free_fdnum pr then pr1 <| first_free_fdnum := vsize (file_descriptors pr) |>
      else pr1) <| file_descriptors := mkVector (items (file_descriptors pr) ++ [no_fd]) c |>).
Proof.
  intros Hwf Hmin Hs Hc. pose proof (scan_begin_spec _ _ Hwf Hmin) as (Hb & Hbf & Hbe & Hlow).
  destruct Hwf as [Hv Hsz Hff Hused].
  pose proof (search_free_None (file_descriptors pr) (scan_begin pr min) ltac:(lia) Hs) as Hall.
  cbv zeta. split_and!; try lia; [intros f Hf; apply vget_lt in Hf; lia| | |].
  - intros i f Hi Hf. destruct (decide (i < scan_begin pr min)).
    + exact (Hlow i f ltac:(lia) Hf).
    + exact (Hall i f ltac:(lia) Hf).
  - by rewrite Z.eqb_refl.
  - intros g Hg Hsz'.
    assert (forall i f, i < first_free_fdnum pr \/
        min < first_free_fdnum pr /\ i < vsize (file_descriptors pr) ->
      vget (mkVector (items (file_descriptors pr) ++ [no_fd]) c) i = Some f -> description f <> None) as Ho.
    { intros i f Hi [? Hf]%vget_Some. simpl in Hf. unfold vsize in *. rewrite lookup_app_l in Hf by lia.
      assert (vget (file_descriptors pr) i = Some f) as Hf' by (by apply vget_Some).
      destruct (decide (i < first_free_fdnum pr)); [exact (Hused i f ltac:(lia) Hf')|].
      destruct (decide (i < scan_begin pr min)); [|exact (Hall i f ltac:(lia) Hf')].
      assert (min <= i); [|exact (Hlow i f ltac:(lia) Hf')]. lia. }
    assert (vsize (mkVector (items (file_descriptors pr) ++ [no_fd]) c) =
      vsize (file_descriptors pr) + 1) as Hv'.
    { unfold vsize. simpl. rewrite length_app. simpl. lia. }
    destruct (Z.ltb_spec min (first_free_fdnum pr));
      (apply table_wf_install; [|exact Hsz'| | | |exact Hg];
       cbn [upd file_descriptors first_free_fdnum]; unfold vector_wf; rewrite ?Hv'; simpl; try lia;
       intros i f Hi ?; apply Ho; lia).
Qed.

(** [Process::allocate_fdnum] returns the lowest descriptor number that is not
    in use and not below [min_fdnum], at most one past the end of the table; the
    table only grows when every number from there is taken, and once a
    description is installed in the slot, [first_free_fdnum] is again a lower
    bound of the free numbers. *)
Theorem allocate_fdnum_lowest pr min :
  table_wf pr -> 0 <= min <= vsize (file_descriptors pr) ->
  exists fd pr' moved, allocate_fdnum pr min = Ret (fd, pr', moved) /\ allocated pr min fd pr'.
Proof.
  intros Hwf Hmin. unfold allocate_fdnum. cbn zeta.
  change (search_free _ _) with (search_free (file_descriptors pr) (scan_begin pr min)).
  change (push_back _ no_fd) with (push_back (file_descriptors pr) no_fd).
  destruct (search_free _ _) as [j|] eqn:Hs.
  - eexists j, _, _. split; [reflexivity|]. by apply (allocated_found pr min j).
  - destruct Hwf as [Hv Hsz Hff Hused] eqn:Ewf.
    destruct (push_back_spec (file_descriptors pr) no_fd Hv ltac:(lia)) as (c & -> & _ & ?).
    cbn [obind]. eexists _, _, _. split; [reflexivity|].
    assert (i32 (vsize (file_descriptors pr)) = vsize (file_descriptors pr)) as Hi32
      by (unfold i32, vsize in *; rewrite Z.mod_small; lia).
    change (vsize (file_descriptors (pr <| num_file_descriptors ::= _ |>)))
      with (vsize (file_descriptors pr)).
    rewrite Hi32. by apply (allocated_pushed pr min c).
Qed.

(** ** dup2 *)

Lemma extend_table_in_place n v :
  vsize v + Z.of_nat n <= m_capacity v ->
  extend_table n v = Ret (mkVector (items v ++ replicate n no_fd) (m_capacity v), false).
Proof.
  revert v. induction n as [|n IH]; intros v Hv; cbn [extend_table].
  - rewrite app_nil_r. by destruct v.
  - assert (moves v = false) as Hm by (unfold moves; apply Z.ltb_ge; lia).
    rewrite push_back_in_place by done. cbn [obind]. rewrite IH.
    + cbn [obind items m_capacity]. rewrite Hm, <- app_assoc. done.
    + unfold vsize in *. simpl. rewrite length_app. simpl. lia.
Qed.

Lemma fd_close_total k p pr fd f d :
  fd_wf k -> processes k !! p = Some pr -> vget (file_descriptors pr) fd = Some f ->
  description f = Some d ->
  exists k' pr', fd_close k p fd = Ret k' /\ processes k' = <[p := pr']> (processes k) /\
    file_descriptors pr' = vset (file_descriptors pr) fd no_fd.
Proof.
  intros Hwf Hp Hf Hd. unfold fd_close. rewrite Hp. cbn [deref obind]. rewrite Hf. cbn [deref obind].
  rewrite Hd. cbn [deref obind].
  destruct (fd_live _ _ _ _ _ _ Hwf Hp Hf Hd) as (desc & Hdesc & _).
  unfold decrement_ref_count. rewrite Hdesc. cbn [deref obind].
  case_match; cbn [obind]; eexists _, _; (split; [reflexivity|]); done.
Qed.

(** Emptying a slot, whether or not it was in use. *)
Lemma release_slot k p pr fd g :
  fd_wf k -> processes k !! p = Some pr -> vget (file_descriptors pr) fd = Some g ->
  exists k' pr', (if decide (description g = None) then Ret k else fd_close k p fd) = Ret k' /\
    fd_wf k' /\ processes k' = <[p := pr']> (processes k) /\
    vsize (file_descriptors pr') = vsize (file_descriptors pr) /\
    forall i, i <> fd -> vget (file_descriptors pr') i = vget (file_descriptors pr) i.
Proof.
  intros Hwf Hp Hg. destruct (decide (description g = None)) as [|Hgn].
  - exists k, pr. rewrite insert_id by done. done.
  - destruct (description g) as [dg|] eqn:Hdg; [|done].
    destruct (fd_close_total k p _ fd g dg Hwf Hp Hg Hdg) as (k2 & pr2 & Hc & Hpk & Hfd).
    exists k2, pr2. rewrite Hfd. split_and!; [done| |done| |].
    + by apply (fd_close_step _ _ _ _ Hc).
    + unfold vsize, vset. simpl. by rewrite length_insert.
    + intros i Hi. rewrite vget_vset by (by eapply vget_lt). by rewrite decide_False.
Qed.

Lemma bad_fd_false pr fd f :
  vsize (file_descriptors pr) < 2147483648 -> vget (file_descriptors pr) fd = Some f ->
  bad_fd pr fd = false.
Proof.
  intros Hsz Hf. apply vget_lt in Hf. unfold bad_fd, i32. rewrite Z.mod_small by lia.
  apply orb_false_iff. split; lia.
Qed.


(** ** Concrete runs *)

(** Process 1 has descriptors 0 and 2 on description 50 and 3 on 51, with room for 8. *)
Definition fd_process : Process :=
  Process_init 1 20 21 22
    <| file_descriptors := mkVector [mkFd (Some 50) 0; no_fd; mkFd (Some 50) 1; mkFd (Some 51) 0] 8 |>
    <| num_file_descriptors := 3 |> <| first_free_fdnum := 1 |>.
Definition fd_sample : kernel :=
  {| threads := ∅; events := ∅; processes := {[1 := fd_process]}; groups := ∅; sessions := ∅;
     descriptions := {[50 := mkDescription 60 61 0 O_RDWR 2; 51 := mkDescription 62 63 0 O_RDONLY 1]};
     sched_list := []; thread_table := []; num_threads := 0; first_free_tid := 2;
     init_process := 1; idle_thread := 0; frames := ∅; closed := []; futex_table := ∅; page_table := ∅; memory := ∅;
     next_obj := 1000 |}.

Lemma fd_sample_wf : fd_wf fd_sample.
Proof. apply fd_wf_check. vm_compute. reflexivity. Qed.

Lemma fd_process_wf : table_wf fd_process.
Proof.
  split; [unfold vector_wf, vsize; simpl; lia|unfold vsize; simpl; lia|unfold vsize; simpl; lia|].
  intros i f Hi Hf. pose proof (vget_lt _ _ _ Hf). simpl in Hi. replace i with 0 in Hf by lia.
  by injection Hf as <-.
Qed.

Lemma allocate_fdnum_lowest_witness :
  exists fd pr' moved, allocate_fdnum fd_process 2 = Ret (fd, pr', moved) /\
    allocated fd_process 2 fd pr' /\ fd = 4.
Proof.
  destruct (allocate_fdnum_lowest fd_process 2) as (fd & pr' & moved & Ha & H);
    [apply fd_process_wf|unfold vsize; simpl; lia|].
  exists fd, pr', moved. split; [exact Ha|]. split; [exact H|].
  vm_compute in Ha. injection Ha as <- _ _. reflexivity.
Defined.


(** F_DUPFD with a minimum beyond the table returns a number below the minimum. *)
Lemma dupfd_below_minimum : match fcntl_impl fd_sample 1 0 F_DUPFD 100 with
  | Ret (fd, _) => fd = 4 | _ => False end.
Proof. vm_compute. reflexivity. Qed.

(** [dup2] into a free slot does not count the descriptor: closing all of them
    wraps [num_file_descriptors]. *)
Lemma dup2_uncounted : match
    (let! (_, k) := syscall_dup2 fd_sample 1 0 5 in
     let! (_, k) := syscall_close_range k 1 0 5 0 in
     deref (processes k !! 1)) with
  | Ret pr => num_file_descriptors pr = 18446744073709551615 | _ => False end.
Proof. vm_compute. reflexivity. Qed.

(** Duplicating into a full table uses a pointer into the freed one. *)
Lemma dup_of_full_table :
  syscall_dup (put_process 1 (fd_process <| file_descriptors := mkVector [mkFd (Some 51) 0] 1 |>)
    fd_sample) 1 0 = Undef.
Proof. vm_compute. reflexivity. Qed.
