(* ===== verification/Vfs.v ===== *)
(** * The virtual file system: entries and paths (fs/vfs.hpp, fs/vfs.cpp)

    Entries are the nodes of the directory tree, vnodes the files they name; both
    are keys of maps, 0 the null pointer. A file system is a driver with private
    data of type [D], reached through two interfaces: [FilesystemOps], the virtual
    functions of [Filesystem], and [VNodeOps], those of [VNode]. The calls of
    VfsCalls.v are built on these; Tmpfs.v is an instance.

    [path_to_entry] calls itself for each symbolic link it follows; [depth] is
    the number of nested calls the kernel stack has room for, and a deeper one
    overflows it ([Undef]). *)

From S2P Require Import Prelude CString TimeSpec Links.

(** ** Data *)

Inductive NodeType :=
| HARD_LINK | REGULAR | DIRECTORY | CHAR_DEVICE | BLOCK_DEVICE | SYMLINK | FIFO | SOCKET
| EPOLL | INOTIFY | EVENTFD | SIGNALFD | MEMFD.
#[export] Instance NodeType_eq_dec : EqDecision NodeType.
Proof. solve_decision. Defined.

Definition is_special (t : NodeType) : bool := bool_decide (t <> REGULAR /\ t <> DIRECTORY).
Definition is_device (t : NodeType) : bool := bool_decide (t = CHAR_DEVICE /\ t <> BLOCK_DEVICE).

Record VNode := mkVNode {
  node_type : NodeType;
  v_fs : Z;
  fs_mounted_here : Z;
  fs_data : Z;
  creation_time : TimeSpec; modification_time : TimeSpec; access_time : TimeSpec;
  v_uid : Z; v_gid : Z; v_mode : Z;
  v_ref_count : Z
}.
#[export] Instance eta_VNode : Settable VNode := fun v =>
  mkVNode (node_type v) (v_fs v) (fs_mounted_here v) (fs_data v) (creation_time v)
    (modification_time v) (access_time v) (v_uid v) (v_gid v) (v_mode v) (v_ref_count v).
(** The member initialisers: [uid] and [gid] are -1. *)
Definition VNode_init (t : NodeType) : VNode :=
  mkVNode t 0 0 0 zero_time zero_time zero_time 4294967295 4294967295 0 0.

(** [sibling_link]: in the list of another entry's children, alone after [init], or
    with the null pointers [remove] leaves. *)
Inductive Sibling := InList (owner : Z) | Alone | Removed.

(** [name] with its terminator. *)
Record Entry := mkEntry {
  e_vnode : Z; e_parent : Z; redirect : Z;
  children_list : list Z;
  sibling_link : Sibling;
  name_hash : Z;
  e_name : mem
}.
#[export] Instance eta_Entry : Settable Entry := fun e =>
  mkEntry (e_vnode e) (e_parent e) (redirect e) (children_list e) (sibling_link e)
    (name_hash e) (e_name e).

(** [now]: what [get_clock(CLOCK_REALTIME)] returns; [next_addr] the address of the
    next object allocated. *)
Record vfs (D : Type) := mkVfs {
  vnodes : gmap Z VNode;
  entries : gmap Z Entry;
  root : Z; null_entry : Z;
  priv : D;
  now : TimeSpec;
  next_addr : Z
}.
Arguments mkVfs {D}. Arguments vnodes {D}. Arguments entries {D}. Arguments root {D}.
Arguments null_entry {D}. Arguments priv {D}. Arguments now {D}. Arguments next_addr {D}.
#[export] Instance eta_vfs {D} : Settable (vfs D) := fun s =>
  mkVfs (vnodes s) (entries s) (root s) (null_entry s) (priv s) (now s) (next_addr s).

Definition put_vnode {D} (v : Z) (vn : VNode) (s : vfs D) : vfs D := s <| vnodes ::= <[v := vn]> |>.
Definition put_entry {D} (e : Z) (en : Entry) (s : vfs D) : vfs D := s <| entries ::= <[e := en]> |>.

(** ** The interfaces *)

(** The virtual functions of [Filesystem] that the tree calls: the file system, the
    entry. *)
Class FilesystemOps (D : Type) := {
  fs_lookup : Z -> Z -> vfs D -> outcome (vfs D);
  fs_create : Z -> Z -> NodeType -> vfs D -> outcome (vfs D);
  fs_remove : Z -> Z -> vfs D -> outcome (vfs D)
}.

(** Those of [VNode]: the vnode, the description or none. A read returns its result
    and the bytes it stored in the buffer. *)
Class VNodeOps (D : Type) := {
  v_open : Z -> option Z -> vfs D -> outcome (Z * vfs D);
  v_read : Z -> option Z -> Z -> Z -> vfs D -> outcome (Z * list Z * vfs D);
  v_write : Z -> option Z -> list Z -> Z -> vfs D -> outcome (Z * vfs D);
  v_seek : Z -> option Z -> Z -> Z -> Z -> vfs D -> outcome Z;
  v_truncate : Z -> option Z -> Z -> vfs D -> outcome (Z * vfs D)
}.

(** The virtual functions of [VNode] itself, for the files whose type overrides none. *)
Definition VNode_defaults {D : Type} : VNodeOps D := {|
  v_open v d s := Ret (0, s);
  v_read v d count offset s := Ret (- ENOTSUP, [], s);
  v_write v d buf offset s := Ret (- ENOTSUP, s);
  v_seek v d position offset whence s := Ret (- ENOTSUP);
  v_truncate v d len s := Ret (- EINVAL, s)
|}.

(** What a file system's [stat] fills in. *)
Record fs_stat_fields := mkStat { st_ino : Z; st_size : Z; st_blksize : Z; st_blocks : Z; st_nlink : Z }.

(** [d_type_from_node_type]: DT_REG, DT_DIR, DT_BLK, DT_CHR, DT_LNK, DT_UNKNOWN. *)
Definition d_type_from_node_type (t : NodeType) : Z :=
  match t with REGULAR => 8 | DIRECTORY => 4 | BLOCK_DEVICE => 6 | CHAR_DEVICE => 2 | SYMLINK => 10 | _ => 0 end.

(** One [dirent]: inode, offset, record length, type and name. *)
Record Dirent := mkDirent { d_ino : Z; d_off : Z; d_reclen : Z; d_type : Z; d_name : mem }.

(** [stat] and [readdir] of [Filesystem]: the entries stored in the buffer, the
    cursor and the result. *)
Class FilesystemInfo (D : Type) := {
  fs_stat : Z -> Z -> vfs D -> outcome fs_stat_fields;
  fs_readdir : Z -> Z -> Z -> Z -> vfs D -> outcome (list Dirent * Z * Z)
}.

Definition AT_FDCWD : Z := -100.
Definition slash : Z := 47.

Section vfs.
Context {D : Type} `{FilesystemOps D} `{VNodeOps D}.
Implicit Types s : vfs D.

(** ** Entry *)

Definition construct s (vnode parent : Z) (name : mem) (redir : Z) : outcome (Z * vfs D) :=
  let! name_len := strlen name in
  let! h := hash_string name in
  let e := next_addr s in
  Ret (e, put_entry e (mkEntry vnode parent redir [] Alone h (take (name_len + 1) name)) s
            <| next_addr ::= Z.add 1 |>).

(** [parent->add_child(e)]: [children_list.add]; linking a linked entry corrupts
    both lists. *)
Definition add_child s (parent e : Z) : outcome (vfs D) :=
  let! pe := deref (entries s !! parent) in
  let! en := deref (entries s !! e) in
  match sibling_link en with
  | InList _ => Undef
  | _ =>
      let s := put_entry parent (pe <| children_list ::= cons e |>) s in
      let! en := deref (entries s !! e) in
      Ret (put_entry e (en <| sibling_link := InList parent |>) s)
  end.

Definition remove_from_parent s (e : Z) : outcome (vfs D) :=
  let! en := deref (entries s !! e) in
  match sibling_link en with
  | InList p =>
      let! pe := deref (entries s !! p) in
      let! l := unlink e (children_list pe) in
      let s := put_entry p (pe <| children_list := l |>) s in
      let! en := deref (entries s !! e) in
      Ret (put_entry e (en <| sibling_link := Removed |>) s)
  | Alone => Ret (put_entry e (en <| sibling_link := Removed |>) s)
  | Removed => Undef
  end.

(** A chain of redirections longer than the number of entries is a cycle. *)
Fixpoint reduce_loop (fuel : nat) s (e : Z) : outcome Z :=
  match fuel with
  | O => Undef
  | S fuel =>
      let! en := deref (entries s !! e) in
      if redirect en =? 0 then Ret e else reduce_loop fuel s (redirect en)
  end.
Definition reduce s (e : Z) : outcome Z := reduce_loop (S (size (entries s))) s e.

Fixpoint find_in s (target_hash : Z) (child_name : mem) (children : list Z) : outcome (option Z) :=
  match children with
  | [] => Ret None
  | c :: children =>
      let! ce := deref (entries s !! c) in
      if name_hash ce =? target_hash then
        let! d := strcmp (e_name ce) child_name in
        if d =? 0 then Ret (Some c) else find_in s target_hash child_name children
      else find_in s target_hash child_name children
  end.
Definition find_child s (e : Z) (child_name : mem) : outcome (option Z) :=
  let! h := hash_string child_name in
  let! en := deref (entries s !! e) in
  find_in s h child_name (children_list en).

Definition vnode_of s (e : Z) : outcome (Z * VNode) :=
  let! en := deref (entries s !! e) in
  let! vn := deref (vnodes s !! e_vnode en) in
  Ret (e_vnode en, vn).

(** The file system an entry's children belong to. *)
Definition fs_of_children s (parent : Z) : outcome Z :=
  let! (_, vn) := vnode_of s parent in
  Ret (if negb (fs_mounted_here vn =? 0) then fs_mounted_here vn else v_fs vn).

Definition entry_lookup s (e : Z) : outcome (vfs D) :=
  let! en := deref (entries s !! e) in
  let! fs := fs_of_children s (e_parent en) in
  let! s := fs_lookup fs e s in
  let! p := reduce s (e_parent en) in
  let! c := find_child s p (e_name en) in
  match c with None => add_child s (e_parent en) e | Some _ => Ret s end.

Definition no_id : Z := 4294967295.    (* (uid_t)-1, (gid_t)-1, (mode_t)-1 *)

(** The end of [Entry::create], on a vnode that is there. *)
Definition create_vnode s (e : Z) (new_node_type : NodeType) (uid gid mode : Z) : outcome (vfs D) :=
  let! en := deref (entries s !! e) in
  let! vn := deref (vnodes s !! e_vnode en) in
  let! s := if decide (node_type vn = DIRECTORY) then
              let! (dot, s) := construct s (e_vnode en) e [46; 0] e in
              let! s := add_child s e dot in
              let! (_, _) := vnode_of s (e_parent en) in
              let! pe := deref (entries s !! e_parent en) in
              let! (dotdot, s) := construct s (e_vnode pe) e [46; 46; 0] (e_parent en) in
              add_child s e dotdot
            else Ret s in
  let! vn := deref (vnodes s !! e_vnode en) in
  let vn := vn <| v_ref_count ::= Z.add 1 |> in
  let vn := if negb (uid =? no_id) then vn <| v_uid := uid |> else vn in
  let vn := if negb (gid =? no_id) then vn <| v_gid := gid |> else vn in
  let vn := if decide (new_node_type = SYMLINK) then vn <| v_mode := 511 |>
            else if negb (mode =? no_id) then vn <| v_mode := mode |> else vn in
  Ret (put_vnode (e_vnode en) vn s).

Definition entry_create s (e : Z) (new_node_type : NodeType) (uid gid mode : Z) : outcome (vfs D) :=
  let! en := deref (entries s !! e) in
  let! s := if decide (new_node_type <> HARD_LINK) then
              let! fs := fs_of_children s (e_parent en) in fs_create fs e new_node_type s
            else Ret s in
  let! c := find_child s (e_parent en) (e_name en) in
  let! s := match c with None => add_child s (e_parent en) e | Some _ => Ret s end in
  let! en := deref (entries s !! e) in
  if e_vnode en =? 0 then Ret s else create_vnode s e new_node_type uid gid mode.

Definition entry_remove s (e : Z) : outcome (vfs D) :=
  let! (_, vn) := vnode_of s e in
  let! s := fs_remove (v_fs vn) e s in
  let! s := remove_from_parent s e in
  let! (v, vn) := vnode_of s e in
  Ret (put_vnode v (vn <| v_ref_count ::= fun n => n - 1 |>) s).

(** ** Paths *)

Definition lookup_child s (parent : Z) (filename : mem) : outcome (Z * vfs D) :=
  let! c := find_child s parent filename in
  match c with
  | Some c => Ret (c, s)
  | None =>
      let! (e, s) := construct s 0 parent filename 0 in
      let! s := entry_lookup s e in
      Ret (e, s)
  end.

(** What a turn of the loop does with the next slash: skip it, or take the name
    before it, the last one or not. [path_len] is not decremented past a
    duplicate slash. *)
Definition next_component (sl : option nat) (path_len : Z) : option (nat * bool) :=
  match sl with
  | None => Some (Z.to_nat path_len, true)
  | Some i => if Z.of_nat i =? path_len - 1 then Some (i, true)
              else if (i =? 0)%nat then None else Some (i, false)
  end.

(** The target of a link, from [read] into a zeroed buffer of 256 bytes, with the
    rest of the path copied after it; [None] if it is too long. *)
Definition link_target s (v : Z) (rest : mem) : outcome (option mem * vfs D) :=
  let! (ret, bytes, s) := v_read v None 128 0 s in
  if (ret <? 0) || (ret >? 127) then Ret (None, s) else
  let new_path := splice 0 bytes (replicate 256 0) in
  let! tl := strcpy (drop (Z.to_nat ret) new_path) rest in
  Ret (Some (take (Z.to_nat ret) new_path ++ tl), s).

(** The loop of [path_to_entry]; [resolve] is its recursive call. *)
Fixpoint walk (resolve : mem -> Z -> vfs D -> outcome (Z * vfs D)) (follow_last_symlink : bool)
    (fuel : nat) (path : mem) (path_len current_entry : Z) s : outcome (Z * vfs D) :=
  match fuel with
  | O => Undef
  | S fuel =>
      let! (_, vn) := vnode_of s current_entry in
      if decide (node_type vn <> DIRECTORY) then Ret (null_entry s, s) else
      let! sl := strchr path slash in
      match next_component sl path_len with
      | None => walk resolve follow_last_symlink fuel (tail path) path_len current_entry s
      | Some (entry_name_len, last) =>
          let! entry_name := if (entry_name_len <=? length path)%nat
                             then Ret (take entry_name_len path ++ [0]) else Undef in
          let! (next_entry, s) := lookup_child s current_entry entry_name in
          let! nen := deref (entries s !! next_entry) in
          if e_vnode nen =? 0 then Ret (if last : bool then next_entry else null_entry s, s) else
          let! vn := deref (vnodes s !! e_vnode nen) in
          if decide ((last = false \/ follow_last_symlink = true) /\ node_type vn = SYMLINK) then
            let! (target, s) := link_target s (e_vnode nen) (drop entry_name_len path) in
            match target with
            | None => Ret (null_entry s, s)
            | Some new_path => resolve new_path current_entry s
            end
          else if last then Ret (next_entry, s) else
          let! next_dir := reduce s next_entry in
          walk resolve follow_last_symlink fuel (drop (entry_name_len + 1) path)
            (path_len - Z.of_nat entry_name_len - 1) next_dir s
      end
  end.

(** Each turn of the loop goes past at least one character: as many turns as there
    are characters are enough. *)
Fixpoint path_to_entry (depth : nat) (path : mem) (starting_point : Z) (follow_last_symlink : bool) s
    : outcome (Z * vfs D) :=
  match depth with
  | O => Undef
  | S depth =>
      let! path_len := strlen path in
      if (path_len =? 0)%nat then Ret (null_entry s, s) else
      let! start := if starting_point =? 0 then Ret 0 else reduce s starting_point in
      let! c := deref (head path) in
      let resolve p cur s := path_to_entry depth p cur follow_last_symlink s in
      if c =? slash then
        let path := tail path in
        let! c := deref (head path) in
        if c =? 0 then Ret (root s, s)
        else walk resolve follow_last_symlink (S (length path)) path (Z.of_nat path_len - 1) (root s) s
      else if starting_point =? 0 then Ret (null_entry s, s)
      else walk resolve follow_last_symlink (S (length path)) path (Z.of_nat path_len) start s
  end.

(** [create_entry], with the type of its vnode. *)
Definition create_entry s (parent : Z) (filename : mem) (vnode uid gid mode : Z) : outcome (Z * vfs D) :=
  let! (e, s) := lookup_child s parent filename in
  let! en := deref (entries s !! e) in
  let! _ := assert (e_vnode en =? 0) in
  let! vn := deref (vnodes s !! vnode) in
  let s := put_entry e (en <| e_vnode := vnode |>) s in
  let! s := entry_create s e (node_type vn) uid gid mode in
  Ret (e, s).
End vfs.
