(* ===== verification/Tmpfs.v ===== *)
(** * tmpfs (fs/tmpfs.cpp): files in memory

    A file is a block of [capacity] bytes, kept here as the list of its bytes, of
    which the first [size] are the file's. [realloc] leaves the bytes it adds as
    it finds them: [uninit] gives them. A vnode that tmpfs made is in [nodes];
    the methods of the others (devices, pipes) are those of [devices]. *)

From S2P Require Import Prelude Algorithm CString TimeSpec Links Vfs.

(** ** Data *)

Record NodeData := mkNodeData { inode_num : Z; storage : list Z; size : Z }.
#[export] Instance eta_NodeData : Settable NodeData := fun d =>
  mkNodeData (inode_num d) (storage d) (size d).
Definition capacity (d : NodeData) : Z := Z.of_nat (length (storage d)).

(** [last_inode] is [last_inode_num] of each mounted file system. *)
Record tmpfs := mkTmpfs { node_data : gmap Z NodeData; nodes : gset Z; last_inode : gmap Z Z }.
#[export] Instance eta_tmpfs : Settable tmpfs := fun t => mkTmpfs (node_data t) (nodes t) (last_inode t).

Definition SEEK_SET : Z := 0.
Definition SEEK_CUR : Z := 1.
Definition SEEK_END : Z := 2.
Definition SEEK_DATA : Z := 3.
Definition SEEK_HOLE : Z := 4.

(** [sizeof(vfs::Entry)] and [sizeof(vfs::Dirent)]. *)
Definition sizeof_Entry : Z := 64.
Definition sizeof_Dirent : Z := 24.

(** ** Filesystem *)

Definition tmpfs_lookup (fs e : Z) (s : vfs tmpfs) : outcome (vfs tmpfs) :=
  let! _ := deref (last_inode (priv s) !! fs) in Ret s.
Definition tmpfs_remove (fs e : Z) (s : vfs tmpfs) : outcome (vfs tmpfs) :=
  let! _ := deref (last_inode (priv s) !! fs) in Ret s.

Definition tmpfs_create (fs e : Z) (new_node_type : NodeType) (s : vfs tmpfs) : outcome (vfs tmpfs) :=
  let! en := deref (entries s !! e) in
  let! s := if e_vnode en =? 0 then
              let! _ := assert (bool_decide (new_node_type <> HARD_LINK)) in
              let v := next_addr s in
              let s := put_vnode v (VNode_init new_node_type) s <| next_addr ::= Z.add 1 |>
                         <| priv ::= fun t => t <| nodes ::= fun ns => {[v]} ∪ ns |> |> in
              Ret (put_entry e (en <| e_vnode := v |>) s)
            else Ret s in
  let! (v, vn) := vnode_of s e in
  let! inode := deref (last_inode (priv s) !! fs) in
  let d := next_addr s in
  let vn := vn <| v_fs := fs |> <| creation_time := now s |> <| modification_time := now s |>
               <| access_time := now s |> <| fs_data := d |> in
  Ret (put_vnode v vn s <| next_addr ::= Z.add 1 |>
         <| priv ::= fun t => t <| node_data ::= <[d := mkNodeData inode [] 0]> |>
                               <| last_inode ::= <[fs := u64 (inode + 1)]> |> |>).

Definition data_of (s : vfs tmpfs) (v : Z) : outcome (Z * NodeData) :=
  let! vn := deref (vnodes s !! v) in
  let! d := deref (node_data (priv s) !! fs_data vn) in
  Ret (fs_data vn, d).
Definition put_data (d : Z) (nd : NodeData) (s : vfs tmpfs) : vfs tmpfs :=
  s <| priv ::= fun t => t <| node_data ::= <[d := nd]> |> |>.

Definition stat (s : vfs tmpfs) (v : Z) : outcome fs_stat_fields :=
  let! (_, nd) := data_of s v in
  let! vn := deref (vnodes s !! v) in
  let sz := if decide (node_type vn = DIRECTORY) then sizeof_Entry else i64 (size nd) in
  Ret (mkStat (inode_num nd) sz PAGE_SIZE (i64 (Z.quot (i64 (sz + PAGE_SIZE - 1)) PAGE_SIZE)) 2).

(** The loop of [readdir] over the children. *)
Fixpoint readdir_loop (s : vfs tmpfs) (children : list Z) (i count max_size cursor : Z) (acc : list Dirent)
    : outcome (list Dirent * Z * Z) :=
  match children with
  | [] => Ret (acc, i, count)
  | c :: children =>
      let! ce := deref (entries s !! c) in
      if (i <? cursor) || (e_vnode ce =? 0) then
        readdir_loop s children (i + 1) count max_size cursor acc
      else
        let! name_len := strlen (e_name ce) in
        let entry_len := klib.align_up (sizeof_Dirent + Z.of_nat name_len + 1) 8 in
        if count + entry_len >? max_size then Ret (acc, i, count) else
        let! (_, nd) := data_of s (e_vnode ce) in
        let! vn := deref (vnodes s !! e_vnode ce) in
        let d := mkDirent (inode_num nd) i (u16 entry_len) (d_type_from_node_type (node_type vn)) (take (name_len + 1) (e_name ce)) in
        readdir_loop s children (i + 1) (count + entry_len) max_size cursor (acc ++ [d])
  end.

(** The entries stored in the buffer, the cursor and the result. *)
Definition readdir (s : vfs tmpfs) (e max_size cursor : Z) : outcome (list Dirent * Z * Z) :=
  let! en := deref (entries s !! e) in
  readdir_loop s (children_list en) 0 0 max_size cursor [].

(** ** Node *)

(** The loop of [grow_to]; it never ends when the capacity wraps to 0. *)
Fixpoint grow_capacity (fuel : nat) (cap size : Z) : option Z :=
  if cap <? size then
    match fuel with
    | O => None
    | S fuel => grow_capacity fuel (Z.max 1 (u64 (cap * 4))) size
    end
  else Some cap.
(** Capacities are powers of 4, so 33 turns reach the largest that does not wrap. *)
Definition grow_fuel : nat := 33.

Section nodes.
Context (uninit : nat -> list Z) (devices : VNodeOps tmpfs).

Definition realloc (storage : list Z) (capacity : Z) : list Z :=
  take (Z.to_nat capacity) (storage ++ uninit (Z.to_nat capacity - length storage)).

Definition grow_to (nd : NodeData) (len : Z) : outcome NodeData :=
  let nd := nd <| size := len |> in
  if capacity nd <? size nd then
    match grow_capacity grow_fuel (capacity nd) (size nd) with
    | Some cap => Ret (nd <| storage := realloc (storage nd) cap |>)
    | None => Undef
    end
  else Ret nd.

Definition is_directory (s : vfs tmpfs) (v : Z) : outcome bool :=
  let! vn := deref (vnodes s !! v) in Ret (bool_decide (node_type vn = DIRECTORY)).

(** [memcpy] out of and into the storage; outside the block is undefined. *)
Definition storage_read (st : list Z) (off count : Z) : outcome (list Z) :=
  if off + count <=? Z.of_nat (length st) then Ret (take (Z.to_nat count) (drop (Z.to_nat off) st)) else Undef.
Definition storage_write (st : list Z) (off : Z) (bytes : list Z) : outcome (list Z) :=
  if off + Z.of_nat (length bytes) <=? Z.of_nat (length st)
  then Ret (splice (Z.to_nat off) bytes st) else Undef.

Definition node_read (v : Z) (count offset : Z) (s : vfs tmpfs) : outcome (Z * list Z * vfs tmpfs) :=
  let! dir := is_directory s v in
  if dir : bool then Ret (- EISDIR, [], s) else
  let! (_, nd) := data_of s v in
  if offset >=? size nd then Ret (0, [], s) else
  let actual_count := if u64 (offset + count) >? size nd then size nd - offset else count in
  let! bytes := storage_read (storage nd) offset actual_count in
  Ret (i64 actual_count, bytes, s).

Definition node_write (v : Z) (buf : list Z) (offset : Z) (s : vfs tmpfs) : outcome (Z * vfs tmpfs) :=
  let count := Z.of_nat (length buf) in
  let! dir := is_directory s v in
  if dir : bool then Ret (- EISDIR, s) else
  let! (d, nd) := data_of s v in
  if count =? 0 then Ret (0, s) else
  let! nd := if u64 (offset + count) >? size nd then grow_to nd (u64 (offset + count)) else Ret nd in
  let! st := storage_write (storage nd) offset buf in
  Ret (i64 count, put_data d (nd <| storage := st |>) s).

Definition node_seek (v : Z) (position offset whence : Z) (s : vfs tmpfs) : outcome Z :=
  let! (_, nd) := data_of s v in
  Ret (if whence =? SEEK_SET then offset
       else if whence =? SEEK_CUR then i64 (position + offset)
       else if whence =? SEEK_END then i64 (size nd + offset)
       else if whence =? SEEK_DATA then if u64 offset >=? size nd then - ENXIO else offset
       else if whence =? SEEK_HOLE then if u64 offset >=? size nd then - ENXIO else i64 (size nd)
       else - EINVAL).

(** [memset(storage + size, 0, length - size)], after [grow_to] has set the size
    to the length: it clears nothing. *)
Definition node_truncate (v len : Z) (s : vfs tmpfs) : outcome (Z * vfs tmpfs) :=
  let! dir := is_directory s v in
  if dir : bool then Ret (- EISDIR, s) else
  let! (d, nd) := data_of s v in
  let! nd := if len >? size nd then
               let! nd := grow_to nd len in
               let! st := storage_write (storage nd) (size nd) (replicate (Z.to_nat (len - size nd)) 0) in
               Ret (nd <| storage := st |>)
             else Ret nd in
  Ret (0, put_data d (nd <| size := len |>) s).

(** ** The instances *)

Definition is_node (s : vfs tmpfs) (v : Z) : bool := bool_decide (v ∈ nodes (priv s)).

(** [tmpfs::Node] inherits [open], which accepts. *)
#[export] Instance tmpfs_vnode_ops : VNodeOps tmpfs := {
  v_open v d s := if is_node s v then Ret (0, s) else v_open v d s;
  v_read v d count off s := if is_node s v then node_read v count off s else v_read v d count off s;
  v_write v d buf off s := if is_node s v then node_write v buf off s else v_write v d buf off s;
  v_seek v d pos off whence s :=
    if is_node s v then node_seek v pos off whence s else v_seek v d pos off whence s;
  v_truncate v d len s := if is_node s v then node_truncate v len s else v_truncate v d len s
}.
End nodes.

#[export] Instance tmpfs_ops : FilesystemOps tmpfs := {
  fs_lookup := tmpfs_lookup; fs_create := tmpfs_create; fs_remove := tmpfs_remove
}.

(** [Driver::mount]: the file system is at address [fs], the next. *)
Definition tmpfs_mount (mount_entry : Z) (s : vfs tmpfs) : outcome (Z * vfs tmpfs) :=
  let fs := next_addr s in
  let s := s <| next_addr ::= Z.add 1 |> <| priv ::= fun t => t <| last_inode ::= <[fs := 2]> |> |> in
  let! s := tmpfs_create fs mount_entry DIRECTORY s in
  let! (v, vn) := vnode_of s mount_entry in
  Ret (fs, put_vnode v (vn <| fs_mounted_here := fs |>) s).

(** [vfs::init] on an empty tree, with the null entry; the drivers' table is
    HashTable.v's. *)
Definition init (now0 : TimeSpec) : outcome (vfs tmpfs) :=
  let s := mkVfs ∅ ∅ 0 0 (mkTmpfs ∅ ∅ ∅) now0 4096 in
  let! (r, s) := construct s 0 0 [0] 0 in
  let! (n, s) := construct s 0 0 [0] 0 in
  let s := s <| root := r |> <| null_entry := n |> in
  let! (_, s) := tmpfs_mount r s in
  let! (v, _) := vnode_of s r in
  let! (dot, s) := construct s v r [46; 0] r in
  let! s := add_child s r dot in
  let! (dotdot, s) := construct s v r [46; 46; 0] r in
  let! s := add_child s r dotdot in
  let! (v, vn) := vnode_of s r in
  Ret (put_vnode v (vn <| v_uid := 0 |> <| v_gid := 0 |> <| v_mode := 493 |>) s).

Definition root_fs : vfs tmpfs :=
  ret_of (mkVfs ∅ ∅ 0 0 (mkTmpfs ∅ ∅ ∅) zero_time 4096) (init zero_time).
Lemma root_fs_init : init zero_time = Ret root_fs.
Proof. vm_compute. reflexivity. Qed.

#[export] Instance tmpfs_info : FilesystemInfo tmpfs := {
  fs_stat fs v s := stat s v;
  fs_readdir fs e max_size cursor s := readdir s e max_size cursor
}.
