(* ===== verification/TmpfsProps.v ===== *)
(** * tmpfs files: contents

    A file against its specification, a sequence of bytes some of which are
    unknown: those of a hole, which the code leaves as [realloc] found them. *)

From S2P Require Import Prelude Algorithm CString TimeSpec Links Vfs Tmpfs.

(** ** The specification *)

Abbreviation file := (list (option Z)).

Definition extend (len : nat) (f : file) : file := f ++ replicate (len - length f) None.
Definition file_write (off : nat) (buf : list Z) (f : file) : file :=
  if decide (buf = []) then f else splice off (Some <$> buf) (extend (off + length buf) f).
Definition file_read (off count : nat) (f : file) : file := take count (drop off f).
Definition file_truncate (len : nat) (f : file) : file := take len (extend len f).

(** A byte read against what the file says it is. *)
Definition agrees (b : Z) (o : option Z) : Prop := match o with Some x => b = x | None => True end.

(** The bytes at the start of the storage are those of the file. *)
Record holds (nd : NodeData) (f : file) : Prop := {
  holds_size : size nd = Z.of_nat (length f);
  holds_room : (length f <= length (storage nd))%nat;
  holds_bytes : Forall2 agrees (take (length f) (storage nd)) f
}.

(** ** Growing *)

(** Sizes the capacity can reach without wrapping: 4^31. *)
Definition max_size : Z := 4611686018427387904.

Lemma grow_capacity_spec fuel : forall cap sz,
  1 <= cap -> sz <= cap * 4 ^ Z.of_nat fuel -> sz <= max_size ->
  exists c, grow_capacity fuel cap sz = Some c /\ sz <= c /\ cap <= c.
Proof.
  induction fuel as [|fuel IH]; intros cap sz Hc Hs Hm; cbn [grow_capacity];
    destruct (Z.ltb_spec cap sz); try (exists cap; split_and!; [done|lia|lia]).
  { simpl in Hs. lia. }
  unfold max_size in Hm. rewrite u64_small, Z.max_r by lia.
  destruct (IH (cap * 4) sz) as (c & ? & ? & ?); [lia| |done|exists c; split_and!; [done|lia|lia]].
  rewrite Nat2Z.inj_succ, Z.pow_succ_r in Hs by lia. lia.
Qed.

Lemma grow_capacity_eq fuel cap sz :
  grow_capacity fuel cap sz =
    if cap <? sz then match fuel with O => None | S fuel => grow_capacity fuel (Z.max 1 (u64 (cap * 4))) sz end
    else Some cap.
Proof. by destruct fuel. Qed.

Lemma grow_capacity_zero fuel sz : 0 < sz -> grow_capacity (S fuel) 0 sz = grow_capacity fuel 1 sz.
Proof. intros Hs. destruct sz; [lia|done|lia]. Qed.

#[local] Arguments grow_capacity : simpl never.

Section props.
Context (uninit : nat -> list Z) (Huninit : forall n, length (uninit n) = n).

Lemma grow_to_spec nd f len :
  holds nd f -> (length f <= len)%nat -> Z.of_nat len <= max_size ->
  exists nd', grow_to uninit nd (Z.of_nat len) = Ret nd' /\ holds nd' (extend len f).
Proof.
  intros [Hs Hr Hb] Hle Hm. unfold grow_to.
  change (capacity (nd <| size := Z.of_nat len |>)) with (capacity nd). cbn [size upd eta_NodeData].
  assert (forall st, (len <= length st)%nat -> take (length f) st = take (length f) (storage nd) ->
    holds (nd <| size := Z.of_nat len |> <| storage := st |>) (extend len f)) as Hgo.
  { intros st Hst Htk. unfold extend. split; simpl.
    - rewrite length_app, length_replicate. lia.
    - rewrite length_app, length_replicate. lia.
    - rewrite length_app, length_replicate. replace (length f + (len - length f))%nat with len by lia.
      rewrite <- (take_drop (length f) (take len st)).
      rewrite take_take, Nat.min_l by lia. apply Forall2_app; [by rewrite Htk|].
      apply Forall2_same_length_lookup. split.
      { rewrite length_drop, length_take, length_replicate. lia. }
      intros i b o _ [-> _]%lookup_replicate. done. }
  destruct (Z.ltb_spec (capacity nd) (Z.of_nat len)) as [Hlt|Hge]; simpl.
  - unfold capacity in *.
    assert (exists c, grow_capacity grow_fuel (Z.of_nat (length (storage nd))) (Z.of_nat len) = Some c /\
      Z.of_nat len <= c /\ Z.of_nat (length (storage nd)) <= c) as (c & -> & Hc1 & Hc2).
    { destruct (decide (length (storage nd) = 0%nat)) as [H0|].
      - rewrite H0. change grow_fuel with (S 32). rewrite grow_capacity_zero by lia.
        destruct (grow_capacity_spec 32 1 (Z.of_nat len)) as (c & ? & ? & ?);
          [lia|unfold max_size in Hm; simpl; lia|done|exists c; split_and!; [done|lia|lia]].
      - apply grow_capacity_spec; [lia| |done]. unfold grow_fuel, max_size in *. simpl. lia. }
    eexists. split; [done|]. apply Hgo; unfold realloc.
    + rewrite length_take, length_app, Huninit. lia.
    + rewrite take_take, Nat.min_l by lia. rewrite take_app_le by lia. done.
  - exists (nd <| size := Z.of_nat len |>). split; [done|].
    replace (nd <| size := Z.of_nat len |>) with (nd <| size := Z.of_nat len |> <| storage := storage nd |>) by done.
    apply Hgo; [unfold capacity in *; lia|done].
Qed.

Lemma holds_write nd f off buf :
  holds nd f -> buf <> [] -> (off + length buf <= length f)%nat ->
  exists st, storage_write (storage nd) (Z.of_nat off) buf = Ret st /\
    holds (nd <| storage := st |>) (splice off (Some <$> buf) f).
Proof.
  intros [Hs Hr Hb] Hne Hle. unfold storage_write. rewrite (proj2 (Z.leb_le _ _)) by lia.
  eexists. split; [done|]. rewrite Nat2Z.id.
  assert (length (splice off (Some <$> buf) f) = length f) as Hl
    by (apply length_splice; rewrite length_fmap; lia).
  split; simpl; rewrite ?Hl; [done|rewrite length_splice; lia|].
  apply Forall2_same_length_lookup. split.
  { rewrite Hl, length_take, length_splice; lia. }
  intros i b o Hb1 Ho. apply lookup_take_Some in Hb1 as [Hb1 Hi].
  rewrite lookup_splice in Hb1 by lia.
  rewrite lookup_splice in Ho by (rewrite length_fmap; lia). rewrite length_fmap in Ho.
  case_decide.
  - rewrite list_lookup_fmap, Hb1 in Ho. by simplify_eq/=.
  - eapply Forall2_lookup_lr; [exact Hb| |done]. apply lookup_take_Some. done.
Qed.

(** ** Operations of a node *)

(** Vnode [v] is a file of the tmpfs, not a directory, with contents [f]. *)
Definition is_file (s : vfs tmpfs) (v : Z) (f : file) : Prop :=
  exists vn nd, vnodes s !! v = Some vn /\ node_type vn <> DIRECTORY /\
    node_data (priv s) !! fs_data vn = Some nd /\ holds nd f.

Lemma is_file_data s v f : is_file s v f ->
  exists d nd, is_directory s v = Ret false /\ data_of s v = Ret (d, nd) /\ holds nd f /\
    forall nd' f', holds nd' f' -> is_file (put_data d nd' s) v f'.
Proof.
  intros (vn & nd & Hv & Ht & Hd & Hh). exists (fs_data vn), nd. unfold is_directory, data_of.
  rewrite Hv. cbn [deref obind]. rewrite bool_decide_false, Hd by done. split_and!; try done.
  intros nd' f' Hh'. exists vn, nd'. split_and!; try done. simpl. apply lookup_insert_eq.
Qed.

Lemma node_write_spec s v f off buf :
  is_file s v f -> Z.of_nat (off + length buf) <= max_size -> (length f <= Z.to_nat max_size)%nat ->
  exists s', node_write uninit v buf (Z.of_nat off) s = Ret (Z.of_nat (length buf), s') /\
    is_file s' v (file_write off buf f).
Proof.
  intros Hf Hm Hlf. destruct (is_file_data _ _ _ Hf) as (d & nd & Hdir & Hdata & Hh & Hput).
  unfold node_write. rewrite Hdir. cbn [obind]. rewrite Hdata. cbn [obind]. unfold file_write.
  destruct (decide (buf = [])) as [->|Hne]; [by exists s|].
  assert (0 < length buf)%nat by (destruct buf; simpl; [done|lia]).
  rewrite (proj2 (Z.eqb_neq _ _)) by lia. rewrite <- Nat2Z.inj_add. unfold max_size in *.
  rewrite u64_small by lia.
  assert (exists nd1, (if Z.of_nat (off + length buf) >? size nd
      then grow_to uninit nd (Z.of_nat (off + length buf)) else Ret nd) = Ret nd1 /\
    holds nd1 (extend (off + length buf) f)) as (nd1 & -> & Hh1).
  { destruct (Z.gtb_spec (Z.of_nat (off + length buf)) (size nd)) as [Hgt|Hle]; rewrite (holds_size _ _ Hh) in *.
    - apply grow_to_spec; [done|lia|unfold max_size; lia].
    - exists nd. split; [done|]. unfold extend. replace (off + length buf - length f)%nat with 0%nat by lia.
      by rewrite app_nil_r. }
  cbn [obind]. destruct (holds_write nd1 _ off buf Hh1 Hne) as (st & -> & Hh2).
  { unfold extend. rewrite length_app, length_replicate. lia. }
  cbn [obind]. rewrite i64_small by lia. eexists. split; [done|]. by apply Hput.
Qed.

Lemma node_read_spec s v f off count :
  is_file s v f -> Z.of_nat (off + count) <= max_size -> (length f <= Z.to_nat max_size)%nat ->
  exists bytes, node_read v (Z.of_nat count) (Z.of_nat off) s = Ret (Z.of_nat (length bytes), bytes, s) /\
    Forall2 agrees bytes (file_read off count f).
Proof.
  intros Hf Hm Hlf. destruct (is_file_data _ _ _ Hf) as (d & nd & Hdir & Hdata & [Hs Hr Hb] & _).
  unfold node_read. rewrite Hdir. cbn [obind]. rewrite Hdata. cbn [obind]. unfold file_read, max_size in *.
  rewrite Hs, Z.geb_leb. destruct (Z.leb_spec (Z.of_nat (length f)) (Z.of_nat off)).
  { exists []. split; [done|]. by rewrite drop_ge, take_nil by lia. }
  rewrite u64_small by lia.
  set (n := Z.to_nat (if Z.of_nat off + Z.of_nat count >? Z.of_nat (length f)
                      then Z.of_nat (length f) - Z.of_nat off else Z.of_nat count)).
  assert ((if Z.of_nat off + Z.of_nat count >? Z.of_nat (length f)
           then Z.of_nat (length f) - Z.of_nat off else Z.of_nat count) = Z.of_nat n /\
    n = min count (length f - off)) as [-> Hn].
  { unfold n. destruct (Z.gtb_spec (Z.of_nat off + Z.of_nat count) (Z.of_nat (length f))); lia. }
  clearbody n. unfold storage_read. rewrite (proj2 (Z.leb_le _ _)) by lia. cbn [obind].
  rewrite !Nat2Z.id. set (bytes := take n (drop off (storage nd))).
  assert (length bytes = n) as Hl by (unfold bytes; rewrite length_take, length_drop; lia).
  exists bytes. rewrite Hl, i64_small by lia. split; [done|].
  replace bytes with (take n (drop off (take (length f) (storage nd)))).
  - replace (take count (drop off f)) with (take n (drop off f)).
    + by apply Forall2_take, Forall2_drop.
    + destruct (decide (count <= length f - off)%nat); [f_equal; lia|].
      rewrite !take_ge by (rewrite length_drop; lia). done.
  - unfold bytes. rewrite !take_drop_commute. rewrite take_take. f_equal. f_equal. lia.
Qed.

Lemma node_truncate_spec s v f len :
  is_file s v f -> Z.of_nat len <= max_size -> (length f <= Z.to_nat max_size)%nat ->
  exists s', node_truncate uninit v (Z.of_nat len) s = Ret (0, s') /\ is_file s' v (file_truncate len f).
Proof.
  intros Hf Hm Hlf. destruct (is_file_data _ _ _ Hf) as (d & nd & Hdir & Hdata & Hh & Hput).
  unfold node_truncate. rewrite Hdir. cbn [obind]. rewrite Hdata. cbn [obind]. rewrite (holds_size _ _ Hh).
  unfold file_truncate. destruct (Z.gtb_spec (Z.of_nat len) (Z.of_nat (length f))) as [Hgt|Hle].
  - destruct (grow_to_spec nd f len Hh ltac:(lia) Hm) as (nd1 & -> & Hh1). cbn [obind].
    assert (length (extend len f) = len) as Hle by (unfold extend; rewrite length_app, length_replicate; lia).
    rewrite (holds_size _ _ Hh1), Hle, Z.sub_diag. change (replicate (Z.to_nat 0) 0) with (@nil Z).
    pose proof (holds_room _ _ Hh1). unfold storage_write. simpl length.
    rewrite (proj2 (Z.leb_le _ _)) by lia. cbn [obind]. rewrite splice_nil.
    eexists. split; [done|]. apply Hput. rewrite take_ge by lia.
    destruct Hh1 as [? ? ?]. split; simpl; [by rewrite Hle|done|done].
  - cbn [obind]. eexists. split; [done|]. apply Hput. unfold extend.
    replace (len - length f)%nat with 0%nat by lia. rewrite app_nil_r.
    destruct Hh as [Hs Hr Hb]. split; simpl; rewrite ?length_take, ?Nat.min_l by lia; [done|lia|].
    replace (take len (storage nd)) with (take len (take (length f) (storage nd)))
      by (rewrite take_take, Nat.min_l by lia; done).
    by apply Forall2_take.
Qed.
End props.

(** ** Runs of operations *)

Inductive file_op :=
| OpWrite (off : nat) (buf : list Z)
| OpRead (off count : nat)
| OpTruncate (len : nat).

(** The file after an operation and what a read returns. *)
Definition op_file (o : file_op) (f : file) : file * file :=
  match o with
  | OpWrite off buf => (file_write off buf f, [])
  | OpRead off count => (f, file_read off count f)
  | OpTruncate len => (file_truncate len f, [])
  end.
(** The number it returns. *)
Definition op_result (o : file_op) (r : file) : Z :=
  match o with
  | OpWrite _ buf => Z.of_nat (length buf)
  | OpRead _ _ => Z.of_nat (length r)
  | OpTruncate _ => 0
  end.
Definition op_end (o : file_op) : nat :=
  match o with OpWrite off buf => off + length buf | OpRead off n => off + n | OpTruncate n => n end.

(** The results and the bytes read by a run on vnode [v]. *)
Fixpoint run_file (uninit : nat -> list Z) (v : Z) (os : list file_op) (s : vfs tmpfs)
    : outcome (list (Z * list Z) * vfs tmpfs) :=
  match os with
  | [] => Ret ([], s)
  | o :: os =>
      let! (r, s) := match o with
                     | OpWrite off buf => let! (n, s) := node_write uninit v buf (Z.of_nat off) s in Ret ((n, []), s)
                     | OpRead off count => node_read v (Z.of_nat count) (Z.of_nat off) s
                     | OpTruncate len => let! (n, s) := node_truncate uninit v (Z.of_nat len) s in Ret ((n, []), s)
                     end in
      let! (rs, s) := run_file uninit v os s in Ret (r :: rs, s)
  end.
Fixpoint spec_file (os : list file_op) (f : file) : list (Z * file) * file :=
  match os with
  | [] => ([], f)
  | o :: os =>
      let '(f, r) := op_file o f in
      let '(rs, f) := spec_file os f in ((op_result o r, r) :: rs, f)
  end.

Lemma length_file_write off buf f n :
  (off + length buf <= n)%nat -> (length f <= n)%nat -> (length (file_write off buf f) <= n)%nat.
Proof.
  intros. unfold file_write. case_decide; [done|]. unfold extend.
  rewrite length_splice; rewrite ?length_fmap, length_app, length_replicate; lia.
Qed.

(** C7. A tmpfs file implements a sequence of bytes: any run of writes, reads and
    truncations of a node, up to offsets of 4^31 and on any memory [realloc] may
    return, is defined and returns what the sequence returns: a write its length,
    a read as many bytes as the file has in the interval, each byte last written
    there. A byte of a hole, left by a write past the end or by a truncation to a
    greater length, may read as anything. *)
Theorem tmpfs_refines_file uninit os s v f :
  (forall n, length (uninit n) = n) -> is_file s v f -> Z.of_nat (length f) <= max_size ->
  Forall (fun o => Z.of_nat (op_end o) <= max_size) os ->
  exists rs s', run_file uninit v os s = Ret (rs, s') /\
    Forall2 (fun r r' => fst r = fst r' /\ Forall2 agrees (snd r) (snd r')) rs (fst (spec_file os f)) /\
    is_file s' v (snd (spec_file os f)).
Proof.
  intros Hu Hf Hlf Hos. revert s f Hf Hlf. induction Hos as [|o os Ho _ IH]; intros s f Hf Hlf; [by exists [], s|].
  assert (length f <= Z.to_nat max_size)%nat as Hlf' by lia.
  destruct o as [off buf|off count|len]; simpl in Ho |- *.
  - destruct (node_write_spec uninit Hu s v f off buf Hf Ho Hlf') as (s1 & -> & Hf1). cbn [obind].
    destruct (IH s1 _ Hf1) as (rs & s' & -> & Hrs & Hf').
    { pose proof (length_file_write off buf f (Z.to_nat max_size)). unfold max_size in *. lia. }
    destruct (spec_file os _) as [rs' f']. simpl in *. eexists _, s'. split; [done|]. split; [|done].
    constructor; [|done]. split; [done|constructor].
  - destruct (node_read_spec s v f off count Hf Ho Hlf') as (bytes & -> & Hb). cbn [obind].
    destruct (IH s _ Hf Hlf) as (rs & s' & -> & Hrs & Hf').
    destruct (spec_file os _) as [rs' f']. simpl in *. eexists _, s'. split; [done|]. split; [|done].
    constructor; [|done]. split; [|done]. simpl. by rewrite (Forall2_length _ _ _ Hb).
  - destruct (node_truncate_spec uninit Hu s v f len Hf Ho Hlf') as (s1 & -> & Hf1). cbn [obind].
    destruct (IH s1 _ Hf1) as (rs & s' & -> & Hrs & Hf').
    { unfold file_truncate. rewrite length_take. lia. }
    destruct (spec_file os _) as [rs' f']. simpl in *. eexists _, s'. split; [done|]. split; [|done].
    constructor; [|done]. split; [done|constructor].
Qed.

(** An empty file, node 1, and memory in which [realloc] finds the byte 170. *)
Definition one_file : vfs tmpfs :=
  mkVfs {[1 := VNode_init REGULAR <| fs_data := 2 |>]} ∅ 0 0
    (mkTmpfs {[2 := mkNodeData 7 [] 0]} {[1]} ∅) zero_time 100.
Definition dirty (n : nat) : list Z := replicate n 170.

Lemma one_file_empty : is_file one_file 1 [].
Proof.
  exists (VNode_init REGULAR <| fs_data := 2 |>), (mkNodeData 7 [] 0). split_and!; try done.
Qed.

Definition file_run : list file_op :=
  [OpWrite 0 [1; 2; 3]; OpWrite 5 [4]; OpRead 0 10; OpTruncate 2; OpRead 0 10; OpTruncate 4; OpRead 1 2].

Lemma tmpfs_refines_file_witness :
  fst (spec_file file_run []) =
    [(3, []); (1, []); (6, [Some 1; Some 2; Some 3; None; None; Some 4]); (0, []); (2, [Some 1; Some 2]);
     (0, []); (2, [Some 2; None])] /\
  exists rs s', run_file dirty 1 file_run one_file = Ret (rs, s') /\
    Forall2 (fun r r' => fst r = fst r' /\ Forall2 agrees (snd r) (snd r')) rs (fst (spec_file file_run [])) /\
    is_file s' 1 (snd (spec_file file_run [])).
Proof.
  split; [reflexivity|]. apply tmpfs_refines_file.
  - intros n. apply length_replicate.
  - apply one_file_empty.
  - vm_compute. discriminate.
  - repeat constructor; vm_compute; discriminate.
Defined.

(** ** What the code does not do *)

(** [truncate] to a greater length does not clear the bytes it adds: those of the
    old contents, or of the memory, show through. *)
Lemma truncate_does_not_clear :
  match run_file dirty 1 [OpWrite 0 [1; 2; 3]; OpTruncate 1; OpTruncate 4; OpRead 0 4] one_file with
  | Ret (rs, _) => last rs = Some (4, [1; 2; 3; 170])
  | _ => False
  end.
Proof. vm_compute. reflexivity. Qed.

(** A length past 4^31 wraps the capacity around to 0: the loop of [grow_to] does
    not end, whatever the number of turns. *)
Lemma grow_capacity_diverges fuel : grow_capacity fuel 0 (max_size + 1) = None.
Proof.
  assert (forall n fuel, (n <= 31)%nat -> grow_capacity fuel (4 ^ Z.of_nat n) (max_size + 1) = None) as H.
  2:{ destruct fuel as [|fuel]; [done|]. apply (H 0%nat). lia. }
  intros n fuel0. revert n. induction fuel0 as [fuel0 IH] using lt_wf_ind. intros n Hn.
  assert ((4 ^ Z.of_nat n <? max_size + 1) = true) as Hlt.
  { apply Z.ltb_lt. assert (4 ^ Z.of_nat n <= 4 ^ 31) by (apply Z.pow_le_mono_r; lia).
    unfold max_size. change (4 ^ 31) with 4611686018427387904 in *. lia. }
  rewrite grow_capacity_eq, Hlt. destruct fuel0 as [|fuel0]; [done|].
  destruct (decide (n = 31%nat)) as [->|].
  - change (Z.max 1 (u64 (4 ^ Z.of_nat 31 * 4))) with 1. apply (IH fuel0 ltac:(lia) 0%nat). lia.
  - rewrite u64_small.
    + rewrite Z.max_r by (assert (0 < 4 ^ Z.of_nat n) by (apply Z.pow_pos_nonneg; lia); lia).
      rewrite Z.mul_comm, <- Z.pow_succ_r, <- Nat2Z.inj_succ by lia. apply IH; lia.
    + assert (4 ^ Z.of_nat n <= 4 ^ 30) by (apply Z.pow_le_mono_r; lia).
      assert (0 < 4 ^ Z.of_nat n) by (apply Z.pow_pos_nonneg; lia).
      change (4 ^ 30) with 1152921504606846976 in *. lia.
Qed.
