(* ===== verification/VfsCalls.v ===== *)
(** * The calls on files (fs/vfs.cpp)

    Each call is made by process [p] of the kernel [k] (its current thread [t] where
    the code uses it) on the file system [s]; [depth] is the nesting of symbolic
    links the kernel stack has room for. Buffers are the bytes stored in them. *)

From S2P Require Import Prelude CString TimeSpec Context Cred Vector Links Sched FdTable Vfs.

(** ** Constants *)
Definition O_CREAT : Z := 64.
Definition O_EXCL : Z := 128.
Definition O_TRUNC : Z := 512.
Definition O_DIRECTORY : Z := 65536.
Definition O_NOFOLLOW : Z := 131072.
Definition O_CLOEXEC : Z := 524288.
Definition AT_SYMLINK_NOFOLLOW : Z := 256.
Definition AT_REMOVEDIR : Z := 512.
Definition AT_EMPTY_PATH : Z := 4096.
Definition SEEK_END_ : Z := 2.
(** [S_IFREG] and the others; their union is [MODE_TYPE_MASK]. *)
Definition S_IFIFO : Z := 4096.
Definition S_IFCHR : Z := 8192.
Definition S_IFDIR : Z := 16384.
Definition S_IFBLK : Z := 24576.
Definition S_IFREG : Z := 32768.
Definition S_IFLNK : Z := 40960.
Definition S_IFSOCK : Z := 49152.
Definition MODE_TYPE_MASK : Z := 61440.

Section calls.
Context {D : Type} `{FilesystemOps D} `{VNodeOps D} (depth : nat).
Implicit Types (k : kernel) (s : vfs D) (path : mem).

(** A result with the two states. *)
Abbreviation result := (outcome (Z * kernel * vfs D)).

(** ** Starting points *)

(** The error, or the starting point (0 when the path is absolute). *)
Definition get_starting_point k s (p dirfd : Z) path : outcome (Z + Z) :=
  let! c := deref (head path) in
  if c =? slash then Ret (inr 0) else
  let! pr := deref (processes k !! p) in
  if dirfd =? AT_FDCWD then Ret (inr (cwd pr)) else
  let! d := get_file_description k p dirfd in
  match d with
  | None => Ret (inl (- EBADF))
  | Some d =>
      let! desc := deref (descriptions k !! d) in
      let! vn := deref (vnodes s !! d_vnode desc) in
      if decide (node_type vn <> DIRECTORY) then Ret (inl (- ENOTDIR)) else Ret (inr (d_entry desc))
  end.

(** Resolves [path] from [dirfd]; the error, or the entry found. *)
Definition resolve_at k s (p dirfd : Z) path (follow : bool) : outcome ((Z + Z) * vfs D) :=
  let! sp := get_starting_point k s p dirfd path in
  match sp with
  | inl err => Ret (inl err, s)
  | inr sp => let! (e, s) := path_to_entry depth path sp follow s in Ret (inr e, s)
  end.

(** [path] is [None] for a null pointer. *)
Definition get_vnode_from_dirfd_path k s (p fd : Z) (path : option mem) (flags : Z)
    : outcome ((Z + Z) * vfs D) :=
  let! empty := match path with
                | None => Ret true
                | Some m => let! c := deref (head m) in Ret (c =? 0)
                end in
  if (flags &? AT_EMPTY_PATH) && empty then
    if fd =? AT_FDCWD then
      let! pr := deref (processes k !! p) in
      let! en := deref (entries s !! cwd pr) in Ret (inr (e_vnode en), s)
    else
      let! d := get_file_description k p fd in
      match d with
      | None => Ret (inl (- EBADF), s)
      | Some d => let! desc := deref (descriptions k !! d) in Ret (inr (d_vnode desc), s)
      end
  else
    let! m := deref path in
    let! (r, s) := resolve_at k s p fd m (negb (flags &? AT_SYMLINK_NOFOLLOW)) in
    match r with
    | inl err => Ret (inl err, s)
    | inr e =>
        let! en := deref (entries s !! e) in
        if e_vnode en =? 0 then Ret (inl (- ENOENT), s) else
        let! e := reduce s e in
        let! en := deref (entries s !! e) in
        Ret (inr (e_vnode en), s)
    end.

(** ** Opening *)

(** [FileDescription(entry, flags)]; its address is [next_obj]. *)
Definition new_description k s (e flags : Z) : outcome (Z * FileDescription * kernel * vfs D) :=
  let! (v, vn) := vnode_of s e in
  let d := next_obj k in
  Ret (d, mkDescription v e 0 flags 1, k <| next_obj ::= Z.add 1 |>,
       put_vnode v (vn <| v_ref_count ::= Z.add 1 |>) s).

(** What [openat] decides on an entry with a vnode: the error, or whether it is to
    truncate. *)
Definition open_existing (vn : VNode) (flags : Z) : outcome (Z + bool) :=
  if decide (node_type vn = SYMLINK) then
    let! _ := assert (flags &? O_NOFOLLOW) in Ret (inl (- ELOOP))
  else if flags &? O_EXCL then Ret (inl (- EEXIST))
  else if decide (node_type vn = DIRECTORY) then
    if (Z.land flags O_ACCMODE =? O_RDWR) || (Z.land flags O_ACCMODE =? O_WRONLY) || (flags &? O_CREAT)
    then Ret (inl (- EISDIR)) else Ret (inr false)
  else if flags &? O_DIRECTORY then Ret (inl (- ENOTDIR))
  else Ret (inr ((flags &? O_TRUNC) && bool_decide (node_type vn = REGULAR))).

(** The entry to open, made if it is to be: the error, or the entry and whether to
    truncate it. *)
Definition open_entry k s (t p e flags mode : Z) : outcome ((Z + Z * bool) * vfs D) :=
  let! en := deref (entries s !! e) in
  if e_vnode en =? 0 then
    if negb (flags &? O_CREAT) then Ret (inl (- ENOENT), s) else
    if e_parent en =? 0 then Ret (inl (- ENOENT), s) else
    let! th := deref (threads k !! t) in
    let! pr := deref (processes k !! p) in
    let! s := entry_create s e REGULAR (eid (uids (cred th))) (eid (gids (cred th))) (mode &~ umask pr) in
    Ret (inr (e, false), s)
  else
    let! vn := deref (vnodes s !! e_vnode en) in
    let! r := open_existing vn flags in
    Ret (match r with inl err => inl err | inr tr => inr (e, tr) end, s).

Definition openat_impl k s (t p dirfd : Z) path (flags mode : Z) : result :=
  let! (r, s) := resolve_at k s p dirfd path (negb (flags &? O_NOFOLLOW)) in
  match r with
  | inl err => Ret (err, k, s)
  | inr e =>
      let! (r, s) := open_entry k s t p e flags mode in
      match r with
      | inl err => Ret (err, k, s)
      | inr (e, should_truncate) =>
          let! (d, desc, k, s) := new_description k s e (flags &~ O_CLOEXEC) in
          let! (err, s) := v_open (d_vnode desc) (Some d) s in
          if negb (err =? 0) then
            let! vn := deref (vnodes s !! d_vnode desc) in
            Ret (err, k <| closed ::= cons d |>, put_vnode (d_vnode desc) (vn <| v_ref_count ::= fun n => n - 1 |>) s)
          else
          let! s := if should_truncate : bool
                    then let! (_, s) := v_truncate (d_vnode desc) (Some d) 0 s in Ret s else Ret s in
          let! pr := deref (processes k !! p) in
          let! (fd, pr, _) := allocate_fdnum pr 0 in
          let! k := install (put_process p pr k) p fd d (if flags &? O_CLOEXEC then FD_CLOEXEC else 0) desc in
          Ret (fd, k, s)
      end
  end.

Definition syscall_openat k s (t p dirfd : Z) path (flags mode : Z) : result :=
  openat_impl k s t p dirfd path flags mode.
Definition syscall_open k s (t p : Z) path (flags mode : Z) : result :=
  openat_impl k s t p AT_FDCWD path flags mode.
Definition syscall_creat k s (t p : Z) path (mode : Z) : result :=
  openat_impl k s t p AT_FDCWD path (O_CREAT .| O_WRONLY .| O_TRUNC) mode.

Definition mkdirat_impl k s (t p dirfd : Z) path (mode : Z) : outcome (Z * vfs D) :=
  let! (r, s) := resolve_at k s p dirfd path true in
  match r with
  | inl err => Ret (err, s)
  | inr e =>
      let! en := deref (entries s !! e) in
      if negb (e_vnode en =? 0) then Ret (- EEXIST, s) else
      if e_parent en =? 0 then Ret (- ENOENT, s) else
      let! th := deref (threads k !! t) in
      let! pr := deref (processes k !! p) in
      let! s := entry_create s e DIRECTORY (eid (uids (cred th))) (eid (gids (cred th)))
                  (Z.land (mode &~ umask pr) 511) in
      Ret (0, s)
  end.

Definition syscall_mkdirat k s (t p dirfd : Z) path (mode : Z) : outcome (Z * vfs D) :=
  mkdirat_impl k s t p dirfd path mode.
Definition syscall_mkdir k s (t p : Z) path (mode : Z) : outcome (Z * vfs D) :=
  mkdirat_impl k s t p AT_FDCWD path mode.

(** ** Reading and writing *)

(** Runs [f] on the description of [fd], or fails with EBADF. *)
Definition with_description {A} k (p fd : Z) (none : A) (f : Z -> FileDescription -> outcome A) : outcome A :=
  let! d := get_file_description k p fd in
  match d with
  | None => Ret none
  | Some d => let! desc := deref (descriptions k !! d) in f d desc
  end.

Definition advance_cursor k (d : Z) (desc : FileDescription) (ret : Z) : kernel :=
  put_description d (desc <| cursor := u64 (cursor desc + ret) |>) k.

Definition syscall_read k s (p fd count : Z) : outcome (Z * list Z * kernel * vfs D) :=
  with_description k p fd (- EBADF, [], k, s) (fun d desc =>
    let! (ret, bytes, s) := v_read (d_vnode desc) (Some d) count (cursor desc) s in
    if ret <? 0 then Ret (ret, bytes, k, s) else
    Ret (ret, bytes, advance_cursor k d desc ret, s)).

Definition seek_to_end_if_append k s (d : Z) (desc : FileDescription) : outcome (FileDescription * kernel) :=
  if d_flags desc &? O_APPEND then
    let! ret := v_seek (d_vnode desc) (Some d) (cursor desc) 0 SEEK_END_ s in
    if ret >=? 0 then
      let desc := desc <| cursor := ret |> in Ret (desc, put_description d desc k)
    else Ret (desc, k)
  else Ret (desc, k).

Definition syscall_write k s (p fd : Z) (buf : list Z) : result :=
  with_description k p fd (- EBADF, k, s) (fun d desc =>
    let! (desc, k) := seek_to_end_if_append k s d desc in
    let! (ret, s) := v_write (d_vnode desc) (Some d) buf (cursor desc) s in
    if ret <? 0 then Ret (ret, k, s) else
    Ret (ret, advance_cursor k d desc ret, s)).

Definition syscall_pread64 k s (p fd count offset : Z) : outcome (Z * list Z * vfs D) :=
  with_description k p fd (- EBADF, [], s) (fun d desc =>
    v_read (d_vnode desc) (Some d) count offset s).

Definition syscall_pwrite64 k s (p fd : Z) (buf : list Z) (offset : Z) : outcome (Z * vfs D) :=
  with_description k p fd (- EBADF, s) (fun d desc =>
    v_write (d_vnode desc) (Some d) buf offset s).

(** [VNode::readv]: the lengths of the buffers; the bytes of each that was read. *)
Fixpoint vnode_readv s (v : Z) (d : option Z) (iovs : list Z) (offset transferred : Z) (acc : list (list Z))
    : outcome (Z * list (list Z) * vfs D) :=
  match iovs with
  | [] => Ret (i64 transferred, acc, s)
  | len :: iovs =>
      if len =? 0 then vnode_readv s v d iovs offset transferred acc else
      let! (ret, bytes, s) := v_read v d len offset s in
      if ret <? 0 then Ret (if negb (transferred =? 0) then i64 transferred else ret, acc, s) else
      let transferred := u64 (transferred + ret) in
      if ret <? i64 len then Ret (i64 transferred, acc ++ [bytes], s) else
      vnode_readv s v d iovs (u64 (offset + ret)) transferred (acc ++ [bytes])
  end.

(** [VNode::writev], with the buffers. *)
Fixpoint vnode_writev s (v : Z) (d : option Z) (iovs : list (list Z)) (offset transferred : Z)
    : outcome (Z * vfs D) :=
  match iovs with
  | [] => Ret (i64 transferred, s)
  | buf :: iovs =>
      let len := Z.of_nat (length buf) in
      if len =? 0 then vnode_writev s v d iovs offset transferred else
      let! (ret, s) := v_write v d buf offset s in
      if ret <? 0 then Ret (if negb (transferred =? 0) then i64 transferred else ret, s) else
      let transferred := u64 (transferred + ret) in
      if ret <? len then Ret (i64 transferred, s) else
      vnode_writev s v d iovs (u64 (offset + ret)) transferred
  end.

Definition syscall_readv k s (p fd : Z) (iovs : list Z) : outcome (Z * list (list Z) * kernel * vfs D) :=
  with_description k p fd (- EBADF, [], k, s) (fun d desc =>
    let! (ret, bytes, s) := vnode_readv s (d_vnode desc) (Some d) iovs (cursor desc) 0 [] in
    if ret <? 0 then Ret (ret, bytes, k, s) else
    Ret (ret, bytes, advance_cursor k d desc ret, s)).

Definition syscall_writev k s (p fd : Z) (iovs : list (list Z)) : result :=
  with_description k p fd (- EBADF, k, s) (fun d desc =>
    let! (desc, k) := seek_to_end_if_append k s d desc in
    let! (ret, s) := vnode_writev s (d_vnode desc) (Some d) iovs (cursor desc) 0 in
    if ret <? 0 then Ret (ret, k, s) else
    Ret (ret, advance_cursor k d desc ret, s)).

Definition syscall_preadv k s (p fd : Z) (iovs : list Z) (offset_low offset_high : Z)
    : outcome (Z * list (list Z) * vfs D) :=
  with_description k p fd (- EBADF, [], s) (fun d desc =>
    vnode_readv s (d_vnode desc) (Some d) iovs (u64 (Z.shiftl offset_high 32) .| offset_low) 0 []).

Definition syscall_pwritev k s (p fd : Z) (iovs : list (list Z)) (offset_low offset_high : Z)
    : outcome (Z * vfs D) :=
  with_description k p fd (- EBADF, s) (fun d desc =>
    vnode_writev s (d_vnode desc) (Some d) iovs (u64 (Z.shiftl offset_high 32) .| offset_low) 0).

Definition syscall_lseek k s (p fd offset whence : Z) : outcome (Z * kernel) :=
  with_description k p fd (- EBADF, k) (fun d desc =>
    let! ret := v_seek (d_vnode desc) (Some d) (cursor desc) offset whence s in
    if ret >=? 0 then Ret (ret, put_description d (desc <| cursor := ret |>) k) else Ret (ret, k)).
End calls.
