(* ===== verification/VfsTree.v ===== *)
(** * The calls on the tree (fs/vfs.cpp): links, directories, attributes

    As in VfsCalls.v, made by process [p] of [k] on [s]. A [stat] leaves out the
    device numbers. *)

From S2P Require Import Prelude CString TimeSpec Context Cred Vector Links Sched FdTable Vfs VfsCalls.

Section tree.
Context {D : Type} `{FilesystemOps D} `{VNodeOps D} `{FilesystemInfo D} (depth : nat).
Implicit Types (k : kernel) (s : vfs D) (path : mem).

(** ** The current directory *)

Definition syscall_chdir k s (p : Z) path : outcome (Z * kernel * vfs D) :=
  let! pr := deref (processes k !! p) in
  let! (e, s) := path_to_entry depth path (cwd pr) true s in
  let! en := deref (entries s !! e) in
  if e_vnode en =? 0 then Ret (- ENOENT, k, s) else
  let! vn := deref (vnodes s !! e_vnode en) in
  if decide (node_type vn <> DIRECTORY) then Ret (- ENOTDIR, k, s) else
  Ret (0, put_process p (pr <| cwd := e |>) k, s).

Definition syscall_fchdir k s (p fd : Z) : outcome (Z * kernel) :=
  let! d := get_file_description k p fd in
  match d with
  | None => Ret (- EBADF, k)
  | Some d =>
      let! desc := deref (descriptions k !! d) in
      if d_entry desc =? 0 then Ret (- EBADF, k) else
      let! vn := deref (vnodes s !! d_vnode desc) in
      if decide (node_type vn <> DIRECTORY) then Ret (- ENOTDIR, k) else
      let! pr := deref (processes k !! p) in
      Ret (0, put_process p (pr <| cwd := d_entry desc |>) k)
  end.

(** [Entry::print_path]: the characters put, by the entries from the root down;
    [depth] bounds the nesting, as for links. *)
Fixpoint print_path (fuel : nat) s (e : Z) : outcome (list Z) :=
  match fuel with
  | O => Undef
  | S fuel =>
      let! en := deref (entries s !! e) in
      let! above := if e_parent en =? 0 then Ret [] else
                    let! pe := deref (entries s !! e_parent en) in
                    if e_parent pe =? 0 then Ret [] else print_path fuel s (e_parent en) in
      let! n := strlen (e_name en) in
      Ret (above ++ slash :: take n (e_name en))
  end.

(** The buffer written, cut to [size - 1] characters. *)
Definition syscall_getcwd k s (p sz : Z) : outcome (Z * list Z) :=
  let! pr := deref (processes k !! p) in
  let! chars := print_path depth s (cwd pr) in
  let written := take (Z.to_nat (sz - 1)) chars in
  if Z.of_nat (length written) + 1 >=? sz then Ret (- ERANGE, written) else Ret (0, written ++ [0]).

Definition syscall_getdents64 k s (p fd max_size : Z) : outcome (Z * list Dirent * kernel) :=
  with_description k p fd (- EBADF, [], k) (fun d desc =>
    let! vn := deref (vnodes s !! d_vnode desc) in
    if decide (node_type vn <> DIRECTORY) then Ret (- ENOTDIR, [], k) else
    let! e := reduce s (d_entry desc) in
    let! (dirents, cur, ret) := fs_readdir (v_fs vn) e max_size (cursor desc) s in
    Ret (ret, dirents, put_description d (desc <| cursor := cur |>) k)).

(** ** Removing, renaming, linking *)

Definition unlinkat_impl k s (p dirfd : Z) path (flags : Z) : outcome (Z * vfs D) :=
  let! (r, s) := resolve_at depth k s p dirfd path true in
  match r with
  | inl err => Ret (err, s)
  | inr e =>
      let! en := deref (entries s !! e) in
      if e_vnode en =? 0 then Ret (- ENOENT, s) else
      let! vn := deref (vnodes s !! e_vnode en) in
      if decide (node_type vn = DIRECTORY) then
        if negb (flags &? AT_REMOVEDIR) then Ret (- EISDIR, s)
        else let! s := entry_remove s e in Ret (0, s)
      else let! s := entry_remove s e in Ret (0, s)
  end.

Definition syscall_unlinkat k s (p dirfd : Z) path (flags : Z) : outcome (Z * vfs D) :=
  unlinkat_impl k s p dirfd path flags.
Definition syscall_unlink k s (p : Z) path : outcome (Z * vfs D) := unlinkat_impl k s p AT_FDCWD path 0.
Definition syscall_rmdir k s (p : Z) path : outcome (Z * vfs D) :=
  unlinkat_impl k s p AT_FDCWD path AT_REMOVEDIR.

Definition set_entry_vnode s (e v : Z) : outcome (vfs D) :=
  let! en := deref (entries s !! e) in Ret (put_entry e (en <| e_vnode := v |>) s).

Definition renameat_impl k s (p old_dirfd : Z) (old_path : mem) (new_dirfd : Z) (new_path : mem)
    : outcome (Z * vfs D) :=
  let! (r, s) := resolve_at depth k s p old_dirfd old_path true in
  match r with
  | inl err => Ret (err, s)
  | inr old_entry =>
      let! oe := deref (entries s !! old_entry) in
      if e_vnode oe =? 0 then Ret (- ENOENT, s) else
      let! (r, s) := resolve_at depth k s p new_dirfd new_path true in
      match r with
      | inl err => Ret (err, s)
      | inr new_entry =>
          let! ne := deref (entries s !! new_entry) in
          let! s := if negb (e_vnode ne =? 0) then entry_remove s new_entry else Ret s in
          let! oe := deref (entries s !! old_entry) in
          let! s := set_entry_vnode s new_entry (e_vnode oe) in
          let! s := entry_create s new_entry HARD_LINK no_id no_id no_id in
          let! s := entry_remove s old_entry in
          Ret (0, s)
      end
  end.

Definition syscall_renameat k s (p old_dirfd : Z) (old_path : mem) (new_dirfd : Z) (new_path : mem)
    : outcome (Z * vfs D) :=
  renameat_impl k s p old_dirfd old_path new_dirfd new_path.
Definition syscall_rename k s (p : Z) (old_path new_path : mem) : outcome (Z * vfs D) :=
  renameat_impl k s p AT_FDCWD old_path AT_FDCWD new_path.

Definition linkat_impl k s (p old_dirfd : Z) (old_path : mem) (new_dirfd : Z) (new_path : mem)
    : outcome (Z * vfs D) :=
  let! (r, s) := resolve_at depth k s p old_dirfd old_path true in
  match r with
  | inl err => Ret (err, s)
  | inr old_entry =>
      let! oe := deref (entries s !! old_entry) in
      if e_vnode oe =? 0 then Ret (- ENOENT, s) else
      let! (r, s) := resolve_at depth k s p new_dirfd new_path true in
      match r with
      | inl err => Ret (err, s)
      | inr new_entry =>
          let! ne := deref (entries s !! new_entry) in
          if negb (e_vnode ne =? 0) then Ret (- EEXIST, s) else
          let! oe := deref (entries s !! old_entry) in
          let! s := set_entry_vnode s new_entry (e_vnode oe) in
          let! s := entry_create s new_entry HARD_LINK no_id no_id no_id in
          Ret (0, s)
      end
  end.

Definition syscall_linkat k s (p old_dirfd : Z) (old_path : mem) (new_dirfd : Z) (new_path : mem)
    (flags : Z) : outcome (Z * vfs D) :=
  linkat_impl k s p old_dirfd old_path new_dirfd new_path.
Definition syscall_link k s (p : Z) (old_path new_path : mem) : outcome (Z * vfs D) :=
  linkat_impl k s p AT_FDCWD old_path AT_FDCWD new_path.

Definition symlinkat_impl k s (t p : Z) (target_path : mem) (dirfd : Z) (link_path : mem)
    : outcome (Z * vfs D) :=
  let! (r, s) := resolve_at depth k s p dirfd link_path true in
  match r with
  | inl err => Ret (err, s)
  | inr e =>
      let! en := deref (entries s !! e) in
      if e_parent en =? 0 then Ret (- ENOENT, s) else
      if negb (e_vnode en =? 0) then Ret (- EEXIST, s) else
      let! th := deref (threads k !! t) in
      let! s := entry_create s e SYMLINK (eid (uids (cred th))) (eid (gids (cred th))) 511 in
      let! en := deref (entries s !! e) in
      let! n := strlen target_path in
      let! (_, s) := v_write (e_vnode en) None (take n target_path) 0 s in
      Ret (0, s)
  end.

Definition syscall_symlinkat k s (t p : Z) (target_path : mem) (dirfd : Z) (link_path : mem)
    : outcome (Z * vfs D) :=
  symlinkat_impl k s t p target_path dirfd link_path.
Definition syscall_symlink k s (t p : Z) (target_path link_path : mem) : outcome (Z * vfs D) :=
  symlinkat_impl k s t p target_path AT_FDCWD link_path.

Definition readlinkat_impl k s (p dirfd : Z) path (count : Z) : outcome (Z * list Z * vfs D) :=
  let! (r, s) := resolve_at depth k s p dirfd path false in
  match r with
  | inl err => Ret (err, [], s)
  | inr e =>
      let! en := deref (entries s !! e) in
      if e_vnode en =? 0 then Ret (- ENOENT, [], s) else
      let! vn := deref (vnodes s !! e_vnode en) in
      if decide (node_type vn <> SYMLINK) then Ret (- EINVAL, [], s) else
      v_read (e_vnode en) None count 0 s
  end.

Definition syscall_readlinkat k s (p dirfd : Z) path (count : Z) : outcome (Z * list Z * vfs D) :=
  readlinkat_impl k s p dirfd path count.
Definition syscall_readlink k s (p : Z) path (count : Z) : outcome (Z * list Z * vfs D) :=
  readlinkat_impl k s p AT_FDCWD path count.

(** [mknodat]: the vnodes of devices and pipes are made elsewhere; [device] is
    [create_node] of each type of device, the address and the vnode if there is one. *)
Definition mknodat_impl (device : NodeType -> Z -> option (Z * VNode)) (fifo : Z * VNode)
    k s (t p dirfd : Z) path (mode dev : Z) : outcome (Z * vfs D) :=
  let! (r, s) := resolve_at depth k s p dirfd path true in
  match r with
  | inl err => Ret (err, s)
  | inr e =>
      let! en := deref (entries s !! e) in
      if negb (e_vnode en =? 0) then Ret (- EEXIST, s) else
      if e_parent en =? 0 then Ret (- ENOENT, s) else
      let! th := deref (threads k !! t) in
      let! pr := deref (processes k !! p) in
      let requested_type := Z.land mode MODE_TYPE_MASK in
      let mode := mode &~ MODE_TYPE_MASK in
      let with_vnode v vn := let! s := set_entry_vnode s e v in Ret (put_vnode v vn s) in
      let finish node_type s :=
        let! s := entry_create s e node_type (eid (uids (cred th))) (eid (gids (cred th)))
                    (Z.land (mode &~ umask pr) 511) in
        Ret (0, s) in
      if (requested_type =? 0) || (requested_type =? S_IFREG) then finish REGULAR s
      else if (requested_type =? S_IFCHR) || (requested_type =? S_IFBLK) then
        let node_type := if requested_type =? S_IFCHR then CHAR_DEVICE else BLOCK_DEVICE in
        match device node_type dev with
        | None => Ret (- EINVAL, s)
        | Some (v, vn) => let! s := with_vnode v vn in finish node_type s
        end
      else if requested_type =? S_IFIFO then
        let! s := with_vnode (fst fifo) (snd fifo) in finish FIFO s
      else Ret (- EINVAL, s)
  end.

Definition syscall_mknodat device fifo k s (t p dirfd : Z) path (mode dev : Z) : outcome (Z * vfs D) :=
  mknodat_impl device fifo k s t p dirfd path mode dev.
Definition syscall_mknod device fifo k s (t p : Z) path (mode dev : Z) : outcome (Z * vfs D) :=
  mknodat_impl device fifo k s t p AT_FDCWD path mode dev.

(** ** Attributes *)

Record file_stat := mkFileStat {
  fst_mode : Z; fst_uid : Z; fst_gid : Z;
  fst_atim : TimeSpec; fst_mtim : TimeSpec; fst_ctim : TimeSpec;
  fst_fields : option fs_stat_fields
}.

(** The type bits; an unsupported type has none. *)
Definition type_bits (t : NodeType) : Z :=
  match t with
  | REGULAR => S_IFREG | DIRECTORY => S_IFDIR | BLOCK_DEVICE => S_IFBLK | CHAR_DEVICE => S_IFCHR
  | SYMLINK => S_IFLNK | FIFO => S_IFIFO | SOCKET => S_IFSOCK | _ => 0
  end.

(** The device numbers are left out. *)
Definition fstatat_impl k s (p fd : Z) (path : option mem) (flags : Z)
    : outcome (Z * option file_stat * vfs D) :=
  let! (r, s) := get_vnode_from_dirfd_path depth k s p fd path flags in
  match r with
  | inl err => Ret (err, None, s)
  | inr v =>
      let! vn := deref (vnodes s !! v) in
      let! fields := if v_fs vn =? 0 then Ret None
                     else let! f := fs_stat (v_fs vn) v s in Ret (Some f) in
      Ret (0, Some (mkFileStat ((v_mode vn &~ MODE_TYPE_MASK) .| type_bits (node_type vn))
                      (v_uid vn) (v_gid vn) (access_time vn) (modification_time vn) (creation_time vn)
                      fields), s)
  end.

(** The empty path of [fstat] and the others. *)
Definition empty_path : option mem := Some [0].

Definition syscall_newfstatat k s (p fd : Z) (path : option mem) (flags : Z) := fstatat_impl k s p fd path flags.
Definition syscall_stat k s (p : Z) path := fstatat_impl k s p AT_FDCWD (Some path) 0.
Definition syscall_fstat k s (p fd : Z) := fstatat_impl k s p fd empty_path AT_EMPTY_PATH.
Definition syscall_lstat k s (p : Z) path := fstatat_impl k s p AT_FDCWD (Some path) AT_SYMLINK_NOFOLLOW.

Definition faccessat2_impl k s (p dirfd : Z) (pathname : option mem) (mode flags : Z) : outcome (Z * vfs D) :=
  let! (ret, _, s) := fstatat_impl k s p dirfd pathname
                        (Z.land flags (AT_EMPTY_PATH .| AT_SYMLINK_NOFOLLOW)) in
  Ret (ret, s).

Definition syscall_faccessat k s (p dirfd : Z) (pathname : option mem) (mode : Z) :=
  faccessat2_impl k s p dirfd pathname mode 0.
Definition syscall_faccessat2 k s (p dirfd : Z) (pathname : option mem) (mode flags : Z) :=
  faccessat2_impl k s p dirfd pathname mode flags.
Definition syscall_access k s (p : Z) path (mode : Z) := faccessat2_impl k s p AT_FDCWD (Some path) mode 0.

Definition fchownat_impl k s (p fd : Z) (path : option mem) (owner group flags : Z) : outcome (Z * vfs D) :=
  let! (r, s) := get_vnode_from_dirfd_path depth k s p fd path flags in
  match r with
  | inl err => Ret (err, s)
  | inr v =>
      let! vn := deref (vnodes s !! v) in
      let vn := if negb (owner =? no_id) then vn <| v_uid := owner |> else vn in
      let vn := if negb (group =? no_id) then vn <| v_gid := group |> else vn in
      Ret (0, put_vnode v vn s)
  end.

Definition syscall_fchownat k s (p fd : Z) (path : option mem) (owner group flags : Z) :=
  fchownat_impl k s p fd path owner group flags.
Definition syscall_chown k s (p : Z) path (owner group : Z) := fchownat_impl k s p AT_FDCWD (Some path) owner group 0.
Definition syscall_fchown k s (p fd owner group : Z) := fchownat_impl k s p fd empty_path owner group AT_EMPTY_PATH.
Definition syscall_lchown k s (p : Z) path (owner group : Z) :=
  fchownat_impl k s p AT_FDCWD (Some path) owner group AT_SYMLINK_NOFOLLOW.

Definition fchmodat2_impl k s (p fd : Z) (path : option mem) (mode flags : Z) : outcome (Z * vfs D) :=
  let! (r, s) := get_vnode_from_dirfd_path depth k s p fd path flags in
  match r with
  | inl err => Ret (err, s)
  | inr v => let! vn := deref (vnodes s !! v) in Ret (0, put_vnode v (vn <| v_mode := mode |>) s)
  end.

Definition syscall_fchmodat2 k s (p fd : Z) (path : option mem) (mode flags : Z) :=
  fchmodat2_impl k s p fd path mode flags.
Definition syscall_fchmodat k s (p fd : Z) (path : option mem) (mode : Z) := fchmodat2_impl k s p fd path mode 0.
Definition syscall_chmod k s (p : Z) path (mode : Z) := fchmodat2_impl k s p AT_FDCWD (Some path) mode 0.
Definition syscall_fchmod k s (p fd mode : Z) := fchmodat2_impl k s p fd empty_path mode AT_EMPTY_PATH.

Definition syscall_truncate k s (p : Z) path (len : Z) : outcome (Z * vfs D) :=
  if len <? 0 then Ret (- EINVAL, s) else
  let! pr := deref (processes k !! p) in
  let! (e, s) := path_to_entry depth path (cwd pr) true s in
  let! en := deref (entries s !! e) in
  if e_vnode en =? 0 then Ret (- ENOENT, s) else v_truncate (e_vnode en) None len s.

Definition syscall_ftruncate k s (p fd len : Z) : outcome (Z * vfs D) :=
  if len <? 0 then Ret (- EINVAL, s) else
  with_description k p fd (- EBADF, s) (fun d desc => v_truncate (d_vnode desc) (Some d) len s).
End tree.
