(* ===== verification/Mount.v ===== *)
(** * Mounting (fs/vfs.cpp): drivers, mounts, statfs, ioctl

    The drivers are in the hash table of HashTable.v, by name; a driver's [mount]
    and a file system's [statfs] are virtual functions, [FilesystemDriverOps].
    tmpfs is the instance; its figures come from the page allocator. *)

From S2P Require Import Prelude Algorithm CString HashTable TimeSpec Context Cred Vector Links Sched FdTable Vfs Tmpfs VfsCalls.

(** ** Data *)

Record statfs := mkStatfs {
  f_type : Z; f_bsize : Z; f_blocks : Z; f_bfree : Z; f_bavail : Z;
  f_files : Z; f_ffree : Z; f_fsid : Z; f_namelen : Z; f_frsize : Z
}.

Class FilesystemDriverOps (D : Type) := {
  driver_mount : Z -> Z -> vfs D -> outcome (Z * vfs D);
  fs_statfs : Z -> vfs D -> outcome statfs
}.
(** [VNode::ioctl]: the vnode, the description, the command and its argument. *)
Class VNodeIoctl (D : Type) := {
  v_ioctl : Z -> option Z -> Z -> Z -> vfs D -> outcome (Z * vfs D)
}.

(** A file system in [mount_list], with its driver and its two names ([None]: there
    was no memory for it). *)
Record mount_info := mkMount { m_fs : Z; m_driver : Z; mount_source : option mem; mount_target : option mem }.

Record mounts := mkMounts { drivers : HashTable char_ptr Z; mount_list : list mount_info }.
#[export] Instance eta_mounts : Settable mounts := fun m => mkMounts (drivers m) (mount_list m).

(** [fs_driver_hash_table(8)] and an empty list. *)
Definition no_mounts : mounts := mkMounts (HashTable_init 8) [].

Definition FIOCLEX : Z := 21585.
Definition FIONCLEX : Z := 21584.
Definition GRND_RANDOM : Z := 2.

Section mount.
Context {D : Type} `{FilesystemOps D} `{VNodeOps D} `{FilesystemDriverOps D} `{VNodeIoctl D} (depth : nat) (have_memory : bool).
Implicit Types (s : vfs D) (m : mounts).

(** ** Drivers *)

Definition register_fs_driver m (name : char_ptr) (fs_driver : Z) : outcome mounts :=
  let! t := emplace (drivers m) name fs_driver in
  Ret (m <| drivers := t |>).

Definition get_fs_driver m (name : char_ptr) : outcome Z :=
  let! d := ht_lookup (drivers m) name in
  Ret (match d with Some d => d | None => 0 end).

(** ** Mounts *)

Definition mount m s (driver mount_entry : Z) (source target : mem) : outcome (Z * mounts * vfs D) :=
  let! (fs, s) := driver_mount driver mount_entry s in
  let! source := strdup have_memory source in
  let! target := strdup have_memory target in
  Ret (0, m <| mount_list ::= fun l => l ++ [mkMount fs driver source target] |>, s).

Definition syscall_mount m k s (p : Z) (source target : mem) (fs_type : char_ptr)
    : outcome (Z * mounts * vfs D) :=
  let! pr := deref (processes k !! p) in
  let! c := strcmp target [slash; 0] in
  if c =? 0 then Ret (- ENOSYS, m, s) else
  let! driver := get_fs_driver m fs_type in
  if driver =? 0 then Ret (- ENODEV, m, s) else
  let! (e, s) := path_to_entry depth target (cwd pr) true s in
  let! en := deref (entries s !! e) in
  if e_vnode en =? 0 then Ret (- ENOENT, m, s) else
  let! vn := deref (vnodes s !! e_vnode en) in
  if decide (node_type vn <> DIRECTORY) then Ret (- ENOTDIR, m, s) else
  mount m s driver e source target.

(** ** statfs *)

Definition statfs_vnode s (v : Z) : outcome (Z * option statfs) :=
  let! vn := deref (vnodes s !! v) in
  let fs := if negb (fs_mounted_here vn =? 0) then fs_mounted_here vn else v_fs vn in
  if fs =? 0 then Ret (- ENOSYS, None) else
  let! buf := fs_statfs fs s in Ret (0, Some buf).

Definition syscall_statfs k s (p : Z) (path : mem) : outcome (Z * option statfs * vfs D) :=
  let! pr := deref (processes k !! p) in
  let! (e, s) := path_to_entry depth path (cwd pr) true s in
  let! en := deref (entries s !! e) in
  if e_vnode en =? 0 then Ret (- ENOENT, None, s) else
  let! (ret, buf) := statfs_vnode s (e_vnode en) in
  Ret (ret, buf, s).

Definition syscall_fstatfs k s (p fd : Z) : outcome (Z * option statfs) :=
  with_description k p fd (- EBADF, None) (fun d desc => statfs_vnode s (d_vnode desc)).

(** ** ioctl *)

Definition set_fd_flags k (p fd flags : Z) : outcome kernel :=
  let! pr := deref (processes k !! p) in
  let! f := deref (vget (file_descriptors pr) fd) in
  Ret (put_process p (pr <| file_descriptors ::= fun v => vset v fd (set_flags f flags) |>) k).

Definition syscall_ioctl k s (p fd cmd arg : Z) : outcome (Z * kernel * vfs D) :=
  with_description k p fd (- EBADF, k, s) (fun d desc =>
    if cmd =? FIOCLEX then let! k := set_fd_flags k p fd FD_CLOEXEC in Ret (0, k, s)
    else if cmd =? FIONCLEX then let! k := set_fd_flags k p fd 0 in Ret (0, k, s)
    else let! (ret, s) := v_ioctl (d_vnode desc) (Some d) cmd arg s in Ret (ret, k, s)).

(** ** Random bytes *)

(** [random_device] or [urandom_device], 0 before the first call. *)
Definition find_device s (cached : Z) (path : mem) : outcome (Z * vfs D) :=
  if negb (cached =? 0) then Ret (cached, s) else
  let! (e, s) := path_to_entry depth path 0 true s in
  let! en := deref (entries s !! e) in
  Ret (e_vnode en, s).

(** ["/dev/random"] and ["/dev/urandom"]. *)
Definition dev_random : mem := [47;100;101;118;47;114;97;110;100;111;109;0].
Definition dev_urandom : mem := [47;100;101;118;47;117;114;97;110;100;111;109;0].

(** The two devices after the call are the second result. *)
Definition syscall_getrandom s (random_device urandom_device : Z) (count flags : Z)
    : outcome (Z * list Z * (Z * Z) * vfs D) :=
  let! (random_device, s) := find_device s random_device dev_random in
  if random_device =? 0 then Ret (- ENOENT, [], (0, urandom_device), s) else
  let! (urandom_device, s) := find_device s urandom_device dev_urandom in
  if urandom_device =? 0 then Ret (- ENOENT, [], (random_device, 0), s) else
  let device := if flags &? GRND_RANDOM then random_device else urandom_device in
  let! (ret, bytes, s) := v_read device None count 0 s in
  Ret (ret, bytes, (random_device, urandom_device), s).
End mount.

(** ** tmpfs *)

Definition TMPFS_MAGIC : Z := 16914836.

(** [pmm::stats] is an argument. *)
Definition tmpfs_statfs (total_pages_usable total_free_pages : Z) : statfs :=
  mkStatfs TMPFS_MAGIC PAGE_SIZE total_pages_usable total_free_pages total_free_pages
    1048576 1047576 9451991170846773 255 PAGE_SIZE.

Definition tmpfs_driver_ops (total_pages_usable total_free_pages : Z) : FilesystemDriverOps tmpfs := {|
  driver_mount driver e s := tmpfs_mount e s;
  fs_statfs fs s := Ret (tmpfs_statfs total_pages_usable total_free_pages)
|}.
