(* ===== verification/VfsFacts.v ===== *)
(** * The tree: names, children and path resolution

    [tree_wf]: names are C strings with their hashes and children are entries.
    [child] and [resolves] are the specification of [find_child] and of the walk. *)

From S2P Require Import Prelude CString TimeSpec Links Vfs.

Section facts.
Context {D : Type} `{FilesystemOps D} `{VNodeOps D}.
Implicit Types s : vfs D.

(** ** Names *)

Definition name_of (en : Entry) : list Z := removelast (e_name en).

Record entry_wf s (en : Entry) : Prop := {
  ew_text : chars (name_of en);
  ew_name : e_name en = cstr (name_of en) [];
  ew_hash : hash_string (e_name en) = Ret (name_hash en);
  ew_children : Forall (fun c => is_Some (entries s !! c)) (children_list en)
}.
Definition tree_wf s : Prop := forall e en, entries s !! e = Some en -> entry_wf s en.

Definition has_name s (nm : list Z) (c : Z) : bool :=
  match entries s !! c with Some ce => bool_decide (name_of ce = nm) | None => false end.

(** The first child of that name. *)
Definition child s (e : Z) (nm : list Z) : option Z :=
  match entries s !! e with
  | Some en => head (filter (fun c => has_name s nm c = true) (children_list en))
  | None => None
  end.

Lemma find_in_spec s nm rest h children :
  tree_wf s -> chars nm -> hash_string (cstr nm rest) = Ret h ->
  Forall (fun c => is_Some (entries s !! c)) children ->
  find_in s h (cstr nm rest) children =
    Ret (head (filter (fun c => has_name s nm c = true) children)).
Proof.
  intros Hwf Hnm Hh. induction 1 as [|c children [ce Hc] _ IH]; [done|]. simpl. rewrite Hc. cbn [deref obind].
  destruct (Hwf _ _ Hc) as [Ht Hn Hhs _].
  assert (has_name s nm c = bool_decide (name_of ce = nm)) as Hhn by (unfold has_name; by rewrite Hc).
  destruct (strcmp_cstr (name_of ce) nm [] rest Ht Hnm) as (d & Hd & Hd0).
  destruct (decide (name_of ce = nm)) as [Heq|Hne].
  - rewrite bool_decide_true in Hhn by done. rewrite filter_cons_True by done.
    destruct (hash_string_cstr nm rest [] Hnm) as (h' & ? & ?).
    rewrite Hn, Heq in Hhs. rewrite (proj2 (Z.eqb_eq _ _)) by congruence.
    rewrite Hn, Hd. cbn [obind]. by rewrite (proj2 Hd0), Z.eqb_refl.
  - rewrite bool_decide_false in Hhn by done. rewrite filter_cons_False by (by rewrite Hhn).
    destruct (Z.eqb_spec (name_hash ce) h); [|done]. rewrite Hn, Hd. cbn [obind].
    by rewrite (proj2 (Z.eqb_neq d 0)) by tauto.
Qed.

Lemma find_child_spec s e en nm rest :
  tree_wf s -> entries s !! e = Some en -> chars nm ->
  find_child s e (cstr nm rest) = Ret (child s e nm).
Proof.
  intros Hwf He Hnm. unfold find_child, child. rewrite He.
  destruct (hash_string_cstr nm rest rest Hnm) as (h & Hh & _). rewrite Hh. cbn [obind deref].
  apply find_in_spec; try done. by apply (Hwf _ _ He).
Qed.

Lemma child_in s e en nm c :
  entries s !! e = Some en -> child s e nm = Some c ->
  c ∈ children_list en /\ exists ce, entries s !! c = Some ce /\ name_of ce = nm.
Proof.
  unfold child. intros He Hc. rewrite He in Hc. apply head_Some_elem_of in Hc.
  apply list_elem_of_filter in Hc as [Hn Hin]. split; [done|]. unfold has_name in Hn.
  destruct (entries s !! c) as [ce|]; [|done]. apply bool_decide_eq_true in Hn. eauto.
Qed.

(** ** Resolution *)

(** The entry is a directory. *)
Definition is_dir s (e : Z) : Prop := exists v vn, vnode_of s e = Ret (v, vn) /\ node_type vn = DIRECTORY.

(** The child [c] of that name stands for a file of type other than the ones
    [excluded]. *)
Definition child_file s (e : Z) (nm : list Z) (c v : Z) (vn : VNode) : Prop :=
  child s e nm = Some c /\ vnode_of s c = Ret (v, vn) /\ v <> 0.

Inductive resolves s : Z -> list (list Z) -> Z -> Prop :=
| resolves_nil e : resolves s e [] e
| resolves_cons e nm names c v vn c' e' :
    is_dir s e -> child_file s e nm c v vn -> node_type vn <> SYMLINK ->
    reduce s c = Ret c' -> resolves s c' names e' -> resolves s e (nm :: names) e'.

(** A name that can be a component of a path. *)
Definition component (nm : list Z) : Prop := chars nm /\ nm <> [] /\ slash ∉ nm.

(** [name1/name2/...]. *)
Fixpoint join (names : list (list Z)) : list Z :=
  match names with
  | [] => []
  | [nm] => nm
  | nm :: names => nm ++ slash :: join names
  end.

Lemma join_cons nm nm' names : join (nm :: nm' :: names) = nm ++ slash :: join (nm' :: names).
Proof. done. Qed.

Lemma slash_char : slash <> 0.
Proof. done. Qed.

Lemma join_text names : Forall component names -> chars (join names).
Proof.
  induction 1 as [|nm names [Ht _] Hn IH]; [constructor|]. destruct names as [|nm' names]; [done|].
  rewrite join_cons. apply Forall_app. split; [done|]. constructor; [apply slash_char|done].
Qed.

Lemma join_nonempty nm names : component nm -> (0 < length (join (nm :: names)))%nat.
Proof.
  intros (_ & Hne & _). destruct names as [|nm' names]; rewrite ?join_cons, ?length_app; simpl;
    destruct nm; simpl; try done; lia.
Qed.

Lemma join_length names : Forall component names -> (length names <= length (join names))%nat.
Proof.
  induction 1 as [|n l Hn Hl IH]; [done|]. destruct l as [|n' l]; [apply (join_nonempty n [] Hn)|].
  rewrite join_cons, length_app. destruct Hn as (_ & Hne & _). destruct n; [done|]. simpl in *. lia.
Qed.

Lemma find_slash_none nm : slash ∉ nm -> list_find (fun x => x = slash) nm = None.
Proof. intros Hs. apply list_find_None. rewrite Forall_forall. by intros x Hx ->. Qed.

Lemma find_slash_some nm l : slash ∉ nm ->
  list_find (fun x => x = slash) (nm ++ slash :: l) = Some (length nm, slash).
Proof.
  intros Hs. rewrite list_find_app_r by (by apply find_slash_none). cbn [list_find].
  by rewrite decide_True.
Qed.

Lemma vnode_of_entry s e v vn : vnode_of s e = Ret (v, vn) ->
  exists en, entries s !! e = Some en /\ e_vnode en = v /\ vnodes s !! v = Some vn.
Proof.
  unfold vnode_of. intros Hv. destruct (entries s !! e) as [en|]; [|done]. cbn [deref obind] in Hv.
  destruct (vnodes s !! e_vnode en) as [vn'|] eqn:E; [|done]. cbn [deref obind] in Hv. simplify_eq. eauto.
Qed.

Lemma vnode_of_dir s e : is_dir s e -> exists v vn en, vnode_of s e = Ret (v, vn) /\
  node_type vn = DIRECTORY /\ entries s !! e = Some en.
Proof.
  intros (v & vn & Hv & Ht). destruct (vnode_of_entry _ _ _ _ Hv) as (en & ? & _). by exists v, vn, en.
Qed.

Lemma lookup_child_hit s e nm rest c :
  tree_wf s -> chars nm -> child s e nm = Some c -> lookup_child s e (cstr nm rest) = Ret (c, s).
Proof.
  intros Hwf Hnm Hc. assert (exists en, entries s !! e = Some en) as [en He].
  { unfold child in Hc. destruct (entries s !! e); [eauto|done]. }
  unfold lookup_child. rewrite (find_child_spec _ _ _ _ _ Hwf He Hnm). cbn [obind]. by rewrite Hc.
Qed.

(** One turn of the loop on a component that is not the last. *)
Lemma walk_step resolve follow fuel nm path rest e c v vn c' s :
  tree_wf s -> component nm -> chars path -> path <> [] ->
  is_dir s e -> child_file s e nm c v vn -> node_type vn <> SYMLINK -> reduce s c = Ret c' ->
  walk resolve follow (S fuel) (cstr (nm ++ slash :: path) rest) (Z.of_nat (length (nm ++ slash :: path))) e s =
    walk resolve follow fuel (cstr path rest) (Z.of_nat (length path)) c' s.
Proof.
  intros Hwf (Ht & Hne & Hsl) Hp Hpne Hdir (Hc & Hv & Hv0) Hty Hred.
  destruct (vnode_of_dir _ _ Hdir) as (dv & dvn & den & Hdv & Hdt & Hde).
  cbn [walk]. rewrite Hdv. cbn [obind]. rewrite decide_False by (by intros []).
  rewrite strchr_cstr; [|apply Forall_app; split; [done|constructor; [apply slash_char|done]]|done].
  cbn [obind]. rewrite find_slash_some by done. simpl fmap. unfold next_component.
  assert (0 < length nm)%nat by (destruct nm; simpl; [done|lia]).
  assert (0 < length path)%nat by (destruct path; simpl; [done|lia]).
  rewrite length_app. cbn [length].
  rewrite (proj2 (Z.eqb_neq _ _)) by lia. rewrite (proj2 (Nat.eqb_neq _ _)) by lia.
  unfold cstr at 1. rewrite !length_app. cbn [length].
  rewrite (proj2 (Nat.leb_le _ _)) by lia. cbn [obind].
  unfold cstr at 1. rewrite <- app_assoc. rewrite take_app_length.
  change (nm ++ [0]) with (cstr nm []). rewrite (lookup_child_hit _ _ _ _ _ Hwf Ht Hc). cbn [obind].
  destruct (vnode_of_entry _ _ _ _ Hv) as (ce & Hce & Hcv & Hvn). rewrite Hce. cbn [deref obind].
  rewrite Hcv, (proj2 (Z.eqb_neq v 0)) by done. rewrite Hvn. cbn [deref obind].
  rewrite decide_False by tauto. rewrite Hred. cbn [obind]. f_equal.
  - unfold cstr. rewrite <- app_assoc, <- drop_drop, drop_app_length. done.
  - lia.
Qed.

(** The turn on the last component, whose vnode is there. *)
Lemma walk_last resolve follow fuel nm rest e c v vn s :
  tree_wf s -> component nm -> is_dir s e -> child_file s e nm c v vn ->
  (follow = false \/ node_type vn <> SYMLINK) ->
  walk resolve follow (S fuel) (cstr nm rest) (Z.of_nat (length nm)) e s = Ret (c, s).
Proof.
  intros Hwf (Ht & Hne & Hsl) Hdir (Hc & Hv & Hv0) Hty.
  destruct (vnode_of_dir _ _ Hdir) as (dv & dvn & den & Hdv & Hdt & Hde).
  cbn [walk]. rewrite Hdv. cbn [obind]. rewrite decide_False by (by intros []).
  rewrite strchr_cstr by done. cbn [obind]. rewrite find_slash_none by done. simpl fmap.
  unfold next_component. rewrite Nat2Z.id. unfold cstr at 1. rewrite length_app. cbn [length].
  rewrite (proj2 (Nat.leb_le _ _)) by lia. cbn [obind]. unfold cstr at 1. rewrite take_app_length.
  change (nm ++ [0]) with (cstr nm []). rewrite (lookup_child_hit _ _ _ _ _ Hwf Ht Hc). cbn [obind].
  destruct (vnode_of_entry _ _ _ _ Hv) as (ce & Hce & Hcv & Hvn). rewrite Hce. cbn [deref obind].
  rewrite Hcv, (proj2 (Z.eqb_neq v 0)) by done. rewrite Hvn. cbn [deref obind].
  rewrite decide_False; [done|]. intros [[?|?] ?]; [done|]. destruct Hty; congruence.
Qed.

(** The turn on a last component that is a link to follow. *)
Lemma walk_link resolve fuel nm rest e c v vn target s :
  tree_wf s -> component nm -> is_dir s e -> child_file s e nm c v vn -> node_type vn = SYMLINK ->
  chars target -> (length target <= 127)%nat ->
  v_read v None 128 0 s = Ret (Z.of_nat (length target), target, s) ->
  walk resolve true (S fuel) (cstr nm rest) (Z.of_nat (length nm)) e s =
    resolve (cstr target (replicate (255 - length target) 0)) e s.
Proof.
  intros Hwf (Ht & Hne & Hsl) Hdir (Hc & Hv & Hv0) Hty Htx Hlen Hrd.
  destruct (vnode_of_dir _ _ Hdir) as (dv & dvn & den & Hdv & Hdt & Hde).
  cbn [walk]. rewrite Hdv. cbn [obind]. rewrite decide_False by (by intros []).
  rewrite strchr_cstr by done. cbn [obind]. rewrite find_slash_none by done. simpl fmap.
  unfold next_component. rewrite Nat2Z.id. unfold cstr at 1. rewrite length_app. cbn [length].
  rewrite (proj2 (Nat.leb_le _ _)) by lia. cbn [obind]. unfold cstr at 1. rewrite take_app_length.
  change (nm ++ [0]) with (cstr nm []). rewrite (lookup_child_hit _ _ _ _ _ Hwf Ht Hc). cbn [obind].
  destruct (vnode_of_entry _ _ _ _ Hv) as (ce & Hce & Hcv & Hvn). rewrite Hce. cbn [deref obind].
  rewrite Hcv, (proj2 (Z.eqb_neq v 0)) by done. rewrite Hvn. cbn [deref obind].
  rewrite decide_True by (split; [by right|done]). unfold link_target. rewrite Hrd. cbn [obind].
  rewrite (proj2 (Z.ltb_ge _ _)) by lia. rewrite Z.gtb_ltb, (proj2 (Z.ltb_ge _ _)) by lia. cbn [orb].
  unfold cstr at 1. rewrite drop_app_length.
  set (buf := splice 0 target (replicate 256 0)).
  assert (buf = target ++ replicate (256 - length target) 0) as Hbuf
    by (unfold buf, splice; rewrite take_0, Nat.add_0_l, drop_replicate; done).
  rewrite Nat2Z.id. change (0 :: rest) with (cstr [] rest).
  rewrite strcpy_cstr; [|constructor|rewrite Hbuf, drop_app_length, length_replicate; simpl; lia].
  cbn [obind]. rewrite Hbuf, take_app_length, drop_app_length, drop_replicate. unfold cstr.
  replace (256 - length target - (length (@nil Z) + 1))%nat with (255 - length target)%nat by (simpl; lia).
  done.
Qed.

(** Down to the directory of the last component. *)
Lemma walk_down resolve follow rest nm names : forall dirs fuel e d s,
  names = dirs ++ [nm] -> tree_wf s -> Forall component names -> resolves s e dirs d ->
  (length names <= fuel)%nat ->
  walk resolve follow fuel (cstr (join names) rest) (Z.of_nat (length (join names))) e s =
    walk resolve follow (fuel - length dirs) (cstr nm rest) (Z.of_nat (length nm)) d s.
Proof.
  induction names as [|n names IH]; intros dirs fuel e d s Hn Hwf Hc Hr Hf; [by destruct dirs|].
  destruct dirs as [|n' dirs]; injection Hn as ->.
  - subst. inversion Hr; subst. by rewrite Nat.sub_0_r.
  - subst names. apply Forall_cons in Hc as [Hcn Hc]. inversion Hr; subst.
    destruct fuel as [|fuel]; [simpl in Hf; lia|].
    assert (exists n2 l, dirs ++ [nm] = n2 :: l) as (n2 & l & Hl) by (destruct dirs; simpl; eauto).
    pose proof Hc as Hc2. rewrite Hl in Hc2.
    rewrite Hl, join_cons. erewrite walk_step; try done.
    + rewrite <- Hl. simpl. apply IH; try done. simpl in Hf. lia.
    + apply join_text. done.
    + apply Forall_cons in Hc2 as [Hn2 _]. pose proof (join_nonempty n2 l Hn2). destruct (join (n2 :: l)); [simpl in *; lia|done].
Qed.
End facts.
