(* ===== verification/VfsInv.v ===== *)
(** * The directory tree is a forest

    [tree_inv]: names are C strings with their hashes, an entry is linked in the
    list of at most one entry, its parent, and parents and redirections are older
    entries. Every operation of the tree keeps it, whatever the file systems and
    the files do, as long as they only fill in the vnodes of entries
    ([TreeLaws]). *)

From S2P Require Import Prelude CString TimeSpec Links Vfs VfsFacts.

Section inv.
Context {D : Type}.
Implicit Types s : vfs D.

(** ** The invariant *)

(** No entry, or one made before [e]. *)
Definition older s (e x : Z) : Prop := x = 0 \/ x < e /\ is_Some (entries s !! x).

Record node_ok s (e : Z) (en : Entry) : Prop := {
  no_wf : entry_wf s en;
  no_addr : 0 < e < next_addr s;
  no_vnode : e_vnode en = 0 \/ is_Some (vnodes s !! e_vnode en);
  no_parent : older s e (e_parent en);
  no_redirect : older s e (redirect en);
  no_sibling : forall p, sibling_link en = InList p -> p = e_parent en /\ is_Some (entries s !! p);
  no_nodup : NoDup (children_list en);
  no_links : forall c, c ∈ children_list en <->
    exists ce, entries s !! c = Some ce /\ sibling_link ce = InList e
}.

Record tree_inv s : Prop := {
  ti_node : forall e en, entries s !! e = Some en -> node_ok s e en;
  ti_next : 0 < next_addr s
}.

Lemma tree_inv_wf s : tree_inv s -> tree_wf s.
Proof. intros Hi e en He. by apply (ti_node _ Hi e en He). Qed.

(** ** Filling in vnodes *)

(** [s'] has the entries of [s], some with another vnode, which exists, or none. *)
Definition filled s' (en en' : Entry) : Prop :=
  en' = en <| e_vnode := e_vnode en' |> /\
  (e_vnode en' = e_vnode en \/ e_vnode en' = 0 \/ is_Some (vnodes s' !! e_vnode en')).

Record fills s s' : Prop := {
  fl_root : root s' = root s;
  fl_null : null_entry s' = null_entry s;
  fl_next : next_addr s <= next_addr s';
  fl_vnodes : forall v, is_Some (vnodes s !! v) -> is_Some (vnodes s' !! v);
  fl_entries : forall e, option_Forall2 (filled s') (entries s !! e) (entries s' !! e)
}.

Lemma filled_refl s en : filled s en en.
Proof. split; [by destruct en|by left]. Qed.

Lemma option_Forall2_refl_filled s x : option_Forall2 (filled s) x x.
Proof. destruct x; constructor. apply filled_refl. Qed.

#[export] Instance fills_refl : Reflexive fills.
Proof. intros s. split; [done..|lia|done|]. intros e. apply option_Forall2_refl_filled. Qed.

#[export] Instance fills_trans : Transitive fills.
Proof.
  intros s1 s2 s3 [] []. split; [congruence|congruence|lia|auto|]. intros e.
  specialize (fl_entries0 e). specialize (fl_entries1 e).
  destruct fl_entries0 as [a b [Hab Hv]|]; inversion fl_entries1 as [? c [Hbc Hw]|]; constructor.
  split; [by rewrite Hbc, Hab|]. destruct Hw as [->|]; [|by right]. destruct Hv as [|[|]]; auto.
Qed.

Lemma fills_put_vnode v vn s : fills s (put_vnode v vn s).
Proof.
  split; [done..|simpl; lia| |].
  - intros w Hw. simpl. destruct (decide (v = w)) as [->|]; [by rewrite lookup_insert_eq|by rewrite lookup_insert_ne].
  - intros e. simpl. apply option_Forall2_refl_filled.
Qed.

Lemma fills_set_vnode e en v s : entries s !! e = Some en -> v = 0 \/ is_Some (vnodes s !! v) ->
  fills s (put_entry e (en <| e_vnode := v |>) s).
Proof.
  intros He Hv. split; [done..|simpl; lia|done|]. intros x. simpl.
  destruct (decide (e = x)) as [<-|]; [|rewrite lookup_insert_ne by done; apply option_Forall2_refl_filled].
  rewrite lookup_insert_eq, He. constructor. split; [done|]. by right.
Qed.

(** Only the private data, the clock and the next address change. *)
Lemma fills_other s s' : root s' = root s -> null_entry s' = null_entry s -> next_addr s <= next_addr s' ->
  vnodes s' = vnodes s -> entries s' = entries s -> fills s s'.
Proof.
  intros ? ? ? Hv He. split; [done..| |].
  - by rewrite Hv.
  - intros e. rewrite He. apply option_Forall2_refl_filled.
Qed.

Lemma fills_entry s s' e en' : fills s s' -> entries s' !! e = Some en' ->
  exists en, entries s !! e = Some en /\ filled s' en en'.
Proof. intros Hf He. pose proof (fl_entries _ _ Hf e) as Hx. rewrite He in Hx. inversion Hx; subst; eauto. Qed.
Lemma fills_entry' s s' e en : fills s s' -> entries s !! e = Some en ->
  exists en', entries s' !! e = Some en' /\ filled s' en en'.
Proof. intros Hf He. pose proof (fl_entries _ _ Hf e) as Hx. rewrite He in Hx. inversion Hx; subst; eauto. Qed.
Lemma fills_is_Some s s' e : fills s s' -> is_Some (entries s' !! e) <-> is_Some (entries s !! e).
Proof.
  intros Hf. split; intros [en He].
  - destruct (fills_entry _ _ _ _ Hf He) as (? & ? & _). eauto.
  - destruct (fills_entry' _ _ _ _ Hf He) as (? & ? & _). eauto.
Qed.

Lemma older_mono s s' e x : (forall y, is_Some (entries s !! y) -> is_Some (entries s' !! y)) ->
  older s e x -> older s' e x.
Proof. intros Hm [->|[? ?]]; [by left|right; auto]. Qed.

Lemma entry_wf_mono s s' en : (forall y, is_Some (entries s !! y) -> is_Some (entries s' !! y)) ->
  entry_wf s en -> entry_wf s' en.
Proof. intros Hm []. split; [done..|]. eapply Forall_impl; [done|]. auto. Qed.

(** What stays true of an entry when more entries and vnodes exist. *)
Record node_shape s (e : Z) (en : Entry) : Prop := {
  ns_wf : entry_wf s en;
  ns_addr : 0 < e < next_addr s;
  ns_vnode : e_vnode en = 0 \/ is_Some (vnodes s !! e_vnode en);
  ns_parent : older s e (e_parent en);
  ns_redirect : older s e (redirect en)
}.
Lemma node_shape_mono s s' e en :
  (forall y, is_Some (entries s !! y) -> is_Some (entries s' !! y)) ->
  (forall v, is_Some (vnodes s !! v) -> is_Some (vnodes s' !! v)) ->
  next_addr s <= next_addr s' -> node_shape s e en -> node_shape s' e en.
Proof.
  intros He Hv Hn []. split.
  - by eapply entry_wf_mono.
  - lia.
  - destruct ns_vnode0; [by left|right; auto].
  - by eapply older_mono.
  - by eapply older_mono.
Qed.
Lemma node_ok_shape s e en : node_ok s e en -> node_shape s e en.
Proof. intros []. by split. Qed.

Lemma tree_inv_fills s s' : tree_inv s -> fills s s' -> tree_inv s'.
Proof.
  intros Hi Hf. split; [|pose proof (ti_next _ Hi); pose proof (fl_next _ _ Hf); lia].
  intros e en' He. destruct (fills_entry _ _ _ _ Hf He) as (en & He0 & Hen & Hv).
  pose proof (ti_node _ Hi _ _ He0) as Hok.
  assert (node_shape s' e en) as [].
  { eapply node_shape_mono; [| |apply (fl_next _ _ Hf)|by apply node_ok_shape].
    - intros y. by apply fills_is_Some.
    - apply (fl_vnodes _ _ Hf). }
  destruct Hok. rewrite Hen. split; simpl; try done.
  - destruct ns_wf0. by split.
  - destruct Hv as [->|[|]]; [done|by left|by right].
  - intros p Hp. destruct (no_sibling0 p Hp). split; [done|]. by apply (fills_is_Some s).
  - intros c. rewrite no_links0. split; intros (ce & Hce & Hs).
    + destruct (fills_entry' _ _ _ _ Hf Hce) as (ce' & Hce' & Hcc & _).
      exists ce'. split; [done|]. by rewrite Hcc.
    + destruct (fills_entry _ _ _ _ Hf Hce) as (ce' & Hce' & Hcc & _). rewrite Hcc in Hs. eauto.
Qed.

(** ** Linking *)

(** [p]'s children and [e]'s link are replaced together. *)
Lemma tree_inv_relink s p e pe en ch l :
  tree_inv s -> entries s !! p = Some pe -> entries s !! e = Some en -> p <> e ->
  p = e_parent en -> NoDup ch -> (forall c, c <> e -> c ∈ ch <-> c ∈ children_list pe) ->
  (e ∈ ch <-> l = InList p) -> (forall q, l = InList q -> q = p) ->
  tree_inv (put_entry e (en <| sibling_link := l |>) (put_entry p (pe <| children_list := ch |>) s)).
Proof.
  intros Hi Hp He Hpe Hpar Hnd Hch Hel Hl.
  set (s' := put_entry e _ _).
  assert (forall x, entries s' !! x = if decide (x = e) then Some (en <| sibling_link := l |>)
            else if decide (x = p) then Some (pe <| children_list := ch |>) else entries s !! x) as Hx.
  { intros x. unfold s'. simpl. destruct (decide (x = e)) as [->|]; [by rewrite lookup_insert_eq|].
    rewrite lookup_insert_ne by done. destruct (decide (x = p)) as [->|]; [by rewrite lookup_insert_eq|].
    by rewrite lookup_insert_ne. }
  assert (next_addr s' = next_addr s) as Hna by done. assert (vnodes s' = vnodes s) as Hvn by done.
  clearbody s'.
  assert (forall y, is_Some (entries s !! y) -> is_Some (entries s' !! y)) as Hdom.
  { intros y Hy. rewrite Hx. repeat case_decide; eauto. }
  assert (forall x xn, entries s' !! x = Some xn -> exists xn0, entries s !! x = Some xn0 /\
            xn = xn0 <| children_list := children_list xn |> <| sibling_link := sibling_link xn |>) as Hold.
  { intros x xn Hxn. rewrite Hx in Hxn. repeat case_decide; simplify_eq; eexists; (split; [done|]);
      first [by destruct en | by destruct pe | by destruct xn]. }
  assert (forall x, x ∈ ch -> is_Some (entries s' !! x)) as Hchs.
  { intros x Hin. rewrite Hx. repeat case_decide; eauto. apply Hch in Hin; [|done].
    by apply (no_links _ _ _ (ti_node _ Hi _ _ Hp)) in Hin as (? & ? & _). }
  split; [|rewrite Hna; apply (ti_next _ Hi)]. intros x xn Hxn. destruct (Hold _ _ Hxn) as (xn0 & Hx0 & Hxe).
  pose proof (ti_node _ Hi _ _ Hx0) as Hok.
  destruct (node_shape_mono s s' x xn0 Hdom ltac:(by rewrite Hvn) ltac:(lia) (node_ok_shape _ _ _ Hok)).
  rewrite Hx in Hxn.
  assert (children_list xn = if decide (x = p) then ch else children_list xn0) as Hcl.
  { clear Hxe. repeat case_decide; try (injection Hxn as <-); simpl; congruence. }
  assert (sibling_link xn = if decide (x = e) then l else sibling_link xn0) as Hsl.
  { clear Hxe. repeat case_decide; try (injection Hxn as <-); simpl; congruence. }
  clear Hxn. rewrite Hxe. split; simpl; try done.
  - destruct ns_wf0 as [? ? ? Hc0]. split; try done. simpl. rewrite Hcl. destruct (decide (x = p)); [|done].
    by apply Forall_forall.
  - rewrite Hsl. intros q Hq. destruct (decide (x = e)) as [Hxe0|].
    + subst x. assert (xn0 = en) as -> by congruence. rewrite (Hl q Hq). split; [done|]. apply Hdom. by eexists.
    + destruct (no_sibling _ _ _ Hok q Hq). split; [done|]. by apply Hdom.
  - rewrite Hcl. destruct (decide (x = p)); [done|apply Hok].
  - intros c. rewrite Hcl. destruct (decide (c = e)) as [->|Hce].
    + transitivity (x = p /\ l = InList p).
      { destruct (decide (x = p)) as [Hxp|Hxp]; [rewrite Hel; tauto|]. rewrite (no_links _ _ _ Hok).
        split; [|by intros [-> _]]. intros (ce & Hc1 & Hc2).
        destruct (no_sibling _ _ _ (ti_node _ Hi _ _ Hc1) _ Hc2) as [-> _]. exfalso. apply Hxp. congruence. }
      split.
      * intros [-> ->]. exists (en <| sibling_link := InList p |>). rewrite Hx, decide_True by done. done.
      * intros (ce & Hc1 & Hc2). rewrite Hx, decide_True in Hc1 by done. injection Hc1 as <-.
        simpl in Hc2. subst l. by rewrite (Hl x eq_refl).
    + transitivity (exists ce, entries s !! c = Some ce /\ sibling_link ce = InList x).
      { rewrite <- (no_links _ _ _ Hok). destruct (decide (x = p)) as [Hxp|]; [|done]. subst x.
        rewrite Hch by done. by assert (xn0 = pe) as -> by congruence. }
      rewrite Hx, decide_False by done. destruct (decide (c = p)) as [Hcp|]; [|done]. subst c. split.
      * intros (ce & Hc1 & Hc2). assert (ce = pe) as -> by congruence.
        exists (pe <| children_list := ch |>). done.
      * intros (ce & Hc1 & Hc2). injection Hc1 as <-. exists pe. done.
Qed.


Lemma lookup_put_entry_ne p e en s : p <> e -> entries (put_entry p en s) !! e = entries s !! e.
Proof. intros. simpl. by rewrite lookup_insert_ne. Qed.

Lemma parent_ne s p e pe en : tree_inv s -> entries s !! p = Some pe -> entries s !! e = Some en ->
  e_parent en = p -> p <> e.
Proof.
  intros Hi Hp He Hpar. pose proof (no_addr _ _ _ (ti_node _ Hi _ _ Hp)).
  destruct (no_parent _ _ _ (ti_node _ Hi _ _ He)) as [?|[? _]]; lia.
Qed.

Lemma add_child_Ret s p e s' : p <> e -> add_child s p e = Ret s' ->
  exists pe en, entries s !! p = Some pe /\ entries s !! e = Some en /\
    (forall q, sibling_link en <> InList q) /\
    s' = put_entry e (en <| sibling_link := InList p |>) (put_entry p (pe <| children_list ::= cons e |>) s).
Proof.
  intros Hne H. unfold add_child in H. destruct (entries s !! p) as [pe|]; [|done]. cbn [deref obind] in H.
  destruct (entries s !! e) as [en|] eqn:He; [|done]. cbn [deref obind] in H. cbv zeta in H.
  rewrite lookup_put_entry_ne, He in H by done. exists pe, en. cbn [deref obind] in H.
  destruct (sibling_link en) eqn:Hs; [done| |]; injection H as <-; done.
Qed.

Lemma add_child_inv s p e en s' : tree_inv s -> entries s !! e = Some en -> e_parent en = p ->
  add_child s p e = Ret s' -> tree_inv s'.
Proof.
  intros Hi He Hpar H. destruct (entries s !! p) as [pe|] eqn:Hp; [|unfold add_child in H; by rewrite Hp in H].
  pose proof (parent_ne _ _ _ _ _ Hi Hp He Hpar) as Hne.
  destruct (add_child_Ret _ _ _ _ Hne H) as (pe' & en' & Hp' & He' & Hs & ->).
  assert (pe' = pe) as -> by congruence. assert (en' = en) as -> by congruence.
  assert (e ∉ children_list pe) as Hnin.
  { intros (ce & ? & ?)%(no_links _ _ _ (ti_node _ Hi _ _ Hp)). simplify_eq. by eapply Hs. }
  eapply (tree_inv_relink s _ e pe en (e :: children_list pe)); try done.
  - apply NoDup_cons. split; [done|]. apply (no_nodup _ _ _ (ti_node _ Hi _ _ Hp)).
  - intros c Hc. rewrite elem_of_cons. naive_solver.
  - split; [done|]. intros _. apply list_elem_of_here.
  - by intros q [= <-].
Qed.

(** Linked or not, an entry that stays out of every list. *)
Lemma tree_inv_unlinked s e en l : tree_inv s -> entries s !! e = Some en ->
  (forall q, sibling_link en <> InList q) -> (forall q, l <> InList q) ->
  tree_inv (put_entry e (en <| sibling_link := l |>) s).
Proof.
  intros Hi He Hs Hl. set (en' := en <| sibling_link := l |>).
  assert (forall y, is_Some (entries s !! y) -> is_Some (entries (put_entry e en' s) !! y)) as Hdom.
  { intros y Hy. simpl. destruct (decide (e = y)) as [<-|]; [by rewrite lookup_insert_eq|by rewrite lookup_insert_ne]. }
  split; [|apply (ti_next _ Hi)]. intros x xn Hx. simpl in Hx.
  assert (exists xn0, entries s !! x = Some xn0 /\ xn = xn0 <| sibling_link := sibling_link xn |> /\
            forall q, sibling_link xn = InList q <-> sibling_link xn0 = InList q) as (xn0 & Hx0 & Hxe & Hq).
  { apply lookup_insert_Some in Hx as [[<- <-]|[? Hx]].
    - exists en. split_and!; [done|done|]. simpl. intros q. split; intros Hq; [by destruct (Hl q)|by destruct (Hs q)].
    - exists xn. split_and!; [done|by destruct xn|done]. }
  pose proof (ti_node _ Hi _ _ Hx0) as Hok.
  destruct (node_shape_mono s (put_entry e en' s) x xn0 Hdom (fun v H => H) (Z.le_refl _) (node_ok_shape _ _ _ Hok)).
  rewrite Hxe. split; try done; cbn -[put_entry].
  - destruct ns_wf0. by split.
  - intros p Hp. apply Hq in Hp. destruct (no_sibling _ _ _ Hok p Hp). split; [done|]. by apply Hdom.
  - apply Hok.
  - intros c. rewrite (no_links _ _ _ Hok). simpl. destruct (decide (e = c)) as [<-|].
    + rewrite lookup_insert_eq. split; intros (ce & ? & ?); simplify_eq; [by destruct (Hs x)|by destruct (Hl x)].
    + by rewrite lookup_insert_ne.
Qed.

Lemma remove_from_parent_inv s e s' : tree_inv s -> remove_from_parent s e = Ret s' -> tree_inv s'.
Proof.
  intros Hi H. unfold remove_from_parent in H. destruct (entries s !! e) as [en|] eqn:He; [|done].
  cbn [deref obind] in H. destruct (sibling_link en) as [p| |] eqn:Hs; [| |done].
  - destruct (no_sibling _ _ _ (ti_node _ Hi _ _ He) p Hs) as [Hpar _].
    destruct (entries s !! p) as [pe|] eqn:Hp; [|done]. cbn [deref obind] in H. unfold unlink in H.
    destruct (decide (e ∈ children_list pe)) as [Hin|]; [|done]. cbn [obind] in H. cbv zeta in H.
    assert (p <> e) as Hne by by eapply parent_ne.
    rewrite lookup_put_entry_ne, He in H by done. cbn [deref obind] in H. injection H as <-.
    eapply tree_inv_relink; try done.
    + apply NoDup_filter, (no_nodup _ _ _ (ti_node _ Hi _ _ Hp)).
    + intros c Hc. rewrite list_elem_of_filter. tauto.
    + rewrite list_elem_of_filter. naive_solver.
  - injection H as <-. by eapply tree_inv_unlinked; [done|done|by intros q; rewrite Hs|].
Qed.

(** ** New entries *)

(** An entry or none. *)
Definition known s (x : Z) : Prop := x = 0 \/ is_Some (entries s !! x).

Lemma known_older s x : tree_inv s -> known s x -> older s (next_addr s) x.
Proof.
  intros Hi [->|[xn Hx]]; [by left|right]. pose proof (no_addr _ _ _ (ti_node _ Hi _ _ Hx)). split; [lia|eauto].
Qed.

(** Entries are kept, and there may be more. *)
Definition keeps s s' : Prop := forall x xn, entries s !! x = Some xn -> entries s' !! x = Some xn.

Lemma construct_inv s v p name r e s' : tree_inv s -> construct s v p name r = Ret (e, s') ->
  v = 0 \/ is_Some (vnodes s !! v) -> known s p -> known s r ->
  tree_inv s' /\ keeps s s' /\ vnodes s' = vnodes s /\
  exists en, entries s' !! e = Some en /\ e_parent en = p /\ e_vnode en = v /\
    sibling_link en = Alone /\ e_name en = cstr (name_of en) [] /\
    exists rest, name = cstr (name_of en) rest.
Proof.
  intros Hi H Hv Hp Hr. unfold construct in H. destruct (strlen name) as [n| |] eqn:Hn; try done.
  destruct (strlen_Ret _ _ Hn) as (nm & rest & -> & Hnm & <-).
  destruct (hash_string_cstr nm rest [] Hnm) as (h & Hh & Hh'). rewrite Hh in H. cbn [obind] in H. cbv zeta in H.
  replace (take (length nm + 1) (cstr nm rest)) with (cstr nm []) in H
    by (unfold cstr; rewrite take_app_add; done).
  injection H as <- <-. set (en := mkEntry v p r [] Alone h (cstr nm [])).
  assert (name_of en = nm) as Hname by apply removelast_last.
  assert (entries s !! next_addr s = None) as Hnew.
  { destruct (entries s !! next_addr s) as [x|] eqn:Hx; [|done].
    pose proof (no_addr _ _ _ (ti_node _ Hi _ _ Hx)). lia. }
  assert (keeps s (put_entry (next_addr s) en s <| next_addr ::= Z.add 1 |>)) as Hk.
  { intros x xn Hx. simpl. rewrite lookup_insert_ne; [done|congruence]. }
  split_and!; [|done|done|].
  - split; [|simpl; pose proof (ti_next _ Hi); lia]. intros x xn Hx. simpl in Hx.
    assert (forall y, is_Some (entries s !! y) ->
              is_Some (entries (put_entry (next_addr s) en s <| next_addr ::= Z.add 1 |>) !! y)) as Hdom.
    { intros y [yn Hy]. exists yn. by apply Hk. }
    destruct (decide (next_addr s = x)) as [Hxe|Hne].
    + rewrite <- Hxe, lookup_insert_eq in Hx. injection Hx as <-. pose proof (ti_next _ Hi). split; cbn -[put_entry]; try done.
      * by split; rewrite ?Hname.
      * simpl. lia.
      * eapply older_mono; [exact Hdom|]. rewrite <- Hxe. by apply known_older.
      * eapply older_mono; [exact Hdom|]. rewrite <- Hxe. by apply known_older.
      * constructor.
      * intros c. split; [by intros ?%not_elem_of_nil|]. intros (ce & Hc & Hs). simpl in Hc.
        apply lookup_insert_Some in Hc as [[_ <-]|[_ Hc]]; [done|].
        destruct (no_sibling _ _ _ (ti_node _ Hi _ _ Hc) _ Hs) as [_ [? ?]]. congruence.
    + rewrite lookup_insert_ne in Hx by done. pose proof (ti_node _ Hi _ _ Hx) as Hok.
      destruct (node_shape_mono s (put_entry (next_addr s) en s <| next_addr ::= Z.add 1 |>) x xn Hdom
                  (fun v H => H) ltac:(simpl; lia) (node_ok_shape _ _ _ Hok)).
      split; try done.
      * intros q Hq. destruct (no_sibling _ _ _ Hok q Hq). split; [done|]. by apply Hdom.
      * apply Hok.
      * intros c. rewrite (no_links _ _ _ Hok). simpl. destruct (decide (next_addr s = c)) as [<-|].
        -- rewrite lookup_insert_eq, Hnew. split; intros (? & ? & ?); simplify_eq.
        -- by rewrite lookup_insert_ne.
  - exists en. simpl. rewrite lookup_insert_eq, Hname. split_and!; try done. by exists rest.
Qed.
End inv.

(** ** The laws of the interfaces *)

(** Files and file systems only fill in the vnodes of entries. *)
Class VNodeLaws (D : Type) `{VNodeOps D} := {
  law_open v d s r s' : v_open v d s = Ret (r, s') -> fills s s';
  law_read v d count off s r bytes s' : v_read v d count off s = Ret (r, bytes, s') -> fills s s';
  law_write v d buf off s r s' : v_write v d buf off s = Ret (r, s') -> fills s s';
  law_truncate v d len s r s' : v_truncate v d len s = Ret (r, s') -> fills s s'
}.
Class TreeLaws (D : Type) `{FilesystemOps D} `{VNodeOps D} := {
  law_lookup fs e s s' : fs_lookup fs e s = Ret s' -> fills s s';
  law_create fs e ty s s' : fs_create fs e ty s = Ret s' -> fills s s';
  law_remove fs e s s' : fs_remove fs e s = Ret s' -> fills s s';
  vnode_laws :: VNodeLaws D
}.

Section ops.
Context {D : Type} `{TreeLaws D}.
Implicit Types s : vfs D.

Lemma fills_keeps_entry s s' e en : fills s s' -> entries s !! e = Some en ->
  exists v, entries s' !! e = Some (en <| e_vnode := v |>).
Proof. intros Hf He. destruct (fills_entry' _ _ _ _ Hf He) as (en' & He' & Hen & _). rewrite Hen in He'. eauto. Qed.

Lemma entry_lookup_inv s e en s' : tree_inv s -> entries s !! e = Some en ->
  entry_lookup s e = Ret s' -> tree_inv s' /\ exists en', entries s' !! e = Some en'.
Proof.
  intros Hi He Hl. unfold entry_lookup in Hl. rewrite He in Hl. cbn [deref obind] in Hl. inv_ret.
  rename a0 into s1. apply law_lookup in E0. pose proof (tree_inv_fills _ _ Hi E0) as Hi1.
  destruct (fills_keeps_entry _ _ _ _ E0 He) as (v & He1). destruct a2 as [c|]; [injection Hl as <-; eauto|].
  split; [by eapply add_child_inv|].
  destruct (entries s1 !! e_parent en) as [pe|] eqn:Hp; [|unfold add_child in Hl; by rewrite Hp in Hl].
  apply add_child_Ret in Hl as (? & ? & _ & _ & _ & ->); [|by eapply parent_ne].
  simpl. rewrite lookup_insert_eq. eauto.
Qed.

Lemma lookup_child_inv s p name c s' : tree_inv s -> lookup_child s p name = Ret (c, s') ->
  tree_inv s' /\ is_Some (entries s' !! c).
Proof.
  intros Hi Hl. unfold lookup_child in Hl. inv_ret. destruct a as [c'|].
  - injection Hl as -> ->. split; [done|]. unfold find_child in E. inv_ret.
    clear -E Hi Heqo. pose proof (ew_children _ _ (no_wf _ _ _ (ti_node _ Hi _ _ Heqo))) as Hc.
    induction Hc as [|x l [xn Hx] Hl IH]; [done|]. simpl in E. rewrite Hx in E. cbn [deref obind] in E.
    destruct (_ =? _); [|auto]. inv_ret. destruct (_ =? _); [|auto]. injection E as <-. eauto.
  - inv_ret. destruct a as [e s1]. assert (known s p) as Hp.
    { right. unfold find_child in E. inv_ret. eauto. }
    destruct (construct_inv _ _ _ _ _ _ _ Hi E0 (or_introl eq_refl) Hp (or_introl eq_refl))
      as (Hi1 & _ & _ & en & He & _). inv_ret. simplify_eq.
    destruct (entry_lookup_inv _ _ _ _ Hi1 He E1) as [? [??]]. eauto.
Qed.

(** A child made for a directory: "." or "..". *)
Lemma add_dot_inv s v e name r dot s1 s2 : tree_inv s -> construct s v e name r = Ret (dot, s1) ->
  v = 0 \/ is_Some (vnodes s !! v) -> is_Some (entries s !! e) -> known s r -> add_child s1 e dot = Ret s2 ->
  tree_inv s2 /\ vnodes s2 = vnodes s /\
  (forall x xn, entries s !! x = Some xn -> exists ch, entries s2 !! x = Some (xn <| children_list := ch |>)).
Proof.
  intros Hi Hc Hv He Hr Ha.
  destruct (construct_inv _ _ _ _ _ _ _ Hi Hc Hv (or_intror He) Hr) as (Hi1 & Hk & Hvn & en & Hen & Hp & _).
  split; [by eapply add_child_inv|]. destruct He as [ee He]. pose proof (Hk _ _ He) as He1.
  assert (e <> dot) as Hne by by eapply (parent_ne s1).
  destruct (add_child_Ret _ _ _ _ Hne Ha) as (pe & den & Hpe & Hden & _ & ->). split; [done|].
  intros x xn Hx. pose proof (Hk _ _ Hx) as Hx1.
  assert (dot <> x) as Hdx.
  { intros ->. unfold construct in Hc. inv_ret. simplify_eq. pose proof (no_addr _ _ _ (ti_node _ Hi _ _ Hx)). lia. }
  rewrite lookup_put_entry_ne by done. simpl. destruct (decide (e = x)) as [<-|].
  - rewrite lookup_insert_eq. assert (xn = pe) as -> by congruence. eauto.
  - rewrite lookup_insert_ne by done. exists (children_list xn). by destruct xn.
Qed.

Lemma vnode_of_Ret s e v vn : vnode_of s e = Ret (v, vn) -> is_Some (entries s !! e) /\ is_Some (vnodes s !! v).
Proof. intros Hv. destruct (vnode_of_entry _ _ _ _ Hv) as (en & ? & <- & ?). split; eauto. Qed.

Lemma create_vnode_inv s e ty uid gid mode s' : tree_inv s ->
  create_vnode s e ty uid gid mode = Ret s' -> tree_inv s'.
Proof.
  intros Hi Hc. unfold create_vnode in Hc. inv_ret. rename a into en, a0 into vn.
  match goal with Hs : (if decide _ then _ else _) = Ret ?s1 |- _ => assert (tree_inv s1) as Hi1 end.
  { destruct (decide _); [|by simplify_eq]. inv_ret. destruct a as [dot s1]. inv_ret.
    rename a into s2. destruct a0 as [pv pvn]. inv_ret. destruct a0 as [dotdot s3].
    destruct (add_dot_inv _ _ _ _ _ _ _ _ Hi E ltac:(eauto) ltac:(eauto) ltac:(right; eauto) E0) as (Hi1 & Hv1 & Hk1).
    destruct (Hk1 _ _ Heqo1) as [ch He1]. destruct (vnode_of_entry _ _ _ _ E2) as (pe & Hpe & Hpv & ?).
    simplify_eq. eapply (add_dot_inv s2); first [done | by right; eauto | eauto]. }
  inv_ret. simplify_eq. eapply tree_inv_fills; [done|]. apply fills_put_vnode.
Qed.

Lemma entry_create_inv s e ty uid gid mode s' : tree_inv s ->
  entry_create s e ty uid gid mode = Ret s' -> tree_inv s'.
Proof.
  intros Hi Hc. unfold entry_create in Hc. inv_ret. rename a into en, a0 into s1.
  assert (fills s s1) as Hf.
  { destruct (decide _); [|by simplify_eq]. inv_ret. by eapply law_create. }
  pose proof (tree_inv_fills _ _ Hi Hf) as Hi1.
  match goal with Hx : match ?c with Some _ => _ | None => _ end = Ret ?s2 |- _ =>
    assert (tree_inv s2) as Hi2; [destruct c; [by simplify_eq|]|] end.
  { destruct (fills_keeps_entry _ _ _ _ Hf Heqo0) as (v & He1). by eapply (add_child_inv s1). }
  inv_ret. destruct (_ =? _) in Hc; [by simplify_eq|]. by eapply create_vnode_inv.
Qed.

Lemma entry_remove_inv s e s' : tree_inv s -> entry_remove s e = Ret s' -> tree_inv s'.
Proof.
  intros Hi Hr. unfold entry_remove in Hr. inv_ret. destruct a. inv_ret. destruct a1. simplify_eq.
  eapply tree_inv_fills; [|apply fills_put_vnode]. eapply remove_from_parent_inv; [|done].
  eapply tree_inv_fills; [done|]. by eapply law_remove.
Qed.

Lemma link_target_inv s v rest target s' : tree_inv s -> link_target s v rest = Ret (target, s') -> tree_inv s'.
Proof.
  intros Hi Hl. unfold link_target in Hl. inv_ret. destruct a as [[r bytes] s1]. apply law_read in E.
  pose proof (tree_inv_fills _ _ Hi E). destruct (_ || _); [by simplify_eq|]. inv_ret. by simplify_eq.
Qed.

Lemma walk_inv resolve follow :
  (forall p c s e s', tree_inv s -> resolve p c s = Ret (e, s') -> tree_inv s') ->
  forall fuel path len cur s e s', tree_inv s -> walk resolve follow fuel path len cur s = Ret (e, s') -> tree_inv s'.
Proof.
  intros Hres. induction fuel as [|fuel IH]; intros path len cur s e s' Hi Hw; [done|].
  cbn [walk] in Hw. inv_ret. destruct a as [dv dvn]. destruct (decide _) as [_|_]; [by simplify_eq|]. inv_ret.
  destruct (next_component _ _) as [[n last]|]; [|by eapply IH]. inv_ret. destruct a1 as [c s1].
  destruct (lookup_child_inv _ _ _ _ _ Hi E2) as [Hi1 _]. inv_ret. destruct (_ =? 0); [by simplify_eq|]. inv_ret.
  destruct (decide _) as [_|_].
  - inv_ret. match goal with E : link_target _ _ _ = Ret ?r |- _ => destruct r as [target s2]; rename E into El end.
    pose proof (link_target_inv _ _ _ _ _ Hi1 El) as Hi2. destruct target; [by eapply Hres|by simplify_eq].
  - destruct last; [by simplify_eq|]. inv_ret. by eapply IH.
Qed.

Lemma path_to_entry_inv depth : forall path sp follow s e s',
  tree_inv s -> path_to_entry depth path sp follow s = Ret (e, s') -> tree_inv s'.
Proof.
  induction depth as [|depth IH]; intros path sp follow s e s' Hi Hp; [done|]. cbn [path_to_entry] in Hp.
  inv_ret. destruct (_ =? _)%nat; [by simplify_eq|]. inv_ret.
  assert (forall p c s0 e0 s0', tree_inv s0 -> path_to_entry depth p c follow s0 = Ret (e0, s0') -> tree_inv s0')
    as Hres by (intros; by eapply IH).
  match type of Hp with (if ?b then _ else _) = _ => destruct b end.
  - inv_ret. match type of Hp with (if ?b then _ else _) = _ => destruct b end; [by simplify_eq|].
    by eapply (walk_inv (fun p c s => path_to_entry depth p c follow s)).
  - match type of Hp with (if ?b then _ else _) = _ => destruct b end; [by simplify_eq|].
    by eapply (walk_inv (fun p c s => path_to_entry depth p c follow s)).
Qed.

Lemma create_entry_inv s p name v uid gid mode e s' : tree_inv s ->
  create_entry s p name v uid gid mode = Ret (e, s') -> tree_inv s'.
Proof.
  intros Hi Hc. unfold create_entry in Hc. inv_ret. destruct a as [e1 s1]. inv_ret. simplify_eq.
  destruct (lookup_child_inv _ _ _ _ _ Hi E) as [Hi1 _]. eapply entry_create_inv; [|done].
  eapply tree_inv_fills; [done|]. apply fills_set_vnode; [done|]. right. eauto.
Qed.
End ops.

(** ** Chains end *)

Section chains.
Context {D : Type}.
Implicit Types s : vfs D.

(** How many entries are not newer than [e]. *)
Definition age s (e : Z) : nat := size (filter (fun x => x <= e) (dom (entries s))).

Lemma age_older s e x en : entries s !! e = Some en -> x < e -> is_Some (entries s !! x) -> (age s x < age s e)%nat.
Proof.
  intros He Hlt Hx. unfold age. apply subset_size. split.
  - intros y. rewrite !elem_of_filter. intros [? ?]. split; [lia|done].
  - intros Hs. specialize (Hs e). rewrite !elem_of_filter in Hs. destruct Hs as [? _]; [|lia].
    split; [lia|]. apply elem_of_dom. eauto.
Qed.

Lemma age_size s e : (age s e <= size (entries s))%nat.
Proof. unfold age. rewrite <- size_dom. apply subseteq_size. intros y Hy. by apply elem_of_filter in Hy as [_ ?]. Qed.

Lemma reduce_loop_returns s : tree_inv s -> forall fuel e en, entries s !! e = Some en -> (age s e < fuel)%nat ->
  exists r, reduce_loop fuel s e = Ret r.
Proof.
  intros Hi. induction fuel as [|fuel IH]; intros e en He Hf; [lia|]. cbn [reduce_loop]. rewrite He. cbn [deref obind].
  destruct (Z.eqb_spec (redirect en) 0); [eauto|].
  destruct (no_redirect _ _ _ (ti_node _ Hi _ _ He)) as [?|[Hlt [xn Hx]]]; [done|].
  eapply IH; [done|]. pose proof (age_older s e (redirect en) en He Hlt ltac:(eauto)). lia.
Qed.

Lemma reduce_returns s e en : tree_inv s -> entries s !! e = Some en -> exists r, reduce s e = Ret r.
Proof. intros Hi He. eapply reduce_loop_returns; [done..|]. pose proof (age_size s e). lia. Qed.
End chains.
