(* ===== verification/TmpfsInv.v ===== *)
(** * tmpfs and the tree

    tmpfs keeps the laws of [TreeLaws], and the tree [init] makes is a forest. *)

From S2P Require Import Prelude CString TimeSpec Links Vfs Tmpfs VfsFacts VfsInv.

Lemma fills_put_data d nd s : fills s (put_data d nd s).
Proof. by apply fills_other. Qed.

Lemma VNode_defaults_laws : @VNodeLaws tmpfs VNode_defaults.
Proof. split; simpl; intros; simplify_eq; reflexivity. Qed.

(** [create] gives the entry a vnode. *)
Lemma tmpfs_create_fills fs e ty s s' : tmpfs_create fs e ty s = Ret s' -> fills s s'.
Proof.
  intros Hc. unfold tmpfs_create in Hc. inv_ret. destruct a1 as [v vn]. inv_ret. simplify_eq.
  match goal with Hx : (if _ then _ else _) = Ret ?s1 |- _ => rename s1 into s0; assert (fills s s0) as Hf end.
  { destruct (_ =? 0); [|by simplify_eq]. inv_ret. simplify_eq.
    etransitivity; [|apply fills_set_vnode; [done|right; simpl; rewrite lookup_insert_eq; eauto]].
    etransitivity; [apply (fills_put_vnode (next_addr s) (VNode_init ty))|]. apply fills_other; simpl; try done. lia. }
  etransitivity; [exact Hf|]. etransitivity; [apply fills_put_vnode|]. apply fills_other; simpl; try done. lia.
Qed.

Section laws.
Context (uninit : nat -> list Z) (devices : VNodeOps tmpfs) (Hdev : @VNodeLaws tmpfs devices).

Lemma tmpfs_vnode_laws : @VNodeLaws tmpfs (tmpfs_vnode_ops uninit devices).
Proof.
  split; cbn -[node_read node_write node_truncate]; intros * Hr; destruct (is_node s v);
    try (first [by apply Hdev in Hr]).
  - by simplify_eq.
  - unfold node_read in Hr. inv_ret. destruct a; [by simplify_eq|]. inv_ret. destruct a.
    destruct (_ >=? _); [by simplify_eq|]. inv_ret. by simplify_eq.
  - unfold node_write in Hr. inv_ret. destruct a; [by simplify_eq|]. inv_ret. destruct a.
    destruct (_ =? _); [by simplify_eq|]. inv_ret. simplify_eq. apply fills_put_data.
  - unfold node_truncate in Hr. inv_ret. destruct a; [by simplify_eq|]. inv_ret. destruct a.
    inv_ret. simplify_eq. apply fills_put_data.
Qed.

Lemma tmpfs_tree_laws : @TreeLaws tmpfs tmpfs_ops (tmpfs_vnode_ops uninit devices).
Proof.
  split; simpl; intros *.
  - unfold tmpfs_lookup. intros. inv_ret. by simplify_eq.
  - apply tmpfs_create_fills.
  - unfold tmpfs_remove. intros. inv_ret. by simplify_eq.
  - apply tmpfs_vnode_laws.
Qed.
End laws.

Lemma tmpfs_mount_fills e s fs s' : tmpfs_mount e s = Ret (fs, s') -> fills s s'.
Proof.
  intros Hm. unfold tmpfs_mount in Hm. inv_ret. destruct a0 as [v vn]. simplify_eq.
  etransitivity; [|apply fills_put_vnode]. etransitivity; [|by eapply tmpfs_create_fills].
  apply fills_other; simpl; try done. lia.
Qed.

(** The tree does not depend on which entries are the root and the null entry. *)
Lemma tree_inv_same {D} (s s' : vfs D) : tree_inv s -> entries s' = entries s -> vnodes s' = vnodes s ->
  next_addr s' = next_addr s -> tree_inv s'.
Proof.
  intros [Hn Hx] He Hv Ha. split; [|lia]. intros e en. rewrite He. intros Hen.
  destruct (Hn e en Hen) as [[? ? ? Hc] ? ? ? ? ? ? ?].
  split; unfold older in *; rewrite ?He, ?Hv, ?Ha; try done. split; try done. by rewrite He.
Qed.

Lemma init_inv now0 s : init now0 = Ret s -> tree_inv s.
Proof.
  intros Hi. unfold init in Hi. cbv zeta in Hi. set (s0 := mkVfs _ _ _ _ _ _ _) in Hi.
  assert (tree_inv s0) as H0 by (split; [done|simpl; lia]). clearbody s0.
  inv_ret. destruct a as [r s1]. inv_ret. destruct a as [n s2].
  destruct (construct_inv _ _ _ _ _ _ _ H0 E (or_introl eq_refl) (or_introl eq_refl) (or_introl eq_refl))
    as (H1 & _ & _ & ren & Hr & _).
  destruct (construct_inv _ _ _ _ _ _ _ H1 E0 (or_introl eq_refl) (or_introl eq_refl) (or_introl eq_refl))
    as (H2 & Hk & _).
  assert (tree_inv (s2 <| root := r |> <| null_entry := n |>)) as H3 by by apply (tree_inv_same s2).
  inv_ret. destruct a as [fs s3]. pose proof (tmpfs_mount_fills _ _ _ _ E1) as Hf.
  pose proof (tree_inv_fills _ _ H3 Hf) as H4.
  assert (is_Some (entries s3 !! r)) as Hr3 by (apply (fills_is_Some _ _ _ Hf); exists ren; by apply Hk).
  inv_ret. destruct a as [v vn]. destruct (vnode_of_Ret _ _ _ _ E2) as [_ Hv].
  inv_ret. destruct a as [dot s4]. inv_ret.
  destruct (add_dot_inv _ _ _ _ _ _ _ _ H4 E3 (or_intror Hv) Hr3 (or_intror Hr3) ltac:(eassumption)) as (H5 & Hv5 & Hk5).
  destruct a0 as [dotdot s5]. inv_ret.
  assert (is_Some (entries a !! r)) as Hr5 by (destruct Hr3 as [? Hr3]; destruct (Hk5 _ _ Hr3); eauto).
  rewrite <- Hv5 in Hv.
  destruct (add_dot_inv _ _ _ _ _ _ _ _ H5 ltac:(eassumption) (or_intror Hv) Hr5 (or_intror Hr5) ltac:(eassumption)) as (H6 & _).
  match goal with Hs : (let (_, _) := ?x in _) = Ret s |- _ => destruct x end.
  simplify_eq. eapply tree_inv_fills; [done|apply fills_put_vnode].
Qed.
