(* ===== verification/VfsReach.v ===== *)
(** * The calls keep the tree a forest

    A run is a sequence of calls, each made by a process of some state of the
    kernel; [run_calls] is what they make of the tree. *)

From S2P Require Import Prelude CString HashTable TimeSpec Context Cred Vector Links Sched FdTable Vfs Tmpfs VfsCalls VfsTree Mount VfsFacts VfsInv.

(** ** Runs *)

Inductive tree_call :=
| CallOpen (t p dirfd : Z) (path : mem) (flags mode : Z)
| CallMkdir (t p dirfd : Z) (path : mem) (mode : Z)
| CallRead (p fd count : Z)
| CallWrite (p fd : Z) (buf : list Z)
| CallPread (p fd count offset : Z)
| CallPwrite (p fd : Z) (buf : list Z) (offset : Z)
| CallReadv (p fd : Z) (iovs : list Z)
| CallWritev (p fd : Z) (iovs : list (list Z))
| CallChdir (p : Z) (path : mem)
| CallUnlink (p dirfd : Z) (path : mem) (flags : Z)
| CallRename (p old_dirfd : Z) (old_path : mem) (new_dirfd : Z) (new_path : mem)
| CallLink (p old_dirfd : Z) (old_path : mem) (new_dirfd : Z) (new_path : mem)
| CallSymlink (t p : Z) (target : mem) (dirfd : Z) (path : mem)
| CallReadlink (p dirfd : Z) (path : mem) (count : Z)
| CallMknod (device : NodeType -> Z -> option (Z * VNode)) (fifo : Z * VNode) (t p dirfd : Z) (path : mem) (mode dev : Z)
| CallStat (p fd : Z) (path : option mem) (flags : Z)
| CallChown (p fd : Z) (path : option mem) (owner group flags : Z)
| CallChmod (p fd : Z) (path : option mem) (mode flags : Z)
| CallTruncate (p : Z) (path : mem) (len : Z)
| CallFtruncate (p fd len : Z)
| CallMount (m : mounts) (p : Z) (source target : mem) (fs_type : char_ptr).

Section reach.
Context {D : Type} `{FilesystemOps D} `{VNodeOps D} `{FilesystemInfo D} `{FilesystemDriverOps D}.
Context {laws : TreeLaws D}.
Context (mount_law : forall driver e s fs s', driver_mount driver e s = Ret (fs, s') -> fills s s').
Context (depth : nat) (have_memory : bool).
Implicit Types (k : kernel) (s : vfs D).

(** The tree after the call. *)
Definition exec_call k (c : tree_call) s : outcome (vfs D) :=
  match c with
  | CallOpen t p dirfd path flags mode => let! (_, _, s) := openat_impl depth k s t p dirfd path flags mode in Ret s
  | CallMkdir t p dirfd path mode => let! (_, s) := mkdirat_impl depth k s t p dirfd path mode in Ret s
  | CallRead p fd count => let! (_, _, _, s) := syscall_read k s p fd count in Ret s
  | CallWrite p fd buf => let! (_, _, s) := syscall_write k s p fd buf in Ret s
  | CallPread p fd count offset => let! (_, _, s) := syscall_pread64 k s p fd count offset in Ret s
  | CallPwrite p fd buf offset => let! (_, s) := syscall_pwrite64 k s p fd buf offset in Ret s
  | CallReadv p fd iovs => let! (_, _, _, s) := syscall_readv k s p fd iovs in Ret s
  | CallWritev p fd iovs => let! (_, _, s) := syscall_writev k s p fd iovs in Ret s
  | CallChdir p path => let! (_, _, s) := syscall_chdir depth k s p path in Ret s
  | CallUnlink p dirfd path flags => let! (_, s) := unlinkat_impl depth k s p dirfd path flags in Ret s
  | CallRename p od op nd np => let! (_, s) := renameat_impl depth k s p od op nd np in Ret s
  | CallLink p od op nd np => let! (_, s) := linkat_impl depth k s p od op nd np in Ret s
  | CallSymlink t p target dirfd path => let! (_, s) := symlinkat_impl depth k s t p target dirfd path in Ret s
  | CallReadlink p dirfd path count => let! (_, _, s) := readlinkat_impl depth k s p dirfd path count in Ret s
  | CallMknod device fifo t p dirfd path mode dev =>
      let! (_, s) := mknodat_impl depth device fifo k s t p dirfd path mode dev in Ret s
  | CallStat p fd path flags => let! (_, _, s) := fstatat_impl depth k s p fd path flags in Ret s
  | CallChown p fd path owner group flags => let! (_, s) := fchownat_impl depth k s p fd path owner group flags in Ret s
  | CallChmod p fd path mode flags => let! (_, s) := fchmodat2_impl depth k s p fd path mode flags in Ret s
  | CallTruncate p path len => let! (_, s) := syscall_truncate depth k s p path len in Ret s
  | CallFtruncate p fd len => let! (_, s) := syscall_ftruncate k s p fd len in Ret s
  | CallMount m p source target fs_type =>
      let! (_, _, s) := syscall_mount depth have_memory m k s p source target fs_type in Ret s
  end.

(** Each call with the state of the kernel it is made in. *)
Fixpoint run_calls (cs : list (kernel * tree_call)) s : outcome (vfs D) :=
  match cs with
  | [] => Ret s
  | (k, c) :: cs => let! s := exec_call k c s in run_calls cs s
  end.

(** ** Each call *)

(** Splits a successful run into the steps of its branch. *)
Ltac run_steps :=
  repeat (progress (inv_ret; simplify_eq) ||
    match goal with
    | H : match ?x with _ => _ end = Ret _ |- _ => destruct x
    end).

Lemma resolve_at_inv k s p dirfd path fl r s' : tree_inv s ->
  resolve_at depth k s p dirfd path fl = Ret (r, s') -> tree_inv s'.
Proof. unfold resolve_at. intros. run_steps; try done. by eapply path_to_entry_inv. Qed.

Lemma get_vnode_from_dirfd_path_inv k s p fd path flags r s' : tree_inv s ->
  get_vnode_from_dirfd_path depth k s p fd path flags = Ret (r, s') -> tree_inv s'.
Proof. unfold get_vnode_from_dirfd_path. intros. run_steps; try done; by eapply resolve_at_inv. Qed.

Lemma set_entry_vnode_inv s e v s' : tree_inv s -> v = 0 \/ is_Some (vnodes s !! v) ->
  set_entry_vnode s e v = Ret s' -> tree_inv s'.
Proof.
  unfold set_entry_vnode. intros Hi Hv Hr. run_steps. eapply tree_inv_fills; [done|]. by apply fills_set_vnode.
Qed.

(** Another entry's vnode. *)
Lemma share_vnode_inv s e x xn s' : tree_inv s -> entries s !! x = Some xn ->
  set_entry_vnode s e (e_vnode xn) = Ret s' -> tree_inv s'.
Proof. intros Hi Hx. apply set_entry_vnode_inv; [done|]. apply (no_vnode _ _ _ (ti_node _ Hi _ _ Hx)). Qed.

(** A vnode made for the entry. *)
Lemma new_vnode_inv s e v vn s' : tree_inv s -> set_entry_vnode s e v = Ret s' -> tree_inv (put_vnode v vn s').
Proof.
  unfold set_entry_vnode. intros Hi Hr. run_steps.
  match goal with He : entries s !! e = Some ?en |- _ =>
    change (tree_inv (put_entry e (en <| e_vnode := v |>) (put_vnode v vn s))) end.
  eapply tree_inv_fills; [eapply tree_inv_fills; [done|apply fills_put_vnode]|].
  apply fills_set_vnode; [done|]. right. simpl. rewrite lookup_insert_eq. eauto.
Qed.

Lemma readv_inv v d iovs : forall s off tr acc r bufs s', tree_inv s ->
  vnode_readv s v d iovs off tr acc = Ret (r, bufs, s') -> tree_inv s'.
Proof.
  induction iovs as [|len iovs IH]; intros s off tr acc r bufs s' Hi Hr; simpl in Hr; [by simplify_eq|].
  destruct (len =? 0); [by eapply IH|]. inv_ret. destruct a as [[ret bytes] s1]. apply law_read in E.
  pose proof (tree_inv_fills _ _ Hi E). destruct (ret <? 0); [by simplify_eq|].
  destruct (ret <? _); [by simplify_eq|by eapply IH].
Qed.
Lemma writev_inv v d iovs : forall s off tr r s', tree_inv s ->
  vnode_writev s v d iovs off tr = Ret (r, s') -> tree_inv s'.
Proof.
  induction iovs as [|buf iovs IH]; intros s off tr r s' Hi Hr; simpl in Hr; [by simplify_eq|].
  destruct (_ =? 0); [by eapply IH|]. inv_ret. destruct a as [ret s1]. apply law_write in E.
  pose proof (tree_inv_fills _ _ Hi E). destruct (ret <? 0); [by simplify_eq|].
  destruct (ret <? _); [by simplify_eq|by eapply IH].
Qed.

(** Follows the invariant along the steps. *)
Ltac follow :=
  repeat match goal with
  | Hi : tree_inv ?s, E : path_to_entry _ _ _ _ ?s = Ret _ |- _ => apply (path_to_entry_inv _ _ _ _ _ _ _ Hi) in E
  | Hi : tree_inv ?s, E : resolve_at _ _ ?s _ _ _ _ = Ret _ |- _ => apply (resolve_at_inv _ _ _ _ _ _ _ _ Hi) in E
  | Hi : tree_inv ?s, E : get_vnode_from_dirfd_path _ _ ?s _ _ _ _ = Ret _ |- _ =>
      apply (get_vnode_from_dirfd_path_inv _ _ _ _ _ _ _ _ Hi) in E
  | Hi : tree_inv ?s, E : vnode_readv ?s _ _ _ _ _ _ = Ret _ |- _ => apply (readv_inv _ _ _ _ _ _ _ _ _ _ Hi) in E
  | Hi : tree_inv ?s, E : vnode_writev ?s _ _ _ _ _ = Ret _ |- _ => apply (writev_inv _ _ _ _ _ _ _ _ Hi) in E
  | Hi : tree_inv ?s, E : set_entry_vnode ?s _ _ = Ret _ |- _ => eapply (share_vnode_inv _ _ _ _ _ Hi) in E; [|eassumption]
  | Hi : tree_inv ?s, E : entry_create ?s _ _ _ _ _ = Ret _ |- _ => apply (entry_create_inv _ _ _ _ _ _ _ Hi) in E
  | Hi : tree_inv ?s, E : entry_remove ?s _ = Ret _ |- _ => apply (entry_remove_inv _ _ _ Hi) in E
  | Hi : tree_inv ?s, E : v_open _ _ (put_vnode ?v ?vn ?s) = Ret _ |- _ =>
      apply law_open, (tree_inv_fills _ _ (tree_inv_fills _ _ Hi (fills_put_vnode v vn s))) in E
  | Hi : tree_inv ?s, E : v_read _ _ _ _ ?s = Ret _ |- _ => apply law_read, (tree_inv_fills _ _ Hi) in E
  | Hi : tree_inv ?s, E : v_write _ _ _ _ ?s = Ret _ |- _ => apply law_write, (tree_inv_fills _ _ Hi) in E
  | Hi : tree_inv ?s, E : v_truncate _ _ _ ?s = Ret _ |- _ => apply law_truncate, (tree_inv_fills _ _ Hi) in E
  | |- tree_inv (put_vnode _ _ _) => eapply tree_inv_fills; [|apply fills_put_vnode]
  end; try done.
Ltac call := intros; run_steps; follow.


Lemma openat_inv k s t p dirfd path flags mode r k' s' : tree_inv s ->
  openat_impl depth k s t p dirfd path flags mode = Ret (r, k', s') -> tree_inv s'.
Proof. unfold openat_impl, open_entry, new_description, vnode_of. call. Qed.

Lemma mkdirat_inv k s t p dirfd path mode r s' : tree_inv s ->
  mkdirat_impl depth k s t p dirfd path mode = Ret (r, s') -> tree_inv s'.
Proof. unfold mkdirat_impl. call. Qed.

Lemma rename_inv k s p od op nd np r s' : tree_inv s ->
  renameat_impl depth k s p od op nd np = Ret (r, s') -> tree_inv s'.
Proof. unfold renameat_impl. call. Qed.

Lemma link_inv k s p od op nd np r s' : tree_inv s ->
  linkat_impl depth k s p od op nd np = Ret (r, s') -> tree_inv s'.
Proof. unfold linkat_impl. call. Qed.

Lemma unlink_inv k s p dirfd path flags r s' : tree_inv s ->
  unlinkat_impl depth k s p dirfd path flags = Ret (r, s') -> tree_inv s'.
Proof. unfold unlinkat_impl. call. Qed.

Lemma symlink_inv k s t p target dirfd path r s' : tree_inv s ->
  symlinkat_impl depth k s t p target dirfd path = Ret (r, s') -> tree_inv s'.
Proof. unfold symlinkat_impl. call. Qed.

Lemma mknod_inv device fifo k s t p dirfd path mode dev r s' : tree_inv s ->
  mknodat_impl depth device fifo k s t p dirfd path mode dev = Ret (r, s') -> tree_inv s'.
Proof.
  unfold mknodat_impl. intros. run_steps; follow.
  all: match goal with Hi : tree_inv ?s0, E : set_entry_vnode ?s0 ?e ?v = Ret ?s1, Ec : entry_create (put_vnode _ ?vn ?s1) _ _ _ _ _ = Ret _ |- _ =>
    eapply (entry_create_inv (put_vnode v vn s1)); [by eapply new_vnode_inv|done] end.
Qed.

Lemma mount_inv m k s p source target fs_type r m' s' : tree_inv s ->
  syscall_mount depth have_memory m k s p source target fs_type = Ret (r, m', s') -> tree_inv s'.
Proof.
  unfold syscall_mount, mount. call.
  match goal with E : driver_mount _ _ _ = Ret _ |- _ => apply mount_law in E end. by eapply tree_inv_fills.
Qed.

Lemma exec_call_inv k c s s' : tree_inv s -> exec_call k c s = Ret s' -> tree_inv s'.
Proof.
  intros Hi. destruct c; cbn [exec_call]; intros He; inv_ret;
    repeat match goal with H : (let '(_, _) := ?x in _) = Ret _ |- _ => destruct x end; simplify_eq;
    first
      [ by eapply openat_inv | by eapply mkdirat_inv | by eapply unlink_inv | by eapply rename_inv
      | by eapply link_inv | by eapply symlink_inv | by eapply mknod_inv | by eapply mount_inv | idtac ].
  all: revert E.
  all: unfold syscall_read, syscall_write, syscall_pread64, syscall_pwrite64, syscall_readv, syscall_writev,
      syscall_chdir, readlinkat_impl, fstatat_impl, fchownat_impl, fchmodat2_impl, syscall_truncate,
      syscall_ftruncate, with_description, seek_to_end_if_append.
  all: call.
Qed.

Lemma run_calls_inv cs : forall s s', tree_inv s -> run_calls cs s = Ret s' -> tree_inv s'.
Proof.
  induction cs as [|[k c] cs IH]; intros s s' Hi Hr; cbn [run_calls] in Hr; [by simplify_eq|].
  inv_ret. eapply IH; [|done]. by eapply exec_call_inv.
Qed.
End reach.
