(* ===== verification/VfsProps.v ===== *)
(** * Properties of paths and of the tree

    Resolution of paths, the forest after any calls, a concrete tree, and what the
    calls do that they should not. *)

From S2P Require Import Prelude CString TimeSpec Context Cred Vector Links Sched SchedProps FdTable Vfs Tmpfs VfsCalls VfsTree Mount VfsFacts VfsInv TmpfsInv VfsReach.

(** ** Resolution of paths *)

Section paths.
Context {D : Type} `{FilesystemOps D} `{VNodeOps D}.
Implicit Types s : vfs D.

(** The path of the components, from the root or from a starting point. *)
Definition path_text (absolute : bool) (names : list (list Z)) : list Z :=
  if absolute then slash :: join names else join names.

(** Where the walk begins. *)
Definition starts (absolute : bool) s (sp e : Z) : Prop :=
  if absolute then e = root s /\ (sp = 0 \/ exists r, reduce s sp = Ret r)
  else sp <> 0 /\ reduce s sp = Ret e.

Lemma component_head nm names : component nm ->
  exists c l, join (nm :: names) = c :: l /\ c <> 0 /\ c <> slash.
Proof.
  intros (Ht & Hne & Hs). destruct nm as [|c nm]; [done|].
  assert (join ((c :: nm) :: names) = c :: (nm ++ match names with [] => [] | _ => slash :: join names end))
    as -> by (destruct names; simpl; [by rewrite app_nil_r|done]).
  eexists _, _. split; [done|]. apply Forall_cons in Ht as [Hc _].
  split; [done|]. intros ->. apply Hs. left.
Qed.

(** The path of non-empty components is walked from the right place. *)
Lemma path_to_entry_walk absolute s sp e nm names rest depth follow :
  Forall component (nm :: names) -> starts absolute s sp e ->
  path_to_entry (S depth) (cstr (path_text absolute (nm :: names)) rest) sp follow s =
    walk (fun p cur s => path_to_entry depth p cur follow s) follow
      (S (length (cstr (join (nm :: names)) rest))) (cstr (join (nm :: names)) rest)
      (Z.of_nat (length (join (nm :: names)))) e s.
Proof.
  intros Hc Hst. pose proof (join_text _ Hc) as Ht. apply Forall_cons in Hc as [Hc _].
  destruct (component_head nm names Hc) as (c & l & Hj & Hc0 & Hcs).
  assert (chars (path_text absolute (nm :: names))) as Htp.
  { destruct absolute; [constructor; [apply slash_char|done]|done]. }
  cbn [path_to_entry]. rewrite strlen_cstr by done. cbn [obind].
  destruct absolute; unfold path_text, starts in *.
  - destruct Hst as [-> Hsp]. cbn [length Nat.eqb].
    assert (exists x, (if sp =? 0 then Ret 0 else reduce s sp) = Ret x) as [x ->].
    { destruct (Z.eqb_spec sp 0); [eauto|]. destruct Hsp; [done|done]. }
    cbn [obind cstr app head deref tail]. rewrite Z.eqb_refl. rewrite Hj. cbn [app head deref obind].
    rewrite (proj2 (Z.eqb_neq c 0)) by done. f_equal. cbn [length]. lia.
  - destruct Hst as [Hsp Hred]. rewrite (proj2 (Z.eqb_neq sp 0)) by done. rewrite Hred, Hj.
    cbn [length Nat.eqb obind cstr app head deref].
    by rewrite (proj2 (Z.eqb_neq c slash)) by done.
Qed.

(** C5. Paths resolve to what the tree says: a path of non-empty components, from
    the root or from a starting point, whose directories exist and are not links,
    resolves to the child of its last directory that has the last name, whatever
    file it is (a link only if links are not followed), and resolving it changes
    nothing. One level of the stack is enough. If the last child is a link that is
    followed, the resolution is that of the link's target, from the directory the
    link is in, with one level of the stack less. *)
Theorem path_resolution absolute dirs nm rest depth follow s sp e d c v vn :
  tree_wf s -> Forall component (dirs ++ [nm]) -> starts absolute s sp e ->
  resolves s e dirs d -> is_dir s d -> child_file s d nm c v vn ->
  (follow = false \/ node_type vn <> SYMLINK ->
     path_to_entry (S depth) (cstr (path_text absolute (dirs ++ [nm])) rest) sp follow s = Ret (c, s)) /\
  (forall target, follow = true -> node_type vn = SYMLINK -> chars target -> (length target <= 127)%nat ->
     v_read v None 128 0 s = Ret (Z.of_nat (length target), target, s) ->
     path_to_entry (S depth) (cstr (path_text absolute (dirs ++ [nm])) rest) sp follow s =
       path_to_entry depth (cstr target (replicate (255 - length target) 0)) d follow s).
Proof.
  intros Hwf Hc Hst Hr Hdir Hch.
  assert (exists n names, dirs ++ [nm] = n :: names) as (n & names & Hn) by (destruct dirs; simpl; eauto).
  pose proof Hc as Hc'. rewrite Hn in Hc'.
  rewrite Hn, (path_to_entry_walk absolute s sp e n names rest depth follow Hc' Hst), <- Hn.
  set (fuel := S (length (cstr (join (dirs ++ [nm])) rest))).
  assert (length (dirs ++ [nm]) < fuel)%nat as Hfuel.
  { pose proof (join_length _ Hc). unfold fuel, cstr. rewrite (length_app (join _)). simpl. lia. }
  rewrite (walk_down _ _ _ nm _ dirs fuel e d s eq_refl Hwf Hc Hr ltac:(lia)).
  rewrite length_app in Hfuel. simpl in Hfuel.
  replace (fuel - length dirs)%nat with (S (fuel - length dirs - 1)) by lia.
  assert (component nm) as Hnm by (apply Forall_app in Hc as [_ Hc]; by inversion Hc).
  split.
  - intros Hf. by eapply walk_last.
  - intros target -> Hsym Htx Hlen Hrd.
    exact (walk_link (fun p cur s => path_to_entry depth p cur true s) _ nm rest d c v vn target s
             Hwf Hnm Hdir Hch Hsym Htx Hlen Hrd).
Qed.
End paths.

(** ** The tree stays a forest *)

Lemma print_path_returns {D} (s : vfs D) : tree_inv s -> forall fuel e en,
  entries s !! e = Some en -> (age s e < fuel)%nat -> exists path, print_path fuel s e = Ret path.
Proof.
  intros Hi. induction fuel as [|fuel IH]; intros e en He Hf; [lia|]. cbn [print_path]. rewrite He. cbn [deref obind].
  pose proof (ti_node _ Hi _ _ He) as Hok. destruct (no_wf _ _ _ Hok) as [Ht Hn _ _].
  rewrite Hn, strlen_cstr by done. destruct (Z.eqb_spec (e_parent en) 0); [cbn [obind]; eauto|].
  destruct (no_parent _ _ _ Hok) as [?|[Hlt [pe Hp]]]; [done|]. rewrite Hp. cbn [deref obind].
  destruct (e_parent pe =? 0); [cbn [obind]; eauto|].
  pose proof (age_older s e (e_parent en) en He Hlt ltac:(eauto)).
  destruct (IH (e_parent en) pe Hp ltac:(lia)) as [path ->]. cbn [obind]. eauto.
Qed.

(** The driver of [mount] and of the calls is tmpfs. *)
#[export] Instance tmpfs_only : FilesystemDriverOps tmpfs := tmpfs_driver_ops 0 0.


(** ** A tree

    [/d/f] is a file, [/d/l] a link to [f] and [/loop] a link to itself. *)

#[export] Instance sample_vnode_ops : VNodeOps tmpfs := tmpfs_vnode_ops (fun n => replicate n 170) VNode_defaults.

(** Process 1, in the root directory, with thread 1. *)
Definition tree_kernel : kernel :=
  put_process 1 (sample_process 1 1 [1] 20 <| cwd := root root_fs |> <| umask := 18 |>) sample.

Definition make_tree : list (kernel * tree_call) :=
  [(tree_kernel, CallMkdir 1 1 AT_FDCWD [47;100;0] 511);
   (tree_kernel, CallOpen 1 1 AT_FDCWD [47;100;47;102;0] (O_CREAT .| O_WRONLY) 420);
   (tree_kernel, CallSymlink 1 1 [102;0] AT_FDCWD [47;100;47;108;0]);
   (tree_kernel, CallSymlink 1 1 [47;108;111;111;112;0] AT_FDCWD [47;108;111;111;112;0])].
Definition make_sample : outcome (vfs tmpfs) := run_calls 3 true make_tree root_fs.
Definition sample_fs : vfs tmpfs := ret_of root_fs make_sample.

Lemma sample_fs_made : make_sample = Ret sample_fs.
Proof. vm_compute. reflexivity. Qed.

Lemma sample_laws : @TreeLaws tmpfs tmpfs_ops sample_vnode_ops.
Proof. apply tmpfs_tree_laws, VNode_defaults_laws. Qed.

Lemma sample_inv : tree_inv sample_fs.
Proof.
  eapply (run_calls_inv (laws := sample_laws)); [|by eapply init_inv, root_fs_init|apply sample_fs_made].
  intros ? e ? ? ?. by apply (tmpfs_mount_fills e).
Qed.


(** The vnode of an entry of the sample. *)
Definition sample_vnode (e : Z) : Z * VNode :=
  ret_of (0, VNode_init REGULAR) (vnode_of sample_fs e).

(** [/d/l], the link followed and not. *)
Lemma path_resolution_witness :
  (path_to_entry 1 (cstr [47;100;47;108] [9]) 0 false sample_fs = Ret (4111, sample_fs)) /\
  (path_to_entry 2 (cstr [47;100;47;108] [9]) 0 true sample_fs =
   path_to_entry 1 (cstr [102] (replicate 254 0)) 4103 true sample_fs).
Proof.
  pose proof (tree_inv_wf _ sample_inv) as Hwf.
  assert (Forall component ([[100]] ++ [[108]])) as Hc.
  { repeat (constructor; [split_and!; [by repeat constructor|done|by vm_compute; intros ?%list_elem_of_singleton]|]). constructor. }
  assert (resolves sample_fs 4096 [[100]] 4103) as Hr.
  { apply (resolves_cons _ _ _ _ 4103 4104 (sample_vnode 4103).2 4103); [|split_and!; [|vm_compute; reflexivity|done]|..];
      try (vm_compute; (reflexivity || discriminate)); [|constructor].
    exists 4099, (sample_vnode 4096).2. split; vm_compute; reflexivity. }
  assert (is_dir sample_fs 4103) as Hd
    by (exists 4104, (sample_vnode 4103).2; split; vm_compute; reflexivity).
  assert (child_file sample_fs 4103 [108] 4111 4112 (sample_vnode 4111).2) as Hf
    by (split_and!; [vm_compute; reflexivity|vm_compute; reflexivity|done]).
  assert (starts true sample_fs 0 4096) as Hst by (split; [vm_compute; reflexivity|by left]).
  pose proof (path_resolution true [[100]] [108] [9] 0 false sample_fs 0 4096 4103 4111 4112 _ Hwf Hc Hst Hr Hd Hf) as [H1 _].
  pose proof (path_resolution true [[100]] [108] [9] 1 true sample_fs 0 4096 4103 4111 4112 _ Hwf Hc Hst Hr Hd Hf) as [_ H2].
  split.
  - apply H1. by left.
  - apply (H2 [102] eq_refl); [vm_compute; reflexivity|by repeat constructor|simpl; lia|vm_compute; reflexivity].
Defined.

(** ** What the code does not do *)

Definition d_f : mem := [47;100;47;102;0].
Definition d_l : mem := [47;100;47;108;0].

(** The result of [stat] or [lstat] on a path, by process 1. *)
Definition stat_result (path : mem) (flags : Z) (s : vfs tmpfs) : outcome Z :=
  let! (r, _, _) := fstatat_impl 3 tree_kernel s 1 AT_FDCWD (Some path) flags in Ret r.

(** Renaming a file to its own name deletes it. *)
Lemma rename_onto_itself_deletes :
  (let! (r, s) := syscall_rename 3 tree_kernel sample_fs 1 d_f d_f in
   let! st := stat_result d_f 0 s in Ret (r, st)) = Ret (0, - ENOENT).
Proof. vm_compute. reflexivity. Qed.

(** A renamed directory is empty: its children stay with the old entry. *)
Lemma rename_directory_loses_children :
  (let! (r, s) := syscall_rename 3 tree_kernel sample_fs 1 [47;100;0] [47;101;0] in
   let! st := stat_result [47;101;47;102;0] 0 s in Ret (r, st)) = Ret (0, - ENOENT).
Proof. vm_compute. reflexivity. Qed.

(** A link into a directory that does not exist dereferences the null parent of the
    null entry, after giving the null entry a vnode. *)
Lemma link_into_missing_directory :
  syscall_link 3 tree_kernel sample_fs 1 d_f [47;120;47;121;0] = Undef /\
  syscall_rename 3 tree_kernel sample_fs 1 d_f [47;120;47;121;0] = Undef.
Proof. split; vm_compute; reflexivity. Qed.

(** [unlink] of a link removes the file it leads to, and leaves the link. *)
Lemma unlink_follows_links :
  (let! (r, s) := syscall_unlink 3 tree_kernel sample_fs 1 d_l in
   let! st := stat_result d_f 0 s in
   let! lst := stat_result d_l AT_SYMLINK_NOFOLLOW s in Ret (r, st, lst)) = Ret (0, - ENOENT, 0).
Proof. vm_compute. reflexivity. Qed.

(** Opening an existing file with [O_EXCL] alone is refused. *)
Lemma excl_without_creat_refused :
  (let! (r, _, _) := syscall_open 3 tree_kernel sample_fs 1 1 d_f O_EXCL 0 in Ret r) = Ret (- EEXIST).
Proof. vm_compute. reflexivity. Qed.

(** A second leading slash makes a trailing one part of the path: ["//d/"] is not [/d]. *)
Lemma double_slash_loses_directory :
  stat_result [47;100;47;0] 0 sample_fs = Ret 0 /\
  stat_result [47;47;100;47;0] 0 sample_fs = Ret (- ENOENT).
Proof. split; vm_compute; reflexivity. Qed.

(** A link to itself is followed until the stack is exhausted, whatever its size. *)
Definition the_loop : mem := [47;108;111;111;112] ++ replicate 251 0.

(** [path_to_entry] with its recursive call abstracted. *)
Definition resolve_turn (resolve : mem -> Z -> vfs tmpfs -> outcome (Z * vfs tmpfs)) (path : mem)
    (sp : Z) (follow : bool) (s : vfs tmpfs) : outcome (Z * vfs tmpfs) :=
  let! path_len := strlen path in
  if (path_len =? 0)%nat then Ret (null_entry s, s) else
  let! start := if sp =? 0 then Ret 0 else reduce s sp in
  let! c := deref (head path) in
  if c =? slash then
    let path := tail path in
    let! c := deref (head path) in
    if c =? 0 then Ret (root s, s)
    else walk resolve follow (S (length path)) path (Z.of_nat path_len - 1) (root s) s
  else if sp =? 0 then Ret (null_entry s, s)
  else walk resolve follow (S (length path)) path (Z.of_nat path_len) start s.

Lemma path_to_entry_turn depth path sp follow s :
  path_to_entry (S depth) path sp follow s =
    resolve_turn (fun p cur s => path_to_entry depth p cur follow s) path sp follow s.
Proof. reflexivity. Qed.

Lemma link_loop_turn resolve : resolve_turn resolve the_loop 4096 true sample_fs = resolve the_loop 4096 sample_fs.
Proof. vm_compute. reflexivity. Qed.

Lemma link_loop_exhausts_stack depth : path_to_entry depth the_loop 4096 true sample_fs = Undef.
Proof.
  induction depth as [|depth IH]; [done|]. by rewrite path_to_entry_turn, link_loop_turn.
Qed.

(** What follows a link is copied after its target into 256 bytes, without a check. *)
Lemma long_path_after_link_overflows :
  stat_result ([47;100;47;108;47] ++ replicate 254 97 ++ [0]) 0 sample_fs = Undef.
Proof. vm_compute. reflexivity. Qed.
