(* ===== verification/Futex.v ===== *)
(** * Futexes: userland/futex.cpp

    The table of futex events, keyed by physical address, and the wait and wake
    operations over [Event::wait] and [Event::trigger]. A wait is two functions,
    before and after the sleep. User memory is reached through the page table of
    the process; an access to an unmapped page is [Undef], pages being mapped
    before the kernel touches them. *)

From S2P Require Import Prelude Algorithm TimeSpec Vector Links Sched.

(** ** Constants *)
Definition FUTEX_WAIT : Z := 0.
Definition FUTEX_WAKE : Z := 1.
Definition FUTEX_WAKE_OP : Z := 5.
Definition FUTEX_WAIT_BITSET : Z := 9.
Definition FUTEX_WAKE_BITSET : Z := 10.
Definition FUTEX_PRIVATE_FLAG : Z := 128.
Definition FUTEX_CLOCK_REALTIME : Z := 256.
Definition FUTEX_CMD_MASK (op : Z) : Z := op &~ (FUTEX_PRIVATE_FLAG .| FUTEX_CLOCK_REALTIME).
Definition FUTEX_BITSET_MATCH_ANY : Z := 4294967295.
Definition FUTEX_OP_OPARG_SHIFT : Z := 8.

(** ** Memory *)

(** [Pagemap::get_physical_addr] of the pagemap of process [p]: the address of the
    page. *)
Definition get_physical_addr (k : kernel) (p virt : Z) : outcome (option Z) :=
  let! pr := deref (processes k !! p) in
  let! pm := deref (pagemap pr) in
  Ret (page_table k !! (pm, klib.align_down virt PAGE_SIZE)).

(** Where the word at [virt] is. *)
Definition translate (k : kernel) (p virt : Z) : outcome Z :=
  let! page := get_physical_addr k p virt in
  let! page := deref page in
  Ret (page + virt mod PAGE_SIZE).

Definition load_u32 (k : kernel) (p virt : Z) : outcome Z :=
  let! a := translate k p virt in deref (memory k !! a).
Definition store_u32 (k : kernel) (p virt v : Z) : outcome kernel :=
  let! a := translate k p virt in
  let! _ := deref (memory k !! a) in
  Ret (k <| memory ::= <[a := u32 v]> |>).

(** ** Wait and wake *)

(** The event of a physical address, made when there is none. *)
Definition futex_event (k : kernel) (phy_addr : Z) : Z * kernel :=
  match futex_table k !! phy_addr with
  | Some e => (e, k)
  | None =>
      let e := next_obj k in
      (e, put_event e Event_init k <| futex_table ::= <[phy_addr := e]> |> <| next_obj ::= Z.add 1 |>)
  end.

(** [ret == 1] is the timer's event. *)
Definition futex_ret (r : Z) : Z := if r =? 1 then - ETIMEDOUT else r.

(** [timer]: the event of the timer armed for the timeout. *)
Definition futex_wait_begin (k : kernel) (t uaddr expected : Z) (timer : option Z)
    : outcome (Z * kernel + kernel) :=
  let! th := deref (threads k !! t) in
  let! v := load_u32 k (process th) uaddr in
  if negb (v =? expected) then Ret (inl (- EAGAIN, k)) else
  let! phy := get_physical_addr k (process th) uaddr in
  match phy with
  | None => Ret (inl (- EFAULT, k))
  | Some phy_addr =>
      let '(e, k) := futex_event k phy_addr in
      let evs := match timer with Some te => [Some e; Some te] | None => [Some e] end in
      let! r := wait_begin k t evs false in
      Ret (match r with inl (r, k) => inl (futex_ret r, k) | inr k => inr k end)
  end.

Definition futex_wait_end (k : kernel) (t : Z) : outcome (Z * kernel) :=
  let! (r, k) := wait_end k t in Ret (futex_ret r, k).

Definition futex_wake (k : kernel) (p uaddr max_to_wake : Z) : outcome (Z * kernel) :=
  let! _ := load_u32 k p uaddr in
  let! phy := get_physical_addr k p uaddr in
  match phy with
  | None => Ret (- EFAULT, k)
  | Some phy_addr =>
      match futex_table k !! phy_addr with
      | None => Ret (0, k)
      | Some e => let! (k, n) := trigger k e true max_to_wake in Ret (n, k)
      end
  end.

(** The new value FUTEX_WAKE_OP stores. *)
Definition wake_op_store (op op_arg old_val : Z) : option Z :=
  if op =? 0 then Some op_arg
  else if op =? 1 then Some (u32 (old_val + op_arg))
  else if op =? 2 then Some (Z.lor old_val op_arg)
  else if op =? 3 then Some (u32 (Z.lnot (Z.land old_val op_arg)))
  else if op =? 4 then Some (Z.lxor old_val op_arg)
  else None.

Definition wake_op_compare (cmp old_val cmp_arg : Z) : option bool :=
  if cmp =? 0 then Some (old_val =? cmp_arg)
  else if cmp =? 1 then Some (negb (old_val =? cmp_arg))
  else if cmp =? 2 then Some (old_val <? cmp_arg)
  else if cmp =? 3 then Some (old_val <=? cmp_arg)
  else if cmp =? 4 then Some (old_val >? cmp_arg)
  else if cmp =? 5 then Some (old_val >=? cmp_arg)
  else None.

Definition futex_wake_op (k : kernel) (p uaddr1 max_to_wake1 uaddr2 max_to_wake2 op_encoded : Z)
    : outcome (Z * kernel) :=
  let op := Z.land (Z.shiftr op_encoded 28) 15 in
  let op_arg := Z.land (Z.shiftr op_encoded 24) 15 in
  let cmp := Z.land (Z.shiftr op_encoded 12) 4095 in
  let cmp_arg := Z.land op_encoded 4095 in
  let op_arg := if op &? FUTEX_OP_OPARG_SHIFT then Z.shiftl 1 op_arg else op_arg in
  let op := op &~ FUTEX_OP_OPARG_SHIFT in
  if negb (op <=? 4) then Ret (- EINVAL, k) else
  let! old_val := load_u32 k p uaddr2 in
  let! new_val := deref (wake_op_store op op_arg old_val) in
  let! k := store_u32 k p uaddr2 new_val in
  let! (ret1, k) := futex_wake k p uaddr1 max_to_wake1 in
  if ret1 <? 0 then Ret (ret1, k) else
  match wake_op_compare cmp old_val cmp_arg with
  | None => Ret (- EINVAL, k)
  | Some false => Ret (ret1, k)
  | Some true =>
      let! (ret2, k) := futex_wake k p uaddr2 max_to_wake2 in
      Ret (if ret2 <? 0 then ret2 else ret1 + ret2, k)
  end.

(** ** The bitset variants and the system call *)

(** What FUTEX_WAIT_BITSET's arguments ask for: an immediate result, or a wait with
    a relative timeout. [now] is the clock it reads. *)
Definition futex_wait_bitset (mask : Z) (absolute_timeout : option TimeSpec) (now : TimeSpec)
    : Z + option TimeSpec :=
  if negb (mask =? FUTEX_BITSET_MATCH_ANY) then inl (- ENOSYS) else
  match absolute_timeout with
  | None => inr None
  | Some t =>
      let relative_timeout := time_sub t now in
      if is_zero relative_timeout then inl (- ETIMEDOUT) else inr (Some relative_timeout)
  end.

Definition futex_wake_bitset (k : kernel) (p uaddr max_to_wake mask : Z) : outcome (Z * kernel) :=
  if negb (mask =? FUTEX_BITSET_MATCH_ANY) then Ret (- ENOSYS, k)
  else futex_wake k p uaddr max_to_wake.

(** The operations that do not sleep; FUTEX_WAIT and FUTEX_WAIT_BITSET go to
    [futex_wait_begin], see above. *)
Definition syscall_futex (k : kernel) (p uaddr op arg1 arg2 arg3 arg4 : Z) : outcome (Z * kernel) :=
  let op := FUTEX_CMD_MASK op in
  if op =? FUTEX_WAKE then futex_wake k p uaddr (i32 arg1)
  else if op =? FUTEX_WAKE_BITSET then futex_wake_bitset k p uaddr (i32 arg1) (u32 arg4)
  else if op =? FUTEX_WAKE_OP then futex_wake_op k p uaddr (i32 arg1) arg3 (i32 arg2) (u32 arg4)
  else Ret (- ENOSYS, k).
