(* ===== verification/FutexProps.v ===== *)
(** * Correctness of futexes

    A waiter is woken by a wake on its futex and its call returns 0. The event
    table is keyed by the page of the futex, not by its word: a wake also reaches
    the waiters of every other futex of the page. *)

From S2P Require Import Prelude TimeSpec Vector Links Sched SchedFacts SchedLinks SchedProps Futex.

(** Every entry of the table is an event, and the next object is a fresh one. *)
Definition futex_wf (k : kernel) : Prop :=
  (forall pa e, futex_table k !! pa = Some e -> is_Some (events k !! e)) /\
  events k !! next_obj k = None.

Lemma links_wf_new_event k e : links_wf k -> events k !! e = None -> links_wf (put_event e Event_init k).
Proof.
  intros Hwf He. split; simpl.
  - intros e' ev. rewrite lookup_insert. case_decide; [|by apply (links_event _ Hwf)].
    intros [= <-]. split; [constructor|done].
  - intros e' ev t w. rewrite lookup_insert. case_decide; [|by apply (links_to _ Hwf)].
    intros [= <-] Hin. by apply elem_of_nil in Hin.
  - intros t th e' w Hth Hin. destruct (links_from _ Hwf _ _ _ _ Hth Hin) as (ev & Hev & ?).
    exists ev. rewrite lookup_insert_ne by congruence. done.
  - apply (links_nodup _ Hwf).
  - intros e' ev. rewrite lookup_insert. case_decide; [|by apply (links_pending _ Hwf)].
    by intros [= <-].
Qed.

Lemma futex_event_spec k pa e k1 :
  sched_wf k -> futex_wf k -> futex_event k pa = (e, k1) ->
  sched_wf k1 /\ threads k1 = threads k /\ processes k1 = processes k /\
  page_table k1 = page_table k /\ idle_thread k1 = idle_thread k /\
  futex_table k1 !! pa = Some e /\ is_Some (events k1 !! e).
Proof.
  intros [Hq Hl] [Ht Hn]. unfold futex_event. destruct (futex_table k !! pa) as [e0|] eqn:E.
  - intros [= <- <-]. split_and!; try done. by eapply Ht.
  - intros [= <- <-]. pose proof (links_wf_new_event _ _ Hl Hn) as Hl'. split_and!; try done.
    + split; [by destruct Hq|by destruct Hl'].
    + simpl. apply lookup_insert_eq.
    + simpl. rewrite lookup_insert_eq. by eexists.
Qed.

(** What a sleeping wait does not change. *)
Lemma wait_begin_frame k t evs nb k' :
  wait_begin k t evs nb = Ret (inr k') ->
  futex_table k' = futex_table k /\ page_table k' = page_table k /\ memory k' = memory k.
Proof.
  unfold wait_begin. intros H. inv_ret. case_match; [done|]. inv_ret.
  destruct a0 as [[? ?]|]; [inv_ret; done|]. destruct nb; [done|]. inv_ret.
  match goal with H : dequeue_thread _ _ _ = Ret _ |- _ =>
    apply dequeue_thread_blocked in H as (? & _ & _ & _ & ->) end. simpl.
  match goal with H : register _ _ _ _ = Ret _ |- _ => rename H into Hr end.
  revert Hr. generalize 0 at 1. clear. revert k.
  induction evs as [|[e|] evs IH]; intros k z Hr; cbn [register] in Hr; [by inv_ret| |by eapply IH].
  inv_ret. apply IH in Hr. simpl in Hr. done.
Qed.

(** C33. A thread asleep in [futex_wait] with no timeout is woken by a [futex_wake]
    of any process through any address on the same physical page, if it wakes at
    least as many threads as wait: the thread is then runnable, in the run queue,
    and its [futex_wait] returns 0. *)
Theorem futex_wait_wake k t uaddr expected k1 th pa p' uaddr' v e ev max :
  sched_wf k -> futex_wf k -> t <> idle_thread k -> threads k !! t = Some th ->
  futex_wait_begin k t uaddr expected None = Ret (inr k1) ->
  get_physical_addr k (process th) uaddr = Ret (Some pa) ->
  get_physical_addr k1 p' uaddr' = Ret (Some pa) -> load_u32 k1 p' uaddr' = Ret v ->
  futex_table k1 !! pa = Some e -> events k1 !! e = Some ev -> num_listeners ev <= max ->
  exists n k2 th2 k3, futex_wake k1 p' uaddr' max = Ret (n, k2) /\
    threads k2 !! t = Some th2 /\ state th2 = READY /\ t ∈ sched_list k2 /\
    futex_wait_end k2 t = Ret (0, k3) /\ sched_wf k3.
Proof.
  intros Hwf Hfwf Hi Hth Hb Hpa Hpa' Hload He Hev Hmax. unfold futex_wait_begin in Hb.
  rewrite Hth in Hb. cbn [deref obind] in Hb. rewrite Hpa in Hb. inv_ret.
  case_match; [done|]. destruct (futex_event k pa) as [e0 k0] eqn:Ef.
  destruct (futex_event_spec k pa e0 k0 Hwf Hfwf Ef) as (Hwf0 & Ht0 & _ & _ & Hi0 & Hft & _).
  cbn [deref obind] in Hb. rewrite Ef in Hb. inv_ret. match goal with H : wait_begin _ _ _ _ = Ret ?a |- _ =>
    destruct a as [[]|]; [done|]; rename H into Hw end.
  match goal with H : inr _ = inr _ |- _ => injection H as -> end.
  pose proof (wait_begin_frame _ _ _ _ _ Hw) as (Hft1 & _).
  assert (e = e0) as -> by congruence.
  destruct (wait_begin_sleep _ _ _ _ _ Hwf0 Hw) as (Hwf1 & th0 & cap & Hth0 & Ht1 & _ & _ & Hi1).
  assert (exists th1, threads k1 !! t = Some th1 /\ listeners th1 = [(e0, 0)] /\
    state th1 = BLOCKED) as (th1 & Hth1 & Hl1 & Hst1).
  { eexists. rewrite Ht1, lookup_insert_eq. done. }
  destruct (trigger_wakes k1 e0 ev t th1 true max Hwf1 Hev Hth1 Hst1)
    as (k2 & n & w & Htr & Hwf2 & Hi2 & Hwl & Ht2); [exists 0; rewrite Hl1; left|done|].
  rewrite Hl1 in Hwl. apply list_elem_of_singleton in Hwl as [= ->].
  destruct (wait_end_spec k2 t _ Hwf2 Ht2) as (k3 & Hwe & Hwf3 & _).
  exists n, k2. eexists _, k3. split_and!; try done.
  - unfold futex_wake. rewrite Hload. cbn [obind]. rewrite Hpa'. cbn [obind]. by rewrite He, Htr.
  - eapply (queue_complete _ (proj1 Hwf2)); [done|by left|congruence].
  - unfold futex_wait_end. by rewrite Hwe.
Qed.

(** Processes 1 and 2 share physical page 0x8000 at virtual 0x4000; words at offsets
    0 and 8. *)
Definition futex_sample : kernel :=
  sample <| processes ::= fmap (fun pr => pr <| pagemap := Some (pid pr) |>) |>
    <| page_table := {[(1, 16384) := 32768; (2, 16384) := 32768]} |>
    <| memory := {[32768 := 7; 32776 := 9]} |>.

Lemma futex_sample_wf : sched_wf futex_sample /\ futex_wf futex_sample.
Proof.
  split; [split; [apply queue_wf_check|apply links_wf_fresh]; vm_compute; reflexivity|].
  split; [intros pa e H; change (futex_table futex_sample) with (∅ : gmap Z Z) in H; by rewrite lookup_empty in H|vm_compute; reflexivity].
Qed.

Definition futex_asleep (k : kernel) (t uaddr expected : Z) : kernel :=
  match futex_wait_begin k t uaddr expected None with Ret (inr k') => k' | _ => k end.

Lemma futex_wait_wake_witness :
  futex_wait_begin futex_sample 1 16384 7 None = Ret (inr (futex_asleep futex_sample 1 16384 7)) /\
  exists n k2 th2 k3, futex_wake (futex_asleep futex_sample 1 16384 7) 2 16384 1 = Ret (n, k2) /\
    threads k2 !! 1 = Some th2 /\ state th2 = READY /\ 1 ∈ sched_list k2 /\
    futex_wait_end k2 1 = Ret (0, k3) /\ sched_wf k3.
Proof.
  split; [vm_compute; reflexivity|].
  apply (futex_wait_wake futex_sample 1 16384 7 _ (sample_thread 1 1 4 12 13 RUNNING) 32768 2 16384 7
    1000 (mkEvent 0 1 [(1, 0)]) 1).
  - apply futex_sample_wf.
  - apply futex_sample_wf.
  - vm_compute. discriminate.
  - vm_compute. reflexivity.
  - vm_compute. reflexivity.
  - vm_compute. reflexivity.
  - vm_compute. reflexivity.
  - vm_compute. reflexivity.
  - vm_compute. reflexivity.
  - vm_compute. reflexivity.
  - vm_compute. discriminate.
Defined.

(** Thread 1 waits on word 0, thread 2 on word 8 of the page. *)
Definition two_futexes : kernel := futex_asleep (futex_asleep futex_sample 1 16384 7) 2 16392 9.

(** Futexes of one page share an event: with a waiter on each of two words of a
    page, waking one thread on the second word reports one thread woken, but it
    is the waiter of the first that runs, and the waiter of the second sleeps on. *)
Theorem futex_page_aliasing :
  exists k, futex_wake two_futexes 2 16392 1 = Ret (1, k) /\
    (state <$> threads two_futexes !! 1) = Some BLOCKED /\
    (state <$> threads two_futexes !! 2) = Some BLOCKED /\
    (state <$> threads k !! 1) = Some READY /\ (state <$> threads k !! 2) = Some BLOCKED.
Proof.
  eexists. split; [vm_compute; reflexivity|]. vm_compute. done.
Qed.

(** FUTEX_OP_ANDN stores the complement of the conjunction, not the conjunction
    with the complement. *)
Lemma wake_op_andn_is_nand : wake_op_store 3 1 7 = Some 4294967294 /\ 7 &~ 1 = 6.
Proof. done. Qed.
