(* ===== verification/Time.v ===== *)
(** * Clocks and timers: sched/time.cpp

    The two clocks, the timers and the lists that link the armed ones, and the
    calls on them. A [Timer] object is a key of [timers]; its event is an event of
    the scheduler, which [update_time], run by the timer interrupt, triggers. The
    microseconds since the last interrupt, read from the local APIC, are an
    argument. [nanosleep] is two functions, before and after its sleep. *)

From S2P Require Import Prelude TimeSpec Links Sched.

(** ** Data *)

(** [callback]: the process that the one callback of the source, that of
    [setitimer], signals. [thread_link]: the thread whose [armed_timers_list]
    the timer is in. *)
Record Timer := mkTimer {
  remaining : TimeSpec;
  interval : TimeSpec;
  timer_event : Z;
  callback : option Z;
  fired : bool;
  thread_link : option Z
}.
#[export] Instance eta_Timer : Settable Timer := fun x =>
  mkTimer (remaining x) (interval x) (timer_event x) (callback x) (fired x) (thread_link x).

Record clocks := mkClocks {
  timers : gmap Z Timer;
  armed_timers_list : list Z;
  thread_timers : gmap Z (list Z);     (** [Thread::armed_timers_list] *)
  itimer_real : gmap Z Z;              (** the timer of a process *)
  monotonic_clock : TimeSpec;
  realtime_clock : TimeSpec
}.
#[export] Instance eta_clocks : Settable clocks := fun c =>
  mkClocks (timers c) (armed_timers_list c) (thread_timers c) (itimer_real c)
    (monotonic_clock c) (realtime_clock c).

(** [Timer()] with its event [e]. *)
Definition Timer_init (e : Z) : Timer := mkTimer zero_time zero_time e None false None.
Definition put_timer (x : Z) (tm : Timer) (c : clocks) : clocks := c <| timers ::= <[x := tm]> |>.

Definition timers_of (c : clocks) (t : Z) : list Z := default [] (thread_timers c !! t).

(** ** Timer *)

(** [cur] is the running thread; [cb] the callback given, if any. *)
Definition arm (c : clocks) (cur x : Z) (time : TimeSpec) (cb : option Z) : outcome clocks :=
  let! tm := deref (timers c !! x) in
  let tm := tm <| remaining := time |> <| fired := false |> in
  let tm := match cb with Some p => tm <| callback := Some p |> | None => tm end in
  let! l := link_tail x (timers_of c cur) in
  let c := put_timer x (tm <| thread_link := Some cur |>) c <| thread_timers ::= <[cur := l]> |> in
  let! a := link_tail x (armed_timers_list c) in
  Ret (c <| armed_timers_list := a |>).

Definition disarm (c : clocks) (x : Z) : outcome clocks :=
  let! tm := deref (timers c !! x) in
  let tm := tm <| remaining := zero_time |> <| interval := zero_time |> <| callback := None |> in
  let! c := if decide (x ∈ armed_timers_list c)
            then let! a := unlink x (armed_timers_list c) in Ret (c <| armed_timers_list := a |>)
            else Ret c in
  match thread_link tm with
  | Some t =>
      let! l := unlink x (timers_of c t) in
      Ret (put_timer x (tm <| thread_link := None |>) c <| thread_timers ::= <[t := l]> |>)
  | None => Ret (put_timer x tm c)
  end.

(** The loop of [Thread::~Thread]. *)
Fixpoint disarm_thread_timers (c : clocks) (xs : list Z) : outcome clocks :=
  match xs with
  | [] => Ret c
  | x :: xs => let! c := disarm c x in disarm_thread_timers c xs
  end.

Definition init_time (boot_time : option Z) (c : clocks) : clocks :=
  let epoch := match boot_time with Some b => b | None => 0 end in
  c <| armed_timers_list := [] |> <| monotonic_clock := from_seconds 0 |>
    <| realtime_clock := from_seconds epoch |>.

Definition SIGALRM : Z := 14.

(** The body of the loop of [update_time]. *)
Definition update_timer (k : kernel) (c : clocks) (x : Z) (i : TimeSpec) : outcome (kernel * clocks) :=
  let! tm := deref (timers c !! x) in
  if fired tm then Ret (k, c) else
  let tm := tm <| remaining := time_sub (remaining tm) i |> in
  let c := put_timer x tm c in
  if is_zero (remaining tm) then
    let! (k, c) :=
      if is_zero (interval tm) then
        let c := put_timer x (tm <| fired := true |>) c in
        let! k := trigger_all k (timer_event tm) in
        let! a := unlink x (armed_timers_list c) in
        Ret (k, c <| armed_timers_list := a |>)
      else Ret (k, put_timer x (tm <| remaining := interval tm |>) c) in
    match callback tm with
    | Some p => let! k := process_send_signal k p SIGALRM in Ret (k, c)
    | None => Ret (k, c)
    end
  else Ret (k, c).

Fixpoint update_timers (k : kernel) (c : clocks) (xs : list Z) (i : TimeSpec) : outcome (kernel * clocks) :=
  match xs with
  | [] => Ret (k, c)
  | x :: xs => let! (k, c) := update_timer k c x i in update_timers k c xs i
  end.

Definition update_time (k : kernel) (c : clocks) (i : TimeSpec) : outcome (kernel * clocks) :=
  let c := c <| monotonic_clock ::= fun t => time_add t i |> <| realtime_clock ::= fun t => time_add t i |> in
  update_timers k c (armed_timers_list c) i.

(** ** Clocks *)

Definition CLOCK_REALTIME : Z := 0.
Definition CLOCK_MONOTONIC : Z := 1.
Definition CLOCK_MONOTONIC_RAW : Z := 4.
Definition CLOCK_MONOTONIC_COARSE : Z := 6.
Definition CLOCK_BOOTTIME : Z := 7.

Definition get_clock (c : clocks) (clock_id us : Z) (imprecise : bool) : TimeSpec :=
  let current_interval := if imprecise then zero_time else from_microseconds us in
  if (clock_id =? CLOCK_BOOTTIME) || (clock_id =? CLOCK_MONOTONIC) then
    time_add (monotonic_clock c) current_interval
  else if clock_id =? CLOCK_REALTIME then time_add (realtime_clock c) current_interval
  else zero_time.

Definition syscall_time (c : clocks) (us : Z) : Z := seconds (get_clock c CLOCK_REALTIME us false).
Definition syscall_gettimeofday (c : clocks) (us : Z) : Z * Z :=
  to_timeval (get_clock c CLOCK_REALTIME us false).

(** The clock a clock id stands for. *)
Definition clock_alias (clock_id : Z) : Z :=
  if (clock_id =? CLOCK_MONOTONIC_COARSE) || (clock_id =? CLOCK_MONOTONIC_RAW) ||
     (clock_id =? CLOCK_BOOTTIME) then CLOCK_MONOTONIC else clock_id.

(** The time stored, or the error. *)
Definition syscall_clock_gettime (c : clocks) (clock_id us : Z) : Z + TimeSpec :=
  let clock_id := clock_alias clock_id in
  if negb (clock_id =? CLOCK_REALTIME) && negb (clock_id =? CLOCK_MONOTONIC) then inl (- EINVAL)
  else inr (get_clock c clock_id us false).

Definition syscall_clock_getres (clock_id : Z) : Z + TimeSpec :=
  let clock_id := clock_alias clock_id in
  if negb (clock_id =? CLOCK_REALTIME) && negb (clock_id =? CLOCK_MONOTONIC) then inl (- EINVAL)
  else inr (from_microseconds 10).

(** ** Sleeping *)

(** [clock_nanosleep_impl] up to the sleep, with the timer [x] on its stack. *)
Definition clock_nanosleep_begin (k : kernel) (c : clocks) (t x : Z) (duration : TimeSpec)
    : outcome (clocks * (Z * kernel + kernel)) :=
  let e := next_obj k in
  let k := put_event e Event_init k <| next_obj ::= Z.add 1 |> in
  let! c := arm (put_timer x (Timer_init e) c) t x duration None in
  let! r := wait_begin k t [Some e] false in
  Ret (c, r).

(** What it does with what [wait] returned: the result and [*remaining]. *)
Definition clock_nanosleep_return (c : clocks) (x ret : Z) : outcome (Z * TimeSpec * clocks) :=
  let! c := disarm c x in
  let! tm := deref (timers c !! x) in
  if ret =? - EINTR then Ret (- EINTR, remaining tm, c) else
  let! _ := assert (fired tm) in
  Ret (0, remaining tm, c).

Definition clock_nanosleep_end (k : kernel) (c : clocks) (t x : Z) : outcome (Z * TimeSpec * kernel * clocks) :=
  let! (ret, k) := wait_end k t in
  let! (r, c) := clock_nanosleep_return c x ret in
  Ret (r, k, c).

(** ** Interval timers *)

Definition ITIMER_REAL : Z := 0.

(** [it_interval] and [it_value], each seconds and microseconds. *)
Record itimerval := mkItimerval { it_interval : Z * Z; it_value : Z * Z }.

Definition itimer_of (c : clocks) (p : Z) : outcome (Z * Timer) :=
  let! x := deref (itimer_real c !! p) in
  let! tm := deref (timers c !! x) in
  Ret (x, tm).

Definition itimer_value (tm : Timer) : itimerval :=
  mkItimerval (to_timeval (interval tm)) (to_timeval (remaining tm)).

(** [p] is the current process. *)
Definition syscall_getitimer (c : clocks) (p which : Z) : outcome (Z + itimerval) :=
  if negb (which =? ITIMER_REAL) then Ret (inl (- EINVAL)) else
  let! (_, tm) := itimer_of c p in
  Ret (inr (itimer_value tm)).

(** [cur], of process [p], is the running thread. The result, [*old_value] and the state. *)
Definition setitimer_impl (c : clocks) (cur p which : Z) (new_value : option itimerval)
    : outcome (Z * option itimerval * clocks) :=
  if negb (which =? ITIMER_REAL) then Ret (- EINVAL, None, c) else
  let new_timerval := match new_value with Some v => v | None => mkItimerval (0, 0) (0, 0) end in
  if snd (it_value new_timerval) >? 999999 then Ret (- EINVAL, None, c) else
  if snd (it_interval new_timerval) >? 999999 then Ret (- EINVAL, None, c) else
  let timer_value := from_timeval (fst (it_value new_timerval)) (snd (it_value new_timerval)) in
  let timer_interval := from_timeval (fst (it_interval new_timerval)) (snd (it_interval new_timerval)) in
  let! (x, tm) := itimer_of c p in
  let old_value := Some (itimer_value tm) in
  let! c := disarm c x in
  if is_zero timer_value then Ret (0, old_value, c) else
  let! tm := deref (timers c !! x) in
  let c := put_timer x (tm <| interval := timer_interval |>) c in
  let! c := arm c cur x timer_value (Some p) in
  Ret (0, old_value, c).

Definition syscall_alarm (c : clocks) (cur p secs : Z) : outcome (Z * clocks) :=
  let! (_, old_value, c) := setitimer_impl c cur p ITIMER_REAL (Some (mkItimerval (0, 0) (secs, 0))) in
  let! v := deref old_value in
  Ret (fst (it_value v), c).
