(* ===== verification/TimeProps.v ===== *)
(** * Timers: what the clock interrupt makes of them

    [time_wf] is the invariant of the armed timers; [advance] what a tick may do
    to the threads: wake them, never put them to sleep. A timer's countdown is
    computed exactly, with the nanoseconds it loses. *)

From S2P Require Import Prelude TimeSpec Links Sched SchedFacts SchedLinks SchedProps Futex FutexProps Time.

(** ** What happens to threads *)

Record thread_advance (th th' : Thread) : Prop := {
  ta_tid : tid th' = tid th;
  ta_process : process th' = process th;
  ta_signal_event : signal_event th' = signal_event th;
  ta_listeners : listeners th' = listeners th;
  ta_ready : state th = READY -> state th' = READY;
  ta_blocked : state th = BLOCKED -> state th' = BLOCKED \/ state th' = READY
}.
#[export] Instance thread_advance_preorder : PreOrder thread_advance.
Proof.
  split.
  - intros th. split; auto.
  - intros a b c [] []. split; try congruence; naive_solver.
Qed.

Record advance (k k' : kernel) : Prop := {
  adv_wf : sched_wf k -> sched_wf k';
  adv_processes : processes k' = processes k;
  adv_idle : idle_thread k' = idle_thread k;
  adv_events e ev : events k !! e = Some ev ->
    exists ev', events k' !! e = Some ev' /\ listener_list ev' = listener_list ev;
  adv_threads t th : threads k !! t = Some th ->
    exists th', threads k' !! t = Some th' /\ thread_advance th th'
}.
#[export] Instance advance_preorder : PreOrder advance.
Proof.
  split.
  - intros k. split; eauto. intros t th ?. exists th. by split.
  - intros a b c [] []. split; try congruence; auto.
    { intros e ev Hev. edestruct adv_events0 as (ev' & Hev' & ?); [done|].
      edestruct adv_events1 as (ev'' & ? & ?); [done|]. exists ev''. split; [done|congruence]. }
    intros t th Hth. edestruct adv_threads0 as (th' & Hth' & ?); [done|].
    edestruct adv_threads1 as (th'' & ? & ?); [done|]. exists th''. split; [done|]. by etrans.
Qed.

Lemma enq_thread_advance th s : thread_advance th (enq_thread th s).
Proof.
  unfold enq_thread, enq_links. destruct (bool_decide _) eqn:E; [|done].
  apply bool_decide_eq_true in E. split; simpl; try done.
  - intros Hs. rewrite decide_False by congruence. done.
  - intros Hs. rewrite decide_True by done. by right.
Qed.

Lemma woken_advance th w : thread_advance th (woken th w).
Proof.
  destruct w as [w|]; [|done]. unfold woken. destruct (enq_thread_advance th (-1)). by split.
Qed.

Lemma trigger_events k e d max k' n e' ev' :
  sched_wf k -> trigger k e d max = Ret (k', n) -> events k !! e' = Some ev' ->
  exists ev2, events k' !! e' = Some ev2 /\ listener_list ev2 = listener_list ev'.
Proof.
  intros [Hq Hl]. unfold trigger. destruct (events k !! e) as [ev|] eqn:Hev; [|done]. cbn [obind deref].
  case_match; intros Ht Hs.
  - destruct d; simplify_eq; [eauto|]. simpl. rewrite lookup_insert. case_decide; simplify_eq; eauto.
  - destruct (wake_listeners_spec (listener_list ev) k max 0 Hq) as (k2 & Hw & _ & [He _] & _).
    { intros t w Hin. destruct (links_to _ Hl _ _ _ _ Hev Hin) as (th & -> & _). done. }
    rewrite Hw in Ht. simplify_eq. rewrite He. eauto.
Qed.

Lemma trigger_advance k e ev d max :
  sched_wf k -> events k !! e = Some ev ->
  exists k' n, trigger k e d max = Ret (k', n) /\ advance k k'.
Proof.
  intros Hwf Hev. destruct (trigger_spec k e ev d max Hwf Hev) as (k' & n & Ht & ? & ? & ? & _ & Hth).
  exists k', n. split; [done|]. split; try done.
  - intros e' ev'. by eapply trigger_events.
  - intros t th Hk. rewrite Hth, Hk. eexists. split; [done|]. apply woken_advance.
Qed.

(** The threads that wait for event [e] in [k] run in [k']. *)
Definition wakes (k k' : kernel) (e : Z) : Prop :=
  forall ev, events k !! e = Some ev -> Z.of_nat (length (listener_list ev)) <= INT_MAX ->
  forall t th w, threads k !! t = Some th -> state th = BLOCKED -> (e, w) ∈ listeners th ->
    exists th', threads k' !! t = Some th' /\ state th' = READY.

Lemma wakes_advance k k' k'' e : wakes k k' e -> advance k' k'' -> wakes k k'' e.
Proof.
  intros Hw Ha ev Hev Hl t th w Hth Hb Hin. destruct (Hw _ Hev Hl _ _ _ Hth Hb Hin) as (th' & Hth' & ?).
  destruct (adv_threads _ _ Ha _ _ Hth') as (th'' & ? & Hta). exists th''. split; [done|].
  by apply (ta_ready _ _ Hta).
Qed.

Lemma trigger_wakes_all k e ev :
  sched_wf k -> events k !! e = Some ev ->
  exists k', trigger_all k e = Ret k' /\ advance k k' /\ wakes k k' e.
Proof.
  intros Hwf Hev. destruct (trigger_advance k e ev false INT_MAX Hwf Hev) as (k' & n & Ht & Ha).
  exists k'. unfold trigger_all. rewrite Ht. split_and!; [done..|].
  intros ev' Hev' Hmax t th w Hth Hb Hin. simplify_eq.
  destruct (links_event _ (proj2 Hwf) _ _ Hev) as [_ Hn].
  destruct (trigger_wakes k e ev t th false INT_MAX Hwf Hev Hth Hb) as (k2 & n2 & w2 & Ht2 & _ & _ & _ & Hk2);
    [eauto|lia|]. rewrite Ht in Ht2. simplify_eq. eexists. split; [done|]. done.
Qed.

(** ** Signals sent by callbacks *)

(** Process [p] has a main thread to signal. *)
Definition can_signal (k : kernel) (p : Z) : Prop :=
  exists pr t th, processes k !! p = Some pr /\ head (thread_list pr) = Some t /\
    threads k !! t = Some th /\ tid th = pid pr /\ is_Some (events k !! signal_event th).

Lemma can_signal_advance k k' p : advance k k' -> can_signal k p -> can_signal k' p.
Proof.
  intros Ha (pr & t & th & Hp & Ht & Hth & Htid & [ev Hev]).
  destruct (adv_threads _ _ Ha _ _ Hth) as (th' & Hth' & Hta).
  exists pr, t, th'. rewrite (adv_processes _ _ Ha), (ta_tid _ _ Hta), (ta_signal_event _ _ Hta).
  split_and!; try done. destruct (adv_events _ _ Ha _ _ Hev) as (ev' & -> & _). done.
Qed.

Lemma process_send_signal_advance k p signal :
  sched_wf k -> can_signal k p -> signal <> SIGCONT ->
  exists k', process_send_signal k p signal = Ret k' /\ advance k k'.
Proof.
  intros Hwf (pr & t & th & Hp & Ht & Hth & Htid & [ev Hev]) Hs.
  unfold process_send_signal, get_main_thread. rewrite Hp. cbn [obind deref]. rewrite Ht.
  cbn [obind deref]. rewrite Hth. cbn [obind deref]. rewrite Htid, Z.eqb_refl. cbn [obind assert].
  unfold send_signal. rewrite Hth. cbn [obind deref].
  set (th1 := th <| pending_signals := _ |>). set (k1 := put_thread t th1 k).
  assert (sched_wf k1) as Hwf1.
  { split; [by eapply queue_wf_put_thread; [apply Hwf|..]|].
    eapply links_wf_same; [by eapply put_thread_same_links|apply Hwf]. }
  assert (threads k1 !! t = Some th1) as Hth1 by apply lookup_insert_eq.
  assert (~ double_link k1 t th1 signal) as Hnd by (intros (_ & ? & _); done).
  rewrite (enqueue_thread_eq k1 t th1 signal (proj1 Hwf1) Hth1 Hnd). cbn [obind].
  set (k2 := put_thread _ _ _).
  assert (sched_wf k2) as Hwf2.
  { split; [by apply queue_wf_enqueue; [apply Hwf1|..]|].
    eapply links_wf_same; [by apply enqueue_same_links|apply Hwf1]. }
  destruct (trigger_advance k2 (signal_event th1) ev false INT_MAX Hwf2 Hev) as (k' & n & Htr & Ha).
  exists k'. unfold trigger_all. rewrite Htr. split; [done|]. etrans; [|exact Ha].
  split; try done; [by eauto|]. intros t' th' Hth'. unfold k2, k1. simpl. rewrite !lookup_insert.
  case_decide; simplify_eq; [|exists th'; by split]. eexists. split; [done|].
  transitivity th1; [by split; auto|apply enq_thread_advance].
Qed.

(** ** The armed timers *)

Record time_wf (k : kernel) (c : clocks) : Prop := {
  tw_sched : sched_wf k;
  tw_nodup : NoDup (armed_timers_list c);
  tw_timer x : x ∈ armed_timers_list c -> exists tm, timers c !! x = Some tm /\
    is_Some (events k !! timer_event tm) /\ normal (remaining tm) /\ normal (interval tm) /\
    (forall p, callback tm = Some p -> can_signal k p)
}.

(** A timer after a tick of [i], and whether it leaves the list. *)
Definition stepped (i : TimeSpec) (tm : Timer) : Timer :=
  if fired tm then tm else
  let r := time_sub (remaining tm) i in
  if is_zero r then
    if is_zero (interval tm) then tm <| remaining := r |> <| fired := true |>
    else tm <| remaining := interval tm |>
  else tm <| remaining := r |>.
Definition expires (i : TimeSpec) (tm : Timer) : bool :=
  negb (fired tm) && is_zero (time_sub (remaining tm) i) && is_zero (interval tm).

Lemma stepped_fields i tm :
  timer_event (stepped i tm) = timer_event tm /\ interval (stepped i tm) = interval tm /\
  callback (stepped i tm) = callback tm /\ thread_link (stepped i tm) = thread_link tm.
Proof. unfold stepped. by repeat case_match. Qed.

Lemma stepped_normal i tm : normal i -> normal (remaining tm) -> normal (interval tm) ->
  normal (remaining (stepped i tm)).
Proof.
  intros Hi Hr Hn. destruct (time_sub_spec (remaining tm) i Hr Hi) as [Hs _].
  unfold stepped. by repeat case_match.
Qed.

Definition expires_in (c : clocks) (i : TimeSpec) (x : Z) : bool :=
  match timers c !! x with Some tm => expires i tm | None => false end.

Lemma callback_spec k (c : clocks) (cb : option Z) :
  sched_wf k -> (forall p, cb = Some p -> can_signal k p) ->
  exists k', match cb with
             | Some p => let! k := process_send_signal k p SIGALRM in Ret (k, c)
             | None => Ret (k, c)
             end = Ret (k', c) /\ advance k k'.
Proof.
  intros Hwf Hcb. destruct cb as [p|]; [|by exists k].
  destruct (process_send_signal_advance k p SIGALRM Hwf) as (k' & -> & ?); [by apply Hcb|done|].
  by exists k'.
Qed.

Lemma update_timer_spec k c x tm i :
  time_wf k c -> x ∈ armed_timers_list c -> timers c !! x = Some tm ->
  exists k' c', update_timer k c x i = Ret (k', c') /\ advance k k' /\
    timers c' = <[x := stepped i tm]> (timers c) /\
    armed_timers_list c' = (if expires i tm then filter (fun y => y <> x) (armed_timers_list c)
                            else armed_timers_list c) /\
    (expires i tm = true -> wakes k k' (timer_event tm)).
Proof.
  intros Hwf Hx Htm. destruct (tw_timer _ _ Hwf _ Hx) as (tm' & Htm' & [ev Hev] & _ & _ & Hcb).
  rewrite Htm in Htm'. simplify_eq. unfold update_timer, stepped, expires. rewrite Htm. cbn [obind deref].
  pose proof (tw_sched _ _ Hwf) as Hs.
  destruct (fired tm') eqn:Ef.
  { exists k, c. split_and!; try done. by rewrite insert_id. }
  simpl. destruct (is_zero (time_sub (remaining tm') i)) eqn:Ez; simpl.
  2:{ exists k, (put_timer x (tm' <| remaining := time_sub (remaining tm') i |>) c). done. }
  destruct (is_zero (interval tm')) eqn:Ei.
  - destruct (trigger_wakes_all k _ _ Hs Hev) as (k1 & -> & Ha & Hw). cbn [obind].
    rewrite unlink_Ret by done. cbn [obind].
    edestruct (callback_spec k1) as (k2 & -> & Ha2);
      [by apply (adv_wf _ _ Ha)|intros p Hp; eapply can_signal_advance; [done|by apply Hcb]|].
    eexists k2, _. split_and!; [reflexivity|by etrans| |done|].
    + simpl. by rewrite insert_insert_eq.
    + intros _. by eapply wakes_advance.
  - cbn [obind]. edestruct (callback_spec k) as (k2 & -> & Ha2); [done|done|].
    eexists k2, _. split_and!; [reflexivity|done| |done|done]. simpl. by rewrite insert_insert_eq.
Qed.

Lemma time_wf_step k c k' c' x tm i :
  time_wf k c -> x ∈ armed_timers_list c -> timers c !! x = Some tm -> normal i -> advance k k' ->
  timers c' = <[x := stepped i tm]> (timers c) ->
  armed_timers_list c' = (if expires i tm then filter (fun y => y <> x) (armed_timers_list c)
                          else armed_timers_list c) ->
  time_wf k' c'.
Proof.
  intros Hwf Hx Htm Hi Ha Ht Hl. split.
  - apply (adv_wf _ _ Ha), Hwf.
  - rewrite Hl. case_match; [apply NoDup_filter|]; apply Hwf.
  - intros y Hy. assert (y ∈ armed_timers_list c) as Hy'.
    { rewrite Hl in Hy. case_match; [by apply list_elem_of_filter in Hy as [_ ?]|done]. }
    destruct (tw_timer _ _ Hwf _ Hy') as (tm2 & Htm2 & [ev Hev] & Hr & Hn & Hcb).
    assert (forall e, is_Some (events k !! e) -> is_Some (events k' !! e)) as He.
    { intros e [ev' Hev']. destruct (adv_events _ _ Ha _ _ Hev') as (? & -> & _). done. }
    rewrite Ht, lookup_insert. case_decide as Hxy; simplify_eq.
    + destruct (stepped_fields i tm) as (H1 & H2 & H3 & _). eexists. split; [done|].
      rewrite H1, H2, H3. split_and!; [by apply He|by apply stepped_normal|done|].
      intros p Hp. eapply can_signal_advance; [done|by apply Hcb].
    + exists tm2. split_and!; [done|by apply He|done|done|].
      intros p Hp. eapply can_signal_advance; [done|by apply Hcb].
Qed.

Lemma update_timers_spec xs : forall k c i,
  time_wf k c -> normal i -> NoDup xs -> (forall x, x ∈ xs -> x ∈ armed_timers_list c) ->
  exists k' c', update_timers k c xs i = Ret (k', c') /\ time_wf k' c' /\ advance k k' /\
    (forall x, timers c' !! x = (if decide (x ∈ xs) then stepped i else id) <$> timers c !! x) /\
    (forall x, x ∈ armed_timers_list c' <->
       x ∈ armed_timers_list c /\ ~ (x ∈ xs /\ expires_in c i x = true)) /\
    (forall x tm, x ∈ xs -> timers c !! x = Some tm -> expires i tm = true ->
       forall ev t th w, events k !! timer_event tm = Some ev ->
         Z.of_nat (length (listener_list ev)) <= INT_MAX ->
         threads k !! t = Some th -> state th = BLOCKED -> (timer_event tm, w) ∈ listeners th ->
         exists th', threads k' !! t = Some th' /\ state th' = READY).
Proof.
  induction xs as [|x xs IH]; intros k c i Hwf Hi Hnd Hin.
  { exists k, c. split_and!; try done.
    - intros x. rewrite decide_False by set_solver. by destruct (timers c !! x).
    - set_solver.
    - set_solver. }
  apply NoDup_cons in Hnd as [Hx Hnd].
  destruct (tw_timer _ _ Hwf x ltac:(set_solver)) as (tm & Htm & _).
  destruct (update_timer_spec k c x tm i Hwf ltac:(set_solver) Htm) as (k1 & c1 & Hu & Ha & Ht & Hl & Hw).
  simpl. rewrite Hu. cbn [obind].
  assert (time_wf k1 c1) as Hwf1 by (eapply time_wf_step; try done; set_solver).
  assert (forall y, y ∈ armed_timers_list c1 <->
    y ∈ armed_timers_list c /\ ~ (y = x /\ expires i tm = true)) as Hl1.
  { intros y. rewrite Hl. destruct (expires i tm); [rewrite list_elem_of_filter|]; naive_solver. }
  destruct (IH k1 c1 i Hwf1 Hi Hnd) as (k' & c' & -> & Hwf' & Ha' & Ht' & Hl' & Hw').
  { intros y Hy. apply Hl1. split; [set_solver|]. intros [-> _]. done. }
  exists k', c'. split_and!; try done; [by etrans|..].
  - intros y. rewrite Ht', Ht, lookup_insert. destruct (decide (x = y)) as [->|Hne].
    + rewrite (decide_False (P := y ∈ xs)), (decide_True (P := y ∈ y :: xs)) by set_solver.
      by rewrite Htm.
    + destruct (decide (y ∈ xs)); [rewrite decide_True by set_solver|rewrite decide_False by set_solver]; done.
  - intros y. rewrite Hl', Hl1. unfold expires_in. rewrite Ht, lookup_insert.
    destruct (decide (x = y)) as [->|Hne]; [rewrite Htm|]; set_solver.
  - intros y tm2 Hy Htm2 Hex ev t th w Hev Hmax Hth Hb Hlis.
    destruct (decide (y = x)) as [->|Hne].
    + simplify_eq. destruct (wakes_advance _ _ _ _ (Hw Hex) Ha' _ Hev Hmax _ _ _ Hth Hb Hlis)
        as (th' & ? & ?). eauto.
    + destruct (adv_threads _ _ Ha _ _ Hth) as (th1 & Hth1 & Hta).
      destruct (adv_events _ _ Ha _ _ Hev) as (ev1 & Hev1 & Hll).
      destruct (ta_blocked _ _ Hta Hb) as [Hb1|Hr1].
      * apply (Hw' y tm2) with (ev := ev1) (th := th1) (w := w); try done; [set_solver| |by rewrite Hll|].
        -- rewrite Ht, lookup_insert_ne by done. done.
        -- by rewrite (ta_listeners _ _ Hta).
      * destruct (adv_threads _ _ Ha' _ _ Hth1) as (th2 & ? & Hta2). exists th2. split; [done|].
        by apply (ta_ready _ _ Hta2).
Qed.

(** ** Ticks *)

(** [n] timer interrupts of the same interval. *)
Fixpoint ticks (n : nat) (k : kernel) (c : clocks) (i : TimeSpec) : outcome (kernel * clocks) :=
  match n with
  | O => Ret (k, c)
  | S n => let! (k, c) := update_time k c i in ticks n k c i
  end.

Lemma update_time_spec k c i :
  time_wf k c -> normal i ->
  exists k' c', update_time k c i = Ret (k', c') /\ time_wf k' c' /\ advance k k' /\
    (forall x, timers c' !! x =
       (if decide (x ∈ armed_timers_list c) then stepped i else id) <$> timers c !! x) /\
    (forall x, x ∈ armed_timers_list c' <-> x ∈ armed_timers_list c /\ expires_in c i x = false) /\
    (forall x tm, x ∈ armed_timers_list c -> timers c !! x = Some tm -> expires i tm = true ->
       wakes k k' (timer_event tm)).
Proof.
  intros Hwf Hi. unfold update_time.
  set (c0 := c <| monotonic_clock ::= _ |> <| realtime_clock ::= _ |>).
  assert (time_wf k c0) as Hwf0 by (destruct Hwf; by split).
  destruct (update_timers_spec (armed_timers_list c0) k c0 i Hwf0 Hi) as (k' & c' & ? & ? & ? & Ht & Hl & Hw);
    [apply Hwf|done|]. exists k', c'. split_and!; try done.
  - intros x. rewrite Hl. change (armed_timers_list c0) with (armed_timers_list c).
    change (expires_in c0 i x) with (expires_in c i x). destruct (expires_in c i x); naive_solver.
  - intros x tm Hx Htm Hex ev Hev Hmax t th w Hth Hb Hin. by eapply (Hw x tm).
Qed.

Lemma ticks_spec n : forall k c i, time_wf k c -> normal i ->
  exists k' c', ticks n k c i = Ret (k', c') /\ time_wf k' c' /\ advance k k' /\
    forall x, x ∉ armed_timers_list c -> timers c' !! x = timers c !! x /\ x ∉ armed_timers_list c'.
Proof.
  induction n as [|n IH]; intros k c i Hwf Hi; [by exists k, c|]. simpl.
  destruct (update_time_spec k c i Hwf Hi) as (k1 & c1 & -> & Hwf1 & Ha & Ht & Hl & _). cbn [obind].
  destruct (IH k1 c1 i Hwf1 Hi) as (k' & c' & -> & Hwf' & Ha' & Hx). exists k', c'.
  split_and!; [done..|by etrans|]. intros x Hx0. destruct (Hx x) as [-> ?]; [rewrite Hl; tauto|].
  split; [|done]. rewrite Ht, decide_False by done. by destruct (timers c !! x).
Qed.

Lemma advance_wakes k k1 k' e : advance k k1 -> advance k1 k' -> wakes k1 k' e -> wakes k k' e.
Proof.
  intros Ha Ha' Hw ev Hev Hl t th w Hth Hb Hin.
  destruct (adv_threads _ _ Ha _ _ Hth) as (th1 & Hth1 & Hta).
  destruct (adv_events _ _ Ha _ _ Hev) as (ev1 & Hev1 & Hll).
  destruct (ta_blocked _ _ Hta Hb) as [Hb1|Hr1].
  - apply (Hw ev1 Hev1) with (th := th1) (w := w); [by rewrite Hll|done|done|by rewrite (ta_listeners _ _ Hta)].
  - destruct (adv_threads _ _ Ha' _ _ Hth1) as (th2 & ? & Hta2). exists th2. split; [done|].
    by apply (ta_ready _ _ Hta2).
Qed.

(** One tick of a one-shot timer. *)
Lemma one_shot_step i tm :
  normal i -> normal (remaining tm) -> fired tm = false -> is_zero (interval tm) = true ->
  (expires i tm = true -> fired (stepped i tm) = true /\ total_ns (remaining tm) <= total_ns i + 1) /\
  (expires i tm = false -> fired (stepped i tm) = false /\
     total_ns i < total_ns (remaining tm) /\
     total_ns (remaining tm) - total_ns i - 1 <= total_ns (remaining (stepped i tm)) <=
       total_ns (remaining tm) - total_ns i).
Proof.
  intros Hi Hr Hf Hz. destruct (time_sub_spec (remaining tm) i Hr Hi) as [Hn Ht].
  pose proof (is_zero_spec _ Hn) as Hzero. unfold expires, stepped. rewrite Hf, Hz.
  assert (0 <= total_ns (time_sub (remaining tm) i)) by (unfold normal, total_ns in *; lia).
  destruct (is_zero (time_sub (remaining tm) i)) eqn:E; simpl; (split; [|done]) || (split; [done|]); intros _.
  - split; [done|]. pose proof (proj1 Hzero eq_refl) as E0.
    destruct (Z.ltb_spec (total_ns (remaining tm)) (total_ns i)); [lia|]. destruct (borrows _ _); lia.
  - split; [done|]. assert (total_ns (time_sub (remaining tm) i) <> 0) by (by intros ?%Hzero).
    destruct (Z.ltb_spec (total_ns (remaining tm)) (total_ns i)); [lia|]. destruct (borrows _ _); lia.
Qed.

Lemma one_shot_ticks n x i : normal i -> forall k c tm,
  time_wf k c -> x ∈ armed_timers_list c -> timers c !! x = Some tm ->
  fired tm = false -> is_zero (interval tm) = true ->
  exists k' c' tm', ticks n k c i = Ret (k', c') /\ time_wf k' c' /\ advance k k' /\
    timers c' !! x = Some tm' /\ timer_event tm' = timer_event tm /\
    thread_link tm' = thread_link tm /\ (x ∈ armed_timers_list c' <-> fired tm' = false) /\
    ((0 < n)%nat -> total_ns (remaining tm) <= Z.of_nat n * total_ns i -> fired tm' = true) /\
    (Z.of_nat n * (total_ns i + 1) < total_ns (remaining tm) -> fired tm' = false) /\
    (fired tm' = true -> wakes k k' (timer_event tm)).
Proof.
  intros Hi. induction n as [|n IH]; intros k c tm Hwf Hx Htm Hf Hz.
  { exists k, c, tm. split_and!; try done; [lia|by rewrite Hf]. }
  assert (0 <= total_ns i) by (unfold normal, total_ns in *; lia).
  simpl. destruct (update_time_spec k c i Hwf Hi) as (k1 & c1 & -> & Hwf1 & Ha & Ht & Hl & Hw). cbn [obind].
  destruct (tw_timer _ _ Hwf _ Hx) as (tm2 & ? & _ & Hr & Hn & _). simplify_eq.
  assert (timers c1 !! x = Some (stepped i tm)) as Htm1 by (by rewrite Ht, decide_True, Htm).
  destruct (stepped_fields i tm) as (He & Hint & _ & Hlnk).
  destruct (one_shot_step i tm Hi Hr Hf Hz) as [Hyes Hno].
  destruct (expires i tm) eqn:Eex.
  - destruct (Hyes eq_refl) as [Hf1 Hle].
    destruct (ticks_spec n k1 c1 i Hwf1 Hi) as (k' & c' & -> & Hwf' & Ha' & Hun).
    assert (x ∉ armed_timers_list c1) as Hx1 by (rewrite Hl; unfold expires_in; rewrite Htm, Eex; naive_solver).
    destruct (Hun x Hx1) as [Htx Hx']. exists k', c', (stepped i tm). rewrite Htx, Hf1.
    split_and!; try done; [by etrans|rewrite Nat2Z.inj_succ; nia|]. intros _. eapply wakes_advance; [|done]. by eapply Hw.
  - destruct (Hno eq_refl) as (Hf1 & Hgt & Hb).
    assert (x ∈ armed_timers_list c1) as Hx1 by (rewrite Hl; unfold expires_in; by rewrite Htm, Eex).
    destruct (IH k1 c1 (stepped i tm) Hwf1 Hx1 Htm1 Hf1) as (k' & c' & tm' & -> & Hwf' & Ha' & Htm' & He' & Hlk & Hl' & H1 & H2 & H3);
      [by rewrite Hint|]. exists k', c', tm'. split_and!; try done.
    + by etrans.
    + congruence.
    + congruence.
    + intros _ Hle. rewrite Nat2Z.inj_succ in Hle. destruct n as [|n]; [simpl in *; lia|]. apply H1; nia.
    + intros Hle. apply H2. rewrite Nat2Z.inj_succ in Hle. nia.
    + intros Hfi. rewrite He in H3. eapply advance_wakes; eauto.
Qed.

(** ** Sleeping *)

Lemma wait_begin_events k t e ev k1 :
  events k !! e = Some ev -> wait_begin k t [Some e] false = Ret (inr k1) ->
  events k1 = <[e := ev <| listener_list := listener_list ev ++ [(t, 0)] |>
                        <| num_listeners ::= Z.add 1 |>]> (events k).
Proof.
  intros Hev. unfold wait_begin. intros H. inv_ret. case_match; [done|]. inv_ret.
  match goal with o : option (Z * Z) |- _ => destruct o as [[? ?]|]; [inv_ret; done|] end. inv_ret.
  match goal with H : dequeue_thread _ _ _ = Ret _ |- _ =>
    apply dequeue_thread_blocked in H as (? & _ & _ & _ & ->) end. simpl.
  match goal with H : register _ _ _ _ = Ret _ |- _ => rename H into Hr end.
  cbn [register] in Hr. inv_ret. unfold link_tail in *. case_decide; simplify_eq/=. congruence.
Qed.

Lemma update_timers_thread_timers xs : forall k c i k' c',
  update_timers k c xs i = Ret (k', c') -> thread_timers c' = thread_timers c.
Proof.
  induction xs as [|x xs IH]; intros k c i k' c' H; simpl in H; [by simplify_eq|].
  destruct (update_timer k c x i) as [[k1 c1]| |] eqn:E; [|done..]. cbn [obind] in H.
  rewrite (IH _ _ _ _ _ H). clear H IH. unfold update_timer in E.
  destruct (timers c !! x) as [tm|]; [|done]. cbn [deref obind] in E.
  destruct (fired tm); [by simplify_eq|]. simpl in E.
  destruct (is_zero _); [|by simplify_eq]. inv_ret. destruct a as [k2 c2].
  assert (thread_timers c2 = thread_timers c) as Hc.
  { destruct (is_zero (interval tm)); inv_ret; [|by simplify_eq]. by simplify_eq. }
  destruct (callback tm); inv_ret; by simplify_eq.
Qed.

Lemma ticks_thread_timers n : forall k c i k' c',
  ticks n k c i = Ret (k', c') -> thread_timers c' = thread_timers c.
Proof.
  induction n as [|n IH]; intros k c i k' c' H; simpl in H; [by simplify_eq|].
  destruct (update_time k c i) as [[k1 c1]| |] eqn:E; [|done..]. cbn [obind] in H.
  rewrite (IH _ _ _ _ _ H). unfold update_time in E. by apply update_timers_thread_timers in E.
Qed.

(** Thread [t] sleeps in [clock_nanosleep] on the timer [x], [tm], armed for [d]. *)
Record asleep_on (k : kernel) (c : clocks) (t x : Z) (tm : Timer) (d : TimeSpec) : Prop := {
  ao_wf : time_wf k c;
  ao_armed : x ∈ armed_timers_list c;
  ao_list : x ∈ timers_of c t;
  ao_timer : timers c !! x = Some tm;
  ao_fields : remaining tm = d /\ fired tm = false /\ is_zero (interval tm) = true /\
    thread_link tm = Some t;
  ao_thread : exists th, threads k !! t = Some th /\ state th = BLOCKED /\
    (timer_event tm, 0) ∈ listeners th;
  ao_event : exists ev, events k !! timer_event tm = Some ev /\ length (listener_list ev) = 1%nat
}.

Lemma clock_nanosleep_begin_spec k c t x d c1 k1 :
  time_wf k c -> events k !! next_obj k = None -> timers c !! x = None -> x ∉ timers_of c t ->
  normal d -> clock_nanosleep_begin k c t x d = Ret (c1, inr k1) ->
  exists tm, asleep_on k1 c1 t x tm d /\ idle_thread k1 = idle_thread k.
Proof.
  intros Hwf He Hx Hxt Hd. unfold clock_nanosleep_begin. set (e := next_obj k) in *.
  set (k0 := put_event e Event_init k <| next_obj ::= Z.add 1 |>).
  assert (x ∉ armed_timers_list c) as Hxa.
  { intros Hin. destruct (tw_timer _ _ Hwf _ Hin) as (? & ? & _). congruence. }
  unfold arm. simpl. rewrite lookup_insert_eq. cbn [deref obind].
  change (timers_of (put_timer x (Timer_init e) c) t) with (timers_of c t).
  rewrite (link_tail_Ret x (timers_of c t)) by done. cbn [obind].
  rewrite link_tail_Ret by done. cbn [obind]. rewrite insert_insert_eq.
  set (tm := Timer_init e <| remaining := d |> <| fired := false |> <| thread_link := Some t |>).
  destruct (wait_begin k0 t [Some e] false) as [r| |] eqn:Hb; [|done..]. cbn [obind]. intros [= <- ->].
  assert (sched_wf k0) as Hwf0.
  { destruct (tw_sched _ _ Hwf) as [Hq Hl]. pose proof (links_wf_new_event _ _ Hl He) as Hl'.
    split; [by destruct Hq|by destruct Hl']. }
  assert (events k0 !! e = Some Event_init) as Hev0 by apply lookup_insert_eq.
  destruct (wait_begin_sleep _ _ _ _ _ Hwf0 Hb) as (Hwf1 & th & cap & Hth & Ht1 & _ & Hp1 & Hi1).
  pose proof (wait_begin_events _ _ _ _ _ Hev0 Hb) as Hev1.
  assert (forall p, can_signal k p -> can_signal k1 p) as Hsig.
  { intros p (pr & u & thu & Hpr & Hu & Hthu & Htid & Hse). change (processes k) with (processes k0) in Hpr. rewrite <- Hp1 in Hpr.
    assert (forall e', is_Some (events k !! e') -> is_Some (events k1 !! e')) as Hm.
    { intros e' Hs. rewrite Hev1, lookup_insert. case_decide; [done|]. simpl. by rewrite lookup_insert_ne. }
    destruct (decide (u = t)) as [->|Hne].
    - assert (thu = th) as -> by (simpl in Hth; congruence). exists pr, t. eexists.
      rewrite Ht1, lookup_insert_eq. split_and!; eauto.
    - exists pr, u, thu. rewrite Ht1, lookup_insert_ne by done. split_and!; eauto. }
  exists tm. split; [split; simpl|done].
  - split; simpl; [done|by apply NoDup_snoc; [apply Hwf|]|].
    intros y [Hy| ->%list_elem_of_singleton]%elem_of_app.
    + destruct (tw_timer _ _ Hwf _ Hy) as (tmy & Hty & Hse & Hr & Hn & Hcb). exists tmy.
      rewrite lookup_insert_ne by congruence. split_and!; [done| |done|done|naive_solver].
      rewrite Hev1, lookup_insert. case_decide; [done|]. simpl. by rewrite lookup_insert_ne.
    + exists tm. rewrite lookup_insert_eq. split_and!; [done| |done|done|done].
      rewrite Hev1. change (timer_event tm) with e. rewrite lookup_insert_eq. done.
  - set_solver.
  - unfold timers_of. simpl. rewrite lookup_insert_eq. simpl. set_solver.
  - apply lookup_insert_eq.
  - done.
  - eexists. rewrite Ht1, lookup_insert_eq. split_and!; [done|done|]. left.
  - eexists. rewrite Hev1. change (timer_event tm) with e. rewrite lookup_insert_eq. done.
Qed.

(** C11. Sleeping terminates. A thread asleep in [nanosleep] for [d], whatever other
    timers are armed, is runnable after any [n] ticks of an interval [i] with
    [n * i >= d], and its call then returns 0, or -EINTR if a signal had woken it,
    without failing its assertion. Its timer does not fire before [d] has passed,
    up to the nanosecond a tick that borrows loses: never while
    [n * (i + 1ns) < d]. The remaining time reported is 0 in every case. *)
Theorem nanosleep_wakes k c t x d c1 k1 i n :
  time_wf k c -> events k !! next_obj k = None -> timers c !! x = None -> x ∉ timers_of c t ->
  t <> idle_thread k -> normal d -> normal i ->
  clock_nanosleep_begin k c t x d = Ret (c1, inr k1) ->
  exists k2 c2 tm, ticks n k1 c1 i = Ret (k2, c2) /\ timers c2 !! x = Some tm /\
    (Z.of_nat n * (total_ns i + 1) < total_ns d -> fired tm = false) /\
    ((0 < n)%nat -> total_ns d <= Z.of_nat n * total_ns i ->
      fired tm = true /\
      (exists th, threads k2 !! t = Some th /\ state th = READY /\ t ∈ sched_list k2) /\
      exists r k3 c3, clock_nanosleep_end k2 c2 t x = Ret (r, zero_time, k3, c3) /\
        (r = 0 \/ r = - EINTR)).
Proof.
  intros Hwf He Hx Hxt Hti Hd Hi Hb.
  destruct (clock_nanosleep_begin_spec _ _ _ _ _ _ _ Hwf He Hx Hxt Hd Hb) as (tm0 & Hao & Hid).
  destruct (ao_fields _ _ _ _ _ _ Hao) as (Hrem & Hf & Hz & Hlk).
  destruct (one_shot_ticks n x i Hi k1 c1 tm0 (ao_wf _ _ _ _ _ _ Hao) (ao_armed _ _ _ _ _ _ Hao)
    (ao_timer _ _ _ _ _ _ Hao) Hf Hz) as (k2 & c2 & tm & Ht & Hwf2 & Ha & Htm & Hte & Hlk2 & Hin & H1 & H2 & Hw).
  rewrite Hrem in *. exists k2, c2, tm. split_and!; [done..|]. intros Hn Hle.
  specialize (H1 Hn Hle). split; [done|].
  destruct (ao_thread _ _ _ _ _ _ Hao) as (th & Hth & Hbl & Hlis).
  destruct (ao_event _ _ _ _ _ _ Hao) as (ev & Hev & Hlen).
  destruct (Hw H1 ev Hev ltac:(rewrite Hlen; unfold INT_MAX; lia) t th 0 Hth Hbl Hlis) as (th2 & Hth2 & Hr2).
  split.
  { exists th2. split_and!; [done..|]. eapply (queue_complete _ (proj1 (tw_sched _ _ Hwf2))); [done|by left|].
    rewrite (adv_idle _ _ Ha). congruence. }
  destruct (wait_end_spec k2 t th2 (tw_sched _ _ Hwf2) Hth2) as (k3 & Hwe & _).
  unfold clock_nanosleep_end. rewrite Hwe. cbn [obind]. unfold clock_nanosleep_return, disarm.
  rewrite Htm. cbn [deref obind].
  destruct (decide (x ∈ armed_timers_list c2)) as [Hc|_]; [apply Hin in Hc; congruence|]. cbn [obind].
  change (thread_link (tm <| remaining := zero_time |> <| interval := zero_time |> <| callback := None |>))
    with (thread_link tm). rewrite Hlk2, Hlk.
  assert (timers_of c2 t = timers_of c1 t) as Htl
    by (unfold timers_of; by rewrite (ticks_thread_timers _ _ _ _ _ _ Ht)).
  rewrite Htl, unlink_Ret by apply (ao_list _ _ _ _ _ _ Hao). cbn [obind]. simpl.
  rewrite lookup_insert_eq. cbn [deref obind]. simpl. rewrite H1. cbn [assert obind].
  match goal with |- context [?ret =? - EINTR] => destruct (ret =? - EINTR) end;
    [exists (- EINTR)|exists 0]; eexists _, _; (split; [reflexivity|tauto]).
Qed.

(** A thread of [sample] that sleeps for 25 ms, with ticks of 10 ms. *)
Definition sample_clocks : clocks :=
  {| timers := ∅; armed_timers_list := []; thread_timers := ∅; itimer_real := ∅;
     monotonic_clock := zero_time; realtime_clock := zero_time |}.

Lemma sample_time_wf : time_wf sample sample_clocks.
Proof. split; [apply sample_wf|constructor|by intros x ?%elem_of_nil]. Qed.

Definition sleeper : clocks * kernel :=
  match clock_nanosleep_begin sample sample_clocks 1 50 (mkTimeSpec 0 25000000) with
  | Ret (c, inr k) => (c, k)
  | _ => (sample_clocks, sample)
  end.

Lemma nanosleep_wakes_witness :
  clock_nanosleep_begin sample sample_clocks 1 50 (mkTimeSpec 0 25000000) =
    Ret (fst sleeper, inr (snd sleeper)) /\
  exists k2 c2 tm, ticks 3 (snd sleeper) (fst sleeper) (mkTimeSpec 0 10000000) = Ret (k2, c2) /\
    timers c2 !! 50 = Some tm /\
    (Z.of_nat 3 * (total_ns (mkTimeSpec 0 10000000) + 1) < total_ns (mkTimeSpec 0 25000000) -> fired tm = false) /\
    ((0 < 3)%nat -> total_ns (mkTimeSpec 0 25000000) <= Z.of_nat 3 * total_ns (mkTimeSpec 0 10000000) ->
      fired tm = true /\
      (exists th, threads k2 !! 1 = Some th /\ state th = READY /\ 1 ∈ sched_list k2) /\
      exists r k3 c3, clock_nanosleep_end k2 c2 1 50 = Ret (r, zero_time, k3, c3) /\
        (r = 0 \/ r = - EINTR)).
Proof.
  split; [vm_compute; reflexivity|]. apply (nanosleep_wakes sample sample_clocks).
  - apply sample_time_wf.
  - vm_compute. reflexivity.
  - reflexivity.
  - apply not_elem_of_nil.
  - vm_compute. discriminate.
  - unfold normal. simpl. lia.
  - unfold normal. simpl. lia.
  - vm_compute. reflexivity.
Defined.
