(* ===== verification/Process.v ===== *)
(** * Processes and threads: creation, groups, exit, wait and fork

    [Thread], [Process], [ProcessGroup] and [Session] of sched/sched.cpp and the
    calls of userland/pid.cpp. Objects are allocated at [next_obj]. The procfs
    directories of processes and threads, armed timers and the address space that
    [Pagemap::fork] builds are not part of this state. *)

From S2P Require Import Prelude Context Cred Vector Links Sched FdTable Futex.

(** ** Constants *)
Definition SIGALRM : Z := 14.
Definition WNOHANG : Z := 1.
Definition WUNTRACED : Z := 2.
Definition WSTOPPED : Z := 2.
Definition WEXITED : Z := 4.
Definition WCONTINUED : Z := 8.
Definition WNOWAIT : Z := 16777216.
Definition P_ALL : Z := 0.
Definition P_PID : Z := 1.
Definition P_PGID : Z := 2.
(** __WNOTHREAD | __WALL | __WCLONE *)
Definition wait4_flags : Z := 536870912 .| 1073741824 .| 2147483648.

Definition CLONE_VM : Z := 256.
Definition CLONE_FS : Z := 512.
Definition CLONE_FILES : Z := 1024.
Definition CLONE_SIGHAND : Z := 2048.
Definition CLONE_VFORK : Z := 16384.
Definition CLONE_THREAD : Z := 65536.
Definition CLONE_SYSVSEM : Z := 262144.
Definition CLONE_SETTLS : Z := 524288.
Definition CLONE_PARENT_SETTID : Z := 1048576.
Definition CLONE_CHILD_CLEARTID : Z := 2097152.
Definition CLONE_CHILD_SETTID : Z := 16777216.
Definition CLONE_CLEAR_SIGHAND : Z := 4294967296.
Definition thread_clone_flags : Z :=
  CLONE_VM .| CLONE_FS .| CLONE_FILES .| CLONE_SIGHAND .| CLONE_THREAD .| CLONE_SYSVSEM.
Definition supported_generic_clone_flags : Z :=
  CLONE_CHILD_CLEARTID .| CLONE_CHILD_SETTID .| CLONE_PARENT_SETTID .| CLONE_SETTLS
    .| CLONE_CLEAR_SIGHAND.
Definition SIG_DFL : Z := 0.
Definition SIG_IGN : Z := 1.
Definition USER_CS : Z := 35.
Definition USER_DS : Z := 27.

(** ** Thread ids *)

Fixpoint find_null (table : list (option Z)) (i : Z) : option Z :=
  match table with
  | [] => None
  | None :: _ => Some i
  | Some _ :: table => find_null table (i + 1)
  end.

Definition allocate_tid (k : kernel) : Z * kernel :=
  let table := match thread_table k with [] => [None; None] | l => l end in
  let k := k <| thread_table := table |> <| num_threads ::= fun n => u64 (n + 1) |> in
  match find_null (drop (Z.to_nat (first_free_tid k)) table) (first_free_tid k) with
  | Some i => (i32 i, k <| first_free_tid := u64 (i + 1) |>)
  | None =>
      let n := Z.of_nat (length table) in
      (i32 n, k <| first_free_tid := u64 (n + 1) |> <| thread_table := table ++ [None] |>)
  end.

Definition get_from_tid (k : kernel) (t : Z) : option Z :=
  if (t <=? 0) || (t >=? i32 (Z.of_nat (length (thread_table k)))) then None
  else match thread_table k !! Z.to_nat t with Some (Some p) => Some p | _ => None end.

(** The process of the thread with id [t]. *)
Definition process_of_tid (k : kernel) (t : Z) : outcome (option Z) :=
  match get_from_tid k t with
  | None => Ret None
  | Some th => let! th := deref (threads k !! th) in Ret (Some (process th))
  end.

(** ** Constructors *)

(** [new Thread(process, tid)]; the result is the thread. *)
Definition new_thread (k : kernel) (p t kernel_stack : Z) : outcome (Z * kernel) :=
  let obj := next_obj k in
  let! pr := deref (processes k !! p) in
  let! _ := assert (0 <=? t) in
  let! _ := deref (thread_table k !! Z.to_nat t) in
  let k := put_event (obj + 1) Event_init (put_event (obj + 2) Event_init k) in
  let k := put_thread obj (Thread_init t p kernel_stack (obj + 1) (obj + 2)) k in
  let k := put_process p (pr <| thread_list ::= fun l => l ++ [obj] |>
                             <| num_living_threads ::= Z.add 1 |>) k in
  Ret (obj, k <| thread_table ::= <[Z.to_nat t := Some obj]> |> <| next_obj := obj + 3 |>).

(** [new Process()]. *)
Definition new_process (k : kernel) : Z * kernel :=
  let '(t, k) := allocate_tid k in
  let obj := next_obj k in
  let k := put_event (obj + 1) Event_init (put_event (obj + 2) Event_init
             (put_event (obj + 3) Event_init k)) in
  (obj, put_process obj (Process_init t (obj + 1) (obj + 2) (obj + 3)) k
          <| next_obj := obj + 4 |>).

(** [new ProcessGroup(session, leader)]. *)
Definition new_group (k : kernel) (s leader : Z) : outcome (Z * kernel) :=
  let obj := next_obj k in
  let! se := deref (sessions k !! s) in
  Ret (obj, k <| groups ::= <[obj := mkGroup s leader []]> |>
              <| sessions ::= <[s := se <| process_group_list ::= fun l => l ++ [obj] |>]> |>
              <| next_obj := obj + 1 |>).

(** ** Groups and parents *)

Definition add_process (k : kernel) (g p : Z) : outcome kernel :=
  let! pr := deref (processes k !! p) in
  let! k :=
    match group pr with
    | None => Ret k
    | Some g0 =>
        let! gr := deref (groups k !! g0) in
        let! l := unlink p (process_list gr) in
        Ret (k <| groups ::= <[g0 := gr <| process_list := l |>]> |>)
    end in
  let! gr := deref (groups k !! g) in
  Ret (put_process p (pr <| group := Some g |>)
    (k <| groups ::= <[g := gr <| process_list ::= fun l => l ++ [p] |>]> |>)).

Fixpoint send_signal_all (k : kernel) (g : Z) (ps : list Z) (signal : Z) : outcome kernel :=
  match ps with
  | [] => Ret k
  | p :: ps =>
      let! pr := deref (processes k !! p) in
      let! _ := assert (bool_decide (group pr = Some g)) in
      let! k := process_send_signal k p signal in
      send_signal_all k g ps signal
  end.

Definition group_send_signal (k : kernel) (g signal : Z) : outcome kernel :=
  let! gr := deref (groups k !! g) in send_signal_all k g (process_list gr) signal.

(** The sibling link of a process is linked exactly if its parent lists it. *)
Definition unlink_sibling (k : kernel) (p old_parent : Z) : kernel :=
  match processes k !! old_parent with
  | Some opr =>
      put_process old_parent (opr <| children_list ::= filter (fun c => c <> p) |>) k
  | None => k
  end.

Definition set_parent (k : kernel) (p new_parent : Z) : outcome kernel :=
  let! pr := deref (processes k !! p) in
  let k := unlink_sibling (put_process p (pr <| parent := new_parent |>) k) p (parent pr) in
  let! npr := deref (processes k !! new_parent) in
  let! cl := link_tail p (children_list npr) in
  let k := put_process new_parent (npr <| children_list := cl |>) k in
  let! g := deref (group npr) in
  add_process k g p.

(** ** Exit *)

Fixpoint reparent (k : kernel) (children : list Z) : outcome kernel :=
  match children with
  | [] => Ret k
  | c :: children => let! k := set_parent k c (init_process k) in reparent k children
  end.

Definition zombify (k : kernel) (p terminate_signal : Z) : outcome kernel :=
  if decide (p = init_process k) then Panic else
  let! pr := deref (processes k !! p) in
  let pr := pr <| is_zombie := true |> in
  let pr := if negb (terminate_signal =? -1)
            then pr <| wait_status := terminate_signal |> <| wait_code := CLD_KILLED |> else pr in
  let! k := reparent (put_process p pr k) (children_list pr) in
  let! k := close_all k p in
  let! pr := deref (processes k !! p) in
  let k := put_process p (pr <| pagemap := None |>) k in
  let! k := trigger_all k (zombie_event pr) in
  process_send_signal k (parent pr) SIGCHLD.

(** [terminate_thread]; [cur] is the process of the running thread, whose pagemap
    is the active one. *)
Definition terminate_thread (k : kernel) (cur t terminate_signal : Z) : outcome kernel :=
  let! th := deref (threads k !! t) in
  if decide (state th = ZOMBIE) then Ret k else
  let! q := if decide (state th = READY \/ state th = RUNNING)
            then unlink t (sched_list k) else Ret (sched_list k) in
  let k := put_thread t (th <| state := ZOMBIE |>) (k <| sched_list := q |>) in
  let p := process th in
  let! pr := deref (processes k !! p) in
  let n := num_living_threads pr - 1 in
  let k := put_process p (pr <| num_living_threads := n |>) k in
  if n =? 0 then zombify k p terminate_signal
  else if negb (clear_child_tid th =? 0) then
    let! cpr := deref (processes k !! cur) in
    let! _ := assert (bool_decide (pagemap cpr = pagemap pr)) in
    let! k := store_u32 k cur (clear_child_tid th) 0 in
    let! (_, k) := futex_wake k cur (clear_child_tid th) 1 in
    Ret k
  else Ret k.

Fixpoint terminate_threads (k : kernel) (cur : Z) (ts : list Z) (terminate_signal : Z)
    : outcome kernel :=
  match ts with
  | [] => Ret k
  | t :: ts =>
      let! k := terminate_thread k cur t terminate_signal in
      terminate_threads k cur ts terminate_signal
  end.

Definition terminate_process (k : kernel) (cur p terminate_signal : Z) : outcome kernel :=
  let! pr := deref (processes k !! p) in
  terminate_threads k cur (thread_list pr) terminate_signal.

(** [exit] and [exit_group] by thread [t], up to the [yield] that never returns. *)
Definition syscall_exit (k : kernel) (t status : Z) : outcome kernel :=
  let! th := deref (threads k !! t) in
  terminate_thread k (process th) t (-1).

Definition syscall_exit_group (k : kernel) (t status : Z) : outcome kernel :=
  let! th := deref (threads k !! t) in
  let! pr := deref (processes k !! process th) in
  let pr := pr <| wait_status := status |> <| wait_code := CLD_EXITED |> in
  terminate_process (put_process (process th) pr k) (process th) (process th) (-1).

(** ** Destructors *)

(** [delete thread]. *)
Definition delete_thread (k : kernel) (t : Z) : outcome kernel :=
  let! th := deref (threads k !! t) in
  let! _ := assert (bool_decide (state th = ZOMBIE)) in
  let! pr := deref (processes k !! process th) in
  let! l := unlink t (thread_list pr) in
  let k := put_process (process th) (pr <| thread_list := l |>) k in
  let! k := clear_listeners (k <| thread_table ::= <[Z.to_nat (tid th) := None]> |>) t in
  Ret (k <| threads ::= delete t |>).

Fixpoint delete_threads (k : kernel) (cur : Z) (ts : list Z) : outcome kernel :=
  match ts with
  | [] => Ret k
  | t :: ts =>
      let! th := deref (threads k !! t) in
      let! k := if decide (state th <> ZOMBIE) then terminate_thread k cur t (-1) else Ret k in
      let! k := delete_thread k t in
      delete_threads k cur ts
  end.

(** [delete process]. *)
Definition delete_process (k : kernel) (cur p : Z) : outcome kernel :=
  let! pr := deref (processes k !! p) in
  let! _ := assert (is_zombie pr) in
  let! par := deref (processes k !! parent pr) in
  let! cl := unlink p (children_list par) in
  let k := put_process (parent pr) (par <| children_list := cl |>) k in
  let! g := deref (group pr) in
  let! gr := deref (groups k !! g) in
  let! pl := unlink p (process_list gr) in
  let k := k <| groups ::= <[g := gr <| process_list := pl |>]> |> in
  let! k := delete_threads k cur (thread_list pr) in
  Ret (k <| processes ::= delete p |>).
