(* ===== verification/Wait.v ===== *)
(** * waitid, wait4, clone and the process id calls

    sched/sched.cpp from [clone_impl] on and userland/pid.cpp. The running thread
    is [t]. A call of [waitid] that sleeps is run against the sequence of results
    of its [Event::wait]s with the states it finds after each. *)

From S2P Require Import Prelude Context Cred Vector Links Sched FdTable Futex Process.

(** ** waitid *)

(** What [*infop] receives: pid, uid, status and code of the child. *)
Record siginfo := mkSiginfo { si_pid : Z; si_uid : Z; si_status : Z; si_code0 : Z }.
Definition empty_siginfo : siginfo := mkSiginfo 0 0 0 0.

(** [add_child]: a child is listed once per event waited for. *)
Definition child_events (pr : Process) (options : Z) : list Z :=
  (if options &? WEXITED then [zombie_event pr] else []) ++
  (if options &? WSTOPPED then [stopped_event pr] else []) ++
  (if options &? WCONTINUED then [continued_event pr] else []).

Fixpoint child_targets (k : kernel) (cs : list Z) (options : Z) : outcome (list Z * list Z) :=
  match cs with
  | [] => Ret ([], [])
  | c :: cs =>
      let! pr := deref (processes k !! c) in
      let! (targets, evs) := child_targets k cs options in
      let es := child_events pr options in
      Ret (map (fun _ => c) es ++ targets, es ++ evs)
  end.

(** The children and events to wait for, or the value returned at once. *)
Definition waitid_targets (k : kernel) (t idtype id options : Z)
    : outcome (Z + list Z * list Z) :=
  if negb (options &? (WEXITED .| WSTOPPED .| WCONTINUED)) then Ret (inl (- EINVAL)) else
  let! th := deref (threads k !! t) in
  let! pr := deref (processes k !! process th) in
  if idtype =? P_ALL then
    if decide (children_list pr = []) then Ret (inl (- ECHILD)) else
    let! r := child_targets k (children_list pr) options in Ret (inr r)
  else if idtype =? P_PID then
    if id >=? Z.of_nat (length (thread_table k)) then Ret (inl (- ECHILD)) else
    let! slot := deref (thread_table k !! Z.to_nat id) in
    match slot with
    | None => Ret (inl (- ECHILD))
    | Some target =>
        let! tth := deref (threads k !! target) in
        let! child := deref (processes k !! process tth) in
        if decide (parent child <> process th) then Ret (inl (- ECHILD)) else
        let! r := child_targets k [process tth] options in Ret (inr r)
    end
  else Ret (inl 0).

Fixpoint find_waitable (k : kernel) (targets : list Z) : outcome (option (Z * Process)) :=
  match targets with
  | [] => Ret None
  | c :: targets =>
      let! pr := deref (processes k !! c) in
      if negb (wait_code pr =? 0) then Ret (Some (c, pr)) else find_waitable k targets
  end.

(** One turn of the loop: [None] is that it has to wait. *)
Definition waitid_turn (k : kernel) (cur : Z) (targets : list Z) (options : Z)
    : outcome (option (Z * siginfo * kernel)) :=
  let! found := find_waitable k targets in
  match found with
  | Some (c, pr) =>
      let! m := get_main_thread k c in
      let! mt := deref (threads k !! m) in
      let info := mkSiginfo (pid pr) (rid (uids (cred mt))) (wait_status pr) (wait_code pr) in
      let! k :=
        if options &? WNOWAIT then Ret k
        else if is_zombie pr then delete_process k cur c
        else Ret (put_process c (pr <| wait_code := 0 |>) k) in
      Ret (Some (pid pr, info, k))
  | None => if options &? WNOHANG then Ret (Some (0, empty_siginfo, k)) else Ret None
  end.

(** The loop from a state, given what each wait returns and the state it returns in. *)
Fixpoint waitid_loop (k : kernel) (cur : Z) (targets : list Z) (options : Z)
    (waits : list (Z * kernel)) : outcome (blocking kernel (Z * siginfo)) :=
  let! r := waitid_turn k cur targets options in
  match r, waits with
  | Some (v, info, k), _ => Ret (Done (v, info) k)
  | None, [] => Ret (Sleeping k)
  | None, (w, k) :: waits =>
      if w =? - EINTR then Ret (Done (- EINTR, empty_siginfo) k)
      else waitid_loop k cur targets options waits
  end.

Definition waitid_impl (k : kernel) (t idtype id options : Z) (waits : list (Z * kernel))
    : outcome (blocking kernel (Z * siginfo)) :=
  let! th := deref (threads k !! t) in
  let! r := waitid_targets k t idtype id options in
  match r with
  | inl v => Ret (Done (v, empty_siginfo) k)
  | inr (targets, _) => waitid_loop k (process th) targets options waits
  end.

(** [W_EXITCODE], [__W_STOPCODE], [__W_CONTINUED] of a siginfo. *)
Definition wait_status_word (info : siginfo) : Z :=
  if si_pid info =? 0 then 0
  else if si_code0 info =? CLD_EXITED then Z.lor (Z.shiftl (si_status info) 8) 0
  else if si_code0 info =? CLD_KILLED then Z.lor (Z.shiftl 0 8) (si_status info)
  else if si_code0 info =? CLD_STOPPED then Z.lor (Z.shiftl (si_status info) 8) 127
  else if si_code0 info =? CLD_CONTINUED then 65535
  else 0.

(** What [wait4] asks of [waitid]: an id type and an id. *)
Definition wait4_target (k : kernel) (t wpid : Z) : outcome (Z * Z) :=
  if wpid <? -1 then Ret (P_PGID, - wpid)
  else if wpid =? -1 then Ret (P_ALL, 0)
  else if wpid =? 0 then
    let! th := deref (threads k !! t) in
    let! pr := deref (processes k !! process th) in
    let! g := deref (group pr) in
    let! gr := deref (groups k !! g) in
    let! lp := deref (processes k !! leader_process gr) in
    Ret (P_PGID, pid lp)
  else Ret (P_PID, wpid).

(** The returned pid and the status word. For P_PGID [waitid_impl] returns without
    writing the [siginfo_t] that [wait4] then reads: [Undef]. *)
Definition syscall_wait4 (k : kernel) (t wpid options : Z) (waits : list (Z * kernel))
    : outcome (blocking kernel (Z * Z)) :=
  if negb (options &~ (WNOHANG .| WUNTRACED .| WCONTINUED .| wait4_flags) =? 0)
  then Ret (Done (- EINVAL, 0) k) else
  let o := WEXITED .| (options &~ WUNTRACED) in
  let o := if options &? WUNTRACED then o .| WSTOPPED else o in
  let! (idtype, id) := wait4_target k t wpid in
  let! r := waitid_impl k t idtype id o waits in
  match r with
  | Sleeping k => Ret (Sleeping k)
  | Done (ret, info) k =>
      if ret <? 0 then Ret (Done (ret, 0) k)
      else if idtype =? P_PGID then Undef
      else Ret (Done (si_pid info, wait_status_word info) k)
  end.

(** ** clone *)

Record clone_args := mkCloneArgs {
  ca_flags : Z; ca_child_tid : Z; ca_parent_tid : Z; ca_exit_signal : Z;
  ca_stack : Z; ca_stack_size : Z; ca_tls : Z
}.

(** What [clone_impl] makes of the flags: the remaining ones and whether a thread
    is made, or the error. *)
Definition clone_flags (flags : Z) : Z + Z * bool :=
  if (flags &? CLONE_SIGHAND) && (flags &? CLONE_CLEAR_SIGHAND) then inl (- EINVAL) else
  let flags := if (flags &? CLONE_VM) && (flags &? CLONE_VFORK)
               then flags &~ (CLONE_VM .| CLONE_VFORK) else flags in
  let spawn := flags &? thread_clone_flags in
  let flags := if spawn then flags &~ thread_clone_flags else flags in
  if negb (flags &~ supported_generic_clone_flags =? 0) then inl (- EINVAL)
  else inr (flags, spawn).

(** The registers of the new thread, from the syscall state of the old one. *)
Definition clone_regs (state : InterruptState) (stack : Z) : InterruptState :=
  state <| cs := USER_CS |> <| ds := USER_DS |> <| es := USER_DS |> <| ss := USER_DS |>
        <| rflags := r11 state |> <| rip := rcx state |> <| rax := 0 |> <| rsp := stack |>.

(** The rest of the new thread. [user_stack] is the stack pointer of the processor's
    interrupted user code, [fs], [gs] its segment bases. *)
Definition clone_thread (new old : Thread) (a : clone_args) (flags user_stack fs gs : Z) : Thread :=
  let has_stack := ca_stack_size a >? 0 in
  let sp := if has_stack then u64 (ca_stack a + ca_stack_size a) else user_stack in
  new <| gpr_state := clone_regs (syscall_state old) sp |>
      <| gs_base := gs |>
      <| fs_base := if flags &? CLONE_SETTLS then ca_tls a else fs |>
      <| extended_state := extended_state old |>
      <| thread_user_stack := if has_stack then sp else thread_user_stack old |>
      <| saved_user_stack := sp |>
      <| signal_mask := signal_mask old |>
      <| ss_sp := ss_sp old |> <| ss_flags := ss_flags old |> <| ss_size := ss_size old |>
      <| cred := cred old |>
      <| clear_child_tid := if flags &? CLONE_CHILD_CLEARTID then ca_child_tid a
                            else clear_child_tid new |>
      <| set_child_tid := if flags &? CLONE_CHILD_SETTID then ca_child_tid a
                          else set_child_tid new |>
      <| state := READY |>.

Definition clear_sighand (acts : list KernelSigaction) : list KernelSigaction :=
  map (fun a => if negb (handler a =? SIG_DFL) && negb (handler a =? SIG_IGN)
                then a <| handler := SIG_DFL |> else a) acts.

(** The new process, before it gets a parent. [pm] is the pagemap that
    [Pagemap::fork] returned. *)
Definition clone_process (k : kernel) (old new pm flags : Z) : outcome kernel :=
  let! op := deref (processes k !! old) in
  let! (v, k) := copy_table k (items (file_descriptors op)) empty_vector in
  let! np := deref (processes k !! new) in
  let np := np <| pagemap := Some pm |> <| mmap_anon_base := mmap_anon_base op |>
      <| brk := brk op |> <| exe := exe op |> <| cwd := cwd op |>
      <| file_descriptors := v |> <| num_file_descriptors := num_file_descriptors op |>
      <| first_free_fdnum := first_free_fdnum op |>
      <| signal_actions := if flags &? CLONE_CLEAR_SIGHAND then clear_sighand (signal_actions op)
                           else signal_actions op |> in
  set_parent (put_process new np k) new old.

Definition clone_impl (k : kernel) (t : Z) (a : clone_args) (pm kernel_stack user_stack fs gs : Z)
    : outcome (Z * kernel) :=
  match clone_flags (ca_flags a) with
  | inl e => Ret (e, k)
  | inr (flags, spawn) =>
      let! old := deref (threads k !! t) in
      let! (nt, k) :=
        if spawn : bool then
          let '(id, k) := allocate_tid k in new_thread k (process old) id kernel_stack
        else
          let '(np, k) := new_process k in
          let! pr := deref (processes k !! np) in
          new_thread k np (pid pr) kernel_stack in
      let! new := deref (threads k !! nt) in
      let k := put_thread nt (clone_thread new old a flags user_stack fs gs) k in
      let! k := if spawn then Ret k else clone_process k (process old) (process new) pm flags in
      let! k := if flags &? CLONE_PARENT_SETTID
                then store_u32 k (process old) (ca_parent_tid a) (tid new) else Ret k in
      let! q := link_tail nt (sched_list k) in
      Ret (tid new, k <| sched_list := q |>)
  end.

Definition fork_args : clone_args := mkCloneArgs 0 0 0 SIGCHLD 0 0 0.
Definition vfork_args : clone_args := mkCloneArgs (CLONE_VFORK .| CLONE_VM) 0 0 SIGCHLD 0 0 0.
(** [syscall_clone]: CSIGNAL is the low byte; the stack comes without a size. *)
Definition syscall_clone_args (flags stack parent_tid child_tid tls : Z) : clone_args :=
  mkCloneArgs (flags &~ 255) child_tid parent_tid (Z.land flags 255) stack 0 tls.

(** ** Process ids, groups and sessions (userland/pid.cpp) *)

Definition current_process (k : kernel) (t : Z) : outcome Z :=
  let! th := deref (threads k !! t) in Ret (process th).

Definition leader_of (k : kernel) (p : Z) : outcome Z :=
  let! pr := deref (processes k !! p) in
  let! g := deref (group pr) in
  let! gr := deref (groups k !! g) in
  Ret (leader_process gr).

(** [Process::session_leader]. *)
Definition session_leader (k : kernel) (p : Z) : outcome Z :=
  let! pr := deref (processes k !! p) in
  let! g := deref (group pr) in
  let! gr := deref (groups k !! g) in
  let! se := deref (sessions k !! session gr) in
  let! lg := deref (groups k !! leader_group se) in
  Ret (leader_process lg).

(** The process a pid argument names: the caller's own for 0. *)
Definition named_process (k : kernel) (t p : Z) : outcome (option Z) :=
  if p =? 0 then let! c := current_process k t in Ret (Some c) else process_of_tid k p.

Definition syscall_getppid (k : kernel) (t : Z) : outcome Z :=
  let! p := current_process k t in
  let! pr := deref (processes k !! p) in
  let! pp := deref (processes k !! parent pr) in
  Ret (pid pp).

Definition syscall_getpgid (k : kernel) (t p : Z) : outcome Z :=
  let! target := named_process k t p in
  match target with
  | None => Ret (- ESRCH)
  | Some q => let! l := leader_of k q in let! lp := deref (processes k !! l) in Ret (pid lp)
  end.

Definition syscall_getsid (k : kernel) (t p : Z) : outcome Z :=
  let! target := named_process k t p in
  match target with
  | None => Ret (- ESRCH)
  | Some q => let! l := session_leader k q in let! lp := deref (processes k !! l) in Ret (pid lp)
  end.

(** The checks of [setpgid] on its target: an error or the process. *)
Definition setpgid_target (k : kernel) (t p : Z) : outcome (Z + Z) :=
  let! cur := current_process k t in
  if p =? 0 then Ret (inr cur) else
  let! target := process_of_tid k p in
  match target with
  | None => Ret (inl (- ESRCH))
  | Some q =>
      let! tp := deref (processes k !! q) in
      if decide (q <> cur /\ parent tp <> cur) then Ret (inl (- ESRCH))
      else if decide (parent tp = cur) then
        if has_performed_execve tp then Ret (inl (- EACCES)) else Ret (inr q)
      else Ret (inr q)
  end.

Definition syscall_setpgid (k : kernel) (t p pgid : Z) : outcome (Z * kernel) :=
  let! target := setpgid_target k t p in
  match target with
  | inl e => Ret (e, k)
  | inr q =>
      let! sl := session_leader k q in
      if decide (sl = q) then Ret (- EPERM, k) else
      let! tp := deref (processes k !! q) in
      let! tg := deref (group tp) in
      let! tgr := deref (groups k !! tg) in
      if negb (pgid =? 0) && negb (pgid =? pid tp) then
        if pgid <? 0 then Ret (- EINVAL, k) else
        let! other := process_of_tid k pgid in
        match other with
        | None => Ret (- EPERM, k)
        | Some o =>
            let! op := deref (processes k !! o) in
            let! g := deref (group op) in
            let! gr := deref (groups k !! g) in
            if negb (session gr =? session tgr) then Ret (- EPERM, k) else
            let! k := add_process k g q in Ret (0, k)
        end
      else if decide (leader_process tgr = q) then Ret (0, k) else
        let! (g, k) := new_group k (session tgr) q in
        let! k := add_process k g q in
        Ret (0, k)
  end.

Definition syscall_setsid (k : kernel) (t : Z) : outcome (Z * kernel) :=
  let! p := current_process k t in
  let! l := leader_of k p in
  if decide (l = p) then Ret (- EPERM, k) else
  let s := next_obj k in
  let k := k <| sessions ::= <[s := mkSession 0 []]> |> <| next_obj := s + 1 |> in
  let! (g, k) := new_group k s p in
  let! k := add_process k g p in
  let! se := deref (sessions k !! s) in
  let! pr := deref (processes k !! p) in
  Ret (pid pr, k <| sessions ::= <[s := se <| leader_group := g |>]> |>).

Definition syscall_umask (k : kernel) (t mode : Z) : outcome (Z * kernel) :=
  let! p := current_process k t in
  let! pr := deref (processes k !! p) in
  Ret (umask pr, put_process p (pr <| umask := Z.land mode 511 |>) k).

Definition syscall_set_tid_address (k : kernel) (t tidptr : Z) : outcome (Z * kernel) :=
  let! th := deref (threads k !! t) in
  Ret (tid th, put_thread t (th <| clear_child_tid := tidptr |>) k).
