(* ===== verification/ProcFacts.v ===== *)
(** * Descriptors across processes, and the words of wait

    The reference counts of FdFacts.v through fork, exec and exit; thread ids; the
    status word of [wait4]. *)

From S2P Require Import Prelude Context Vector Links Sched FdTable FdFacts Futex Process Wait.

(** ** Changes that touch no descriptor table *)

Definition same_tables (k k' : kernel) : Prop :=
  descriptions k' = descriptions k /\ closed k' = closed k /\
  file_descriptors <$> processes k' = file_descriptors <$> processes k.

#[export] Instance same_tables_preorder : PreOrder same_tables.
Proof.
  split; [done|]. intros k1 k2 k3 (? & ? & ?) (? & ? & ?). split_and!; congruence.
Qed.

Lemma refs_tables k d :
  refs k d = map_fold (fun _ v n => count d (items v) + n) 0 (file_descriptors <$> processes k).
Proof. unfold refs. by rewrite map_fold_fmap. Qed.

Lemma same_tables_step k k' : same_tables k k' -> fd_step k k'.
Proof.
  intros (Hd & Hc & Hp) Hwf. split; [|apply closes_same; [done|by rewrite Hd]].
  intros d. rewrite Hd, refs_tables, Hp, <- refs_tables. apply (Hwf d).
Qed.

Lemma same_tables_put_process k p pr pr' :
  processes k !! p = Some pr -> file_descriptors pr' = file_descriptors pr ->
  same_tables k (put_process p pr' k).
Proof.
  intros Hp Hf. split_and!; [done..|]. simpl. rewrite fmap_insert, Hf. apply insert_id.
  by rewrite lookup_fmap, Hp.
Qed.

Lemma same_tables_frame k k' :
  descriptions k' = descriptions k -> closed k' = closed k -> processes k' = processes k ->
  same_tables k k'.
Proof. intros ? ? Hp. split_and!; [done..|by rewrite Hp]. Qed.

Lemma add_process_tables k g p k' : add_process k g p = Ret k' -> same_tables k k'.
Proof.
  unfold add_process. intros H. inv_ret. match goal with H : processes k !! p = Some ?pr |- _ =>
    assert (processes a0 = processes k /\ descriptions a0 = descriptions k /\ closed a0 = closed k)
      as (Hp & Hd & Hc) end.
  { destruct (group a); [|by inv_ret]. inv_ret. done. }
  transitivity a0; [by apply same_tables_frame|].
  etrans; [|eapply same_tables_put_process]; [by apply same_tables_frame| |];
    simpl; rewrite ?Hp; done.
Qed.

Lemma unlink_sibling_tables k p o : same_tables k (unlink_sibling k p o).
Proof.
  unfold unlink_sibling. destruct (processes k !! o) eqn:E; [|done].
  by eapply same_tables_put_process.
Qed.

Lemma set_parent_tables k p np k' : set_parent k p np = Ret k' -> same_tables k k'.
Proof.
  unfold set_parent. intros H. inv_ret. etrans; [|by eapply add_process_tables].
  etrans; [|by eapply same_tables_put_process].
  etrans; [|apply unlink_sibling_tables]. by eapply same_tables_put_process.
Qed.

(** ** Copying a table: fork *)

(** The counts, with [ext d] references that are not in a table yet. *)
Definition fd_wf_ext (k : kernel) (ext : Z -> Z) : Prop := forall d,
  match descriptions k !! d with
  | Some desc => ref_count desc = refs k d + ext d /\ 0 < refs k d
  | None => refs k d = 0 /\ ext d = 0
  end.

Lemma copy_table_spec fds : forall k v v' k' ext,
  fd_wf_ext k ext -> copy_table k fds v = Ret (v', k') ->
  fd_wf_ext k' (fun d => ext d + count d fds) /\ processes k' = processes k /\
  closed k' = closed k /\ (forall d, is_Some (descriptions k' !! d) <-> is_Some (descriptions k !! d)) /\
  items v' = items v ++ map (fun f => if decide (description f = None) then no_fd else f) fds.
Proof.
  induction fds as [|f fds IH]; intros k v v' k' ext Hext H; cbn [copy_table] in H.
  { inv_ret. split_and!; try done.
    - intros d. unfold count. simpl. specialize (Hext d). rewrite Z.add_0_r. done.
    - simpl. by rewrite app_nil_r. }
  inv_ret. destruct a as [g k1]. inv_ret.
  match goal with H : push_back _ _ = Ret ?v |- _ => apply push_back_items in H as Hpb end.
  assert (fd_wf_ext k1 (fun d => ext d + delta d f) /\ processes k1 = processes k /\
    closed k1 = closed k /\ (forall d, is_Some (descriptions k1 !! d) <-> is_Some (descriptions k !! d)) /\
    g = if decide (description f = None) then no_fd else f) as (Hext1 & Hp1 & Hc1 & Hd1 & Hg).
  { destruct (decide (description f = None)) as [Hn|Hn].
    - inv_ret. split_and!; try done. intros d. unfold delta. rewrite Hn. simpl.
      specialize (Hext d). by rewrite Z.add_0_r.
    - unfold duplicate, increment_ref_count in *. inv_ret. split_and!; try done.
      + intros d. simpl. rewrite (refs_same k) by done. specialize (Hext d) as Hd.
        rewrite lookup_insert. unfold delta. case_decide; subst.
        * match goal with H : descriptions k !! d = Some _ |- _ => rewrite H in Hd end.
          rewrite decide_True by done. simpl. lia.
        * rewrite decide_False by congruence. by rewrite Z.add_0_r.
      + intros d. simpl. rewrite lookup_insert. case_decide; [|done]. subst. split; intros; by eexists. }
  match goal with H : copy_table _ _ _ = _ |- _ =>
    destruct (IH _ _ _ _ _ Hext1 H) as (Hext2 & Hp2 & Hc2 & Hd2 & Hi2) end.
  split_and!; try congruence.
  - intros d. specialize (Hext2 d). rewrite count_cons.
    replace (ext d + (delta d f + count d fds)) with (ext d + delta d f + count d fds) by lia. done.
  - intros d. by rewrite Hd2.
  - rewrite Hi2, Hpb, <- app_assoc, Hg. done.
Qed.

Lemma count_copied d fds :
  count d (map (fun f => if decide (description f = None) then no_fd else f) fds) = count d fds.
Proof.
  induction fds as [|f fds IH]; [done|]. simpl. rewrite !count_cons, IH. unfold delta.
  destruct (decide (description f = None)) as [Hn|]; [|done]. by rewrite Hn.
Qed.

Lemma clone_process_step k old new pm flags k' np :
  processes k !! new = Some np -> items (file_descriptors np) = [] ->
  clone_process k old new pm flags = Ret k' -> fd_step k k'.
Proof.
  intros Hnp Hnil H. unfold clone_process in H. inv_ret.
  match goal with a : Vector _ * kernel |- _ => destruct a as [v k1] end. inv_ret.
  match goal with H : set_parent _ _ _ = _ |- _ => apply set_parent_tables, same_tables_step in H as Hsp end.
  etrans; [|exact Hsp]. clear Hsp. intros Hwf.
  assert (fd_wf_ext k (fun _ => 0)) as Hext0.
  { intros d. specialize (Hwf d). destruct (descriptions k !! d); lia. }
  match goal with H : copy_table _ _ _ = _ |- _ =>
    destruct (copy_table_spec _ _ _ _ _ _ Hext0 H) as (Hext & Hp1 & Hc1 & Hd1 & Hi) end.
  split; [|apply closes_same; [done|exact Hd1]].
  intros d. simpl. rewrite (refs_put_process _ _ np) by (rewrite Hp1; exact Hnp).
  specialize (Hext d). unfold pcount. rewrite Hnil. simpl. rewrite Hi. simpl. rewrite count_copied.
  destruct (descriptions k1 !! d); unfold count in *; simpl in *; lia.
Qed.
