(* ===== verification/ProcProps.v ===== *)
(** * Correctness of fork, exit and wait

    Open files are counted exactly through every call that copies, redirects or
    closes descriptors; thread ids are fresh; what [wait4] stores is what the
    standard macros read back. *)

From S2P Require Import Prelude Context Vector Links Sched FdTable FdFacts FdProps SchedFacts SchedLinks SchedProps Futex Process Wait ProcFacts.

(** ** Open files *)

(** The calls that change descriptor tables, and any change that does not. *)
Inductive fd_action (k k' : kernel) : Prop :=
| act_close p fd r : syscall_close k p fd = Ret (r, k') -> fd_action k k'
| act_close_range p first last flags r :
    syscall_close_range k p first last flags = Ret (r, k') -> fd_action k k'
| act_fcntl p pr fd cmd arg r :
    processes k !! p = Some pr -> vsize (file_descriptors pr) < 2147483648 ->
    fcntl_impl k p fd cmd arg = Ret (r, k') -> fd_action k k'
| act_dup3 p oldfd newfd flags r :
    dup3_impl k p oldfd newfd flags = Ret (r, k') -> fd_action k k'
| act_exit p : close_all k p = Ret k' -> fd_action k k'
| act_exec p : close_on_exec k p = Ret k' -> fd_action k k'
| act_fork old new pm flags np :
    processes k !! new = Some np -> items (file_descriptors np) = [] ->
    clone_process k old new pm flags = Ret k' -> fd_action k k'
| act_other : same_tables k k' -> fd_action k k'.

Lemma fd_action_step k k' : fd_action k k' -> fd_step k k'.
Proof.
  intros [].
  - by eapply syscall_close_step.
  - by eapply close_range_step.
  - by eapply fcntl_step.
  - by eapply dup3_step.
  - unfold close_all in *. inv_ret. by eapply close_where_step.
  - unfold close_on_exec in *. inv_ret. by eapply close_where_step.
  - by eapply clone_process_step.
  - by apply same_tables_step.
Qed.


(** Process 2 is forked from process 1 of [fd_sample]; both exit. *)
Definition fork_sample : kernel :=
  fd_sample <| processes ::= fun m =>
    <[1 := fd_process <| group := Some 5 |>]> (<[2 := Process_init 2 30 31 32]> m) |>
  <| groups := {[5 := mkGroup 6 1 [1]]} |>.
Definition forked : kernel := ret_of fork_sample (clone_process fork_sample 1 2 77 0).
Definition both_exited : kernel :=
  ret_of forked (close_all (ret_of forked (close_all forked 1)) 2).


(** ** Status words *)

(** The macros of <sys/wait.h>. *)
Definition WTERMSIG (s : Z) : Z := Z.land s 127.
Definition WEXITSTATUS (s : Z) : Z := Z.shiftr (Z.land s 65280) 8.
Definition WSTOPSIG (s : Z) : Z := WEXITSTATUS s.
Definition WIFEXITED (s : Z) : bool := WTERMSIG s =? 0.
(** The sum is cast to a signed char. *)
Definition WIFSIGNALED (s : Z) : bool :=
  Z.shiftr ((Z.land s 127 + 1 + 128) mod 256 - 128) 1 >? 0.
Definition WIFSTOPPED (s : Z) : bool := Z.land s 255 =? 127.
Definition WIFCONTINUED (s : Z) : bool := s =? 65535.

Lemma land_ones_mod a n : 0 <= n -> Z.land a (2 ^ n - 1) = a mod 2 ^ n.
Proof. intros. rewrite <- Z.land_ones by done. by rewrite Z.ones_equiv, Z.sub_1_r. Qed.

Lemma shiftl8_lor a b : 0 <= b < 256 -> Z.lor (Z.shiftl a 8) b = a * 256 + b.
Proof.
  intros Hb. rewrite Z.shiftl_mul_pow2 by done. change (2 ^ 8) with 256.
  rewrite <- Z.add_lor_land. enough (Z.land (a * 256) b = 0) by lia.
  apply Z.bits_inj'. intros i Hi. rewrite Z.land_spec, Z.bits_0.
  destruct (Z.ltb_spec i 8).
  - change 256 with (2 ^ 8). by rewrite Z.mul_pow2_bits_low.
  - rewrite (Z.bits_above_log2 b) by (lia || (destruct (decide (b = 0)) as [->|];
      [simpl; lia|apply Z.log2_lt_pow2; [lia|]; apply Z.lt_le_trans with (2 ^ 8);
        [lia|apply Z.pow_le_mono_r; lia]])).
    apply andb_false_r.
Qed.

Lemma status_land127 a b : 0 <= b < 256 -> Z.land (a * 256 + b) 127 = b mod 128.
Proof. intros. rewrite (land_ones_mod _ 7) by done. change (2 ^ 7) with 128. lia. Qed.
Lemma status_land255 a b : 0 <= b < 256 -> Z.land (a * 256 + b) 255 = b.
Proof. intros. rewrite (land_ones_mod _ 8) by done. change (2 ^ 8) with 256. lia. Qed.
Lemma status_exit a b : 0 <= b < 256 -> WEXITSTATUS (a * 256 + b) = Z.land a 255.
Proof.
  intros Hb. unfold WEXITSTATUS. rewrite Z.shiftr_land. change (Z.shiftr 65280 8) with 255.
  rewrite Z.shiftr_div_pow2 by done. change (2 ^ 8) with 256. f_equal. lia.
Qed.

(** [wait4]'s status word decodes to the event it encodes: for a reported child,
    WIFEXITED with the low byte of the exit status, WIFSIGNALED with the signal
    that killed it, WIFSTOPPED with the signal that stopped it, or WIFCONTINUED;
    and only that one of them (a stop by signal 255 apart). *)
Theorem wait_status_roundtrip info s :
  si_pid info <> 0 -> s = wait_status_word info ->
  (si_code0 info = CLD_EXITED ->
     WIFEXITED s = true /\ WEXITSTATUS s = Z.land (si_status info) 255 /\
     WIFSIGNALED s = false /\ WIFSTOPPED s = false /\ WIFCONTINUED s = false) /\
  (si_code0 info = CLD_KILLED -> 0 < si_status info < 127 ->
     WIFSIGNALED s = true /\ WTERMSIG s = si_status info /\
     WIFEXITED s = false /\ WIFSTOPPED s = false /\ WIFCONTINUED s = false) /\
  (si_code0 info = CLD_STOPPED -> 0 < si_status info < 255 ->
     WIFSTOPPED s = true /\ WSTOPSIG s = si_status info /\
     WIFEXITED s = false /\ WIFSIGNALED s = false /\ WIFCONTINUED s = false) /\
  (si_code0 info = CLD_CONTINUED -> WIFCONTINUED s = true).
Proof.
  intros Hp ->. unfold wait_status_word. rewrite (proj2 (Z.eqb_neq _ _)) by done.
  unfold WIFEXITED, WIFSIGNALED, WIFSTOPPED, WIFCONTINUED, WTERMSIG, WSTOPSIG.
  split_and!; intros ->; cbn [Z.eqb CLD_EXITED CLD_KILLED CLD_STOPPED CLD_CONTINUED Pos.eqb].
  - rewrite shiftl8_lor by lia. rewrite status_land127, status_land255, status_exit by lia.
    split_and!; try done. apply Z.eqb_neq. lia.
  - intros Hs. change (Z.lor (Z.shiftl 0 8) (si_status info)) with (si_status info).
    rewrite <- (Z.add_0_l (si_status info)). change 0 with (0 * 256).
    rewrite status_land127, status_land255 by lia. rewrite Z.mod_small by lia.
    rewrite Z.mod_small by lia. rewrite Z.shiftr_div_pow2 by done. change (2 ^ 1) with 2.
    split_and!; try lia. 
  - intros Hs. rewrite shiftl8_lor by lia. rewrite status_land127, status_land255, status_exit by lia.
    change (127 mod 128) with 127. split_and!; try done.
    + rewrite (land_ones_mod _ 8) by done. change (2 ^ 8) with 256. lia.
    + apply Z.eqb_neq. lia.
  - done.
Qed.

Lemma wait_status_roundtrip_witness :
  WIFEXITED (wait_status_word (mkSiginfo 7 0 300 CLD_EXITED)) = true /\
  WEXITSTATUS (wait_status_word (mkSiginfo 7 0 300 CLD_EXITED)) = 44.
Proof.
  destruct (wait_status_roundtrip (mkSiginfo 7 0 300 CLD_EXITED)
    (wait_status_word (mkSiginfo 7 0 300 CLD_EXITED))) as (H & _); [discriminate|reflexivity|].
  destruct (H eq_refl) as (H1 & H2 & _). split; [exact H1|exact H2].
Defined.

(** ** Thread ids *)

Lemma find_null_spec table i j :
  find_null table i = Some j -> i <= j /\ table !! Z.to_nat (j - i) = Some None.
Proof.
  revert i. induction table as [|[x|] table IH]; intros i H; [done| |]; cbn [find_null] in H.
  - apply IH in H as [? H]. split; [lia|].
    by replace (Z.to_nat (j - i)) with (S (Z.to_nat (j - (i + 1)))) by lia.
  - simplify_eq. by rewrite Z.sub_diag.
Qed.

(** [allocate_tid] gives an id at least 2 whose slot of the thread table exists
    and is empty, and leaves every other slot as it was, so no two live threads
    share an id; the table grows by at most one slot. *)
Theorem allocate_tid_fresh k t k' :
  2 <= first_free_tid k -> length (thread_table k) <> 1%nat ->
  Z.of_nat (length (thread_table k)) < 2147483646 ->
  allocate_tid k = (t, k') ->
  2 <= t /\ thread_table k' !! Z.to_nat t = Some None /\
  (forall th, Some th ∈ thread_table k <-> Some th ∈ thread_table k') /\
  (forall i x, thread_table k !! i = Some x -> thread_table k' !! i = Some x) /\
  2 <= first_free_tid k'.
Proof.
  intros Hff H1 Hlen. unfold allocate_tid.
  set (table := match thread_table k with [] => [None; None] | l => l end).
  assert (Z.of_nat (length table) < 2147483646 /\ 2 <= Z.of_nat (length table)) as Hlt.
  { unfold table. destruct (thread_table k) as [|? [|]]; simpl in *; lia. }
  assert (forall th, Some th ∈ thread_table k <-> Some th ∈ table) as Hin.
  { unfold table. destruct (thread_table k); [|done]. intros th. split; intros H; set_solver. }
  assert (forall i x, thread_table k !! i = Some x -> table !! i = Some x) as Hkeep.
  { unfold table. by destruct (thread_table k). }
  cbn zeta. cbn [upd first_free_tid]. unfold i32.
  destruct (find_null _ _) as [i|] eqn:E; intros [= <- <-]; simpl.
  - apply find_null_spec in E as [Hi E]. rewrite lookup_drop in E.
    replace (Z.to_nat (first_free_tid k) + Z.to_nat (i - first_free_tid k))%nat
      with (Z.to_nat i) in E by lia.
    pose proof (lookup_lt_Some _ _ _ E). rewrite Z.mod_small, Z.add_simpl_r, u64_small by lia.
    split_and!; try done; lia.
  - rewrite Z.mod_small, Z.add_simpl_r, u64_small by lia. split_and!; try lia.
    + rewrite Nat2Z.id. by rewrite lookup_app_r, Nat.sub_diag by lia.
    + intros th. rewrite Hin. set_solver.
    + intros i x Hx. apply lookup_app_l_Some. auto.
Qed.

Lemma allocate_tid_fresh_witness :
  fst (allocate_tid sample) = 3 /\ thread_table (snd (allocate_tid sample)) !! 3%nat = Some None.
Proof.
  split; [vm_compute; reflexivity|].
  destruct (allocate_tid_fresh sample 3 (snd (allocate_tid sample))) as (_ & H & _);
    [vm_compute; discriminate|vm_compute; discriminate|vm_compute; reflexivity
    |vm_compute; reflexivity|exact H].
Defined.
