(* ===== verification/Signal.v ===== *)
(** * Signals: userland/signal.cpp and the signal work of the system call exit

    Delivery builds a frame on the user stack ([frames], by its address) and points
    the thread at the handler; [rt_sigreturn] and [return_from_signal] undo it. *)

From S2P Require Import Prelude Algorithm Context Cred Vector Links Sched FdTable Futex Process.

(** ** Constants *)
Definition SIGKILL : Z := 9.
Definition SIGSEGV : Z := 11.
Definition SIGSTOP : Z := 19.
Definition SA_ONSTACK : Z := 134217728.
Definition SA_RESTART : Z := 268435456.
Definition SA_NODEFER : Z := 1073741824.
Definition SA_RESETHAND : Z := 2147483648.
Definition SS_ONSTACK : Z := 1.
Definition SS_DISABLE : Z := 2.
Definition SIG_BLOCK : Z := 0.
Definition SIG_UNBLOCK : Z := 1.
Definition SIG_SETMASK : Z := 2.
Definition SEGV_MAPERR : Z := 1.
Definition SEGV_ACCERR : Z := 2.
Definition SI_TKILL : Z := - 6.
(** sizeof(SignalFrame), and where its ucontext and siginfo are. *)
Definition FRAME_SIZE : Z := 440.
Definition FRAME_UCONTEXT : Z := 8.
Definition FRAME_SIGINFO : Z := 312.

Inductive SignalDefault := IGNORE | TERMINATE | CORE | CONTINUE | STOP.
#[export] Instance SignalDefault_eq_dec : EqDecision SignalDefault.
Proof. solve_decision. Defined.

Definition signal_default_action (signal : Z) : SignalDefault :=
  let among := fun l => existsb (Z.eqb signal) l in
  if among [17; 23; 28] then IGNORE            (* CHLD URG WINCH *)
  else if signal =? 18 then CONTINUE        (* CONT *)
  else if among [19; 20; 21; 22] then STOP     (* STOP TSTP TTIN TTOU *)
  else if among [14; 1; 2; 29; 9; 13; 27; 30; 16; 15; 10; 12; 26] then TERMINATE
    (* ALRM HUP INT IO KILL PIPE PROF PWR STKFLT TERM USR1 USR2 VTALRM *)
  else CORE.

(** ** Delivery *)

(** The lowest bit set among the [n] bits from [i]. *)
Fixpoint first_signal (bits i : Z) (n : nat) : option Z :=
  match n with
  | O => None
  | S n => if Z.testbit bits i then Some (i + 1) else first_signal bits (i + 1) n
  end.

(** Where the frame goes below [rsp], and its FPU state; [xsize] is
    [cpu::extended_state_size]. *)
Definition frame_address (rsp xsize : Z) : Z :=
  u64 (klib.align_down (u64 (klib.align_down (u64 (rsp - xsize)) 64 - FRAME_SIZE)) 16 - 8).
Definition fpstate_address (frame : Z) : Z := klib.align_up (u64 (frame + FRAME_SIZE)) 64.

(** SA_RESTART of an interrupted system call. *)
Definition restart_syscall (th : Thread) (action : KernelSigaction) : Thread :=
  if (flags action &? SA_RESTART) && (last_syscall_ret th =? - EINTR)
     && (rip (gpr_state th) =? last_syscall_rip th)
  then th <| gpr_state ::= fun g => g <| rip ::= fun r => u64 (r - 2) |> <| rax := last_syscall_num th |> |>
  else th.

(** The stack the frame is built on, and the thread with SS_ONSTACK set. *)
Definition signal_stack (th : Thread) (action : KernelSigaction) : Z * Thread :=
  if (flags action &? SA_ONSTACK) && negb (ss_flags th &? SS_DISABLE) then
    (u64 (ss_sp th + ss_size th), th <| ss_flags ::= fun f => f .| SS_ONSTACK |>)
  else (u64 (rsp (gpr_state th) - 128), th).

Definition make_frame (th : Thread) (action : KernelSigaction) (pid0 signal : Z) : SignalFrame :=
  let g := gpr_state th in
  mkFrame (restorer action)
    (mkUContext (to_ucontext g (extended_state th)) (signal_mask th)) signal
    (if signal =? SIGSEGV then (if err g &? 1 then SEGV_ACCERR else SEGV_MAPERR)
     else if signal =? 33 then SI_TKILL else 0).

(** The registers the handler starts with. *)
Definition handler_regs (g : InterruptState) (action : KernelSigaction) (frame signal : Z)
    : InterruptState :=
  g <| rsp := frame |> <| rip := handler action |> <| rdi := signal |>
    <| rsi := u64 (frame + FRAME_SIGINFO) |> <| rdx := u64 (frame + FRAME_UCONTEXT) |>
    <| rax := 0 |>
    <| rflags ::= fun f => f &~ Z.shiftl 1 8 &~ Z.shiftl 1 10 &~ Z.shiftl 1 16 |>.

(** The thread entering its handler, from the registers saved in [make_frame]. *)
Definition enter_handler (th : Thread) (action : KernelSigaction) (frame signal : Z) : Thread :=
  th <| gpr_state ::= fun g => handler_regs g action frame signal |>
     <| signal_mask ::= fun m =>
          let m := m .| mask action in
          if flags action &? SA_NODEFER then m else m .| get_signal_bit signal |>.

Section deliver.
Variable xsize : Z.

(** A signal with a handler. *)
Definition deliver_signal (k : kernel) (t : Z) (th : Thread) (action : KernelSigaction) (signal : Z)
    : outcome kernel :=
  let! pr := deref (processes k !! process th) in
  let k := if flags action &? SA_RESETHAND
           then put_process (process th)
                  (pr <| signal_actions ::= <[Z.to_nat signal := action <| handler := SIG_DFL |>]> |>) k
           else k in
  (* the handler that runs is read back from the table *)
  let action' := if flags action &? SA_RESETHAND then action <| handler := SIG_DFL |> else action in
  let '(sp, th1) := signal_stack th action in
  let frame := frame_address sp xsize in
  let k := k <| frames ::= <[frame := make_frame th action (pid pr) signal]> |> in
  Ret (put_thread t (enter_handler th1 action' frame signal) k).

Definition dispatch_pending_signal (k : kernel) (t : Z) : outcome kernel :=
  let! th := deref (threads k !! t) in
  let th := th <| entering_signal := false |> <| enqueued_by_signal := -1 |> in
  let accepted := pending_signals th &~ signal_mask th in
  if accepted =? 0 then Ret (put_thread t th k) else
  match first_signal accepted 0 64 with
  | None => Panic
  | Some signal =>
      let th := th <| pending_signals ::= fun p => p &~ get_signal_bit signal |> in
      let! pr := deref (processes k !! process th) in
      let! action := deref (signal_actions pr !! Z.to_nat signal) in
      let th := restart_syscall th action in
      let k := put_thread t th k in
      if handler action =? SIG_IGN then Ret k
      else if handler action =? SIG_DFL then
        match signal_default_action signal with
        | IGNORE | CONTINUE => Ret k
        | TERMINATE | CORE => terminate_process k (process th) (process th) signal
        | STOP => dequeue_thread k t signal
        end
      else if restorer action =? 0 then terminate_process k (process th) (process th) signal
      else deliver_signal k t th action signal
  end.

End deliver.

(** ** Return *)

Definition syscall_rt_sigreturn (k : kernel) (t user_stack : Z) : outcome kernel :=
  let! th := deref (threads k !! t) in
  let! _ := assert (negb (entering_signal th)) in
  let! _ := assert (negb (exiting_signal th)) in
  Ret (put_thread t (th <| exiting_signal := true |> <| signal_frame := u64 (user_stack - 8) |>) k).

Definition return_from_signal (k : kernel) (t : Z) : outcome kernel :=
  let! th := deref (threads k !! t) in
  let! frame := deref (frames k !! signal_frame th) in
  let '(g, x) := from_ucontext (gpr_state th) (ucontext frame) in
  let th := th <| exiting_signal := false |>
               <| ss_flags ::= fun f => if f &? SS_ONSTACK then f &~ SS_ONSTACK else f |>
               <| gpr_state := g |> <| extended_state := x |>
               <| signal_mask := uc_sigmask (ucontext frame) |> <| signal_frame := 0 |> in
  let th := if has_poll_saved_signal_mask th
            then th <| signal_mask := poll_saved_signal_mask th |>
                    <| has_poll_saved_signal_mask := false |>
            else th in
  let! (k, _) := trigger (put_thread t th k) (signal_return_event th) true INT_MAX in
  Ret k.

(** ** The end of [__syscall_handler] *)
Definition syscall_return (th : Thread) (rax0 : Z) : Thread :=
  let th := if has_poll_saved_signal_mask th
            then th <| signal_mask := poll_saved_signal_mask th |>
                    <| has_poll_saved_signal_mask := false |>
            else th in
  let th := th <| last_syscall_ret := i64 rax0 |> in
  if negb (exiting_signal th) && negb (entering_signal th) && has_pending_signals th
  then th <| entering_signal := true |> else th.

(** And its beginning. *)
Definition syscall_enter (th : Thread) (st : InterruptState) : Thread :=
  th <| syscall_state := st |> <| last_syscall_num := rax st |> <| last_syscall_rip := rcx st |>.

(** ** System calls *)

(** The result, the old mask and the thread. *)
Definition syscall_rt_sigprocmask (th : Thread) (how : Z) (set : option Z) : Z * Z * Thread :=
  let old := signal_mask th in
  match set with
  | None => (0, old, th)
  | Some s =>
      if how =? SIG_BLOCK then (0, old, th <| signal_mask := old .| s |>)
      else if how =? SIG_UNBLOCK then (0, old, th <| signal_mask := old &~ s |>)
      else if how =? SIG_SETMASK then (0, old, th <| signal_mask := s |>)
      else (- EINVAL, old, th)
  end.

Definition syscall_rt_sigaction (pr : Process) (signum : Z) (act : option KernelSigaction)
    : outcome (Z * option KernelSigaction * Process) :=
  if (signum <=? 0) || (signum >=? 64) || (signum =? SIGKILL) || (signum =? SIGSTOP)
  then Ret (- EINVAL, None, pr) else
  let! old := deref (signal_actions pr !! Z.to_nat signum) in
  Ret (0, Some old,
       match act with
       | None => pr
       | Some a => pr <| signal_actions ::=
                       <[Z.to_nat signum := a <| flags := u32 (flags a) |>]> |>
       end).

Definition syscall_sigaltstack (th : Thread) (new : option (Z * Z * Z)) : Z * Thread :=
  match new with
  | None => (0, th)
  | Some (sp, fl, size) =>
      if fl &? Z.shiftl 1 31 then (- EINVAL, th)
      else if fl =? SS_DISABLE then
        (0, th <| ss_sp := 0 |> <| ss_flags := SS_DISABLE |> <| ss_size := 0 |>)
      else if fl =? 0 then (0, th <| ss_sp := sp |> <| ss_flags := fl |> <| ss_size := size |>)
      else (- EINVAL, th)
  end.

Definition syscall_kill (k : kernel) (t pid0 signal : Z) : outcome (Z * kernel) :=
  if (signal <? 0) || (signal >=? 64) then Ret (- EINVAL, k) else
  let! cur := deref (threads k !! t) in
  let to_group := pid0 <=? 0 in
  let! target :=
    if pid0 <? 0 then Ret (- pid0)
    else if pid0 =? 0 then
      let! pr := deref (processes k !! process cur) in
      let! g := deref (group pr) in
      let! gr := deref (groups k !! g) in
      let! lp := deref (processes k !! leader_process gr) in
      Ret (pid lp)
    else Ret pid0 in
  match get_from_tid k target with
  | None => Ret (- ESRCH, k)
  | Some tt0 =>
      let! th := deref (threads k !! tt0) in
      if decide (state th = ZOMBIE) then Ret (- ESRCH, k) else
      let! pr := deref (processes k !! process th) in
      if to_group then
        let! g := deref (group pr) in
        let! gr := deref (groups k !! g) in
        if decide (leader_process gr <> process th) then Ret (- ESRCH, k)
        else if signal =? 0 then Ret (0, k)
        else let! k := group_send_signal k g signal in Ret (0, k)
      else if signal =? 0 then Ret (0, k)
      else let! k := send_signal k tt0 signal in Ret (0, k)
  end.

Definition syscall_tgkill (k : kernel) (pid0 tid0 signal : Z) : outcome (Z * kernel) :=
  if (signal <? 0) || (signal >=? 64) then Ret (- EINVAL, k) else
  match get_from_tid k tid0 with
  | None => Ret (- ESRCH, k)
  | Some tt0 =>
      let! th := deref (threads k !! tt0) in
      if decide (state th = ZOMBIE) then Ret (- ESRCH, k) else
      let! pr := deref (processes k !! process th) in
      if negb (pid pr =? pid0) then Ret (- ESRCH, k)
      else if signal =? 0 then Ret (0, k)
      else let! k := send_signal k tt0 signal in Ret (0, k)
  end.

(** [pause]: the wait it makes, then -EINTR whatever the wait returned. *)
Definition syscall_pause_begin (k : kernel) (t : Z) : outcome (Z * kernel + kernel) :=
  let! th := deref (threads k !! t) in
  let! r := wait_begin k t [Some (signal_return_event th)] false in
  Ret (match r with inl (_, k) => inl (- EINTR, k) | inr k => inr k end).
