(* ===== verification/Isr.v ===== *)
(** * The scheduler interrupt: sched::scheduler_isr (sched/sched.cpp)

    A processor keeps the registers of the thread it runs; the interrupt saves
    them, picks the next thread of the run queue, does its signal work and loads
    its registers. An empty [extended_state] is the null pointer of a kernel
    thread. *)

From S2P Require Import Prelude Context Cred Vector Links Sched Futex Process Signal.

(** ** The processor *)

(** [cpu::CPU] with the registers the interrupt reads and writes: the interrupt
    frame, the FPU state, the kernel GS and FS bases and the active pagemap. *)
Record CPU := mkCPU {
  running_thread : option Z;
  user_stack : Z;
  kernel_stack : Z;
  frame_regs : InterruptState;
  fpu : list Z;
  kernel_gs_base : Z;
  fs_register : Z;
  active_pagemap : Z;
  self : Z
}.
#[export] Instance eta_CPU : Settable CPU := fun c =>
  mkCPU (running_thread c) (user_stack c) (kernel_stack c) (frame_regs c) (fpu c)
    (kernel_gs_base c) (fs_register c) (active_pagemap c) (self c).

(** The pagemap of the kernel. *)
Definition kernel_pagemap : Z := 0.

Definition user_mode (g : InterruptState) : bool := Z.land (cs g) 3 =? 3.

(** ** The parts of the interrupt *)

(** Saving the interrupted state into the current thread. *)
Definition isr_save (c : CPU) (k : kernel) (t : Z) : outcome kernel :=
  let! th := deref (threads k !! t) in
  Ret (put_thread t
    (th <| yield_await := false |>
        <| gpr_state := frame_regs c |>
        <| extended_state := match extended_state th with [] => [] | _ => fpu c end |>
        <| gs_base := kernel_gs_base c |>
        <| fs_base := fs_register c |>
        <| saved_user_stack := user_stack c |>
        <| saved_kernel_stack := kernel_stack c |>
        <| state := if decide (state th = RUNNING) then READY else state th |>) k).

(** The element after [t], if [t] is linked and not the last. *)
Fixpoint after (t : Z) (l : list Z) : option Z :=
  match l with
  | [] => None
  | x :: l => if x =? t then head l else after t l
  end.

Definition pick_next (k : kernel) (current : option Z) : Z :=
  match (t ← current; after t (sched_list k)) with
  | Some u => u
  | None => match sched_list k with u :: _ => u | [] => idle_thread k end
  end.

(** Everything the processor loads before the signal work. *)
Definition isr_switch (c : CPU) (k : kernel) (t : Z) : outcome CPU :=
  let! th := deref (threads k !! t) in
  let! _ := assert (bool_decide (state th <> BLOCKED /\ state th <> ZOMBIE)) in
  let! pr := deref (processes k !! process th) in
  let! pm := deref (pagemap pr) in
  Ret (c <| user_stack := saved_user_stack th |> <| kernel_stack := saved_kernel_stack th |>
         <| kernel_gs_base := if user_mode (gpr_state th) then gs_base th else self c |>
         <| running_thread := Some t |> <| fs_register := fs_base th |>
         <| active_pagemap := if pm =? kernel_pagemap then active_pagemap c else pm |>).

(** A stopped thread that was queued by SIGCONT. *)
Definition isr_continue (k : kernel) (t : Z) : outcome kernel :=
  let! th := deref (threads k !! t) in
  if decide (enqueued_by_signal th = SIGCONT /\ state th = STOPPED) then
    let k := put_thread t (th <| state := READY |>) k in
    let! pr := deref (processes k !! process th) in
    let pr := pr <| wait_status := SIGCONT |> <| wait_code := CLD_CONTINUED |> in
    trigger_all (put_process (process th) pr k) (continued_event pr)
  else Ret k.

Definition isr_signals (xsize : Z) (k : kernel) (t : Z) : outcome kernel :=
  let! th := deref (threads k !! t) in
  if user_mode (gpr_state th) then
    if entering_signal th then dispatch_pending_signal xsize k t
    else if exiting_signal th then return_from_signal k t
    else Ret k
  else Ret k.

Definition isr_set_child_tid (k : kernel) (t : Z) : outcome kernel :=
  let! th := deref (threads k !! t) in
  if set_child_tid th =? 0 then Ret k else
  let! k := store_u32 k (process th) (set_child_tid th) (tid th) in
  Ret (put_thread t (th <| set_child_tid := 0 |>) k).

(** Loading the thread's registers. *)
Definition isr_load (c : CPU) (th : Thread) : CPU :=
  c <| frame_regs := gpr_state th |>
    <| fpu := match extended_state th with [] => fpu c | x => x end |>.

(** The interrupt. [fuel] bounds the [goto retry]s: each leaves a thread that was
    in the queue stopped or dead. *)
Fixpoint scheduler_isr (fuel : nat) (xsize : Z) (c : CPU) (k : kernel) (current : option Z)
    : outcome (CPU * kernel) :=
  match fuel with
  | O => Undef
  | S fuel =>
      let! k := match current with Some t => isr_save c k t | None => Ret k end in
      let t := pick_next k current in
      let! c := isr_switch c k t in
      let! k := isr_continue k t in
      let! k := isr_signals xsize k t in
      let! k := isr_set_child_tid k t in
      let! th := deref (threads k !! t) in
      if decide (state th = ZOMBIE \/ state th = STOPPED)
      then scheduler_isr fuel xsize c k (Some t)
      else
        let th := th <| state := RUNNING |> in
        Ret (isr_load c th, put_thread t th k)
  end.

Definition timer_interrupt (xsize : Z) (c : CPU) (k : kernel) : outcome (CPU * kernel) :=
  scheduler_isr (S (length (sched_list k))) xsize c k (running_thread c).
