(* ===== verification/IsrProps.v ===== *)
(** * Correctness of the scheduler interrupt

    With no signal work to do, the interrupt switches to the next thread of the run
    queue, in turn; a thread resumes with the processor state it was interrupted
    in. Signals that stop the thread just chosen break the second: see the end. *)

From S2P Require Import Prelude Context Cred Vector Links Sched SchedFacts SchedLinks SchedProps Futex Process Signal Isr.

(** ** One interrupt with no signal work *)

(** Nothing but the switch itself happens to the thread. *)
Definition quiet (k : kernel) (th : Thread) : Prop :=
  runnable th /\ entering_signal th = false /\ exiting_signal th = false /\ set_child_tid th = 0 /\
  exists pr pm, processes k !! process th = Some pr /\ pagemap pr = Some pm.

(** The thread as [isr_save] leaves it. *)
Definition saved (c : CPU) (th : Thread) : Thread :=
  th <| yield_await := false |> <| gpr_state := frame_regs c |>
     <| extended_state := match extended_state th with [] => [] | _ => fpu c end |>
     <| gs_base := kernel_gs_base c |> <| fs_base := fs_register c |>
     <| saved_user_stack := user_stack c |> <| saved_kernel_stack := kernel_stack c |>
     <| state := if decide (state th = RUNNING) then READY else state th |>.

(** The processor running a thread resumed from [th]. *)
Definition resumed (c : CPU) (u : Z) (th : Thread) (c' : CPU) : Prop :=
  running_thread c' = Some u /\ frame_regs c' = gpr_state th /\ fs_register c' = fs_base th /\
  user_stack c' = saved_user_stack th /\ kernel_stack c' = saved_kernel_stack th /\
  (extended_state th <> [] -> fpu c' = extended_state th) /\
  kernel_gs_base c' = (if user_mode (gpr_state th) then gs_base th else self c) /\
  self c' = self c.

Lemma saved_quiet k c th : quiet k th -> quiet k (saved c th).
Proof.
  intros (Hr & ? & ? & ? & ?). split_and!; try done.
  unfold runnable in *. simpl. case_decide; [by left|]. destruct Hr as [->|?]; [by left|done].
Qed.

Lemma isr_quiet fuel xsize c k t th u uh :
  threads k !! t = Some th -> pick_next k (Some t) = u ->
  threads (put_thread t (saved c th) k) !! u = Some uh -> quiet k uh ->
  exists c', scheduler_isr (S fuel) xsize c k (Some t) =
      Ret (c', put_thread u (uh <| state := RUNNING |>) (put_thread t (saved c th) k)) /\
    resumed c u uh c'.
Proof.
  intros Hth Hu Huh (Hr & Hen & Hex & Hct & pr & pm & Hpr & Hpm). cbn [scheduler_isr].
  unfold isr_save. rewrite Hth. cbn [deref obind].
  change (th <| yield_await := false |> <| gpr_state := _ |> <| extended_state := _ |>
    <| gs_base := _ |> <| fs_base := _ |> <| saved_user_stack := _ |> <| saved_kernel_stack := _ |>
    <| state := _ |>) with (saved c th).
  set (k0 := put_thread t (saved c th) k) in *.
  change (pick_next k0 (Some t)) with (pick_next k (Some t)). rewrite Hu.
  unfold isr_switch. rewrite Huh. cbn [deref obind].
  assert (state uh <> BLOCKED /\ state uh <> ZOMBIE /\ state uh <> STOPPED) as (? & ? & ?)
    by (destruct Hr as [-> | ->]; done).
  rewrite bool_decide_true by done. cbn [assert obind].
  change (processes k0) with (processes k). rewrite Hpr. cbn [deref obind]. rewrite Hpm. cbn [deref obind].
  unfold isr_continue. rewrite Huh. cbn [deref obind]. rewrite decide_False by tauto. cbn [obind].
  unfold isr_signals. rewrite Huh. cbn [deref obind]. rewrite Hen, Hex.
  assert ((if user_mode (gpr_state uh) then Ret k0 else Ret k0) = Ret k0) as -> by by case_match.
  cbn [obind]. unfold isr_set_child_tid. rewrite Huh. cbn [deref obind]. rewrite Hct. cbn [Z.eqb obind].
  rewrite Huh. cbn [deref obind]. rewrite decide_False by tauto.
  eexists. split; [reflexivity|]. unfold resumed, isr_load. simpl.
  split_and!; try done. intros Hne. by destruct (extended_state uh).
Qed.

(** C2. A context switch is transparent: a thread interrupted while it runs and
    later chosen again, not having been changed in between and with no signal to
    handle, resumes with the general registers, FPU state, FS base, stacks and,
    in user mode, GS base that the processor had when it was interrupted. *)
Theorem context_switch_transparent xsize c k t th u uh c2 k2 v vh th2 :
  (* the interrupt that takes the processor from t *)
  threads k !! t = Some th -> state th = RUNNING ->
  pick_next k (Some t) = u -> t <> u -> threads k !! u = Some uh -> quiet k uh ->
  (exists c1 k1, timer_interrupt xsize (c <| running_thread := Some t |>) k = Ret (c1, k1) /\
     threads k2 !! t = threads k1 !! t) ->
  (* the one that gives it back, from v *)
  running_thread c2 = Some v -> v <> t -> threads k2 !! v = Some vh -> pick_next k2 (Some v) = t ->
  threads k2 !! t = Some th2 -> quiet k2 th2 ->
  exists c3 k3, timer_interrupt xsize c2 k2 = Ret (c3, k3) /\ running_thread c3 = Some t /\
    frame_regs c3 = frame_regs c /\ fs_register c3 = fs_register c /\
    user_stack c3 = user_stack c /\ kernel_stack c3 = kernel_stack c /\
    (extended_state th <> [] -> fpu c <> [] -> fpu c3 = fpu c) /\
    (user_mode (frame_regs c) = true -> kernel_gs_base c3 = kernel_gs_base c) /\
    (state <$> threads k3 !! t) = Some RUNNING.
Proof.
  intros Hth Hrun Hu Htu Huh Hquh (c1 & k1 & H1 & Hsame) Hv Hvt Hvh Hpick Hth2 Hq2.
  set (c0 := c <| running_thread := Some t |>) in *.
  assert (threads k1 !! t = Some (saved c0 th)) as Hk1.
  { unfold timer_interrupt in H1. change (running_thread c0) with (Some t) in H1.
    destruct (isr_quiet (length (sched_list k)) xsize c0 k t th u uh Hth Hu) as (c' & Hi & _); [|done|].
    { simpl. by rewrite lookup_insert_ne. }
    rewrite Hi in H1. injection H1 as <- <-. simpl.
    rewrite lookup_insert_ne by done. apply lookup_insert_eq. }
  assert (th2 = saved c0 th) as -> by congruence.
  unfold timer_interrupt. rewrite Hv.
  destruct (isr_quiet (length (sched_list k2)) xsize c2 k2 v vh t (saved c0 th) Hvh Hpick)
    as (c3 & Hi & Hr); [simpl; by rewrite lookup_insert_ne|done|].
  destruct Hr as (Hr1 & Hr2 & Hr3 & Hr4 & Hr5 & Hr6 & Hr7 & _).
  eexists c3, _. split; [exact Hi|]. split_and!; try done.
  - intros Hne Hfpu. rewrite Hr6; simpl; by destruct (extended_state th).
  - intros Hum. rewrite Hr7. simpl. by rewrite Hum.
  - simpl. by rewrite lookup_insert_eq.
Qed.

(** ** Round robin *)

Lemma after_spec t l i : NoDup l -> l !! i = Some t -> after t l = l !! S i.
Proof.
  revert i. induction l as [|x l IH]; intros i Hnd Hi; [done|].
  apply NoDup_cons in Hnd as [Hx Hl]. cbn [after].
  destruct i as [|i]; simpl in Hi.
  - injection Hi as ->. rewrite Z.eqb_refl. by destruct l.
  - destruct (Z.eqb_spec x t) as [->|]; [|by apply IH].
    exfalso. apply Hx. by eapply list_elem_of_lookup_2.
Qed.

Lemma pick_next_spec k t i :
  NoDup (sched_list k) -> sched_list k !! i = Some t ->
  sched_list k !! (S i mod length (sched_list k))%nat = Some (pick_next k (Some t)).
Proof.
  intros Hnd Hi. unfold pick_next. simpl. rewrite (after_spec _ _ _ Hnd Hi).
  pose proof (lookup_lt_Some _ _ _ Hi).
  destruct (decide (S i = length (sched_list k))) as [Heq|Hne].
  - rewrite Heq, Nat.Div0.mod_same. rewrite (lookup_ge_None_2 _ (length _)) by lia.
    by destruct (sched_list k).
  - rewrite Nat.mod_small by lia.
    destruct (lookup_lt_is_Some_2 (sched_list k) (S i)) as [u Hu]; [lia|]. by rewrite Hu.
Qed.

(** Time slices: before each interrupt the running program has left some registers
    and FPU state. The result lists who runs after each. *)
Fixpoint run_slices (xsize : Z) (c : CPU) (k : kernel) (slices : list (InterruptState * list Z))
    : outcome (list (option Z) * CPU * kernel) :=
  match slices with
  | [] => Ret ([], c, k)
  | (g, x) :: slices =>
      let! (c, k) := timer_interrupt xsize (c <| frame_regs := g |> <| fpu := x |>) k in
      let! (rs, c', k') := run_slices xsize c k slices in
      Ret (running_thread c :: rs, c', k')
  end.

(** Every thread of the queue can run. *)
Definition all_quiet (k : kernel) : Prop :=
  forall t, t ∈ sched_list k -> exists th, threads k !! t = Some th /\ quiet k th.

Lemma all_quiet_put k t th :
  all_quiet k -> quiet k th -> all_quiet (put_thread t th k).
Proof.
  intros Ha Hq t' Hin. destruct (Ha t' Hin) as (th' & Hth' & Hq'). simpl.
  rewrite lookup_insert. case_decide; subst; eauto.
Qed.

(** C9. The scheduler is round robin: while no thread of the run queue has signal
    work, is blocked or dies, each timer interrupt is defined and gives the
    processor to the next thread of the queue, cyclically, whatever the programs
    do with their registers; so every thread runs once in as many interrupts as
    there are threads. *)
Theorem round_robin xsize c k slices i t :
  NoDup (sched_list k) -> all_quiet k ->
  sched_list k !! i = Some t -> running_thread c = Some t ->
  exists rs c' k', run_slices xsize c k slices = Ret (rs, c', k') /\
    sched_list k' = sched_list k /\ length rs = length slices /\
    forall n, (n < length slices)%nat ->
      rs !! n = Some (sched_list k !! ((i + S n) mod length (sched_list k))%nat).
Proof.
  revert c k i t. induction slices as [|[g x] slices IH]; intros c k i t Hnd Ha Hi Hr.
  { exists [], c, k. split_and!; try done. intros n Hn. simpl in Hn. lia. }
  cbn [run_slices]. set (c0 := c <| frame_regs := g |> <| fpu := x |>).
  destruct (Ha t) as (th & Hth & Hq); [by eapply list_elem_of_lookup_2|].
  pose proof (pick_next_spec k t i Hnd Hi) as Hpick. set (u := pick_next k (Some t)) in *.
  set (i' := (S i mod length (sched_list k))%nat) in *.
  assert (all_quiet (put_thread t (saved c0 th) k)) as Ha0 by (apply all_quiet_put; [done|by apply saved_quiet]).
  destruct (Ha0 u) as (uh & Huh & Hquh); [by eapply list_elem_of_lookup_2|].
  destruct (isr_quiet (length (sched_list k)) xsize c0 k t th u uh Hth eq_refl Huh Hquh)
    as (c1 & H1 & Hres).
  unfold timer_interrupt. change (running_thread c0) with (running_thread c). rewrite Hr, H1. cbn [obind].
  destruct (IH c1 (put_thread u (uh <| state := RUNNING |>) (put_thread t (saved c0 th) k)) i' u)
    as (rs & c' & k' & Hrun & Hs & Hl & Hrs);
    [done| |done|apply Hres|].
  { apply all_quiet_put; [done|]. destruct Hquh as (_ & ? & ? & ? & ?). split_and!; try done. by right. }
  rewrite Hrun. cbn [obind]. eexists _, _, _. split; [reflexivity|]. split; [done|].
  split; [simpl; by rewrite Hl|]. pose proof (lookup_lt_Some _ _ _ Hi).
  intros [|n] Hn; simpl.
  - replace (i + 1)%nat with (S i) by lia. fold i'. rewrite Hpick. by rewrite (proj1 Hres).
  - rewrite Hrs by (simpl in Hn; lia). simpl. do 2 f_equal. unfold i'.
    rewrite Nat.Div0.add_mod_idemp_l. f_equal. lia.
Qed.

(** ** Concrete runs *)

(** The threads of [sample] with pagemaps, thread 1 running on the processor. *)
Definition isr_sample : kernel :=
  sample <| processes ::= fmap (fun pr => pr <| pagemap := Some (pid pr) |>) |>
         <| threads ::= fmap (fun th => th <| gpr_state := zero_regs <| cs := USER_CS |> <| rbx := tid th |> |>
                                           <| extended_state := [tid th] |>) |>.
Definition isr_cpu : CPU :=
  mkCPU (Some 1) 11 12 (zero_regs <| cs := USER_CS |> <| rbx := 77 |>) [5; 6] 13 14 1 99.

Lemma isr_sample_quiet : all_quiet isr_sample.
Proof.
  intros t Hin. unfold quiet, runnable.
  apply elem_of_cons in Hin as [->|Hin]; [|apply elem_of_cons in Hin as [->|Hin]; [|by apply elem_of_nil in Hin]].
  - eexists. split; [vm_compute; reflexivity|]. split_and!; [by right|reflexivity|reflexivity|reflexivity|].
    eexists _, _. split; vm_compute; reflexivity.
  - eexists. split; [vm_compute; reflexivity|]. split_and!; [by left|reflexivity|reflexivity|reflexivity|].
    eexists _, _. split; vm_compute; reflexivity.
Qed.

Lemma round_robin_witness :
  exists rs c' k', run_slices 64 isr_cpu isr_sample
      [(zero_regs, [1]); (zero_regs, [2]); (zero_regs, [3])] = Ret (rs, c', k') /\
    rs = [Some 2; Some 1; Some 2].
Proof.
  destruct (round_robin 64 isr_cpu isr_sample [(zero_regs, [1]); (zero_regs, [2]); (zero_regs, [3])] 0 1)
    as (rs & c' & k' & Hr & _ & Hl & Hrs).
  - vm_compute. repeat constructor; set_solver.
  - apply isr_sample_quiet.
  - reflexivity.
  - reflexivity.
  - exists rs, c', k'. split; [exact Hr|].
    pose proof (Hrs 0%nat ltac:(simpl; lia)) as H0. pose proof (Hrs 1%nat ltac:(simpl; lia)) as H1.
    pose proof (Hrs 2%nat ltac:(simpl; lia)) as H2.
    destruct rs as [|a [|b [|d [|]]]]; simpl in Hl; try lia.
    vm_compute in H0, H1, H2. congruence.
Defined.

(** After one interrupt thread 2 runs; it leaves other registers, and is interrupted. *)
Definition switched : CPU * kernel := ret_of (isr_cpu, isr_sample) (timer_interrupt 64 isr_cpu isr_sample).
Definition second_cpu : CPU :=
  fst switched <| frame_regs := zero_regs <| cs := USER_CS |> <| rbx := 1234 |> |> <| fpu := [8] |>.

Lemma context_switch_transparent_witness :
  exists c3 k3, timer_interrupt 64 second_cpu (snd switched) = Ret (c3, k3) /\
    running_thread c3 = Some 1 /\ rbx (frame_regs c3) = 77 /\ fpu c3 = [5; 6] /\
    kernel_gs_base c3 = 13.
Proof.
  destruct (context_switch_transparent 64 isr_cpu isr_sample 1
    (ret_of (Thread_init 0 0 0 0 0) (deref (threads isr_sample !! 1))) 2
    (ret_of (Thread_init 0 0 0 0 0) (deref (threads isr_sample !! 2)))
    second_cpu (snd switched) 2
    (ret_of (Thread_init 0 0 0 0 0) (deref (threads (snd switched) !! 2)))
    (ret_of (Thread_init 0 0 0 0 0) (deref (threads (snd switched) !! 1))))
    as (c3 & k3 & H1 & H2 & H3 & _ & _ & _ & H4 & H5 & _).
  - vm_compute. reflexivity.
  - vm_compute. reflexivity.
  - vm_compute. reflexivity.
  - discriminate.
  - vm_compute. reflexivity.
  - split_and!; [left; vm_compute; reflexivity|vm_compute; reflexivity|vm_compute; reflexivity|
      vm_compute; reflexivity|]. eexists _, _. split; vm_compute; reflexivity.
  - exists (fst switched), (snd switched). split; [vm_compute; reflexivity|reflexivity].
  - vm_compute. reflexivity.
  - discriminate.
  - vm_compute. reflexivity.
  - vm_compute. reflexivity.
  - vm_compute. reflexivity.
  - split_and!; [left; vm_compute; reflexivity|vm_compute; reflexivity|vm_compute; reflexivity|
      vm_compute; reflexivity|]. eexists _, _. split; vm_compute; reflexivity.
  - exists c3, k3. split; [exact H1|]. split; [exact H2|]. split; [rewrite H3; reflexivity|].
    split.
    + rewrite H4; [reflexivity|vm_compute; discriminate|vm_compute; discriminate].
    + rewrite H5; reflexivity.
Defined.

(** Thread 2 has a SIGSTOP to handle. *)
Definition stop_sample : kernel :=
  isr_sample <| threads ::= alter (fun th => th <| pending_signals := get_signal_bit SIGSTOP |>
                                                <| entering_signal := true |>) 2 |>.

(** Stopping a thread corrupts it: when the interrupt of thread 1 picks thread 2
    and its pending SIGSTOP stops it, the second turn of the loop saves the
    registers of thread 1 into thread 2, whose own are lost. *)
Theorem stop_overwrites_registers :
  exists c k, timer_interrupt 64 isr_cpu stop_sample = Ret (c, k) /\
    (rbx <$> (gpr_state <$> threads stop_sample !! 2)) = Some 2 /\
    running_thread c = Some 1 /\
    (state <$> threads k !! 2) = Some STOPPED /\
    (rbx <$> (gpr_state <$> threads k !! 2)) = Some 77 /\
    (extended_state <$> threads k !! 2) = Some [5; 6].
Proof. eexists _, _. split; [vm_compute; reflexivity|]. vm_compute. done. Qed.
