(* ===== verification/Pmm.v ===== *)
(** * Physical pages: mem/pmm.hpp and mem/pmm.cpp

    [pmm.t] is the allocator's state: the page structures, named by their page
    frame number, the free list, the regions the page structures of which are
    kept in their first pages, and the counters. [pmm.wf] is the invariant:
    the free list holds each free page exactly once, and the regions lie apart. *)

From S2P Require Import Prelude Algorithm.

Module pmm.

Record Page := mkPage { free : bool; mapped_addr : Z }.
#[global] Instance Page_settable : Settable Page := fun p => mkPage (free p) (mapped_addr p).

Record Region := mkRegion { base_phy : Z; num_pages : Z }.

Definition sizeof_Page : Z := 32.
Definition sizeof_Region : Z := 32.

Definition end_phy (r : Region) : Z := u64 (base_phy r + num_pages r * PAGE_SIZE).
Definition num_pages_reserved (r : Region) : Z :=
  u64 (sizeof_Region + num_pages r * sizeof_Page + PAGE_SIZE - 1) / PAGE_SIZE.
Definition num_pages_usable (r : Region) : Z := u64 (num_pages r - num_pages_reserved r).
(** Element [i] of the array: the page frame number of the structure there. *)
Definition pages_array (r : Region) (i : Z) : option Z :=
  if (0 <=? i) && (i <? num_pages_usable r)
  then Some (base_phy r / PAGE_SIZE + num_pages_reserved r + i) else None.

Record Stats := mkStats {
  total_pages_usable : Z; total_pages_reserved : Z; total_free_pages : Z }.
#[global] Instance Stats_settable : Settable Stats :=
  fun s => mkStats (total_pages_usable s) (total_pages_reserved s) (total_free_pages s).

Record t := mk {
  pages : gmap Z Page;
  page_freelist : list Z;
  region_list : list Region;
  stats : Stats }.
#[global] Instance t_settable : Settable t :=
  fun s => mk (pages s) (page_freelist s) (region_list s) (stats s).

Definition phy (pfn : Z) : Z := u64 (pfn * PAGE_SIZE).

(** ** Boot *)

(** The page structures of an entry, [garbage] being what the memory held. *)
Fixpoint absorb_pages (n : nat) (garbage : Z -> Z) (pfn ptr : Z) (s : t) : outcome t :=
  match n with
  | O => Ret s
  | S n =>
      let! _ := assert (ptr mod 32 =? 0) in
      absorb_pages n garbage (u64 (pfn + 1)) (u64 (ptr + sizeof_Page))
        (s <| pages ::= <[pfn := mkPage true (garbage pfn)]> |>
           <| page_freelist ::= fun l => l ++ [pfn] |>
           <| stats ::= fun st => st <| total_free_pages ::= fun n => u64 (n + 1) |> |>)
  end.

Definition absorb_memmap_entry (hhdm : Z) (garbage : Z -> Z) (base length : Z) (s : t) : outcome t :=
  let pfn_start := base / PAGE_SIZE in
  let pfn_end := base / PAGE_SIZE + length / PAGE_SIZE in
  let pfn_start := if negb (base mod PAGE_SIZE =? 0) then pfn_start + 1 else pfn_start in
  let pfn_end := if negb (length mod PAGE_SIZE =? 0) then u64 (pfn_end - 1) else pfn_end in
  let num_pages := u64 (pfn_end - pfn_start) in
  let ptr := u64 (pfn_start * PAGE_SIZE + hhdm) in
  let region := mkRegion (u64 (ptr - hhdm)) num_pages in
  let s := s <| region_list ::= fun l => l ++ [region] |>
             <| stats ::= fun st => st <| total_pages_reserved ::=
                  fun n => u64 (n + num_pages_reserved region) |> |> in
  absorb_pages (Z.to_nat (num_pages_usable region)) garbage
    (u64 (pfn_start + num_pages_reserved region)) (u64 (ptr + sizeof_Region)) s.

(** ** Lookup *)

Fixpoint find_page_in (rs : list Region) (phy : Z) : outcome (option Z) :=
  match rs with
  | [] => Ret None
  | r :: rs =>
      if (phy <? base_phy r) || (phy >? end_phy r) then find_page_in rs phy else
      let offset_pages := u64 (phy - base_phy r) / PAGE_SIZE in
      if offset_pages <? num_pages_reserved r then Ret None else
      let! page := deref (pages_array r (u64 (offset_pages - num_pages_reserved r))) in
      let! _ := assert (pmm.phy page =? phy) in
      Ret (Some page)
  end.

Definition find_page (s : t) (phy : Z) : outcome (option Z) := find_page_in (region_list s) phy.

(** ** One page *)

Definition count_free (d : Z) (s : t) : t :=
  s <| stats ::= fun st => st <| total_free_pages ::= fun n => u64 (n + d) |> |>.

Definition alloc_page (s : t) : outcome (Z * t) :=
  match page_freelist s with
  | [] => Panic
  | page :: l =>
      let! pg := deref (pages s !! page) in
      let! _ := assert (free pg) in
      Ret (page, count_free (-1)
        (s <| pages ::= <[page := pg <| free := false |>]> |> <| page_freelist := l |>))
  end.

Definition free_page (s : t) (page : Z) : outcome t :=
  let! pg := deref (pages s !! page) in
  let! _ := assert (negb (free pg)) in
  Ret (count_free 1
    (s <| pages ::= <[page := pg <| free := true |> <| mapped_addr := 0 |>]> |>
       <| page_freelist ::= cons page |>)).

(** ** Runs of pages *)

(** The first of the pages [i + j], ..., [i + j + n - 1] that is not free. *)
Fixpoint first_used (s : t) (r : Region) (i j : Z) (n : nat) : outcome (option Z) :=
  match n with
  | O => Ret None
  | S n =>
      let! page := deref (pages_array r (u64 (i + j))) in
      let! pg := deref (pages s !! page) in
      if free pg then first_used s r i (j + 1) n else Ret (Some j)
  end.

(** The search of one region from [i], [fuel] turns at most. *)
Fixpoint search_region (fuel : nat) (s : t) (r : Region) (i num_pages : Z) : outcome (option Z) :=
  match fuel with
  | O => Undef
  | S fuel =>
      if i <=? u64 (num_pages_usable r - num_pages) then
        let! used := first_used s r i 0 (Z.to_nat num_pages) in
        match used with
        | Some j => search_region fuel s r (u64 (u64 (i + j) + 1)) num_pages
        | None => Ret (Some i)
        end
      else Ret None
  end.

(** [pages[i + j].link.remove()]: the page must be linked. *)
Definition unlink_page (page : Z) (l : list Z) : outcome (list Z) :=
  if decide (page ∈ l) then Ret (remove Z.eq_dec page l) else Undef.

Fixpoint take_pages (s : t) (r : Region) (i : Z) (n : nat) : outcome t :=
  match n with
  | O => Ret s
  | S n =>
      let! page := deref (pages_array r i) in
      let! pg := deref (pages s !! page) in
      let! l := unlink_page page (page_freelist s) in
      take_pages (count_free (-1) (s <| pages ::= <[page := pg <| free := false |>]> |>
                                     <| page_freelist := l |>)) r (u64 (i + 1)) n
  end.

Fixpoint alloc_from (s : t) (rs : list Region) (num_pages : Z) : outcome (Z * t) :=
  match rs with
  | [] => Ret (0, s)
  | r :: rs =>
      let! found := search_region (S (Z.to_nat (num_pages_usable r))) s r 0 num_pages in
      match found with
      | Some i =>
          let! s := take_pages s r i (Z.to_nat num_pages) in
          let! page := deref (pages_array r i) in
          Ret (phy page, s)
      | None => alloc_from s rs num_pages
      end
  end.

Definition alloc_contiguous_pages (s : t) (num_pages : Z) : outcome (Z * t) :=
  alloc_from s (region_list s) num_pages.

Fixpoint free_pages (s : t) (base : Z) (i : Z) (n : nat) : outcome t :=
  match n with
  | O => Ret s
  | S n =>
      let! page := find_page s (u64 (base + i * PAGE_SIZE)) in
      let! s := match page with Some page => free_page s page | None => Ret s end in
      free_pages s base (i + 1) n
  end.

Definition free_contiguous_pages (s : t) (base num_pages : Z) : outcome t :=
  free_pages s base 0 (Z.to_nat num_pages).

(** ** The invariant *)

(** Where a region can lie: page aligned, below 2^64, large enough for its own
    page structures. *)
Record region_wf (r : Region) : Prop := {
  region_aligned : base_phy r mod PAGE_SIZE = 0;
  region_base : 0 <= base_phy r;
  region_size : 0 <= num_pages r;
  region_end : base_phy r + num_pages r * PAGE_SIZE < 18446744073709551616;
  region_room : num_pages_reserved r <= num_pages r }.

Definition regions_apart (r1 r2 : Region) : Prop :=
  r1 = r2 \/ end_phy r1 <= base_phy r2 \/ end_phy r2 <= base_phy r1.

Definition is_free (s : t) (p : Z) : Prop := exists pg, pages s !! p = Some pg /\ free pg = true.
Definition allocated (s : t) (p : Z) : Prop := exists pg, pages s !! p = Some pg /\ free pg = false.

Record wf (s : t) : Prop := {
  wf_nodup : NoDup (page_freelist s);
  wf_free p : p ∈ page_freelist s <-> is_free s p;
  wf_count : total_free_pages (stats s) = u64 (Z.of_nat (length (page_freelist s)));
  wf_region r : r ∈ region_list s -> region_wf r;
  wf_pages r i p : r ∈ region_list s -> pages_array r i = Some p -> is_Some (pages s !! p);
  wf_apart r1 r2 : r1 ∈ region_list s -> r2 ∈ region_list s -> regions_apart r1 r2 }.

(** ** Regions *)

Lemma reserved_positive r : region_wf r -> 1 <= num_pages_reserved r.
Proof.
  intros [_ Hb Hs He _]. unfold num_pages_reserved, PAGE_SIZE, sizeof_Page, sizeof_Region in *.
  rewrite u64_small by lia. lia.
Qed.

Lemma usable_small r : region_wf r -> num_pages_usable r = num_pages r - num_pages_reserved r.
Proof.
  intros Hr. pose proof (reserved_positive r Hr). destruct Hr. unfold num_pages_usable, PAGE_SIZE in *.
  apply u64_small. lia.
Qed.

(** Page [i] of the array is where it should be, inside the region. *)
Lemma pages_array_spec r i p :
  region_wf r -> pages_array r i = Some p ->
  0 <= i < num_pages_usable r /\
  phy p = base_phy r + (num_pages_reserved r + i) * PAGE_SIZE /\ p * PAGE_SIZE = phy p /\
  base_phy r < phy p < end_phy r.
Proof.
  intros Hr. unfold pages_array. case_if; [|done]. intros [= <-].
  pose proof (usable_small r Hr) as Hu. pose proof (reserved_positive r Hr). destruct Hr as [Ha ????].
  unfold phy, end_phy, PAGE_SIZE in *. rewrite Hu in *.
  assert (base_phy r = base_phy r / 4096 * 4096) by lia.
  rewrite !u64_small by lia. lia.
Qed.

Lemma pages_array_some r i : 0 <= i < num_pages_usable r -> exists p, pages_array r i = Some p.
Proof. intros. unfold pages_array. rewrite (proj2 (Z.leb_le _ _)), (proj2 (Z.ltb_lt _ _)) by lia. eauto. Qed.

Lemma pages_array_bounds r i p : pages_array r i = Some p -> 0 <= i < num_pages_usable r.
Proof. unfold pages_array. case_if; [lia|done]. Qed.

Lemma pages_array_inj r i j p :
  pages_array r i = Some p -> pages_array r j = Some p -> i = j.
Proof. unfold pages_array. repeat case_if; try done. intros [= <-] [= ?]. lia. Qed.

(** [find_page] finds the structure of every page it is asked about. *)
Lemma find_page_found s r i p :
  wf s -> r ∈ region_list s -> pages_array r i = Some p -> find_page s (phy p) = Ret (Some p).
Proof.
  intros Hwf Hin Hp. pose proof (wf_region s Hwf _ Hin) as Hr.
  pose proof (pages_array_spec r i p Hr Hp) as (Hi & Hphy & Hmul & Hb).
  pose proof (reserved_positive r Hr).
  assert (Hother : forall r', r' ∈ region_list s -> r' = r \/ phy p < base_phy r' \/ end_phy r' < phy p).
  { intros r' Hin'. destruct (wf_apart s Hwf r' r Hin' Hin) as [?|[?|?]]; [by left|right; lia..]. }
  clear Hwf. unfold find_page. revert Hin Hother.
  induction (region_list s) as [|r' rs IH]; intros Hin Hother; [by apply elem_of_nil in Hin|].
  cbn [find_page_in].
  destruct (Hother r') as [->|Hout]; [left| |].
  - rewrite (proj2 (Z.ltb_ge _ _)) by lia. rewrite Z.gtb_ltb, (proj2 (Z.ltb_ge _ _)) by lia. cbn [orb].
    pose proof (region_end r Hr). pose proof (region_base r Hr). pose proof (usable_small r Hr).
    replace (u64 (phy p - base_phy r) / PAGE_SIZE) with (num_pages_reserved r + i)
      by (rewrite u64_small; unfold PAGE_SIZE in *; lia).
    unfold PAGE_SIZE in *. rewrite (proj2 (Z.ltb_ge _ _)) by lia. rewrite u64_small by lia.
    replace (num_pages_reserved r + i - num_pages_reserved r) with i by lia.
    rewrite Hp. simpl. by rewrite Z.eqb_refl.
  - replace ((phy p <? base_phy r') || (phy p >? end_phy r')) with true.
    + apply IH.
      * apply elem_of_cons in Hin as [<-|?]; [|done]. exfalso. lia.
      * intros r'' ?. apply Hother. by right.
    + symmetry. apply orb_true_iff. rewrite Z.gtb_ltb, !Z.ltb_lt. lia.
Qed.
End pmm.
