(* ===== verification/PmmProps.v ===== *)
(** * Properties of the physical page allocator (mem/pmm.cpp)

    A page handed out was free and is handed out to one owner; runs of pages are
    found when there are any; what a run's request beyond a region does. *)

From S2P Require Import Prelude Algorithm Pmm.
Import pmm.

Lemma free_allocated s p : is_free s p -> allocated s p -> False.
Proof. intros (pg & H1 & H2) (pg' & H3 & H4). congruence. Qed.

(** Marking page [p] with [b] and replacing the free list. *)
Lemma wf_mark s p pg l st :
  wf s -> is_Some (pages s !! p) -> NoDup l ->
  (forall q, q ∈ l <-> if decide (q = p) then free pg = true else q ∈ page_freelist s) ->
  total_free_pages st = u64 (Z.of_nat (length l)) ->
  wf (mk (<[p := pg]> (pages s)) l (region_list s) st).
Proof.
  intros Hwf Hp Hnd Hl Hst. split; simpl; try done; try apply Hwf.
  - intros q. rewrite Hl. unfold is_free; simpl. case_decide as Hq.
    + subst. rewrite lookup_insert_eq. naive_solver.
    + rewrite lookup_insert_ne by done. apply (wf_free s Hwf).
  - intros r i q Hr Hq. destruct (decide (q = p)) as [->|]; [rewrite lookup_insert_eq; eauto|].
    rewrite lookup_insert_ne by done. by eapply (wf_pages s Hwf).
Qed.

Lemma allocated_mark s p pg l st q :
  allocated (mk (<[p := pg]> (pages s)) l (region_list s) st) q <->
  if decide (q = p) then free pg = false else allocated s q.
Proof.
  unfold allocated; simpl. case_decide as Hq; [subst|].
  - rewrite lookup_insert_eq. naive_solver.
  - by rewrite lookup_insert_ne.
Qed.

(** Taking a free page off the free list. *)
Lemma take_one s p pg :
  wf s -> pages s !! p = Some pg -> free pg = true ->
  exists l1 l2, page_freelist s = l1 ++ p :: l2 /\
    let s' := count_free (-1) (s <| pages ::= <[p := pg <| free := false |>]> |>
                                 <| page_freelist := l1 ++ l2 |>) in
    wf s' /\ region_list s' = region_list s /\
    forall q, allocated s' q <-> q = p \/ allocated s q.
Proof.
  intros Hwf Hp Hf.
  assert (p ∈ page_freelist s) as Hin by (apply (wf_free s Hwf); by exists pg).
  apply list_elem_of_split in Hin as (l1 & l2 & Hl). exists l1, l2. split; [done|]. simpl.
  pose proof (wf_nodup s Hwf) as Hnd. rewrite Hl in Hnd.
  assert (Hpl : p ∉ l1 ++ l2 /\ NoDup (l1 ++ l2)).
  { apply NoDup_app in Hnd as (H1 & H2 & H3). apply NoDup_cons in H3 as [H3 H4].
    split; [rewrite elem_of_app; set_solver|]. apply NoDup_app. set_solver. }
  destruct Hpl as [Hpl Hnd']. split_and!; [| done |].
  - apply (wf_mark s); [done|eauto|done| |].
    + intros q. simpl. case_decide; [subst; naive_solver|]. rewrite Hl. set_solver.
    + simpl. rewrite (wf_count s Hwf), Hl, !length_app. simpl.
      replace (u64 (Z.of_nat (length l1 + S (length l2))) + -1)
        with (u64 (Z.of_nat (length l1 + S (length l2))) - 1) by lia.
      rewrite u64_sub_l. f_equal. lia.
  - intros q. etransitivity; [apply (allocated_mark s)|]. simpl. case_decide; naive_solver.
Qed.

(** Taking the first free page. *)
Lemma alloc_page_spec s p l :
  wf s -> page_freelist s = p :: l ->
  exists s', alloc_page s = Ret (p, s') /\ wf s' /\ is_free s p /\ page_freelist s' = l /\
    region_list s' = region_list s /\
    (forall q, is_Some (pages s' !! q) <-> is_Some (pages s !! q)) /\
    forall q, allocated s' q <-> q = p \/ allocated s q.
Proof.
  intros Hwf Hl.
  assert (is_free s p) as (pg & Hpg & Hfree) by (apply (wf_free s Hwf); rewrite Hl; by left).
  destruct (take_one s p pg Hwf Hpg Hfree) as (l1 & l2 & Hsplit & Hwf' & Hrl & Hal).
  assert (l1 = [] /\ l2 = l) as [-> ->].
  { pose proof (wf_nodup s Hwf) as Hnd. rewrite Hl in *. destruct l1 as [|x l1]; simplify_eq/=; [done|].
    apply NoDup_cons in Hnd as [Hnd _]. exfalso. apply Hnd. set_solver. }
  unfold alloc_page. rewrite Hl, Hpg. simpl. rewrite Hfree. simpl.
  eexists. split; [reflexivity|]. split_and!; [exact Hwf'|by exists pg|done|exact Hrl| |exact Hal].
  intros q. simpl. destruct (decide (q = p)) as [->|].
  - rewrite lookup_insert_eq, Hpg. split; eauto.
  - by rewrite lookup_insert_ne.
Qed.

Lemma wf_pages_kept s s' p : free_page s p = Ret s' -> is_Some (pages s !! p) -> is_Some (pages s' !! p).
Proof. unfold free_page. intros H [pg Hpg]. rewrite Hpg in H. inv_ret. simpl. rewrite lookup_insert_eq. eauto. Qed.

(** Giving back an owned page. *)
Lemma page_ownership_free s (Hwf : wf s) p :
  allocated s p -> exists s', free_page s p = Ret s' /\ wf s' /\ region_list s' = region_list s /\
    forall q, allocated s' q <-> q <> p /\ allocated s q.
Proof.
  intros (pg & Hpg & Hfree). unfold free_page. rewrite Hpg. simpl. rewrite Hfree. simpl.
  eexists. split; [reflexivity|].
  assert (p ∉ page_freelist s).
  { intros Hin. apply (wf_free s Hwf) in Hin as (? & ? & ?). congruence. }
  split_and!; [|done|].
  - apply (wf_mark s); [done|eauto| | |]; simpl.
    + apply NoDup_cons. split; [done|apply Hwf].
    + intros q. rewrite elem_of_cons. case_decide; set_solver.
    + rewrite (wf_count s Hwf), u64_add_l. f_equal. lia.
  - intros q. etransitivity; [apply (allocated_mark s)|]. simpl. case_decide; naive_solver.
Qed.

(** C39. In every well-formed state of the allocator, [alloc_page] fails exactly
    when no page is free and otherwise hands out a page that nobody owns, which
    is then owned; [free_page] of an owned page gives back exactly that page and
    of a free one is caught. *)
Theorem page_ownership s :
  wf s ->
  (page_freelist s = [] -> alloc_page s = Panic) /\
  (page_freelist s <> [] -> exists p s', alloc_page s = Ret (p, s') /\
    wf s' /\ is_free s p /\ forall q, allocated s' q <-> q = p \/ allocated s q) /\
  (forall p, allocated s p -> exists s', free_page s p = Ret s' /\
    wf s' /\ is_free s' p /\ forall q, allocated s' q <-> q <> p /\ allocated s q) /\
  (forall p, is_free s p -> free_page s p = Panic).
Proof.
  intros Hwf. split_and!.
  - intros Hnil. unfold alloc_page. by rewrite Hnil.
  - intros Hne. destruct (page_freelist s) as [|p l] eqn:Hl; [done|].
    destruct (alloc_page_spec s p l Hwf Hl) as (s' & ? & ? & ? & _ & _ & _ & ?). by exists p, s'.
  - intros p Hp. destruct (page_ownership_free s Hwf p Hp) as (s' & ? & Hwf' & _ & Hal).
    exists s'. split_and!; [done..| |done]. destruct Hp as (pg & Hpg & Hfree).
    destruct (wf_pages_kept s s' p) as [pg' Hpg']; [done|eauto|]. exists pg'. split; [done|].
    apply not_false_is_true. intros ?. by destruct (proj1 (Hal p)) as [? _]; [exists pg'|].
  - intros p (pg & Hpg & Hfree). unfold free_page. rewrite Hpg. simpl. by rewrite Hfree.
Qed.

(** ** Runs *)

(** Page [i] of the region is free. *)
Definition free_at (s : t) (r : Region) (i : Z) : Prop :=
  exists p, pages_array r i = Some p /\ is_free s p.

Lemma page_at s r i :
  wf s -> r ∈ region_list s -> 0 <= i < num_pages_usable r ->
  exists p pg, pages_array r i = Some p /\ pages s !! p = Some pg.
Proof.
  intros Hwf Hr Hi. destruct (pages_array_some r i Hi) as [p Hp].
  destruct (wf_pages s Hwf r i p Hr Hp) as [pg Hpg]. eauto.
Qed.

Lemma usable_bound r : region_wf r -> 0 <= num_pages_usable r < 4503599627370496.
Proof.
  intros Hr. pose proof (usable_small r Hr). pose proof (reserved_positive r Hr).
  destruct Hr. unfold PAGE_SIZE in *. lia.
Qed.

Lemma first_used_spec s r i n : forall j,
  wf s -> r ∈ region_list s -> 0 <= i -> 0 <= j -> i + j + Z.of_nat n <= num_pages_usable r ->
  (exists u, first_used s r i j n = Ret (Some u) /\ j <= u < j + Z.of_nat n /\ ~ free_at s r (i + u)) \/
  (first_used s r i j n = Ret None /\ forall v, j <= v < j + Z.of_nat n -> free_at s r (i + v)).
Proof.
  induction n as [|n IH]; intros j Hwf Hr Hi Hj Hb; cbn [first_used].
  { right. split; [done|lia]. }
  pose proof (usable_bound r (wf_region s Hwf r Hr)). rewrite u64_small by lia.
  destruct (page_at s r (i + j) Hwf Hr ltac:(lia)) as (p & pg & Hp & Hpg).
  rewrite Hp. simpl. rewrite Hpg. simpl. destruct (free pg) eqn:Hfree.
  - destruct (IH (j + 1) Hwf Hr Hi ltac:(lia) ltac:(lia)) as [(u & Hu & Hlt & Hn)|[Hn Hall]].
    + left. exists u. split_and!; [done|lia|lia|done].
    + right. split; [done|]. intros v Hv. destruct (decide (v = j)) as [->|].
      * exists p. split; [done|]. by exists pg.
      * apply Hall. lia.
  - left. exists j. split_and!; [done|lia|lia|]. intros (q & Hq & pg' & Hpg' & Hf'). congruence.
Qed.

Lemma search_region_S fuel s r i n :
  search_region (S fuel) s r i n =
  if i <=? u64 (num_pages_usable r - n) then
    let! used := first_used s r i 0 (Z.to_nat n) in
    match used with
    | Some j => search_region fuel s r (u64 (u64 (i + j) + 1)) n
    | None => Ret (Some i)
    end
  else Ret None.
Proof. done. Qed.

Lemma search_region_spec s r n fuel : forall i,
  wf s -> r ∈ region_list s -> 0 < n <= num_pages_usable r -> 0 <= i ->
  num_pages_usable r - n < i + Z.of_nat fuel ->
  (exists u, search_region (S fuel) s r i n = Ret (Some u) /\ i <= u /\ u + n <= num_pages_usable r /\
     forall v, 0 <= v < n -> free_at s r (u + v)) \/
  (search_region (S fuel) s r i n = Ret None /\
   forall u, i <= u -> u + n <= num_pages_usable r -> exists v, 0 <= v < n /\ ~ free_at s r (u + v)).
Proof.
  induction fuel as [|fuel IH]; intros i Hwf Hr Hn Hi Hf;
    pose proof (usable_bound r (wf_region s Hwf r Hr));
    rewrite search_region_S, (u64_small (_ - n)) by lia.
  { rewrite (proj2 (Z.leb_gt _ _)) by lia. right. split; [done|lia]. }
  destruct (Z.leb_spec i (num_pages_usable r - n)); [|right; split; [done|lia]].
  destruct (first_used_spec s r i (Z.to_nat n) 0 Hwf Hr) as [(u & Hu & Hlt & Hused)|[Hnone Hall]]; try lia.
  - rewrite Hu. cbn [obind]. rewrite !u64_small by (rewrite ?u64_small; lia).
    destruct (IH (i + u + 1) Hwf Hr Hn ltac:(lia) ltac:(lia)) as [(w & Hw & Hle & Hb & Hfree)|[Hw Hno]].
    + left. exists w. split_and!; [done|lia|done|done].
    + right. split; [done|]. intros w Hiw Hb. destruct (decide (w <= i + u)).
      * exists (i + u - w). split; [lia|]. by replace (w + (i + u - w)) with (i + u) by lia.
      * apply Hno; lia.
  - rewrite Hnone. simpl. left. exists i. split_and!; [done|lia|lia|]. intros v Hv. apply Hall. lia.
Qed.

(** Taking a free run marks exactly its pages. *)
Lemma take_pages_spec r n : forall s i,
  wf s -> r ∈ region_list s -> 0 <= i -> i + Z.of_nat n <= num_pages_usable r ->
  (forall v, 0 <= v < Z.of_nat n -> free_at s r (i + v)) ->
  exists s', take_pages s r i n = Ret s' /\ wf s' /\ region_list s' = region_list s /\
    forall q, allocated s' q <->
      (exists v, 0 <= v < Z.of_nat n /\ pages_array r (i + v) = Some q) \/ allocated s q.
Proof.
  induction n as [|n IH]; intros s i Hwf Hr Hi Hb Hfree; cbn [take_pages].
  { exists s. split_and!; [done..|]. intros q. split; [by right|]. intros [(v & ? & _)|?]; [lia|done]. }
  pose proof (usable_bound r (wf_region s Hwf r Hr)).
  destruct (Hfree 0 ltac:(lia)) as (p & Hp & pg & Hpg & Hf). rewrite Z.add_0_r in Hp.
  destruct (take_one s p pg Hwf Hpg Hf) as (l1 & l2 & Hl & Hwf' & Hrl & Hal).
  rewrite Hp. simpl. rewrite Hpg. simpl.
  assert (unlink_page p (page_freelist s) = Ret (l1 ++ l2)) as ->.
  { pose proof (wf_nodup s Hwf) as Hnd. rewrite Hl in Hnd |- *. unfold unlink_page.
    rewrite decide_True by set_solver. f_equal. apply NoDup_app in Hnd as (_ & Hd & Hnd).
    apply NoDup_cons in Hnd as [Hnd _]. rewrite remove_app. simpl.
    destruct (Z.eq_dec p p); [|done]. rewrite !notin_remove; [done| |];
      rewrite <- list_elem_of_In; set_solver. }
  cbn [obind]. rewrite u64_small by lia.
  set (s1 := count_free (-1) _) in *.
  destruct (IH s1 (i + 1)) as (s' & Hs' & Hwf1 & Hrl1 & Hal1); [done|by rewrite Hrl|lia|lia| |].
  - intros v Hv. destruct (Hfree (1 + v) ltac:(lia)) as (q & Hq & pg' & Hpg' & Hf').
    exists q. split; [by rewrite <- Z.add_assoc|]. exists pg'. split; [|done].
    unfold s1. simpl. rewrite lookup_insert_ne; [done|]. intros ->.
    pose proof (pages_array_inj r _ _ _ Hp Hq). lia.
  - exists s'. split_and!; [done..|congruence|]. intros q. rewrite Hal1, Hal. split.
    + intros [(v & Hv & Hq)|[->|?]]; [|left; exists 0; rewrite Z.add_0_r; split; [lia|done]|by right].
      left. exists (1 + v). split; [lia|]. by rewrite Z.add_assoc.
    + intros [(v & Hv & Hq)|?]; [|by right; right]. destruct (decide (v = 0)) as [->|].
      * right; left. rewrite Z.add_0_r in Hq. congruence.
      * left. exists (v - 1). split; [lia|]. by replace (i + 1 + (v - 1)) with (i + v) by lia.
Qed.

Lemma phy_run r i p v q :
  region_wf r -> pages_array r i = Some p -> pages_array r (i + v) = Some q ->
  u64 (phy p + v * PAGE_SIZE) = phy q.
Proof.
  intros Hr Hp Hq. pose proof (pages_array_spec r i p Hr Hp) as (_ & H1 & _ & _).
  pose proof (pages_array_spec r _ q Hr Hq) as (_ & H2 & _ & H3 & H4).
  pose proof (region_base r Hr). unfold end_phy in H4.
  rewrite u64_small; unfold PAGE_SIZE in *; [lia|].
  pose proof (u64_range (base_phy r + num_pages r * 4096)). lia.
Qed.

(** Freeing an owned run gives back exactly its pages. *)
Lemma free_pages_spec r i p n : forall s v,
  wf s -> r ∈ region_list s -> pages_array r i = Some p -> 0 <= v -> 0 <= i ->
  i + v + Z.of_nat n <= num_pages_usable r ->
  (forall w q, v <= w < v + Z.of_nat n -> pages_array r (i + w) = Some q -> allocated s q) ->
  exists s', free_pages s (phy p) v n = Ret s' /\ wf s' /\
    forall q, allocated s' q <->
      allocated s q /\ forall w, v <= w < v + Z.of_nat n -> pages_array r (i + w) <> Some q.
Proof.
  induction n as [|n IH]; intros s v Hwf Hr Hp Hv Hi Hb Hown; cbn [free_pages].
  { exists s. split_and!; [done..|]. intros q. split; [|tauto]. intros ?. split; [done|]. lia. }
  destruct (pages_array_some r (i + v) ltac:(lia)) as [q Hq].
  rewrite (phy_run r i p v q) by (done || by eapply wf_region).
  rewrite (find_page_found s r (i + v) q) by done. cbn [obind].
  destruct (page_ownership_free s Hwf q) as (s1 & Hs1 & Hwf1 & Hrl & Hal); [apply (Hown v); [lia|done]|].
  rewrite Hs1. cbn [obind].
  destruct (IH s1 (v + 1)) as (s' & Hs' & Hwf' & Hal'); [done|by rewrite Hrl|done|lia|done|lia| |].
  - intros w q' Hw Hq'. apply Hal. split; [|apply (Hown w); [lia|done]].
    intros ->. pose proof (pages_array_inj r _ _ _ Hq Hq'). lia.
  - exists s'. split_and!; [done..|]. intros q'. rewrite Hal', Hal. split.
    + intros [[Hne Ha] Hno]. split; [done|]. intros w Hw Hq'. destruct (decide (w = v)) as [->|].
      * congruence.
      * apply (Hno w); [lia|done].
    + intros [Ha Hno]. split_and!; [|done|].
      * intros ->. apply (Hno v); [lia|done].
      * intros w Hw. apply Hno. lia.
Qed.

Lemma alloc_from_spec s n rs :
  wf s -> (forall r, r ∈ rs -> r ∈ region_list s /\ 0 < n <= num_pages_usable r) ->
  (alloc_from s rs n = Ret (0, s) /\
   forall r u, r ∈ rs -> 0 <= u -> u + n <= num_pages_usable r ->
     exists v, 0 <= v < n /\ ~ free_at s r (u + v)) \/
  (exists r i p s', r ∈ region_list s /\ alloc_from s rs n = Ret (phy p, s') /\
   pages_array r i = Some p /\ 0 <= i /\ i + n <= num_pages_usable r /\
   (forall v, 0 <= v < n -> free_at s r (i + v)) /\ wf s' /\ region_list s' = region_list s /\
   forall q, allocated s' q <->
     (exists v, 0 <= v < n /\ pages_array r (i + v) = Some q) \/ allocated s q).
Proof.
  intros Hwf. induction rs as [|r rs IH]; intros Hrs; cbn [alloc_from].
  { left. split; [done|]. intros r u Hr. by apply elem_of_nil in Hr. }
  destruct (Hrs r ltac:(by left)) as [Hr Hn]. pose proof (usable_bound r (wf_region s Hwf r Hr)).
  destruct (search_region_spec s r n (Z.to_nat (num_pages_usable r)) 0 Hwf Hr Hn)
    as [(u & Hu & Hle & Hb & Hfree)|[Hnone Hno]]; [lia..| |].
  - right. rewrite Hu. cbn [obind].
    destruct (take_pages_spec r (Z.to_nat n) s u Hwf Hr ltac:(lia) ltac:(lia))
      as (s' & Hs' & Hwf' & Hrl & Hal); [intros v Hv; apply Hfree; lia|].
    destruct (Hfree 0 ltac:(lia)) as (p & Hp & _). rewrite Z.add_0_r in Hp.
    exists r, u, p, s'. rewrite Hs'. cbn [obind]. rewrite Hp. rewrite Z2Nat.id in Hal by lia.
    split_and!; done || lia.
  - rewrite Hnone. cbn [obind]. destruct IH as [[Hret IH]|IH].
    + intros r' Hr'. apply Hrs. by right.
    + left. split; [done|]. intros r' u Hr'. apply elem_of_cons in Hr' as [->|Hr']; [apply Hno|by apply IH].
    + by right.
Qed.

(** When no request exceeds a region, [alloc_contiguous_pages] returns 0 and
    changes nothing exactly when no region has such a run of free pages;
    otherwise it returns the address of a run of free pages, which become owned
    and nothing else does, and [free_contiguous_pages] of that run restores the
    owned pages. The search misses no run although it skips past used pages. *)
Theorem contiguous_pages s n :
  wf s -> 0 < n -> (forall r, r ∈ region_list s -> n <= num_pages_usable r) ->
  (alloc_contiguous_pages s n = Ret (0, s) /\
   forall r u, r ∈ region_list s -> 0 <= u -> u + n <= num_pages_usable r ->
     exists v, 0 <= v < n /\ ~ free_at s r (u + v)) \/
  (exists r i base s', r ∈ region_list s /\ alloc_contiguous_pages s n = Ret (base, s') /\
   wf s' /\ 0 <= i /\ i + n <= num_pages_usable r /\
   (forall v, 0 <= v < n -> free_at s r (i + v) /\
      exists q, pages_array r (i + v) = Some q /\ phy q = base + v * PAGE_SIZE) /\
   (forall q, allocated s' q <->
     (exists v, 0 <= v < n /\ pages_array r (i + v) = Some q) \/ allocated s q) /\
   exists s'', free_contiguous_pages s' base n = Ret s'' /\ wf s'' /\
     forall q, allocated s'' q <-> allocated s q).
Proof.
  intros Hwf Hn Hrs. destruct (alloc_from_spec s n (region_list s) Hwf) as [?|Hok]; [|by left|right].
  { intros r Hr. split; [done|]. pose proof (Hrs r Hr). lia. }
  destruct Hok as (r & i & p & s' & Hr & Hs' & Hp & Hi & Hb & Hfree & Hwf' & Hrl & Hal).
  pose proof (wf_region s Hwf r Hr) as Hrwf.
  exists r, i, (phy p), s'. split_and!; [done..| | |].
  - intros v Hv. split; [by apply Hfree|]. destruct (Hfree v Hv) as (q & Hq & _). exists q. split; [done|].
    pose proof (pages_array_spec r i p Hrwf Hp). pose proof (pages_array_spec r _ q Hrwf Hq).
    unfold PAGE_SIZE in *. lia.
  - done.
  - unfold free_contiguous_pages.
    destruct (free_pages_spec r i p (Z.to_nat n) s' 0) as (s2 & Hs2 & Hwf2 & Hal2);
      [done|by rewrite Hrl|done|lia|done|lia| |].
    + intros w q Hw Hq. apply Hal. left. exists w. split; [lia|done].
    + exists s2. split_and!; [done..|]. intros q. rewrite Hal2, Hal. split.
      * intros [[(v & Hv & Hq)|?] Hno]; [|done]. exfalso. apply (Hno v); [lia|done].
      * intros Ha. split; [by right|]. intros w Hw Hq. destruct (Hfree w ltac:(lia)) as (q' & Hq' & Hf).
        simplify_eq. by eapply free_allocated.
Qed.

(** ** Concrete allocators *)

Definition wf_check (s : t) : bool :=
  bool_decide (NoDup (page_freelist s)) &&
  bool_decide (Forall (fun p => free <$> pages s !! p = Some true) (page_freelist s)) &&
  bool_decide (map_Forall (fun p pg => free pg = true -> p ∈ page_freelist s) (pages s)) &&
  (total_free_pages (stats s) =? u64 (Z.of_nat (length (page_freelist s)))) &&
  forallb (fun r => (base_phy r mod PAGE_SIZE =? 0) && (0 <=? base_phy r) && (0 <=? num_pages r) &&
    (base_phy r + num_pages r * PAGE_SIZE <? 18446744073709551616) &&
    (num_pages_reserved r <=? num_pages r) &&
    forallb (fun i => bool_decide (is_Some (p ← pages_array r i; pages s !! p)))
      (seqZ 0 (num_pages_usable r))) (region_list s) &&
  forallb (fun r1 => forallb (fun r2 =>
    (base_phy r1 =? base_phy r2) && (num_pages r1 =? num_pages r2) || (end_phy r1 <=? base_phy r2) || (end_phy r2 <=? base_phy r1)) (region_list s)) (region_list s).

Lemma wf_checked s : wf_check s = true -> wf s.
Proof.
  unfold wf_check. rewrite !andb_true_iff, !bool_decide_eq_true, !forallb_forall, Z.eqb_eq.
  intros (((((Hnd & Hl) & Hp) & Hc) & Hr) & Ha).
  assert (Hin : forall r, r ∈ region_list s <-> In r (region_list s)) by (intros; apply list_elem_of_In).
  split; [done| |done| | |].
  - intros p. rewrite Forall_forall in Hl. split.
    + intros Hin'%Hl. unfold is_free. destruct (pages s !! p) as [pg|]; simplify_eq/=. eauto.
    + intros (pg & Hpg & Hf). by apply (Hp p pg).
  - intros r Hr'%Hin%Hr. zbool. by split.
  - intros r i p Hr'%Hin%Hr Hi. zbool.
    match goal with H : forallb _ _ = true |- _ => rewrite forallb_forall in H; rename H into Hall end.
    pose proof (pages_array_bounds r i p Hi).
    specialize (Hall i). rewrite bool_decide_eq_true, Hi in Hall. apply Hall.
    apply list_elem_of_In, elem_of_seqZ. lia.
  - intros r1 r2 H1%Hin%Ha H2%Hin. rewrite forallb_forall in H1. specialize (H1 r2 H2).
    rewrite !orb_true_iff, andb_true_iff, !Z.eqb_eq, !Z.leb_le in H1. unfold regions_apart.
    destruct r1, r2; simpl in *. naive_solver.
Qed.

(** The allocator after booting on five pages of memory, one of which holds the
    page structures, and after one allocation. *)
Definition booted : t :=
  ret_of (mk ∅ [] [] (mkStats 0 0 0))
    (absorb_memmap_entry 18446603336221196288 (fun _ => 0) 1048576 20480 (mk ∅ [] [] (mkStats 0 0 0))).
Definition one_used : t := snd (ret_of (0, booted) (alloc_page booted)).

Lemma booted_wf : wf booted.
Proof. apply wf_checked. vm_compute. reflexivity. Qed.
Lemma one_used_wf : wf one_used.
Proof. apply wf_checked. vm_compute. reflexivity. Qed.

Lemma page_ownership_witness :
  wf one_used /\ page_freelist one_used = [258; 259; 260] /\
  (forall p, allocated one_used p -> exists s', free_page one_used p = Ret s' /\ wf s').
Proof.
  split; [apply one_used_wf|]. split; [vm_compute; reflexivity|].
  intros p Hp. destruct (page_ownership one_used one_used_wf) as (_ & _ & H & _).
  destruct (H p Hp) as (s' & ? & ? & _). by exists s'.
Defined.

Lemma contiguous_pages_witness :
  wf one_used /\ fst (ret_of (0, one_used) (alloc_contiguous_pages one_used 2)) = 258 * 4096 /\
  exists r i base s', r ∈ region_list one_used /\ alloc_contiguous_pages one_used 2 = Ret (base, s') /\
    wf s' /\ (forall v, 0 <= v < 2 -> free_at one_used r (i + v)).
Proof.
  split; [apply one_used_wf|]. split; [vm_compute; reflexivity|].
  assert (Hrs : forall r, r ∈ region_list one_used -> 2 <= num_pages_usable r).
  { intros r Hr. vm_compute in Hr. apply list_elem_of_singleton in Hr as ->. by vm_compute. }
  destruct (contiguous_pages one_used 2 one_used_wf ltac:(lia) Hrs) as [[Hno _]|Hok].
  - exfalso. vm_compute in Hno. congruence.
  - destruct Hok as (r & i & base & s' & Hr & Hs & Hwf & _ & _ & Hfree & _).
    exists r, i, base, s'. split_and!; [done..|]. intros v Hv. by apply Hfree.
Defined.

(** A request larger than a region runs past its page structures: the bound
    [usable - num_pages] of the search wraps around. *)
Lemma contiguous_oversized : alloc_contiguous_pages booted 5 = Undef.
Proof. vm_compute. reflexivity. Qed.
