(* ===== verification/Vmm.v ===== *)
(** * Virtual memory: mem/vmm.hpp and mem/vmm.cpp

    [machine] is the kernel's state with physical memory. A physical page is the
    512 words it holds; a page table is such a page, reached by its physical
    address, so the higher-half offset the code adds to turn a physical address
    into a pointer does not appear. [MappedRange]s and [Pagemap]s are named by
    their address.

    The code's [invlpg] and CR3 loads have no counterpart: the processor's
    translation cache is not part of the state. *)

From S2P Require Import Prelude Algorithm Vector Links Sched FdTable Pmm Isr.

Module mem.

(** ** Page table entries *)
Definition PAGE_PRESENT : Z := 1.
Definition PAGE_WRITABLE : Z := 2.
Definition PAGE_USER : Z := 4.
Definition PAGE_NO_EXECUTE : Z := 9223372036854775808.
(** 0x000FFFFFFFFFF000 *)
Definition ADDR_MASK : Z := 4503599627366400.

Inductive Type_ := NONE | DIRECT | ANONYMOUS | FILE | DIRECT_VIRTUAL.
#[global] Instance Type_eq_dec : EqDecision Type_.
Proof. solve_decision. Defined.

Record MappedRange := mkRange {
  page_list : list Z;
  base : Z; original_base : Z; length : Z;
  page_flags : Z;
  type : Type_;
  phy_base : Z;
  file : option Z;
  file_offset : Z }.
#[global] Instance MappedRange_settable : Settable MappedRange := fun r =>
  mkRange (page_list r) (base r) (original_base r) (length r) (page_flags r) (type r)
    (phy_base r) (file r) (file_offset r).
Definition end_ (r : MappedRange) : Z := u64 (base r + length r).

Record Pagemap := mkPagemap {
  pml4 : Z;
  page_table_pages_list : list Z;
  range_list : list Z;
  cached_range_lookup : option Z }.
#[global] Instance Pagemap_settable : Settable Pagemap := fun m =>
  mkPagemap (pml4 m) (page_table_pages_list m) (range_list m) (cached_range_lookup m).

Record machine := mkMachine {
  kern : kernel;
  pmm_state : pmm.t;
  phys : gmap Z (list Z);
  ranges : gmap Z MappedRange;
  pagemaps : gmap Z Pagemap;
  next_addr : Z }.
#[global] Instance machine_settable : Settable machine := fun s =>
  mkMachine (kern s) (pmm_state s) (phys s) (ranges s) (pagemaps s) (next_addr s).

Definition put_range (r : Z) (x : MappedRange) (s : machine) : machine := s <| ranges ::= <[r := x]> |>.
Definition put_pagemap (g : Z) (x : Pagemap) (s : machine) : machine := s <| pagemaps ::= <[g := x]> |>.
Definition get_range (s : machine) (r : Z) : outcome MappedRange := deref (ranges s !! r).
Definition get_pagemap (s : machine) (g : Z) : outcome Pagemap := deref (pagemaps s !! g).

(** Word [i] of the page at [a]. *)
Definition read_word (s : machine) (a i : Z) : outcome Z :=
  let! ws := deref (phys s !! a) in deref (ws !! Z.to_nat i).
Definition write_word (s : machine) (a i v : Z) : outcome machine :=
  let! ws := deref (phys s !! a) in
  let! _ := deref (ws !! Z.to_nat i) in
  Ret (s <| phys ::= <[a := <[Z.to_nat i := v]> ws]> |>).
Definition zero_page : list Z := replicate 512 0.
(** [memset] of a page. *)
Definition clear_page (s : machine) (a : Z) : outcome machine :=
  let! _ := deref (phys s !! a) in Ret (s <| phys ::= <[a := zero_page]> |>).

(** ** Allocation *)

Definition alloc_page (s : machine) : outcome (Z * machine) :=
  let! (page, pmm) := pmm.alloc_page (pmm_state s) in
  Ret (page, s <| pmm_state := pmm |>).
Definition free_page (s : machine) (page : Z) : outcome machine :=
  let! pmm := pmm.free_page (pmm_state s) page in Ret (s <| pmm_state := pmm |>).

Definition alloc_page_for_page_table (s : machine) (g : Z) : outcome (Z * machine) :=
  let! (new_page, s) := alloc_page s in
  let! m := get_pagemap s g in
  let! l := link_tail new_page (page_table_pages_list m) in
  Ret (u64 (new_page * PAGE_SIZE), put_pagemap g (m <| page_table_pages_list := l |>) s).

(** ** Page tables *)

Definition create_next_page_table (s : machine) (g a i : Z) : outcome (Z * machine) :=
  let! (new_page, s) := alloc_page_for_page_table s g in
  let! s := clear_page s new_page in
  let! s := write_word s a i (new_page .| PAGE_PRESENT .| PAGE_WRITABLE .| PAGE_USER) in
  Ret (new_page, s).

(** One level down from entry [i] of table [a]. *)
Definition next_table (s : machine) (g a i : Z) (create_missing : bool) : outcome (option Z * machine) :=
  let! e := read_word s a i in
  if e &? PAGE_PRESENT then Ret (Some (Z.land e ADDR_MASK), s)
  else if create_missing then let! (a, s) := create_next_page_table s g a i in Ret (Some a, s)
  else Ret (None, s).

Definition pt_index (virt shift : Z) : Z := Z.land (Z.shiftr virt shift) 511.

(** The entry is (table, index). *)
Definition find_page_table_entry (s : machine) (g virt : Z) (create_missing : bool)
    : outcome (option (Z * Z) * machine) :=
  let! m := get_pagemap s g in
  let! (a, s) := next_table s g (pml4 m) (pt_index virt 39) create_missing in
  match a with None => Ret (None, s) | Some a =>
  let! (a, s) := next_table s g a (pt_index virt 30) create_missing in
  match a with None => Ret (None, s) | Some a =>
  let! (a, s) := next_table s g a (pt_index virt 21) create_missing in
  match a with None => Ret (None, s) | Some a =>
  Ret (Some (a, pt_index virt 12), s)
  end end end.

Definition map_page (s : machine) (g phy virt flags : Z) : outcome machine :=
  let! (e, s) := find_page_table_entry s g virt true in
  let! (a, i) := deref e in
  let! _ := read_word s a i in
  write_word s a i (Z.land phy ADDR_MASK .| flags).

Fixpoint map_pages_loop (n : nat) (i : Z) (s : machine) (g phy virt flags : Z) : outcome machine :=
  match n with
  | O => Ret s
  | S n =>
      let! s := map_page s g (u64 (phy + i * PAGE_SIZE)) (u64 (virt + i * PAGE_SIZE)) flags in
      map_pages_loop n (i + 1) s g phy virt flags
  end.
Definition map_pages (s : machine) (g phy virt size flags : Z) : outcome machine :=
  map_pages_loop (Z.to_nat (klib.align_up size PAGE_SIZE / PAGE_SIZE)) 0 s g phy virt flags.

Fixpoint copy_words (n : nat) (i : Z) (s : machine) (from to : Z) : outcome machine :=
  match n with
  | O => Ret s
  | S n =>
      let! e := read_word s from i in
      let! s := write_word s to i e in
      copy_words n (i + 1) s from to
  end.
(** The higher half of the kernel's top table. *)
Definition map_kernel (s : machine) (g : Z) : outcome machine :=
  let! m := get_pagemap s g in
  let! k := get_pagemap s kernel_pagemap in
  copy_words 256 256 s (pml4 k) (pml4 m).

Definition new_pagemap (s : machine) : outcome (Z * machine) :=
  let g := next_addr s in
  let s := put_pagemap g (mkPagemap 0 [] [] None) (s <| next_addr ::= Z.add 1 |>) in
  let! (a, s) := alloc_page_for_page_table s g in
  let! m := get_pagemap s g in
  Ret (g, put_pagemap g (m <| pml4 := a |>) s).

(** ** Ranges *)

Definition covers (r : MappedRange) (virt : Z) : bool := (base r <=? virt) && (virt <? end_ r).

Fixpoint find_covering (s : machine) (l : list Z) (virt : Z) : outcome (option Z) :=
  match l with
  | [] => Ret None
  | r :: l =>
      let! x := get_range s r in
      if covers x virt then Ret (Some r) else find_covering s l virt
  end.

Definition addr_to_range (s : machine) (g virt : Z) : outcome (option Z * machine) :=
  let! m := get_pagemap s g in
  let! hit := match cached_range_lookup m with
              | Some c => let! x := get_range s c in Ret (covers x virt)
              | None => Ret false
              end in
  if hit : bool then Ret (cached_range_lookup m, s) else
  let! r := find_covering s (range_list m) virt in
  let! r := match r with
            | Some r => Ret (Some r)
            | None =>
                if g =? kernel_pagemap then Ret None else
                let! k := get_pagemap s kernel_pagemap in find_covering s (range_list k) virt
            end in
  match r with
  | Some r => Ret (Some r, put_pagemap g (m <| cached_range_lookup := Some r |>) s)
  | None => Ret (None, s)
  end.

(** [~MappedRange], [delete]. *)
Fixpoint free_page_list (s : machine) (l : list Z) : outcome machine :=
  match l with
  | [] => Ret s
  | page :: l => let! s := free_page s page in free_page_list s l
  end.
Definition hold_file (s : machine) (f : option Z) : outcome machine :=
  match f with
  | Some d => let! k := increment_ref_count (kern s) d in Ret (s <| kern := k |>)
  | None => Ret s
  end.
Definition drop_file (s : machine) (f : option Z) : outcome machine :=
  match f with
  | Some d => let! k := decrement_ref_count (kern s) d in Ret (s <| kern := k |>)
  | None => Ret s
  end.
Definition delete_range (s : machine) (g r : Z) : outcome machine :=
  let! x := get_range s r in
  let! m := get_pagemap s g in
  let! l := unlink r (range_list m) in
  let! s := free_page_list (put_pagemap g (m <| range_list := l |>) s) (page_list x) in
  let! s := drop_file s (file x) in
  Ret (s <| ranges ::= delete r |>).

(** [page->link.remove()]: the page is in the list of one range, or in none. *)
Definition unlink_from_range (s : machine) (page : Z) : outcome machine :=
  match filter (fun '(_, x) => page ∈ page_list x) (map_to_list (ranges s)) with
  | (r, x) :: _ =>
      let! l := unlink page (page_list x) in
      Ret (put_range r (x <| page_list := l |>) s)
  | [] => Undef
  end.

(** [page->mapped_addr = virt; range->page_list.add_before(&page->link)]. *)
Definition link_page (s : machine) (r page virt : Z) : outcome machine :=
  let! pg := deref (pmm.pages (pmm_state s) !! page) in
  let! x := get_range s r in
  let! l := link_tail page (page_list x) in
  let pg := pg <| pmm.mapped_addr := virt |> in
  Ret (put_range r (x <| page_list := l |>)
    (s <| pmm_state ::= fun p => p <| pmm.pages ::= fun m => <[page := pg]> m |> |>)).

Definition invalidate_page (s : machine) (g virt : Z) (range : option Z) : outcome machine :=
  let! (e, s) := find_page_table_entry s g virt false in
  match e with
  | None => Ret s
  | Some (a, i) =>
      let! entry := read_word s a i in
      if negb (entry &? PAGE_PRESENT) then Ret s else
      let phy := Z.land entry ADDR_MASK in
      let! page := pmm.find_page (pmm_state s) phy in
      let! s := match page with
                | Some page =>
                    let! pg := deref (pmm.pages (pmm_state s) !! page) in
                    let! _ := assert (negb (pmm.free pg)) in
                    unlink_from_range s page
                | None => Ret s
                end in
      match range with
      | Some r =>
          let! x := get_range s r in
          let! _ := assert (page_flags x &? PAGE_PRESENT) in
          let! (page, phy, s) := match page with
                                 | Some page => Ret (page, phy, s)
                                 | None =>
                                     let! (page, s) := alloc_page s in
                                     Ret (page, u64 (page * PAGE_SIZE), s)
                                 end in
          let! s := link_page s r page virt in
          write_word s a i (phy .| page_flags x)
      | None =>
          let! s := write_word s a i 0 in
          match page with Some page => free_page s page | None => Ret s end
      end
  end.

Fixpoint invalidate_loop (n : nat) (i : Z) (s : machine) (g base : Z) (range : option Z)
    : outcome machine :=
  match n with
  | O => Ret s
  | S n =>
      let! s := invalidate_page s g (u64 (base + i * PAGE_SIZE)) range in
      invalidate_loop n (i + 1) s g base range
  end.
Definition invalidate_pages (s : machine) (g base length : Z) (range : option Z) : outcome machine :=
  invalidate_loop (Z.to_nat (klib.align_up length PAGE_SIZE / PAGE_SIZE)) 0 s g base range.

(** ** add_range *)

(** The search for a range to extend. *)
Fixpoint find_adjacent (s : machine) (l : list Z) (base end_ page_flags : Z) (type : Type_)
    : outcome (option (Z * bool)) :=
  match l with
  | [] => Ret None
  | r :: l =>
      let! x := get_range s r in
      if bool_decide (type = mem.type x) && (page_flags =? mem.page_flags x) then
        if base =? mem.end_ x then Ret (Some (r, false))
        else if end_ =? mem.base x then Ret (Some (r, true))
        else find_adjacent s l base end_ page_flags type
      else find_adjacent s l base end_ page_flags type
  end.

(** [previous->range_link.add]: after the last range before [base], never first. *)
Fixpoint insert_sorted (s : machine) (l : list Z) (base r : Z) : outcome (list Z) :=
  match l with
  | [] => Ret [r]
  | x :: l =>
      match l with
      | [] => Ret [x; r]
      | next :: _ =>
          let! y := get_range s next in
          if mem.base y >? base then Ret (x :: r :: l)
          else let! l := insert_sorted s l base r in Ret (x :: l)
      end
  end.

(** From the merge on. *)
Definition insert_range (s : machine) (g base length page_flags : Z) (type : Type_) (phy_base : Z)
    (file : option Z) (file_offset : Z) (merge had_overlap : bool) : outcome (option Z * machine) :=
  let end_ := u64 (base + length) in
  let! m := get_pagemap s g in
  let! merged := if merge && bool_decide (type = ANONYMOUS)
                 then find_adjacent s (range_list m) base end_ page_flags type else Ret None in
  match merged with
  | Some (r, before) =>
      let! x := get_range s r in
      let x := if before : bool then x <| mem.base ::= fun b => u64 (b - length) |> else x in
      let s := put_range r (x <| mem.length ::= fun l => u64 (l + length) |>) s in
      let! s := if had_overlap then invalidate_pages s g base length (Some r) else Ret s in
      Ret (None, s)
  | None =>
      if decide (type = NONE) then
        let! s := invalidate_pages s g base length None in Ret (None, s)
      else
        let r := next_addr s in
        let s := put_range r (mkRange [] base base length page_flags type phy_base file file_offset)
                   (s <| next_addr ::= Z.add 1 |>) in
        let! s := hold_file s file in
        let! l := insert_sorted s (range_list m) base r in
        let s := put_pagemap g (m <| range_list := l |>) s in
        let! s := if had_overlap then invalidate_pages s g base length (Some r) else Ret s in
        Ret (Some r, s)
  end.

(** What happened to a range that overlaps: [inl] when the call returns it. *)
Definition resolve_one (s : machine) (g r base end_ page_flags : Z) (type : Type_) (keep_pages : bool)
    : outcome (machine + machine) :=
  let! x := get_range s r in
  if base <=? mem.base x then
    if end_ >=? mem.end_ x then
      if keep_pages && (base =? mem.base x) && (end_ =? mem.end_ x) && bool_decide (type = mem.type x) then
        if negb (mem.page_flags x =? page_flags) then
          let s := put_range r (x <| mem.page_flags := page_flags |>) s in
          let! s := invalidate_pages s g (mem.base x) (length x) (Some r) in
          Ret (inl s)
        else Ret (inl s)
      else
        let! s := invalidate_pages s g (mem.base x) (length x) None in
        let! s := delete_range s g r in
        Ret (inr s)
    else
      let overlap := u64 (end_ - mem.base x) in
      let s := put_range r (x <| mem.base ::= fun b => u64 (b + overlap) |>
                              <| length ::= fun l => u64 (l - overlap) |>) s in
      Ret (inr s)
  else if end_ >=? mem.end_ x then
    let s := put_range r (x <| length ::= fun l => u64 (l - u64 (mem.end_ x - base)) |>) s in
    Ret (inr s)
  else
    let base2 := end_ in
    let length2 := u64 (mem.end_ x - end_) in
    let split_offset := u64 (base2 - mem.base x) in
    let split_phy := if phy_base x =? 0 then 0 else u64 (phy_base x + split_offset) in
    let split_file_offset := u64 (file_offset x + split_offset) in
    let s := put_range r (x <| length := u64 (base - mem.base x) |>) s in
    let! (split, s) := insert_range s g base2 length2 (mem.page_flags x) (mem.type x) split_phy (file x)
                         split_file_offset false false in
    let! s := match split with
              | Some split =>
                  let! y := get_range s split in
                  invalidate_pages s g (mem.base y) (length y) (Some split)
              | None => Ret s
              end in
    Ret (inr s).

(** One turn of the [while]: [inl] when the call returns a range. *)
Fixpoint resolve_pass (fuel : nat) (s : machine) (g : Z) (pos : option Z) (base end_ page_flags : Z)
    (type : Type_) (keep_pages overlap : bool) : outcome (Z * machine + machine * bool) :=
  match pos, fuel with
  | None, _ => Ret (inr (s, overlap))
  | Some _, O => Undef
  | Some r, S fuel =>
      let! m := get_pagemap s g in
      let next := after r (range_list m) in
      let! x := get_range s r in
      if (base >=? mem.end_ x) || (end_ <=? mem.base x)
      then resolve_pass fuel s g next base end_ page_flags type keep_pages overlap
      else
        let! o := resolve_one s g r base end_ page_flags type keep_pages in
        match o with
        | inl s => Ret (inl (r, s))
        | inr s => resolve_pass fuel s g next base end_ page_flags type keep_pages true
        end
  end.

Fixpoint resolve_overlaps (fuel : nat) (s : machine) (g base end_ page_flags : Z) (type : Type_)
    (keep_pages had_overlap : bool) : outcome (Z * machine + machine * bool) :=
  match fuel with
  | O => Undef
  | S fuel =>
      let! m := get_pagemap s g in
      let n := List.length (range_list m) in
      let! o := resolve_pass (S (n + n)) s g (head (range_list m)) base end_ page_flags type keep_pages false in
      match o with
      | inl x => Ret (inl x)
      | inr (s, true) => resolve_overlaps fuel s g base end_ page_flags type keep_pages true
      | inr (s, false) => Ret (inr (s, had_overlap))
      end
  end.

(** The result is the range added or kept, if any. Two passes resolve every
    overlap, the third turn of the loop never runs. *)
Definition add_range (s : machine) (g base length page_flags : Z) (type : Type_) (phy_base : Z)
    (file : option Z) (file_offset : Z) (merge resolve_overlap keep_pages : bool)
    : outcome (option Z * machine) :=
  let end_ := u64 (base + length) in
  let! m := get_pagemap s g in
  let s := put_pagemap g (m <| cached_range_lookup := None |>) s in
  let! o := if resolve_overlap
            then resolve_overlaps 3 s g base end_ page_flags type keep_pages false
            else Ret (inr (s, false)) in
  match o with
  | inl (r, s) => Ret (Some r, s)
  | inr (s, had_overlap) =>
      insert_range s g base length page_flags type phy_base file file_offset merge had_overlap
  end.

Definition map_anonymous (s : machine) (g base length page_flags : Z) (keep_pages : bool) : outcome machine :=
  let! _ := assert (page_flags &? PAGE_PRESENT) in
  let! (_, s) := add_range s g base length page_flags ANONYMOUS 0 None 0 true true keep_pages in Ret s.
Definition map_direct (s : machine) (g base length page_flags phy_base : Z) : outcome machine :=
  let! _ := assert (page_flags &? PAGE_PRESENT) in
  let! (_, s) := add_range s g base length page_flags DIRECT phy_base None 0 false true false in Ret s.
Definition map_file (s : machine) (g base length page_flags file file_offset : Z) : outcome machine :=
  let! _ := assert (page_flags &? PAGE_PRESENT) in
  let! (_, s) := add_range s g base length page_flags FILE 0 (Some file) file_offset false true false in Ret s.

(** ** Page faults *)

Section faults.
(** What [VNode::read] of a file puts in a zeroed page, at an offset: the virtual
    call depends on the file system. *)
Variable read_page : FileDescription -> Z -> list Z.

(** [fuel] bounds the depth of mirrors of mirrors. *)
Fixpoint handle_page_fault (fuel : nat) (s : machine) (g virt : Z) : outcome (Z * machine) :=
  match fuel with
  | O => Undef
  | S fuel =>
      let page_virt := klib.align_down virt PAGE_SIZE in
      let! (loc, s) := find_page_table_entry s g virt true in
      let! (a, i) := deref loc in
      let! entry := read_word s a i in
      if entry &? PAGE_PRESENT then Ret (- EFAULT, s) else
      let! (range, s) := addr_to_range s g virt in
      match range with
      | None => Ret (- EFAULT, s)
      | Some r =>
          let! x := get_range s r in
          match mem.type x with
          | ANONYMOUS =>
              let! (new_page, s) := alloc_page s in
              let! s := link_page s r new_page page_virt in
              let phy := u64 (new_page * PAGE_SIZE) in
              let! s := clear_page s phy in
              let! s := write_word s a i (phy .| mem.page_flags x) in
              Ret (phy, s)
          | DIRECT =>
              let phy := u64 (page_virt - original_base x + phy_base x) in
              let! s := write_word s a i (Z.land phy ADDR_MASK .| mem.page_flags x) in
              Ret (phy, s)
          | DIRECT_VIRTUAL =>
              let map := u64 (page_virt - original_base x + phy_base x) in
              let! (target, s) := find_page_table_entry s g map false in
              let! (target, s) :=
                match target with
                | Some _ => Ret (target, s)
                | None =>
                    let! (_, s) := handle_page_fault fuel s g map in
                    find_page_table_entry s g map false
                end in
              match target with
              | None => Ret (- EFAULT, s)
              | Some (ta, ti) =>
                  let! te := read_word s ta ti in
                  let phy := Z.land te ADDR_MASK in
                  let! s := write_word s a i (phy .| mem.page_flags x) in
                  Ret (phy, s)
              end
          | FILE =>
              let! (new_page, s) := alloc_page s in
              let! s := link_page s r new_page page_virt in
              let phy := u64 (new_page * PAGE_SIZE) in
              let offset := u64 (page_virt - original_base x + file_offset x) in
              let! s := clear_page s phy in
              let! d := deref (file x) in
              let! fd := deref (descriptions (kern s) !! d) in
              let s := s <| phys ::= fun m => <[phy := read_page fd offset]> m |> in
              let! s := write_word s a i (phy .| mem.page_flags x) in
              Ret (phy, s)
          | NONE => Ret (- EFAULT, s)
          end
      end
  end.

Definition get_physical_addr (fuel : nat) (s : machine) (g virt : Z) : outcome (Z * machine) :=
  let! (loc, s) := find_page_table_entry s g virt false in
  match loc with
  | None => handle_page_fault fuel s g virt
  | Some (a, i) =>
      let! entry := read_word s a i in
      if entry &? PAGE_PRESENT then Ret (Z.land entry ADDR_MASK, s) else handle_page_fault fuel s g virt
  end.
End faults.

(** ** fork *)

(** Entries [i], ..., [i + n - 1] of the table [from] copied to [to]; [descend]
    is what a present entry takes. *)
Fixpoint fork_loop (descend : machine -> Z -> Z -> Z -> outcome machine) (n : nat) (i : Z)
    (s : machine) (from to : Z) : outcome machine :=
  match n with
  | O => Ret s
  | S n =>
      let! e := read_word s from i in
      let! s := if negb (e &? PAGE_PRESENT) then write_word s to i e else descend s e to i in
      fork_loop descend n (i + 1) s from to
  end.

(** A present entry above the last level: a new table for it, filled by [next]. *)
Definition fork_next (next : machine -> Z -> Z -> outcome machine) (g : Z)
    (s : machine) (e to i : Z) : outcome machine :=
  let! (new_page, s) := alloc_page_for_page_table s g in
  let! s := clear_page s new_page in
  let! s := write_word s to i (new_page .| (e &~ ADDR_MASK)) in
  next s (Z.land e ADDR_MASK) new_page.

(** The entries of the last level that are present are not copied. *)
Definition fork_pml1 : machine -> Z -> Z -> outcome machine := fork_loop (fun s _ _ _ => Ret s) 512 0.
Definition fork_pml2 (g : Z) := fork_loop (fork_next fork_pml1 g) 512 0.
Definition fork_pml3 (g : Z) := fork_loop (fork_next (fork_pml2 g) g) 512 0.
(** The lower half of the top level. *)
Definition fork_pml4 (g : Z) := fork_loop (fork_next (fork_pml3 g) g) 256 0.

(** The pages of a range, copied to the range [r] of [g]. *)
Fixpoint fork_pages (s : machine) (g r : Z) (l : list Z) : outcome machine :=
  match l with
  | [] => Ret s
  | old_page :: l =>
      let! (new_page, s) := alloc_page s in
      let! pg := deref (pmm.pages (pmm_state s) !! old_page) in
      let virt := pmm.mapped_addr pg in
      let! s := link_page s r new_page virt in
      let new_phy := u64 (new_page * PAGE_SIZE) in
      let old_phy := u64 (old_page * PAGE_SIZE) in
      let! x := get_range s r in
      let! s := map_page s g new_phy virt (page_flags x) in
      let! ws := deref (phys s !! old_phy) in
      let! _ := deref (phys s !! new_phy) in
      fork_pages (s <| phys ::= fun m => <[new_phy := ws]> m |>) g r l
  end.

Fixpoint fork_ranges (s : machine) (g : Z) (l : list Z) : outcome machine :=
  match l with
  | [] => Ret s
  | r :: l =>
      let! x := get_range s r in
      let! (n, s) := add_range s g (base x) (length x) (page_flags x) (mem.type x) (phy_base x) (file x)
                       (file_offset x) false false false in
      let! n := deref n in
      let! s := if decide (mem.type x = ANONYMOUS \/ mem.type x = FILE)
                then fork_pages s g n (page_list x)
                else let! _ := assert (bool_decide (mem.type x = DIRECT \/ mem.type x = DIRECT_VIRTUAL)) in
                     Ret s in
      fork_ranges s g l
  end.

Definition fork (s : machine) (g : Z) : outcome (Z * machine) :=
  let! m := get_pagemap s g in
  let! (forked, s) := new_pagemap s in
  let! f := get_pagemap s forked in
  let! s := copy_words 512 0 s (pml4 m) (pml4 f) in
  let! s := fork_pml4 forked s (pml4 m) (pml4 f) in
  let! s := fork_ranges s forked (range_list m) in
  Ret (forked, s).

(** ** ~Pagemap *)

Fixpoint delete_ranges (s : machine) (g : Z) (l : list Z) : outcome machine :=
  match l with
  | [] => Ret s
  | r :: l => let! s := delete_range s g r in delete_ranges s g l
  end.

Definition delete_pagemap (s : machine) (g : Z) : outcome machine :=
  let! m := get_pagemap s g in
  let! s := delete_ranges s g (range_list m) in
  let! s := free_page_list s (page_table_pages_list m) in
  Ret (s <| pagemaps ::= fun ps => delete g ps |>).

(** ** System calls, made by process [p] *)

Definition PROT_WRITE : Z := 2.
Definition PROT_EXEC : Z := 4.
Definition MAP_SHARED : Z := 1.
Definition MAP_FIXED : Z := 16.
Definition MAP_ANONYMOUS : Z := 32.

Definition mmap_prot_to_page_flags (prot : Z) : Z :=
  let page_flags := PAGE_PRESENT .| PAGE_USER in
  let page_flags := if prot &? PROT_WRITE then page_flags .| PAGE_WRITABLE else page_flags in
  if negb (prot &? PROT_EXEC) then page_flags .| PAGE_NO_EXECUTE else page_flags.

Definition get_process (s : machine) (p : Z) : outcome Process := deref (processes (kern s) !! p).
Definition set_process (p : Z) (pr : Process) (s : machine) : machine :=
  s <| kern ::= put_process p pr |>.

(** [vnode_mmap] is the virtual call [VNode::mmap]. *)
Definition syscall_mmap
    (vnode_mmap : machine -> Z -> Z -> Z -> Z -> Z -> Z -> outcome (Z * machine))
    (s : machine) (p addr length prot flags fd offset : Z) : outcome (Z * machine) :=
  if length =? 0 then Ret (- EINVAL, s) else
  let! pr := get_process s p in
  let aligned_size := klib.align_up length PAGE_SIZE in
  let '(base, pr) :=
    if flags &? MAP_FIXED then
      (addr, pr <| mmap_anon_base := klib.align_up
               (klib.max (mmap_anon_base pr) (u64 (addr + aligned_size))) PAGE_SIZE |>)
    else (mmap_anon_base pr, pr <| mmap_anon_base := u64 (mmap_anon_base pr + aligned_size) |>) in
  let s := set_process p pr s in
  let! g := deref (pagemap pr) in
  if flags &? MAP_ANONYMOUS then
    let! s := map_anonymous s g base aligned_size (mmap_prot_to_page_flags prot) (negb (flags &? MAP_FIXED)) in
    Ret (base, s)
  else
    let! d := get_file_description (kern s) p fd in
    match d with
    | None => Ret (- EBADF, s)
    | Some d =>
        let! fd := deref (descriptions (kern s) !! d) in
        if negb (can_read fd) then Ret (- EACCES, s) else
        if (flags &? MAP_SHARED) && (prot &? PROT_WRITE) && negb (can_write fd) then Ret (- EACCES, s) else
        vnode_mmap s d base aligned_size offset prot flags
    end.

Definition syscall_munmap (s : machine) (p addr length : Z) : outcome (Z * machine) :=
  let! pr := get_process s p in
  if negb (addr mod PAGE_SIZE =? 0) then Ret (- EINVAL, s) else
  let length := klib.align_up length PAGE_SIZE in
  let! g := deref (pagemap pr) in
  let! (_, s) := add_range s g addr length 0 NONE 0 None 0 false true false in
  let! pr := get_process s p in
  let s := if mmap_anon_base pr =? u64 (addr + length)
           then set_process p (pr <| mmap_anon_base := addr |>) s else s in
  Ret (0, s).

(** The loop of [mprotect], [fuel] ranges at most. *)
Fixpoint mprotect_loop (fuel : nat) (s : machine) (g current end_ prot : Z) : outcome (Z * machine) :=
  match fuel with
  | O => Undef
  | S fuel =>
      if current <? end_ then
        let! (r, s) := addr_to_range s g current in
        match r with
        | None => Ret (- ENOMEM, s)
        | Some r =>
            let! x := get_range s r in
            let range_len := u64 (mem.end_ x - current) in
            let range_len := if u64 (current + range_len) >? end_ then u64 (end_ - current) else range_len in
            let offset := u64 (file_offset x + u64 (current - base x)) in
            let phy := if phy_base x =? 0 then 0 else u64 (phy_base x + u64 (current - base x)) in
            let! (_, s) := add_range s g current range_len (mmap_prot_to_page_flags prot) (mem.type x) phy
                             (file x) offset true true true in
            mprotect_loop fuel s g (u64 (current + range_len)) end_ prot
        end
      else Ret (0, s)
  end.

(** Each turn covers at least a page of the range. *)
Definition syscall_mprotect (s : machine) (p addr length prot : Z) : outcome (Z * machine) :=
  let! pr := get_process s p in
  if negb (addr mod PAGE_SIZE =? 0) then Ret (- EINVAL, s) else
  let length := klib.align_up length PAGE_SIZE in
  let! g := deref (pagemap pr) in
  mprotect_loop (S (Z.to_nat (length / PAGE_SIZE))) s g addr (u64 (addr + length)) prot.

Fixpoint mincore_loop (n : nat) (s : machine) (g page : Z) : outcome (Z * machine) :=
  match n with
  | O => Ret (0, s)
  | S n =>
      let! (r, s) := addr_to_range s g page in
      match r with
      | None => Ret (- ENOMEM, s)
      | Some _ => mincore_loop n s g (u64 (page + PAGE_SIZE))
      end
  end.
(** The vector is filled with 1 up to the end or the first page without a range. *)
Definition syscall_mincore (s : machine) (p addr length : Z) : outcome (Z * machine) :=
  let! pr := get_process s p in
  if negb (addr mod PAGE_SIZE =? 0) then Ret (- EINVAL, s) else
  let num_pages := klib.align_up length PAGE_SIZE / PAGE_SIZE in
  let! g := deref (pagemap pr) in
  mincore_loop (Z.to_nat num_pages) s g addr.

Inductive madvise_advice := MADV_ignored | MADV_DONTFORK | MADV_FREE | MADV_DONTNEED | MADV_unknown.
Definition madvise_of (advice : Z) : madvise_advice :=
  if advice =? 10 then MADV_DONTFORK else if advice =? 8 then MADV_FREE
  else if advice =? 4 then MADV_DONTNEED
  else if bool_decide (advice ∈ [0; 1; 2; 3; 16; 17; 14; 15; 12; 13]) then MADV_ignored else MADV_unknown.

Definition syscall_madvise (s : machine) (p addr length advice : Z) : outcome (Z * machine) :=
  let! pr := get_process s p in
  if negb (addr mod PAGE_SIZE =? 0) then Ret (- EINVAL, s) else
  let length := klib.align_up length PAGE_SIZE in
  match madvise_of advice with
  | MADV_ignored | MADV_DONTFORK => Ret (0, s)
  | MADV_FREE | MADV_DONTNEED =>
      let! g := deref (pagemap pr) in
      let! s := invalidate_loop (Z.to_nat (length / PAGE_SIZE)) 0 s g addr None in
      Ret (0, s)
  | MADV_unknown => Ret (- EINVAL, s)
  end.

Definition syscall_brk (s : machine) (p addr : Z) : outcome (Z * machine) :=
  let! pr := get_process s p in
  if addr =? 0 then Ret (brk pr, s) else
  let old_page_brk := klib.align_up (brk pr) PAGE_SIZE in
  let new_page_brk := klib.align_up addr PAGE_SIZE in
  let! g := deref (pagemap pr) in
  let! s :=
    if new_page_brk >? old_page_brk then
      map_anonymous s g old_page_brk (u64 (new_page_brk - old_page_brk))
        (mmap_prot_to_page_flags (1 .| PROT_WRITE)) true
    else if new_page_brk <? old_page_brk then
      let! (_, s) := add_range s g new_page_brk (u64 (old_page_brk - new_page_brk)) 0 NONE 0 None 0
                       false true false in Ret s
    else Ret s in
  let! pr := get_process s p in
  Ret (addr, set_process p (pr <| brk := addr |>) s).
End mem.
