(* ===== verification/VmmTables.v ===== *)
(** * Page tables are address spaces (mem/vmm.cpp)

    The four-level tables of all pagemaps form a forest: every table has one owner,
    the pagemap and the indices it is reached by, except that the tables of the
    higher half belong to the kernel's pagemap and are shared. [tables_wf] says so;
    from it, mapping a page changes the translation of that page only. *)

From S2P Require Import Prelude Algorithm Vector Links Sched FdTable Pmm PmmProps Isr Vmm.
Import mem.

(** ** Translations *)

Definition word (ph : gmap Z (list Z)) (a i : Z) : Z :=
  default 0 (ws ← ph !! a; ws !! Z.to_nat i).

(** What the processor does: the entry reached by the indices, 0 for none. *)
Fixpoint walk (ph : gmap Z (list Z)) (a : Z) (l : list Z) : Z :=
  match l with
  | [] => 0
  | i :: l =>
      let e := word ph a i in
      match l with
      | [] => e
      | _ => if e &? PAGE_PRESENT then walk ph (Z.land e ADDR_MASK) l else 0
      end
  end.

Definition indices (virt : Z) : list Z :=
  [pt_index virt 39; pt_index virt 30; pt_index virt 21; pt_index virt 12].

(** The page table entry of an address, 0 when a table is missing. *)
Definition pte (s : machine) (g virt : Z) : Z :=
  match pagemaps s !! g with Some m => walk (phys s) (pml4 m) (indices virt) | None => 0 end.

(** The table the indices lead to, all tables on the way being there. *)
Fixpoint reach (ph : gmap Z (list Z)) (x : Z) (l : list Z) (a : Z) : Prop :=
  match l with
  | [] => x = a
  | i :: l => word ph x i &? PAGE_PRESENT = true /\ reach ph (Z.land (word ph x i) ADDR_MASK) l a
  end.

Definition reaches (s : machine) (g virt a : Z) : Prop :=
  exists m, pagemaps s !! g = Some m /\
    reach (phys s) (pml4 m) [pt_index virt 39; pt_index virt 30; pt_index virt 21] a.

Lemma walk_reach ph l i a : forall x, reach ph x l a -> walk ph x (l ++ [i]) = word ph a i.
Proof.
  induction l as [|j l IH]; intros x; cbn [reach]; [by intros ->|]. intros [Hp Hr].
  cbn [app walk]. rewrite Hp. destruct l; by apply IH.
Qed.

Lemma pte_reaches s g virt a : reaches s g virt a -> pte s g virt = word (phys s) a (pt_index virt 12).
Proof. intros (m & Hm & Hr). unfold pte, indices. rewrite Hm. by apply (walk_reach _ _ (pt_index virt 12)) in Hr. Qed.

(** ** Ownership *)

Notation owner := (Z * list Z)%type.
Definition dest (g : Z) (p : list Z) : owner :=
  match p with i :: _ => if 256 <=? i then (kernel_pagemap, p) else (g, p) | [] => (g, p) end.

Definition page_ok (ph : gmap Z (list Z)) (a : Z) : Prop :=
  exists ws, ph !! a = Some ws /\ List.length ws = 512%nat.

Record tables_wf (s : machine) (own : gmap Z owner) : Prop := {
  tw_root g m : pagemaps s !! g = Some m -> own !! pml4 m = Some (g, []);
  tw_table a g p : own !! a = Some (g, p) ->
    dest g p = (g, p) /\ (List.length p <= 3)%nat /\
    exists pfn, a = pfn * PAGE_SIZE /\ pmm.allocated (pmm_state s) pfn;
  tw_child a g p i : own !! a = Some (g, p) -> (List.length p < 3)%nat -> 0 <= i < 512 ->
    word (phys s) a i &? PAGE_PRESENT = true ->
    own !! Z.land (word (phys s) a i) ADDR_MASK = Some (dest g (p ++ [i]));
  tw_pmm : pmm.wf (pmm_state s);
  tw_frames pfn : is_Some (pmm.pages (pmm_state s) !! pfn) ->
    0 < pfn < 1099511627776 /\ page_ok (phys s) (pfn * PAGE_SIZE);
  tw_lists g m pfn : pagemaps s !! g = Some m -> pfn ∈ page_table_pages_list m ->
    pmm.allocated (pmm_state s) pfn }.

(** ** Words *)

Lemma pt_index_range virt sh : 0 <= pt_index virt sh < 512.
Proof.
  unfold pt_index. change 511 with (Z.ones 9). rewrite Z.land_ones by lia.
  pose proof (Z.mod_pos_bound (Z.shiftr virt sh) (2 ^ 9) ltac:(lia)). lia.
Qed.

Lemma read_word_ok s a i :
  page_ok (phys s) a -> 0 <= i < 512 -> read_word s a i = Ret (word (phys s) a i).
Proof.
  intros (ws & Hws & Hlen) Hi. unfold read_word, word. rewrite Hws. simpl.
  destruct (lookup_lt_is_Some_2 ws (Z.to_nat i)) as [w Hw]; [lia|]. by rewrite Hw.
Qed.

Lemma write_word_ok s a i v :
  page_ok (phys s) a -> 0 <= i < 512 ->
  exists ws, phys s !! a = Some ws /\ List.length ws = 512%nat /\
    write_word s a i v = Ret (s <| phys ::= fun m => <[a := <[Z.to_nat i := v]> ws]> m |>).
Proof.
  intros (ws & Hws & Hlen) Hi. exists ws. split_and!; [done..|]. unfold write_word. rewrite Hws. simpl.
  destruct (lookup_lt_is_Some_2 ws (Z.to_nat i)) as [w Hw]; [lia|]. by rewrite Hw.
Qed.

Lemma word_insert ph a ws i v b j :
  ph !! a = Some ws -> List.length ws = 512%nat -> 0 <= i < 512 -> 0 <= j < 512 ->
  word (<[a := <[Z.to_nat i := v]> ws]> ph) b j =
    if decide (b = a /\ j = i) then v else word ph b j.
Proof.
  intros Hws Hlen Hi Hj. unfold word. destruct (decide (b = a)) as [->|].
  - rewrite lookup_insert_eq, Hws. simpl. case_decide as Hd.
    + destruct Hd as [_ ->]. by rewrite list_lookup_insert_eq by lia.
    + rewrite list_lookup_insert_ne; [done|]. intros ?. apply Hd. split; [done|lia].
  - rewrite lookup_insert_ne by done. rewrite decide_False by naive_solver. done.
Qed.

Lemma page_ok_insert ph a ws b :
  List.length ws = 512%nat -> page_ok ph b -> page_ok (<[a := ws]> ph) b.
Proof.
  intros Hlen (ws' & Hws & Hlen'). destruct (decide (b = a)) as [->|].
  - exists ws. by rewrite lookup_insert_eq.
  - exists ws'. by rewrite lookup_insert_ne.
Qed.

(** An entry made of a frame address and low flag bits. *)
Lemma entry_addr n f :
  0 <= n < 1099511627776 -> 0 <= f < 4096 -> Z.land (n * PAGE_SIZE .| f) ADDR_MASK = n * PAGE_SIZE.
Proof.
  intros Hn Hf. unfold PAGE_SIZE, ADDR_MASK. change 4096 with (2 ^ 12).
  rewrite <- Z.shiftl_mul_pow2 by lia. change 4503599627366400 with (Z.shiftl (Z.ones 40) 12).
  apply Z.bits_inj'. intros k Hk. rewrite Z.land_spec, Z.lor_spec, !Z.shiftl_spec by lia.
  destruct (decide (k < 12)).
  - rewrite !(Z.testbit_neg_r _ (k - 12)) by lia. by rewrite andb_false_r.
  - assert (Z.testbit f k = false) as ->.
    { destruct (decide (f = 0)) as [->|]; [apply Z.testbit_0_l|].
      apply Z.bits_above_log2; [lia|]. apply Z.log2_lt_pow2; [lia|].
      pose proof (Z.pow_le_mono_r 2 12 k ltac:(lia) ltac:(lia)). lia. }
    rewrite orb_false_r. destruct (decide (k - 12 < 40)).
    + rewrite Z.ones_spec_low by lia. by rewrite andb_true_r.
    + rewrite Z.ones_spec_high by lia. rewrite andb_false_r. symmetry.
      destruct (decide (n = 0)) as [->|]; [apply Z.testbit_0_l|].
      apply Z.bits_above_log2; [lia|].
      apply Z.lt_le_trans with 40; [|lia]. apply Z.log2_lt_pow2; lia.
Qed.

Lemma table_entry n (Hn : 0 <= n < 1099511627776) :
  let e := n * PAGE_SIZE .| PAGE_PRESENT .| PAGE_WRITABLE .| PAGE_USER in
  e &? PAGE_PRESENT = true /\ Z.land e ADDR_MASK = n * PAGE_SIZE.
Proof.
  simpl. rewrite <- !Z.lor_assoc. change (PAGE_PRESENT .| (PAGE_WRITABLE .| PAGE_USER)) with 7.
  split; [|apply entry_addr; lia]. unfold flag, PAGE_PRESENT.
  rewrite Z.land_lor_distr_l. change (Z.land 7 1) with 1.
  assert (Z.land (n * PAGE_SIZE) 1 = 0) as ->; [|done].
  change 1 with (Z.ones 1). rewrite Z.land_ones by lia. unfold PAGE_SIZE. lia.
Qed.

(** ** Walks *)

Definition index_ok (i : Z) : Prop := 0 <= i < 512.

Lemma dest_app g p i l :
  dest g p = (g, p) -> dest (fst (dest g (p ++ [i]))) (p ++ i :: l) = dest g (p ++ i :: l).
Proof. destruct p as [|x p]; simpl; unfold dest; repeat case_match; simpl in *; congruence. Qed.

Lemma dest_snd g p : snd (dest g p) = p.
Proof. unfold dest. by repeat case_match. Qed.

Section walks.
Variable (s : machine) (own : gmap Z owner).
Hypothesis Hwf : tables_wf s own.

(** The next table of a walk, with its owner. *)
Lemma walk_child x gx px j :
  own !! x = Some (gx, px) -> (List.length px < 3)%nat -> index_ok j ->
  word (phys s) x j &? PAGE_PRESENT = true ->
  exists gy, own !! Z.land (word (phys s) x j) ADDR_MASK = Some (gy, px ++ [j]) /\
    forall l, dest gy ((px ++ [j]) ++ l) = dest gx (px ++ j :: l).
Proof.
  intros Hx Hl Hj Hp. pose proof (tw_child s own Hwf x gx px j Hx Hl Hj Hp) as Hc.
  pose proof (tw_table s own Hwf x gx px Hx) as (Hd & _).
  exists (fst (dest gx (px ++ [j]))). split.
  - rewrite Hc. f_equal. rewrite (surjective_pairing (dest gx (px ++ [j]))). by rewrite dest_snd.
  - intros l. rewrite <- app_assoc. by apply dest_app.
Qed.

(** Writing entry [i] of the last-level table [t] matters to one path only. *)
Lemma walk_write t gt pt i ws v :
  own !! t = Some (gt, pt) -> List.length pt = 3%nat -> index_ok i ->
  phys s !! t = Some ws -> List.length ws = 512%nat ->
  forall l x gx px, own !! x = Some (gx, px) -> (List.length px + List.length l = 4)%nat ->
    Forall index_ok l -> dest gx (px ++ l) <> (gt, pt ++ [i]) ->
    walk (<[t := <[Z.to_nat i := v]> ws]> (phys s)) x l = walk (phys s) x l.
Proof.
  intros Ht Hpt Hi Hws Hlen l. induction l as [|j l IH]; intros x gx px Hx Hl Hok Hne; [done|].
  apply Forall_cons in Hok as [Hj Hok]. cbn [walk]. rewrite word_insert by done.
  destruct l as [|j' l].
  - rewrite decide_False; [done|]. intros [-> ->]. apply Hne. rewrite Ht in Hx. simplify_eq.
    pose proof (tw_table s own Hwf t gx px Ht) as (Hd & _).
    destruct px; [done|]. simpl in *. unfold dest in *. repeat case_match; congruence.
  - simpl in Hl. rewrite decide_False by (intros [-> _]; rewrite Ht in Hx; simplify_eq; lia).
    destruct (word (phys s) x j &? PAGE_PRESENT) eqn:Hp; [|done].
    destruct (walk_child x gx px j Hx ltac:(lia) Hj Hp) as (gy & Hy & Hdest).
    apply (IH _ gy (px ++ [j])); [done|rewrite length_app; simpl; lia|done|].
    by rewrite Hdest.
Qed.

Lemma walk_zero ph n l : ph !! n = Some zero_page -> walk ph n l = 0.
Proof.
  intros Hn. destruct l as [|i l]; [done|]. cbn [walk].
  assert (word ph n i = 0) as ->.
  { unfold word. rewrite Hn. simpl. destruct (zero_page !! Z.to_nat i) eqn:Hz; [|done].
    by apply lookup_replicate in Hz as [-> _]. }
  by destruct l.
Qed.

Lemma reach_write t gt pt i ws v :
  own !! t = Some (gt, pt) -> List.length pt = 3%nat -> index_ok i ->
  phys s !! t = Some ws -> List.length ws = 512%nat ->
  forall l x gx px a, own !! x = Some (gx, px) -> (List.length px + List.length l = 3)%nat ->
    Forall index_ok l -> reach (phys s) x l a ->
    reach (<[t := <[Z.to_nat i := v]> ws]> (phys s)) x l a.
Proof.
  intros Ht Hpt Hi Hws Hlen l. induction l as [|j l IH]; intros x gx px a Hx Hl Hok; [done|].
  apply Forall_cons in Hok as [Hj Hok]. cbn [reach]. rewrite word_insert by done. simpl in Hl.
  rewrite decide_False by (intros [-> _]; rewrite Ht in Hx; simplify_eq; lia).
  intros [Hp Hr]. split; [done|].
  destruct (walk_child x gx px j Hx ltac:(lia) Hj Hp) as (gy & Hy & _).
  apply (IH _ gy (px ++ [j])); [done|rewrite length_app; simpl; lia|done|done].
Qed.

(** A new table for an entry that had none changes no translation. *)
Lemma walk_create t gt pt i ws v n :
  own !! t = Some (gt, pt) -> (List.length pt < 3)%nat -> index_ok i ->
  phys s !! t = Some ws -> List.length ws = 512%nat -> own !! n = None ->
  word (phys s) t i &? PAGE_PRESENT = false ->
  v &? PAGE_PRESENT = true -> Z.land v ADDR_MASK = n ->
  forall l x gx px, own !! x = Some (gx, px) -> (List.length px + List.length l = 4)%nat ->
    Forall index_ok l ->
    walk (<[t := <[Z.to_nat i := v]> ws]> (<[n := zero_page]> (phys s))) x l = walk (phys s) x l.
Proof.
  intros Ht Hpt Hi Hws Hlen Hn Hold Hv Hvn l. assert (t <> n) as Htn by congruence.
  set (ph := <[t := _]> _).
  assert (ph !! n = Some zero_page) as Hz by (unfold ph; by rewrite lookup_insert_ne, lookup_insert_eq).
  assert (Hword : forall x j, x <> n -> index_ok j ->
    word ph x j = if decide (x = t /\ j = i) then v else word (phys s) x j).
  { intros x j Hx Hj. unfold ph. rewrite word_insert; [|by rewrite lookup_insert_ne|done..].
    case_decide; [done|]. unfold word. by rewrite lookup_insert_ne. }
  induction l as [|j l IH]; intros x gx px Hx Hl Hok; [done|].
  apply Forall_cons in Hok as [Hj Hok]. cbn [walk].
  rewrite Hword by (done || congruence). simpl in Hl.
  case_decide as Hd.
  - destruct Hd as [-> ->]. rewrite Ht in Hx. simplify_eq. rewrite Hold, Hv.
    destruct l as [|j' l]; [simpl in *; lia|]. by apply walk_zero.
  - destruct l as [|j' l]; [done|].
    destruct (word (phys s) x j &? PAGE_PRESENT) eqn:Hp; [|done].
    destruct (walk_child x gx px j Hx ltac:(simpl in *; lia) Hj Hp) as (gy & Hy & _).
    apply (IH _ gy (px ++ [j])); [done|rewrite length_app; simpl in *; lia|done].
Qed.
End walks.

(** ** Creating tables *)

(** What creating tables leaves alone. *)
Record same_ranges (s s' : machine) : Prop := {
  sr_kern : kern s' = kern s;
  sr_ranges : ranges s' = ranges s;
  sr_pagemaps g : (fun m => (pml4 m, range_list m, cached_range_lookup m)) <$> pagemaps s' !! g =
    (fun m => (pml4 m, range_list m, cached_range_lookup m)) <$> pagemaps s !! g }.

Lemma same_ranges_refl s : same_ranges s s.
Proof. by split. Qed.
Lemma same_ranges_trans s1 s2 s3 : same_ranges s1 s2 -> same_ranges s2 s3 -> same_ranges s1 s3.
Proof. intros [] []. split; intros; etransitivity; eauto. Qed.

(** How many pages are free. *)
Definition free_count (s : machine) : nat := List.length (pmm.page_freelist (pmm_state s)).

Lemma allocated_ok s own pfn :
  tables_wf s own -> pmm.allocated (pmm_state s) pfn ->
  0 < pfn < 1099511627776 /\ page_ok (phys s) (pfn * PAGE_SIZE).
Proof. intros Hwf (pg & Hpg & _). apply (tw_frames s own Hwf). eauto. Qed.

Lemma pmm_phy pfn : 0 < pfn < 1099511627776 -> u64 (pfn * PAGE_SIZE) = pfn * PAGE_SIZE.
Proof. intros. apply u64_small. unfold PAGE_SIZE. lia. Qed.

(** The words after a table was cleared at [n] and linked from entry [i] of [t]. *)
Lemma word_create ph t n wt i e x j :
  ph !! t = Some wt -> List.length wt = 512%nat -> index_ok i -> t <> n ->
  x <> n -> index_ok j ->
  word (<[t := <[Z.to_nat i := e]> wt]> (<[n := zero_page]> ph)) x j =
    if decide (x = t /\ j = i) then e else word ph x j.
Proof.
  intros Ht Hlen Hi Htn Hx Hj. rewrite word_insert; [|by rewrite lookup_insert_ne|done..].
  case_decide; [done|]. unfold word. by rewrite lookup_insert_ne.
Qed.

Section create.
Variables (s : machine) (own : gmap Z owner) (g t : Z) (p : list Z) (i n e : Z) (pm' : pmm.t) (wt : list Z)
  (m : Pagemap) (l : list Z).
Hypothesis Hwf : tables_wf s own.
Hypothesis Ht : own !! t = Some (g, p).
Hypothesis Hp : (List.length p < 3)%nat.
Hypothesis Hi : index_ok i.
Hypothesis Hdest : dest g (p ++ [i]) = (g, p ++ [i]).
Hypothesis Hm : pagemaps s !! g = Some m.
Hypothesis Hl : forall q, q ∈ l -> q = n \/ q ∈ page_table_pages_list m.
Hypothesis Hn : 0 < n < 1099511627776.
Hypothesis Hnown : own !! (n * PAGE_SIZE) = None.
Hypothesis Hwt : phys s !! t = Some wt.
Hypothesis Hwtlen : List.length wt = 512%nat.
Hypothesis Hpm : pmm.wf pm'.
Hypothesis Hpages : forall q, is_Some (pmm.pages pm' !! q) <-> is_Some (pmm.pages (pmm_state s) !! q).
Hypothesis Halloc : forall q, pmm.allocated pm' q <-> q = n \/ pmm.allocated (pmm_state s) q.
Hypothesis He1 : e &? PAGE_PRESENT = true.
Hypothesis He2 : Z.land e ADDR_MASK = n * PAGE_SIZE.

Definition created : machine :=
  mkMachine (kern s) pm' (<[t := <[Z.to_nat i := e]> wt]> (<[n * PAGE_SIZE := zero_page]> (phys s)))
    (ranges s) (<[g := m <| page_table_pages_list := l |>]> (pagemaps s)) (next_addr s).

Lemma created_word x j : x <> n * PAGE_SIZE -> index_ok j ->
  word (phys created) x j = if decide (x = t /\ j = i) then e else word (phys s) x j.
Proof. intros. apply word_create; try done. intros ->. congruence. Qed.

Lemma created_new_word j : word (phys created) (n * PAGE_SIZE) j = 0.
Proof.
  unfold word, created. simpl. rewrite lookup_insert_ne by congruence. rewrite lookup_insert_eq. simpl.
  destruct (zero_page !! Z.to_nat j) eqn:Hz; [|done]. by apply lookup_replicate in Hz as [-> _].
Qed.

Lemma created_wf : tables_wf created (<[n * PAGE_SIZE := (g, p ++ [i])]> own).
Proof.
  assert (Hnew : forall x o, own !! x = Some o -> (<[n * PAGE_SIZE := (g, p ++ [i])]> own) !! x = Some o).
  { intros x o Hx. rewrite lookup_insert_ne by congruence. done. }
  split; simpl; [| | |done| |].
  - intros g' m' Hm'. apply Hnew. destruct (decide (g' = g)) as [->|].
    + rewrite lookup_insert_eq in Hm'. injection Hm' as <-. simpl. by apply (tw_root s own Hwf).
    + rewrite lookup_insert_ne in Hm' by done. by apply (tw_root s own Hwf).
  - intros a g' p' Ha. destruct (decide (a = n * PAGE_SIZE)) as [->|].
    + rewrite lookup_insert_eq in Ha. injection Ha as <- <-. split_and!; [done| |].
      * rewrite length_app. simpl. lia.
      * exists n. split; [done|]. apply Halloc. by left.
    + rewrite lookup_insert_ne in Ha by done.
      destruct (tw_table s own Hwf a g' p' Ha) as (? & ? & pfn & ? & ?). split_and!; [done..|].
      exists pfn. split; [done|]. apply Halloc. by right.
  - intros a g' p' j Ha Hlen Hj Hw. fold (phys created) in *. change (<[t:=_]> _) with (phys created) in *.
    destruct (decide (a = n * PAGE_SIZE)) as [->|]; [by rewrite created_new_word in Hw|].
    rewrite lookup_insert_ne in Ha by done. rewrite created_word in Hw |- * by done.
    case_decide as Hd.
    + destruct Hd as [-> ->]. rewrite He2, lookup_insert_eq. simplify_eq. by rewrite Hdest.
    + apply Hnew. by apply (tw_child s own Hwf).
  - intros pfn Hpfn%Hpages. destruct (tw_frames s own Hwf pfn Hpfn) as [? ?]. split; [done|].
    apply page_ok_insert; [by rewrite length_insert|]. by apply page_ok_insert.
  - intros g' m' q Hm' Hq. apply Halloc. destruct (decide (g' = g)) as [->|].
    + rewrite lookup_insert_eq in Hm'. injection Hm' as <-. simpl in Hq.
      apply Hl in Hq as [?|?]; [by left|right]. by eapply tw_lists.
    + rewrite lookup_insert_ne in Hm' by done. right. by eapply tw_lists.
Qed.

Lemma created_pte (Hold : word (phys s) t i &? PAGE_PRESENT = false) g' virt :
  pte created g' virt = pte s g' virt.
Proof.
  unfold pte. unfold created at 1. simpl.
  assert (Hroot : forall m', pagemaps s !! g' = Some m' ->
    walk (phys created) (pml4 m') (indices virt) = walk (phys s) (pml4 m') (indices virt)).
  { intros m' Hm'. apply (walk_create s own Hwf t g p i wt e (n * PAGE_SIZE)) with g' []; try done.
    - by apply (tw_root s own Hwf).
    - repeat constructor; apply pt_index_range. }
  destruct (decide (g' = g)) as [->|].
  - rewrite lookup_insert_eq, Hm. simpl. by apply Hroot.
  - rewrite lookup_insert_ne by done. destruct (pagemaps s !! g') eqn:Hm'; [|done]. by apply Hroot.
Qed.
End create.

Lemma create_table s own g t p i :
  tables_wf s own -> own !! t = Some (g, p) -> (List.length p < 3)%nat -> index_ok i ->
  dest g (p ++ [i]) = (g, p ++ [i]) -> is_Some (pagemaps s !! g) -> (0 < free_count s)%nat ->
  word (phys s) t i &? PAGE_PRESENT = false ->
  exists n s', create_next_page_table s g t i = Ret (n, s') /\
    tables_wf s' (<[n := (g, p ++ [i])]> own) /\ own !! n = None /\ same_ranges s s' /\
    free_count s = S (free_count s') /\
    (forall q, pmm.allocated (pmm_state s) q -> pmm.allocated (pmm_state s') q) /\
    word (phys s') t i &? PAGE_PRESENT = true /\ Z.land (word (phys s') t i) ADDR_MASK = n /\
    (forall x j, own !! x <> None -> index_ok j -> (x, j) <> (t, i) -> word (phys s') x j = word (phys s) x j) /\
    forall g' virt, pte s' g' virt = pte s g' virt.
Proof.
  intros Hwf Ht Hp Hi Hdest [m Hm] Hfree Hold.
  unfold free_count in *. destruct (pmm.page_freelist (pmm_state s)) as [|n l] eqn:Hl; [simpl in *; lia|].
  destruct (alloc_page_spec (pmm_state s) n l) as (pm' & Hal & Hpwf & (pgn & Hpgn & Hnf) & Hl' & _ & Hpages & Hown);
    [apply (tw_pmm s own Hwf)|done|].
  destruct (tw_frames s own Hwf n) as [Hn (wn & Hwn & Hwnlen)]; [eauto|].
  pose proof (table_entry n ltac:(lia)) as [He1 He2].
  assert (Hnown : own !! (n * PAGE_SIZE) = None).
  { destruct (own !! (n * PAGE_SIZE)) as [[g' p']|] eqn:Ho; [|done].
    destruct (tw_table s own Hwf _ _ _ Ho) as (_ & _ & pfn & Heq & Hpfn).
    assert (pfn = n) as -> by (unfold PAGE_SIZE in *; lia). exfalso.
    apply (free_allocated (pmm_state s) n); [by exists pgn|done]. }
  destruct (tw_table s own Hwf t g p Ht) as (_ & _ & pt & -> & Hpt).
  destruct (allocated_ok s own pt Hwf Hpt) as [Hptr (wt & Hwt & Hwtlen)].
  assert (pt * PAGE_SIZE <> n * PAGE_SIZE) as Hne by congruence.
  unfold create_next_page_table, alloc_page_for_page_table, alloc_page. rewrite Hal. cbn [obind].
  unfold get_pagemap. simpl. rewrite Hm. simpl.
  unfold link_tail. rewrite decide_False.
  2:{ intros Hin. apply (free_allocated (pmm_state s) n); [by exists pgn|by eapply tw_lists]. }
  simpl. rewrite pmm_phy by lia. unfold clear_page. simpl. rewrite Hwn. simpl.
  set (e := _ .| PAGE_USER) in *. unfold write_word. simpl. rewrite lookup_insert_ne, Hwt by done. simpl.
  destruct (lookup_lt_is_Some_2 wt (Z.to_nat i)) as [w Hw]; [unfold index_ok in *; lia|]. rewrite Hw. simpl.
  exists (n * PAGE_SIZE), (created s g (pt * PAGE_SIZE) i n e pm' wt m (page_table_pages_list m ++ [n])).
  split; [done|].
  assert (Hword := created_word s own g (pt * PAGE_SIZE) p i n e pm' wt m (page_table_pages_list m ++ [n])
    Ht Hi Hnown Hwt Hwtlen).
  split_and!; [|done| | | | | | |].
  - apply created_wf; try done. intros q. rewrite elem_of_app, list_elem_of_singleton. tauto.
  - split; [done..|]. intros g'. simpl. destruct (decide (g' = g)) as [->|].
    + by rewrite lookup_insert_eq, Hm.
    + by rewrite lookup_insert_ne.
  - simpl. by rewrite Hl'.
  - intros q ?. apply Hown. by right.
  - rewrite Hword by done. by rewrite decide_True.
  - rewrite Hword by done. by rewrite decide_True.
  - intros x j Hx Hj Hxj. rewrite Hword; [|congruence|done]. rewrite decide_False; [done|]. naive_solver.
  - intros g' virt. by apply (created_pte s own) with (p := p).
Qed.

(** ** Finding entries *)

(** A state reached by creating tables. *)
Record grown (s s' : machine) (own own' : gmap Z owner) : Prop := {
  gr_wf : tables_wf s' own';
  gr_own x o : own !! x = Some o -> own' !! x = Some o;
  gr_ranges : same_ranges s s';
  gr_alloc q : pmm.allocated (pmm_state s) q -> pmm.allocated (pmm_state s') q;
  gr_word x j : own !! x <> None -> index_ok j -> word (phys s) x j &? PAGE_PRESENT = true ->
    word (phys s') x j = word (phys s) x j;
  gr_pte g virt : pte s' g virt = pte s g virt }.

Lemma grown_refl s own : tables_wf s own -> grown s s own own.
Proof. by split. Qed.

Lemma grown_trans s1 s2 s3 o1 o2 o3 : grown s1 s2 o1 o2 -> grown s2 s3 o2 o3 -> grown s1 s3 o1 o3.
Proof.
  intros G1 G2. split; [apply G2| | | | |].
  - intros x o Hx. by apply (gr_own _ _ _ _ G2), (gr_own _ _ _ _ G1).
  - eapply same_ranges_trans; [apply G1|apply G2].
  - intros q Hq. by apply (gr_alloc _ _ _ _ G2), (gr_alloc _ _ _ _ G1).
  - intros x j Hx Hj Hw. rewrite <- (gr_word _ _ _ _ G1 x j Hx Hj Hw).
    apply (gr_word _ _ _ _ G2); [|done|by rewrite (gr_word _ _ _ _ G1)].
    destruct (o1 !! x) as [o|] eqn:Ho; [|done]. by rewrite (gr_own _ _ _ _ G1 x o Ho).
  - intros g v. by rewrite (gr_pte _ _ _ _ G2), (gr_pte _ _ _ _ G1).
Qed.

Lemma grown_pagemap s s' own own' g :
  grown s s' own own' -> is_Some (pagemaps s !! g) -> is_Some (pagemaps s' !! g).
Proof.
  intros G [m Hm]. pose proof (sr_pagemaps _ _ (gr_ranges _ _ _ _ G) g) as H. rewrite Hm in H.
  destruct (pagemaps s' !! g); [eauto|done].
Qed.

Lemma owned_page_ok s own a g p : tables_wf s own -> own !! a = Some (g, p) -> page_ok (phys s) a.
Proof.
  intros Hwf Ha. destruct (tw_table s own Hwf a g p Ha) as (_ & _ & pfn & -> & Hal).
  by apply (allocated_ok s own pfn Hwf).
Qed.

Lemma next_table_create s own g t p i :
  tables_wf s own -> own !! t = Some (g, p) -> (List.length p < 3)%nat -> index_ok i ->
  dest g (p ++ [i]) = (g, p ++ [i]) -> is_Some (pagemaps s !! g) -> (0 < free_count s)%nat ->
  exists a s' own', next_table s g t i true = Ret (Some a, s') /\ grown s s' own own' /\
    own' !! a = Some (g, p ++ [i]) /\ (free_count s <= S (free_count s'))%nat /\
    word (phys s') t i &? PAGE_PRESENT = true /\ Z.land (word (phys s') t i) ADDR_MASK = a.
Proof.
  intros Hwf Ht Hp Hi Hd Hm Hf. unfold next_table.
  rewrite read_word_ok by (done || by eapply owned_page_ok). cbn [obind].
  destruct (word (phys s) t i &? PAGE_PRESENT) eqn:Hw.
  - eexists _, s, own. split; [reflexivity|]. split_and!; [by apply grown_refl| |lia|done|done].
    rewrite <- Hd. by apply (tw_child s own Hwf).
  - destruct (create_table s own g t p i) as (n & s' & -> & Hwf' & Hn & Hsr & Hfc & Hal & H1 & H2 & Hwd & Hpte);
      try done. cbn [obind].
    eexists n, s', _. split; [done|]. split_and!; [|by rewrite lookup_insert_eq|lia|done|done].
    split; [done| |done|done| |done].
    + intros x o Hx. rewrite lookup_insert_ne by congruence. done.
    + intros x j Hx Hj Hpr. apply Hwd; [done..|]. intros [= -> ->]. congruence.
Qed.

Definition user_virt (virt : Z) : Prop := 0 <= virt < 140737488355328.

Lemma user_index virt : user_virt virt -> pt_index virt 39 < 256.
Proof.
  unfold user_virt, pt_index. intros H. change 511 with (Z.ones 9). rewrite Z.land_ones, Z.shiftr_div_pow2 by lia.
  assert (virt / 2 ^ 39 < 256) by (apply Z.div_lt_upper_bound; lia).
  assert (0 <= virt / 2 ^ 39) by (apply Z.div_pos; lia).
  rewrite Z.mod_small; lia.
Qed.

Lemma user_dest g virt l : user_virt virt -> dest g (pt_index virt 39 :: l) = (g, pt_index virt 39 :: l).
Proof. intros H%user_index. unfold dest. by rewrite (proj2 (Z.leb_gt _ _)). Qed.

(** With [create_missing], the entry of a user address always exists. *)
Lemma find_create s own g virt :
  tables_wf s own -> is_Some (pagemaps s !! g) -> user_virt virt -> (3 <= free_count s)%nat ->
  exists a s' own', find_page_table_entry s g virt true = Ret (Some (a, pt_index virt 12), s') /\
    grown s s' own own' /\ (free_count s <= 3 + free_count s')%nat /\
    own' !! a = Some (g, [pt_index virt 39; pt_index virt 30; pt_index virt 21]) /\
    reaches s' g virt a.
Proof.
  intros Hwf [m Hm] Hu Hf. unfold find_page_table_entry, get_pagemap. rewrite Hm. cbn [deref obind].
  pose proof (pt_index_range virt) as Hi. pose proof (tw_root s own Hwf g m Hm) as Hroot.
  destruct (next_table_create s own g (pml4 m) [] (pt_index virt 39) Hwf Hroot)
    as (a1 & s1 & own1 & -> & G1 & Ho1 & Hf1 & P1 & M1);
    [simpl; lia|apply Hi|by apply user_dest|eauto|lia|]. cbn [obind app] in *.
  pose proof (grown_pagemap _ _ _ _ g G1 (ex_intro _ m Hm)) as Hg1.
  destruct (next_table_create s1 own1 g a1 [pt_index virt 39] (pt_index virt 30)
    (gr_wf _ _ _ _ G1) Ho1) as (a2 & s2 & own2 & -> & G2 & Ho2 & Hf2 & P2 & M2);
    [simpl; lia|apply Hi|by apply user_dest|done|lia|]. cbn [obind app] in *.
  pose proof (grown_pagemap _ _ _ _ g G2 Hg1) as Hg2.
  destruct (next_table_create s2 own2 g a2 [pt_index virt 39; pt_index virt 30] (pt_index virt 21)
    (gr_wf _ _ _ _ G2) Ho2) as (a3 & s3 & own3 & -> & G3 & Ho3 & Hf3 & P3 & M3);
    [simpl; lia|apply Hi|by apply user_dest|done|lia|]. cbn [obind app] in *.
  eexists a3, s3, own3. split; [reflexivity|].
  pose proof (grown_trans _ _ _ _ _ _ G2 G3) as G23. pose proof (grown_trans _ _ _ _ _ _ G1 G23) as G123.
  split_and!; [done|lia|done|].
  assert (exists m3, pagemaps s3 !! g = Some m3 /\ pml4 m3 = pml4 m) as (m3 & Hm3 & Hpml).
  { pose proof (sr_pagemaps _ _ (gr_ranges _ _ _ _ G123) g) as H. rewrite Hm in H.
    destruct (pagemaps s3 !! g) as [m3|]; [|done]. exists m3. split; [done|]. by simplify_eq/=. }
  exists m3. split; [done|]. rewrite Hpml. cbn [reach].
  rewrite (gr_word _ _ _ _ G23 (pml4 m)), P1, M1 by
    (done || apply Hi || (rewrite (gr_own _ _ _ _ G1 _ _ Hroot); done)).
  split; [done|].
  rewrite (gr_word _ _ _ _ G3 a1), P2, M2 by
    (done || apply Hi || (rewrite (gr_own _ _ _ _ G2 _ _ Ho1); done)).
  split; [done|].
  by rewrite P3, M3.
Qed.

(** Without [create_missing], the entry found is the one the processor uses. *)
Lemma find_existing s own g virt m :
  tables_wf s own -> pagemaps s !! g = Some m ->
  (find_page_table_entry s g virt false = Ret (None, s) /\ pte s g virt = 0) \/
  (exists a gx px, find_page_table_entry s g virt false = Ret (Some (a, pt_index virt 12), s) /\
     own !! a = Some (gx, px) /\ List.length px = 3%nat /\
     dest gx (px ++ [pt_index virt 12]) = dest g (indices virt) /\
     reaches s g virt a).
Proof.
  intros Hwf Hm. unfold find_page_table_entry, get_pagemap, pte, reaches, indices. rewrite Hm.
  cbn [deref obind walk]. unfold next_table.
  pose proof (pt_index_range virt) as Hi. pose proof (tw_root s own Hwf g m Hm) as Hroot.
  rewrite (read_word_ok s (pml4 m)) by (apply Hi || by eapply owned_page_ok). cbn [obind].
  destruct (word (phys s) (pml4 m) _ &? PAGE_PRESENT) eqn:P1; cbn [obind]; [|by left].
  destruct (walk_child s own Hwf _ g [] _ Hroot ltac:(simpl; lia) (Hi 39) P1) as (g1 & Ho1 & D1).
  set (a1 := Z.land _ ADDR_MASK) in *. cbn [app] in *.
  rewrite (read_word_ok s a1) by (apply Hi || by eapply owned_page_ok). cbn [obind].
  destruct (word (phys s) a1 _ &? PAGE_PRESENT) eqn:P2; cbn [obind]; [|by left].
  destruct (walk_child s own Hwf _ g1 _ _ Ho1 ltac:(simpl; lia) (Hi 30) P2) as (g2 & Ho2 & D2).
  set (a2 := Z.land (word (phys s) a1 _) ADDR_MASK) in *. cbn [app] in *.
  rewrite (read_word_ok s a2) by (apply Hi || by eapply owned_page_ok). cbn [obind].
  destruct (word (phys s) a2 _ &? PAGE_PRESENT) eqn:P3; cbn [obind]; [|by left].
  destruct (walk_child s own Hwf _ g2 _ _ Ho2 ltac:(simpl; lia) (Hi 21) P3) as (g3 & Ho3 & D3).
  right. eexists _, g3, _. split; [reflexivity|]. split; [exact Ho3|]. split; [done|].
  split; [cbn [app] in *; by rewrite D3, D2, D1|]. by exists m.
Qed.

(** Writing an entry of the last level. *)
Lemma write_leaf s own a g p i v :
  tables_wf s own -> own !! a = Some (g, p) -> List.length p = 3%nat -> index_ok i ->
  exists ph, write_word s a i v = Ret (s <| phys := ph |>) /\
    tables_wf (s <| phys := ph |>) own /\ word ph a i = v /\
    (forall b ws, phys s !! b = Some ws -> b <> a -> ph !! b = Some ws) /\
    (forall g' virt b, reaches s g' virt b -> reaches (s <| phys := ph |>) g' virt b) /\
    forall g' virt, dest g' (indices virt) <> (g, p ++ [i]) ->
      pte (s <| phys := ph |>) g' virt = pte s g' virt.
Proof.
  intros Hwf Ha Hp Hi. pose proof (owned_page_ok s own a g p Hwf Ha) as Hok.
  destruct (write_word_ok s a i v Hok Hi) as (ws & Hws & Hlen & ->).
  exists (<[a := <[Z.to_nat i := v]> ws]> (phys s)). split; [done|]. split_and!.
  - destruct Hwf as [W1 W2 W3 W4 W5 W6]. split; simpl; try done.
    + intros x gx px j Hx Hl Hj. rewrite word_insert by done.
      rewrite decide_False by (intros [-> _]; rewrite Ha in Hx; simplify_eq; lia). by apply W3.
    + intros pfn Hpfn. destruct (W5 pfn Hpfn). split; [done|]. apply page_ok_insert; [|done].
      by rewrite length_insert.
  - rewrite word_insert by done. by rewrite decide_True.
  - intros b ws' Hb Hne. by rewrite lookup_insert_ne.
  - intros g' virt b (m & Hm & Hr). exists m. split; [done|]. cbn [upd phys].
    apply (reach_write s own Hwf a g p i ws v) with g' []; try done.
    + by apply (tw_root s own Hwf).
    + repeat constructor; apply pt_index_range.
  - intros g' virt Hd. unfold pte. cbn [upd pagemaps]. unfold machine_settable.
    destruct (pagemaps s !! g') as [m|] eqn:Hm; [|done].
    apply (walk_write s own Hwf a g p i ws v) with g' []; try done.
    + by apply (tw_root s own Hwf).
    + repeat constructor; apply pt_index_range.
Qed.

(** The page of an address, among the 2^36 the tables tell apart. *)
Definition page_of (virt : Z) : Z := virt / PAGE_SIZE mod 68719476736.

Lemma indices_page v1 v2 : indices v1 = indices v2 -> page_of v1 = page_of v2.
Proof.
  unfold indices, pt_index, page_of, PAGE_SIZE. change 511 with (Z.ones 9). intros H.
  rewrite !Z.land_ones, !Z.shiftr_div_pow2 in H by lia.
  assert (v1 / 2 ^ 39 mod 2 ^ 9 = v2 / 2 ^ 39 mod 2 ^ 9) by congruence.
  assert (v1 / 2 ^ 30 mod 2 ^ 9 = v2 / 2 ^ 30 mod 2 ^ 9) by congruence.
  assert (v1 / 2 ^ 21 mod 2 ^ 9 = v2 / 2 ^ 21 mod 2 ^ 9) by congruence.
  assert (v1 / 2 ^ 12 mod 2 ^ 9 = v2 / 2 ^ 12 mod 2 ^ 9) by congruence. clear H.
  change (2 ^ 39) with 549755813888 in *. change (2 ^ 30) with 1073741824 in *.
  change (2 ^ 21) with 2097152 in *. change (2 ^ 12) with 4096 in *. change (2 ^ 9) with 512 in *. lia.
Qed.

Lemma indices_of_page v1 v2 : page_of v1 = page_of v2 -> indices v1 = indices v2.
Proof.
  unfold indices, pt_index, page_of, PAGE_SIZE. change 511 with (Z.ones 9). intros H.
  rewrite !Z.land_ones, !Z.shiftr_div_pow2 by lia.
  assert (Hdiv : forall v c, 0 < c -> v / (4096 * c) = v / 4096 / c) by (intros; by rewrite Z.div_div by lia).
  change (2 ^ 39) with (4096 * 134217728). change (2 ^ 30) with (4096 * 262144).
  change (2 ^ 21) with (4096 * 512). change (2 ^ 12) with 4096. change (2 ^ 9) with 512.
  rewrite !Hdiv by lia. clear Hdiv. revert H. generalize (v1 / 4096), (v2 / 4096). intros q1 q2 H.
  f_equal; [lia|]. f_equal; [lia|]. f_equal; [lia|]. f_equal. lia.
Qed.

(** The path of another page, or of another pagemap, is another path. *)
Lemma other_page g virt g' virt' :
  user_virt virt -> g' <> g \/ page_of virt' <> page_of virt -> dest g' (indices virt') <> (g, indices virt).
Proof.
  intros Hu Hne Hd.
  assert (indices virt' = indices virt) as Hi by (by rewrite <- (dest_snd g' (indices virt')), Hd).
  destruct Hne as [Hg|Hp]; [|by apply Hp, indices_page]. apply Hg. rewrite Hi in Hd.
  unfold indices in Hd. rewrite user_dest in Hd by done. congruence.
Qed.

(** [map_page] of a user address puts the translation there, for that address
    and no other: every other page of every pagemap, the kernel's included,
    translates as before, whatever tables had to be created. The forest of tables
    stays well formed, and the ranges are untouched. *)
Theorem map_page_translates s own g phy virt flags :
  tables_wf s own -> is_Some (pagemaps s !! g) -> user_virt virt -> (3 <= free_count s)%nat ->
  exists s' own', map_page s g phy virt flags = Ret s' /\ tables_wf s' own' /\ same_ranges s s' /\
    pte s' g virt = Z.land phy ADDR_MASK .| flags /\
    forall g' virt', g' <> g \/ page_of virt' <> page_of virt -> pte s' g' virt' = pte s g' virt'.
Proof.
  intros Hwf Hm Hu Hf.
  destruct (find_create s own g virt Hwf Hm Hu Hf) as (a & s1 & own1 & Hfind & G & _ & Ha & Hr).
  unfold map_page. rewrite Hfind. cbn [obind deref].
  pose proof (gr_wf _ _ _ _ G) as Hwf1. pose proof (pt_index_range virt 12) as Hi.
  rewrite read_word_ok by (done || by eapply owned_page_ok). cbn [obind].
  destruct (write_leaf s1 own1 a g _ (pt_index virt 12) (Z.land phy ADDR_MASK .| flags) Hwf1 Ha eq_refl Hi)
    as (ph & -> & Hwf2 & Hw & _ & Hr2 & Hother).
  eexists _, own1. split; [reflexivity|]. split; [done|]. split.
  { destruct (gr_ranges _ _ _ _ G). by split. }
  split; [by rewrite (pte_reaches _ _ _ _ (Hr2 _ _ _ Hr))|].
  intros g' virt' Hne. rewrite Hother; [by apply (gr_pte _ _ _ _ G)|].
  by apply other_page.
Qed.
