(* ===== verification/VmmFault.v ===== *)
(** * Page faults (mem/vmm.cpp, [Pagemap::handle_page_fault])

    A fault on an address of a range gives the page a frame: a fresh one for
    anonymous and file mappings, the one of the mapping for direct ones. *)

From S2P Require Import Prelude Algorithm Vector Links Sched SchedProps FdTable Pmm PmmProps Isr Vmm VmmTables.
Import mem.

(** ** What leaves the tables well formed *)

(** Pages allocated, or marked in their structures. *)
Lemma tables_wf_pmm s own pm' :
  tables_wf s own -> pmm.wf pm' ->
  (forall q, is_Some (pmm.pages pm' !! q) <-> is_Some (pmm.pages (pmm_state s) !! q)) ->
  (forall q, pmm.allocated (pmm_state s) q -> pmm.allocated pm' q) ->
  tables_wf (s <| pmm_state := pm' |>) own.
Proof.
  intros [W1 W2 W3 W4 W5 W6] Hpm Hp Hal. split; simpl; try done.
  - intros a g p Ha. destruct (W2 a g p Ha) as (? & ? & pfn & ? & ?). eauto 6.
  - intros pfn Hpfn%Hp. by apply W5.
  - eauto.
Qed.

Lemma tables_wf_ranges s own rs :
  tables_wf s own -> tables_wf (s <| ranges := rs |>) own.
Proof. by intros []. Qed.

(** A page that is no table. *)
Lemma word_other ph b ws a i : a <> b -> word (<[b := ws]> ph) a i = word ph a i.
Proof. intros. unfold word. by rewrite lookup_insert_ne. Qed.

Lemma walk_other s own b ws :
  tables_wf s own -> own !! b = None ->
  forall l x gx px, own !! x = Some (gx, px) -> (List.length px + List.length l = 4)%nat ->
    Forall index_ok l -> walk (<[b := ws]> (phys s)) x l = walk (phys s) x l.
Proof.
  intros Hwf Hb l. induction l as [|j l IH]; intros x gx px Hx Hl Hok; [done|].
  apply Forall_cons in Hok as [Hj Hok]. cbn [walk]. rewrite word_other by congruence.
  destruct l as [|j' l]; [done|]. destruct (_ &? PAGE_PRESENT) eqn:Hp; [|done].
  destruct (walk_child s own Hwf x gx px j Hx ltac:(simpl in *; lia) Hj Hp) as (gy & Hy & _).
  apply (IH _ gy (px ++ [j])); [done|rewrite length_app; simpl in *; lia|done].
Qed.

Lemma reach_other s own b ws :
  tables_wf s own -> own !! b = None ->
  forall l x gx px a, own !! x = Some (gx, px) -> (List.length px + List.length l = 3)%nat ->
    Forall index_ok l -> reach (phys s) x l a -> reach (<[b := ws]> (phys s)) x l a.
Proof.
  intros Hwf Hb l. induction l as [|j l IH]; intros x gx px a Hx Hl Hok; [done|].
  apply Forall_cons in Hok as [Hj Hok]. cbn [reach]. rewrite word_other by congruence.
  intros [Hp Hr]. split; [done|].
  destruct (walk_child s own Hwf x gx px j Hx ltac:(simpl in *; lia) Hj Hp) as (gy & Hy & _).
  apply (IH _ gy (px ++ [j])); [done|rewrite length_app; simpl in *; lia|done..].
Qed.

Lemma write_page_data s own b ws :
  tables_wf s own -> own !! b = None -> List.length ws = 512%nat ->
  tables_wf (s <| phys := <[b := ws]> (phys s) |>) own /\
  (forall g virt, pte (s <| phys := <[b := ws]> (phys s) |>) g virt = pte s g virt) /\
  (forall g virt a, reaches s g virt a -> reaches (s <| phys := <[b := ws]> (phys s) |>) g virt a).
Proof.
  intros Hwf Hb Hlen. split_and!.
  - pose proof Hwf as [W1 W2 W3 W4 W5 W6]. split; simpl; try done.
    + intros a g p i Ha Hl Hi. rewrite word_other by congruence. by apply W3.
    + intros pfn Hpfn. destruct (W5 pfn Hpfn). split; [done|]. by apply page_ok_insert.
  - intros g virt. unfold pte. cbn [upd pagemaps]. destruct (pagemaps s !! g) as [m|] eqn:Hm; [|done].
    apply (walk_other s own b ws Hwf Hb) with g []; [by apply (tw_root s own Hwf)|done|].
    repeat constructor; apply pt_index_range.
  - intros g virt a (m & Hm & Hr). exists m. split; [done|]. cbn [upd phys].
    apply (reach_other s own b ws Hwf Hb) with g []; [by apply (tw_root s own Hwf)|done| |done].
    repeat constructor; apply pt_index_range.
Qed.

(** A frame for the page at [virt] of range [r]: taken, linked and cleared. *)
Lemma fresh_frame s own r x virt :
  tables_wf s own -> (0 < free_count s)%nat -> ranges s !! r = Some x ->
  (forall q, q ∈ page_list x -> pmm.allocated (pmm_state s) q) ->
  exists n s1 s2 pm',
    alloc_page s = Ret (n, s1) /\ link_page s1 r n virt = Ret s2 /\
    clear_page s2 (n * PAGE_SIZE) = Ret (s2 <| phys := <[n * PAGE_SIZE := zero_page]> (phys s2) |>) /\
    u64 (n * PAGE_SIZE) = n * PAGE_SIZE /\ own !! (n * PAGE_SIZE) = None /\
    pmm.is_free (pmm_state s) n /\ pmm.allocated pm' n /\
    s2 = put_range r (x <| page_list ::= fun l => l ++ [n] |>) (s <| pmm_state := pm' |>) /\
    tables_wf s2 own.
Proof.
  intros Hwf Hf Hr Hlist. unfold free_count in Hf.
  destruct (pmm.page_freelist (pmm_state s)) as [|n l] eqn:Hl; [simpl in *; lia|].
  destruct (alloc_page_spec (pmm_state s) n l) as (pm1 & Hal & Hpwf & Hfree & Hl' & _ & Hpages & Hown);
    [apply (tw_pmm s own Hwf)|done|].
  destruct Hfree as (pgn & Hpgn & Hnf).
  destruct (tw_frames s own Hwf n) as [Hn (wn & Hwn & Hwnlen)]; [eauto|].
  destruct (proj2 (Hown n) (or_introl eq_refl)) as (pg1 & Hpg1 & Hpg1f).
  set (pm2 := pmm.mk (<[n := pmm.mkPage (pmm.free pg1) virt]> (pmm.pages pm1)) (pmm.page_freelist pm1)
                     (pmm.region_list pm1) (pmm.stats pm1)).
  assert (Hpm2 : pmm.wf pm2).
  { apply (wf_mark pm1); [done|eauto|apply Hpwf| |apply Hpwf].
    intros q. case_decide; [subst|done]. simpl. rewrite Hpg1f. split; [|done].
    intros (? & ? & ?)%(pmm.wf_free pm1 Hpwf). congruence. }
  assert (Hal2 : forall q, pmm.allocated pm2 q <-> q = n \/ pmm.allocated (pmm_state s) q).
  { intros q. rewrite <- Hown. etransitivity; [apply (allocated_mark pm1)|]. simpl. case_decide; [|done].
    subst. split; [|done]. intros _. by exists pg1. }
  exists n, (s <| pmm_state := pm1 |>). eexists _, pm2.
  unfold alloc_page. rewrite Hal. split; [done|]. unfold link_page, get_range. simpl. rewrite Hpg1. simpl.
  rewrite Hr. simpl. unfold link_tail. rewrite decide_False.
  2:{ intros Hin. apply (free_allocated (pmm_state s) n); [by exists pgn|by apply Hlist]. }
  simpl. split; [reflexivity|]. split; [unfold clear_page; simpl; by rewrite Hwn|].
  split; [by apply pmm_phy|]. split.
  { destruct (own !! (n * PAGE_SIZE)) as [[g' p']|] eqn:Ho; [|done].
    destruct (tw_table s own Hwf _ _ _ Ho) as (_ & _ & pfn & Heq & Hpfn).
    assert (pfn = n) as -> by (unfold PAGE_SIZE in *; lia). exfalso.
    apply (free_allocated (pmm_state s) n); [by exists pgn|done]. }
  split; [by exists pgn|]. split; [apply Hal2; by left|]. split; [done|].
  enough (Hw : tables_wf (s <| pmm_state := pm2 |>) own) by (by destruct Hw; split).
  apply tables_wf_pmm; [done|done| |].
  - intros q. rewrite <- Hpages. simpl. destruct (decide (q = n)) as [->|].
    + rewrite lookup_insert_eq, Hpg1. split; eauto.
    + by rewrite lookup_insert_ne.
  - intros q ?. apply Hal2. by right.
Qed.

(** ** Looking a range up *)

Lemma find_covering_same s s' l virt : ranges s' = ranges s -> find_covering s' l virt = find_covering s l virt.
Proof.
  intros Hr. induction l as [|r l IH]; [done|]. cbn [find_covering]. unfold get_range. rewrite Hr, IH. done.
Qed.

(** The lookup changes the cache of the pagemap at most. *)
Definition recached (g : Z) (s c : machine) : Prop :=
  c = s \/ exists m r, pagemaps s !! g = Some m /\ c = put_pagemap g (m <| cached_range_lookup := Some r |>) s.

Definition lookup_range (s : machine) (g virt : Z) : outcome (option Z) :=
  let! (o, _) := addr_to_range s g virt in Ret o.

Lemma lookup_range_ret s g virt o :
  lookup_range s g virt = Ret o -> exists c, addr_to_range s g virt = Ret (o, c) /\ recached g s c.
Proof.
  unfold lookup_range. intros H. apply obind_Ret in H as ([o' c] & E & [= ->]). exists c. split; [done|].
  unfold addr_to_range, get_pagemap in E.
  destruct (pagemaps s !! g) as [m|] eqn:Hm; [|done]. cbn [deref obind] in E.
  apply obind_Ret in E as (hit & _ & E). destruct hit; [injection E as _ <-; by left|].
  apply obind_Ret in E as (o1 & _ & E). apply obind_Ret in E as ([r|] & _ & E).
  - injection E as _ <-. right. eauto.
  - injection E as _ <-. by left.
Qed.

Lemma lookup_range_same s s' g virt : same_ranges s s' -> lookup_range s' g virt = lookup_range s g virt.
Proof.
  intros [_ Hr Hp]. unfold lookup_range, addr_to_range, get_pagemap, get_range.
  pose proof (Hp g) as Hg. pose proof (Hp kernel_pagemap) as Hk. clear Hp.
  destruct (pagemaps s !! g) as [m|], (pagemaps s' !! g) as [m'|]; try done. injection Hg as _ Hl Hc.
  cbn [deref obind]. rewrite Hr, Hc, Hl, (find_covering_same s s' _ _ Hr).
  destruct (cached_range_lookup m); [destruct (ranges s !! _); [|done]|]; cbn [deref obind];
    try (destruct (covers _ _); [done|]).
  all: destruct (find_covering s (range_list m) virt) as [[r|]| |]; cbn [obind]; try done.
  all: destruct (g =? kernel_pagemap); [done|].
  all: destruct (pagemaps s !! kernel_pagemap), (pagemaps s' !! kernel_pagemap); try done.
  all: injection Hk as _ Hl' _; cbn [deref obind]; rewrite Hl', (find_covering_same s s' _ _ Hr).
  all: by destruct (find_covering s _ virt) as [[r|]| |].
Qed.

(** States with the same tables. *)
Record same_tables (s c : machine) : Prop := {
  st_phys : phys c = phys s;
  st_pmm : pmm_state c = pmm_state s;
  st_pagemaps g : (fun m => (pml4 m, page_table_pages_list m)) <$> pagemaps c !! g =
    (fun m => (pml4 m, page_table_pages_list m)) <$> pagemaps s !! g }.

Lemma same_tables_lookup s c g m' :
  same_tables s c -> pagemaps c !! g = Some m' ->
  exists m, pagemaps s !! g = Some m /\ pml4 m' = pml4 m /\ page_table_pages_list m' = page_table_pages_list m.
Proof.
  intros [_ _ H] Hc. specialize (H g). rewrite Hc in H.
  destruct (pagemaps s !! g) as [m|]; [|done]. exists m. by injection H as -> ->.
Qed.

Lemma same_tables_sym s c : same_tables s c -> same_tables c s.
Proof. intros []. by split. Qed.

Lemma same_tables_pte s c g v : same_tables s c -> pte c g v = pte s g v.
Proof.
  intros H. unfold pte. destruct (pagemaps c !! g) as [m'|] eqn:Hc.
  - destruct (same_tables_lookup s c g m' H Hc) as (m & -> & -> & _). by rewrite (st_phys s c H).
  - pose proof (st_pagemaps s c H g) as Hg. rewrite Hc in Hg. by destruct (pagemaps s !! g).
Qed.

Lemma same_tables_reaches s c g v a : same_tables s c -> reaches s g v a -> reaches c g v a.
Proof.
  intros H (m & Hm & Hr).
  destruct (same_tables_lookup c s g m (same_tables_sym _ _ H) Hm) as (m' & Hm' & Hp & _).
  exists m'. split; [done|]. by rewrite (st_phys s c H), <- Hp.
Qed.

Lemma same_tables_wf s c own : same_tables s c -> tables_wf s own -> tables_wf c own.
Proof.
  intros H [W1 W2 W3 W4 W5 W6]. pose proof (st_phys s c H) as Hph. pose proof (st_pmm s c H) as Hpm.
  split; rewrite ?Hph, ?Hpm; try done.
  - intros g m' (m & Hm & -> & _)%(same_tables_lookup s c _ _ H). by apply W1.
  - intros g m' q (m & Hm & _ & ->)%(same_tables_lookup s c _ _ H). by eapply W6.
Qed.

Lemma same_tables_pagemap s g m m' :
  pagemaps s !! g = Some m -> pml4 m' = pml4 m -> page_table_pages_list m' = page_table_pages_list m ->
  same_tables s (put_pagemap g m' s).
Proof.
  intros Hm Hp Hl. split; [done..|]. intros g'. simpl. destruct (decide (g' = g)) as [->|].
  - rewrite lookup_insert_eq, Hm. simpl. by rewrite Hp, Hl.
  - by rewrite lookup_insert_ne.
Qed.

Lemma recached_tables g s c : recached g s c -> same_tables s c /\ ranges c = ranges s /\ kern c = kern s.
Proof.
  intros [->|(m & r & Hm & ->)]; [by repeat split|]. split; [|done]. by apply (same_tables_pagemap s g m).
Qed.

(** ** Faults *)

Section faults.
Variable read_page : FileDescription -> Z -> list Z.
Hypothesis read_page_length : forall fd off, List.length (read_page fd off) = 512%nat.
Variables (s : machine) (own : gmap Z owner) (g virt : Z).
Hypothesis Hwf : tables_wf s own.
Hypothesis Hg : is_Some (pagemaps s !! g).
Hypothesis Hu : user_virt virt.
Hypothesis Hfree : (4 <= free_count s)%nat.

(** What a fault on a mapped address leaves: the translation [v] of the page,
    every other page as it was. *)
Definition mapped (v : Z) (s' : machine) : Prop :=
  (exists own', tables_wf s' own') /\ pte s' g virt = v /\
  forall g' virt', g' <> g \/ page_of virt' <> page_of virt -> pte s' g' virt' = pte s g' virt'.

(** Up to the lookup of the range. *)
Lemma fault_prefix o :
  lookup_range s g virt = Ret o ->
  exists a s1 s2 own2,
    find_page_table_entry s g virt true = Ret (Some (a, pt_index virt 12), s1) /\
    read_word s1 a (pt_index virt 12) = Ret (pte s g virt) /\
    addr_to_range s1 g virt = Ret (o, s2) /\
    tables_wf s2 own2 /\ own2 !! a = Some (g, [pt_index virt 39; pt_index virt 30; pt_index virt 21]) /\
    reaches s2 g virt a /\ ranges s2 = ranges s /\ kern s2 = kern s /\ (0 < free_count s2)%nat /\
    (forall q, pmm.allocated (pmm_state s) q -> pmm.allocated (pmm_state s2) q) /\
    (forall g' v, pte s2 g' v = pte s g' v).
Proof.
  intros Ho.
  destruct (find_create s own g virt Hwf Hg Hu ltac:(lia)) as (a & s1 & own1 & Hf & G & Hfc & Ha & Hr).
  pose proof (gr_wf _ _ _ _ G) as Hwf1.
  rewrite <- (lookup_range_same s s1) in Ho by apply G.
  destruct (lookup_range_ret s1 g virt o Ho) as (s2 & Hs2 & Hrec).
  destruct (recached_tables g s1 s2 Hrec) as (Hst & Hrs & Hk).
  exists a, s1, s2, own1. split; [done|]. split.
  { rewrite read_word_ok; [|by eapply owned_page_ok|apply pt_index_range].
    by rewrite <- (gr_pte _ _ _ _ G), (pte_reaches s1 g virt a Hr). }
  split; [done|]. split; [by apply (same_tables_wf s1 s2)|]. split; [done|].
  split; [by apply (same_tables_reaches s1)|].
  destruct (gr_ranges _ _ _ _ G) as [Hk1 Hrs1 _].
  split; [congruence|]. split; [congruence|].
  split; [unfold free_count in *; rewrite (st_pmm _ _ Hst); lia|].
  split; [intros q Hq; rewrite (st_pmm _ _ Hst); by apply (gr_alloc _ _ _ _ G)|].
  intros g' v. rewrite (same_tables_pte s1 s2) by done. apply (gr_pte _ _ _ _ G).
Qed.

(** The last step: the entry is written. *)
Lemma fault_write s2 own2 a v :
  tables_wf s2 own2 -> own2 !! a = Some (g, [pt_index virt 39; pt_index virt 30; pt_index virt 21]) ->
  reaches s2 g virt a -> (forall g' w, pte s2 g' w = pte s g' w) ->
  exists ph, write_word s2 a (pt_index virt 12) v = Ret (s2 <| phys := ph |>) /\
    mapped v (s2 <| phys := ph |>) /\ forall b ws, phys s2 !! b = Some ws -> b <> a -> ph !! b = Some ws.
Proof.
  intros Hwf2 Ha Hr Hpte.
  destruct (write_leaf s2 own2 a g _ (pt_index virt 12) v Hwf2 Ha eq_refl (pt_index_range _ _))
    as (ph & -> & Hwf3 & Hw & Hph & Hr3 & Hother).
  exists ph. split; [done|]. split; [|done]. split; [eauto|]. split.
  - by rewrite (pte_reaches _ _ _ _ (Hr3 _ _ _ Hr)).
  - intros g' virt' Hne. rewrite Hother by (by apply other_page). apply Hpte.
Qed.

(** A present page, or one without a range. *)
Lemma fault_refused fuel :
  pte s g virt &? PAGE_PRESENT = true \/ lookup_range s g virt = Ret None ->
  exists s', handle_page_fault read_page (S fuel) s g virt = Ret (- EFAULT, s') /\
    forall g' v, pte s' g' v = pte s g' v.
Proof.
  intros H. cbn [handle_page_fault].
  destruct (find_create s own g virt Hwf Hg Hu ltac:(lia)) as (a & s1 & own1 & Hf & G & _ & Ha & Hr).
  rewrite Hf. cbn [obind deref].
  rewrite read_word_ok; [|eapply owned_page_ok; [apply G|done]|apply pt_index_range]. cbn [obind].
  rewrite <- (pte_reaches s1 g virt a Hr), (gr_pte _ _ _ _ G).
  destruct (pte s g virt &? PAGE_PRESENT).
  { exists s1. split; [done|apply G]. }
  destruct H as [|H]; [done|]. rewrite <- (lookup_range_same s s1) in H by apply G.
  destruct (lookup_range_ret s1 g virt None H) as (s2 & -> & Hrec). cbn [obind].
  exists s2. split; [done|]. intros g' v.
  destruct (recached_tables g s1 s2 Hrec) as [Hst _].
  rewrite (same_tables_pte s1 s2) by done. apply (gr_pte _ _ _ _ G).
Qed.

Lemma tables_ne (own2 : gmap Z owner) a b o : own2 !! a = Some o -> own2 !! b = None -> b <> a.
Proof using. congruence. Qed.

(** In an anonymous range. *)
Lemma fault_anonymous fuel r x :
  pte s g virt &? PAGE_PRESENT = false -> lookup_range s g virt = Ret (Some r) ->
  ranges s !! r = Some x -> (forall q, q ∈ page_list x -> pmm.allocated (pmm_state s) q) ->
  type x = ANONYMOUS ->
  exists n s', handle_page_fault read_page (S fuel) s g virt = Ret (n * PAGE_SIZE, s') /\
    ~ pmm.allocated (pmm_state s) n /\ pmm.allocated (pmm_state s') n /\
    mapped (n * PAGE_SIZE .| page_flags x) s' /\ phys s' !! (n * PAGE_SIZE) = Some zero_page /\
    exists x', ranges s' !! r = Some x' /\ page_list x' = page_list x ++ [n].
Proof.
  intros Hnp Hr Hx Hlist Hty. cbn [handle_page_fault].
  destruct (fault_prefix (Some r) Hr) as
    (a & s1 & s2 & own2 & -> & Hrd & Hlk & Hwf2 & Ha & Hre & Hrs & Hk & Hfc & Hal & Hpte).
  cbn [obind deref]. rewrite Hrd. cbn [obind]. rewrite Hnp, Hlk. cbn [obind].
  unfold get_range. rewrite Hrs, Hx. cbn [deref obind]. rewrite Hty.
  destruct (fresh_frame s2 own2 r x (klib.align_down virt PAGE_SIZE) Hwf2 Hfc) as
    (n & s3 & s4 & pm' & -> & Hlink & Hclear & Hn & Hno & Hnf & Hna & Hs4 & Hwf4);
    [by rewrite Hrs|auto|]. cbn [obind]. rewrite Hlink. cbn [obind]. rewrite Hn, Hclear. cbn [obind].
  destruct (write_page_data s4 own2 (n * PAGE_SIZE) zero_page Hwf4 Hno eq_refl) as (Hwf5 & Hpte5 & Hre5).
  set (s5 := s4 <| phys := _ |>) in *.
  destruct (fault_write s5 own2 a (n * PAGE_SIZE .| page_flags x) Hwf5 Ha) as (ph & -> & Hmap & Hph).
  { apply Hre5. rewrite Hs4. by destruct Hre as (m & ? & ?); exists m. }
  { intros g' w. rewrite Hpte5, Hs4. apply Hpte. }
  cbn [obind]. exists n. eexists. split; [reflexivity|]. split_and!.
  - intros H%Hal. by apply (free_allocated (pmm_state s2) n).
  - simpl. unfold s5. rewrite Hs4. done.
  - done.
  - apply Hph; [unfold s5; simpl; by rewrite lookup_insert_eq|by eapply tables_ne].
  - simpl. unfold s5. rewrite Hs4. simpl. rewrite lookup_insert_eq. by eexists.
Qed.

(** In a file range. *)
Lemma fault_file fuel r x d fd :
  pte s g virt &? PAGE_PRESENT = false -> lookup_range s g virt = Ret (Some r) ->
  ranges s !! r = Some x -> (forall q, q ∈ page_list x -> pmm.allocated (pmm_state s) q) ->
  type x = FILE -> file x = Some d -> descriptions (kern s) !! d = Some fd ->
  exists n s', handle_page_fault read_page (S fuel) s g virt = Ret (n * PAGE_SIZE, s') /\
    ~ pmm.allocated (pmm_state s) n /\ pmm.allocated (pmm_state s') n /\
    mapped (n * PAGE_SIZE .| page_flags x) s' /\
    phys s' !! (n * PAGE_SIZE) =
      Some (read_page fd (u64 (klib.align_down virt PAGE_SIZE - original_base x + file_offset x))) /\
    exists x', ranges s' !! r = Some x' /\ page_list x' = page_list x ++ [n].
Proof.
  intros Hnp Hr Hx Hlist Hty Hd Hfd. cbn [handle_page_fault].
  destruct (fault_prefix (Some r) Hr) as
    (a & s1 & s2 & own2 & -> & Hrd & Hlk & Hwf2 & Ha & Hre & Hrs & Hk & Hfc & Hal & Hpte).
  cbn [obind deref]. rewrite Hrd. cbn [obind]. rewrite Hnp, Hlk. cbn [obind].
  unfold get_range. rewrite Hrs, Hx. cbn [deref obind]. rewrite Hty.
  destruct (fresh_frame s2 own2 r x (klib.align_down virt PAGE_SIZE) Hwf2 Hfc) as
    (n & s3 & s4 & pm' & -> & Hlink & Hclear & Hn & Hno & Hnf & Hna & Hs4 & Hwf4);
    [by rewrite Hrs|auto|]. cbn [obind]. rewrite Hlink. cbn [obind]. rewrite Hn, Hclear. cbn [obind].
  rewrite Hd. cbn [deref obind].
  assert (descriptions (kern s4) !! d = Some fd) as Hfd4 by (rewrite Hs4; simpl; by rewrite Hk).
  match goal with |- context [descriptions (kern ?y) !! d] => change (kern y) with (kern s4) end.
  rewrite Hfd4. cbn [deref obind].
  set (content := read_page fd _).
  destruct (write_page_data s4 own2 (n * PAGE_SIZE) content Hwf4 Hno (read_page_length _ _)) as (Hwf5 & Hpte5 & Hre5).
  match goal with |- context [write_word ?x _ _ _] => set (s5 := x) end.
  assert (s5 = s4 <| phys := <[n * PAGE_SIZE := content]> (phys s4) |>) as Hs5.
  { unfold s5. simpl. by rewrite insert_insert_eq. }
  clearbody s5. rewrite <- Hs5 in Hwf5, Hpte5, Hre5.
  clear Hclear. 
  destruct (fault_write s5 own2 a (n * PAGE_SIZE .| page_flags x) Hwf5 Ha) as (ph & -> & Hmap & Hph).
  { apply Hre5. rewrite Hs4. by destruct Hre as (m & ? & ?); exists m. }
  { intros g' w. rewrite Hpte5, Hs4. apply Hpte. }
  cbn [obind]. exists n. eexists. split; [reflexivity|]. split_and!.
  - intros H%Hal. by apply (free_allocated (pmm_state s2) n).
  - simpl. rewrite Hs5, Hs4. done.
  - done.
  - apply Hph; [rewrite Hs5; simpl; by rewrite lookup_insert_eq|by eapply tables_ne].
  - simpl. rewrite Hs5, Hs4. simpl. rewrite lookup_insert_eq. by eexists.
Qed.

(** In a direct range. *)
Lemma fault_direct fuel r x :
  pte s g virt &? PAGE_PRESENT = false -> lookup_range s g virt = Ret (Some r) ->
  ranges s !! r = Some x -> type x = DIRECT ->
  let phy := u64 (klib.align_down virt PAGE_SIZE - original_base x + phy_base x) in
  exists s', handle_page_fault read_page (S fuel) s g virt = Ret (phy, s') /\
    mapped (Z.land phy ADDR_MASK .| page_flags x) s' /\ ranges s' = ranges s.
Proof.
  intros Hnp Hr Hx Hty. cbn [handle_page_fault].
  destruct (fault_prefix (Some r) Hr) as
    (a & s1 & s2 & own2 & -> & Hrd & Hlk & Hwf2 & Ha & Hre & Hrs & Hk & Hfc & Hal & Hpte).
  cbn [obind deref]. rewrite Hrd. cbn [obind]. rewrite Hnp, Hlk. cbn [obind].
  unfold get_range. rewrite Hrs, Hx. cbn [deref obind]. rewrite Hty. cbn zeta.
  destruct (fault_write s2 own2 a (Z.land (u64 (klib.align_down virt PAGE_SIZE - original_base x + phy_base x))
    ADDR_MASK .| page_flags x) Hwf2 Ha Hre Hpte) as (ph & -> & Hmap & _).
  cbn [obind]. eexists. split; [reflexivity|]. by split.
Qed.

End faults.

(** ** A concrete machine

    64 pages of zeroed memory, the kernel's pagemap (0) and a process's (1), with
    an anonymous mapping of three pages at 65536. *)

Definition sample_pmm : pmm.t :=
  ret_of (pmm.mk ∅ [] [] (pmm.mkStats 0 0 0))
    (pmm.absorb_memmap_entry 0 (fun _ => 0) 1048576 262144 (pmm.mk ∅ [] [] (pmm.mkStats 0 0 0))).
Definition sample_memory : gmap Z (list Z) :=
  list_to_map ((fun pfn => (pfn * PAGE_SIZE, zero_page)) <$> seqZ 256 64).
Definition bare (k : kernel) : machine := mkMachine k sample_pmm sample_memory ∅ ∅ 0.
Definition two_pagemaps (k : kernel) : machine :=
  snd (ret_of (0, bare k) (new_pagemap (snd (ret_of (0, bare k) (new_pagemap (bare k)))))).
Definition sample_machine (k : kernel) : machine :=
  ret_of (bare k) (map_anonymous (two_pagemaps k) 1 65536 12288
    (PAGE_PRESENT .| PAGE_USER .| PAGE_WRITABLE) true).
Definition sample_own : gmap Z owner := {[257 * PAGE_SIZE := (0, []); 258 * PAGE_SIZE := (1, [])]}.

Lemma sample_roots k :
  pagemaps (sample_machine k) =
    {[0 := mkPagemap (257 * PAGE_SIZE) [257] [] None; 1 := mkPagemap (258 * PAGE_SIZE) [258] [2] None]}.
Proof. vm_compute. reflexivity. Qed.
Lemma sample_ranges k :
  ranges (sample_machine k) = {[2 := mkRange [] 65536 65536 12288 7 ANONYMOUS 0 None 0]}.
Proof. vm_compute. reflexivity. Qed.

Lemma sample_word k a i : phys (sample_machine k) !! a = Some zero_page -> word (phys (sample_machine k)) a i = 0.
Proof.
  intros H. unfold word. rewrite H. simpl. destruct (zero_page !! Z.to_nat i) eqn:Hz; [|done].
  by apply lookup_replicate in Hz as [-> _].
Qed.

Lemma sample_pmm_state k : pmm_state (sample_machine k) = pmm_state (sample_machine sample).
Proof. vm_compute. reflexivity. Qed.
Lemma sample_phys k : phys (sample_machine k) = sample_memory.
Proof. vm_compute. reflexivity. Qed.

Lemma sample_tables_wf k : tables_wf (sample_machine k) sample_own.
Proof.
  assert (Halloc : pmm.allocated (pmm_state (sample_machine k)) 257 /\ pmm.allocated (pmm_state (sample_machine k)) 258).
  { rewrite sample_pmm_state. split; eexists; split; vm_compute; reflexivity. }
  assert (Hown : forall a g p, sample_own !! a = Some (g, p) ->
    p = [] /\ (a = 257 * PAGE_SIZE /\ g = 0 \/ a = 258 * PAGE_SIZE /\ g = 1)).
  { intros a g p. unfold sample_own. intros [[<- [= <- <-]]|[_ [<- [= <- <-]]%lookup_singleton_Some]]%lookup_insert_Some; auto. }
  assert (Hpm : forall g m, pagemaps (sample_machine k) !! g = Some m ->
    (g = 0 /\ pml4 m = 257 * PAGE_SIZE /\ page_table_pages_list m = [257]) \/
    (g = 1 /\ pml4 m = 258 * PAGE_SIZE /\ page_table_pages_list m = [258])).
  { intros g m. rewrite sample_roots.
    intros [[<- <-]|[_ [<- <-]%lookup_singleton_Some]]%lookup_insert_Some; [by left|by right]. }
  split.
  - intros g m [(-> & -> & _)|(-> & -> & _)]%Hpm; vm_compute; reflexivity.
  - intros a g p [-> [[-> ->]|[-> ->]]]%Hown; (split; [done|]); (split; [simpl; lia|]).
    + exists 257. split; [done|apply Halloc].
    + exists 258. split; [done|apply Halloc].
  - intros a g p i [_ Ha]%Hown _ _ Hw. rewrite sample_word in Hw; [done|].
    rewrite sample_phys. destruct Ha as [[-> _]|[-> _]]; vm_compute; reflexivity.
  - rewrite sample_pmm_state. apply wf_checked. vm_compute. reflexivity.
  - rewrite sample_pmm_state, sample_phys. intros pfn [pg Hpg].
    assert (Hall : map_Forall (fun pfn _ => 0 < pfn < 1099511627776 /\
      sample_memory !! (pfn * PAGE_SIZE) = Some zero_page) (pmm.pages (pmm_state (sample_machine sample)))).
    { apply (bool_decide_unpack _). vm_compute. exact I. }
    destruct (Hall pfn pg Hpg) as [? ?]. split; [assumption|].
    exists zero_page. split; [assumption|reflexivity].
  - intros g m q [(_ & _ & ->)|(_ & _ & ->)]%Hpm ->%list_elem_of_singleton; apply Halloc.
Qed.

Lemma sample_free k : (60 <= free_count (sample_machine k))%nat.
Proof. unfold free_count. rewrite sample_pmm_state. apply Nat.leb_le. vm_compute. reflexivity. Qed.
Lemma sample_pagemap k : is_Some (pagemaps (sample_machine k) !! 1).
Proof. rewrite sample_roots. eexists. vm_compute. reflexivity. Qed.

Lemma map_page_translates_witness :
  exists s', map_page (sample_machine sample) 1 1310720 4194304 7 = Ret s' /\
    pte s' 1 4194304 = 1310727 /\ pte s' 0 4194304 = pte (sample_machine sample) 0 4194304.
Proof.
  destruct (map_page_translates (sample_machine sample) sample_own 1 1310720 4194304 7)
    as (s' & own' & H1 & _ & _ & H2 & H3).
  - apply sample_tables_wf.
  - apply sample_pagemap.
  - unfold user_virt. lia.
  - pose proof (sample_free sample). lia.
  - exists s'. split; [exact H1|]. split; [rewrite H2; vm_compute; reflexivity|]. apply H3. left. lia.
Defined.

