(* ===== verification/VmmRanges.v ===== *)
(** * The ranges of an address space (mem/vmm.cpp, [Pagemap::add_range])

    What every address is mapped to, [view], before and after a range is added
    over others: [add_range] implements an update of a map on the interval it is
    given. The pages are out of the picture here: the theorems are about address
    spaces none of the pages of which have been touched yet. *)

From S2P Require Import Prelude Algorithm Vector Links Sched SchedProps FdTable Pmm PmmProps Isr Vmm VmmTables VmmFault.
Import mem.

(** ** Intervals *)

Definition range_wf (x : MappedRange) : Prop :=
  page_list x = [] /\ 0 <= base x /\ 0 < length x /\ base x + length x < 18446744073709551616 /\
  type x <> NONE.
Definition inside (x : MappedRange) (a : Z) : Prop := base x <= a < base x + length x.
Definition disjoint_from (x : MappedRange) (b e : Z) : Prop := e <= base x \/ base x + length x <= b.

Lemma end_wf x : range_wf x -> end_ x = base x + length x.
Proof. intros (_ & ? & ? & ? & _). unfold end_. apply u64_small. lia. Qed.

(** Where the contents of address [a] come from. *)
Inductive source := SNone | SFile (d : option Z) (off : Z) | SPhys (a : Z).
Definition source_of (x : MappedRange) (a : Z) : source :=
  match type x with
  | ANONYMOUS | NONE => SNone
  | FILE => SFile (file x) (u64 (a - original_base x + file_offset x))
  | DIRECT | DIRECT_VIRTUAL => SPhys (u64 (a - original_base x + phy_base x))
  end.
Notation attributes := (Type_ * Z * source)%type.
Definition attr (x : MappedRange) (a : Z) : attributes := (type x, page_flags x, source_of x a).

(** ** Lists of ranges *)

Section lists.
Variable rs : gmap Z MappedRange.
Implicit Types (l : list Z).

Record list_wf l : Prop := {
  lw_nodup : NoDup l;
  lw_range r : r ∈ l -> exists x, rs !! r = Some x /\ range_wf x;
  lw_disj r1 r2 x1 x2 : r1 ∈ l -> r2 ∈ l -> r1 <> r2 -> rs !! r1 = Some x1 -> rs !! r2 = Some x2 ->
    disjoint_from x1 (base x2) (base x2 + length x2) }.

(** Address [a] is in a range of the list, which gives it [v]. *)
Definition view l (a : Z) (v : attributes) : Prop :=
  exists r x, r ∈ l /\ rs !! r = Some x /\ inside x a /\ attr x a = v.

Lemma view_unique l a v1 v2 : list_wf l -> view l a v1 -> view l a v2 -> v1 = v2.
Proof.
  intros Hwf (r1 & x1 & H1 & Hx1 & Hi1 & <-) (r2 & x2 & H2 & Hx2 & Hi2 & <-).
  destruct (decide (r1 = r2)) as [->|Hne]; [congruence|].
  pose proof (lw_disj l Hwf r1 r2 x1 x2 H1 H2 Hne Hx1 Hx2). unfold disjoint_from, inside in *. lia.
Qed.

(** No range of the list meets [b, e). *)
Definition clear l (b e : Z) : Prop :=
  forall r x, r ∈ l -> rs !! r = Some x -> disjoint_from x b e.

Lemma clear_view l b e a v : clear l b e -> b <= a < e -> ~ view l a v.
Proof.
  intros Hc Ha (r & x & Hr & Hx & Hi & _). pose proof (Hc r x Hr Hx). unfold disjoint_from, inside in *. lia.
Qed.
End lists.

(** Changing one range. *)
Lemma list_wf_put rs l r x :
  list_wf rs l -> range_wf x ->
  (forall r' x', r' ∈ l -> r' <> r -> rs !! r' = Some x' -> disjoint_from x' (base x) (base x + length x)) ->
  list_wf (<[r := x]> rs) l.
Proof.
  intros Hwf Hx Hd. split; [apply Hwf| |].
  - intros r' Hr'. destruct (decide (r' = r)) as [->|]; [rewrite lookup_insert_eq; eauto|].
    rewrite lookup_insert_ne by done. by apply (lw_range rs l Hwf).
  - intros r1 r2 x1 x2 H1 H2 Hne Hx1 Hx2.
    destruct (decide (r1 = r)) as [->|E1]; destruct (decide (r2 = r)) as [->|E2]; [done| | |].
    + rewrite lookup_insert_eq in Hx1. rewrite lookup_insert_ne in Hx2 by done. injection Hx1 as <-.
      pose proof (Hd r2 x2 H2 E2 Hx2). unfold disjoint_from in *. destruct Hx as (_ & ? & ? & ? & _). lia.
    + rewrite lookup_insert_eq in Hx2. rewrite lookup_insert_ne in Hx1 by done. injection Hx2 as <-.
      by apply (Hd r1).
    + rewrite lookup_insert_ne in Hx1, Hx2 by done. by eapply (lw_disj rs l Hwf r1 r2).
Qed.

(** Adding one range. *)
Lemma list_wf_add rs l1 l2 r x :
  list_wf rs (l1 ++ l2) -> range_wf x -> r ∉ l1 ++ l2 -> clear rs (l1 ++ l2) (base x) (base x + length x) ->
  list_wf (<[r := x]> rs) (l1 ++ r :: l2).
Proof.
  intros Hwf Hx Hr Hc.
  assert (Hin : forall q, q ∈ l1 ++ r :: l2 <-> q = r \/ q ∈ l1 ++ l2) by set_solver.
  split.
  - pose proof (lw_nodup rs _ Hwf) as Hnd. apply NoDup_app in Hnd as (N1 & N2 & N3).
    apply NoDup_app. split_and!; [done|set_solver|]. apply NoDup_cons. set_solver.
  - intros q [->|Hq]%Hin; [rewrite lookup_insert_eq; eauto|].
    rewrite lookup_insert_ne by congruence. by apply (lw_range rs _ Hwf).
  - intros r1 r2 x1 x2 [->|H1]%Hin [->|H2]%Hin Hne Hx1 Hx2; [done| | |].
    + rewrite lookup_insert_eq in Hx1. rewrite lookup_insert_ne in Hx2 by congruence. injection Hx1 as <-.
      pose proof (Hc r2 x2 H2 Hx2). unfold disjoint_from in *. destruct Hx as (_ & ? & ? & ? & _). lia.
    + rewrite lookup_insert_eq in Hx2. rewrite lookup_insert_ne in Hx1 by congruence. injection Hx2 as <-.
      by apply (Hc r1).
    + rewrite lookup_insert_ne in Hx1, Hx2 by congruence. by eapply (lw_disj rs _ Hwf r1 r2).
Qed.

Lemma filter_ne_notin (r : Z) (l : list Z) : r ∉ l -> filter (fun y => y <> r) l = l.
Proof.
  induction l as [|x l IH]; [done|]. intros [Hx Hl]%not_elem_of_cons.
  rewrite filter_cons_True by congruence. by rewrite IH.
Qed.

(** Removing one. *)
Lemma list_wf_remove rs l1 l2 r :
  list_wf rs (l1 ++ r :: l2) -> list_wf (delete r rs) (l1 ++ l2) /\ r ∉ l1 ++ l2.
Proof.
  intros Hwf. pose proof (lw_nodup rs _ Hwf) as Hnd.
  apply NoDup_app in Hnd as (N1 & N2 & N3). apply NoDup_cons in N3 as [N3 N4].
  assert (Hr : r ∉ l1 ++ l2) by set_solver. split; [|done].
  assert (Hin : forall q, q ∈ l1 ++ l2 -> q ∈ l1 ++ r :: l2 /\ q <> r) by set_solver.
  split.
  - apply NoDup_app. set_solver.
  - intros q [Hq Hne]%Hin. rewrite lookup_delete_ne by done. by apply (lw_range rs _ Hwf).
  - intros r1 r2 x1 x2 [H1 ?]%Hin [H2 ?]%Hin Hne. rewrite !lookup_delete_ne by done.
    by apply (lw_disj rs _ Hwf).
Qed.

(** What the other ranges of the list give. *)
Definition view_except (rs : gmap Z MappedRange) (l : list Z) (r a : Z) (v : attributes) : Prop :=
  exists r' x, r' ∈ l /\ r' <> r /\ rs !! r' = Some x /\ inside x a /\ attr x a = v.

Lemma view_split rs l r x a v :
  r ∈ l -> rs !! r = Some x ->
  view rs l a v <-> (inside x a /\ attr x a = v) \/ view_except rs l r a v.
Proof.
  intros Hr Hx. split.
  - intros (r' & x' & H1 & H2 & H3 & H4). destruct (decide (r' = r)) as [->|].
    + left. by simplify_eq.
    + right. by exists r', x'.
  - intros [[H1 H2]|(r' & x' & H1 & _ & H2 & H3 & H4)]; [by exists r, x|by exists r', x'].
Qed.

Lemma view_except_put rs l r x a v : view_except (<[r := x]> rs) l r a v <-> view_except rs l r a v.
Proof.
  split; intros (r' & x' & H1 & H2 & H3 & H4 & H5); exists r', x';
    [rewrite lookup_insert_ne in H3 by done|rewrite lookup_insert_ne by done]; done.
Qed.

Lemma view_except_app rs l1 l2 r a v :
  r ∉ l1 ++ l2 -> view_except rs (l1 ++ r :: l2) r a v <-> view rs (l1 ++ l2) a v.
Proof.
  intros Hr. split.
  - intros (r' & x' & H1 & H2 & H3). exists r', x'. split; [set_solver|done].
  - intros (r' & x' & H1 & H3). exists r', x'. split; [set_solver|]. split; [congruence|done].
Qed.

Lemma view_ext rs rs' l a v : (forall r, r ∈ l -> rs' !! r = rs !! r) -> view rs' l a v <-> view rs l a v.
Proof. intros H. split; intros (r & x & H1 & H2 & H3); exists r, x; [rewrite <- H|rewrite H]; done. Qed.

Lemma view_put rs l r x a v :
  r ∈ l -> view (<[r := x]> rs) l a v <-> (inside x a /\ attr x a = v) \/ view_except rs l r a v.
Proof. intros Hr. rewrite (view_split _ l r x) by (done || apply lookup_insert_eq). by rewrite view_except_put. Qed.

Lemma view_add rs l1 l2 r x a v :
  r ∉ l1 ++ l2 ->
  view (<[r := x]> rs) (l1 ++ r :: l2) a v <-> (inside x a /\ attr x a = v) \/ view rs (l1 ++ l2) a v.
Proof. intros Hr. rewrite view_put by set_solver. by rewrite view_except_app. Qed.

Lemma view_remove rs l1 l2 r a v :
  r ∉ l1 ++ l2 -> view (delete r rs) (l1 ++ l2) a v <-> view_except rs (l1 ++ r :: l2) r a v.
Proof.
  intros Hr. rewrite view_except_app by done. apply view_ext. intros q Hq. apply lookup_delete_ne. congruence.
Qed.

(** ** Files *)

(** How many ranges of the list hold a reference to the file [d], and [extra] one. *)
Definition holds (rs : gmap Z MappedRange) (d r : Z) : Prop := file <$> rs !! r = Some (Some d).
#[global] Instance holds_dec rs d r : Decision (holds rs d r).
Proof. unfold holds. apply _. Defined.
Definition users (rs : gmap Z MappedRange) (l : list Z) (extra : option Z) (d : Z) : nat :=
  (List.length (filter (holds rs d) l) + if decide (extra = Some d) then 1 else 0)%nat.
Definition files_ok (k : kernel) (rs : gmap Z MappedRange) (l : list Z) (extra : option Z) : Prop :=
  forall d, (0 < users rs l extra d)%nat ->
    exists fd, descriptions k !! d = Some fd /\ Z.of_nat (users rs l extra d) <= ref_count fd.


Lemma users_app rs l1 r l2 ex d :
  users rs (l1 ++ r :: l2) ex d = (users rs (l1 ++ l2) ex d + if decide (holds rs d r) then 1 else 0)%nat.
Proof.
  unfold users. rewrite !filter_app, filter_cons, !length_app. case_decide; simpl; lia.
Qed.

Lemma users_mono rs rs' l ex d :
  (forall r, r ∈ l -> file <$> rs' !! r = file <$> rs !! r) -> users rs' l ex d = users rs l ex d.
Proof.
  intros H. unfold users. f_equal. induction l as [|r l IH]; [done|].
  rewrite !filter_cons. assert (holds rs' d r <-> holds rs d r) as Hr.
  { unfold holds. by rewrite H by (by left). }
  rewrite (decide_ext _ _ _ _ Hr). case_decide; simpl; rewrite IH; try done; intros; apply H; by right.
Qed.

(** Adding a range with the extra reference's file, or another reference. *)
Lemma files_ok_add k rs l1 l2 r x ex f :
  r ∉ l1 ++ l2 -> file x = f -> files_ok k rs (l1 ++ l2) ex ->
  (forall d, f = Some d -> exists fd, descriptions k !! d = Some fd /\
     Z.of_nat (users rs (l1 ++ l2) ex d) <= ref_count fd) ->
  exists k', match f with Some d => increment_ref_count k d | None => Ret k end = Ret k' /\
    files_ok k' (<[r := x]> rs) (l1 ++ r :: l2) ex /\ processes k' = processes k.
Proof.
  intros Hr Hf Hok Hd.
  assert (Hu : forall d, users (<[r := x]> rs) (l1 ++ r :: l2) ex d =
    (users rs (l1 ++ l2) ex d + if decide (f = Some d) then 1 else 0)%nat).
  { intros d. rewrite users_app. f_equal.
    - apply users_mono. intros q Hq. rewrite lookup_insert_ne by congruence. done.
    - apply decide_ext. unfold holds. rewrite lookup_insert_eq. simpl. rewrite Hf. split; congruence. }
  destruct f as [d|].
  - destruct (Hd d eq_refl) as (fd & Hfd & Hle). unfold increment_ref_count. rewrite Hfd. simpl.
    eexists. split; [reflexivity|]. split; [|done]. intros d'. rewrite Hu. simpl. case_decide as Hdd.
    + injection Hdd as <-. intros _. eexists. rewrite lookup_insert_eq. split; [done|]. simpl. lia.
    + rewrite lookup_insert_ne by congruence. rewrite Nat.add_0_r. apply Hok.
  - exists k. split; [done|]. split; [|done]. intros d. rewrite Hu. simpl. rewrite Nat.add_0_r. apply Hok.
Qed.

(** Dropping a range with its reference. *)
Lemma files_ok_drop k rs l1 l2 r x ex :
  rs !! r = Some x -> r ∉ l1 ++ l2 -> files_ok k rs (l1 ++ r :: l2) ex ->
  exists k', match file x with Some d => decrement_ref_count k d | None => Ret k end = Ret k' /\
    files_ok k' (delete r rs) (l1 ++ l2) ex /\ processes k' = processes k.
Proof.
  intros Hx Hr Hok.
  assert (Hu : forall d, users rs (l1 ++ r :: l2) ex d =
    (users (delete r rs) (l1 ++ l2) ex d + if decide (file x = Some d) then 1 else 0)%nat).
  { intros d. rewrite users_app. f_equal.
    - symmetry. apply users_mono. intros q Hq. rewrite lookup_delete_ne by congruence. done.
    - apply decide_ext. unfold holds. rewrite Hx. simpl. split; congruence. }
  destruct (file x) as [d|] eqn:Hf.
  - destruct (Hok d) as (fd & Hfd & Hle); [rewrite Hu, decide_True by done; lia|].
    rewrite Hu, decide_True in Hle by done.
    unfold decrement_ref_count. rewrite Hfd. simpl. case_if.
    + eexists. split; [reflexivity|]. split; [|done]. intros d' Hd'. simpl.
      destruct (decide (d' = d)) as [->|Hne]; [exfalso; lia|].
      rewrite lookup_delete_ne by done. specialize (Hok d'). rewrite Hu, decide_False in Hok by congruence.
      rewrite Nat.add_0_r in Hok. by apply Hok.
    + eexists. split; [reflexivity|]. split; [|done]. intros d' Hd'. simpl.
      destruct (decide (d' = d)) as [->|Hne].
      * rewrite lookup_insert_eq. eexists. split; [done|]. simpl. lia.
      * rewrite lookup_insert_ne by done. specialize (Hok d'). rewrite Hu, decide_False in Hok by congruence.
        rewrite Nat.add_0_r in Hok. by apply Hok.
  - exists k. split; [done|]. split; [|done]. intros d Hd. specialize (Hok d).
    rewrite Hu, decide_False, Nat.add_0_r in Hok by done. by apply Hok.
Qed.

(** ** Machines that differ in ranges only *)

Definition set_ranges (s : machine) (g : Z) (m : Pagemap) (k : kernel) (rs : gmap Z MappedRange)
    (l : list Z) (nx : Z) : machine :=
  mkMachine k (pmm_state s) (phys s) rs (<[g := m <| range_list := l |>]> (pagemaps s)) nx.

Lemma after_app r pre rest : NoDup (pre ++ r :: rest) -> after r (pre ++ r :: rest) = head rest.
Proof.
  induction pre as [|q pre IH]; simpl; [by rewrite Z.eqb_refl|].
  intros [Hq Hnd]%NoDup_cons. destruct (Z.eqb_spec q r) as [->|]; [|by apply IH].
  exfalso. apply Hq. set_solver.
Qed.

Section quiet.
Variables (s0 : machine) (own : gmap Z owner) (g : Z) (m0 m : Pagemap).
Hypothesis Hwf : tables_wf s0 own.
Hypothesis Hm0 : pagemaps s0 !! g = Some m0.
Hypothesis Hpml : pml4 m = pml4 m0.
Hypothesis Hptl : page_table_pages_list m = page_table_pages_list m0.
Hypothesis Hquiet : forall v, pte s0 g v = 0.

Notation U := (set_ranges s0 g m).

Lemma U_same k rs l nx : same_tables s0 (U k rs l nx).
Proof.
  split; [done..|]. intros g'. simpl. destruct (decide (g' = g)) as [->|].
  - rewrite lookup_insert_eq, Hm0. simpl. by rewrite Hpml, Hptl.
  - by rewrite lookup_insert_ne.
Qed.

Lemma U_pagemap k rs l nx : get_pagemap (U k rs l nx) g = Ret (m <| range_list := l |>).
Proof. unfold get_pagemap. simpl. by rewrite lookup_insert_eq. Qed.
Lemma U_put_range k rs l nx r x : put_range r x (U k rs l nx) = U k (<[r := x]> rs) l nx.
Proof. done. Qed.
Lemma U_put_list k rs l nx l' :
  put_pagemap g (m <| range_list := l |> <| range_list := l' |>) (U k rs l nx) = U k rs l' nx.
Proof. unfold put_pagemap, set_ranges. simpl. by rewrite insert_insert_eq. Qed.

Lemma U_hold k k' rs l nx f :
  match f with Some d => increment_ref_count k d | None => Ret k end = Ret k' ->
  hold_file (U k rs l nx) f = Ret (U k' rs l nx).
Proof. unfold hold_file. simpl. destruct f as [d|]; [by intros ->|by intros [= ->]]. Qed.
Lemma U_drop k k' rs l nx f :
  match f with Some d => decrement_ref_count k d | None => Ret k end = Ret k' ->
  drop_file (U k rs l nx) f = Ret (U k' rs l nx).
Proof. unfold drop_file. simpl. destruct f as [d|]; [by intros ->|by intros [= ->]]. Qed.

(** No page is there to be invalidated. *)
Lemma U_invalidate_page k rs l nx virt o : invalidate_page (U k rs l nx) g virt o = Ret (U k rs l nx).
Proof.
  unfold invalidate_page. pose proof (U_same k rs l nx) as Hs.
  destruct (find_existing (U k rs l nx) own g virt (m <| range_list := l |>)) as
    [[-> _]|(a & gx & px & -> & Ha & Hlen & _ & Hr)].
  - by apply (same_tables_wf s0).
  - simpl. by rewrite lookup_insert_eq.
  - done.
  - cbn [obind]. rewrite read_word_ok.
    + cbn [obind]. rewrite <- (pte_reaches _ _ _ _ Hr), (same_tables_pte s0) by done. by rewrite Hquiet.
    + eapply owned_page_ok; [by apply (same_tables_wf s0)|done].
    + apply pt_index_range.
Qed.

Lemma U_invalidate k rs l nx b len o : invalidate_pages (U k rs l nx) g b len o = Ret (U k rs l nx).
Proof.
  unfold invalidate_pages. generalize 0 at 1. induction (Z.to_nat _) as [|n IH]; intros i; [done|].
  cbn [invalidate_loop]. rewrite U_invalidate_page. cbn [obind]. apply IH.
Qed.

(** ** Inserting *)

Record inv (k : kernel) (rs : gmap Z MappedRange) (l : list Z) (nx : Z) (ex : option Z) : Prop := {
  inv_list : list_wf rs l;
  inv_ids r : r ∈ l -> r < nx;
  inv_files : files_ok k rs l ex }.

Lemma insert_sorted_spec rs l b r :
  (forall q, q ∈ l -> is_Some (rs !! q)) ->
  exists l1 l2, (forall k l0 nx, insert_sorted (U k rs l0 nx) l b r = Ret (l1 ++ r :: l2)) /\ l = l1 ++ l2 /\ (l <> [] -> l1 <> []).
Proof.
  induction l as [|x l IH]; intros Hl; cbn [insert_sorted]; [by exists [], []|].
  destruct l as [|y l]; [by exists [x], []|].
  destruct (Hl y ltac:(set_solver)) as [z Hz]. unfold get_range. simpl (ranges _).
  destruct IH as (l1 & l2 & IH & Heq & Hne); [intros q Hq; apply Hl; set_solver|].
  destruct (base z >? b) eqn:Hzb.
  - exists [x], (y :: l). split; [|done]. intros. rewrite Hz. cbn [deref obind]. by rewrite Hzb.
  - exists (x :: l1), l2. rewrite Heq. split; [|done]. intros. rewrite <- Heq.
    rewrite Hz. cbn [deref obind]. rewrite Hzb, IH. done.
Qed.

Definition new_range (b len flags : Z) (ty : Type_) (pb : Z) (f : option Z) (off : Z) : MappedRange :=
  mkRange [] b b len flags ty pb f off.

(** Without a merge. *)
Lemma insert_new k rs l nx ex b len flags ty pb f off merge had :
  inv k rs l nx ex -> ty <> NONE -> 0 <= b -> 0 < len -> b + len < 18446744073709551616 ->
  clear rs l b (b + len) ->
  (merge = true -> ty = ANONYMOUS ->
     find_adjacent (U k rs l nx) l b (u64 (b + len)) flags ty = Ret None) ->
  (forall d, f = Some d -> exists fd, descriptions k !! d = Some fd /\
     Z.of_nat (users rs l ex d) <= ref_count fd) ->
  exists k' l1 l2, l = l1 ++ l2 /\ (l <> [] -> l1 <> []) /\
    insert_range (U k rs l nx) g b len flags ty pb f off merge had =
      Ret (Some nx, U k' (<[nx := new_range b len flags ty pb f off]> rs) (l1 ++ nx :: l2) (1 + nx)) /\
    inv k' (<[nx := new_range b len flags ty pb f off]> rs) (l1 ++ nx :: l2) (1 + nx) ex /\
    processes k' = processes k.
Proof.
  intros [Hl Hids Hfiles] Hty Hb Hlen Hend Hclear Hadj Hd. unfold insert_range. rewrite U_pagemap. cbn [obind].
  set (x := new_range b len flags ty pb f off).
  assert (Hnx : nx ∉ l) by (intros H%Hids; lia).
  destruct (insert_sorted_spec (<[nx := x]> rs) l b nx) as (l1 & l2 & Hins & -> & Hne).
  { intros q Hq. destruct (decide (q = nx)) as [->|]; [by rewrite lookup_insert_eq|].
    rewrite lookup_insert_ne by done. destruct (lw_range rs _ Hl q Hq) as (y & -> & _). done. }
  destruct (files_ok_add k rs l1 l2 nx x ex f Hnx eq_refl Hfiles Hd) as (k' & Hk' & Hf' & Hpr).
  exists k', l1, l2. split; [done|]. split; [done|]. split.
  - assert ((if merge && bool_decide (ty = ANONYMOUS)
             then find_adjacent (U k rs (l1 ++ l2) nx) (l1 ++ l2) b (u64 (b + len)) flags ty
             else Ret None) = Ret None) as Hnone.
    { destruct merge; [|done]. case_bool_decide; [by apply Hadj|done]. }
    change (range_list (m <| range_list := l1 ++ l2 |>)) with (l1 ++ l2). rewrite Hnone. cbn [obind].
    rewrite decide_False by done. change (next_addr (U k rs (l1 ++ l2) nx)) with nx. fold x.
    change (put_range nx _ _) with (U k (<[nx := x]> rs) (l1 ++ l2) (1 + nx)).
    rewrite (U_hold k k') by done. cbn [obind]. rewrite Hins. cbn [obind]. rewrite U_put_list.
    destruct had; [rewrite U_invalidate|]; done.
  - split; [|done]. split.
    + apply list_wf_add; [done| |done|done]. by split_and!.
    + intros q Hq. destruct (decide (q = nx)) as [->|]; [lia|]. pose proof (Hids q ltac:(set_solver)). lia.
    + done.
Qed.
Lemma find_adjacent_spec k rs l0 nx l b e flags ty :
  (forall q, q ∈ l -> exists x, rs !! q = Some x /\ range_wf x) ->
  find_adjacent (U k rs l0 nx) l b e flags ty = Ret None \/
  exists r x before, find_adjacent (U k rs l0 nx) l b e flags ty = Ret (Some (r, before)) /\
    r ∈ l /\ rs !! r = Some x /\ range_wf x /\ type x = ty /\ page_flags x = flags /\
    if before : bool then e = base x else b = base x + length x.
Proof.
  induction l as [|r l IH]; intros Hl; cbn [find_adjacent]; [by left|].
  destruct (Hl r ltac:(by left)) as (x & Hx & Hw). unfold get_range. simpl (ranges _). rewrite Hx.
  cbn [deref obind].
  assert (Hrec : find_adjacent (U k rs l0 nx) l b e flags ty = Ret None \/
    exists r' x before, find_adjacent (U k rs l0 nx) l b e flags ty = Ret (Some (r', before)) /\
    r' ∈ r :: l /\ rs !! r' = Some x /\ range_wf x /\ type x = ty /\ page_flags x = flags /\
    if before : bool then e = base x else b = base x + length x).
  { destruct IH as [?|(r' & x' & bf & ? & ? & ?)]; [intros q Hq; apply Hl; by right|by left|].
    right. exists r', x', bf. split; [done|]. split; [by right|done]. }
  case_bool_decide as Hty; [|by simpl]. destruct (Z.eqb_spec flags (page_flags x)) as [Hf|]; [|by simpl].
  simpl. rewrite (end_wf x Hw). destruct (Z.eqb_spec b (base x + length x)).
  { right. exists r, x, false. split_and!; try done. by left. }
  destruct (Z.eqb_spec e (base x)); [|done]. right. exists r, x, true. split_and!; try done. by left.
Qed.

(** What the new range gives the addresses of the interval. *)
Definition new_attr (b flags : Z) (ty : Type_) (pb : Z) (f : option Z) (off a : Z) : attributes :=
  attr (new_range b 1 flags ty pb f off) a.

Lemma new_range_attr b len flags ty pb f off a :
  attr (new_range b len flags ty pb f off) a = new_attr b flags ty pb f off a.
Proof. done. Qed.

(** Extending the range found: the old one and the interval. *)
Lemma extend_range k rs l nx ex r x y b len :
  inv k rs l nx ex -> clear rs l b (b + len) -> 0 <= b -> 0 < len -> b + len < 18446744073709551616 ->
  r ∈ l -> rs !! r = Some x -> range_wf y -> type x = ANONYMOUS -> type y = ANONYMOUS ->
  page_flags y = page_flags x -> file y = file x ->
  (forall a, inside y a <-> inside x a \/ b <= a < b + len) ->
  inv k (<[r := y]> rs) l nx ex /\
  forall a v, view (<[r := y]> rs) l a v <->
    (b <= a < b + len /\ v = (ANONYMOUS, page_flags x, SNone)) \/ view rs l a v.
Proof.
  intros [Hl Hids Hfiles] Hc Hb Hlen Hend Hr Hx Hy Htx Hty Hfl Hfi Hin.
  assert (Hwx : range_wf x) by (destruct (lw_range rs l Hl r Hr) as (x' & ? & ?); by simplify_eq).
  split; [split|].
  - apply list_wf_put; [done..|]. intros r' x' Hr' Hne Hx'.
    pose proof (lw_disj rs l Hl r' r x' x Hr' Hr Hne Hx' Hx). pose proof (Hc r' x' Hr' Hx').
    destruct (lw_range rs l Hl r' Hr') as (x2 & Hx2 & (_ & ? & ? & _ & _)). assert (x2 = x') as -> by congruence.
    pose proof (Hin (base y)). pose proof (Hin (base y + length y - 1)).
    pose proof (Hin (base x')). pose proof (Hin (base x' + length x' - 1)).
    destruct Hwx as (_ & ? & ? & ? & _), Hy as (_ & ? & ? & ? & _). unfold disjoint_from, inside in *. lia.
  - done.
  - intros d. rewrite (users_mono rs); [apply Hfiles|]. intros q _. destruct (decide (q = r)) as [->|].
    + rewrite lookup_insert_eq, Hx. simpl. by rewrite Hfi.
    + by rewrite lookup_insert_ne.
  - intros a v. rewrite view_put by done. rewrite (view_split rs l r x) by done. rewrite Hin.
    unfold attr, source_of. rewrite Htx, Hty, Hfl. naive_solver.
Qed.

Lemma insert_range_spec k rs l nx ex b len flags ty pb f off merge had :
  inv k rs l nx ex -> 0 <= b -> 0 < len -> b + len < 18446744073709551616 -> clear rs l b (b + len) ->
  (forall d, f = Some d -> exists fd, descriptions k !! d = Some fd /\
     Z.of_nat (users rs l ex d) <= ref_count fd) ->
  exists o k' rs' l' nx', insert_range (U k rs l nx) g b len flags ty pb f off merge had =
      Ret (o, U k' rs' l' nx') /\
    inv k' rs' l' nx' ex /\ processes k' = processes k /\
    forall a v, view rs' l' a v <->
      (b <= a < b + len /\ ty <> NONE /\ v = new_attr b flags ty pb f off a) \/ view rs l a v.
Proof.
  intros Hinv Hb Hlen Hend Hc Hd. pose proof Hinv as [Hl Hids Hfiles].
  destruct (decide (ty = NONE)) as [->|Hty].
  { exists None, k, rs, l, nx. unfold insert_range. rewrite U_pagemap. cbn [obind].
    rewrite (bool_decide_eq_false_2 (NONE = ANONYMOUS)), andb_false_r by done. cbn [obind].
    rewrite decide_True by done. rewrite U_invalidate. cbn [obind]. split_and!; [done..|]. naive_solver. }
  assert (Hadd : (merge = true -> ty = ANONYMOUS ->
       find_adjacent (U k rs l nx) l b (u64 (b + len)) flags ty = Ret None) ->
    exists o k' rs' l' nx', insert_range (U k rs l nx) g b len flags ty pb f off merge had =
      Ret (o, U k' rs' l' nx') /\
    inv k' rs' l' nx' ex /\ processes k' = processes k /\
    forall a v, view rs' l' a v <->
      (b <= a < b + len /\ ty <> NONE /\ v = new_attr b flags ty pb f off a) \/ view rs l a v).
  { intros Hadj.
    destruct (insert_new k rs l nx ex b len flags ty pb f off merge had Hinv Hty Hb Hlen Hend Hc Hadj Hd)
      as (k' & l1 & l2 & -> & _ & Hret & Hinv' & Hpr).
    eexists _, _, _, _, _. split; [exact Hret|]. split; [done|]. split; [done|]. intros a v.
    rewrite view_add by (intros H%Hids; lia). rewrite new_range_attr. unfold inside. simpl. naive_solver. }
  destruct (decide (merge = true /\ ty = ANONYMOUS)) as [[-> ->]|Hno]; [|apply Hadd; tauto].
  rewrite u64_small in Hadd by lia.
  destruct (find_adjacent_spec k rs l nx l b (b + len) flags ANONYMOUS (lw_range rs l Hl))
    as [Hnone|(r & x & before & Hadj & Hr & Hx & Hwx & Htx & Hfx & Hbf)]; [by apply Hadd|]. clear Hadd.
  set (y := (if before then x <| base ::= fun b0 => u64 (b0 - len) |> else x) <| length ::= fun l0 => u64 (l0 + len) |>).
  destruct Hwx as (Hpl & Hb1 & Hl1 & He1 & Hnn).
  assert (Hy : range_wf y /\ forall a, inside y a <-> inside x a \/ b <= a < b + len).
  { unfold y, range_wf, inside. destruct before; simpl; rewrite ?Hpl, !u64_small by lia;
      (split; [split_and!; done || lia|intros a; lia]). }
  destruct Hy as [Hy Hin].
  destruct (extend_range k rs l nx ex r x y b len Hinv Hc Hb Hlen Hend Hr Hx Hy Htx) as [Hinv' Hview];
    [by unfold y; destruct before|by unfold y; destruct before|by unfold y; destruct before|done|].
  exists None, k, (<[r := y]> rs), l, nx. split; [|split; [done|split; [done|]]].
  - unfold insert_range. rewrite U_pagemap. cbn [obind].
    change (range_list (m <| range_list := l |>)) with l. rewrite bool_decide_eq_true_2 by done. simpl andb.
    cbn match. rewrite u64_small by lia. rewrite Hadj. cbn [obind].
    unfold get_range. simpl (ranges _). rewrite Hx. cbn [deref obind].
    change (put_range r _ (U k rs l nx)) with (U k (<[r := y]> rs) l nx).
    destruct had; [rewrite U_invalidate|]; done.
  - intros a v. rewrite Hview. unfold new_attr, attr, source_of. simpl. rewrite Hfx. naive_solver.
Qed.
(** ** Resolving one overlap *)

(** A range that can be cut in two: the second half is made as if the range had
    never been cut before. *)
Definition splittable (x : MappedRange) : Prop :=
  type x = ANONYMOUS \/
  (original_base x = base x /\ (type x = FILE \/ phy_base x <> 0)).

Definition meets (rs : gmap Z MappedRange) (b e q : Z) : Prop :=
  match rs !! q with Some x => ~ disjoint_from x b e | None => False end.
#[local] Instance meets_dec rs b e q : Decision (meets rs b e q).
Proof. unfold meets, disjoint_from. destruct (rs !! q); apply _. Defined.
Definition turns (rs : gmap Z MappedRange) (b e : Z) (l : list Z) : nat :=
  (List.length l + List.length (filter (meets rs b e) l))%nat.

Lemma turns_cons rs b e q l :
  turns rs b e (q :: l) = (S (turns rs b e l) + if decide (meets rs b e q) then 1 else 0)%nat.
Proof. unfold turns. rewrite filter_cons. case_decide; simpl; lia. Qed.
Lemma turns_app rs b e l1 l2 : turns rs b e (l1 ++ l2) = (turns rs b e l1 + turns rs b e l2)%nat.
Proof. unfold turns. rewrite filter_app, !length_app. lia. Qed.
Lemma turns_ext rs rs' b e l : (forall q, q ∈ l -> rs' !! q = rs !! q) -> turns rs' b e l = turns rs b e l.
Proof.
  intros H. induction l as [|q l IH]; [done|]. rewrite !turns_cons, IH by (intros; apply H; by right).
  f_equal. apply decide_ext. unfold meets. by rewrite H by (by left).
Qed.

Section resolve.
Variables (b e : Z).
Hypothesis Hbe : 0 <= b < e.
Hypothesis Hend : e < 18446744073709551616.

Definition cuttable (rs : gmap Z MappedRange) (l : list Z) : Prop :=
  forall q x, q ∈ l -> rs !! q = Some x -> base x < b -> e < base x + length x -> splittable x.

(** The list was [pre ++ r :: rest], [rest] what is still to be visited. *)
Record resolved (k : kernel) (rs : gmap Z MappedRange) (pre : list Z) (r : Z) (rest : list Z) (ex : option Z)
    (k' : kernel) (rs' : gmap Z MappedRange) (pre' rest' : list Z) (nx' : Z) : Prop := {
  rv_inv : inv k' rs' (pre' ++ rest') nx' ex;
  rv_head : head rest' = head rest;
  rv_clear : clear rs pre b e -> clear rs' pre' b e;
  rv_view a v : ~ b <= a < e -> view rs' (pre' ++ rest') a v <-> view rs (pre ++ r :: rest) a v;
  rv_sub a v : b <= a < e -> view rs' (pre' ++ rest') a v -> view rs (pre ++ r :: rest) a v;
  rv_turns : (turns rs' b e rest' <= S (turns rs b e rest))%nat;
  rv_cut : cuttable rs rest -> cuttable rs' rest';
  rv_proc : processes k' = processes k }.

(** The range is trimmed: what is left of it is outside the interval. *)
Lemma resolved_trim k rs pre r rest nx ex x y :
  inv k rs (pre ++ r :: rest) nx ex -> rs !! r = Some x -> range_wf y ->
  disjoint_from y b e -> (forall a, ~ b <= a < e -> inside y a <-> inside x a) ->
  base x <= base y -> base y + length y <= base x + length x ->
  (forall a, attr y a = attr x a) -> file y = file x ->
  resolved k rs pre r rest ex k (<[r := y]> rs) (pre ++ [r]) rest nx.
Proof.
  intros [Hl Hids Hfiles] Hx Hy Hd Hin Hb1 He1 Hattr Hfile.
  assert (Hr : r ∈ pre ++ r :: rest) by set_solver.
  pose proof (lw_nodup _ _ Hl) as Hnd. apply NoDup_app in Hnd as (_ & Hnd1 & Hnd2).
  apply NoDup_cons in Hnd2 as [Hnd2 _].
  assert (Hrest : forall q, q ∈ rest -> (<[r := y]> rs) !! q = rs !! q)
    by (intros q Hq; apply lookup_insert_ne; congruence).
  split.
  - simpl. rewrite <- app_assoc. simpl. split; [|done|].
    + apply list_wf_put; [done..|]. intros r' x' Hr' Hne Hx'.
      pose proof (lw_disj _ _ Hl r' r x' x Hr' Hr Hne Hx' Hx). unfold disjoint_from in *.
      destruct Hy as (_ & ? & ? & ? & _). lia.
    + intros d. rewrite (users_mono rs); [apply Hfiles|]. intros q _. destruct (decide (q = r)) as [->|].
      * rewrite lookup_insert_eq, Hx. simpl. by rewrite Hfile.
      * by rewrite lookup_insert_ne.
  - done.
  - intros Hc q z Hq Hz. apply elem_of_app in Hq as [Hq| ->%list_elem_of_singleton].
    + assert (q <> r) by (intros ->; eapply Hnd1; [done|by left]).
      rewrite lookup_insert_ne in Hz by done. by apply (Hc q).
    + rewrite lookup_insert_eq in Hz. by simplify_eq.
  - intros a v Ha. simpl. rewrite <- app_assoc. simpl. rewrite view_put by done.
    rewrite (view_split rs _ r x) by done. by rewrite Hin, Hattr.
  - intros a v Ha. simpl. rewrite <- app_assoc. simpl. rewrite view_put by done.
    rewrite (view_split rs _ r x) by done. intros [[Hi _]|?]; [|by right].
    unfold disjoint_from, inside in *. lia.
  - rewrite (turns_ext rs) by done. lia.
  - intros Hc q z Hq. rewrite Hrest by done. by apply Hc.
  - done.
Qed.
(** The range is removed. *)
Lemma resolved_delete k rs pre r rest nx ex x :
  inv k rs (pre ++ r :: rest) nx ex -> rs !! r = Some x -> (forall a, inside x a -> b <= a < e) ->
  exists k', delete_range (U k rs (pre ++ r :: rest) nx) g r = Ret (U k' (delete r rs) (pre ++ rest) nx) /\
    resolved k rs pre r rest ex k' (delete r rs) pre rest nx.
Proof.
  intros [Hl Hids Hfiles] Hx Hin.
  destruct (list_wf_remove rs pre rest r Hl) as [Hl' Hr].
  destruct (files_ok_drop k rs pre rest r x ex Hx Hr Hfiles) as (k' & Hk' & Hf' & Hpr).
  destruct (lw_range rs _ Hl r ltac:(set_solver)) as (x' & Hx' & Hpl & _). assert (x' = x) as -> by congruence.
  exists k'. split.
  - unfold delete_range, get_range. simpl (ranges _). rewrite Hx. cbn [deref obind]. rewrite U_pagemap. cbn [obind].
    change (range_list (m <| range_list := pre ++ r :: rest |>)) with (pre ++ r :: rest).
    unfold unlink. rewrite decide_True by set_solver. cbn [obind].
    assert (filter (fun y => y <> r) (pre ++ r :: rest) = pre ++ rest) as ->.
    { rewrite filter_app, filter_cons_False by tauto. rewrite !filter_ne_notin by set_solver. done. }
    rewrite U_put_list, Hpl. cbn [free_page_list obind]. rewrite (U_drop k k') by done. cbn [obind]. done.
  - split; try done.
    + split; [done| |done]. intros q Hq. apply Hids. set_solver.
    + intros Hc q z Hq. rewrite lookup_delete_ne by set_solver. by apply Hc.
    + intros a v Ha. rewrite view_remove by done. rewrite (view_split rs _ r x); [|set_solver|done].
      split; [by right|]. intros [[Hi _]|?]; [|done]. by apply Hin in Hi.
    + intros a v _. rewrite view_remove by done. rewrite (view_split rs _ r x); [by right|set_solver|done].
    + rewrite (turns_ext rs); [lia|]. intros q Hq. apply lookup_delete_ne. set_solver.
    + intros Hc q z Hq. rewrite lookup_delete_ne by set_solver. by apply Hc.
Qed.

(** The halves give what the whole gave. *)
Lemma split_inside x a v :
  range_wf x -> base x < b -> e < base x + length x -> splittable x -> ~ b <= a < e ->
  let x1 := x <| length := b - base x |> in
  let split_phy := if phy_base x =? 0 then 0 else u64 (phy_base x + (e - base x)) in
  let n := new_range e (base x + length x - e) (page_flags x) (type x) split_phy (file x)
             (u64 (file_offset x + (e - base x))) in
  inside x a /\ attr x a = v <-> (inside n a /\ attr n a = v) \/ (inside x1 a /\ attr x1 a = v).
Proof.
  intros (_ & W1 & W2 & W3 & _) Hb1 He1 Hsp Ha x1 split_phy n.
  assert (Hin : inside x a <-> inside n a \/ inside x1 a) by (unfold inside, n, x1; simpl; lia).
  assert (Hn : attr n a = attr x a).
  { unfold attr, source_of, n. simpl. destruct Hsp as [->|[Hob Hsp]]; [done|].
    f_equal. destruct (type x); try done.
    - f_equal. unfold split_phy. destruct Hsp as [|Hsp]; [done|].
      rewrite (proj2 (Z.eqb_neq _ _)) by done. rewrite u64_add_r, Hob. f_equal. lia.
    - f_equal. rewrite u64_add_r, Hob. f_equal. lia.
    - f_equal. unfold split_phy. destruct Hsp as [|Hsp]; [done|].
      rewrite (proj2 (Z.eqb_neq _ _)) by done. rewrite u64_add_r, Hob. f_equal. lia. }
  assert (H1 : attr x1 a = attr x a) by done. rewrite Hn, H1, Hin. tauto.
Qed.

(** The range is cut in two. *)
Lemma resolved_split k rs pre r rest nx ex x :
  inv k rs (pre ++ r :: rest) nx ex -> rs !! r = Some x ->
  base x < b -> e < base x + length x -> splittable x ->
  let x1 := x <| length := b - base x |> in
  let split_phy := if phy_base x =? 0 then 0 else u64 (phy_base x + (e - base x)) in
  exists k' rs' pre' rest' nx',
    insert_range (U k (<[r := x1]> rs) (pre ++ r :: rest) nx) g e (base x + length x - e) (page_flags x)
      (type x) split_phy (file x) (u64 (file_offset x + (e - base x))) false false =
      Ret (Some nx, U k' rs' (pre' ++ rest') nx') /\
    (exists y, rs' !! nx = Some y) /\
    resolved k rs pre r rest ex k' rs' pre' rest' nx'.
Proof.
  intros Hinv Hx Hb1 He1 Hsp x1 split_phy. pose proof Hinv as [Hl Hids Hfiles].
  assert (Hr : r ∈ pre ++ r :: rest) by set_solver.
  destruct (lw_range rs _ Hl r Hr) as (x' & Hx' & Hpl & Hw1 & Hw2 & Hw3 & Hw4). assert (x' = x) as -> by congruence.
  assert (Hx1 : range_wf x1) by (unfold x1, range_wf; simpl; split_and!; done || lia).
  set (rs1 := <[r := x1]> rs).
  assert (Hfile1 : forall q, file <$> rs1 !! q = file <$> rs !! q).
  { intros q. unfold rs1. destruct (decide (q = r)) as [->|]; [by rewrite lookup_insert_eq, Hx|by rewrite lookup_insert_ne]. }
  assert (Hinv1 : inv k rs1 (pre ++ r :: rest) nx ex).
  { split; [|done|intros d; rewrite (users_mono rs) by auto; apply Hfiles].
    apply list_wf_put; [done..|]. intros r' z Hr' Hne Hz.
    pose proof (lw_disj _ _ Hl r' r z x Hr' Hr Hne Hz Hx). unfold disjoint_from, x1 in *. simpl. lia. }
  assert (Hclear1 : clear rs1 (pre ++ r :: rest) e (e + (base x + length x - e))).
  { intros q z Hq. unfold rs1. destruct (decide (q = r)) as [->|Hne].
    - rewrite lookup_insert_eq. intros [= <-]. unfold disjoint_from, x1. simpl. lia.
    - rewrite lookup_insert_ne by done. intros Hz.
      pose proof (lw_disj _ _ Hl q r z x Hq Hr Hne Hz Hx). unfold disjoint_from in *. lia. }
  set (n := new_range e (base x + length x - e) (page_flags x) (type x) split_phy (file x)
              (u64 (file_offset x + (e - base x)))).
  destruct (insert_new k rs1 (pre ++ r :: rest) nx ex e (base x + length x - e) (page_flags x) (type x)
    split_phy (file x) (u64 (file_offset x + (e - base x))) false false Hinv1 Hw4) as
    (k' & l1 & l2 & Hsplit & Hne & Hret & Hinv2 & Hpr); [lia|lia|lia|done|done| |].
  { intros d Hd. rewrite (users_mono rs) by auto. apply Hfiles. rewrite users_app.
    rewrite decide_True; [lia|]. unfold holds. rewrite Hx. simpl. by rewrite Hd. }
  fold n in Hret, Hinv2. set (rs2 := <[nx := n]> rs1) in *.
  assert (Hnx : nx ∉ pre ++ r :: rest) by (intros H%Hids; lia).
  assert (Hview : forall a v, ~ b <= a < e -> view rs2 (l1 ++ nx :: l2) a v <-> view rs (pre ++ r :: rest) a v).
  { intros a v Ha. unfold rs2. rewrite view_add by (by rewrite <- Hsplit). rewrite <- Hsplit.
    unfold rs1. rewrite view_put by done. rewrite (view_split rs _ r x) by done.
    assert (Hw : range_wf x) by (by split_and!).
    pose proof (split_inside x a v Hw Hb1 He1 Hsp Ha : _ <-> (inside n a /\ _) \/ (inside x1 a /\ _)). tauto. }
  assert (Hsub : forall a v, b <= a < e -> view rs2 (l1 ++ nx :: l2) a v -> view rs (pre ++ r :: rest) a v).
  { intros a v Ha. unfold rs2. rewrite view_add by (by rewrite <- Hsplit). rewrite <- Hsplit.
    unfold rs1. rewrite view_put by done. rewrite (view_split rs _ r x) by done.
    intros [[Hi _]|[[Hi _]|?]]; [| |by right]; unfold inside, n, x1 in Hi; simpl in Hi; lia. }
  assert (Hrest2 : forall q, q ∈ pre ++ rest -> rs2 !! q = rs !! q).
  { intros q Hq. unfold rs2, rs1. pose proof (lw_nodup _ _ Hl) as Hnd.
    apply NoDup_app in Hnd as (_ & N1 & N2). apply NoDup_cons in N2 as [N2 _].
    rewrite !lookup_insert_ne; [done| |]; set_solver. }
  assert (Hn : rs2 !! nx = Some n) by (unfold rs2; apply lookup_insert_eq).
  assert (Hr2 : rs2 !! r = Some x1).
  { unfold rs2. rewrite lookup_insert_ne by (intros ->; by apply Hnx). unfold rs1. apply lookup_insert_eq. }
  assert (Hdn : disjoint_from n b e) by (unfold disjoint_from, n; simpl; lia).
  assert (Hd1 : disjoint_from x1 b e) by (unfold disjoint_from, x1; simpl; lia).
  assert (Hturn_n : forall l, turns rs2 b e (nx :: l) = S (turns rs2 b e l)).
  { intros l. rewrite turns_cons, decide_False; [lia|]. unfold meets. rewrite Hn. tauto. }
  assert (Hturn_rest : turns rs2 b e rest = turns rs b e rest).
  { apply turns_ext. intros q Hq. apply Hrest2. set_solver. }
  assert (Hclear_pre : clear rs pre b e -> forall q z, q ∈ pre ++ [r; nx] -> rs2 !! q = Some z -> disjoint_from z b e).
  { intros Hc q z Hq Hz. rewrite elem_of_app in Hq. destruct Hq as [Hq|Hq].
    - rewrite Hrest2 in Hz by set_solver. by apply (Hc q).
    - apply elem_of_cons in Hq as [->|Hq]; [congruence|]. apply list_elem_of_singleton in Hq as ->. congruence. }
  assert (Hcut_rest : cuttable rs rest -> forall q z, q = nx \/ q ∈ rest -> rs2 !! q = Some z ->
    base z < b -> e < base z + length z -> splittable z).
  { intros Hc q z [->|Hq] Hz.
    - rewrite Hn in Hz. injection Hz as <-. unfold disjoint_from in Hdn. lia.
    - rewrite Hrest2 in Hz by set_solver. by apply (Hc q). }
  replace (pre ++ r :: rest) with ((pre ++ [r]) ++ rest) in Hsplit by (by rewrite <- app_assoc).
  apply app_eq_inv in Hsplit as [(kk & Hk1 & Hk2)|(kk & Hk1 & Hk2)].
  - exists k', rs2, (l1 ++ nx :: kk), rest, (1 + nx).
    replace ((l1 ++ nx :: kk) ++ rest) with (l1 ++ nx :: l2) by (rewrite Hk2, <- app_assoc; done).
    split; [done|]. split; [by exists n|].
    assert (Hinl : forall q, q ∈ l1 ++ nx :: kk -> q ∈ pre ++ [r; nx]).
    { intros q Hq. assert (q = nx \/ q ∈ pre ++ [r]) as [->|?]; [|set_solver|set_solver].
      rewrite Hk1. set_solver. }
    split; try done.
    + by replace ((l1 ++ nx :: kk) ++ rest) with (l1 ++ nx :: l2) by (rewrite Hk2, <- app_assoc; done).
    + intros Hc q z Hq. by apply Hclear_pre, Hinl.
    + by replace ((l1 ++ nx :: kk) ++ rest) with (l1 ++ nx :: l2) by (rewrite Hk2, <- app_assoc; done).
    + by replace ((l1 ++ nx :: kk) ++ rest) with (l1 ++ nx :: l2) by (rewrite Hk2, <- app_assoc; done).
    + rewrite Hturn_rest. lia.
    + intros Hc q z Hq. apply Hcut_rest; [done|by right].
  - destruct kk as [|q0 kk].
    + exists k', rs2, (pre ++ [r; nx]), rest, (1 + nx). simpl in Hk2. subst l2. rewrite app_nil_r in Hk1. subst l1.
      replace ((pre ++ [r; nx]) ++ rest) with ((pre ++ [r]) ++ nx :: rest) by (by rewrite <- !app_assoc).
      split; [done|]. split; [by exists n|]. split; try done.
      * by replace ((pre ++ [r; nx]) ++ rest) with ((pre ++ [r]) ++ nx :: rest) by (by rewrite <- !app_assoc).
      * by replace ((pre ++ [r; nx]) ++ rest) with ((pre ++ [r]) ++ nx :: rest) by (by rewrite <- !app_assoc).
      * by replace ((pre ++ [r; nx]) ++ rest) with ((pre ++ [r]) ++ nx :: rest) by (by rewrite <- !app_assoc).
      * rewrite Hturn_rest. lia.
      * intros Hc q z Hq. apply Hcut_rest; [done|by right].
    + exists k', rs2, (pre ++ [r]), ((q0 :: kk) ++ nx :: l2), (1 + nx). subst l1.
      replace ((pre ++ [r]) ++ (q0 :: kk) ++ nx :: l2) with (((pre ++ [r]) ++ q0 :: kk) ++ nx :: l2)
        by (by rewrite <- !app_assoc).
      split; [done|]. split; [by exists n|]. split; try done.
      * by rewrite app_assoc.
      * by rewrite Hk2.
      * intros Hc q z Hq. apply Hclear_pre; [done|]. set_solver.
      * by rewrite app_assoc.
      * by rewrite app_assoc.
      * rewrite turns_app, Hturn_n, <- Hturn_rest, Hk2, turns_app. lia.
      * intros Hc q z Hq. apply Hcut_rest; [done|]. rewrite Hk2. set_solver.
Qed.
Lemma resolve_one_spec k rs pre r rest nx ex x flags ty keep :
  inv k rs (pre ++ r :: rest) nx ex -> rs !! r = Some x -> ~ disjoint_from x b e ->
  (base x < b -> e < base x + length x -> splittable x) ->
  (keep = true /\ base x = b /\ base x + length x = e /\ type x = ty /\
   resolve_one (U k rs (pre ++ r :: rest) nx) g r b e flags ty keep =
     Ret (inl (U k (<[r := x <| page_flags := flags |>]> rs) (pre ++ r :: rest) nx))) \/
  (exists k' rs' pre' rest' nx',
   resolve_one (U k rs (pre ++ r :: rest) nx) g r b e flags ty keep = Ret (inr (U k' rs' (pre' ++ rest') nx')) /\
   resolved k rs pre r rest ex k' rs' pre' rest' nx').
Proof.
  intros Hinv Hx Hov Hsp. pose proof Hinv as [Hl Hids Hfiles].
  assert (Hr : r ∈ pre ++ r :: rest) by set_solver.
  destruct (lw_range rs _ Hl r Hr) as (x' & Hx' & Hw). assert (x' = x) as -> by congruence.
  pose proof (end_wf x Hw) as He. pose proof Hw as (Hpl & Hw1 & Hw2 & Hw3 & Hw4).
  unfold disjoint_from in Hov. unfold resolve_one, get_range.
  change (ranges (U k rs (pre ++ r :: rest) nx)) with rs. rewrite Hx. cbn [deref obind]. rewrite He.
  destruct (Z.leb_spec b (base x)).
  - rewrite Z.geb_leb. destruct (Z.leb_spec (base x + length x) e).
    + destruct (keep && (b =? base x) && (e =? base x + length x) && bool_decide (ty = type x)) eqn:Hk.
      * apply andb_prop in Hk as [Hk Ht%bool_decide_eq_true]. zbool. left. split_and!; try done; try lia.
        destruct (Z.eqb_spec (page_flags x) flags) as [Hf|Hf]; cbn [negb].
        -- rewrite insert_id; [done|]. rewrite Hx. f_equal. destruct x; simpl in *. by subst.
        -- rewrite U_put_range, U_invalidate. done.
      * right. rewrite U_invalidate. cbn [obind].
        destruct (resolved_delete k rs pre r rest nx ex x Hinv Hx) as (k' & -> & Hres).
        { unfold inside. lia. }
        cbn [obind]. by exists k', (delete r rs), pre, rest, nx.
    + right. rewrite U_put_range. exists k. eexists _, (pre ++ [r]), rest, nx.
      rewrite <- app_assoc. split; [reflexivity|].
      apply (resolved_trim k rs pre r rest nx ex x); try done; unfold range_wf, disjoint_from, inside; simpl;
        rewrite ?(u64_small (e - base x)), ?u64_small by lia; try split_and!; try done; intros; lia.
  - rewrite Z.geb_leb. destruct (Z.leb_spec (base x + length x) e).
    + right. rewrite U_put_range. exists k. eexists _, (pre ++ [r]), rest, nx.
      rewrite <- app_assoc. split; [reflexivity|].
      apply (resolved_trim k rs pre r rest nx ex x); try done; unfold range_wf, disjoint_from, inside; simpl;
        rewrite ?(u64_small (base x + length x - b)), ?u64_small by lia; try split_and!; try done; intros; lia.
    + right. rewrite (u64_small (base x + length x - e)), (u64_small (e - base x)), (u64_small (b - base x)) by lia.
      destruct (resolved_split k rs pre r rest nx ex x Hinv Hx) as
        (k' & rs' & pre' & rest' & nx' & Hins & (y & Hy) & Hres); [lia|lia|apply Hsp; lia|].
      rewrite U_put_range.
      cbn zeta in Hins. rewrite Hins. cbn [obind].
      change (ranges (U k' rs' (pre' ++ rest') nx')) with rs'. rewrite Hy. cbn [deref obind].
      rewrite U_invalidate. cbn [obind]. by exists k', rs', pre', rest', nx'.
Qed.
(** What the passes have done: [inl] when a range was kept. *)
Definition passed (k0 : kernel) (rs0 : gmap Z MappedRange) (l0 : list Z) (ex : option Z)
    (flags : Z) (ty : Type_) (keep : bool) (o : Z * machine + machine * bool) : Prop :=
  exists k rs l nx, inv k rs l nx ex /\ processes k = processes k0 /\
  (forall a v, ~ b <= a < e -> view rs l a v <-> view rs0 l0 a v) /\
  match o with
  | inl (r, s) => s = U k rs l nx /\ keep = true /\
      forall a, b <= a < e -> exists f0 src, view rs0 l0 a (ty, f0, src) /\
        forall v, view rs l a v <-> v = (ty, flags, src)
  | inr (s, _) => s = U k rs l nx /\ clear rs l b e
  end.

(** A range kept in place, with new flags. *)
Lemma kept_range k rs l nx ex r x flags :
  inv k rs l nx ex -> r ∈ l -> rs !! r = Some x -> base x = b -> base x + length x = e ->
  inv k (<[r := x <| page_flags := flags |>]> rs) l nx ex /\
  (forall a v, ~ b <= a < e -> view (<[r := x <| page_flags := flags |>]> rs) l a v <-> view rs l a v) /\
  (forall a, b <= a < e -> view rs l a (type x, page_flags x, source_of x a) /\
     forall v, view (<[r := x <| page_flags := flags |>]> rs) l a v <-> v = (type x, flags, source_of x a)).
Proof.
  intros [Hl Hids Hfiles] Hr Hx Hb He. set (y := x <| page_flags := flags |>).
  destruct (lw_range rs _ Hl r Hr) as (x' & Hx' & Hw). assert (x' = x) as -> by congruence.
  assert (Hin : forall a, b <= a < e <-> inside y a) by (intros; unfold inside, y; simpl; lia).
  assert (Hinx : forall a, b <= a < e <-> inside x a) by (intros; unfold inside; lia).
  assert (Hex : forall a v, inside x a -> ~ view_except rs l r a v).
  { intros a v Ha (r' & x' & H1 & H2 & H3 & H4 & _). pose proof (lw_disj rs l Hl r' r x' x H1 Hr H2 H3 Hx).
    unfold disjoint_from, inside in *. lia. }
  split_and!.
  - split; [|done|].
    + apply list_wf_put; [done..|]. intros r' x' Hr' Hne Hx2. by apply (lw_disj rs l Hl r' r x' x).
    + intros d. rewrite (users_mono rs); [apply Hfiles|]. intros q _. destruct (decide (q = r)) as [->|].
      * by rewrite lookup_insert_eq, Hx.
      * by rewrite lookup_insert_ne.
  - intros a v Ha. rewrite view_put, (view_split rs l r x) by done. rewrite <- Hin, <- Hinx. tauto.
  - intros a Ha. pose proof (proj1 (Hinx a) Ha) as Hxa. pose proof (proj1 (Hin a) Ha) as Hya. split.
    + apply (view_split rs l r x); [done..|]. by left.
    + intros v. rewrite view_put by done. split.
      * intros [[_ <-]|H]; [done|by apply Hex in H].
      * intros ->. by left.
Qed.

Lemma resolve_pass_spec ex flags ty keep k0 rs0 l0 fuel : forall k rs pre rest nx overlap,
  inv k rs (pre ++ rest) nx ex -> clear rs pre b e -> cuttable rs rest -> (turns rs b e rest <= fuel)%nat ->
  processes k = processes k0 ->
  (forall a v, ~ b <= a < e -> view rs (pre ++ rest) a v <-> view rs0 l0 a v) ->
  (forall a v, b <= a < e -> view rs (pre ++ rest) a v -> view rs0 l0 a v) ->
  exists o, resolve_pass fuel (U k rs (pre ++ rest) nx) g (head rest) b e flags ty keep overlap = Ret o /\
    passed k0 rs0 l0 ex flags ty keep o /\
    (clear rs rest b e -> o = inr (U k rs (pre ++ rest) nx, overlap)).
Proof.
  induction fuel as [|fuel IH]; intros k rs pre rest nx overlap Hinv Hc Hcut Hf Hpr Hout Hsub.
  { destruct rest as [|r rest]; [|rewrite turns_cons in Hf; lia]. cbn [resolve_pass head].
    eexists. split; [reflexivity|]. rewrite app_nil_r in *. split; [|done]. by exists k, rs, pre, nx. }
  destruct rest as [|r rest].
  { cbn [resolve_pass head]. eexists. split; [reflexivity|]. rewrite app_nil_r in *. split; [|done].
    by exists k, rs, pre, nx. }
  cbn [resolve_pass head]. rewrite U_pagemap. cbn [obind].
  change (range_list (m <| range_list := pre ++ r :: rest |>)) with (pre ++ r :: rest).
  pose proof (inv_list _ _ _ _ _ Hinv) as Hl. assert (Hr : r ∈ pre ++ r :: rest) by set_solver.
  rewrite after_app by (apply (lw_nodup _ _ Hl)).
  destruct (lw_range _ _ Hl r Hr) as (x & Hx & Hw). unfold get_range.
  change (ranges (U k rs (pre ++ r :: rest) nx)) with rs. rewrite Hx. cbn [deref obind]. rewrite (end_wf x Hw).
  rewrite turns_cons in Hf.
  destruct ((b >=? base x + length x) || (e <=? base x)) eqn:Hov.
  - assert (disjoint_from x b e) as Hd.
    { rewrite Z.geb_leb in Hov. apply orb_prop in Hov. unfold disjoint_from. destruct Hov; zbool; lia. }
    replace (pre ++ r :: rest) with ((pre ++ [r]) ++ rest) in * by (by rewrite <- app_assoc).
    rewrite decide_False in Hf by (unfold meets; rewrite Hx; tauto).
    destruct (IH k rs (pre ++ [r]) rest nx overlap Hinv) as (o & Ho & Hp & Hcl); try done; [| |lia|].
    + intros q z Hq Hz. apply elem_of_app in Hq as [Hq| ->%list_elem_of_singleton]; [by apply (Hc q)|congruence].
    + intros q z Hq. apply Hcut. by right.
    + exists o. split_and!; [done..|]. intros Hcr. apply Hcl. intros q z Hq. apply Hcr. by right.
  - assert (~ disjoint_from x b e) as Hd.
    { rewrite Z.geb_leb in Hov. unfold disjoint_from. zbool. lia. }
    rewrite decide_True in Hf by (unfold meets; by rewrite Hx).
    assert (Hnc : clear rs (r :: rest) b e -> False) by (intros Hcr; apply Hd, (Hcr r); [by left|done]).
    destruct (resolve_one_spec k rs pre r rest nx ex x flags ty keep Hinv Hx Hd (Hcut r x ltac:(by left) Hx)) as
      [(Hk & Hb & He & Hty & ->)|(k' & rs' & pre' & rest' & nx' & -> & [R1 R2 R3 R4 R5 R6 R7 R8])].
    + cbn [obind]. eexists. split; [reflexivity|]. split; [|intros H; by apply Hnc in H].
      destruct (kept_range k rs (pre ++ r :: rest) nx ex r x flags Hinv Hr Hx Hb He) as (Hinv' & Hv1 & Hv2).
      eexists k, _, _, nx. split; [exact Hinv'|]. split; [done|]. split.
      { intros a v Ha. rewrite Hv1 by done. by apply Hout. }
      split; [done|]. split; [done|]. intros a Ha. destruct (Hv2 a Ha) as [Hold Hnew].
      eexists _, (source_of x a). rewrite <- Hty. split; [by apply Hsub|done].
    + cbn [obind]. rewrite <- R2.
      destruct (IH k' rs' pre' rest' nx' true R1) as (o & Ho & Hp & _).
      * by apply R3.
      * apply R7. intros q z Hq. apply Hcut. by right.
      * lia.
      * congruence.
      * intros a v Ha. rewrite R4 by done. by apply Hout.
      * intros a v Ha Hv. apply Hsub; [done|]. by apply R5.
      * exists o. split_and!; [done..|]. intros H. by apply Hnc in H.
Qed.

Lemma resolve_overlaps_spec ex flags ty keep k rs l nx :
  inv k rs l nx ex -> cuttable rs l ->
  exists o, resolve_overlaps 3 (U k rs l nx) g b e flags ty keep false = Ret o /\
    passed k rs l ex flags ty keep o.
Proof.
  intros Hinv Hcut.
  assert (Hfuel : forall l rs, (turns rs b e l <= S (List.length l + List.length l))%nat).
  { intros l' rs'. unfold turns. pose proof (length_filter (meets rs' b e) l'). lia. }
  remember 2%nat as two eqn:Htwo. cbn [resolve_overlaps]. rewrite U_pagemap. cbn [obind].
  destruct (resolve_pass_spec ex flags ty keep k rs l (S (List.length l + List.length l))
    k rs [] l nx false Hinv) as (o & Ho & Hp & _);
    [intros q z Hq; by apply elem_of_nil in Hq|done|apply Hfuel|done..|].
  change (range_list (m <| range_list := l |>)) with l. simpl app in Ho. rewrite Ho. cbn [obind].
  destruct o as [[r s]|[s ov]]; [by eexists|].
  destruct Hp as (k1 & rs1 & l1 & nx1 & Hinv1 & Hpr1 & Hv1 & -> & Hcl1).
  destruct ov; [|eexists; split; [done|]; by exists k1, rs1, l1, nx1].
  subst two. remember 1%nat as one eqn:Hone. cbn [resolve_overlaps]. rewrite U_pagemap. cbn [obind].
  destruct (resolve_pass_spec ex flags ty keep k1 rs1 l1 (S (List.length l1 + List.length l1))
    k1 rs1 [] l1 nx1 false Hinv1) as (o & Ho1 & _ & Hcl);
    [intros q z Hq; by apply elem_of_nil in Hq| |apply Hfuel|done..|].
  { intros q z Hq Hz Hb He. exfalso. pose proof (Hcl1 q z Hq Hz). unfold disjoint_from in *. lia. }
  change (range_list (m <| range_list := l1 |>)) with l1. simpl app in Ho1. rewrite Ho1. cbn [obind].
  rewrite (Hcl Hcl1). simpl. eexists. split; [reflexivity|]. by exists k1, rs1, l1, nx1.
Qed.
End resolve.
End quiet.

(** ** add_range *)

(** An address space none of the pages of which have been touched; [ex] is a file
    its caller holds a reference to. *)
Record space_wf (s : machine) (own : gmap Z owner) (g : Z) (ex : option Z) : Prop := {
  sp_tables : tables_wf s own;
  sp_quiet v : pte s g v = 0;
  sp_map : exists m, pagemaps s !! g = Some m /\ inv (kern s) (ranges s) (range_list m) (next_addr s) ex }.

(** Address [a] is mapped, with the attributes [v]. *)
Definition mapped_as (s : machine) (g a : Z) (v : attributes) : Prop :=
  exists m, pagemaps s !! g = Some m /\ view (ranges s) (range_list m) a v.

(** Every range that has to be cut in two can be. *)
Definition cuttable_in (s : machine) (g b e : Z) : Prop :=
  forall m, pagemaps s !! g = Some m -> cuttable b e (ranges s) (range_list m).

Lemma mapped_as_view s g m a v :
  pagemaps s !! g = Some m -> mapped_as s g a v <-> view (ranges s) (range_list m) a v.
Proof. intros Hm. split; [intros (m' & Hm' & Hv); by simplify_eq|by exists m]. Qed.

Lemma add_range_spec s own g b len flags ty pb f off merge keep :
  space_wf s own g f -> 0 <= b -> 0 < len -> b + len < 18446744073709551616 ->
  cuttable_in s g b (b + len) ->
  exists o s', add_range s g b len flags ty pb f off merge true keep = Ret (o, s') /\
    space_wf s' own g f /\ processes (kern s') = processes (kern s) /\
    (forall a v, ~ b <= a < b + len -> mapped_as s' g a v <-> mapped_as s g a v) /\
    forall a, b <= a < b + len ->
      (forall v, mapped_as s' g a v <-> ty <> NONE /\ v = new_attr b flags ty pb f off a) \/
      (keep = true /\ exists f0 src, mapped_as s g a (ty, f0, src) /\
         forall v, mapped_as s' g a v <-> v = (ty, flags, src)).
Proof.
  intros [Hwf Hq (m0 & Hm0 & Hinv)] Hb Hlen Hend Hcut. specialize (Hcut m0 Hm0).
  set (m := m0 <| cached_range_lookup := None |>).
  assert (Hs : put_pagemap g m s = set_ranges s g m (kern s) (ranges s) (range_list m0) (next_addr s)) by done.
  assert (Hmap : forall k rs l nx a v, mapped_as (set_ranges s g m k rs l nx) g a v <-> view rs l a v).
  { intros. rewrite (mapped_as_view _ _ (m <| range_list := l |>)) by (simpl; by rewrite lookup_insert_eq). done. }
  assert (Hspace : forall k rs l nx, inv k rs l nx f -> space_wf (set_ranges s g m k rs l nx) own g f).
  { intros k rs l nx Hi. pose proof (U_same s g m0 m Hm0 eq_refl eq_refl k rs l nx) as Hst. split.
    - by apply (same_tables_wf s).
    - intros v. by rewrite (same_tables_pte s).
    - eexists. simpl. rewrite lookup_insert_eq. split; [done|exact Hi]. }
  assert (H0 : forall a v, mapped_as s g a v <-> view (ranges s) (range_list m0) a v) by (intros; by apply mapped_as_view).
  destruct (resolve_overlaps_spec s own g m0 m Hwf Hm0 eq_refl eq_refl Hq b (b + len) ltac:(lia) ltac:(lia)
    f flags ty keep (kern s) (ranges s) (range_list m0) (next_addr s) Hinv Hcut) as (o & Ho & Hp).
  unfold add_range, get_pagemap. rewrite Hm0. cbn [deref obind]. fold m. rewrite Hs, u64_small, Ho by lia.
  cbn [obind]. destruct Hp as (k1 & rs1 & l1 & nx1 & Hinv1 & Hpr & Hout & Ho').
  destruct o as [[r s1]|[s1 had]].
  - destruct Ho' as (-> & -> & Hin). eexists _, _. split; [reflexivity|]. split; [by apply Hspace|].
    split; [done|]. split; [intros a v Ha; by rewrite Hmap, H0, Hout|]. intros a Ha. right.
    split; [done|]. destruct (Hin a Ha) as (f0 & src & Hold & Hnew). exists f0, src. rewrite H0.
    split; [done|]. intros v. by rewrite Hmap.
  - destruct Ho' as [-> Hclear].
    destruct (insert_range_spec s own g m0 m Hwf Hm0 eq_refl eq_refl Hq k1 rs1 l1 nx1 f b len flags ty pb f off
      merge had Hinv1 Hb Hlen Hend Hclear) as (o & k2 & rs2 & l2 & nx2 & Hret & Hinv2 & Hpr2 & Hview).
    { intros d ->. apply (inv_files _ _ _ _ _ Hinv1). unfold users. rewrite decide_True by done. lia. }
    rewrite Hret. eexists _, _. split; [reflexivity|]. split; [by apply Hspace|].
    split; [simpl; congruence|]. split.
    + intros a v Ha. rewrite Hmap, H0, Hview, Hout by done. tauto.
    + intros a Ha. left. intros v. rewrite Hmap, Hview.
      pose proof (clear_view rs1 l1 b (b + len) a v Hclear Ha). tauto.
Qed.

(** munmap of any page-aligned interval succeeds and leaves every address of
    the interval unmapped and every other address mapped as it was, with the same
    protection and the same place in its file or device, whatever the ranges it
    removes, trims or cuts in two; the bump pointer of mmap moves back when the
    interval ends there. (Address spaces without resident pages; ranges to be cut
    must not have been cut at the front before, see [split_shifts_file].) *)
Theorem munmap_unmaps s own g p pr addr length :
  space_wf s own g None -> processes (kern s) !! p = Some pr -> pagemap pr = Some g ->
  0 <= addr -> addr mod PAGE_SIZE = 0 -> 0 < length -> addr + length <= 18446744073709547520 ->
  let len := (length + PAGE_SIZE - 1) / PAGE_SIZE * PAGE_SIZE in
  cuttable_in s g addr (addr + len) ->
  exists s' pr', syscall_munmap s p addr length = Ret (0, s') /\ space_wf s' own g None /\
    (forall a v, addr <= a < addr + len -> ~ mapped_as s' g a v) /\
    (forall a v, ~ addr <= a < addr + len -> mapped_as s' g a v <-> mapped_as s g a v) /\
    processes (kern s') !! p = Some pr' /\
    mmap_anon_base pr' = if mmap_anon_base pr =? addr + len then addr else mmap_anon_base pr.
Proof.
  intros Hsp Hp Hg Hal Ha0 Hl Hend len Hcut.
  assert (Hlen : klib.align_up length PAGE_SIZE = len) by (apply klib.align_up_page; unfold PAGE_SIZE; lia).
  assert (0 < len /\ addr + len < 18446744073709551616) as [Hl1 Hl2] by (unfold len, PAGE_SIZE in *; lia).
  destruct (add_range_spec s own g addr len 0 NONE 0 None 0 false false Hsp Hal Hl1 Hl2 Hcut)
    as (o & s1 & Hadd & Hsp1 & Hpr & Hout & Hin).
  assert (Hnone : forall a v, addr <= a < addr + len -> ~ mapped_as s1 g a v).
  { intros a v Ha Hm. destruct (Hin a Ha) as [H|[? _]]; [|done]. by apply H in Hm as [? _]. }
  unfold syscall_munmap, get_process. rewrite Hp. cbn [deref obind]. rewrite Ha0. cbn [negb Z.eqb].
  rewrite Hg. cbn [deref obind]. rewrite Hlen, Hadd. cbn [obind]. rewrite Hpr, Hp. cbn [deref obind].
  rewrite u64_small by lia.
  assert (Hset : forall q, space_wf (set_process p q s1) own g None).
  { intros q. destruct Hsp1 as [[T1 T2 T3 T4 T5 T6] S2 (m & S3 & S4)]. split; [by split|done|].
    exists m. split; [done|]. destruct S4 as [L1 L2 L3]. split; try done. }
  destruct (mmap_anon_base pr =? addr + len).
  - eexists _, _. split; [reflexivity|]. split_and!; [done|done|done| |].
    + simpl. by rewrite lookup_insert_eq.
    + done.
  - eexists _, pr. split; [reflexivity|]. split_and!; [done|done|done|by rewrite Hpr|done].
Qed.

(** An address that is mapped as anonymous is in a range that can be cut. *)
Lemma cuttable_anonymous s own g ex b e :
  space_wf s own g ex -> b < e -> (exists a fl, b <= a < e /\ mapped_as s g a (ANONYMOUS, fl, SNone)) ->
  cuttable_in s g b e.
Proof.
  intros [_ _ (m & Hm & [Hl _ _])] Hbe (a & fl & Ha & Hv) m' Hm' q x Hq Hx Hb He. simplify_eq.
  apply (mapped_as_view s g m) in Hv; [|done].
  assert (view (ranges s) (range_list m) a (attr x a)) as Hx' by (exists q, x; unfold inside; split_and!; try done; lia).
  pose proof (view_unique _ _ _ _ _ Hl Hv Hx') as [= Ht _ _]. by left.
Qed.


(** ** The concrete machine *)

(** Process 1 with pagemap 1, and an open file 9. *)
Definition sample_kernel : kernel :=
  sample <| processes := {[1 := Process_init 1 0 0 0 <| pagemap := Some 1 |> <| mmap_anon_base := 1048576 |> ]} |>
         <| descriptions := {[9 := mkDescription 0 0 0 0 1]} |>.

Lemma sample_space : space_wf (sample_machine sample_kernel) sample_own 1 None.
Proof.
  split; [apply sample_tables_wf| |].
  - intros v. unfold pte. rewrite sample_roots, lookup_insert_ne, lookup_singleton_eq by done. cbn [pml4].
    apply walk_zero. rewrite sample_phys. vm_compute. reflexivity.
  - eexists. rewrite sample_roots, lookup_insert_ne, lookup_singleton_eq by done. split; [reflexivity|].
    rewrite sample_ranges. cbn [range_list]. split.
    + split.
      * apply NoDup_singleton.
      * intros r ->%list_elem_of_singleton. eexists. rewrite lookup_singleton_eq. split; [reflexivity|].
        unfold range_wf. simpl. split_and!; done || lia.
      * intros r1 r2 x1 x2 ->%list_elem_of_singleton ->%list_elem_of_singleton. done.
    + intros r ->%list_elem_of_singleton. vm_compute. reflexivity.
    + intros d Hd. exfalso. unfold users in Hd. rewrite filter_cons_False in Hd; [simpl in Hd; lia|].
      unfold holds. rewrite lookup_singleton_eq. done.
Qed.

Lemma sample_cuttable b e : cuttable_in (sample_machine sample_kernel) 1 b e.
Proof.
  intros m. rewrite sample_roots, lookup_insert_ne, lookup_singleton_eq by done. intros [= <-].
  intros q x ->%list_elem_of_singleton. rewrite sample_ranges, lookup_singleton_eq. intros [= <-] _ _. by left.
Qed.

(** Unmapping the middle of three pages. *)
Lemma munmap_unmaps_witness :
  exists s', syscall_munmap (sample_machine sample_kernel) 1 69632 4096 = Ret (0, s') /\
    (forall v, ~ mapped_as s' 1 70000 v) /\ mapped_as s' 1 75000 (ANONYMOUS, 7, SNone).
Proof.
  destruct (munmap_unmaps (sample_machine sample_kernel) sample_own 1 1
    (Process_init 1 0 0 0 <| pagemap := Some 1 |> <| mmap_anon_base := 1048576 |>) 69632 4096 sample_space)
    as (s' & pr' & H1 & _ & H2 & H3 & _).
  - vm_compute. reflexivity.
  - reflexivity.
  - lia.
  - reflexivity.
  - lia.
  - lia.
  - apply sample_cuttable.
  - change ((4096 + PAGE_SIZE - 1) / PAGE_SIZE * PAGE_SIZE) with 4096 in *.
    exists s'. split; [exact H1|]. split; [intros v; apply H2; lia|]. apply H3; [lia|].
    eexists. rewrite sample_roots, lookup_insert_ne, lookup_singleton_eq by done. split; [reflexivity|].
    rewrite sample_ranges. eexists 2, _. rewrite lookup_singleton_eq. split; [by left|]. split; [reflexivity|].
    split; [unfold inside; simpl; lia|reflexivity].
Defined.


(** ** What the code gets wrong *)

(** A file mapping of four pages that lost its first page to munmap and is then cut
    in two: the last page, which showed the file at 12288, shows it at 8192. *)
Definition cut_twice : outcome machine :=
  let! s := map_file (two_pagemaps sample_kernel) 1 65536 16384 7 9 0 in
  let! (_, s) := syscall_munmap s 1 65536 4096 in
  let! (_, s) := syscall_munmap s 1 73728 4096 in
  Ret s.
Lemma split_shifts_file :
  (let! s := cut_twice in Ret ((fun x => (base x, source_of x 77824)) <$> ranges s !! 3)) =
    Ret (Some (77824, SFile (Some 9) 8192)).
Proof. vm_compute. reflexivity. Qed.

(** MAP_FIXED over the tail of an anonymous mapping keeps the frame, and what it
    holds, instead of giving a page of zeroes. *)
Lemma fixed_mapping_keeps_page :
  (let! (frame, s1) := handle_page_fault (fun _ _ => zero_page) 1 (sample_machine sample_kernel) 1 73728 in
   let! (_, s2) := syscall_mmap (fun s _ _ _ _ _ _ => Ret (0, s)) s1 1 73728 4096 3 (MAP_ANONYMOUS .| MAP_FIXED) (-1) 0 in
   Ret (Z.land (pte s2 1 73728) ADDR_MASK =? frame)) = Ret true.
Proof. vm_compute. reflexivity. Qed.

(** mprotect of part of a device mapping replaces its frames by free memory. *)
Lemma mprotect_replaces_device :
  (let! s := map_direct (two_pagemaps sample_kernel) 1 65536 8192 7 4276092928 in
   let! (frame, s1) := handle_page_fault (fun _ _ => zero_page) 1 s 1 65536 in
   let! (_, s2) := syscall_mprotect s1 1 65536 4096 1 in
   Ret (frame, Z.land (pte s2 1 65536) ADDR_MASK <? 1310720)) = Ret (4276092928, true).
Proof. vm_compute. reflexivity. Qed.
