(* ===== verification/Vmem.v ===== *)
(** * The resource allocator (mem/vmem.hpp, mem/vmem.cpp)

    An arena hands out intervals of its spans. Its boundary tags are keys of [tags];
    a tag is in at most one of the lists linked through [list] (a free list, a hash
    bucket or the list of spans) and in at most one of those linked through
    [tag_list] (the arena's, or the pool of free tags, which all arenas share).

    [xfree] finds the neighbours of a segment with [LIST_ENTRY(.., list)] on links
    of [tag_list]: the pointers it gets are 16 bytes below the neighbours' tags, so
    that what it reads as their type is the low half of their base. When that is 0
    it would merge with a tag that does not exist and write over others: [Undef]. *)

From S2P Require Import Prelude CString Links.

Module vmem.

(** ** Data *)

Inductive Type_ := FREE | ALLOCATED | SPAN.
#[export] Instance Type_eq_dec : EqDecision Type_.
Proof. solve_decision. Defined.

Record BoundaryTag := mkTag { base : Z; size : Z; type : Type_ }.
#[export] Instance eta_BoundaryTag : Settable BoundaryTag := fun t => mkTag (base t) (size t) (type t).

Definition num_freelists : nat := 64.
Definition num_hash_buckets : nat := 16.

Record Arena := mkArena {
  arena_name : mem;
  quantum : Z;
  tag_list_head : list Z;
  span_list_head : list Z;
  freelist_heads : list (list Z);
  hash_table : list (list Z)
}.
#[export] Instance eta_Arena : Settable Arena := fun a =>
  mkArena (arena_name a) (quantum a) (tag_list_head a) (span_list_head a) (freelist_heads a) (hash_table a).

(** The tags, the pool of free ones and an arena. *)
Record machine := mkMachine { tags : gmap Z BoundaryTag; free_tags : list Z; num_free_tags : Z; arena : Arena }.
#[export] Instance eta_machine : Settable machine := fun m =>
  mkMachine (tags m) (free_tags m) (num_free_tags m) (arena m).

Implicit Types (m : machine) (a : Arena) (t : Z).

(** ** Lists *)

(** The members of the lists linked through [list], and through [tag_list]. *)
Definition listed a : list Z := concat (freelist_heads a) ++ concat (hash_table a) ++ span_list_head a.
Definition tagged m : list Z := tag_list_head (arena m) ++ free_tags m.

(** [t->list.remove()], from whichever list the tag is in. *)
Definition unlist t a : outcome Arena :=
  if decide (t ∈ listed a) then
    let drop_t := filter (fun x => x <> t) in
    Ret (a <| freelist_heads ::= map drop_t |> <| hash_table ::= map drop_t |>
           <| span_list_head ::= drop_t |>)
  else Undef.

(** [x] put just before [y], and just after it. *)
Fixpoint put_before (y x : Z) (l : list Z) : list Z :=
  match l with
  | [] => []
  | z :: l => if decide (z = y) then x :: z :: l else z :: put_before y x l
  end.
Fixpoint put_after (y x : Z) (l : list Z) : list Z :=
  match l with
  | [] => []
  | z :: l => if decide (z = y) then z :: x :: l else z :: put_after y x l
  end.
Fixpoint next_of (y : Z) (l : list Z) : option Z :=
  match l with
  | [] => None
  | z :: l => if decide (z = y) then head l else next_of y l
  end.
Fixpoint prev_of (y : Z) (l : list Z) : option Z :=
  match l with
  | z :: ((z' :: _) as l') => if decide (z' = y) then Some z else prev_of y l'
  | _ => None
  end.

(** Where a tag is linked: first, last, or next to another, which must be linked. *)
Inductive place := First | Last | Before (y : Z) | After (y : Z).
Definition put_at (p : place) (x : Z) (l : list Z) : outcome (list Z) :=
  match p with
  | First => Ret (x :: l)
  | Last => Ret (l ++ [x])
  | Before y => if decide (y ∈ l) then Ret (put_before y x l) else Undef
  | After y => if decide (y ∈ l) then Ret (put_after y x l) else Undef
  end.

(** Linking through [tag_list] and into the list of spans, a tag that is not linked. *)
Definition link_tag t (p : place) m : outcome machine :=
  if decide (t ∈ tagged m) then Undef else
  let! l := put_at p t (tag_list_head (arena m)) in
  Ret (m <| arena ::= fun a => a <| tag_list_head := l |> |>).
Definition link_span t (p : place) m : outcome machine :=
  if decide (t ∈ listed (arena m)) then Undef else
  let! l := put_at p t (span_list_head (arena m)) in
  Ret (m <| arena ::= fun a => a <| span_list_head := l |> |>).

(** ** The pool of tags *)

Definition num_static_tags : Z := 128.

(** [static_tags] are at addresses [first], [first + 1], ... *)
Definition early_init (first : Z) m : machine :=
  m <| free_tags ::= fun l => l ++ seqZ first num_static_tags |>
    <| num_free_tags ::= Z.add num_static_tags |>.

Definition allocate_tag m : outcome (Z * machine) :=
  match free_tags m with
  | [] => Panic
  | t :: ts => Ret (t, m <| free_tags := ts |> <| num_free_tags ::= fun n => n - 1 |>)
  end.

Definition free_tag t m : outcome machine :=
  if decide (t ∈ tagged m) then Undef
  else Ret (m <| free_tags ::= fun l => l ++ [t] |> <| num_free_tags ::= Z.add 1 |>).

(** ** Free lists and buckets *)

(** [63 - clz(size)]: the position of the highest bit; undefined for 0. *)
Definition freelist_index_for_size (size : Z) : outcome nat :=
  if size =? 0 then Undef else Ret (Z.to_nat (Z.log2 size)).

Definition freelist_insert t m : outcome machine :=
  let! tag := deref (tags m !! t) in
  let! i := freelist_index_for_size (size tag) in
  if decide (t ∈ listed (arena m)) then Undef else
  let! l := deref (freelist_heads (arena m) !! i) in
  Ret (m <| arena ::= fun a => a <| freelist_heads ::= <[i := l ++ [t]]> |> |>).

Definition hash_bucket_for_addr (addr : Z) : nat :=
  Z.to_nat (hash_u64 addr mod Z.of_nat num_hash_buckets).

Definition hash_table_insert t m : outcome machine :=
  let! tag := deref (tags m !! t) in
  let i := hash_bucket_for_addr (base tag) in
  if decide (t ∈ listed (arena m)) then Undef else
  let! l := deref (hash_table (arena m) !! i) in
  Ret (m <| arena ::= fun a => a <| hash_table ::= <[i := t :: l]> |> |>).

(** ** The arena *)

(** The name is copied into 64 bytes. *)
Definition init (name : mem) (quantum : Z) : outcome Arena :=
  let! name := strcpy (replicate 64 0) name in
  Ret (mkArena name quantum [] [] (replicate num_freelists []) (replicate num_hash_buckets [])).

(** The loop of [add]: the first span with a base not below, [None] at its end. *)
Fixpoint find_span m (b : Z) (spans : list Z) : outcome (option Z) :=
  match spans with
  | [] => Ret None
  | t :: spans =>
      let! tag := deref (tags m !! t) in
      if base tag >=? b then Ret (Some t) else find_span m b spans
  end.

Definition put_tag t (tag : BoundaryTag) m : machine := m <| tags ::= <[t := tag]> |>.

(** [previous_span] is never null: at the end of the loop it is the entry of the
    list's head, after which the span is put. *)
Definition add m (b sz : Z) : outcome machine :=
  let! previous_span := find_span m b (span_list_head (arena m)) in
  let! (new_span, m) := allocate_tag m in
  let m := put_tag new_span (mkTag b sz SPAN) m in
  let! (new_segment, m) := allocate_tag m in
  let m := put_tag new_segment (mkTag b sz FREE) m in
  let spans := span_list_head (arena m) in
  let next := match previous_span with Some p => next_of p spans | None => head spans end in
  let! m := link_span new_span (match previous_span with Some p => After p | None => First end) m in
  let! m := link_tag new_span (match next with Some n => Before n | None => Last end) m in
  let! m := link_tag new_segment (After new_span) m in
  freelist_insert new_segment m.

(** The first tag of the first free list from [i] on that is not empty. *)
Fixpoint first_free (lists : list (list Z)) : option Z :=
  match lists with
  | [] => None
  | (t :: _) :: _ => Some t
  | [] :: lists => first_free lists
  end.

(** The address, 0 if there is none. *)
Definition xalloc m (sz : Z) : outcome (Z * machine) :=
  let! _ := assert (negb (sz =? 0)) in
  let! _ := if quantum (arena m) =? 0 then Undef else assert (sz mod quantum (arena m) =? 0) in
  let! i := freelist_index_for_size sz in
  let i := if Z.land sz (sz - 1) =? 0 then i else S i in
  match first_free (drop i (freelist_heads (arena m))) with
  | None => Ret (0, m)
  | Some segment =>
      let! tag := deref (tags m !! segment) in
      let! a := unlist segment (arena m) in
      let m := m <| arena := a |> in
      if size tag =? sz then
        let m := put_tag segment (tag <| type := ALLOCATED |>) m in
        let! m := hash_table_insert segment m in
        Ret (base tag, m)
      else
        let! (new_segment, m) := allocate_tag m in
        let m := put_tag new_segment (mkTag (base tag) sz ALLOCATED) m in
        let m := put_tag segment (tag <| base := u64 (base tag + sz) |> <| size := u64 (size tag - sz) |>) m in
        let! m := link_tag new_segment (Before segment) m in
        let! m := freelist_insert segment m in
        let! m := hash_table_insert new_segment m in
        Ret (base tag, m)
  end.

(** The loop of [xfree]. *)
Fixpoint find_segment m (addr : Z) (bucket : list Z) : outcome (option Z) :=
  match bucket with
  | [] => Ret None
  | t :: bucket =>
      let! tag := deref (tags m !! t) in
      if base tag =? addr then Ret (Some t) else find_segment m addr bucket
  end.

(** What is read as the type of a neighbour: the low half of its base; [FREE] is 0. *)
Definition reads_free (neighbour : BoundaryTag) : bool := u32 (base neighbour) =? 0.

Definition xfree m (addr sz : Z) : outcome machine :=
  let! bucket := deref (hash_table (arena m) !! hash_bucket_for_addr addr) in
  let! s := find_segment m addr bucket in
  match s with
  | None => Panic
  | Some segment =>
      let! tag := deref (tags m !! segment) in
      if negb (sz =? 0) && negb (sz =? size tag) then Panic else
      let! a := unlist segment (arena m) in
      let m := m <| arena := a |> in
      let! left_ := deref (prev_of segment (tag_list_head (arena m))) in
      let! ltag := deref (tags m !! left_) in
      if reads_free ltag then Undef else
      let! _ := match next_of segment (tag_list_head (arena m)) with
                | None => Ret tt
                | Some right_ =>
                    let! rtag := deref (tags m !! right_) in
                    if reads_free rtag then Undef else Ret tt
                end in
      freelist_insert segment (put_tag segment (tag <| type := FREE |>) m)
  end.

End vmem.
