(* ===== verification/VmemFacts.v ===== *)
(** * Lemmas on the resource allocator (mem/vmem.cpp)

    The lists its tags are in; the abstract allocator an arena implements and the
    geometry of segments and spans; places in lists; the search of the free lists. *)

From S2P Require Import Prelude CString Links Vmem.
Import vmem.

Implicit Types (m : machine) (t : Z) (tag : BoundaryTag) (X : list Z).

(** ** Lists of tags *)

(** A tag of the arena, with what it says. *)
Definition holds_tag m t tag : Prop := t ∈ tag_list_head (arena m) /\ tags m !! t = Some tag.

Definition member X m t tag : Prop := t ∉ X /\ holds_tag m t tag.

(** The free lists, the buckets and the list of spans hold the tags they should, but
    for those of [X], which are in none. *)
Record lists_ok X m : Prop := {
  lo_free : forall i l t, freelist_heads (arena m) !! i = Some l ->
    t ∈ l <-> exists tag, member X m t tag /\ type tag = FREE /\ Z.to_nat (Z.log2 (size tag)) = i;
  lo_hash : forall i l t, hash_table (arena m) !! i = Some l ->
    t ∈ l <-> exists tag, member X m t tag /\ type tag = ALLOCATED /\ hash_bucket_for_addr (base tag) = i;
  lo_span : forall t, t ∈ span_list_head (arena m) <-> exists tag, member X m t tag /\ type tag = SPAN;
  lo_nfree : length (freelist_heads (arena m)) = num_freelists;
  lo_nhash : length (hash_table (arena m)) = num_hash_buckets
}.

Lemma elem_of_listed t a : t ∈ listed a <->
  (exists i l, freelist_heads a !! i = Some l /\ t ∈ l) \/
  (exists i l, hash_table a !! i = Some l /\ t ∈ l) \/ t ∈ span_list_head a.
Proof.
  assert (forall L : list (list Z), t ∈ concat L <-> exists i l, L !! i = Some l /\ t ∈ l) as Hc.
  { intros L. induction L as [|l L IH]; simpl.
    - split; [by intros ?%not_elem_of_nil|]. intros (i & l & ? & _). by destruct i.
    - rewrite elem_of_app, IH. split.
      + intros [?|(i & l' & ? & ?)]; [by exists 0%nat, l|by exists (S i), l'].
      + intros ([|i] & l' & Hl & ?); simpl in Hl; [left; by injection Hl as ->|right; eauto]. }
  unfold listed. by rewrite !elem_of_app, !Hc.
Qed.

Lemma listed_not_in X m t : lists_ok X m -> t ∈ listed (arena m) -> exists tag, member X m t tag.
Proof.
  intros [] [(i & l & Hl & Ht)|[(i & l & Hl & Ht)|Ht]]%elem_of_listed.
  - apply (lo_free0 _ _ _ Hl) in Ht as (tag & ? & _). eauto.
  - apply (lo_hash0 _ _ _ Hl) in Ht as (tag & ? & _). eauto.
  - apply lo_span0 in Ht as (tag & ? & _). eauto.
Qed.

Lemma not_listed X m t : lists_ok X m -> t ∈ X \/ t ∉ tag_list_head (arena m) -> t ∉ listed (arena m).
Proof. intros Hok Hn (tag & HX & Ht & _)%(listed_not_in _ _ _ Hok). tauto. Qed.

(** Only who is a member matters. *)
Lemma exists_iff {A} (P Q R : A -> Prop) : (forall x, P x <-> Q x) -> (exists x, P x /\ R x) <-> (exists x, Q x /\ R x).
Proof. intros H. split; intros (x & Hx & ?); exists x; (split; [by apply H|done]). Qed.

Lemma lists_ok_ext X X' m m' :
  lists_ok X m ->
  freelist_heads (arena m') = freelist_heads (arena m) -> hash_table (arena m') = hash_table (arena m) ->
  span_list_head (arena m') = span_list_head (arena m) ->
  (forall t tag, member X' m' t tag <-> member X m t tag) ->
  lists_ok X' m'.
Proof.
  intros [] Hf Hh Hs Hx. split; rewrite ?Hf, ?Hh, ?Hs; try done; intros.
  - rewrite lo_free0 by done. apply exists_iff. intros. by rewrite Hx.
  - rewrite lo_hash0 by done. apply exists_iff. intros. by rewrite Hx.
  - rewrite lo_span0 by done. apply exists_iff. intros. by rewrite Hx.
Qed.

Lemma lookup_map_filter {A} (f : A -> A) (L : list A) i l : map f L !! i = Some l ->
  exists l0, L !! i = Some l0 /\ l = f l0.
Proof. rewrite list_lookup_fmap. destruct (L !! i); simpl; intros [= <-]; eauto. Qed.

(** Taking [t] out, and putting it in: its tag is the only one concerned. *)
Lemma member_cons_out X m m' t x (P : BoundaryTag -> Prop) :
  (forall y tag, holds_tag m' y tag <-> holds_tag m y tag) ->
  (x <> t /\ exists tag, member X m x tag /\ P tag) <-> exists tag, member (t :: X) m' x tag /\ P tag.
Proof.
  intros Hm. unfold member. setoid_rewrite Hm. setoid_rewrite not_elem_of_cons.
  split; [intros (? & tag & (? & ?) & ?)|intros (tag & ((? & ?) & ?) & ?)]; eauto 10.
Qed.

Lemma member_cons_in X m m' t tag x (P : BoundaryTag -> Prop) (Q : Prop) :
  t ∉ X -> holds_tag m t tag -> (P tag <-> Q) ->
  (forall y tag, holds_tag m' y tag <-> holds_tag m y tag) ->
  ((x = t /\ Q) \/ exists tag, member (t :: X) m x tag /\ P tag) <-> exists tag, member X m' x tag /\ P tag.
Proof.
  intros HtX Ht HQ Hm. rewrite <- HQ, <- (member_cons_out X m m t x P) by done.
  unfold member. setoid_rewrite Hm. split.
  - intros [(-> & ?)|(? & tag' & ? & ?)]; eauto.
  - intros (tag' & (? & Ht') & ?). destruct (decide (x = t)) as [->|]; [left|right; eauto].
    destruct Ht as [_ Ht], Ht' as [_ Ht']. rewrite Ht in Ht'. by injection Ht' as <-.
Qed.

Lemma member_cons_skip X m m' t tag x (P : BoundaryTag -> Prop) :
  t ∉ X -> holds_tag m t tag -> ~ P tag -> (forall y tag, holds_tag m' y tag <-> holds_tag m y tag) ->
  (exists tag, member (t :: X) m x tag /\ P tag) <-> exists tag, member X m' x tag /\ P tag.
Proof.
  intros HtX Ht HP Hm. rewrite <- (member_cons_in X m m' t tag x P False HtX Ht); [tauto|tauto|done].
Qed.

Lemma unlist_ok X m t a : lists_ok X m -> unlist t (arena m) = Ret a ->
  lists_ok (t :: X) (m <| arena := a |>) /\ tag_list_head a = tag_list_head (arena m) /\
  quantum a = quantum (arena m).
Proof.
  intros [] Hu. unfold unlist in Hu. destruct (decide _) as [Hin|]; [|done]. injection Hu as <-. split; [|done].
  split; simpl; rewrite ?length_map; try done.
  - intros i l x (l0 & Hl & ->)%lookup_map_filter. rewrite list_elem_of_filter, (lo_free0 _ _ _ Hl). by apply member_cons_out.
  - intros i l x (l0 & Hl & ->)%lookup_map_filter. rewrite list_elem_of_filter, (lo_hash0 _ _ _ Hl). by apply member_cons_out.
  - intros x. rewrite list_elem_of_filter, lo_span0. by apply member_cons_out.
Qed.

(** Putting [t] in the [i]-th of a list of lists. *)
Lemma elem_of_insert_list (L : list (list Z)) i l (f : list Z -> list Z) t j l' x :
  L !! i = Some l -> (forall y, y ∈ f l <-> y = t \/ y ∈ l) -> <[i := f l]> L !! j = Some l' ->
  exists l0, L !! j = Some l0 /\ (x ∈ l' <-> (x = t /\ i = j) \/ x ∈ l0).
Proof.
  intros Hi Hf Hj. destruct (decide (i = j)) as [<-|Hne].
  - rewrite list_lookup_insert_eq in Hj by by eapply lookup_lt_Some. injection Hj as <-.
    exists l. rewrite Hf. naive_solver.
  - rewrite list_lookup_insert_ne in Hj by done. exists l'. naive_solver.
Qed.

Lemma freelist_insert_ok X m t tag : lists_ok (t :: X) m -> t ∉ X -> holds_tag m t tag -> type tag = FREE ->
  0 < size tag -> (Z.to_nat (Z.log2 (size tag)) < num_freelists)%nat ->
  exists a, freelist_insert t m = Ret (m <| arena := a |>) /\ lists_ok X (m <| arena := a |>) /\
    tag_list_head a = tag_list_head (arena m) /\ quantum a = quantum (arena m).
Proof.
  intros Hok HtX Ht Hty Hsz Hi. unfold freelist_insert. destruct (Ht) as [_ Htag]. rewrite Htag. cbn [deref obind].
  unfold freelist_index_for_size. rewrite (proj2 (Z.eqb_neq _ _)) by lia. cbn [obind].
  rewrite decide_False by (eapply not_listed; [done|left; left]).
  destruct (lookup_lt_is_Some_2 (freelist_heads (arena m)) (Z.to_nat (Z.log2 (size tag)))) as [l Hl];
    [by rewrite (lo_nfree _ _ Hok)|]. rewrite Hl. cbn [deref obind]. eexists. split; [reflexivity|].
  destruct Hok. split; [|done]. split; simpl; try done.
  - intros j l' x Hj. destruct (elem_of_insert_list _ _ _ (fun l => l ++ [t]) t j l' x Hl) as (l0 & Hl0 & ->);
      [intros y; rewrite elem_of_app, list_elem_of_singleton; tauto|done|].
    rewrite (lo_free0 _ _ _ Hl0). eapply member_cons_in; [done|exact Ht| |done]. tauto.
  - intros j l' x Hj. rewrite (lo_hash0 _ _ _ Hj). eapply member_cons_skip; [done|exact Ht|rewrite Hty; by intros [? _]|done].
  - intros x. rewrite lo_span0. eapply member_cons_skip; [done|exact Ht|by rewrite Hty|done].
  - by rewrite length_insert.
Qed.

Lemma hash_insert_ok X m t tag : lists_ok (t :: X) m -> t ∉ X -> holds_tag m t tag -> type tag = ALLOCATED ->
  exists a, hash_table_insert t m = Ret (m <| arena := a |>) /\ lists_ok X (m <| arena := a |>) /\
    tag_list_head a = tag_list_head (arena m) /\ quantum a = quantum (arena m).
Proof.
  intros Hok HtX Ht Hty. unfold hash_table_insert. destruct (Ht) as [_ Htag]. rewrite Htag. cbn [deref obind].
  rewrite decide_False by (eapply not_listed; [done|left; left]).
  destruct (lookup_lt_is_Some_2 (hash_table (arena m)) (hash_bucket_for_addr (base tag))) as [l Hl].
  { rewrite (lo_nhash _ _ Hok). unfold hash_bucket_for_addr, num_hash_buckets.
    pose proof (Z.mod_pos_bound (hash_u64 (base tag)) 16). lia. }
  rewrite Hl. cbn [deref obind]. eexists. split; [reflexivity|].
  destruct Hok. split; [|done]. split; simpl; try done.
  - intros j l' x Hj. rewrite (lo_free0 _ _ _ Hj). eapply member_cons_skip; [done|exact Ht|rewrite Hty; by intros [? _]|done].
  - intros j l' x Hj. destruct (elem_of_insert_list _ _ _ (cons t) t j l' x Hl) as (l0 & Hl0 & ->);
      [intros y; rewrite elem_of_cons; tauto|done|].
    rewrite (lo_hash0 _ _ _ Hl0). eapply member_cons_in; [done|exact Ht| |done]. tauto.
  - intros x. rewrite lo_span0. eapply member_cons_skip; [done|exact Ht|by rewrite Hty|done].
  - by rewrite length_insert.
Qed.

(** ** The abstract allocator

    Its spans and the live intervals, each a map from base to size. *)
Record allocator := mkAllocator { spans : gmap Z Z; live : gmap Z Z }.

Inductive op := Add (b n : Z) | Alloc (n : Z) | Free (addr n : Z).
Definition run_op (o : op) m : outcome (Z * machine) :=
  match o with
  | Add b n => let! m := add m b n in Ret (0, m)
  | Alloc n => xalloc m n
  | Free addr n => let! m := xfree m addr n in Ret (0, m)
  end.

Definition apart (b n b' n' : Z) : Prop := b + n <= b' \/ b' + n' <= b.
Definition inside (b n b' n' : Z) : Prop := b' <= b /\ b + n <= b' + n'.

(** What a caller must respect: a new span is disjoint from the others, and neither
    starts at nor crosses a multiple of 4 GiB; what is freed is live. *)
Definition allowed (q : Z) s (o : op) : Prop :=
  match o with
  | Add b n => 0 < n /\ b mod q = 0 /\ 0 <= b /\ b + n <= 18446744073709551616 /\ 0 < u32 b /\ u32 b + n <= 4294967296 /\
      forall b' n', spans s !! b' = Some n' -> apart b n b' n'
  | Alloc n => 0 < n < 18446744073709551616 /\ n mod q = 0
  | Free addr n => exists n', live s !! addr = Some n' /\ (n = 0 \/ n = n')
  end.

(** What a call does: an allocation of 0 is a refusal; another one is an aligned
    interval of a span, disjoint from the live ones. *)
Definition spec_op (q : Z) s (o : op) (r : Z) s' : Prop :=
  match o with
  | Add b n => s' = mkAllocator (<[b := n]> (spans s)) (live s)
  | Alloc n => (r = 0 /\ s' = s) \/
      (0 < r /\ r mod q = 0 /\ (exists b' n', spans s !! b' = Some n' /\ inside r n b' n') /\
       (forall b' n', live s !! b' = Some n' -> apart r n b' n') /\
       s' = mkAllocator (spans s) (<[r := n]> (live s)))
  | Free addr _ => s' = mkAllocator (spans s) (delete addr (live s))
  end.

Definition tags_needed (o : op) : nat := match o with Add _ _ => 2 | Alloc _ => 1 | Free _ _ => 0 end.

(** ** Segments

    [H t tag] says that the arena has the tag. *)
Record geometry (q : Z) s (H : Z -> BoundaryTag -> Prop) : Prop := {
  g_fun : forall t tag tag', H t tag -> H t tag' -> tag = tag';
  g_seg : forall t tag, H t tag -> type tag <> SPAN -> 0 < size tag /\ base tag mod q = 0 /\
    exists b n, spans s !! b = Some n /\ inside (base tag) (size tag) b n;
  g_disj : forall t t' tag tag', H t tag -> H t' tag' -> t <> t' -> type tag <> SPAN -> type tag' <> SPAN ->
    apart (base tag) (size tag) (base tag') (size tag');
  g_span : forall b n, spans s !! b = Some n ->
    0 <= b /\ b + n <= 18446744073709551616 /\ 0 < u32 b /\ u32 b + n <= 4294967296 /\ 0 < n;
  g_stag : forall t tag, H t tag -> type tag = SPAN -> spans s !! base tag = Some (size tag);
  g_live : forall b n, live s !! b = Some n <-> exists t, H t (mkTag b n ALLOCATED)
}.

Section geometry.
Context (q : Z) (s : allocator) (H : Z -> BoundaryTag -> Prop) (G : geometry q s H).

Lemma geometry_ext (H' : Z -> BoundaryTag -> Prop) : (forall t tag, H' t tag <-> H t tag) -> geometry q s H'.
Proof.
  intros Hx. destruct G. split; intros *; rewrite ?Hx; eauto. rewrite g_live0. by setoid_rewrite Hx.
Qed.

(** No tag has a base whose low half is 0, and none runs past 2^64. *)
Lemma geometry_base t tag : H t tag -> 0 < base tag /\ reads_free tag = false /\ 0 < size tag /\
  base tag + size tag <= 18446744073709551616.
Proof.
  intros Ht. unfold reads_free. rewrite Z.eqb_neq. destruct (decide (type tag = SPAN)) as [Hs|Hs].
  - pose proof (g_span _ _ _ G _ _ (g_stag _ _ _ G _ _ Ht Hs)). word.
  - destruct (g_seg _ _ _ G _ _ Ht Hs) as (? & _ & b & n & Hb & ? & ?). pose proof (g_span _ _ _ G _ _ Hb). word.
Qed.

(** Two segments with a common base are one. *)
Lemma geometry_same t t' tag tag' : H t tag -> H t' tag' -> type tag <> SPAN -> type tag' <> SPAN ->
  base tag = base tag' -> t = t' /\ tag = tag'.
Proof.
  intros Ht Ht' Hs Hs' Hb. assert (t = t') as <-; [|split; [done|by eapply (g_fun _ _ _ G)]].
  destruct (decide (t = t')) as [|Hne]; [done|].
  destruct (g_disj _ _ _ G _ _ _ _ Ht Ht' Hne Hs Hs'), (geometry_base _ _ Ht) as (? & ? & ? & ?), (geometry_base _ _ Ht') as (? & ? & ? & ?); lia.
Qed.

Lemma geometry_live_none t tag : H t tag -> type tag = FREE -> live s !! base tag = None.
Proof.
  intros Ht Hf. destruct (live s !! base tag) as [n|] eqn:Hl; [|done].
  apply (g_live _ _ _ G) in Hl as (t' & Ht').
  destruct (geometry_same _ _ _ _ Ht Ht') as [_ Heq]; simpl; [congruence|done..|by rewrite Heq in Hf].
Qed.

Lemma geometry_apart_live t tag b n : H t tag -> type tag = FREE -> live s !! b = Some n ->
  apart (base tag) (size tag) b n.
Proof.
  intros Ht Hf (t' & Ht')%(g_live _ _ _ G).
  apply (g_disj _ _ _ G t t' tag (mkTag b n ALLOCATED)); simpl; [done..| | |]; try congruence.
  intros <-. pose proof (g_fun _ _ _ G _ _ _ Ht Ht') as ->. done.
Qed.

(** A segment changes hands. *)
Lemma geometry_retype t tag ty l (H' : Z -> BoundaryTag -> Prop) : H t tag -> type tag <> SPAN -> ty <> SPAN ->
  l = (if decide (ty = ALLOCATED) then <[base tag := size tag]> (live s) else delete (base tag) (live s)) ->
  (forall x g, H' x g <-> (x = t /\ g = tag <| type := ty |>) \/ (x <> t /\ H x g)) ->
  geometry q (mkAllocator (spans s) l) H'.
Proof.
  intros Ht Hs Hty -> Hx. split; intros *; rewrite ?Hx; simpl.
  - intros [(-> & ->)|(? & ?)] [(? & ->)|(? & ?)]; try done. by eapply (g_fun _ _ _ G).
  - intros [(-> & ->)|(? & ?)] ?; [by apply (g_seg _ _ _ G t tag)|by eapply (g_seg _ _ _ G)].
  - intros [(-> & ->)|(? & Ha)] [(-> & ->)|(? & Hb)] ? ? ?; simpl; [done| | |].
    + by apply (g_disj _ _ _ G _ _ _ _ Ht Hb).
    + by apply (g_disj _ _ _ G _ _ _ _ Ha Ht).
    + by apply (g_disj _ _ _ G _ _ _ _ Ha Hb).
  - apply (g_span _ _ _ G).
  - intros [(-> & ->)|(? & ?)] ?; [done|by apply (g_stag _ _ _ G t0)].
  - setoid_rewrite Hx. assert (Hl : forall x n, x <> t -> H x (mkTag (base tag) n ALLOCATED) -> False).
    { intros x k Hne Hn. by destruct (geometry_same _ _ _ _ Hn Ht). }
    destruct tag as [b0 n0 ty0]; simpl in *. destruct (decide (b0 = b)) as [->|Hne].
    + destruct (decide _) as [->|]; [rewrite lookup_insert_eq|rewrite lookup_delete_eq]; split; try done.
      * intros [= ->]. eauto.
      * intros (x & [(-> & [= ->])|(? & ?)]); [done|naive_solver].
      * intros (x & [(-> & [= ? ?])|(? & ?)]); [congruence|naive_solver].
    + assert (forall m : gmap Z Z, m !! b = live s !! b -> m !! b = Some n <->
        exists x, x = t /\ mkTag b n ALLOCATED = mkTag b0 n0 ty \/ x <> t /\ H x (mkTag b n ALLOCATED)) as Hm.
      { intros m ->. rewrite (g_live _ _ _ G). split.
        - intros (x & Hn). exists x. right. split; [|done]. intros ->. by pose proof (g_fun _ _ _ G _ _ _ Ht Hn) as [= ? ? ?].
        - intros (x & [(-> & [= ? ? ?])|(? & ?)]); [congruence|eauto]. }
      destruct (decide _); [rewrite Hm; [done|by rewrite lookup_insert_ne]|rewrite Hm; [done|by rewrite lookup_delete_ne]].
Qed.

(** A free segment is cut in two. *)
Lemma geometry_split t t' tag n (H' : Z -> BoundaryTag -> Prop) : H t tag -> type tag = FREE ->
  (forall g, ~ H t' g) -> 0 < n < size tag -> n mod q = 0 ->
  (forall x g, H' x g <-> (x = t /\ g = mkTag (base tag + n) (size tag - n) FREE) \/
     (x = t' /\ g = mkTag (base tag) n FREE) \/ (x <> t /\ H x g)) ->
  geometry q s H'.
Proof.
  intros Ht Hf Hn' Hn Hnq Hx. assert (t <> t') as Hne by (intros ->; by apply (Hn' tag)).
  assert (type tag <> SPAN) as Hs by congruence.
  destruct (g_seg _ _ _ G _ _ Ht Hs) as (_ & Hbq & b & n0 & Hb & Hi & Hi').
  assert (Hd : forall x g, x <> t -> H x g -> type g <> SPAN -> apart (base tag) (size tag) (base g) (size g)).
  { intros x g ? Hg ?. apply (g_disj _ _ _ G t x tag g); auto. }
  unfold apart, inside in *. split; intros *; rewrite ?Hx; simpl.
  - intros [(-> & ->)|[(-> & ->)|(? & Ha)]] [(? & ->)|[(? & ->)|(? & Hb')]]; subst; try done;
      [by destruct (Hn' _ Hb')|by destruct (Hn' _ Ha)|by eapply (g_fun _ _ _ G)].
  - intros [(-> & ->)|[(-> & ->)|(? & Ha)]] ?; [| |by eapply (g_seg _ _ _ G)]; simpl.
    + split; [lia|]. split; [by rewrite Zplus_mod, Hbq, Hnq|]. exists b, n0. split; [done|unfold inside; simpl; lia].
    + split; [lia|]. split; [done|]. exists b, n0. split; [done|unfold inside; simpl; lia].
  - intros [(-> & ->)|[(-> & ->)|(? & Ha)]] [(? & ->)|[(? & ->)|(? & Hb')]] ? ? ?; subst; unfold apart; simpl; try done;
      try lia; try (pose proof (Hd _ _ ltac:(done) Ha ltac:(done)); lia);
      try (pose proof (Hd _ _ ltac:(done) Hb' ltac:(done)); lia).
    by apply (g_disj _ _ _ G _ _ _ _ Ha Hb').
  - apply (g_span _ _ _ G).
  - intros [(-> & ->)|[(-> & ->)|(? & Ha)]] ?; [done..|by apply (g_stag _ _ _ G t0)].
  - rewrite (g_live _ _ _ G). setoid_rewrite Hx. split.
    + intros (x & Ha). exists x. right; right. split; [|done]. intros ->.
      pose proof (g_fun _ _ _ G _ _ _ Ht Ha) as ->. done.
    + intros (x & [(-> & [= ? ? ?])|[(-> & [= ? ? ?])|(? & Ha)]]); eauto.
Qed.

(** A span comes with a free segment. *)
Lemma geometry_add t t' b n (H' : Z -> BoundaryTag -> Prop) :
  allowed q s (Add b n) -> t <> t' -> (forall g, ~ H t g) -> (forall g, ~ H t' g) ->
  (forall x g, H' x g <-> (x = t /\ g = mkTag b n SPAN) \/ (x = t' /\ g = mkTag b n FREE) \/ H x g) ->
  geometry q (mkAllocator (<[b := n]> (spans s)) (live s)) H'.
Proof.
  intros (Hn & Hbq & H0 & H64 & Hlo & Hhi & Hap) Hne Hn1 Hn2 Hx.
  assert (Hd : forall x g, H x g -> type g <> SPAN -> apart b n (base g) (size g)).
  { intros x g Hg Hs. destruct (g_seg _ _ _ G _ _ Hg Hs) as (? & _ & b' & n' & Hb' & ? & ?).
    destruct (Hap _ _ Hb'); [left|right]; unfold apart, inside in *; lia. }
  assert (Hsp : forall b' n', spans s !! b' = Some n' -> b' <> b).
  { intros b' n' Hb' ->. destruct (Hap _ _ Hb'), (g_span _ _ _ G _ _ Hb') as (? & ? & ? & ? & ?); lia. }
  unfold apart, inside in *. split; intros *; rewrite ?Hx; simpl.
  - intros [(-> & ->)|[(-> & ->)|Ha]] [(? & ->)|[(? & ->)|Hb']]; subst; try done;
      try (by destruct (Hn1 _ Ha)); try (by destruct (Hn2 _ Ha)); try (by destruct (Hn1 _ Hb')); try (by destruct (Hn2 _ Hb')).
    by eapply (g_fun _ _ _ G).
  - intros [(-> & ->)|[(-> & ->)|Ha]] ?; [done| |]; simpl.
    + split; [lia|]. split; [done|]. exists b, n. by rewrite lookup_insert_eq.
    + destruct (g_seg _ _ _ G _ _ Ha) as (? & ? & b' & n' & Hb' & ?); [done|]. split; [done|]. split; [done|].
      exists b', n'. rewrite lookup_insert_ne by (symmetry; by eapply Hsp). done.
  - intros [(-> & ->)|[(-> & ->)|Ha]] [(? & ->)|[(? & ->)|Hb']] ? ? ?; subst; unfold apart; simpl in *; try done;
      try (pose proof (Hd _ _ Ha ltac:(done)); lia); try (pose proof (Hd _ _ Hb' ltac:(done)); lia).
    by apply (g_disj _ _ _ G _ _ _ _ Ha Hb').
  - rewrite lookup_insert_Some. intros [(<- & <-)|(? & ?)]; [done|by apply (g_span _ _ _ G)].
  - intros [(-> & ->)|[(-> & ->)|Ha]] Hty; simpl in *; [by rewrite lookup_insert_eq|done|].
    pose proof (g_stag _ _ _ G _ _ Ha Hty) as Hb'. by rewrite lookup_insert_ne by (symmetry; by eapply Hsp).
  - rewrite (g_live _ _ _ G). setoid_rewrite Hx. split; [intros (x & ?); eauto|].
    intros (x & [(-> & [= ? ? ?])|[(-> & [= ? ? ?])|Ha]]); eauto.
Qed.

End geometry.

(** ** Places in lists *)

Lemma put_before_perm y x l : y ∈ l -> put_before y x l ≡ₚ x :: l.
Proof.
  induction l as [|z l IH]; [by intros ?%not_elem_of_nil|]. simpl. destruct (decide (z = y)) as [->|]; [done|].
  intros [->|?]%elem_of_cons; [done|]. rewrite IH by done. by constructor.
Qed.
Lemma put_after_perm y x l : y ∈ l -> put_after y x l ≡ₚ x :: l.
Proof.
  induction l as [|z l IH]; [by intros ?%not_elem_of_nil|]. simpl. destruct (decide (z = y)) as [->|]; [constructor|].
  intros [->|?]%elem_of_cons; [done|]. rewrite IH by done. by constructor.
Qed.
Lemma head_put_after y x l : head (put_after y x l) = head l.
Proof. destruct l; [done|]. simpl. by destruct (decide _). Qed.
Lemma head_put_before y x l : head l <> Some y -> head (put_before y x l) = head l.
Proof. destruct l; [done|]. simpl. intros. destruct (decide _); [congruence|done]. Qed.

Definition place_ok (p : place) (l : list Z) : Prop := match p with Before y | After y => y ∈ l | _ => True end.

Lemma put_at_ok p x l : place_ok p l -> exists l', put_at p x l = Ret l' /\ l' ≡ₚ x :: l /\
  (head l' = head l \/ (head l' = Some x /\ (head l = None \/ p = First \/ exists y, p = Before y /\ head l = Some y))).
Proof.
  destruct p as [| |y|y]; simpl; intros Hp.
  - eexists. split; [done|]. split; [done|]. right. tauto.
  - eexists. split; [done|]. split; [by rewrite Permutation_app_comm|]. destruct l; [right|left]; simpl; tauto.
  - rewrite decide_True by done. eexists. split; [done|]. split; [by apply put_before_perm|].
    destruct (decide (head l = Some y)) as [Hh|]; [right|left; by apply head_put_before]. split; [|eauto].
    destruct l; simpl in *; [done|]. injection Hh as ->. by rewrite decide_True.
  - rewrite decide_True by done. eexists. split; [done|]. split; [by apply put_after_perm|]. left. apply head_put_after.
Qed.

Lemma prev_of_known y l : y ∈ l -> head l <> Some y -> exists x, prev_of y l = Some x /\ x ∈ l.
Proof.
  induction l as [|z [|z' l] IH]; [by intros ?%not_elem_of_nil|by intros ->%list_elem_of_singleton|].
  intros Hy Hh. simpl. destruct (decide (z' = y)) as [->|Hne]; [exists z; split; [done|left]|].
  apply elem_of_cons in Hy as [->|Hy]; [done|]. destruct (IH Hy) as (x & ? & ?); [simpl; congruence|]. exists x. by split; [|right].
Qed.
Lemma next_of_elem y l x : next_of y l = Some x -> x ∈ l.
Proof.
  induction l as [|z l IH]; simpl; [done|]. destruct (decide (z = y)); [|by right; auto].
  destruct l; simpl; [done|]. intros [= ->]. right. left.
Qed.

(** ** The free list searched *)

Lemma first_free_Some L t : first_free L = Some t -> exists j l, L !! j = Some (t :: l).
Proof.
  induction L as [|[|x l] L IH]; simpl; [done| |].
  - intros (j & l & ?)%IH. by exists (S j), l.
  - intros [= ->]. by exists 0%nat, l.
Qed.
Lemma first_free_None L j l t : first_free L = None -> L !! j = Some l -> t ∉ l.
Proof.
  revert j. induction L as [|[|x l'] L IH]; simpl; [done| |done]. intros [|j] Hn Hl; simpl in Hl.
  - injection Hl as <-. apply not_elem_of_nil.
  - by eapply IH.
Qed.

(** A power of two is searched for from its own list on, another size from the next. *)
Definition search_index (n : Z) : nat :=
  if Z.land n (n - 1) =? 0 then Z.to_nat (Z.log2 n) else S (Z.to_nat (Z.log2 n)).

Lemma pow2_or_more n : 0 < n -> Z.land n (n - 1) = 0 -> n = 2 ^ Z.log2 n.
Proof.
  intros Hn Hz. pose proof (Z.log2_spec n Hn) as [Hlo Hhi]. destruct (decide (n = 2 ^ Z.log2 n)) as [|Hne]; [done|].
  pose proof (Z.log2_nonneg n). assert (Z.log2 (n - 1) = Z.log2 n) as Hl by (apply Z.log2_unique; lia).
  assert (Z.testbit (Z.land n (n - 1)) (Z.log2 n) = true) as Hb; [|by rewrite Hz, Z.bits_0 in Hb].
  pose proof (Z.pow_pos_nonneg 2 (Z.log2 n)).
  rewrite Z.land_spec, Z.bit_log2 by done. rewrite <- Hl. apply Z.bit_log2. lia.
Qed.

Lemma search_index_enough n k : 0 < n -> 0 < k -> (search_index n <= Z.to_nat (Z.log2 k))%nat -> n <= k.
Proof.
  intros Hn Hk. unfold search_index. pose proof (Z.log2_spec n Hn). pose proof (Z.log2_spec k Hk).
  pose proof (Z.log2_nonneg n). pose proof (Z.log2_nonneg k). destruct (Z.eqb_spec (Z.land n (n - 1)) 0) as [Hz|_]; intros Hi.
  - rewrite (pow2_or_more n) by done. pose proof (Z.pow_le_mono_r 2 (Z.log2 n) (Z.log2 k)). lia.
  - pose proof (Z.pow_le_mono_r 2 (Z.succ (Z.log2 n)) (Z.log2 k)). lia.
Qed.

Lemma search_index_refused n k : 0 < n -> 0 < k -> (Z.to_nat (Z.log2 k) < search_index n)%nat -> k < 2 * n.
Proof.
  intros Hn Hk. unfold search_index. pose proof (Z.log2_spec n Hn). pose proof (Z.log2_spec k Hk).
  pose proof (Z.log2_nonneg n). pose proof (Z.log2_nonneg k).
  assert (2 ^ Z.succ (Z.log2 n) = 2 * 2 ^ Z.log2 n) by (rewrite Z.pow_succ_r; lia).
  destruct (Z.land n (n - 1) =? 0); intros Hi.
  - pose proof (Z.pow_le_mono_r 2 (Z.succ (Z.log2 k)) (Z.log2 n)). lia.
  - pose proof (Z.pow_le_mono_r 2 (Z.succ (Z.log2 k)) (Z.succ (Z.log2 n))). lia.
Qed.
