(* ===== verification/VmemProps.v ===== *)
(** * Correctness of the resource allocator (mem/vmem.cpp)

    An arena implements the abstract allocator of VmemFacts.v. *)

From S2P Require Import Prelude CString Links Vmem VmemFacts.
Import vmem.

Implicit Types (m : machine) (t : Z) (tag : BoundaryTag) (X : list Z).

(** ** The simulation *)

Record simulates (q : Z) s m : Prop := {
  r_geom : geometry q s (holds_tag m);
  r_lists : lists_ok [] m;
  r_known : forall t, t ∈ tag_list_head (arena m) -> is_Some (tags m !! t);
  r_nodup : NoDup (tagged m);
  r_head : forall t, head (tag_list_head (arena m)) = Some t -> exists tag, tags m !! t = Some tag /\ type tag = SPAN;
  r_quantum : quantum (arena m) = q
}.

Implicit Types (s : allocator) (q : Z).

Lemma init_simulates q m name : init name q = Ret (arena m) -> NoDup (free_tags m) -> simulates q (mkAllocator ∅ ∅) m.
Proof.
  intros Hi Hnd. assert (exists nm, mkArena nm q [] [] (replicate num_freelists []) (replicate num_hash_buckets []) = arena m)
    as (nm & Ha) by (unfold init in Hi; destruct (strcpy _ _) as [nm| |]; cbn [obind] in Hi; try done; exists nm; congruence).
  assert (forall t tag, ~ holds_tag m t tag) as Hno by (intros t tag [Hin _]; rewrite <- Ha in Hin; by apply not_elem_of_nil in Hin).
  assert (forall t P, ~ exists tag, member [] m t tag /\ P tag) as Hno' by (intros t P (tag & (_ & ?) & _); by eapply Hno).
  split; try (rewrite <- Ha; done).
  - split; intros *; try (by intros ?%Hno); try (intros ? ?%Hno; done); simpl; rewrite ?lookup_empty; try done.
    split; [done|]. by intros (? & ?%Hno).
  - split.
    + rewrite <- Ha. cbn [freelist_heads hash_table]. intros i l t [-> _]%lookup_replicate_1. split; [by intros ?%not_elem_of_nil|]. by intros ?%Hno'.
    + rewrite <- Ha. cbn [freelist_heads hash_table]. intros i l t [-> _]%lookup_replicate_1. split; [by intros ?%not_elem_of_nil|]. by intros ?%Hno'.
    + intros t. rewrite <- Ha. split; [by intros ?%not_elem_of_nil|]. by intros ?%Hno'.
    + by rewrite <- Ha.
    + by rewrite <- Ha.
  - rewrite <- Ha. simpl. by intros ? ?%not_elem_of_nil.
  - unfold tagged. by rewrite <- Ha.
Qed.

(** A tag of the pool is not in the arena. *)
Lemma pool_tag q s m t ts : simulates q s m -> free_tags m = t :: ts ->
  t ∉ tag_list_head (arena m) /\ t ∉ ts /\ NoDup (tag_list_head (arena m) ++ ts).
Proof.
  intros [] Hf. unfold tagged in *. rewrite Hf in *.
  rewrite (Permutation_app_comm _ (t :: ts)) in r_nodup0. simpl in r_nodup0.
  apply NoDup_cons in r_nodup0 as [Hn Hnd]. rewrite not_elem_of_app in Hn. rewrite (Permutation_app_comm ts) in Hnd. tauto.
Qed.

(** Where the segment lists say a segment is, one is. *)
Lemma free_segment q s m i l t : simulates q s m -> freelist_heads (arena m) !! i = Some l -> t ∈ l ->
  exists tag, holds_tag m t tag /\ type tag = FREE /\ Z.to_nat (Z.log2 (size tag)) = i /\
    0 < size tag < 18446744073709551616 /\ t ∈ listed (arena m).
Proof.
  intros Hs Hl Ht. pose proof Ht as Ht'. apply (lo_free _ _ (r_lists _ _ _ Hs) _ _ _ Hl) in Ht as (tag & (_ & Hh) & Hf & Hi).
  exists tag. pose proof (geometry_base _ _ _ (r_geom _ _ _ Hs) _ _ Hh) as (? & ? & ? & ?).
  split_and!; try done; [lia|]. apply elem_of_listed. left. eauto.
Qed.

Lemma list_index_ok q s m t tag : simulates q s m -> holds_tag m t tag -> (Z.to_nat (Z.log2 (size tag)) < num_freelists)%nat.
Proof.
  intros Hs Hh. pose proof (geometry_base _ _ _ (r_geom _ _ _ Hs) _ _ Hh) as (? & ? & ? & ?).
  pose proof (Z.log2_nonneg (size tag)). assert (Z.log2 (size tag) < 64) by (apply Z.log2_lt_pow2; lia).
  unfold num_freelists. lia.
Qed.

(** The arena after a change of the lists alone. *)
Lemma simulates_lists q s m m' : simulates q s m -> tags m' = tags m -> free_tags m' = free_tags m ->
  tag_list_head (arena m') = tag_list_head (arena m) -> quantum (arena m') = quantum (arena m) -> lists_ok [] m' ->
  simulates q s m'.
Proof.
  intros [] Ht Hf Hl Hq Hok. split; rewrite ?Ht, ?Hl, ?Hq; try done.
  - eapply geometry_ext; [done|]. intros. unfold holds_tag. by rewrite Ht, Hl.
  - unfold tagged. by rewrite Hl, Hf.
Qed.

Lemma lists_retag X m t tag : lists_ok X m -> t ∈ X -> lists_ok X (put_tag t tag m).
Proof.
  intros Hok Ht. eapply lists_ok_ext; [exact Hok|done..|]. intros x g. unfold member, holds_tag. simpl.
  destruct (decide (x = t)) as [->|]; [tauto|]. by rewrite lookup_insert_ne.
Qed.

Lemma unlist_defined t a : t ∈ listed a -> exists a', unlist t a = Ret a'.
Proof. intros. unfold unlist. rewrite decide_True by done. eauto. Qed.

(** A segment unlisted and given another type. *)
Definition retyped (t : Z) (tag : BoundaryTag) (ty : Type_) (a : Arena) m : machine :=
  put_tag t (tag <| type := ty |>) (m <| arena := a |>).

Lemma retyped_lists q s m t tag ty a : simulates q s m -> unlist t (arena m) = Ret a ->
  lists_ok [t] (retyped t tag ty a m) /\ tag_list_head a = tag_list_head (arena m) /\ quantum a = quantum (arena m).
Proof.
  intros Hs Hu. destruct (unlist_ok _ _ _ _ (r_lists _ _ _ Hs) Hu) as (Hok & ? & ?).
  split; [|done]. apply lists_retag; [done|left].
Qed.

Lemma retyped_simulates q s m t tag ty a a' l : simulates q s m -> holds_tag m t tag -> type tag <> SPAN -> ty <> SPAN ->
  tag_list_head a' = tag_list_head (arena m) -> quantum a' = quantum (arena m) ->
  lists_ok [] (retyped t tag ty a m <| arena := a' |>) ->
  l = (if decide (ty = ALLOCATED) then <[base tag := size tag]> (live s) else delete (base tag) (live s)) ->
  simulates q (mkAllocator (spans s) l) (retyped t tag ty a m <| arena := a' |>).
Proof.
  intros [] Ht Hty Hty' Hl Hq Hok Hlv. destruct (Ht) as [Hin Htag]. split; simpl; rewrite ?Hl, ?Hq; try done.
  - eapply geometry_retype; [exact r_geom0|exact Ht|done|exact Hty'|exact Hlv|].
    intros x g. unfold holds_tag. simpl. rewrite Hl, lookup_insert_Some. intuition congruence.
  - intros x Hx. rewrite lookup_insert_is_Some'. right. by apply r_known0.
  - unfold tagged. simpl. by rewrite Hl.
  - intros x Hx. destruct (r_head0 x Hx) as (g & ? & ?). exists g. split; [|done].
    rewrite lookup_insert_ne; [done|]. intros ->. congruence.
Qed.

(** ** Allocation *)

Lemma xalloc_exact q s m t tag a : simulates q s m -> holds_tag m t tag -> type tag = FREE ->
  unlist t (arena m) = Ret a ->
  exists m', hash_table_insert t (retyped t tag ALLOCATED a m) = Ret m' /\
    simulates q (mkAllocator (spans s) (<[base tag := size tag]> (live s))) m' /\ free_tags m' = free_tags m.
Proof.
  intros Hs Ht Hf Hu. destruct (retyped_lists _ _ _ _ tag ALLOCATED _ Hs Hu) as (Hok & Hl & Hq).
  destruct (hash_insert_ok [] _ t (tag <| type := ALLOCATED |>) Hok) as (a' & -> & Hok' & Hl' & Hq').
  - apply not_elem_of_nil.
  - split; simpl; [|by rewrite lookup_insert_eq]. rewrite Hl. apply Ht.
  - done.
  - eexists. split; [done|]. split; [|done].
    eapply retyped_simulates; try done; simpl in *; congruence.
Qed.

(** What [xalloc] does when it cuts [t]. *)
Definition cut (t : Z) (tag : BoundaryTag) (n : Z) m : outcome (Z * machine) :=
  let! (new_segment, m) := allocate_tag m in
  let m := put_tag new_segment (mkTag (base tag) n ALLOCATED) m in
  let m := put_tag t (tag <| base := u64 (base tag + n) |> <| size := u64 (size tag - n) |>) m in
  let! m := link_tag new_segment (Before t) m in
  let! m := freelist_insert t m in
  let! m := hash_table_insert new_segment m in
  Ret (base tag, m).

Lemma holds_cut m m' t t' tag tag' l : t <> t' -> t' ∉ tag_list_head (arena m) -> t ∈ tag_list_head (arena m) ->
  l ≡ₚ t' :: tag_list_head (arena m) -> tag_list_head (arena m') = l -> tags m' = <[t := tag]> (<[t' := tag']> (tags m)) ->
  forall x g, holds_tag m' x g <-> (x = t /\ g = tag) \/ (x = t' /\ g = tag') \/ (x <> t /\ holds_tag m x g).
Proof.
  intros Hne Hn Hin Hp Hl Ht x g. unfold holds_tag. rewrite Hl, Hp, Ht, elem_of_cons.
  destruct (decide (x = t)) as [->|]; [rewrite lookup_insert_eq; intuition congruence|].
  rewrite lookup_insert_ne by done. destruct (decide (x = t')) as [->|]; [rewrite lookup_insert_eq; intuition congruence|].
  rewrite lookup_insert_ne by done. intuition congruence.
Qed.

Lemma xalloc_cut q s m t tag a n : simulates q s m -> holds_tag m t tag -> type tag = FREE ->
  unlist t (arena m) = Ret a -> 0 < n < size tag -> n mod q = 0 -> free_tags m <> [] ->
  exists m', cut t tag n (m <| arena := a |>) = Ret (base tag, m') /\
    simulates q (mkAllocator (spans s) (<[base tag := n]> (live s))) m' /\ length (free_tags m) = S (length (free_tags m')).
Proof.
  intros Hs Ht Hf Hu Hn Hnq Hft. destruct (free_tags m) as [|t' ts] eqn:Hfree; [done|].
  destruct (pool_tag _ _ _ _ _ Hs Hfree) as (Ht' & Hts & Hnd). pose proof (Ht) as [Hin Htag].
  assert (t <> t') as Hne by congruence.
  destruct (unlist_ok _ _ _ _ (r_lists _ _ _ Hs) Hu) as (Hok & Hl & Hq).
  unfold cut, allocate_tag. simpl. rewrite Hfree. cbn [obind].
  pose proof (geometry_base _ _ _ (r_geom _ _ _ Hs) _ _ Ht) as (Hb0 & _ & Hs0 & H64).
  unfold link_tag. simpl. rewrite decide_False.
  2: { unfold tagged. simpl. rewrite Hl, not_elem_of_app. done. }
  destruct (put_at_ok (Before t) t' (tag_list_head a)) as (l' & Hput & Hperm & Hhd); [simpl; by rewrite Hl|].
  simpl in Hput. rewrite Hput. cbn [obind]. rewrite !u64_small by lia.
  set (shrunk := tag <| base := base tag + n |> <| size := size tag - n |>).
  set (new := mkTag (base tag) n ALLOCATED).
  match goal with |- context [freelist_insert t ?M] => set (m1 := M) end.
  assert (forall x g, holds_tag m1 x g <-> (x = t /\ g = shrunk) \/ (x = t' /\ g = new) \/ (x <> t /\ holds_tag m x g)) as Hold.
  { apply (holds_cut m m1 t t' shrunk new l'); try done. by rewrite <- Hl. }
  assert (lists_ok (t :: [t']) m1) as Hok1.
  { eapply lists_ok_ext; [exact Hok|done..|]. intros x g. unfold member. rewrite Hold, !not_elem_of_cons.
    unfold holds_tag. simpl. rewrite Hl. unfold holds_tag in *. intuition congruence. }
  destruct (freelist_insert_ok [t'] m1 t shrunk Hok1) as (a2 & -> & Hok2 & Hl2 & Hq2); try done.
  { by rewrite list_elem_of_singleton. }
  { apply Hold. tauto. }
  { simpl. lia. }
  { simpl. pose proof (Z.log2_nonneg (size tag - n)). assert (Z.log2 (size tag - n) < 64) by (apply Z.log2_lt_pow2; lia).
    unfold num_freelists. lia. }
  cbn [obind]. destruct (hash_insert_ok [] (m1 <| arena := a2 |>) t' new Hok2) as (a3 & -> & Hok3 & Hl3 & Hq3).
  { apply not_elem_of_nil. }
  { unfold holds_tag. simpl. rewrite Hl2. apply Hold. tauto. }
  { done. }
  cbn [obind]. eexists. split; [reflexivity|]. split; [|done].
  assert (tag_list_head a3 = l') as Hl4 by (rewrite Hl3; simpl; by rewrite Hl2).
  assert (forall x, head l' = Some x -> x <> t /\ x <> t' /\ head (tag_list_head (arena m)) = Some x) as Hhead.
  { intros x Hx. rewrite Hl in Hhd. assert (head (tag_list_head (arena m)) <> Some t) as Hnt.
    { intros (g & Hg & Hsp)%(r_head _ _ _ Hs). congruence. }
    assert (head (tag_list_head (arena m)) = Some x) as Hx'.
    { destruct Hhd as [<-|(? & [Hnone|[?|(y & [= ->] & ?)]])]; [done| |done|done].
      destruct (tag_list_head (arena m)); [by apply not_elem_of_nil in Hin|done]. }
    split_and!; [congruence|intros ->|done]. apply Ht', head_Some_elem_of, Hx'. }
  destruct Hs. split; simpl; try done.
  - eapply (geometry_retype q s _ (geometry_split _ _ _ r_geom0 t t' tag n _ Ht Hf _ Hn Hnq (fun x g => reflexivity _)) t'
      (mkTag (base tag) n FREE) ALLOCATED); [tauto|done..|]. intros x g.
    trans (holds_tag m1 x g); [unfold holds_tag; simpl; by rewrite Hl4|]. rewrite Hold.
    assert (shrunk = mkTag (base tag + n) (size tag - n) FREE) as -> by (unfold shrunk; simpl; by rewrite Hf).
    assert (~ holds_tag m t' g) by (by intros [? _]). change (mkTag (base tag) n FREE <| type := ALLOCATED |>) with new.
    destruct (decide (x = t)) as [->|]; [|destruct (decide (x = t')) as [->|]]; intuition congruence.
  - rewrite Hl4. intros x. rewrite Hperm, elem_of_cons, Hl. intros [->|Hx].
    + rewrite lookup_insert_ne, lookup_insert_eq by done. eauto.
    + rewrite !lookup_insert_is_Some'. right; right. by apply r_known0.
  - unfold tagged. simpl. rewrite Hl4, Hperm, Hl. simpl. apply NoDup_cons. by rewrite not_elem_of_app.
  - rewrite Hl4. intros x (? & ? & Hx)%Hhead. rewrite !lookup_insert_ne by done. by apply r_head0.
  - rewrite Hq3. simpl. rewrite Hq2. simpl. by rewrite Hq.
  Unshelve. intros g [Hx _]. done.
Qed.

Lemma xalloc_unfold m n : n <> 0 -> quantum (arena m) <> 0 -> n mod quantum (arena m) = 0 ->
  xalloc m n =
  match first_free (drop (search_index n) (freelist_heads (arena m))) with
  | None => Ret (0, m)
  | Some t =>
      let! tag := deref (tags m !! t) in
      let! a := unlist t (arena m) in
      if size tag =? n
      then let! m := hash_table_insert t (retyped t tag ALLOCATED a m) in Ret (base tag, m)
      else cut t tag n (m <| arena := a |>)
  end.
Proof.
  intros Hn Hq Hnq. unfold xalloc. rewrite (proj2 (Z.eqb_neq n 0)), (proj2 (Z.eqb_neq _ 0)) by done.
  rewrite (proj2 (Z.eqb_eq _ _) Hnq). unfold freelist_index_for_size. rewrite (proj2 (Z.eqb_neq n 0)) by done.
  cbn [negb assert obind]. unfold search_index. by destruct (Z.land _ _ =? 0).
Qed.

(** An allocation is refused only when no free segment has twice its size. *)
Definition refusal_ok (n r : Z) m : Prop :=
  r = 0 -> forall t tag, holds_tag m t tag -> type tag = FREE -> size tag < 2 * n.

Lemma xalloc_simulates q s m n : 0 < q -> simulates q s m -> allowed q s (Alloc n) -> free_tags m <> [] ->
  exists r m', xalloc m n = Ret (r, m') /\ refusal_ok n r m /\
    (length (free_tags m) <= S (length (free_tags m')))%nat /\
    exists s', spec_op q s (Alloc n) r s' /\ simulates q s' m'.
Proof.
  intros Hq Hs [Hn Hnq] Hft. rewrite xalloc_unfold by (rewrite ?(r_quantum _ _ _ Hs); lia).
  destruct (first_free _) as [t|] eqn:Hfirst.
  - apply first_free_Some in Hfirst as (j & l & Hl). rewrite lookup_drop in Hl.
    destruct (free_segment _ _ _ _ _ t Hs Hl) as (tag & Ht & Hf & Hi & Hsz & Hlisted); [left|].
    destruct (unlist_defined t (arena m) Hlisted) as (a & Hu). destruct (Ht) as [_ ->]. cbn [deref obind]. rewrite Hu. cbn [obind].
    pose proof (geometry_base _ _ _ (r_geom _ _ _ Hs) _ _ Ht) as (Hb0 & _ & _ & _).
    pose proof (search_index_enough n (size tag) ltac:(lia) ltac:(lia) ltac:(lia)) as Hle.
    destruct (g_seg _ _ _ (r_geom _ _ _ Hs) _ _ Ht) as (_ & Hbq & b & k & Hb & Hin); [congruence|].
    assert (Hap : forall b' n', live s !! b' = Some n' -> apart (base tag) n b' n').
    { intros b' n' Hb'. destruct (geometry_apart_live _ _ _ (r_geom _ _ _ Hs) _ _ _ _ Ht Hf Hb'); [left|right]; lia. }
    assert (inside (base tag) n b k) as Hin' by (unfold inside in *; lia).
    exists (base tag). destruct (Z.eqb_spec (size tag) n) as [<-|Hne].
    + destruct (xalloc_exact _ _ _ _ _ _ Hs Ht Hf Hu) as (m' & -> & Hs' & Hfree). exists m'. cbn [obind].
      split; [done|]. split; [by intros ?; lia|]. split; [rewrite Hfree; lia|]. eexists. split; [|done]. right. eauto 10.
    + destruct (xalloc_cut _ _ _ _ _ _ n Hs Ht Hf Hu) as (m' & -> & Hs' & Hfree); [lia|done|done|]. exists m'.
      split; [done|]. split; [by intros ?; lia|]. split; [rewrite Hfree; lia|]. eexists. split; [|done]. right. eauto 10.
  - exists 0, m. split; [done|]. split; [|split; [lia|exists s; split; [by left|done]]].
    intros _ t tag Ht Hf. pose proof (geometry_base _ _ _ (r_geom _ _ _ Hs) _ _ Ht) as (_ & _ & Hsz & _).
    pose proof (list_index_ok _ _ _ _ _ Hs Ht) as Hi. rewrite <- (lo_nfree _ _ (r_lists _ _ _ Hs)) in Hi.
    apply lookup_lt_is_Some_2 in Hi as [l Hl].
    assert (t ∈ l) as Hin by (apply (lo_free _ _ (r_lists _ _ _ Hs) _ _ _ Hl); exists tag; split; [split; [apply not_elem_of_nil|done]|done]).
    apply search_index_refused; [lia|done|]. apply Nat.lt_nge. intros Hge.
    apply (first_free_None _ (Z.to_nat (Z.log2 (size tag)) - search_index n) l t) in Hfirst; [done|].
    rewrite lookup_drop. by replace (_ + _)%nat with (Z.to_nat (Z.log2 (size tag))) by lia.
Qed.

(** ** Release *)

Lemma find_segment_live m addr bucket t tag : (forall x, x ∈ bucket -> is_Some (tags m !! x)) ->
  t ∈ bucket -> tags m !! t = Some tag -> base tag = addr ->
  (forall x g, x ∈ bucket -> tags m !! x = Some g -> base g = addr -> x = t) ->
  find_segment m addr bucket = Ret (Some t).
Proof.
  induction bucket as [|x bucket IH]; [by intros ? ?%not_elem_of_nil|]. intros Hk Hin Ht Hb Hu. simpl.
  destruct (Hk x) as [g Hg]; [left|]. rewrite Hg. cbn [deref obind]. destruct (Z.eqb_spec (base g) addr) as [Hx|Hx].
  - by rewrite (Hu x g) by (done || left).
  - apply elem_of_cons in Hin as [->|Hin]; [congruence|]. apply IH; try done; intros; [apply Hk|eapply Hu]; eauto; by right.
Qed.

Lemma find_segment_none m addr bucket :
  (forall x, x ∈ bucket -> exists g, tags m !! x = Some g /\ base g <> addr) -> find_segment m addr bucket = Ret None.
Proof.
  induction bucket as [|x bucket IH]; [done|]. intros Hk. simpl. destruct (Hk x) as (g & -> & Hb); [left|]. cbn [deref obind].
  rewrite (proj2 (Z.eqb_neq _ _)) by done. apply IH. intros. apply Hk. by right.
Qed.

Lemma arena_bucket_lookup q s m addr : simulates q s m ->
  exists l, hash_table (arena m) !! hash_bucket_for_addr addr = Some l /\
    forall t, t ∈ l <-> exists tag, holds_tag m t tag /\ type tag = ALLOCATED /\ hash_bucket_for_addr (base tag) = hash_bucket_for_addr addr.
Proof.
  intros Hs. destruct (lookup_lt_is_Some_2 (hash_table (arena m)) (hash_bucket_for_addr addr)) as [l Hl].
  { rewrite (lo_nhash _ _ (r_lists _ _ _ Hs)). unfold hash_bucket_for_addr, num_hash_buckets.
    pose proof (Z.mod_pos_bound (hash_u64 addr) 16). lia. }
  exists l. split; [done|]. intros t. rewrite (lo_hash _ _ (r_lists _ _ _ Hs) _ _ _ Hl). apply exists_iff.
  intros g. unfold member. rewrite (not_elem_of_nil t) || (pose proof (not_elem_of_nil t); tauto).
Qed.

(** An address that is not live panics. *)
Lemma xfree_unknown q s m addr n : simulates q s m -> live s !! addr = None -> xfree m addr n = Panic.
Proof.
  intros Hs Hnone. destruct (arena_bucket_lookup _ _ _ addr Hs) as (l & Hl & Hb). unfold xfree. rewrite Hl. cbn [deref obind].
  rewrite find_segment_none; [done|]. intros x (g & Hg & Hty & _)%Hb. exists g. split; [apply Hg|]. intros <-.
  assert (live s !! base g = Some (size g)); [|congruence]. apply (g_live _ _ _ (r_geom _ _ _ Hs)). exists x. by destruct g; simpl in *; subst.
Qed.

Lemma xfree_simulates q s m addr n : simulates q s m -> allowed q s (Free addr n) ->
  exists m', xfree m addr n = Ret m' /\ free_tags m' = free_tags m /\
    simulates q (mkAllocator (spans s) (delete addr (live s))) m'.
Proof.
  intros Hs (k & Hk & Hn). destruct (arena_bucket_lookup _ _ _ addr Hs) as (l & Hl & Hb). pose proof (r_geom _ _ _ Hs) as G.
  pose proof Hk as Hk'. apply (g_live _ _ _ G) in Hk' as (t & Ht). pose proof (Ht) as [Hin Htag].
  unfold xfree. rewrite Hl. cbn [deref obind]. rewrite (find_segment_live m addr l t (mkTag addr k ALLOCATED)); try done.
  2: { intros x (g & [_ ?] & _)%Hb. eauto. }
  2: { apply Hb. eauto. }
  2: { intros x g (g' & Hg & Hty & _)%Hb Hg' Hbase. pose proof Hg as [_ Hg'']. rewrite Hg' in Hg''. injection Hg'' as <-.
       destruct (geometry_same _ _ _ G _ _ _ _ Hg Ht); try done. congruence. }
  cbn [obind]. rewrite Htag. cbn [deref obind]. replace (_ && _)%bool with false by (destruct Hn as [-> | ->]; simpl; rewrite ?Z.eqb_refl; by rewrite ?andb_false_r).
  destruct (unlist_defined t (arena m)) as (a & Hu); [apply elem_of_listed; right; left; exists (hash_bucket_for_addr addr), l; split; [done|]; apply Hb; eauto|].
  rewrite Hu. cbn [obind]. destruct (retyped_lists _ _ _ _ (mkTag addr k ALLOCATED) FREE _ Hs Hu) as (Hok & Hla & Hqa).
  simpl. rewrite Hla. destruct (prev_of_known t (tag_list_head (arena m)) Hin) as (x & -> & Hx).
  { intros (g & Hg & Hsp)%(r_head _ _ _ Hs). rewrite Htag in Hg. by injection Hg as <-. }
  cbn [deref obind]. destruct (r_known _ _ _ Hs x Hx) as [g Hg]. rewrite Hg. cbn [deref obind].
  destruct (geometry_base _ _ _ G x g) as (_ & -> & _); [done|].
  assert (match next_of t (tag_list_head (arena m)) with None => Ret tt | Some right_ =>
            let! rtag := deref (tags m !! right_) in if reads_free rtag then Undef else Ret tt end = Ret tt) as ->.
  { destruct (next_of _ _) as [y|] eqn:Hy; [|done]. apply next_of_elem in Hy. destruct (r_known _ _ _ Hs y Hy) as [h Hh].
    rewrite Hh. cbn [deref obind]. by destruct (geometry_base _ _ _ G y h) as (_ & -> & _). }
  cbn [obind]. destruct (freelist_insert_ok [] _ t (mkTag addr k FREE) Hok) as (a' & Hins & Hok' & Hl' & Hq').
  - apply not_elem_of_nil.
  - split; simpl; [by rewrite Hla|by rewrite lookup_insert_eq].
  - done.
  - apply (geometry_base _ _ _ G _ _ Ht).
  - apply (list_index_ok _ _ _ _ _ Hs Ht).
  - unfold retyped in Hins. simpl in Hins. eexists. split; [exact Hins|]. split; [done|].
    eapply (retyped_simulates q s m t (mkTag addr k ALLOCATED) FREE a a'); try done; simpl in *; congruence.
Qed.

(** ** A new span *)

Lemma find_span_defined m b l : (forall t, t ∈ l -> is_Some (tags m !! t)) ->
  exists r, find_span m b l = Ret r /\ match r with Some p => p ∈ l | None => True end.
Proof.
  induction l as [|t l IH]; intros Hk; simpl; [by exists None|]. destruct (Hk t) as [g ->]; [left|]. cbn [deref obind].
  destruct (_ >=? _); [exists (Some t); split; [done|left]|]. destruct IH as (r & -> & Hr); [intros; apply Hk; by right|].
  exists r. split; [done|]. destruct r; [by right|done].
Qed.

Lemma span_tag q s m t : simulates q s m -> t ∈ span_list_head (arena m) -> t ∈ tag_list_head (arena m).
Proof. intros Hs (g & (_ & ? & _) & _)%(lo_span _ _ (r_lists _ _ _ Hs)). done. Qed.

(** The arena once the span and its segment are linked. *)
Lemma lists_add m m' t t' b n L : lists_ok [] m -> t <> t' -> t ∉ tag_list_head (arena m) -> t' ∉ tag_list_head (arena m) ->
  span_list_head (arena m') = L -> L ≡ₚ t :: span_list_head (arena m) ->
  freelist_heads (arena m') = freelist_heads (arena m) -> hash_table (arena m') = hash_table (arena m) ->
  (forall x g, holds_tag m' x g <-> (x = t /\ g = mkTag b n SPAN) \/ (x = t' /\ g = mkTag b n FREE) \/ holds_tag m x g) ->
  lists_ok [t'] m'.
Proof.
  intros Hok Hne Hn Hn' HL HP Hf Hh Hx.
  assert (forall x (P : BoundaryTag -> Prop), (exists g, member [t'] m' x g /\ P g) <->
    (x = t /\ P (mkTag b n SPAN)) \/ exists g, member [] m x g /\ P g) as Hm.
  { intros x P. unfold member. setoid_rewrite Hx. setoid_rewrite list_elem_of_singleton. split.
    - intros (g & (? & [(-> & ->)|[(? & ?)|?]]) & ?); [tauto|done|]. right. exists g. split; [split; [apply not_elem_of_nil|done]|done].
    - intros [(-> & ?)|(g & (_ & Hg) & ?)]; [eauto 10|]. exists g. split; [|done]. split; [|tauto].
      intros ->. by destruct Hg. }
  destruct Hok as [lo_free0 lo_hash0 lo_span0 ? ?]. split; rewrite ?Hf, ?Hh, ?HL; try done; intros; rewrite Hm.
  - rewrite lo_free0 by done. simpl. intuition congruence.
  - rewrite lo_hash0 by done. simpl. intuition congruence.
  - rewrite HP, elem_of_cons, lo_span0. simpl. tauto.
Qed.

Lemma add_simulates q s m b n t t' ts : simulates q s m -> allowed q s (Add b n) -> free_tags m = t :: t' :: ts ->
  exists m', add m b n = Ret m' /\ free_tags m' = ts /\
    simulates q (mkAllocator (<[b := n]> (spans s)) (live s)) m'.
Proof.
  intros Hs Hallow Hfree. pose proof (r_lists _ _ _ Hs) as Hok.
  destruct (pool_tag _ _ _ _ _ Hs Hfree) as (Ht & Htt & Hnd).
  apply not_elem_of_cons in Htt as [Hne Htts]. rewrite <- Permutation_middle in Hnd.
  apply NoDup_cons in Hnd as [Ht' Hnd]. rewrite not_elem_of_app in Ht'. destruct Ht' as [Ht' Htts'].
  unfold add. destruct (find_span_defined m b (span_list_head (arena m))) as (p & -> & Hp).
  { intros x Hx. apply (r_known _ _ _ Hs). by eapply span_tag. }
  cbn [obind]. unfold allocate_tag at 1. rewrite Hfree. cbn [obind]. unfold allocate_tag at 1. simpl.
  set (spl := match p with Some p => After p | None => First end).
  set (nx := match p with Some p => next_of p (span_list_head (arena m)) | None => head (span_list_head (arena m)) end).
  set (tpl := match nx with Some n => Before n | None => Last end).
  assert (place_ok spl (span_list_head (arena m))) as Hspl by (by destruct p).
  assert (place_ok tpl (tag_list_head (arena m))) as Htpl.
  { unfold tpl. destruct nx as [y|] eqn:Hy; [|done]. unfold nx in Hy. simpl. eapply span_tag; [done|].
    destruct p; [by eapply next_of_elem|by apply head_Some_elem_of]. }
  destruct (put_at_ok spl t _ Hspl) as (L & HL & HLp & _). destruct (put_at_ok tpl t _ Htpl) as (l1 & Hl1 & Hl1p & Hl1h).
  unfold link_span at 1. simpl. rewrite decide_False by (by eapply not_listed; [|right]). rewrite HL. cbn [obind].
  unfold link_tag at 1. simpl. rewrite decide_False by (unfold tagged; simpl; rewrite not_elem_of_app; tauto).
  rewrite Hl1. cbn [obind]. unfold link_tag at 1. simpl.
  rewrite decide_False by (unfold tagged; simpl; rewrite not_elem_of_app, Hl1p, not_elem_of_cons; tauto || intuition congruence).
  rewrite decide_True by (rewrite Hl1p; left). cbn [obind].
  match goal with |- context [freelist_insert t' ?M] => set (m1 := M) end.
  assert (put_after t t' l1 ≡ₚ t' :: t :: tag_list_head (arena m)) as Hl2.
  { rewrite put_after_perm by (rewrite Hl1p; left). by rewrite Hl1p. }
  assert (forall x g, holds_tag m1 x g <-> (x = t /\ g = mkTag b n SPAN) \/ (x = t' /\ g = mkTag b n FREE) \/ holds_tag m x g) as Hold.
  { intros x g. unfold holds_tag. simpl. rewrite Hl2, !elem_of_cons.
    destruct (decide (x = t')) as [->|]; [rewrite lookup_insert_eq; intuition congruence|]. rewrite lookup_insert_ne by done.
    destruct (decide (x = t)) as [->|]; [rewrite lookup_insert_eq; intuition congruence|]. rewrite lookup_insert_ne by done.
    intuition congruence. }
  assert (lists_ok [t'] m1) as Hok1 by (by eapply (lists_add m m1 t t' b n L)).
  assert (geometry q (mkAllocator (<[b := n]> (spans s)) (live s)) (holds_tag m1)) as G1.
  { eapply (geometry_add q s (holds_tag m) (r_geom _ _ _ Hs) t t'); try done; by intros g [? _]. }
  destruct (geometry_base _ _ _ G1 t' (mkTag b n FREE)) as (? & _ & ? & ?); [apply Hold; tauto|]. simpl in *.
  destruct (freelist_insert_ok [] m1 t' (mkTag b n FREE) Hok1) as (a & -> & Hok2 & Hla & Hqa); try done.
  { apply not_elem_of_nil. }
  { apply Hold. tauto. }
  { simpl. pose proof (Z.log2_nonneg n). assert (Z.log2 n < 64) by (apply Z.log2_lt_pow2; lia). unfold num_freelists. lia. }
  eexists. split; [reflexivity|]. split; [done|]. pose proof Hs as []. split; simpl; rewrite ?Hla; simpl; try done.
  - eapply geometry_ext; [exact G1|]. intros x g. unfold holds_tag. simpl. by rewrite Hla.
  - intros x. rewrite Hl2, !elem_of_cons, !lookup_insert_is_Some'. intros [->|[->|?]]; auto.
  - unfold tagged. simpl. rewrite Hla. simpl. rewrite Hl2. simpl.
    rewrite !NoDup_cons, elem_of_cons, !elem_of_app. intuition congruence.
  - intros x. rewrite head_put_after. intros Hx. assert (x = t \/ head (tag_list_head (arena m)) = Some x) as Hx'.
    { destruct Hl1h as [Hh|(Hh & _)]; [right|left]; congruence. }
    destruct (decide (x = t)) as [->|].
    { exists (mkTag b n SPAN). by rewrite lookup_insert_ne, lookup_insert_eq. }
    destruct Hx' as [|Hx']; [done|]. rewrite !lookup_insert_ne; [by apply r_head0|done|].
    intros ->. by apply Ht', head_Some_elem_of.
  - rewrite Hqa. done.
Qed.

(** ** The properties *)


(** An arena of pages with the pool of the kernel. *)
Definition fresh : machine :=
  early_init 1 (mkMachine ∅ [] 0 (mkArena [] 4096 [] [] (replicate num_freelists []) (replicate num_hash_buckets []))).


(** Released neighbours are not merged: 8192 bytes are all free, and cannot be
    allocated. *)
Definition twice (a : outcome machine) : outcome Z :=
  let! m := a in
  let! m := add m 4096 8192 in
  let! (p, m) := xalloc m 4096 in
  let! (p', m) := xalloc m 4096 in
  let! m := xfree m p 4096 in
  let! m := xfree m p' 4096 in
  let! (r, _) := xalloc m 8192 in
  Ret r.
Lemma xfree_never_merges : twice (Ret fresh) = Ret 0.
Proof. vm_compute. reflexivity. Qed.
