(* ===== verification/Bump.v ===== *)
(** * The kernel heap (mem/bump.cpp, klib/cstdlib.cpp)

    The allocator gives out the bytes of one region in order and never takes any
    back. The state is its three variables and the memory, a byte at an address. *)

From S2P Require Import Prelude Algorithm.

Module bump.

Record state := mkState { alloc_base : Z; total_size : Z; alloc_ptr : Z; memory : gmap Z Z }.
#[export] Instance eta_state : Settable state := fun s =>
  mkState (alloc_base s) (total_size s) (alloc_ptr s) (memory s).

Definition default_alignment : Z := 16.

Definition init (base size : Z) (s : state) : state := s <| alloc_base := base |> <| total_size := size |>.

(** The null pointer is 0. *)
Definition allocate (s : state) (size alignment : Z) : outcome (Z * state) :=
  if size =? 0 then Ret (0, s) else
  let! _ := if alignment =? 0 then Undef else Ret tt in
  let ret := klib.align_up (u64 (alloc_base s + alloc_ptr s)) alignment in
  let s := s <| alloc_ptr := u64 (u64 (ret - alloc_base s) + size) |> in
  let! _ := assert (alloc_ptr s <? total_size s) in
  Ret (ret, s).

Definition free (ptr : Z) (s : state) : state := s.

(** Bytes read and written through pointers, one after the other. *)
Fixpoint copy (n : nat) (dst src : Z) (m : gmap Z Z) : outcome (gmap Z Z) :=
  match n with
  | O => Ret m
  | S n => let! b := deref (m !! src) in copy n (dst + 1) (src + 1) (<[dst := b]> m)
  end.
Fixpoint fill (n : nat) (dst b : Z) (m : gmap Z Z) : gmap Z Z :=
  match n with O => m | S n => fill n (dst + 1) b (<[dst := b]> m) end.

(** [size] bytes are copied, whatever the size of the old block. *)
Definition reallocate (s : state) (ptr size : Z) : outcome (Z * state) :=
  if ptr =? 0 then allocate s size default_alignment
  else if size =? 0 then Ret (0, free ptr s)
  else
    let! (newptr, s) := allocate s size default_alignment in
    let! m := copy (Z.to_nat size) newptr ptr (memory s) in
    Ret (newptr, free ptr (s <| memory := m |>)).

(** ** klib *)

Definition malloc (s : state) (size : Z) : outcome (Z * state) := allocate s size default_alignment.
Definition aligned_alloc (s : state) (size alignment : Z) : outcome (Z * state) := allocate s size alignment.
Definition calloc (s : state) (size : Z) : outcome (Z * state) :=
  let! (ptr, s) := allocate s size default_alignment in
  Ret (ptr, s <| memory ::= fill (Z.to_nat size) ptr 0 |>).
Definition realloc (s : state) (ptr size : Z) : outcome (Z * state) := reallocate s ptr size.

End bump.

Import bump.

(** ** Properties *)

(** The region is memory, all of it there, and not at the end of the address space. *)
Record heap_ok (s : state) : Prop := {
  hb_base : 0 < alloc_base s;
  hb_end : alloc_base s + total_size s <= 9223372036854775808;
  hb_ptr : 0 <= alloc_ptr s <= total_size s;
  hb_bytes : forall a, alloc_base s <= a < alloc_base s + total_size s -> is_Some (memory s !! a)
}.

(** The first address that was not given out. *)
Definition frontier (s : state) : Z := alloc_base s + alloc_ptr s.
Definition heap_end (s : state) : Z := alloc_base s + total_size s.

(** Sizes for which no sum wraps around. *)
Definition request_ok (size alignment : Z) : Prop := 0 < size < 4611686018427387904 /\ 0 < alignment < 4611686018427387904.

Lemma allocate_block s size alignment : heap_ok s -> request_ok size alignment ->
  match allocate s size alignment with
  | Ret (ptr, s') => ptr mod alignment = 0 /\ frontier s <= ptr < frontier s + alignment /\
      frontier s' = ptr + size /\ ptr + size < heap_end s /\ heap_ok s' /\
      memory s' = memory s /\ heap_end s' = heap_end s
  | Panic => heap_end s < frontier s + size + alignment
  | Undef => False
  end.
Proof.
  intros [] [Hs Ha]. unfold allocate. rewrite (proj2 (Z.eqb_neq size 0)), (proj2 (Z.eqb_neq alignment 0)) by lia.
  cbn [obind]. unfold frontier, heap_end in *.
  rewrite (u64_small (alloc_base s + alloc_ptr s)) by lia.
  destruct (klib.align_up_spec (alloc_base s + alloc_ptr s) alignment) as (Hr & Hm & H0); [lia..|].
  set (ret := klib.align_up _ _) in *. rewrite (u64_small (ret - alloc_base s)), u64_small by lia.
  simpl. destruct (Z.ltb_spec (ret - alloc_base s + size) (total_size s)) as [Hlt|Hge]; cbn [assert obind]; [|lia].
  simpl. split_and!; try (done || lia). split; simpl; try done; lia.
Qed.

(** A copy to higher addresses, first byte first: the bytes below the destination are
    copied as they were, nothing else is written. *)
Lemma copy_forward n dst src m : src < dst -> (forall a, src <= a < src + Z.of_nat n -> is_Some (m !! a)) ->
  exists m', copy n dst src m = Ret m' /\
    (forall a, a < dst \/ dst + Z.of_nat n <= a -> m' !! a = m !! a) /\
    (forall i, 0 <= i < Z.of_nat n -> src + i < dst -> m' !! (dst + i) = m !! (src + i)) /\
    (forall a, is_Some (m !! a) -> is_Some (m' !! a)).
Proof.
  revert dst src m. induction n as [|n IH]; intros dst src m Hlt Hb; simpl.
  { exists m. split_and!; auto. lia. }
  destruct (Hb src) as [b Hsrc]; [lia|]. rewrite Hsrc. cbn [deref obind].
  destruct (IH (dst + 1) (src + 1) (<[dst := b]> m)) as (m' & -> & Hout & Hin & Hk); [lia| |].
  { intros a Ha. rewrite lookup_insert_is_Some'. right. apply Hb. lia. }
  exists m'. split; [done|]. split; [|split].
  - intros a Ha. rewrite Hout by lia. apply lookup_insert_ne. lia.
  - intros i Hi Hs. destruct (decide (i = 0)) as [->|].
    + rewrite !Z.add_0_r, Hout, lookup_insert_eq by lia. done.
    + replace (dst + i) with (dst + 1 + (i - 1)) by lia. rewrite Hin by lia.
      rewrite lookup_insert_ne by lia. f_equal. lia.
  - intros a Ha. apply Hk. rewrite lookup_insert_is_Some'. auto.
Qed.


(** A heap of 512 bytes of 7 at address 65536. *)
Definition sample_heap : state := mkState 65536 512 100 (fill 512 65536 7 ∅).

Lemma fill_bytes n dst b m a : dst <= a < dst + Z.of_nat n -> fill n dst b m !! a = Some b.
Proof.
  assert (Hb : forall n dst m a, a < dst -> fill n dst b m !! a = m !! a).
  { clear. induction n as [|n IH]; intros; simpl; [done|]. rewrite IH, lookup_insert_ne by lia. done. }
  revert dst m. induction n as [|n IH]; intros dst m Ha; simpl; [lia|]. destruct (decide (a = dst)) as [->|].
  - by rewrite Hb, lookup_insert_eq by lia.
  - apply IH. lia.
Qed.

Lemma sample_heap_ok : heap_ok sample_heap.
Proof.
  split; cbn [sample_heap alloc_base total_size alloc_ptr memory]; try lia.
  intros a Ha. rewrite fill_bytes by lia. eauto.
Qed.


(** A request near 2^64 wraps the sum around: it is granted, and the frontier goes back
    over blocks that are in use. *)
Lemma allocate_wraps : exists s', allocate sample_heap 18446744073709551600 16 = Ret (65648, s') /\ alloc_ptr s' = 96.
Proof. eexists. split; [reflexivity|reflexivity]. Qed.

(** Growing a block copies the bytes that follow it. *)
Lemma reallocate_reads_past_block :
  (let! (p, s) := malloc sample_heap 16 in
   let s := s <| memory ::= fill 16 p 1 |> <| memory ::= fill 16 (p + 16) 2 |> in
   let! (_, s) := malloc s 16 in
   let! (q, s) := realloc s p 32 in
   Ret (memory s !! (q + 16))) = Ret (Some 2).
Proof. vm_compute. reflexivity. Qed.
