(* ===== verification/Objects.v ===== *)
(** * Objects behind descriptors: userland/pipe, eventfd, signalfd, inotify, memfd

    The vnodes that are not files of a file system. They live in a heap of their own,
    beside the state of the kernel; a virtual call looks its object up there. A call
    that may sleep is a loop of turns: one turn runs up to the wait, and the next
    starts from whatever state it finds then. *)

From S2P Require Import Prelude Algorithm Links Vfs Tmpfs RingBuffer Sched FdTable VfsCalls Signal.

(** ** Data *)

Record Pipe := mkPipe { readers : Z; writers : Z; pipe_event : Z; ring_buffer : RingBuffer Z }.
#[export] Instance eta_Pipe : Settable Pipe := fun p =>
  mkPipe (readers p) (writers p) (pipe_event p) (ring_buffer p).

Record EventFD := mkEventFD { eventfd_event : Z; counter : Z; is_semaphore : bool }.
#[export] Instance eta_EventFD : Settable EventFD := fun e =>
  mkEventFD (eventfd_event e) (counter e) (is_semaphore e).

(** [event] is that of the main thread of the process that made the object. *)
Record SignalFD := mkSignalFD { signalfd_event : Z; signalfd_mask : Z }.
#[export] Instance eta_SignalFD : Settable SignalFD := fun s =>
  mkSignalFD (signalfd_event s) (signalfd_mask s).

Record INotify := mkINotify { inotify_event : Z; inotify_ring : RingBuffer Z; wd : Z }.
#[export] Instance eta_INotify : Settable INotify := fun i =>
  mkINotify (inotify_event i) (inotify_ring i) (wd i).

(** [mem_bytes], [mem_capacity] of them, are the memory at [address]. *)
Record MemFD := mkMemFD { mem_size : Z; mem_capacity : Z; mem_bytes : list Z; seals : Z }.
#[export] Instance eta_MemFD : Settable MemFD := fun m =>
  mkMemFD (mem_size m) (mem_capacity m) (mem_bytes m) (seals m).

(** [epoll_event] and [EPoll]; [key_to_events_index] in the order of no hash. *)
Record epoll_event := mkEpollEvent { ee_events : Z; ee_data : Z }.
Record RegisteredEvent := mkRegistered { re_description : option Z; old_revents : Z; user_events : epoll_event }.
#[export] Instance eta_RegisteredEvent : Settable RegisteredEvent := fun r =>
  mkRegistered (re_description r) (old_revents r) (user_events r).
Record EPoll := mkEPoll {
  key_to_events_index : gmap Z Z;
  ep_events : list RegisteredEvent;
  wait_events : list (option Z);
  first_free_event : Z
}.
#[export] Instance eta_EPoll : Settable EPoll := fun e =>
  mkEPoll (key_to_events_index e) (ep_events e) (wait_events e) (first_free_event e).

(** A vnode of any other type is what its virtual functions answer at the time. *)
Inductive object :=
| OPipe (p : Pipe) | OEventFD (e : EventFD) | OSignalFD (s : SignalFD) | OINotify (i : INotify)
| OMemFD (m : MemFD) | OEPoll (e : EPoll)
| OOther (t : NodeType) (poll : FileDescription -> Z -> Z) (event : option Z).

Definition object_type (o : object) : NodeType :=
  match o with
  | OPipe _ => FIFO | OEventFD _ => EVENTFD | OSignalFD _ => SIGNALFD | OINotify _ => INOTIFY
  | OMemFD _ => MEMFD | OEPoll _ => EPOLL | OOther t _ _ => t
  end.

(** [VNode::event]. *)
Definition object_event (o : object) : option Z :=
  match o with
  | OPipe p => Some (pipe_event p) | OEventFD e => Some (eventfd_event e)
  | OSignalFD s => Some (signalfd_event s) | OINotify i => Some (inotify_event i)
  | OMemFD _ | OEPoll _ => None
  | OOther _ _ e => e
  end.

Record ipc := mkIpc { krn : kernel; objects : gmap Z object }.
#[export] Instance eta_ipc : Settable ipc := fun s => mkIpc (krn s) (objects s).

Definition put_object (v : Z) (o : object) (s : ipc) : ipc := s <| objects ::= <[v := o]> |>.

(** ** Constants *)

Definition POLLIN : Z := 1.
Definition POLLPRI : Z := 2.
Definition POLLOUT : Z := 4.
Definition POLLERR : Z := 8.
Definition POLLHUP : Z := 16.
Definition POLLNVAL : Z := 32.
Definition FIONREAD : Z := 21531.
Definition pipe_capacity : Z := 4096.

(** ** Loops of turns *)

(** A turn that returns gives its result and the state after. *)
Fixpoint wait_loop {S R} (turn : S -> outcome (option (R * S))) (interrupted : R) (s : S)
    (waits : list (Z * S)) : outcome (blocking S R) :=
  let! r := turn s in
  match r, waits with
  | Some (v, s), _ => Ret (Done v s)
  | None, [] => Ret (Sleeping s)
  | None, (w, s) :: waits =>
      if w =? - EINTR then Ret (Done interrupted s) else wait_loop turn interrupted s waits
  end.

(** ** Creation *)

Definition new_event (k : kernel) : Z * kernel :=
  (next_obj k, put_event (next_obj k) Event_init (k <| next_obj ::= Z.add 1 |>)).

(** [new] of an object. *)
Definition new_object (o : object) (s : ipc) : Z * ipc :=
  let v := next_obj (krn s) in
  (v, put_object v o (s <| krn ::= fun k => k <| next_obj ::= Z.add 1 |> |>)).

(** [FileDescription(vnode, flags)] in the slot [allocate_fdnum] gives. The entry of
    such a description is not set. *)
Definition create_fd (s : ipc) (p v d_flags : Z) (fd_flags : Z) : outcome (Z * Z * ipc) :=
  let k := krn s in
  let! pr := deref (processes k !! p) in
  let! (fd, pr, _) := allocate_fdnum pr 0 in
  let k := put_process p pr k in
  let d := next_obj k in
  let! k := install (k <| next_obj ::= Z.add 1 |>) p fd d fd_flags (mkDescription v 0 0 d_flags 1) in
  Ret (fd, d, s <| krn := k |>).

(** The description a number refers to, with its object. *)
Definition fd_object (s : ipc) (p fd : Z) : outcome (option (Z * FileDescription * object)) :=
  let! d := get_file_description (krn s) p fd in
  match d with
  | None => Ret None
  | Some d =>
      let! desc := deref (descriptions (krn s) !! d) in
      let! o := deref (objects s !! d_vnode desc) in
      Ret (Some (d, desc, o))
  end.

(** ** Pipes *)

Definition Pipe_open (d : FileDescription) (p : Pipe) : Pipe :=
  let p := if can_read d then p <| readers ::= fun n => u64 (n + 1) |> else p in
  if can_write d then p <| writers ::= fun n => u64 (n + 1) |> else p.

Definition Pipe_close (d : FileDescription) (p : Pipe) (k : kernel) : outcome (Pipe * kernel) :=
  let p := if can_read d then p <| readers ::= fun n => u64 (n - 1) |> else p in
  let p := if can_write d then p <| writers ::= fun n => u64 (n - 1) |> else p in
  let! k := trigger_all k (pipe_event p) in
  Ret (p, k).

(** A turn of [read]: the count or error and the bytes stored. *)
Definition Pipe_read (d : FileDescription) (count : Z) (p : Pipe) (k : kernel)
    : outcome (option (Z * list Z * Pipe * kernel)) :=
  if is_empty (ring_buffer p) then
    if writers p =? 0 then Ret (Some (0, [], p, k))
    else if d_flags d &? O_NONBLOCK then Ret (Some (- EWOULDBLOCK, [], p, k))
    else Ret None
  else
    let '(n, out, r) := read (ring_buffer p) count in
    let! k := trigger_all k (pipe_event p) in
    Ret (Some (n, out, p <| ring_buffer := r |>, k)).

Definition Pipe_write (d : FileDescription) (buf : list Z) (p : Pipe) (k : kernel)
    : outcome (option (Z * Pipe * kernel)) :=
  if readers p =? 0 then Ret (Some (- EPIPE, p, k))
  else if is_full (ring_buffer p) then
    if d_flags d &? O_NONBLOCK then Ret (Some (- EWOULDBLOCK, p, k)) else Ret None
  else
    let '(n, r) := write (ring_buffer p) buf (Z.of_nat (length buf)) in
    let! k := trigger_all k (pipe_event p) in
    Ret (Some (n, p <| ring_buffer := r |>, k)).

Definition Pipe_poll (p : Pipe) (events : Z) : Z :=
  let revents := 0 in
  let revents :=
    if events &? POLLIN then
      if writers p =? 0 then revents .| POLLHUP
      else if negb (is_empty (ring_buffer p)) then revents .| POLLIN else revents
    else revents in
  if events &? POLLOUT then
    if readers p =? 0 then revents .| POLLERR
    else if negb (is_full (ring_buffer p)) then revents .| POLLOUT else revents
  else revents.

(** The result and what is stored at [arg]. *)
Definition VNode_ioctl (cmd : Z) : Z :=
  if (cmd =? 21505) || (cmd =? 21506) || (cmd =? 21518) || (cmd =? 21523) then - ENOTTY else - EINVAL.
Definition Pipe_ioctl (p : Pipe) (cmd : Z) : Z * option Z :=
  if cmd =? FIONREAD then (0, Some (i32 (data_count (ring_buffer p)))) else (VNode_ioctl cmd, None).

Definition Pipe_seek : Z := - ESPIPE.
Definition Pipe_mmap : Z := - EACCES.

(** [pipe_impl]: both descriptors on success. The bytes of the buffer are not set. *)
Definition pipe_impl (s : ipc) (p : Z) (bytes : list Z) (flags : Z) : outcome (Z * (Z * Z) * ipc) :=
  if negb (flags &~ (O_CLOEXEC .| O_NONBLOCK) =? 0) then Ret (- EINVAL, (0, 0), s) else
  let (e, k) := new_event (krn s) in
  let pipe := mkPipe 0 0 e (empty_ring bytes) in
  let (v, s) := new_object (OPipe pipe) (s <| krn := k |>) in
  let cloexec := if flags &? O_CLOEXEC then FD_CLOEXEC else 0 in
  let rflags := O_RDONLY .| Z.land flags O_NONBLOCK in
  let! (rfd, rd, s) := create_fd s p v rflags cloexec in
  let pipe := Pipe_open (mkDescription v 0 0 rflags 1) pipe in
  let wflags := O_WRONLY .| Z.land flags O_NONBLOCK in
  let! (wfd, wd, s) := create_fd (put_object v (OPipe pipe) s) p v wflags cloexec in
  let pipe := Pipe_open (mkDescription v 0 0 wflags 1) pipe in
  Ret (0, (rfd, wfd), put_object v (OPipe pipe) s).

Definition syscall_pipe (s : ipc) (p : Z) (bytes : list Z) := pipe_impl s p bytes 0.
Definition syscall_pipe2 (s : ipc) (p : Z) (bytes : list Z) (flags : Z) := pipe_impl s p bytes flags.

(** ** eventfd *)

Definition COUNTER_MAX : Z := 18446744073709551614.
Definition EFD_SEMAPHORE : Z := 1.

(** A turn of [read]: the result and the number stored in the buffer. *)
Definition EventFD_read (d : FileDescription) (count : Z) (e : EventFD) (k : kernel)
    : outcome (option (Z * option Z * EventFD * kernel)) :=
  if count <? 8 then Ret (Some (- EINVAL, None, e, k))
  else if counter e =? 0 then
    if d_flags d &? O_NONBLOCK then Ret (Some (- EWOULDBLOCK, None, e, k)) else Ret None
  else
    let (v, e) := if is_semaphore e then (1, e <| counter ::= fun n => u64 (n - 1) |>)
                  else (counter e, e <| counter := 0 |>) in
    let! (k, _) := trigger k (eventfd_event e) true INT_MAX in
    Ret (Some (8, Some v, e, k)).

(** A turn of [write] of the number [to_add], from a buffer of [count] bytes. *)
Definition EventFD_write (d : FileDescription) (count to_add : Z) (e : EventFD) (k : kernel)
    : outcome (option (Z * EventFD * kernel)) :=
  if count <? 8 then Ret (Some (- EINVAL, e, k))
  else if to_add =? 18446744073709551615 then Ret (Some (- EINVAL, e, k))
  else if counter e >? u64 (COUNTER_MAX - to_add) then
    if d_flags d &? O_NONBLOCK then Ret (Some (- EWOULDBLOCK, e, k)) else Ret None
  else
    let e := e <| counter ::= fun n => u64 (n + to_add) |> in
    let! (k, _) := trigger k (eventfd_event e) true INT_MAX in
    Ret (Some (8, e, k)).

Definition EventFD_poll (e : EventFD) (events : Z) : Z :=
  let revents := if (events &? POLLIN) && (counter e >? 0) then POLLIN else 0 in
  if (events &? POLLOUT) && (counter e <? COUNTER_MAX) then revents .| POLLOUT else revents.

(** The flags of the description: [O_RDWR | (flags & EFD_NONBLOCK) ? O_NONBLOCK : 0]
    is read as [(O_RDWR | ...) ? O_NONBLOCK : 0]. *)
Definition nonblock_flags (access flags : Z) : Z :=
  if access .| Z.land flags O_NONBLOCK =? 0 then 0 else O_NONBLOCK.
Definition cloexec_flag (flags : Z) : Z := if flags &? O_CLOEXEC then FD_CLOEXEC else 0.

Definition eventfd_impl (s : ipc) (p initval flags : Z) : outcome (Z * ipc) :=
  if negb (flags &~ (O_NONBLOCK .| O_CLOEXEC .| EFD_SEMAPHORE) =? 0) then Ret (- EINVAL, s) else
  let (e, k) := new_event (krn s) in
  let (v, s) := new_object (OEventFD (mkEventFD e initval (flags &? EFD_SEMAPHORE))) (s <| krn := k |>) in
  let! (fd, _, s) := create_fd s p v (nonblock_flags O_RDWR flags) (cloexec_flag flags) in
  Ret (fd, s).
Definition syscall_eventfd2 (s : ipc) (p initval flags : Z) := eventfd_impl s p initval flags.
Definition syscall_eventfd (s : ipc) (p initval : Z) := eventfd_impl s p initval 0.

(** ** signalfd *)

(** The loop over the slots of the buffer: the signals stored, taken from the thread
    lowest first. *)
Fixpoint take_signals (n : nat) (mask pending : Z) : outcome (list Z * Z) :=
  match n with
  | O => Ret ([], pending)
  | S n =>
      let accepted := Z.land pending mask in
      if accepted =? 0 then Ret ([], pending) else
      match first_signal accepted 0 64 with
      | None => Panic
      | Some signal =>
          let! (l, pending) := take_signals n mask (pending &~ get_signal_bit signal) in
          Ret (signal :: l, pending)
      end
  end.

Definition siginfo_size : Z := 128.

(** A turn of [read] by process [p]: the result and the signals stored. *)
Definition SignalFD_read (d : FileDescription) (p count : Z) (f : SignalFD) (k : kernel)
    : outcome (option (Z * list Z * kernel)) :=
  let! t := get_main_thread k p in
  let! th := deref (threads k !! t) in
  if count / siginfo_size <? 1 then Ret (Some (- EINVAL, [], k))
  else if Z.land (pending_signals th) (signalfd_mask f) =? 0 then
    if d_flags d &? O_NONBLOCK then Ret (Some (- EWOULDBLOCK, [], k)) else Ret None
  else
    let! (l, pending) := take_signals (Z.to_nat (count / siginfo_size)) (signalfd_mask f) (pending_signals th) in
    Ret (Some (Z.of_nat (length l) * siginfo_size, l, put_thread t (th <| pending_signals := pending |>) k)).

Definition SignalFD_poll (p : Z) (f : SignalFD) (k : kernel) (events : Z) : outcome Z :=
  let! t := get_main_thread k p in
  let! th := deref (threads k !! t) in
  Ret (if (events &? POLLIN) && (pending_signals th &? signalfd_mask f) then POLLIN else 0).

Definition signalfd_impl (s : ipc) (p fd mask flags : Z) : outcome (Z * ipc) :=
  if negb (flags &~ (O_NONBLOCK .| O_CLOEXEC) =? 0) then Ret (- EINVAL, s)
  else if fd =? -1 then
    let! t := get_main_thread (krn s) p in
    let! th := deref (threads (krn s) !! t) in
    let (v, s) := new_object (OSignalFD (mkSignalFD (signal_event th) mask)) s in
    let! (sfd, _, s) := create_fd s p v (nonblock_flags O_RDONLY flags) (cloexec_flag flags) in
    Ret (sfd, s)
  else
    let! o := fd_object s p fd in
    match o with
    | None => Ret (- EBADF, s)
    | Some (_, desc, OSignalFD f) =>
        Ret (fd, put_object (d_vnode desc) (OSignalFD (f <| signalfd_mask := mask |>)) s)
    | Some _ => Ret (- EINVAL, s)
    end.
Definition syscall_signalfd4 (s : ipc) (p fd mask mask_size flags : Z) : outcome (Z * ipc) :=
  if negb (mask_size =? 8) then Ret (- EINVAL, s) else signalfd_impl s p fd mask flags.
Definition syscall_signalfd (s : ipc) (p fd mask mask_size : Z) : outcome (Z * ipc) :=
  if negb (mask_size =? 8) then Ret (- EINVAL, s) else signalfd_impl s p fd mask 0.

(** ** inotify: no event is ever queued *)

Definition INotify_read (d : FileDescription) (count : Z) (i : INotify) : option (Z * list Z * INotify) :=
  if is_empty (inotify_ring i) then
    if d_flags d &? O_NONBLOCK then Some (- EWOULDBLOCK, [], i) else None
  else
    let '(n, out, r) := read (inotify_ring i) count in
    Some (n, out, i <| inotify_ring := r |>).

Definition INotify_poll (i : INotify) (events : Z) : Z :=
  if (events &? POLLIN) && negb (is_empty (inotify_ring i)) then POLLIN else 0.

Definition inotify_init1_impl (s : ipc) (p : Z) (bytes : list Z) (flags : Z) : outcome (Z * ipc) :=
  if negb (flags &~ (O_NONBLOCK .| O_CLOEXEC) =? 0) then Ret (- EINVAL, s) else
  let (e, k) := new_event (krn s) in
  let (v, s) := new_object (OINotify (mkINotify e (empty_ring bytes) 0)) (s <| krn := k |>) in
  let! (ifd, _, s) := create_fd s p v (nonblock_flags O_RDONLY flags) (cloexec_flag flags) in
  Ret (ifd, s).
Definition syscall_inotify_init (s : ipc) (p : Z) (bytes : list Z) := inotify_init1_impl s p bytes 0.
Definition syscall_inotify_init1 (s : ipc) (p : Z) (bytes : list Z) (flags : Z) := inotify_init1_impl s p bytes flags.

Definition syscall_inotify_add_watch (s : ipc) (p ifd : Z) : outcome (Z * ipc) :=
  let! o := fd_object s p ifd in
  match o with
  | None => Ret (- EBADF, s)
  | Some (_, desc, OINotify i) =>
      Ret (wd i, put_object (d_vnode desc) (OINotify (i <| wd ::= fun n => i32 (n + 1) |>)) s)
  | Some _ => Ret (- EINVAL, s)
  end.
Definition syscall_inotify_rm_watch (s : ipc) (p ifd : Z) : outcome Z :=
  let! o := fd_object s p ifd in
  match o with
  | None => Ret (- EBADF)
  | Some (_, _, OINotify _) => Ret 0
  | Some _ => Ret (- EINVAL)
  end.

(** ** memfd *)

(** New memory, of zeros, when the old one is too small; its contents are not copied. *)
Definition MemFD_grow_to (m : MemFD) (length : Z) : MemFD :=
  let m := m <| mem_size := length |> in
  if mem_capacity m <? length then
    let c := klib.align_up length PAGE_SIZE in
    m <| mem_capacity := c |> <| mem_bytes := replicate (Z.to_nat c) 0 |>
  else m.

Definition MemFD_read (m : MemFD) (count offset : Z) : outcome (Z * list Z) :=
  if offset >=? mem_size m then Ret (0, []) else
  let actual_count := if u64 (offset + count) >? mem_size m then mem_size m - offset else count in
  let! bytes := storage_read (mem_bytes m) offset actual_count in
  Ret (i64 actual_count, bytes).

Definition MemFD_write (m : MemFD) (buf : list Z) (offset : Z) : outcome (Z * MemFD) :=
  let count := Z.of_nat (length buf) in
  if count =? 0 then Ret (0, m) else
  let m := if u64 (offset + count) >? mem_size m then MemFD_grow_to m (u64 (offset + count)) else m in
  let! st := storage_write (mem_bytes m) offset buf in
  Ret (i64 count, m <| mem_bytes := st |>).

Definition MemFD_seek (m : MemFD) (position offset whence : Z) : Z :=
  if whence =? SEEK_SET then offset
  else if whence =? SEEK_CUR then i64 (position + offset)
  else if whence =? SEEK_END then i64 (mem_size m + offset)
  else if whence =? SEEK_DATA then if u64 offset >=? mem_size m then - ENXIO else offset
  else if whence =? SEEK_HOLE then if u64 offset >=? mem_size m then - ENXIO else i64 (mem_size m)
  else - EINVAL.

Definition MemFD_truncate (m : MemFD) (length : Z) : outcome (Z * MemFD) :=
  let! m :=
    if length >? mem_size m then Ret (MemFD_grow_to m length)
    else let! st := storage_write (mem_bytes m) length (replicate (Z.to_nat (mem_size m - length)) 0) in
         Ret (m <| mem_bytes := st |>) in
  Ret (0, m <| mem_size := length |>).

Definition O_LARGEFILE : Z := 32768.
Definition MFD_ALLOW_SEALING : Z := 2.
Definition MFD_CLOEXEC : Z := 1.
Definition F_SEAL_SEAL : Z := 1.
Definition syscall_memfd_create (s : ipc) (p flags : Z) : outcome (Z * ipc) :=
  let (v, s) := new_object (OMemFD (mkMemFD 0 0 [] (if flags &? MFD_ALLOW_SEALING then 0 else F_SEAL_SEAL))) s in
  let! (mfd, _, s) := create_fd s p v (O_RDWR .| O_LARGEFILE) (if flags &? MFD_CLOEXEC then FD_CLOEXEC else 0) in
  Ret (mfd, s).
