(* ===== verification/ObjectProps.v ===== *)
(** * Correctness of pipes and eventfds (userland/pipe.cpp, eventfd.cpp)

    What their calls do, against a queue of bytes and a counter, and that whoever
    can go on is woken. *)

From S2P Require Import Prelude Links RingBuffer Sched SchedFacts SchedLinks SchedProps FdTable TimeProps Objects.

(** ** Waking *)

Lemma trigger_drop_wakes k e ev :
  sched_wf k -> events k !! e = Some ev ->
  exists k' n, trigger k e true INT_MAX = Ret (k', n) /\ advance k k' /\ wakes k k' e.
Proof.
  intros Hwf Hev. destruct (trigger_advance k e ev true INT_MAX Hwf Hev) as (k' & n & Ht & Ha).
  exists k', n. split_and!; [done..|]. intros ev' Hev' Hmax t th w Hth Hb Hin. simplify_eq.
  destruct (links_event _ (proj2 Hwf) _ _ Hev) as [_ Hn].
  destruct (trigger_wakes k e ev t th true INT_MAX Hwf Hev Hth Hb) as (k2 & n2 & w2 & Ht2 & _ & _ & _ & Hk2);
    [eauto|lia|]. rewrite Ht in Ht2. simplify_eq. eexists. split; [done|]. done.
Qed.

(** ** A pipe against a bounded queue

    The calls on a pipe, by their descriptions; a read or a write is one turn. *)
Inductive pipe_op :=
| PRead (d : FileDescription) (count : Z)
| PWrite (d : FileDescription) (buf : list Z)
| POpen (d : FileDescription)
| PClose (d : FileDescription).

(** What a call returned and stored: nothing when it has to sleep. *)
Definition pipe_result : Type := option (Z * list Z).

Definition run_pipe (o : pipe_op) (p : Pipe) (k : kernel) : outcome (pipe_result * Pipe * kernel) :=
  match o with
  | PRead d count =>
      let! r := Pipe_read d count p k in
      Ret (match r with Some (n, out, p, k) => (Some (n, out), p, k) | None => (None, p, k) end)
  | PWrite d buf =>
      let! r := Pipe_write d buf p k in
      Ret (match r with Some (n, p, k) => (Some (n, []), p, k) | None => (None, p, k) end)
  | POpen d => Ret (Some (0, []), Pipe_open d p, k)
  | PClose d => let! (p, k) := Pipe_close d p k in Ret (Some (0, []), p, k)
  end.
Fixpoint run_pipes (ops : list pipe_op) (p : Pipe) (k : kernel) : outcome (list pipe_result * Pipe * kernel) :=
  match ops with
  | [] => Ret ([], p, k)
  | o :: ops =>
      let! (r, p, k) := run_pipe o p k in
      let! (rs, p, k) := run_pipes ops p k in
      Ret (r :: rs, p, k)
  end.

(** The queue, with the numbers of its readers and writers. *)
Record pipe_spec := mkPipeSpec { queue : list Z; n_readers : Z; n_writers : Z }.
Definition abs (p : Pipe) : pipe_spec := mkPipeSpec (contents (ring_buffer p)) (readers p) (writers p).

Definition spec_pipe (o : pipe_op) (q : pipe_spec) : pipe_result * pipe_spec :=
  match o with
  | PRead d count =>
      match queue q with
      | [] => (if n_writers q =? 0 then Some (0, [])
               else if d_flags d &? O_NONBLOCK then Some (- EWOULDBLOCK, []) else None, q)
      | bytes =>
          let n := Z.min count (Z.of_nat (length bytes)) in
          (Some (n, take (Z.to_nat n) bytes), mkPipeSpec (drop (Z.to_nat n) bytes) (n_readers q) (n_writers q))
      end
  | PWrite d buf =>
      if n_readers q =? 0 then (Some (- EPIPE, []), q)
      else if Z.of_nat (length (queue q)) =? pipe_capacity
      then (if d_flags d &? O_NONBLOCK then Some (- EWOULDBLOCK, []) else None, q)
      else
        let n := Z.min (Z.of_nat (length buf)) (pipe_capacity - Z.of_nat (length (queue q))) in
        (Some (n, []), mkPipeSpec (queue q ++ take (Z.to_nat n) buf) (n_readers q) (n_writers q))
  | POpen d => (Some (0, []), mkPipeSpec (queue q)
                 (if can_read d then u64 (n_readers q + 1) else n_readers q)
                 (if can_write d then u64 (n_writers q + 1) else n_writers q))
  | PClose d => (Some (0, []), mkPipeSpec (queue q)
                 (if can_read d then u64 (n_readers q - 1) else n_readers q)
                 (if can_write d then u64 (n_writers q - 1) else n_writers q))
  end.
Fixpoint spec_pipes (ops : list pipe_op) (q : pipe_spec) : list pipe_result * pipe_spec :=
  match ops with
  | [] => ([], q)
  | o :: ops => let (r, q) := spec_pipe o q in let (rs, q) := spec_pipes ops q in (r :: rs, q)
  end.

(** The bytes read and those accepted in a run. *)
Definition read_by (o : pipe_op) (r : pipe_result) : list Z :=
  match o, r with PRead _ _, Some (_, out) => out | _, _ => [] end.
Definition accepted_by (o : pipe_op) (r : pipe_result) : list Z :=
  match o, r with PWrite _ buf, Some (n, _) => take (Z.to_nat n) buf | _, _ => [] end.
Definition all_by (f : pipe_op -> pipe_result -> list Z) (ops : list pipe_op) (rs : list pipe_result) : list Z :=
  concat (zip_with f ops rs).

Definition op_ok (o : pipe_op) : Prop := match o with PRead _ count => 0 <= count | _ => True end.
Definition pipe_wf (p : Pipe) : Prop := wf (ring_buffer p) /\ size (ring_buffer p) = pipe_capacity.

(** A call that would sleep. *)
Definition would_sleep (o : pipe_op) (q : pipe_spec) : Prop := fst (spec_pipe o q) = None.

Lemma spec_fifo o q r q' : op_ok o -> spec_pipe o q = (r, q') ->
  read_by o r ++ queue q' = queue q ++ accepted_by o r.
Proof.
  destruct o as [d count|d buf|d|d]; simpl; intros Hok Hs; [| |by injection Hs as <- <-; rewrite app_nil_r..].
  - destruct (queue q) as [|b bytes] eqn:Hq; injection Hs as <- <-; simpl.
    + rewrite Hq. by destruct (n_writers q =? 0), (d_flags d &? O_NONBLOCK).
    + by rewrite app_nil_r, take_drop.
  - destruct (n_readers q =? 0); [by injection Hs as <- <-; rewrite app_nil_r|].
    destruct (_ =? pipe_capacity); injection Hs as <- <-; [|done].
    destruct (d_flags d &? O_NONBLOCK); by rewrite app_nil_r.
Qed.

Lemma specs_fifo ops q rs q' : Forall op_ok ops -> spec_pipes ops q = (rs, q') ->
  all_by read_by ops rs ++ queue q' = queue q ++ all_by accepted_by ops rs.
Proof.
  intros Hok. revert q rs q'. induction Hok as [|o ops Ho Hok IH]; intros q rs q'; simpl.
  { intros [= <- <-]. by rewrite app_nil_r. }
  destruct (spec_pipe o q) as [r q1] eqn:E1, (spec_pipes ops q1) as [rs' q2] eqn:E2. intros [= <- <-].
  unfold all_by in *. simpl. rewrite <- app_assoc, (IH _ _ _ E2), !app_assoc. f_equal. by apply spec_fifo.
Qed.

(** ** One step *)

Lemma is_empty_spec p : pipe_wf p -> is_empty (ring_buffer p) = bool_decide (contents (ring_buffer p) = []).
Proof.
  intros [Hwf _]. destruct (is_empty _) eqn:E; symmetry; [by apply bool_decide_eq_true, contents_nil_iff|].
  apply bool_decide_eq_false. intros Hn. by rewrite (proj2 (contents_nil_iff _ Hwf) Hn) in E.
Qed.
Lemma is_full_spec p : pipe_wf p ->
  is_full (ring_buffer p) = (Z.of_nat (length (contents (ring_buffer p))) =? pipe_capacity).
Proof. intros [Hwf Hs]. by rewrite length_contents, <- Hs. Qed.

(** No more descriptions than a count can hold. *)
Definition counts_ok (p : Pipe) : Prop :=
  0 <= readers p < 18446744073709551615 /\ 0 <= writers p < 18446744073709551615.

(** A step does what the queue does, and whoever it lets go on is woken. *)
Definition pipe_step_ok (o : pipe_op) (p : Pipe) (k : kernel) : Prop :=
  exists p' k', run_pipe o p k = Ret (fst (spec_pipe o (abs p)), p', k') /\
    abs p' = snd (spec_pipe o (abs p)) /\ pipe_wf p' /\ pipe_event p' = pipe_event p /\ advance k k' /\
    (counts_ok p -> (forall o', would_sleep o' (abs p) -> would_sleep o' (abs p')) \/ wakes k k' (pipe_event p)).

Lemma pipe_read_step d count p k ev : pipe_wf p -> sched_wf k -> events k !! pipe_event p = Some ev -> 0 <= count ->
  pipe_step_ok (PRead d count) p k.
Proof.
  intros Hp Hk Hev Hc. pose proof Hp as [Hwf Hs]. unfold pipe_step_ok. simpl. unfold Pipe_read. rewrite is_empty_spec by done.
  destruct (contents (ring_buffer p)) as [|b bytes] eqn:Hq.
  - rewrite bool_decide_true by done. exists p, k. simpl.
    split; [by destruct (writers p =? 0), (d_flags d &? O_NONBLOCK)|]. split; [done|].
    split; [done|]. split; [done|]. split; [done|]. by left.
  - rewrite bool_decide_false by done.
    destruct (read (ring_buffer p) count) as [[n out] r'] eqn:Er.
    destruct (read_out _ _ _ _ _ Hwf Hc Er) as [Hout Ht].
    destruct (truncate_spec _ _ _ _ Hwf Hc Ht) as (Hn & Hwf' & Hd & Hcon & _).
    rewrite <- length_contents in Hn by done. rewrite Hq in Hn, Hcon, Hout.
    destruct (trigger_wakes_all k _ _ Hk Hev) as (k' & -> & Ha & Hw). cbn [obind fst snd].
    eexists (p <| ring_buffer := r' |>), k'. split; [by rewrite Hn, Hout, Hn|].
    split; [unfold abs; simpl; by rewrite Hcon, Hn|].
    split; [|by split; [|split; [|right]]]. split; [done|]. simpl. unfold size in *. by rewrite Hd.
Qed.

Lemma pipe_write_step d buf p k ev : pipe_wf p -> sched_wf k -> events k !! pipe_event p = Some ev ->
  pipe_step_ok (PWrite d buf) p k.
Proof.
  intros Hp Hk Hev. pose proof Hp as [Hwf Hs]. unfold pipe_step_ok. simpl. unfold Pipe_write. rewrite is_full_spec by done.
  destruct (readers p =? 0) eqn:Hr; [|destruct (_ =? pipe_capacity) eqn:Hf].
  - exists p, k. repeat (split; [done|]). by left.
  - exists p, k. split; [by destruct (d_flags d &? O_NONBLOCK)|]. repeat (split; [done|]). by left.
  - destruct (write (ring_buffer p) buf (Z.of_nat (length buf))) as [n r'] eqn:Ew.
    destruct (write_spec _ buf (Z.of_nat (length buf)) _ _ Hwf ltac:(lia) Ew) as (Hn & Hwf' & Hsz & Hcon).
    rewrite free_count_eq, <- length_contents, Hs in Hn by done.
    destruct (trigger_wakes_all k _ _ Hk Hev) as (k' & -> & Ha & Hw). cbn [obind fst snd].
    eexists (p <| ring_buffer := r' |>), k'. split; [by rewrite Hn|].
    split; [unfold abs; simpl; by rewrite Hcon, Hn|].
    split; [|by split; [|split; [|right]]]. split; [done|]. simpl. congruence.
Qed.

(** Who sleeps does so whatever the numbers of readers and writers, while there are some. *)
Lemma would_sleep_counts o q r w : would_sleep o q ->
  (n_readers q <> 0 -> r <> 0) -> (n_writers q <> 0 -> w <> 0) -> would_sleep o (mkPipeSpec (queue q) r w).
Proof.
  unfold would_sleep. intros Ho Hr Hw. destruct o as [d count|d buf|d|d]; simpl in *; try done.
  - destruct (queue q); [|done]. destruct (Z.eqb_spec (n_writers q) 0); [done|].
    destruct (d_flags d &? O_NONBLOCK); [done|]. by rewrite (proj2 (Z.eqb_neq _ _)) by auto.
  - destruct (Z.eqb_spec (n_readers q) 0); [done|]. rewrite (proj2 (Z.eqb_neq r _)) by auto. by destruct (_ =? pipe_capacity).
Qed.

Lemma pipe_step o p k ev : pipe_wf p -> sched_wf k -> events k !! pipe_event p = Some ev -> op_ok o ->
  pipe_step_ok o p k.
Proof.
  intros Hp Hk Hev Ho. destruct o as [d count|d buf|d|d].
  - by eapply pipe_read_step.
  - by eapply pipe_write_step.
  - exists (Pipe_open d p), k. unfold Pipe_open. split; [done|]. split; [simpl; by destruct (can_read d), (can_write d)|].
    split; [destruct (can_read d), (can_write d); exact Hp|]. split; [by destruct (can_read d), (can_write d)|]. split; [done|].
    intros [Hr Hw]. left. intros o' Ho'. assert (forall n, 0 <= n < 18446744073709551615 -> u64 (n + 1) <> 0) as Hu by word.
    destruct (can_read d), (can_write d); apply (would_sleep_counts o' (abs p)); simpl; auto.
  - unfold pipe_step_ok. simpl. unfold Pipe_close.
    set (p' := if can_write d then _ else _).
    assert (pipe_event p' = pipe_event p) as He by (unfold p'; by destruct (can_read d), (can_write d)).
    destruct (trigger_wakes_all k _ _ Hk Hev) as (k' & Ht & Ha & Hw). rewrite He, Ht. cbn [obind].
    exists p', k'. split; [done|]. split; [unfold p'; simpl; by destruct (can_read d), (can_write d)|].
    split; [unfold p'; destruct (can_read d), (can_write d); exact Hp|]. split; [done|]. split; [done|]. by right.
Qed.

Lemma pipe_steps ops p k ev : pipe_wf p -> sched_wf k -> events k !! pipe_event p = Some ev -> Forall op_ok ops ->
  exists p' k', run_pipes ops p k = Ret (fst (spec_pipes ops (abs p)), p', k') /\
    abs p' = snd (spec_pipes ops (abs p)) /\ pipe_wf p' /\ advance k k'.
Proof.
  intros Hp Hk Hev Hok. revert p k ev Hp Hk Hev. induction Hok as [|o ops Ho Hok IH]; intros p k ev Hp Hk Hev; simpl.
  { by exists p, k. }
  destruct (pipe_step o p k ev Hp Hk Hev Ho) as (p1 & k1 & -> & Habs & Hp1 & He1 & Ha1 & _). cbn [obind].
  destruct (adv_events _ _ Ha1 _ _ Hev) as (ev1 & Hev1 & _). rewrite <- He1 in Hev1.
  destruct (IH p1 k1 ev1 Hp1 (adv_wf _ _ Ha1 Hk) Hev1) as (p2 & k2 & -> & Habs2 & Hp2 & Ha2). cbn [obind].
  exists p2, k2. rewrite Habs in *. destruct (spec_pipe o (abs p)) as [r q1]. simpl in *.
  destruct (spec_pipes ops q1). simpl in *. split; [done|]. split; [done|]. split; [done|]. by etrans.
Qed.

(** ** Theorems *)

(** C12. A pipe is a bounded queue of bytes: any sequence of opens, closes, reads and
    writes returns what the queue of 4096 bytes returns, error codes and calls that
    have to sleep included; what was read, followed by what is still queued, is
    what was queued followed by what was accepted; and a call that lets another,
    which slept, go on wakes the threads asleep on the pipe. *)
Theorem pipe_refines_queue p k ev : pipe_wf p -> sched_wf k -> events k !! pipe_event p = Some ev ->
  (forall ops, Forall op_ok ops ->
    exists p' k' rs, run_pipes ops p k = Ret (rs, p', k') /\ spec_pipes ops (abs p) = (rs, abs p') /\
      pipe_wf p' /\ advance k k' /\
      all_by read_by ops rs ++ queue (abs p') = queue (abs p) ++ all_by accepted_by ops rs) /\
  (forall o o' r p' k', op_ok o -> counts_ok p -> run_pipe o p k = Ret (r, p', k') ->
    would_sleep o' (abs p) -> ~ would_sleep o' (abs p') -> wakes k k' (pipe_event p)).
Proof.
  intros Hp Hk Hev. split.
  - intros ops Hok. destruct (pipe_steps ops p k ev Hp Hk Hev Hok) as (p' & k' & Hr & Habs & Hp' & Ha).
    exists p', k', (fst (spec_pipes ops (abs p))). split; [done|]. split; [rewrite Habs; by destruct (spec_pipes _ _)|].
    split; [done|]. split; [done|]. apply specs_fifo; [done|]. rewrite Habs. by destruct (spec_pipes _ _).
  - intros o o' r p' k' Ho Hc Hr Hs Hn.
    destruct (pipe_step o p k ev Hp Hk Hev Ho) as (p1 & k1 & Hr1 & _ & _ & _ & _ & Hw).
    rewrite Hr in Hr1. injection Hr1 as _ <- <-. destruct (Hw Hc) as [Hw'|]; [|done]. by destruct Hn; auto.
Qed.

(** A pipe with a reader and a writer, on event 100 of the sample kernel. *)
Definition sample_pipe : Pipe := mkPipe 1 1 100 (empty_ring (replicate 4096 0)).
Definition read_end : FileDescription := mkDescription 1 0 0 O_RDONLY 1.
Definition write_end : FileDescription := mkDescription 1 0 0 O_WRONLY 1.
Definition asleep_on_pipe : kernel := sleeping sample 1 [Some 100].

Lemma sample_pipe_wf : pipe_wf sample_pipe.
Proof.
  split; [|reflexivity]. apply wf_empty; rewrite length_replicate; [lia|]. exists 4503599627370496. reflexivity.
Qed.

Lemma pipe_refines_queue_witness :
  wakes asleep_on_pipe (ret_of asleep_on_pipe (let! (_, k) := run_pipe (PWrite write_end [104; 105]) sample_pipe asleep_on_pipe in Ret k)) 100 /\
  exists p' k' rs, run_pipes [PWrite write_end [104; 105]; PRead read_end 1] sample_pipe sample = Ret (rs, p', k') /\
    rs = [Some (2, []); Some (1, [104])].
Proof.
  split.
  - assert (sched_wf asleep_on_pipe) as Hwf.
    { eapply (wait_begin_sleep sample 1 [Some 100] false); [exact sample_wf|]. vm_compute. reflexivity. }
    destruct (pipe_refines_queue sample_pipe asleep_on_pipe (mkEvent 0 1 [(1, 0)])) as [_ H];
      [exact sample_pipe_wf|exact Hwf|vm_compute; reflexivity|].
    destruct (run_pipe (PWrite write_end [104; 105]) sample_pipe asleep_on_pipe) as [[[r p'] k']| |] eqn:Hr;
      [|vm_compute in Hr; discriminate Hr..].
    apply (H (PWrite write_end [104; 105]) (PRead read_end 1) r p' k' I); [split; split; vm_compute; congruence|exact Hr|reflexivity|].
    vm_compute in Hr. injection Hr as _ <- _. vm_compute. discriminate.
  - destruct (pipe_refines_queue sample_pipe sample Event_init) as [H _];
      [exact sample_pipe_wf|exact sample_wf|vm_compute; reflexivity|].
    destruct (H [PWrite write_end [104; 105]; PRead read_end 1]) as (p' & k' & rs & Hr & Hs & _).
    { repeat constructor. simpl. lia. }
    exists p', k', rs. split; [exact Hr|]. change rs with (fst (rs, abs p')). rewrite <- Hs. vm_compute. reflexivity.
Defined.

(** ** eventfd against a counter *)

Inductive eventfd_op := ERead (d : FileDescription) (count : Z) | EWrite (d : FileDescription) (count to_add : Z).
Definition eventfd_result : Type := option (Z * option Z).

Definition run_eventfd (o : eventfd_op) (e : EventFD) (k : kernel) : outcome (eventfd_result * EventFD * kernel) :=
  match o with
  | ERead d count =>
      let! r := EventFD_read d count e k in
      Ret (match r with Some (n, v, e, k) => (Some (n, v), e, k) | None => (None, e, k) end)
  | EWrite d count to_add =>
      let! r := EventFD_write d count to_add e k in
      Ret (match r with Some (n, e, k) => (Some (n, None), e, k) | None => (None, e, k) end)
  end.
Fixpoint run_eventfds (ops : list eventfd_op) (e : EventFD) (k : kernel)
    : outcome (list eventfd_result * EventFD * kernel) :=
  match ops with
  | [] => Ret ([], e, k)
  | o :: ops =>
      let! (r, e, k) := run_eventfd o e k in
      let! (rs, e, k) := run_eventfds ops e k in
      Ret (r :: rs, e, k)
  end.

(** What a call took out and put in. *)
Definition taken (o : eventfd_op) (r : eventfd_result) : Z :=
  match o, r with ERead _ _, Some (_, Some v) => v | _, _ => 0 end.
Definition added (o : eventfd_op) (r : eventfd_result) : Z :=
  match o, r with EWrite _ _ v, Some (n, _) => if n =? 8 then v else 0 | _, _ => 0 end.
Definition total (f : eventfd_op -> eventfd_result -> Z) (ops : list eventfd_op) (rs : list eventfd_result) : Z :=
  foldr Z.add 0 (zip_with f ops rs).

Definition eventfd_ok (o : eventfd_op) : Prop :=
  match o with EWrite _ _ v => 0 <= v < 18446744073709551616 | _ => True end.

(** A call sleeps when it can do nothing: a read of 0, a write past the maximum. *)
Definition eventfd_sleeps (o : eventfd_op) (c : Z) : Prop :=
  match o with
  | ERead d count => 8 <= count /\ c = 0 /\ (d_flags d &? O_NONBLOCK) = false
  | EWrite d count v => 8 <= count /\ v <> 18446744073709551615 /\ COUNTER_MAX < c + v /\ (d_flags d &? O_NONBLOCK) = false
  end.

Ltac finish_step := split_and!; try done; try lia; auto; try (split; intros); intuition (congruence || lia).

(** One call, on a counter in bounds. *)
Lemma eventfd_step o e k ev : 0 <= counter e <= COUNTER_MAX -> sched_wf k -> events k !! eventfd_event e = Some ev ->
  eventfd_ok o ->
  exists r e' k', run_eventfd o e k = Ret (r, e', k') /\ 0 <= counter e' <= COUNTER_MAX /\
    eventfd_event e' = eventfd_event e /\ advance k k' /\
    counter e' + taken o r = counter e + added o r /\
    (r = None <-> eventfd_sleeps o (counter e)) /\
    (counter e' = counter e \/ wakes k k' (eventfd_event e)) /\
    (is_semaphore e = true -> taken o r <= 1).
Proof.
  intros Hc Hk Hev Ho. unfold COUNTER_MAX in *. destruct (trigger_drop_wakes k _ _ Hk Hev) as (k1 & n & Ht & Ha & Hw).
  destruct o as [d count|d count v]; simpl in *; [unfold EventFD_read|unfold EventFD_write, COUNTER_MAX].
  - destruct (Z.ltb_spec count 8); [|destruct (Z.eqb_spec (counter e) 0)].
    + exists (Some (- EINVAL, None)), e, k. cbn. finish_step.
    + destruct (d_flags d &? O_NONBLOCK) eqn:Hn; [exists (Some (- EWOULDBLOCK, None))|exists None]; exists e, k;
        cbn; finish_step.
    + destruct (is_semaphore e) eqn:Hsem; cbn -[u64]; rewrite Ht; cbn -[u64]; eexists _, _, k1; (split; [reflexivity|]);
        cbn -[u64]; rewrite ?(u64_small (counter e - 1)) by lia; finish_step.
  - destruct (Z.ltb_spec count 8); [|destruct (Z.eqb_spec v 18446744073709551615)].
    + exists (Some (- EINVAL, None)), e, k. cbn. finish_step.
    + exists (Some (- EINVAL, None)), e, k. cbn. finish_step.
    + rewrite (u64_small (18446744073709551614 - v)) by lia. destruct (Z.gtb_spec (counter e) (18446744073709551614 - v)).
      * destruct (d_flags d &? O_NONBLOCK) eqn:Hn; [exists (Some (- EWOULDBLOCK, None))|exists None]; exists e, k;
          cbn; finish_step.
      * cbn -[u64]. rewrite Ht. cbn -[u64]. eexists _, _, k1. split; [reflexivity|]. cbn -[u64].
        rewrite (u64_small (counter e + v)) by lia. finish_step.
Qed.

Lemma eventfd_steps ops e k ev : 0 <= counter e <= COUNTER_MAX -> sched_wf k -> events k !! eventfd_event e = Some ev ->
  Forall eventfd_ok ops ->
  exists rs e' k', run_eventfds ops e k = Ret (rs, e', k') /\ 0 <= counter e' <= COUNTER_MAX /\ advance k k' /\
    counter e' + total taken ops rs = counter e + total added ops rs.
Proof.
  intros Hc Hk Hev Hok. revert e k ev Hc Hk Hev. induction Hok as [|o ops Ho Hok IH]; intros e k ev Hc Hk Hev; simpl.
  { exists [], e, k. split_and!; done || lia. }
  destruct (eventfd_step o e k ev Hc Hk Hev Ho) as (r & e1 & k1 & -> & Hc1 & He1 & Ha1 & Hsum & _). cbn [obind].
  destruct (adv_events _ _ Ha1 _ _ Hev) as (ev1 & Hev1 & _). rewrite <- He1 in Hev1.
  destruct (IH e1 k1 ev1 Hc1 (adv_wf _ _ Ha1 Hk) Hev1) as (rs & e2 & k2 & -> & Hc2 & Ha2 & Hsum2). cbn [obind].
  exists (r :: rs), e2, k2. split; [done|]. split; [done|]. split; [by etrans|]. unfold total in *. simpl. lia.
Qed.

(** C17. The counter of an eventfd never leaves [0, 2^64 - 2] and never wraps: over any
    reads and writes, what is left plus what was taken is what there was plus what
    was added. A call sleeps exactly when it asks for what is not there, or would
    pass the maximum; each call that changes the counter wakes the threads asleep on
    it; and a semaphore gives out at most one unit at a time. *)
Theorem eventfd_counts e k ev : 0 <= counter e <= COUNTER_MAX -> sched_wf k -> events k !! eventfd_event e = Some ev ->
  (forall ops, Forall eventfd_ok ops ->
    exists rs e' k', run_eventfds ops e k = Ret (rs, e', k') /\ 0 <= counter e' <= COUNTER_MAX /\ advance k k' /\
      counter e' + total taken ops rs = counter e + total added ops rs) /\
  (forall o, eventfd_ok o ->
    exists r e' k', run_eventfd o e k = Ret (r, e', k') /\ (r = None <-> eventfd_sleeps o (counter e)) /\
      (counter e' = counter e \/ wakes k k' (eventfd_event e)) /\ (is_semaphore e = true -> taken o r <= 1)).
Proof.
  intros Hc Hk Hev. split; [intros; by eapply eventfd_steps|]. intros o Ho.
  destruct (eventfd_step o e k ev Hc Hk Hev Ho) as (r & e' & k' & Hr & _ & _ & _ & _ & Hs & Hw & Hsem).
  exists r, e', k'. done.
Qed.

Lemma eventfd_counts_witness : exists rs e' k',
  run_eventfds [EWrite write_end 8 3; ERead read_end 8] (mkEventFD 100 5 false) sample = Ret (rs, e', k') /\
  counter e' + total taken [EWrite write_end 8 3; ERead read_end 8] rs =
  5 + total added [EWrite write_end 8 3; ERead read_end 8] rs.
Proof.
  destruct (eventfd_counts (mkEventFD 100 5 false) sample Event_init) as [H _];
    [vm_compute; split; congruence|exact sample_wf|vm_compute; reflexivity|].
  destruct (H [EWrite write_end 8 3; ERead read_end 8]) as (rs & e' & k' & Hr & _ & _ & Hsum).
  { repeat constructor; simpl; lia. }
  exists rs, e', k'. split; [exact Hr|exact Hsum].
Defined.

(** ** Where they depart from their intent *)

(** [eventfd2] opens its description non-blocking whatever the flags: a read of 0 fails
    where it should sleep. *)
Lemma eventfd_always_nonblocking flags : nonblock_flags O_RDWR flags = O_NONBLOCK.
Proof.
  assert (O_RDWR .| Z.land flags O_NONBLOCK <> 0) as Hn.
  { intros H%Z.lor_eq_0_iff. by destruct H. }
  unfold nonblock_flags. by rewrite (proj2 (Z.eqb_neq _ _) Hn).
Qed.

(** A memfd that grows past its pages loses what was written. *)
Lemma memfd_growth_loses_contents :
  (let! (_, m) := MemFD_write (mkMemFD 0 0 [] 1) [104; 105] 0 in
   let! (_, m) := MemFD_write m [33] 4096 in
   MemFD_read m 2 0) = Ret (2, [0; 0]).
Proof. vm_compute. reflexivity. Qed.

(** A pipe with no writer left is not reported readable while it holds bytes. *)
Lemma pipe_poll_hides_data (p : Pipe) : writers p = 0 -> Pipe_poll p POLLIN = POLLHUP.
Proof. intros Hw. unfold Pipe_poll. by rewrite Hw. Qed.
