(* ===== verification/Poll.v ===== *)
(** * Waiting for many descriptors: poll, select (fs/vfs.cpp), epoll (userland/epoll.cpp)

    [poll] of a vnode is a virtual call. A call that waits scans the descriptors it
    was given, then sleeps on their events and that of its timer, and scans again.
    The caller's timer is the key [x] of the clocks. *)

From S2P Require Import Prelude TimeSpec CString Links Vfs RingBuffer Sched FdTable Time VfsCalls Objects.

(** ** VNode::poll *)

Definition vnode_poll (s : ipc) (p : Z) (desc : FileDescription) (events : Z) : outcome Z :=
  let! o := deref (objects s !! d_vnode desc) in
  match o with
  | OPipe q => Ret (Pipe_poll q events)
  | OEventFD e => Ret (EventFD_poll e events)
  | OSignalFD f => SignalFD_poll p f (krn s) events
  | OINotify i => Ret (INotify_poll i events)
  | OMemFD _ => Ret (POLLIN .| POLLOUT)
  | OEPoll _ => Ret (if events &? POLLIN then POLLIN else 0)
  | OOther _ poll _ => Ret (poll desc events)
  end.

(** The mask that [ppoll], [pselect6] and [epoll_pwait] install: whether a signal it
    lets through is pending. *)
Definition install_mask (k : kernel) (t : Z) (sigmask : option Z) : outcome (bool * kernel) :=
  match sigmask with
  | None => Ret (false, k)
  | Some m =>
      let! th := deref (threads k !! t) in
      let! _ := assert (negb (has_poll_saved_signal_mask th)) in
      let th := th <| has_poll_saved_signal_mask := true |> <| poll_saved_signal_mask := signal_mask th |>
                   <| signal_mask := m |> in
      Ret (has_pending_signals th, put_thread t th k)
  end.

(** The timer of a call with a timeout: whether it may block, its event, the state. *)
Definition start_timer (k : kernel) (c : clocks) (t x : Z) (timeout : option TimeSpec)
    : outcome (bool * option Z * kernel * clocks) :=
  let (e, k) := new_event k in
  let c := put_timer x (Timer_init e) c in
  match timeout with
  | None => Ret (true, None, k, c)
  | Some time =>
      if is_zero time then Ret (false, None, k, c)
      else let! c := arm c t x time None in Ret (true, Some e, k, c)
  end.

(** ** poll *)

Record pollfd := mkPollfd { pfd : Z; pevents : Z; revents : Z }.
#[export] Instance eta_pollfd : Settable pollfd := fun f => mkPollfd (pfd f) (pevents f) (revents f).

Definition skipped (f : pollfd) : bool := (pfd f <? 0) || (pevents f =? 0).

(** The events to wait for; a vnode may have none. *)
Fixpoint poll_events (s : ipc) (p : Z) (fds : list pollfd) : outcome (list (option Z)) :=
  match fds with
  | [] => Ret []
  | f :: fds =>
      let! l := if skipped f then Ret [] else
                let! o := fd_object s p (pfd f) in
                Ret (match o with None => [] | Some (_, _, o) => [object_event o] end) in
      let! es := poll_events s p fds in
      Ret (l ++ es)
  end.

(** One descriptor of a scan: the structure after, and whether it is counted. *)
Definition poll_one (s : ipc) (p : Z) (f : pollfd) : outcome (Z * pollfd) :=
  if skipped f then Ret (0, f) else
  let! o := fd_object s p (pfd f) in
  match o with
  | None => Ret (1, f <| revents := POLLNVAL |>)
  | Some (_, desc, _) =>
      let! r := vnode_poll s p desc (pevents f) in
      Ret (if r =? 0 then (0, f) else (1, f <| revents := r |>))
  end.
Fixpoint poll_scan (s : ipc) (p : Z) (fds : list pollfd) : outcome (Z * list pollfd) :=
  match fds with
  | [] => Ret (0, [])
  | f :: fds =>
      let! (n, f) := poll_one s p f in
      let! (m, fds) := poll_scan s p fds in
      Ret (n + m, f :: fds)
  end.

Definition timer_fired (c : clocks) (x : Z) : outcome bool :=
  let! tm := deref (timers c !! x) in Ret (fired tm).

(** The loop of [ppoll_impl] from a scan on, given what each wait returns and the
    state after it: the result and the structures. *)
Fixpoint ppoll_loop (s : ipc) (c : clocks) (p x : Z) (fds : list pollfd) (block : bool)
    (waits : list (Z * (ipc * clocks))) : outcome (blocking (ipc * clocks) (Z * list pollfd)) :=
  let! (ret, fds) := poll_scan s p fds in
  if negb (ret =? 0) then Ret (Done (ret, fds) (s, c))
  else if negb block then Ret (Done (0, fds) (s, c))
  else match waits with
  | [] => Ret (Sleeping (s, c))
  | (w, (s, c)) :: waits =>
      if w =? - EINTR then Ret (Done (- EINTR, fds) (s, c)) else
      let! fired := timer_fired c x in
      if fired : bool then Ret (Done (0, fds) (s, c)) else ppoll_loop s c p x fds block waits
  end.

(** The destructor of the timer, at the return. *)
Definition with_disarm {R} (x : Z) (r : blocking (ipc * clocks) R) : outcome (blocking (ipc * clocks) R) :=
  match r with
  | Done v (s, c) => let! c := disarm c x in Ret (Done v (s, c))
  | Sleeping st => Ret (Sleeping st)
  end.

(** Up to the loop: the result if it returns before; or the structures, the events it
    is to wait for, whether it may block and the state. *)
Definition ppoll_begin (s : ipc) (c : clocks) (t p x : Z) (fds : list pollfd) (timeout : option TimeSpec)
    (sigmask : option Z) : outcome (Z * ipc + list pollfd * list (option Z) * bool * ipc * clocks) :=
  if Z.of_nat (length fds) >? 1024 then Ret (inl (- EINVAL, s)) else
  let! (pending, k) := install_mask (krn s) t sigmask in
  let s := s <| krn := k |> in
  if pending : bool then Ret (inl (- EINTR, s)) else
  let fds := map (fun f => f <| revents := 0 |>) fds in
  let! events := poll_events s p fds in
  let! (block, e, k, c) := start_timer (krn s) c t x timeout in
  let events := match e with Some e => events ++ [Some e] | None => events end in
  Ret (inr (fds, events, block, s <| krn := k |>, c)).

Definition ppoll_impl (s : ipc) (c : clocks) (t p x : Z) (fds : list pollfd) (timeout : option TimeSpec)
    (sigmask : option Z) (waits : list (Z * (ipc * clocks)))
    : outcome (blocking (ipc * clocks) (Z * list pollfd)) :=
  let! b := ppoll_begin s c t p x fds timeout sigmask in
  match b with
  | inl (err, s) => Ret (Done (err, fds) (s, c))
  | inr (fds, _, block, s, c) =>
      let! r := ppoll_loop s c p x fds block waits in
      with_disarm x r
  end.

(** A timeout in milliseconds; a negative one is none. *)
Definition timeout_ms (timeout : Z) : option TimeSpec :=
  if timeout >=? 0 then Some (mkTimeSpec (timeout / 1000) (timeout mod 1000 * 1000000)) else None.

Definition syscall_poll (s : ipc) (c : clocks) (t p x : Z) (fds : list pollfd) (timeout : Z) waits :=
  ppoll_impl s c t p x fds (timeout_ms timeout) None waits.
Definition syscall_ppoll (s : ipc) (c : clocks) (t p x : Z) (fds : list pollfd) (timeout : option TimeSpec)
    (sigmask : option Z) waits :=
  ppoll_impl s c t p x fds timeout sigmask waits.

(** ** select

    An [fd_set] is the number whose bits it holds. *)

Definition fd_isset (i : Z) (set : option Z) : bool :=
  match set with Some b => Z.testbit b i | None => false end.

(** The structure of descriptor [i]. *)
Definition select_fd (readfds writefds exceptfds : option Z) (i : Z) : pollfd :=
  let events := 0 in
  let events := if fd_isset i readfds then events .| POLLIN else events in
  let events := if fd_isset i writefds then events .| POLLOUT else events in
  let events := if fd_isset i exceptfds then events .| POLLPRI else events in
  if events =? 0 then mkPollfd (-1) 0 0 else mkPollfd i events 0.

(** Its bit in a set of the result. *)
Fixpoint result_set (fds : list pollfd) (i : Z) (set : option Z) (conditions res : Z) : Z :=
  match fds with
  | [] => res
  | f :: fds =>
      let res := if fd_isset i set && (revents f &? conditions) then Z.setbit res i else res in
      result_set fds (i + 1) set conditions res
  end.
Definition select_result (fds : list pollfd) (set : option Z) (conditions : Z) : option Z :=
  match set with Some _ => Some (result_set fds 0 set conditions 0) | None => None end.

(** The result and the three sets, where they are given. *)
Definition select_sets : Type := option Z * option Z * option Z.
Definition pselect_end (readfds writefds exceptfds : option Z) (ret : Z) (fds : list pollfd) : Z * select_sets :=
  if ret <? 0 then (ret, (readfds, writefds, exceptfds))
  else (ret, (select_result fds readfds (POLLIN .| POLLERR .| POLLHUP),
              select_result fds writefds (POLLOUT .| POLLERR .| POLLHUP),
              select_result fds exceptfds POLLPRI)).

Definition pselect_impl (s : ipc) (c : clocks) (t p x nfds : Z) (readfds writefds exceptfds : option Z)
    (timeout : option TimeSpec) (sigmask : option Z) (waits : list (Z * (ipc * clocks)))
    : outcome (blocking (ipc * clocks) (Z * select_sets)) :=
  if u64 nfds >? 1024 then Ret (Done (- EINVAL, (readfds, writefds, exceptfds)) (s, c)) else
  let fds := map (select_fd readfds writefds exceptfds) (seqZ 0 nfds) in
  let! r := ppoll_impl s c t p x fds timeout sigmask waits in
  Ret (match r with
       | Done (ret, fds) st => Done (pselect_end readfds writefds exceptfds ret fds) st
       | Sleeping st => Sleeping st
       end).

(** [timeval] in seconds and microseconds. *)
Definition syscall_select (s : ipc) (c : clocks) (t p x nfds : Z) (readfds writefds exceptfds : option Z)
    (timeout : option (Z * Z)) waits :=
  pselect_impl s c t p x nfds readfds writefds exceptfds
    (match timeout with Some (sec, usec) => Some (mkTimeSpec sec (i64 (usec * 1000))) | None => None end) None waits.
Definition syscall_pselect6 (s : ipc) (c : clocks) (t p x nfds : Z) (readfds writefds exceptfds : option Z)
    (timeout : option TimeSpec) (sigmask : option Z) waits :=
  pselect_impl s c t p x nfds readfds writefds exceptfds timeout sigmask waits.

(** ** epoll *)

Definition EPOLL_CTL_ADD : Z := 1.
Definition EPOLL_CTL_DEL : Z := 2.
Definition EPOLL_CTL_MOD : Z := 3.
Definition EPOLLET : Z := 2147483648.

Definition no_registered : RegisteredEvent := mkRegistered None 0 (mkEpollEvent 0 0).
Definition EPoll_init : EPoll := mkEPoll ∅ [] [None] 0.

(** The first free slot from [i] on. *)
Fixpoint find_free_event (l : list RegisteredEvent) (i : Z) : option Z :=
  match l with
  | [] => None
  | r :: l => if decide (re_description r = None) then Some i else find_free_event l (i + 1)
  end.

Definition allocate_events_index (e : EPoll) : Z * EPoll :=
  match find_free_event (drop (Z.to_nat (first_free_event e)) (ep_events e)) (first_free_event e) with
  | Some i => (i, e <| first_free_event := i + 1 |>)
  | None =>
      let n := Z.of_nat (length (ep_events e)) in
      (n, e <| first_free_event := n |> <| ep_events ::= fun l => l ++ [no_registered] |>
            <| wait_events ::= fun l => l ++ [None] |>)
  end.

Definition epoll_create1_impl (s : ipc) (p flags : Z) : outcome (Z * ipc) :=
  if negb (flags &~ O_CLOEXEC =? 0) then Ret (- EINVAL, s) else
  let (v, s) := new_object (OEPoll EPoll_init) s in
  let! (epfd, _, s) := create_fd s p v O_RDONLY (cloexec_flag flags) in
  Ret (epfd, s).
Definition syscall_epoll_create (s : ipc) (p size : Z) : outcome (Z * ipc) :=
  if size <=? 0 then Ret (- EINVAL, s) else epoll_create1_impl s p 0.
Definition syscall_epoll_create1 (s : ipc) (p flags : Z) := epoll_create1_impl s p flags.

(** [hash(fd)] takes the number as 64 bits. *)
Definition calculate_key (fd description : Z) : Z := hash_combine (hash_u64 (u64 fd)) (hash_u64 description).

(** Writing a slot of a vector; outside it is undefined. *)
Definition vector_set {A} (i : Z) (a : A) (l : list A) : outcome (list A) :=
  if (0 <=? i) && (i <? Z.of_nat (length l)) then Ret (<[Z.to_nat i := a]> l) else Undef.
Definition vector_get {A} (i : Z) (l : list A) : outcome A :=
  if i <? 0 then Undef else deref (l !! Z.to_nat i).

(** The three operations on a key; [d] is the description it stands for and [ev] its event. *)
Definition epoll_add (e : EPoll) (key d : Z) (ev : option Z) (ue : epoll_event) : outcome (Z * EPoll) :=
  match key_to_events_index e !! key with
  | Some _ => Ret (- EEXIST, e)
  | None =>
      let (index, e) := allocate_events_index e in
      let! l := vector_set index (mkRegistered (Some d) 0 ue) (ep_events e) in
      let! w := vector_set (index + 1) ev (wait_events e) in
      Ret (0, e <| ep_events := l |> <| wait_events := w |> <| key_to_events_index ::= <[key := index]> |>)
  end.
Definition epoll_mod (e : EPoll) (key : Z) (ue : epoll_event) : outcome (Z * EPoll) :=
  match key_to_events_index e !! key with
  | None => Ret (- ENOENT, e)
  | Some index =>
      let! r := vector_get index (ep_events e) in
      let! l := vector_set index (r <| user_events := ue |>) (ep_events e) in
      Ret (0, e <| ep_events := l |>)
  end.
Definition epoll_del (e : EPoll) (key : Z) : outcome (Z * EPoll) :=
  match key_to_events_index e !! key with
  | None => Ret (- ENOENT, e)
  | Some index =>
      let! l := vector_set index no_registered (ep_events e) in
      let! w := vector_set (index + 1) None (wait_events e) in
      Ret (0, e <| ep_events := l |> <| wait_events := w |> <| key_to_events_index ::= delete key |>
                <| first_free_event ::= fun ff => if ff >? index then index else ff |>)
  end.

Definition syscall_epoll_ctl (s : ipc) (p epfd op fd : Z) (ue : epoll_event) : outcome (Z * ipc) :=
  let! o := fd_object s p epfd in
  match o with
  | None => Ret (- EBADF, s)
  | Some (_, desc, OEPoll e) =>
      let! target := fd_object s p fd in
      match target with
      | None => Ret (- EBADF, s)
      | Some (d, _, o) =>
          let key := calculate_key fd d in
          let! (ret, e) :=
            if op =? EPOLL_CTL_ADD then epoll_add e key d (object_event o) ue
            else if op =? EPOLL_CTL_MOD then epoll_mod e key ue
            else if op =? EPOLL_CTL_DEL then epoll_del e key
            else Ret (- EINVAL, e) in
          Ret (ret, put_object (d_vnode desc) (OEPoll e) s)
      end
  | Some _ => Ret (- EINVAL, s)
  end.

(** The scan of [epoll_pwait2_impl]: what it stores, and the registrations after. A
    registration whose description is gone is a dangling pointer. *)
Fixpoint epoll_scan (s : ipc) (p : Z) (l : list RegisteredEvent) (maxevents num_ready : Z)
    : outcome (list epoll_event * list RegisteredEvent) :=
  match l with
  | [] => Ret ([], [])
  | r :: l =>
      match re_description r with
      | None => let! (out, l) := epoll_scan s p l maxevents num_ready in Ret (out, r :: l)
      | Some d =>
          let! desc := deref (descriptions (krn s) !! d) in
          let! new_revents := vnode_poll s p desc (ee_events (user_events r)) in
          let revents := if ee_events (user_events r) &? EPOLLET then new_revents &~ old_revents r else new_revents in
          let r := r <| old_revents := u32 new_revents |> in
          if revents =? 0 then let! (out, l) := epoll_scan s p l maxevents num_ready in Ret (out, r :: l)
          else
            let ev := mkEpollEvent (u32 revents) (ee_data (user_events r)) in
            if num_ready + 1 >=? maxevents then Ret ([ev], r :: l)
            else let! (out, l) := epoll_scan s p l maxevents (num_ready + 1) in Ret (ev :: out, r :: l)
      end
  end.

Definition the_epoll (s : ipc) (v : Z) : outcome EPoll :=
  let! o := deref (objects s !! v) in
  match o with OEPoll e => Ret e | _ => Undef end.

(** The loop, on the epoll at [v]. *)
Fixpoint epoll_loop (s : ipc) (c : clocks) (p x v maxevents : Z) (block : bool)
    (waits : list (Z * (ipc * clocks))) : outcome (blocking (ipc * clocks) (Z * list epoll_event)) :=
  let! e := the_epoll s v in
  let! (out, l) := epoll_scan s p (ep_events e) maxevents 0 in
  let s := put_object v (OEPoll (e <| ep_events := l |>)) s in
  let num_ready := Z.of_nat (length out) in
  if num_ready >? 0 then Ret (Done (num_ready, out) (s, c))
  else if negb block then Ret (Done (0, []) (s, c))
  else match waits with
  | [] => Ret (Sleeping (s, c))
  | (w, (s, c)) :: waits =>
      if w =? - EINTR then Ret (Done (- EINTR, []) (s, c)) else
      let! fired := timer_fired c x in
      if fired : bool then Ret (Done (0, []) (s, c)) else epoll_loop s c p x v maxevents block waits
  end.

Definition epoll_pwait2_impl (s : ipc) (c : clocks) (t p x epfd maxevents : Z) (timeout : option TimeSpec)
    (sigmask : option Z) (waits : list (Z * (ipc * clocks)))
    : outcome (blocking (ipc * clocks) (Z * list epoll_event)) :=
  if maxevents <=? 0 then Ret (Done (- EINVAL, []) (s, c)) else
  let! o := fd_object s p epfd in
  match o with
  | None => Ret (Done (- EBADF, []) (s, c))
  | Some (_, desc, OEPoll e) =>
      let! (pending, k) := install_mask (krn s) t sigmask in
      let s := s <| krn := k |> in
      if pending : bool then Ret (Done (- EINTR, []) (s, c)) else
      let! (block, te, k, c) := start_timer (krn s) c t x timeout in
      let! w := vector_set 0 te (wait_events e) in
      let s := put_object (d_vnode desc) (OEPoll (e <| wait_events := w |>)) (s <| krn := k |>) in
      let! r := epoll_loop s c p x (d_vnode desc) maxevents block waits in
      with_disarm x r
  | Some _ => Ret (Done (- EINVAL, []) (s, c))
  end.

Definition syscall_epoll_wait (s : ipc) (c : clocks) (t p x epfd maxevents timeout : Z) waits :=
  epoll_pwait2_impl s c t p x epfd maxevents (timeout_ms timeout) None waits.
Definition syscall_epoll_pwait (s : ipc) (c : clocks) (t p x epfd maxevents timeout : Z) (sigmask : option Z) waits :=
  epoll_pwait2_impl s c t p x epfd maxevents (timeout_ms timeout) sigmask waits.
Definition syscall_epoll_pwait2 (s : ipc) (c : clocks) (t p x epfd maxevents : Z) (timeout : option TimeSpec)
    (sigmask : option Z) waits :=
  epoll_pwait2_impl s c t p x epfd maxevents timeout sigmask waits.
