(* ===== verification/PollProps.v ===== *)
(** * Correctness of epoll, poll and select (userland/epoll.cpp, fs/vfs.cpp)

    An epoll holds a map of registrations; [poll] and [select] report what the vnodes
    report, and sleep on the events of all of them. *)

From S2P Require Import Prelude TimeSpec Links Vfs RingBuffer Sched SchedProps FdTable Time Objects Poll.

(** ** The registrations of an epoll *)

(** Slot [i]: its description, what the user asked for and the event it waits on. *)
Definition slot (e : EPoll) (i : Z) : option (Z * epoll_event * option Z) :=
  r ← ep_events e !! Z.to_nat i;
  d ← re_description r;
  w ← wait_events e !! S (Z.to_nat i);
  Some (d, user_events r, w).
Definition registration (e : EPoll) (key : Z) : option (Z * epoll_event * option Z) :=
  key_to_events_index e !! key ≫= slot e.

(** Each key has a slot of its own, which is in use, each used slot has a key, free
    slots wait for nothing, and none is below [first_free_event]. *)
Record epoll_wf (e : EPoll) : Prop := {
  ew_length : length (wait_events e) = S (length (ep_events e));
  ew_key : forall key i, key_to_events_index e !! key = Some i -> 0 <= i /\ is_Some (slot e i);
  ew_inj : forall key key' i, key_to_events_index e !! key = Some i -> key_to_events_index e !! key' = Some i -> key = key';
  ew_slot : forall i, 0 <= i -> is_Some (slot e i) -> exists key, key_to_events_index e !! key = Some i;
  ew_free : forall i r, ep_events e !! i = Some r -> re_description r = None -> wait_events e !! S i = Some None;
  ew_first : 0 <= first_free_event e <= Z.of_nat (length (ep_events e)) /\
    forall i, 0 <= i < first_free_event e -> is_Some (slot e i)
}.

Lemma slot_is_Some e i : epoll_wf e -> 0 <= i ->
  is_Some (slot e i) <-> exists r d, ep_events e !! Z.to_nat i = Some r /\ re_description r = Some d.
Proof.
  intros Hwf Hi. unfold slot. split.
  - intros [x Hx]. apply bind_Some in Hx as (r & Hr & Hx). apply bind_Some in Hx as (d & Hd & _). eauto.
  - intros (r & d & Hr & Hd). rewrite Hr. simpl. rewrite Hd. simpl.
    destruct (lookup_lt_is_Some_2 (wait_events e) (S (Z.to_nat i))) as [w ->]; [|eauto].
    rewrite (ew_length _ Hwf). apply lookup_lt_Some in Hr. lia.
Qed.

Lemma vector_set_Ret {A} i (a : A) l : 0 <= i < Z.of_nat (length l) -> vector_set i a l = Ret (<[Z.to_nat i := a]> l).
Proof.
  intros. unfold vector_set. rewrite (proj2 (Z.leb_le _ _)), (proj2 (Z.ltb_lt _ _)) by lia. done.
Qed.

(** Slots after a write of slot [i]. *)
Lemma slot_write e e' i r w : 0 <= i < Z.of_nat (length (ep_events e)) ->
  length (wait_events e) = S (length (ep_events e)) ->
  ep_events e' = <[Z.to_nat i := r]> (ep_events e) -> wait_events e' = <[S (Z.to_nat i) := w]> (wait_events e) ->
  forall j, 0 <= j -> slot e' j =
    if decide (j = i) then d ← re_description r; Some (d, user_events r, w) else slot e j.
Proof.
  intros Hi Hl He Hw j Hj. unfold slot. rewrite He, Hw. case_decide as Hji.
  - subst. rewrite !list_lookup_insert_eq by lia. done.
  - rewrite !list_lookup_insert_ne by lia. done.
Qed.

(** The free slot an epoll gives: it is the first, or a new one at the end. *)
Lemma find_free_event_spec l i j : find_free_event l i = Some j ->
  exists k r, j = i + Z.of_nat k /\ l !! k = Some r /\ re_description r = None /\
    forall k' r', (k' < k)%nat -> l !! k' = Some r' -> re_description r' <> None.
Proof.
  revert i. induction l as [|r l IH]; intros i; simpl; [done|]. case_decide as Hr.
  - intros [= <-]. exists 0%nat, r. split; [lia|]. split; [done|]. split; [done|]. lia.
  - intros (k & r' & -> & Hk & Hd & Hmin)%IH. exists (S k), r'. split; [lia|]. split; [done|]. split; [done|].
    intros [|k'] r2 Hlt Hl; simpl in Hl; [by injection Hl as <-|]. eapply Hmin; [|done]. lia.
Qed.
Lemma find_free_event_None l i : find_free_event l i = None -> forall k r, l !! k = Some r -> re_description r <> None.
Proof.
  revert i. induction l as [|r l IH]; intros i; simpl; [done|]. case_decide; [done|]. intros Hn [|k] r' Hl; simpl in Hl.
  - by injection Hl as <-.
  - by eapply IH.
Qed.

(** What [allocate_events_index] leaves: the same slots, the one it gives free. *)
Lemma allocate_spec e i e' : epoll_wf e -> allocate_events_index e = (i, e') ->
  0 <= i < Z.of_nat (length (ep_events e')) /\ slot e i = None /\
  length (wait_events e') = S (length (ep_events e')) /\ key_to_events_index e' = key_to_events_index e /\
  (forall j, 0 <= j -> slot e' j = slot e j) /\
  (forall j r, ep_events e' !! j = Some r -> re_description r = None -> wait_events e' !! S j = Some None) /\
  first_free_event e' <= i + 1 /\ 0 <= first_free_event e' <= Z.of_nat (length (ep_events e')) /\
  (forall j, 0 <= j < i -> is_Some (slot e j)).
Proof.
  intros Hwf. pose proof (ew_first _ Hwf) as [Hff Hused]. unfold allocate_events_index.
  destruct (find_free_event _ _) as [j|] eqn:Hf; intros [= <- <-].
  - apply find_free_event_spec in Hf as (k & r & -> & Hk & Hd & Hmin). rewrite lookup_drop in Hk.
    pose proof (lookup_lt_Some _ _ _ Hk) as Hlt. simpl. split; [lia|]. split.
    { destruct (slot e _) as [x|] eqn:Hs; [|done]. assert (is_Some (slot e (first_free_event e + Z.of_nat k))) as Hs' by eauto.
      apply slot_is_Some in Hs' as (r' & d & Hr' & Hd'); [|done|lia].
      replace (Z.to_nat (first_free_event e + Z.of_nat k)) with (Z.to_nat (first_free_event e) + k)%nat in Hr' by lia. congruence. }
    split; [apply Hwf|]. split; [done|]. split; [done|]. split; [apply Hwf|]. split; [lia|]. split; [lia|].
    intros j Hj. destruct (decide (j < first_free_event e)); [apply Hused; lia|].
    apply slot_is_Some; [done|lia|].
    destruct (lookup_lt_is_Some_2 (ep_events e) (Z.to_nat j)) as [r' Hr']; [lia|].
    assert (re_description r' <> None) as Hn.
    { apply (Hmin (Z.to_nat j - Z.to_nat (first_free_event e))%nat r'); [lia|]. rewrite lookup_drop.
      by replace (_ + _)%nat with (Z.to_nat j) by lia. }
    destruct (re_description r') as [d|] eqn:Hd'; [|done]. eauto.
  - pose proof (find_free_event_None _ _ Hf) as Hnone. simpl. rewrite !length_app. simpl.
    assert (slot e (Z.of_nat (length (ep_events e))) = None) as Hend.
    { unfold slot. rewrite Nat2Z.id, (lookup_ge_None_2 (ep_events e)); [done|lia]. }
    split; [lia|]. split; [done|]. split; [rewrite (ew_length _ Hwf); lia|]. split; [done|]. split; [|split; [|split; [lia|split; [lia|]]]].
    + intros j Hj. destruct (decide (j < Z.of_nat (length (ep_events e)))) as [Hjl|Hjl].
      * unfold slot. simpl. rewrite !lookup_app_l by (rewrite ?(ew_length _ Hwf); lia). done.
      * transitivity (@None (Z * epoll_event * option Z)).
        { unfold slot. simpl. destruct (decide (Z.to_nat j = length (ep_events e))) as [->|].
          - rewrite (lookup_app_r (ep_events e)) by lia. rewrite Nat.sub_diag. done.
          - rewrite (lookup_ge_None_2 (ep_events e ++ [no_registered])); [done|]. rewrite length_app. simpl. lia. }
        unfold slot. rewrite (lookup_ge_None_2 (ep_events e)); [done|lia].
    + intros j r Hr Hd. destruct (decide (j < length (ep_events e))%nat) as [Hjl|Hjl].
      * rewrite lookup_app_l in Hr by done. rewrite lookup_app_l by (rewrite (ew_length _ Hwf); lia). by eapply (ew_free _ Hwf).
      * apply lookup_lt_Some in Hr. rewrite length_app in Hr. simpl in Hr.
        rewrite lookup_app_r by (rewrite (ew_length _ Hwf); lia). rewrite (ew_length _ Hwf).
        by replace (S j - S (length (ep_events e)))%nat with 0%nat by lia.
    + intros j Hj. destruct (decide (j < first_free_event e)); [apply Hused; lia|]. apply slot_is_Some; [done|lia|].
      destruct (lookup_lt_is_Some_2 (ep_events e) (Z.to_nat j)) as [r' Hr']; [lia|].
      assert (re_description r' <> None) as Hn.
      { apply (Hnone (Z.to_nat j - Z.to_nat (first_free_event e))%nat r'). rewrite lookup_drop.
        by replace (_ + _)%nat with (Z.to_nat j) by lia. }
      destruct (re_description r') as [d|] eqn:Hd'; [|done]. eauto.
Qed.

(** ** The three operations *)

Lemma registration_some e key i : epoll_wf e -> key_to_events_index e !! key = Some i -> is_Some (registration e key).
Proof. intros Hwf Hk. unfold registration. rewrite Hk. by apply (ew_key _ Hwf) in Hk as [_ ?]. Qed.

Lemma epoll_add_ok e key d ev ue : epoll_wf e -> registration e key = None ->
  exists e', epoll_add e key d ev ue = Ret (0, e') /\ epoll_wf e' /\
    forall key', registration e' key' = if decide (key' = key) then Some (d, ue, ev) else registration e key'.
Proof.
  intros Hwf Hn. unfold epoll_add. destruct (key_to_events_index e !! key) as [i|] eqn:Hk.
  { destruct (registration_some _ _ _ Hwf Hk). congruence. }
  destruct (allocate_events_index e) as [i e1] eqn:Ha.
  destruct (allocate_spec e i e1 Hwf Ha) as (Hi & Hfree & Hlen & Hkeys & Hslots & Hnone & Hff & Hff' & Hlow).
  rewrite vector_set_Ret by done. cbn [obind]. rewrite vector_set_Ret by lia. cbn [obind].
  replace (Z.to_nat (i + 1)) with (S (Z.to_nat i)) by lia.
  set (r := mkRegistered (Some d) 0 ue). eexists. split; [reflexivity|]. set (e' := e1 <| ep_events := _ |> <| wait_events := _ |> <| key_to_events_index ::= _ |>).
  assert (Hs : forall j, 0 <= j -> slot e' j = if decide (j = i) then Some (d, ue, ev) else slot e j).
  { intros j Hj. rewrite (slot_write e1 e' i r ev) by done. case_decide; [done|]. by apply Hslots. }
  assert (Hki : forall key' j, key_to_events_index e !! key' = Some j -> j <> i).
  { intros key' j Hkj ->. apply (ew_key _ Hwf) in Hkj as [_ Hkj]. rewrite Hfree in Hkj. by destruct Hkj. }
  assert (Hk' : key_to_events_index e' = <[key := i]> (key_to_events_index e)) by (simpl; by rewrite Hkeys).
  split; [split|].
  - simpl. by rewrite !length_insert.
  - intros key' j. rewrite Hk'. intros [(<- & <-)|(? & Hkj)]%lookup_insert_Some.
    + split; [lia|]. rewrite Hs, decide_True by (done || lia). eauto.
    + pose proof (ew_key _ Hwf _ _ Hkj) as [? ?]. split; [done|]. rewrite Hs, decide_False by (done || by eapply Hki). done.
  - intros k1 k2 j. rewrite Hk', !lookup_insert_Some. intros [(<- & <-)|(? & H1)] [(<- & H2)|(? & H2)]; [done|..].
    + by destruct (Hki _ _ H2).
    + subst. by destruct (Hki _ _ H1).
    + by eapply (ew_inj _ Hwf).
  - intros j Hj. rewrite Hs, Hk' by done. case_decide as Hji.
    + intros _. exists key. subst. by rewrite lookup_insert_eq.
    + intros (k1 & Hk1)%(ew_slot _ Hwf); [|done]. exists k1. rewrite lookup_insert_ne; [done|]. congruence.
  - intros j r'. simpl. intros Hr Hd. destruct (decide (Z.to_nat i = j)) as [<-|Hji].
    + rewrite list_lookup_insert_eq in Hr by lia. by injection Hr as <-.
    + rewrite list_lookup_insert_ne in Hr by done. rewrite list_lookup_insert_ne by lia. by apply (Hnone _ r').
  - simpl. rewrite length_insert. split; [lia|]. intros j Hj. rewrite Hs by lia. case_decide; [eauto|]. apply Hlow. lia.
  - intros key'. unfold registration. rewrite Hk'. case_decide as Hkk.
    + subst. rewrite lookup_insert_eq. simpl. rewrite Hs, decide_True by (done || lia). done.
    + rewrite lookup_insert_ne by done. destruct (_ !! key') as [j|] eqn:Hkj; [|done]. simpl.
      rewrite Hs, decide_False; [done|by eapply Hki|]. by apply (ew_key _ Hwf) in Hkj as [? _].
Qed.

Lemma epoll_del_ok e key i : epoll_wf e -> key_to_events_index e !! key = Some i ->
  exists e', epoll_del e key = Ret (0, e') /\ epoll_wf e' /\
    forall key', registration e' key' = if decide (key' = key) then None else registration e key'.
Proof.
  intros Hwf Hk. unfold epoll_del. rewrite Hk. pose proof (ew_key _ Hwf _ _ Hk) as [Hi Hsi].
  apply slot_is_Some in Hsi as (r & d & Hr & Hd); [|done..]. pose proof (lookup_lt_Some _ _ _ Hr) as Hlt.
  pose proof (ew_length _ Hwf) as Hlen. pose proof (ew_first _ Hwf) as [Hff Hused].
  rewrite vector_set_Ret by lia. cbn [obind]. rewrite vector_set_Ret by lia. cbn [obind].
  replace (Z.to_nat (i + 1)) with (S (Z.to_nat i)) by lia.
  eexists. split; [reflexivity|]. set (e' := e <| ep_events := _ |> <| wait_events := _ |> <| key_to_events_index ::= _ |> <| first_free_event ::= _ |>).
  assert (Hs : forall j, 0 <= j -> slot e' j = if decide (j = i) then None else slot e j).
  { intros j Hj. by rewrite (slot_write e e' i no_registered None) by (done || lia). }
  assert (Hki : forall key' j, key' <> key -> key_to_events_index e !! key' = Some j -> j <> i).
  { intros key' j Hne Hkj ->. apply Hne. by eapply (ew_inj _ Hwf). }
  split; [split|].
  - simpl. by rewrite !length_insert.
  - intros key' j. simpl. rewrite lookup_delete_Some. intros [Hne Hkj]. pose proof (ew_key _ Hwf _ _ Hkj) as [? ?].
    split; [done|]. rewrite Hs, decide_False; [done|by eapply Hki|done].
  - intros k1 k2 j. simpl. rewrite !lookup_delete_Some. intros [? ?] [? ?]. by eapply (ew_inj _ Hwf).
  - intros j Hj. rewrite Hs by done. case_decide; [by intros [? ?]|]. intros (k1 & Hk1)%(ew_slot _ Hwf); [|done].
    exists k1. simpl. rewrite lookup_delete_ne; [done|]. congruence.
  - intros j r'. simpl. intros Hr' Hd'. destruct (decide (Z.to_nat i = j)) as [<-|Hji].
    + rewrite list_lookup_insert_eq by lia. done.
    + rewrite list_lookup_insert_ne in Hr' by done. rewrite list_lookup_insert_ne by lia. by apply (ew_free _ Hwf _ r').
  - simpl. rewrite length_insert. destruct (Z.gtb_spec (first_free_event e) i); (split; [lia|]); intros j Hj;
      (rewrite Hs, decide_False by lia; apply Hused; lia).
  - intros key'. unfold registration. simpl. case_decide as Hkk.
    + subst. by rewrite lookup_delete_eq.
    + rewrite lookup_delete_ne by done. destruct (_ !! key') as [j|] eqn:Hkj; [|done]. simpl.
      rewrite Hs, decide_False; [done|by eapply Hki|]. by apply (ew_key _ Hwf) in Hkj as [? _].
Qed.

Lemma epoll_mod_ok e key i ue : epoll_wf e -> key_to_events_index e !! key = Some i ->
  exists e', epoll_mod e key ue = Ret (0, e') /\ epoll_wf e' /\
    forall key', registration e' key' = if decide (key' = key)
      then (fun '(d, _, ev) => (d, ue, ev)) <$> registration e key else registration e key'.
Proof.
  intros Hwf Hk. unfold epoll_mod. rewrite Hk. pose proof (ew_key _ Hwf _ _ Hk) as [Hi Hsi].
  pose proof Hsi as [x Hx]. apply slot_is_Some in Hsi as (r & d & Hr & Hd); [|done..]. pose proof (lookup_lt_Some _ _ _ Hr) as Hlt.
  pose proof (ew_length _ Hwf) as Hlen. pose proof (ew_first _ Hwf) as [Hff Hused].
  unfold vector_get. rewrite (proj2 (Z.ltb_ge _ _)), Hr by lia. cbn [deref obind]. rewrite vector_set_Ret by lia. cbn [obind].
  destruct (lookup_lt_is_Some_2 (wait_events e) (S (Z.to_nat i))) as [w Hw]; [lia|].
  eexists. split; [reflexivity|]. set (e' := e <| ep_events := _ |>).
  assert (Hs : forall j, 0 <= j -> slot e' j = if decide (j = i) then Some (d, ue, w) else slot e j).
  { intros j Hj. rewrite (slot_write e e' i (r <| user_events := ue |>) w); try done; [|lia|by rewrite list_insert_id].
    case_decide; [|done]. simpl. by rewrite Hd. }
  assert (Hsi : slot e i = Some (d, user_events r, w)).
  { unfold slot. rewrite Hr. simpl. rewrite Hd. simpl. by rewrite Hw. }
  assert (Hss : forall j, 0 <= j -> is_Some (slot e' j) <-> is_Some (slot e j)).
  { intros j Hj. rewrite Hs by done. case_decide as Hji; [|done]. subst. rewrite Hsi. split; eauto. }
  split; [split|].
  - simpl. by rewrite length_insert.
  - intros key' j Hkj. pose proof (ew_key _ Hwf _ _ Hkj) as [? ?]. split; [done|]. by apply Hss.
  - apply Hwf.
  - intros j Hj. rewrite Hss by done. by apply (ew_slot _ Hwf).
  - intros j r'. simpl. intros Hr' Hd'. destruct (decide (Z.to_nat i = j)) as [<-|Hji].
    + rewrite list_lookup_insert_eq in Hr' by lia. injection Hr' as <-. simpl in Hd'. congruence.
    + rewrite list_lookup_insert_ne in Hr' by done. by apply (ew_free _ Hwf _ r').
  - simpl. rewrite length_insert. split; [done|]. intros j Hj. apply Hss; [lia|]. by apply Hused.
  - intros key'. unfold registration. change (key_to_events_index e') with (key_to_events_index e). case_decide as Hkk.
    + subst. rewrite Hk. simpl. rewrite Hs, decide_True, Hsi by done. done.
    + destruct (_ !! key') as [j|] eqn:Hkj; [|done]. simpl. rewrite Hs, decide_False; [done| |by apply (ew_key _ Hwf) in Hkj as [? _]].
      intros ->. apply Hkk. by eapply (ew_inj _ Hwf).
Qed.

(** A scan changes nothing but [old_revents]. *)
Lemma epoll_scan_keeps s p l maxevents n out l' : epoll_scan s p l maxevents n = Ret (out, l') ->
  (fun r => (re_description r, user_events r)) <$> l' = (fun r => (re_description r, user_events r)) <$> l.
Proof.
  revert n out l'. induction l as [|r l IH]; intros n out l'; cbn [epoll_scan]; [by intros [= <- <-]|].
  destruct (re_description r) as [d|] eqn:Hd; intros H; inv_ret.
  - case_match; inv_ret; [|case_match; inv_ret]; try (destruct a1 as [out' l2]; inv_ret); rewrite ?fmap_cons;
      simpl; f_equal; eauto.
  - destruct a as [out' l2]. inv_ret. rewrite !fmap_cons. f_equal. eauto.
Qed.

Lemma epoll_same_slots e l : (fun r => (re_description r, user_events r)) <$> l =
    (fun r => (re_description r, user_events r)) <$> ep_events e ->
  (forall i, slot (e <| ep_events := l |>) i = slot e i) /\ length l = length (ep_events e) /\
  forall i r, l !! i = Some r -> exists r', ep_events e !! i = Some r' /\ re_description r' = re_description r.
Proof.
  intros Hl. assert (Hi : forall i, (fun r => (re_description r, user_events r)) <$> l !! i =
    (fun r => (re_description r, user_events r)) <$> ep_events e !! i) by (intros i; by rewrite <- !list_lookup_fmap, Hl).
  split; [|split].
  - intros i. unfold slot. simpl. specialize (Hi (Z.to_nat i)).
    destruct (l !! _) as [r|], (ep_events e !! _) as [r'|]; simpl in *; try done. injection Hi as -> ->. done.
  - by rewrite <- (length_fmap (fun r => (re_description r, user_events r)) l), Hl, length_fmap.
  - intros i r Hr. specialize (Hi i). rewrite Hr in Hi. destruct (ep_events e !! i) as [r'|]; simplify_eq/=. eauto.
Qed.

(** C15. An epoll is a map from keys to registrations (description, events asked for and
    event waited on): [EPOLL_CTL_ADD] adds one or fails with EEXIST, [EPOLL_CTL_MOD]
    replaces the events asked for and [EPOLL_CTL_DEL] removes one, or fail with
    ENOENT, and a wait's scan changes none. The slots stay well formed: a slot per
    key, a key per used slot, no free slot below [first_free_event], and nothing
    waited on for a free slot. *)
Theorem epoll_registrations :
  epoll_wf EPoll_init /\
  forall e key, epoll_wf e ->
    (forall d ev ue, match registration e key with
       | Some _ => epoll_add e key d ev ue = Ret (- EEXIST, e)
       | None => exists e', epoll_add e key d ev ue = Ret (0, e') /\ epoll_wf e' /\
           forall key', registration e' key' = if decide (key' = key) then Some (d, ue, ev) else registration e key'
       end) /\
    (forall ue, match registration e key with
       | Some (d, _, ev) => exists e', epoll_mod e key ue = Ret (0, e') /\ epoll_wf e' /\
           forall key', registration e' key' = if decide (key' = key) then Some (d, ue, ev) else registration e key'
       | None => epoll_mod e key ue = Ret (- ENOENT, e)
       end) /\
    match registration e key with
    | Some _ => exists e', epoll_del e key = Ret (0, e') /\ epoll_wf e' /\
        forall key', registration e' key' = if decide (key' = key) then None else registration e key'
    | None => epoll_del e key = Ret (- ENOENT, e)
    end /\
    (forall s p maxevents out l, epoll_scan s p (ep_events e) maxevents 0 = Ret (out, l) ->
       epoll_wf (e <| ep_events := l |>) /\ forall key', registration (e <| ep_events := l |>) key' = registration e key').
Proof.
  split.
  { split; try done; [|split; [done|simpl; lia]]. intros i Hi [x Hx]. unfold slot in Hx. simpl in Hx. discriminate Hx. }
  intros e key Hwf.
  assert (Hreg : registration e key = None -> key_to_events_index e !! key = None).
  { intros Hn. destruct (_ !! key) as [i|] eqn:Hk; [|done]. destruct (registration_some _ _ _ Hwf Hk). congruence. }
  split; [|split; [|split]].
  - intros d ev ue. destruct (registration e key) eqn:Hr; [|by apply epoll_add_ok]. unfold epoll_add.
    destruct (_ !! key) as [i|] eqn:Hk; [done|]. unfold registration in Hr. by rewrite Hk in Hr.
  - intros ue. destruct (registration e key) as [[[d ue'] ev]|] eqn:Hr; [|unfold epoll_mod; by rewrite Hreg].
    destruct (_ !! key) as [i|] eqn:Hk in Hreg; [|unfold registration in Hr; by rewrite Hk in Hr].
    destruct (epoll_mod_ok e key i ue Hwf Hk) as (e' & ? & ? & He'). rewrite Hr in He'. eauto.
  - destruct (registration e key) eqn:Hr; [|unfold epoll_del; by rewrite Hreg].
    destruct (_ !! key) as [i|] eqn:Hk in Hreg; [|unfold registration in Hr; by rewrite Hk in Hr].
    by apply (epoll_del_ok e key i).
  - intros s p maxevents out l Hl%epoll_scan_keeps. destruct (epoll_same_slots e l Hl) as (Hs & Hlen & Hd). split.
    + split; simpl; try rewrite Hlen; try apply Hwf.
      * intros k1 i. rewrite Hs. apply (ew_key _ Hwf).
      * intros i. rewrite Hs. apply (ew_slot _ Hwf).
      * intros i r Hr Hn. destruct (Hd _ _ Hr) as (r' & Hr' & Heq). apply (ew_free _ Hwf _ r'); [done|congruence].
      * split; [apply (ew_first _ Hwf)|]. intros i. rewrite Hs. apply (ew_first _ Hwf).
    + intros key'. unfold registration. simpl. destruct (_ !! key'); simpl; [apply Hs|done].
Qed.

(** A registration that outlives its description: closing the last descriptor of a
    pipe end leaves the pointer in the epoll, and the next wait follows it. *)
Lemma epoll_keeps_closed_description s p d maxevents : descriptions (krn s) !! d = None ->
  epoll_scan s p [mkRegistered (Some d) 0 (mkEpollEvent POLLIN 0)] maxevents 0 = Undef.
Proof. intros Hd. cbn [epoll_scan re_description]. by rewrite Hd. Qed.

(** ** poll and select *)

(** What [poll] reports of one structure, on the state it scans. *)
Definition poll_report (s : ipc) (p : Z) (f : pollfd) (r : Z) : Prop :=
  if skipped f then r = 0 else
  exists o, fd_object s p (pfd f) = Ret o /\
    match o with
    | None => r = POLLNVAL
    | Some (_, desc, _) => vnode_poll s p desc (pevents f) = Ret r
    end.

Lemma poll_scan_reports s p fds n fds' : Forall (fun f => revents f = 0) fds -> poll_scan s p fds = Ret (n, fds') ->
  Forall2 (fun f f' => pfd f' = pfd f /\ pevents f' = pevents f /\ poll_report s p f (revents f')) fds fds' /\
  n = Z.of_nat (length (filter (fun f => revents f <> 0) fds')).
Proof.
  intros H0. revert n fds'. induction H0 as [|f fds Hf H0 IH]; intros n fds'; cbn [poll_scan]; intros H; inv_ret.
  { split; [constructor|done]. }
  destruct a as [m f1]. inv_ret. destruct a as [m' fds1]. inv_ret. destruct (IH _ _ E0) as [Hrep ->].
  assert (pfd f1 = pfd f /\ pevents f1 = pevents f /\ poll_report s p f (revents f1) /\
    m = if decide (revents f1 <> 0) then 1 else 0) as (? & ? & ? & ->).
  { unfold poll_one, poll_report in *. destruct (skipped f).
    - inv_ret. rewrite decide_False by (intros ?; done). done.
    - inv_ret. destruct a as [[[d desc] o]|]; inv_ret.
      + destruct (Z.eqb_spec a 0) as [->|Ha]; inv_ret; injection E as <- <-; rewrite ?Hf; simpl.
        * split_and!; try done. eexists. split; [eassumption|done].
        * rewrite decide_True by done. split_and!; try done. eexists. split; [eassumption|done].
      + split; [done|]. split; [done|]. split; [by eexists|]. by rewrite decide_True. }
  split; [by constructor|]. rewrite filter_cons. by case_decide; simpl; lia.
Qed.

Definition reports (s : ipc) (p : Z) (fds fds' : list pollfd) : Prop :=
  Forall2 (fun f f' => pfd f' = pfd f /\ pevents f' = pevents f /\ poll_report s p f (revents f')) fds fds'.
Definition unreported (fds : list pollfd) : Prop := Forall (fun f => revents f = 0) fds.
Definition num_reported (fds : list pollfd) : Z := Z.of_nat (length (filter (fun f => revents f <> 0) fds)).

Lemma num_reported_0 fds : num_reported fds = 0 -> unreported fds.
Proof.
  unfold num_reported, unreported. induction fds as [|f fds IH]; [constructor|]. rewrite filter_cons.
  case_decide as Hf; simpl; [lia|]. intros. constructor; [lia|by apply IH].
Qed.

(** Nothing to report leaves the structures as they are. *)
Lemma reports_none s p fds fds' : unreported fds -> reports s p fds fds' -> unreported fds' -> fds' = fds.
Proof.
  intros Hu Hr Hu'. revert Hu Hu'. induction Hr as [|f f' fds fds' (? & ? & _) Hr IH]; intros Hu Hu'; [done|].
  apply Forall_cons in Hu as [? ?], Hu' as [? ?]. rewrite IH by done. destruct f, f'; simpl in *. congruence.
Qed.

Lemma ppoll_loop_reports waits s c p x fds block r : unreported fds -> ppoll_loop s c p x fds block waits = Ret r ->
  match r with
  | Done (ret, fds') (s', c') =>
      (0 < ret /\ ret = num_reported fds' /\ reports s' p fds fds') \/
      (ret = 0 /\ fds' = fds /\ (timer_fired c' x = Ret true \/ (block = false /\ reports s' p fds fds))) \/
      (ret = - EINTR /\ fds' = fds)
  | Sleeping (s', c') => block = true /\ reports s' p fds fds
  end.
Proof.
  revert s c. induction waits as [|[w [s1 c1]] waits IH]; intros s c H0; cbn [ppoll_loop]; intros Hl; inv_ret;
    destruct a as [n fds']; destruct (poll_scan_reports _ _ _ _ _ H0 E) as [Hrep Hn]; fold (num_reported fds') in Hn.
  1,2: destruct (Z.eqb_spec n 0) as [Hn0|Hn0]; cbn [negb] in Hl;
    [|inv_ret; left; split; [unfold num_reported in *; lia|done]].
  1,2: assert (unreported fds') as H0' by (apply num_reported_0; lia).
  1,2: assert (fds' = fds) as -> by (by eapply reports_none).
  1,2: destruct block; cbn [negb] in Hl; [|inv_ret; right; left; split_and!; auto].
  - by inv_ret.
  - destruct (Z.eqb_spec w (- EINTR)); [inv_ret; auto|]. inv_ret. destruct a; [|by apply (IH s1 c1)]. inv_ret. right; left. auto.
Qed.

Lemma poll_events_all s p fds evs f d desc o : poll_events s p fds = Ret evs -> f ∈ fds -> skipped f = false ->
  fd_object s p (pfd f) = Ret (Some (d, desc, o)) -> object_event o ∈ evs.
Proof.
  revert evs. induction fds as [|g fds IH]; intros evs; cbn [poll_events]; [by intros _ ?%not_elem_of_nil|].
  intros H [->|Hf]%elem_of_cons Hs Ho.
  - rewrite Hs, Ho in H. cbn [obind] in H. inv_ret. left.
  - inv_ret. apply elem_of_app. right. by apply (IH a0).
Qed.

(** The mask is the thread's: descriptors are as before. *)
Lemma install_mask_fd_object s p fd t sigmask b k : install_mask (krn s) t sigmask = Ret (b, k) ->
  fd_object (s <| krn := k |>) p fd = fd_object s p fd.
Proof.
  unfold install_mask. destruct sigmask; intros Hm; inv_ret; done.
Qed.

Lemma result_set_bits fds i set cond res j : 0 <= i ->
  Z.testbit (result_set fds i set cond res) j =
  (Z.testbit res j || (if decide (i <= j) then match fds !! Z.to_nat (j - i) with
     | Some f => fd_isset j set && (revents f &? cond) | None => false end else false))%bool.
Proof.
  revert i res. induction fds as [|f fds IH]; intros i res Hi; cbn [result_set].
  { case_decide; by rewrite ?lookup_nil, orb_false_r. }
  rewrite IH by lia. destruct (decide (i = j)) as [->|Hne].
  - rewrite decide_False by lia. rewrite decide_True by lia. rewrite Z.sub_diag. simpl.
    destruct (_ && _)%bool; rewrite ?Z.setbit_eq, ?orb_false_r by lia; [by rewrite orb_true_r|done].
  - replace (Z.testbit (if (fd_isset i set && (revents f &? cond))%bool then Z.setbit res i else res) j) with (Z.testbit res j).
    2: { destruct (_ && _)%bool; [|done]. symmetry. by apply Z.setbit_neq. }
    f_equal. destruct (decide (i <= j)) as [Hle|Hle].
    + rewrite decide_True by lia. replace (Z.to_nat (j - i)) with (S (Z.to_nat (j - (i + 1)))) by lia. done.
    + by rewrite decide_False by lia.
Qed.

(** C14. [poll] tells the truth and misses nothing. Before it may sleep it has the event of
    every descriptor it polls among those it waits for. A positive result is the number
    of descriptors with something to report, each report being what its vnode reports
    in the state the call returns in (POLLNVAL for a number that is none); 0 means that
    the timer fired, or that the call may not block and there was nothing to report;
    and while it sleeps there was nothing to report at its last look. The sets that
    [select] returns hold the descriptors asked for whose report has one of their
    conditions, and no other. *)
Theorem poll_reports s c t p x fds timeout sigmask fds1 evs block s1 c1 :
  ppoll_begin s c t p x fds timeout sigmask = Ret (inr (fds1, evs, block, s1, c1)) ->
  (forall f d desc o, f ∈ fds -> skipped f = false -> fd_object s p (pfd f) = Ret (Some (d, desc, o)) ->
     objects s1 = objects s /\ object_event o ∈ evs) /\
  unreported fds1 /\
  (forall waits r, ppoll_loop s1 c1 p x fds1 block waits = Ret r ->
    match r with
    | Done (ret, fds') (s', c') =>
        (0 < ret /\ ret = num_reported fds' /\ reports s' p fds1 fds') \/
        (ret = 0 /\ fds' = fds1 /\ (timer_fired c' x = Ret true \/ (block = false /\ reports s' p fds1 fds1))) \/
        (ret = - EINTR /\ fds' = fds1)
    | Sleeping (s', c') => block = true /\ reports s' p fds1 fds1
    end) /\
  (forall fds' set cond j, 0 <= j ->
    fd_isset j (select_result fds' set cond) =
    match fds' !! Z.to_nat j with Some f => fd_isset j set && (revents f &? cond) | None => false end).
Proof.
  intros Hb. unfold ppoll_begin in Hb. destruct (_ >? 1024); [done|]. inv_ret. destruct a as [pending k].
  destruct pending; [done|]. inv_ret. destruct a0 as [[[blk e] k2] c2]. inv_ret.
  assert (unreported (map (fun f => f <| revents := 0 |>) fds)) as H0.
  { apply Forall_forall. by intros f (g & -> & _)%list_elem_of_fmap. }
  split; [|split; [done|split]].
  - intros f d desc o Hf Hs Ho. split; [done|].
    assert (object_event o ∈ a) as Hin.
    { eapply (poll_events_all _ p _ a (f <| revents := 0 |>)); [eassumption| |exact Hs|].
      - apply list_elem_of_fmap. eauto.
      - rewrite <- Ho. by eapply install_mask_fd_object. }
    destruct e; [|done]. apply elem_of_app. by left.
  - intros waits r. by apply ppoll_loop_reports.
  - intros fds' set cond j Hj. unfold select_result. destruct set as [b|]; simpl.
    + rewrite result_set_bits by lia. rewrite Z.bits_0, decide_True by done. by rewrite Z.sub_0_r.
    + by destruct (fds' !! _).
Qed.

(** Process 1 with the read end of a pipe as descriptor 0, and the clocks. *)
Definition poll_kernel : kernel :=
  put_process 1 (sample_process 1 1 [1] 20 <| file_descriptors := Vector.mkVector [mkFd (Some 50) 0] 1 |>)
    (sample <| descriptions := {[50 := mkDescription 1 0 0 O_RDONLY 1]} |>).
Definition poll_ipc (queued : list Z) : ipc :=
  mkIpc poll_kernel {[1 := OPipe (mkPipe 1 1 100 (snd (RingBuffer.write (empty_ring (replicate 4096 0)) queued (Z.of_nat (length queued)))))]}.
Definition poll_clocks : clocks := mkClocks ∅ [] ∅ ∅ zero_time zero_time.
Definition polled : list pollfd := [mkPollfd 0 POLLIN 0; mkPollfd 7 POLLIN 0].

Lemma poll_reports_witness : exists fds1 evs s1 c1,
  ppoll_begin (poll_ipc [104]) poll_clocks 1 1 60 polled None None = Ret (inr (fds1, evs, true, s1, c1)) /\
  Some 100 ∈ evs /\
  exists fds2, ppoll_loop s1 c1 1 60 fds1 true [] = Ret (Done (2, fds2) (s1, c1)) /\ 2 = num_reported fds2.
Proof.
  destruct (ppoll_begin (poll_ipc [104]) poll_clocks 1 1 60 polled None None) as [[|[[[[fds1 evs] block] s1] c1]]| |] eqn:Hb;
    try (vm_compute in Hb; discriminate Hb).
  assert (block = true) as -> by (vm_compute in Hb; congruence).
  destruct (poll_reports _ _ _ _ _ _ _ _ _ _ _ _ _ Hb) as (Hev & _ & Hloop & _).
  exists fds1, evs, s1, c1. split; [reflexivity|]. split.
  - destruct (fd_object (poll_ipc [104]) 1 0) as [[[[d desc] o]|]| |] eqn:Ho; try (vm_compute in Ho; discriminate Ho).
    destruct (Hev (mkPollfd 0 POLLIN 0) d desc o) as [_ Hin]; [left|reflexivity|exact Ho|].
    assert (object_event o = Some 100) as <-; [|exact Hin]. vm_compute in Ho. injection Ho as _ _ <-. reflexivity.
  - assert (exists fds2, ppoll_loop s1 c1 1 60 fds1 true [] = Ret (Done (2, fds2) (s1, c1))) as [fds2 Hl].
    { clear Hev Hloop. vm_compute in Hb. injection Hb as <- <- <- <-. eexists. vm_compute. reflexivity. }
    exists fds2. split; [exact Hl|]. destruct (Hloop [] _ Hl) as [(_ & Hn & _)|[(Hn & _)|(Hn & _)]];
      [exact Hn|discriminate Hn|discriminate Hn].
Defined.

Lemma epoll_registrations_witness : exists e', epoll_add EPoll_init 7 50 (Some 100) (mkEpollEvent POLLIN 3) = Ret (0, e') /\
  registration e' 7 = Some (50, mkEpollEvent POLLIN 3, Some 100).
Proof.
  destruct epoll_registrations as [Hwf H]. destruct (H EPoll_init 7 Hwf) as (Hadd & _).
  destruct (Hadd 50 (Some 100) (mkEpollEvent POLLIN 3)) as (e' & He & _ & Hr). exists e'. split; [exact He|exact (Hr 7)].
Defined.
