(* ===== verification/Sockets.v ===== *)
(** * Local sockets: userland/socket/socket.cpp, local/stream.cpp, local/datagram.cpp

    The sockets are vnodes of the file system's heap, with a record each here. A call
    that sleeps is a part before its loop and the turns of the loop. TCP and UDP
    sockets, which need the network, are [SOther]. *)

From S2P Require Import Prelude Algorithm CString Links Vfs RingBuffer Cred Sched FdTable VfsCalls Objects.

(** ** Data *)

Definition AF_LOCAL : Z := 1.
Definition AF_INET : Z := 2.
Definition SOCK_STREAM : Z := 1.
Definition SOCK_DGRAM : Z := 2.
Definition SOCK_SEQPACKET : Z := 5.
Definition MSG_CTRUNC : Z := 8.
Definition MSG_TRUNC : Z := 32.
Definition MSG_DONTWAIT : Z := 64.
Definition ENOTSOCK := 88.
Definition EDESTADDRREQ := 89.
Definition EPROTOTYPE := 91.
Definition ENOPROTOOPT := 92.
Definition EOPNOTSUPP := 95.
Definition EAFNOSUPPORT := 97.
Definition EADDRINUSE := 98.
Definition EISCONN := 106.
Definition ENOTCONN := 107.
Definition ECONNREFUSED := 111.

Record ucred := mkUcred { c_pid : Z; c_uid : Z; c_gid : Z }.
(** [cmsghdr]: its length, level, type and data. *)
Record cmsghdr := mkCmsg { cmsg_len : Z; cmsg_level : Z; cmsg_type : Z; cmsg_data : list Z }.

(** [pending_list] is the head of the list of those who connect, or a link in one, or
    has the null pointers [remove] leaves. *)
Inductive Pending := PHead (members : list Z) | PLinked | PRemoved.

(** Pointers to sockets are 0 when null. [s_credentials] is [None] until it is set. *)
Record LocalStreamSocket := mkStream {
  s_event : Z;
  s_ring : option (RingBuffer Z);
  ancillary_ring_buffer : RingBuffer (option cmsghdr);
  peer : Z;
  s_address : mem;
  pending_list : Pending;
  num_pending : Z; max_pending : Z;
  s_credentials : option ucred;
  passcred : bool;
  is_seqpacket : bool
}.
#[export] Instance eta_LocalStreamSocket : Settable LocalStreamSocket := fun x =>
  mkStream (s_event x) (s_ring x) (ancillary_ring_buffer x) (peer x) (s_address x) (pending_list x)
    (num_pending x) (max_pending x) (s_credentials x) (passcred x) (is_seqpacket x).

(** [Datagram]: who sent it, and its data. *)
Record Datagram := mkDatagram { from : Z; d_data : list Z }.
Record LocalDatagramSocket := mkDgram {
  dg_event : Z;
  dg_ring : RingBuffer (option Datagram);
  connected : Z;
  dg_address : mem
}.
#[export] Instance eta_LocalDatagramSocket : Settable LocalDatagramSocket := fun x =>
  mkDgram (dg_event x) (dg_ring x) (connected x) (dg_address x).

Inductive Socket := SStream (x : LocalStreamSocket) | SDgram (x : LocalDatagramSocket) | SOther (family type : Z).

Definition socket_family (x : Socket) : Z := match x with SStream _ | SDgram _ => AF_LOCAL | SOther f _ => f end.
Definition socket_type (x : Socket) : Z :=
  match x with
  | SStream x => if is_seqpacket x then SOCK_SEQPACKET else SOCK_STREAM
  | SDgram _ => SOCK_DGRAM
  | SOther _ t => t
  end.

Record net (D : Type) := mkNet { n_kernel : kernel; n_fs : vfs D; sockets : gmap Z Socket }.
Arguments mkNet {D}. Arguments n_kernel {D}. Arguments n_fs {D}. Arguments sockets {D}.
#[export] Instance eta_net {D} : Settable (net D) := fun n => mkNet (n_kernel n) (n_fs n) (sockets n).

(** A [sockaddr_un]: the family and the 108 bytes of the path. *)
Definition sun_path_size : nat := 108.
Definition sockaddr_un : Type := Z * mem.
Definition no_address : mem := replicate sun_path_size 0.

Definition get_local_addr_length (path : mem) : outcome Z :=
  let! n := strlen path in Ret (klib.min (2 + Z.of_nat n) 110).
(** [memset] and [memcpy] of that many bytes of an address. *)
Definition set_address (path : mem) : outcome mem :=
  let! len := get_local_addr_length path in
  memcpy no_address path (Z.to_nat (len - 2)).
(** The first [n] bytes of an address. *)
Definition address_bytes (path : mem) (n : Z) : mem := take (Z.to_nat n) ([AF_LOCAL; 0] ++ path).

(** ** Stream sockets *)

Definition stream_size : Z := 212992.    (* 208 * 1024 *)

Definition LocalStreamSocket_init (e : Z) (seqpacket : bool) : LocalStreamSocket :=
  mkStream e None (empty_ring (replicate 8 None)) 0 no_address (PHead []) 0 0 None false seqpacket.

(** The destructor of the list of bytes of a pair, [close] and [poll]. *)
Section stream.
Context {D : Type}.
Implicit Types (n : net D) (v : Z) (x : LocalStreamSocket).

Definition stream_of n v : outcome LocalStreamSocket :=
  let! s := deref (sockets n !! v) in match s with SStream x => Ret x | _ => Undef end.
Definition put_stream v x n : net D := n <| sockets ::= <[v := SStream x]> |>.

(** [event.trigger(drop)] of an event. *)
Definition net_trigger n (e : Z) (drop : bool) : outcome (net D) :=
  let! (k, _) := trigger (n_kernel n) e drop INT_MAX in Ret (n <| n_kernel := k |>).

(** The peer's event is not triggered. *)
Definition stream_close n v : outcome (net D) :=
  let! x := stream_of n v in
  let! n := if peer x =? 0 then Ret n else
            let! y := stream_of n (peer x) in Ret (put_stream (peer x) (y <| peer := 0 |>) n) in
  let! x := stream_of n v in
  Ret (put_stream v (x <| s_ring := None |>) n).

(** [next == this]. *)
Definition pending_empty (l : Pending) : bool := match l with PHead [] => true | _ => false end.

Definition stream_poll n v (events : Z) : outcome Z :=
  let! x := stream_of n v in
  let r := if events &? POLLIN then
             let r := match s_ring x with Some b => if is_empty b then 0 else POLLIN | None => 0 end in
             if (max_pending x >? 0) && negb (pending_empty (pending_list x)) then r .| POLLIN else r
           else 0 in
  if events &? POLLOUT then
    if peer x =? 0 then Ret r else
    let! y := stream_of n (peer x) in
    Ret (match s_ring y with Some b => if is_full b then r else r .| POLLOUT | None => r end)
  else Ret r.

Definition stream_ioctl x (cmd : Z) : Z * option Z :=
  if cmd =? FIONREAD then
    match s_ring x with None => (- EINVAL, None) | Some b => (0, Some (i32 (data_count b))) end
  else (VNode_ioctl cmd, None).

(** The credentials of the thread. *)
Definition current_ucred (k : kernel) (t : Z) : outcome ucred :=
  let! th := deref (threads k !! t) in
  let! pr := deref (processes k !! process th) in
  Ret (mkUcred (pid pr) (eid (uids (cred th))) (eid (gids (cred th)))).

Definition stream_listen n (t v backlog : Z) : outcome (Z * net D) :=
  let! x := stream_of n v in
  let! c := current_ucred (n_kernel n) t in
  Ret (0, put_stream v (x <| max_pending := u64 backlog |> <| s_credentials := Some c |>) n).

(** [connect] to the socket [target] up to its sleep: [None] is that it sleeps. A link
    that is in use corrupts the lists. *)
Definition stream_connect_begin n v (target : Z) : outcome (option Z * net D) :=
  let! y := stream_of n target in
  if num_pending y >=? max_pending y then Ret (Some (- ECONNREFUSED), n) else
  match pending_list y with
  | PHead l =>
      let! x := stream_of n v in
      let! _ := match pending_list x with PHead [] | PRemoved => Ret tt | _ => Undef end in
      if v =? target then Undef else
      let n := put_stream target (y <| pending_list := PHead (l ++ [v]) |>) n in
      let n := put_stream v (x <| pending_list := PLinked |>) n in
      let! n := net_trigger n (s_event y) false in
      Ret (None, n)
  | _ => Undef
  end.
(** What it does with what the wait returned. *)
Definition stream_connect_end n (t v w : Z) : outcome (Z * net D) :=
  if w =? - EINTR then Ret (- EINTR, n) else
  let! x := stream_of n v in
  let! c := current_ucred (n_kernel n) t in
  Ret (0, put_stream v (x <| s_credentials := Some c |>) n).

(** A new vnode for a socket. *)
Definition new_socket n (make : Z -> Socket) : Z * net D :=
  let (e, k) := new_event (n_kernel n) in
  let v := next_addr (n_fs n) in
  (v, n <| n_kernel := k |>
        <| n_fs ::= fun s => put_vnode v (VNode_init SOCKET) s <| next_addr ::= Z.add 1 |> |>
        <| sockets ::= <[v := make e]> |>).

(** [O_RDONLY | ...], whatever a socket is for. *)
Definition SOCK_NONBLOCK : Z := O_NONBLOCK.
Definition SOCK_CLOEXEC : Z := O_CLOEXEC.
Definition create_socket_fd n (p v flags : Z) : outcome (Z * net D) :=
  let k := n_kernel n in
  let! pr := deref (processes k !! p) in
  let! (fd, pr, _) := allocate_fdnum pr 0 in
  let k := put_process p pr k in
  let d := next_obj k in
  let! vn := deref (vnodes (n_fs n) !! v) in
  let n := n <| n_fs ::= put_vnode v (vn <| v_ref_count ::= Z.add 1 |>) |> in
  let! k := install (k <| next_obj ::= Z.add 1 |>) p fd d (if flags &? SOCK_CLOEXEC then FD_CLOEXEC else 0)
              (mkDescription v 0 0 (O_RDONLY .| (if flags &? SOCK_NONBLOCK then O_NONBLOCK else 0)) 1) in
  Ret (fd, n <| n_kernel := k |>).

(** A turn of [accept]: [None] is that it sleeps; the descriptor and the address stored
    where the caller asked for one. [bytes] is the memory of new rings, which is not set. *)
Definition stream_accept n (p v : Z) (desc : FileDescription) (bytes : list Z) (want_address : bool) (flags : Z)
    : outcome (option (Z * option mem * net D)) :=
  let! x := stream_of n v in
  match pending_list x with
  | PHead [] => if d_flags desc &? O_NONBLOCK then Ret (Some (- EWOULDBLOCK, None, n)) else Ret None
  | PHead (c :: l) =>
      let! y := stream_of n c in
      let n := put_stream v (x <| pending_list := PHead l |>) n in
      let y := y <| pending_list := PRemoved |> in
      let! stored := if want_address : bool
                     then let! len := get_local_addr_length (s_address y) in
                          Ret (Some (address_bytes (s_address y) len))
                     else Ret None in
      let! address := set_address (s_address x) in
      let (w, n) := new_socket n (fun e => SStream (LocalStreamSocket_init e (is_seqpacket x)
                      <| peer := c |> <| s_ring := Some (empty_ring bytes) |> <| s_address := address |>)) in
      let y := y <| peer := w |>
                 <| s_ring ::= fun r => match r with None => Some (empty_ring bytes) | Some b => Some b end |> in
      let! n := net_trigger (put_stream c y n) (s_event y) false in
      let! (fd, n) := create_socket_fd n p w flags in
      Ret (Some (fd, stored, n))
  | _ => Undef
  end.

(** The loop over the ancillary messages: those that fit in [room] bytes, and whether
    one did not. *)
Definition cmsg_align (len : Z) : Z := klib.align_up len 8.
Fixpoint receive_control (fuel : nat) (r : RingBuffer (option cmsghdr)) (transferred room : Z) (truncated : bool)
    : outcome (list cmsghdr * bool * RingBuffer (option cmsghdr)) :=
  match fuel with
  | O => Ret ([], truncated, r)
  | S fuel =>
      let '(k, out, r) := read r 1 in
      if k =? 0 then Ret ([], truncated, r) else
      let! c := deref (head out ≫= id) in
      let next := transferred + cmsg_align (cmsg_len c) in
      if next <=? room then
        let! (l, truncated, r) := receive_control fuel r next room truncated in Ret (c :: l, truncated, r)
      else receive_control fuel r transferred room true
  end.

(** [recvmsg] up to its loop: the error if it fails there, the messages and the flags. *)
Definition stream_recv_begin n v (controllen : Z) : outcome (option Z * list cmsghdr * Z * net D) :=
  let! x := stream_of n v in
  let! (cmsgs, truncated, r) :=
    if controllen >? 0
    then receive_control (S (Z.to_nat (data_count (ancillary_ring_buffer x)))) (ancillary_ring_buffer x) 0 controllen false
    else Ret ([], false, ancillary_ring_buffer x) in
  let n := put_stream v (x <| ancillary_ring_buffer := r |>) n in
  Ret (match s_ring x with
       | Some _ => if peer x =? 0 then Some (- ENOTCONN) else None
       | None => Some (- ENOTCONN)
       end, cmsgs, if truncated then MSG_CTRUNC else 0, n).

(** The loop over the buffers, of the given lengths. [packet_length] for a packet. *)
Fixpoint recv_iovs (packet_length : option Z) (iovs : list Z) (transferred : Z) (r : RingBuffer Z)
    : Z * list Z * RingBuffer Z :=
  match iovs with
  | [] => (transferred, [], r)
  | len :: iovs =>
      if len =? 0 then recv_iovs packet_length iovs transferred r else
      let amount_to_read := match packet_length with
                            | Some l => klib.min len (u64 (l - transferred))
                            | None => len
                            end in
      match packet_length with
      | Some _ => if amount_to_read =? 0 then (transferred, [], r) else
          let '(k, out, r) := read r amount_to_read in
          if is_empty r then (u64 (transferred + k), out, r) else
          let '(total, rest, r) := recv_iovs packet_length iovs (u64 (transferred + k)) r in
          (total, out ++ rest, r)
      | None =>
          let '(k, out, r) := read r amount_to_read in
          if is_empty r then (u64 (transferred + k), out, r) else
          let '(total, rest, r) := recv_iovs packet_length iovs (u64 (transferred + k)) r in
          (total, out ++ rest, r)
      end
  end.

(** Four bytes, the lowest first. *)
Definition u32_of_bytes (l : list Z) : Z :=
  match l with [a; b; c; d] => a + 256 * b + 65536 * c + 16777216 * d | _ => 0 end.
Definition bytes_of_u32 (z : Z) : list Z := [z mod 256; z / 256 mod 256; z / 65536 mod 256; z / 16777216 mod 256].

(** A turn of the loop of [recvmsg], and what follows it: the count or error, the bytes
    and the flags added. *)
Definition stream_recv_turn n v (desc : FileDescription) (iovs : list Z) (flags : Z)
    : outcome (option (Z * list Z * Z * net D)) :=
  let! x := stream_of n v in
  let! r := deref (s_ring x) in
  if is_empty r then
    if (d_flags desc &? O_NONBLOCK) || (flags &? MSG_DONTWAIT) then Ret (Some (- EWOULDBLOCK, [], 0, n)) else Ret None
  else
    let! (packet_length, r) :=
      if is_seqpacket x then
        let '(k, out, r) := read r 4 in
        let! _ := assert (k =? 4) in Ret (Some (u32_of_bytes out), r)
      else Ret (None, r) in
    let '(transferred, out, r) := recv_iovs packet_length iovs 0 r in
    let! (msg_flags, r) :=
      match packet_length with
      | None => Ret (0, r)
      | Some l =>
          let! _ := assert (transferred <=? l) in
          if transferred <? l then Ret (MSG_TRUNC, snd (truncate r (u64 (l - transferred)))) else Ret (0, r)
      end in
    let n := put_stream v (x <| s_ring := Some r |>) n in
    let! y := stream_of n (peer x) in
    let! n := net_trigger n (s_event y) true in
    Ret (Some (transferred, out, msg_flags, n)).

(** The loop over the ancillary messages sent; those that are not credentials are
    dropped. The peer is used before it is known to be there. *)
Definition SOL_SOCKET : Z := 1.
Definition SCM_CREDENTIALS : Z := 2.
Fixpoint send_control n v (cmsgs : list cmsghdr) : outcome (net D) :=
  match cmsgs with
  | [] => Ret n
  | c :: cmsgs =>
      let! n :=
        if (cmsg_level c =? SOL_SOCKET) && (cmsg_type c =? SCM_CREDENTIALS) then
          let! x := stream_of n v in
          let! y := stream_of n (peer x) in
          let (_, r) := write (ancillary_ring_buffer y) [Some c] 1 in
          Ret (put_stream (peer x) (y <| ancillary_ring_buffer := r |>) n)
        else Ret n in
      send_control n v cmsgs
  end.

Definition stream_send_begin n v (namelen : Z) (cmsgs : list cmsghdr) : outcome (option Z * net D) :=
  if negb (namelen =? 0) then Ret (Some (- EISCONN), n) else
  let! n := send_control n v cmsgs in
  let! x := stream_of n v in
  if peer x =? 0 then Ret (Some (- ENOTCONN), n) else
  let! y := stream_of n (peer x) in
  Ret (match s_ring y with None => Some (- ENOTCONN) | Some _ => None end, n).

Fixpoint send_iovs (iovs : list (list Z)) (transferred : Z) (r : RingBuffer Z) : Z * RingBuffer Z :=
  match iovs with
  | [] => (transferred, r)
  | iov :: iovs =>
      if (length iov =? 0)%nat then send_iovs iovs transferred r else
      let '(k, r) := write r iov (Z.of_nat (length iov)) in
      if is_full r then (u64 (transferred + k), r) else send_iovs iovs (u64 (transferred + k)) r
  end.

Definition stream_send_turn n v (desc : FileDescription) (iovs : list (list Z)) (flags : Z)
    : outcome (option (Z * net D)) :=
  let! x := stream_of n v in
  let! y := stream_of n (peer x) in
  let! r := deref (s_ring y) in
  if is_full r then
    if (d_flags desc &? O_NONBLOCK) || (flags &? MSG_DONTWAIT) then Ret (Some (- EWOULDBLOCK, n)) else Ret None
  else
    let! r :=
      if is_seqpacket x then
        let packet_length := u32 (Z.of_nat (length (concat iovs))) in
        let '(k, r) := write r (bytes_of_u32 packet_length) 4 in
        let! _ := assert (k =? 4) in Ret r
      else Ret r in
    let '(transferred, r) := send_iovs iovs 0 r in
    let! n := net_trigger (put_stream (peer x) (y <| s_ring := Some r |>) n) (s_event y) true in
    Ret (Some (transferred, n)).
End stream.

(** ** Datagram sockets *)

Definition LocalDatagramSocket_init (e : Z) : LocalDatagramSocket :=
  mkDgram e (empty_ring (replicate 256 None)) 0 no_address.

Section datagram.
Context {D : Type}.
Implicit Types (n : net D) (v : Z) (x : LocalDatagramSocket).

Definition dgram_of n v : outcome LocalDatagramSocket :=
  let! s := deref (sockets n !! v) in match s with SDgram x => Ret x | _ => Undef end.
Definition put_dgram v x n : net D := n <| sockets ::= <[v := SDgram x]> |>.

Definition dgram_poll n v (events : Z) : outcome Z :=
  let! x := dgram_of n v in
  let r := if (events &? POLLIN) && negb (is_empty (dg_ring x)) then POLLIN else 0 in
  if (events &? POLLOUT) && negb (connected x =? 0) then
    let! y := dgram_of n (connected x) in Ret (if is_full (dg_ring y) then r else r .| POLLOUT)
  else Ret r.

Definition TIOCOUTQ : Z := 21521.
Definition dgram_ioctl x (cmd : Z) : outcome (Z * option Z) :=
  if cmd =? FIONREAD then
    if is_empty (dg_ring x) then Ret (0, Some 0) else
    let! d := deref (head (snd (peek (dg_ring x))) ≫= id) in
    Ret (0, Some (i32 (Z.of_nat (length (d_data d)))))
  else if cmd =? TIOCOUTQ then Ret (- EINVAL, None)
  else Ret (VNode_ioctl cmd, None).

(** The copy of a datagram into buffers of the given lengths. *)
Fixpoint copy_out (data : list Z) (iovs : list Z) (transferred : Z) : Z * list Z :=
  match iovs with
  | [] => (transferred, [])
  | len :: iovs =>
      if len =? 0 then copy_out data iovs transferred else
      let count := klib.min (u64 (Z.of_nat (length data) - transferred)) len in
      let bytes := slice transferred count data in
      if count <? len then (u64 (transferred + count), bytes) else
      let (total, rest) := copy_out data iovs (u64 (transferred + count)) in (total, bytes ++ rest)
  end.

(** A turn of [recvmsg]: the count or error, the bytes and the flags. *)
Definition dgram_recv_turn n v (desc : FileDescription) (iovs : list Z) (flags : Z)
    : outcome (option (Z * list Z * Z * net D)) :=
  let! x := dgram_of n v in
  if is_empty (dg_ring x) then
    if (d_flags desc &? O_NONBLOCK) || (flags &? MSG_DONTWAIT) then Ret (Some (- EWOULDBLOCK, [], 0, n)) else Ret None
  else
    let '(k, out, r) := read (dg_ring x) 1 in
    let! _ := assert (k =? 1) in
    let! d := deref (head out ≫= id) in
    let (transferred, bytes) := copy_out (d_data d) iovs 0 in
    let msg_flags := if transferred <? Z.of_nat (length (d_data d)) then MSG_TRUNC else 0 in
    let n := put_dgram v (x <| dg_ring := r |>) n in
    let! y := dgram_of n (from d) in
    let! n := net_trigger n (dg_event y) false in
    Ret (Some (transferred, bytes, msg_flags, n)).

(** A turn of [sendmsg] to [target]. The length of a datagram is 32 bits. *)
Definition dgram_send_turn n v (target : Z) (desc : FileDescription) (iovs : list (list Z)) (flags : Z)
    : outcome (option (Z * net D)) :=
  let! y := dgram_of n target in
  if is_full (dg_ring y) then
    if (d_flags desc &? O_NONBLOCK) || (flags &? MSG_DONTWAIT) then Ret (Some (- EWOULDBLOCK, n)) else Ret None
  else
    let data := concat iovs in
    if Z.of_nat (length data) >=? 4294967296 then Undef else
    let '(k, r) := write (dg_ring y) [Some (mkDatagram v data)] 1 in
    let! _ := assert (k =? 1) in
    let! n := net_trigger (put_dgram target (y <| dg_ring := r |>) n) (dg_event y) false in
    Ret (Some (Z.of_nat (length data), n)).
End datagram.

(** ** Names *)

Section names.
Context {D : Type} `{FilesystemOps D} `{VNodeOps D} (depth : nat).
Implicit Types (n : net D) (t p v : Z).

(** [path_to_entry(addr->sun_path, process->cwd)]. *)
Definition resolve_address n p (path : mem) : outcome (Z * Entry * net D) :=
  let! pr := deref (processes (n_kernel n) !! p) in
  let! (e, s) := path_to_entry depth path (cwd pr) true (n_fs n) in
  let! en := deref (entries s !! e) in
  Ret (e, en, n <| n_fs := s |>).

(** [bind] of either kind: the error or 0, and the address to set. *)
Definition local_bind n t p v (path : mem) : outcome (Z * option mem * net D) :=
  let! th := deref (threads (n_kernel n) !! t) in
  let! pr := deref (processes (n_kernel n) !! p) in
  let! (e, en, n) := resolve_address n p path in
  if negb (e_vnode en =? 0) then Ret (- EADDRINUSE, None, n)
  else if e_parent en =? 0 then Ret (- ENOENT, None, n)
  else
    let s := put_entry e (en <| e_vnode := v |>) (n_fs n) in
    let! s := entry_create s e SOCKET (eid (uids (cred th))) (eid (gids (cred th))) (511 &~ umask pr) in
    let! address := set_address path in
    Ret (0, Some address, n <| n_fs := s |>).

Definition stream_bind n t p v (path : mem) : outcome (Z * net D) :=
  let! (ret, address, n) := local_bind n t p v path in
  match address with
  | None => Ret (ret, n)
  | Some a => let! x := stream_of n v in Ret (ret, put_stream v (x <| s_address := a |>) n)
  end.
Definition dgram_bind n t p v (path : mem) : outcome (Z * net D) :=
  let! (ret, address, n) := local_bind n t p v path in
  match address with
  | None => Ret (ret, n)
  | Some a => let! x := dgram_of n v in Ret (ret, put_dgram v (x <| dg_address := a |>) n)
  end.

(** The socket at a path; the error if there is none. *)
Definition find_socket n p (path : mem) : outcome ((Z + Z) * net D) :=
  let! (_, en, n) := resolve_address n p path in
  if e_vnode en =? 0 then Ret (inl (- ENOENT), n) else
  let! vn := deref (vnodes (n_fs n) !! e_vnode en) in
  if decide (node_type vn <> SOCKET) then Ret (inl (- ECONNREFUSED), n) else Ret (inr (e_vnode en), n).

(** [connect]; [None] is that it sleeps. A stream socket takes any socket for one of
    its own kind. *)
Definition stream_connect n p v (addr : sockaddr_un) : outcome (option Z * net D) :=
  if negb (fst addr =? AF_LOCAL) then Ret (Some (- EAFNOSUPPORT), n) else
  let! (r, n) := find_socket n p (snd addr) in
  match r with inl err => Ret (Some err, n) | inr target => stream_connect_begin n v target end.

(** The target of a datagram socket, which is checked to be one. *)
Definition dgram_target n p (addr : sockaddr_un) : outcome ((Z + Z) * net D) :=
  if negb (fst addr =? AF_LOCAL) then Ret (inl (- EAFNOSUPPORT), n) else
  let! (r, n) := find_socket n p (snd addr) in
  match r with
  | inl err => Ret (inl err, n)
  | inr v =>
      let! y := deref (sockets n !! v) in
      if negb (socket_family y =? AF_LOCAL) || negb (socket_type y =? SOCK_DGRAM)
      then Ret (inl (- EPROTOTYPE), n) else Ret (inr v, n)
  end.
Definition dgram_connect n p v (addr : sockaddr_un) : outcome (Z * net D) :=
  let! (r, n) := dgram_target n p addr in
  match r with
  | inl err => Ret (err, n)
  | inr target => let! x := dgram_of n v in Ret (0, put_dgram v (x <| connected := target |>) n)
  end.

(** [sendmsg] up to its loop: the error or the target. *)
Definition dgram_send_begin n p v (name : option sockaddr_un) : outcome ((Z + Z) * net D) :=
  let! x := dgram_of n v in
  if negb (connected x =? 0) then Ret (inr (connected x), n) else
  match name with
  | None => Ret (inl (- EDESTADDRREQ), n)
  | Some addr => dgram_target n p addr
  end.

(** ** Names and options of a socket *)

(** The bytes stored, cut at the caller's length, and the length stored. *)
Definition local_name (path : mem) (addr_length : Z) : outcome (mem * Z) :=
  let! len := get_local_addr_length path in
  Ret (address_bytes path (klib.min len addr_length), len).
Definition stream_getsockname n v (addr_length : Z) : outcome (mem * Z) :=
  let! x := stream_of n v in local_name (s_address x) addr_length.
Definition stream_getpeername n v (addr_length : Z) : outcome (mem * Z) :=
  let! x := stream_of n v in let! y := stream_of n (peer x) in local_name (s_address y) addr_length.
Definition dgram_getsockname n v (addr_length : Z) : outcome (mem * Z) :=
  let! x := dgram_of n v in local_name (dg_address x) addr_length.
Definition dgram_getpeername n v (addr_length : Z) : outcome (mem * Z) :=
  let! x := dgram_of n v in let! y := dgram_of n (connected x) in local_name (dg_address y) addr_length.

(** An option's value: an [int] or credentials. *)
Inductive optval := OInt (z : Z) | OCred (c : option ucred).
Definition SO_TYPE : Z := 3.
Definition SO_SNDBUF : Z := 7.
Definition SO_RCVBUF : Z := 8.
Definition SO_KEEPALIVE : Z := 9.
Definition SO_PASSCRED : Z := 16.
Definition SO_PEERCRED : Z := 17.
Definition SO_PEERSEC : Z := 31.
Definition SO_DOMAIN : Z := 39.

Definition stream_getsockopt n v (layer number : Z) : outcome (Z * option optval) :=
  let! x := stream_of n v in
  if negb (layer =? SOL_SOCKET) then Ret (- ENOPROTOOPT, None)
  else if number =? SO_PASSCRED then Ret (0, Some (OInt (if passcred x then 1 else 0)))
  else if number =? SO_PEERCRED then let! y := stream_of n (peer x) in Ret (0, Some (OCred (s_credentials y)))
  else if (number =? SO_SNDBUF) || (number =? SO_RCVBUF) then
    (* the size is a constant of the class: the null pointer is not followed *)
    Ret (0, Some (OInt stream_size))
  else if number =? SO_KEEPALIVE then Ret (0, Some (OInt 0))
  else Ret (- ENOPROTOOPT, None).
Definition stream_setsockopt n v (layer number value : Z) : outcome (Z * net D) :=
  let! x := stream_of n v in
  if (layer =? SOL_SOCKET) && (number =? SO_PASSCRED)
  then Ret (0, put_stream v (x <| passcred := negb (value =? 0) |>) n)
  else if (layer =? SOL_SOCKET) && ((number =? SO_SNDBUF) || (number =? SO_RCVBUF)) then Ret (0, n)
  else if layer =? 6 then Ret (- EOPNOTSUPP, n) else Ret (- ENOPROTOOPT, n).

(** ** System calls *)

(** [get_socket]: the error, or the socket's vnode and the description. *)
Definition get_socket n p (fd : Z) : outcome (Z + Z * FileDescription * Socket) :=
  let! d := get_file_description (n_kernel n) p fd in
  match d with
  | None => Ret (inl (- EBADF))
  | Some d =>
      let! desc := deref (descriptions (n_kernel n) !! d) in
      let! vn := deref (vnodes (n_fs n) !! d_vnode desc) in
      if decide (node_type vn <> SOCKET) then Ret (inl (- ENOTSOCK)) else
      let! x := deref (sockets n !! d_vnode desc) in
      Ret (inr (d_vnode desc, desc, x))
  end.

Definition syscall_socket n p (family type : Z) : outcome (Z * net D) :=
  let flags := Z.land type (SOCK_CLOEXEC .| SOCK_NONBLOCK) in
  let type := type &~ flags in
  let make (f : Z -> Socket) := let (v, n) := new_socket n f in create_socket_fd n p v flags in
  if (family =? AF_LOCAL) && (type =? SOCK_STREAM) then make (fun e => SStream (LocalStreamSocket_init e false))
  else if (family =? AF_LOCAL) && (type =? SOCK_DGRAM) then make (fun e => SDgram (LocalDatagramSocket_init e))
  else if (family =? AF_LOCAL) && (type =? SOCK_SEQPACKET) then make (fun e => SStream (LocalStreamSocket_init e true))
  else if (family =? AF_INET) && (type =? SOCK_STREAM) then Ret (- EAFNOSUPPORT, n)
  else if (family =? AF_INET) && (type =? SOCK_DGRAM) then make (fun e => SOther AF_INET SOCK_DGRAM)
  else Ret (- EAFNOSUPPORT, n).

Definition syscall_socketpair n t p (family type : Z) (bytes : list Z) : outcome (Z * option (Z * Z) * net D) :=
  let flags := Z.land type (SOCK_CLOEXEC .| SOCK_NONBLOCK) in
  let type := type &~ flags in
  if negb (family =? AF_LOCAL) then Ret (- EAFNOSUPPORT, None, n) else
  let! c := current_ucred (n_kernel n) t in
  if (type =? SOCK_STREAM) || (type =? SOCK_SEQPACKET) then
    let make (e : Z) := LocalStreamSocket_init e (type =? SOCK_SEQPACKET) <| s_ring := Some (empty_ring bytes) |>
                          <| s_credentials := Some c |> in
    let (v1, n) := new_socket n (fun e => SStream (make e)) in
    let (v2, n) := new_socket n (fun e => SStream (make e <| peer := v1 |>)) in
    let! x := stream_of n v1 in
    let n := put_stream v1 (x <| peer := v2 |>) n in
    let! (fd1, n) := create_socket_fd n p v1 flags in
    let! (fd2, n) := create_socket_fd n p v2 flags in
    Ret (0, Some (fd1, fd2), n)
  else if type =? SOCK_DGRAM then
    let (v1, n) := new_socket n (fun e => SDgram (LocalDatagramSocket_init e)) in
    let (v2, n) := new_socket n (fun e => SDgram (LocalDatagramSocket_init e <| connected := v1 |>)) in
    let! x := dgram_of n v1 in
    let n := put_dgram v1 (x <| connected := v2 |>) n in
    let! (fd1, n) := create_socket_fd n p v1 flags in
    let! (fd2, n) := create_socket_fd n p v2 flags in
    Ret (0, Some (fd1, fd2), n)
  else Ret (- EINVAL, None, n).

Definition syscall_bind n t p (fd : Z) (addr : sockaddr_un) : outcome (Z * net D) :=
  let! r := get_socket n p fd in
  match r with
  | inl err => Ret (err, n)
  | inr (v, _, x) =>
      if negb (fst addr =? socket_family x) then Ret (- EINVAL, n) else
      match x with
      | SStream _ => stream_bind n t p v (snd addr)
      | SDgram _ => dgram_bind n t p v (snd addr)
      | SOther _ _ => Undef
      end
  end.

(** Up to the sleep of a stream socket. *)
Definition syscall_connect n p (fd : Z) (addr : sockaddr_un) : outcome (option Z * net D) :=
  let! r := get_socket n p fd in
  match r with
  | inl err => Ret (Some err, n)
  | inr (v, _, x) =>
      if negb (fst addr =? socket_family x) then Ret (Some (- EAFNOSUPPORT), n) else
      match x with
      | SStream _ => stream_connect n p v addr
      | SDgram _ => let! (ret, n) := dgram_connect n p v addr in Ret (Some ret, n)
      | SOther _ _ => Undef
      end
  end.

Definition syscall_listen n t p (fd backlog : Z) : outcome (Z * net D) :=
  let! r := get_socket n p fd in
  match r with
  | inl err => Ret (err, n)
  | inr (v, _, SStream _) => stream_listen n t v backlog
  | inr (_, _, SDgram _) => Ret (- EOPNOTSUPP, n)
  | inr (_, _, SOther _ _) => Undef
  end.

(** One turn. *)
Definition syscall_accept4 n p (fd : Z) (bytes : list Z) (want_address : bool) (flags : Z)
    : outcome (option (Z * option mem * net D)) :=
  let! r := get_socket n p fd in
  match r with
  | inl err => Ret (Some (err, None, n))
  | inr (v, desc, x) =>
      if negb (flags &~ (SOCK_NONBLOCK .| SOCK_CLOEXEC) =? 0) then Ret (Some (- EINVAL, None, n)) else
      match x with
      | SStream _ => stream_accept n p v desc bytes want_address flags
      | SDgram _ => Ret (Some (- EOPNOTSUPP, None, n))
      | SOther _ _ => Undef
      end
  end.
Definition syscall_accept n p (fd : Z) (bytes : list Z) (want_address : bool) :=
  syscall_accept4 n p fd bytes want_address 0.

Definition syscall_shutdown n p (fd how : Z) : outcome Z :=
  if negb (existsb (Z.eqb how) [0; 1; 2]) then Ret (- EINVAL) else
  let! r := get_socket n p fd in
  match r with inl err => Ret err | inr (_, _, SOther _ _) => Undef | inr _ => Ret (- ENOSYS) end.

Definition syscall_getsockopt n p (fd layer number : Z) : outcome (Z * option optval) :=
  let! r := get_socket n p fd in
  match r with
  | inl err => Ret (err, None)
  | inr (v, _, x) =>
      if (layer =? SOL_SOCKET) && (number =? SO_TYPE) then Ret (0, Some (OInt (socket_type x)))
      else if (layer =? SOL_SOCKET) && (number =? SO_DOMAIN) then Ret (0, Some (OInt (socket_family x)))
      else match x with
           | SStream _ => stream_getsockopt n v layer number
           | SDgram _ => Ret (- ENOPROTOOPT, None)
           | SOther _ _ => Undef
           end
  end.
Definition syscall_setsockopt n p (fd layer number value : Z) : outcome (Z * net D) :=
  let! r := get_socket n p fd in
  match r with
  | inl err => Ret (err, n)
  | inr (v, _, SStream _) => stream_setsockopt n v layer number value
  | inr (_, _, SDgram _) => Ret (- ENOPROTOOPT, n)
  | inr (_, _, SOther _ _) => Undef
  end.
End names.
