(* ===== verification/SocketProps.v ===== *)
(** * Correctness of local sockets (userland/socket/local)

    Datagrams keep their boundaries and their order; what the calls of stream sockets
    do on their error paths. *)

From S2P Require Import Prelude Algorithm CString TimeSpec Links Vfs RingBuffer Sched SchedFacts SchedLinks SchedProps FdTable TimeProps Objects ObjectProps Sockets.

(** ** Datagrams *)

Section datagrams.
Context {D : Type}.
Implicit Types (n : net D) (v : Z).

(** The messages queued at socket [v], oldest first, each with its sender. *)
Definition messages n v : list (option Datagram) :=
  match sockets n !! v with Some (SDgram x) => contents (dg_ring x) | _ => [] end.

(** A datagram socket whose queue is sound and holds messages; its event is there. *)
Definition dgram_ok n v : Prop := exists x, sockets n !! v = Some (SDgram x) /\ wf (dg_ring x) /\
  size (dg_ring x) = 256 /\ Forall (fun m => exists d, m = Some d /\ Z.of_nat (length (d_data d)) < 4294967296) (contents (dg_ring x)) /\
  is_Some (events (n_kernel n) !! dg_event x).

Lemma dgram_of_Ret n v x : sockets n !! v = Some (SDgram x) -> dgram_of n v = Ret x.
Proof. intros Hv. unfold dgram_of. by rewrite Hv. Qed.

(** The bytes that fit into buffers of the given lengths, first to last. *)
Lemma copy_out_spec data iovs t : Forall (fun len => 0 <= len) iovs -> Z.of_nat (length data) < 4294967296 ->
  0 <= t <= Z.of_nat (length data) ->
  exists m, copy_out data iovs t = (m, take (Z.to_nat (m - t)) (drop (Z.to_nat t) data)) /\
    m = Z.min (Z.of_nat (length data)) (t + foldr Z.add 0 iovs).
Proof.
  intros Hi Hd. revert t. induction Hi as [|len iovs Hlen Hi IH]; intros t Ht; cbn [copy_out foldr].
  { exists t. rewrite Z.sub_diag. split; [done|lia]. }
  assert (0 <= foldr Z.add 0 iovs) as Hsum by (clear -Hi; induction Hi; simpl; lia).
  destruct (Z.eqb_spec len 0) as [->|Hl0]; [by apply IH|].
  rewrite klib.min_Zmin, u64_small by lia. set (c := Z.min _ len). rewrite (u64_small (t + c)) by lia.
  destruct (Z.ltb_spec c len) as [Hc|Hc].
  - exists (t + c). unfold slice. split; [|lia]. do 2 f_equal. lia.
  - destruct (IH (t + c)) as (m & -> & Hm); [lia|]. exists m. split; [|lia]. f_equal. unfold slice.
    replace (Z.to_nat (m - t)) with (Z.to_nat c + Z.to_nat (m - (t + c)))%nat by lia.
    rewrite <- take_take_drop. do 2 f_equal. rewrite drop_drop. f_equal. lia.
Qed.

(** [trigger] as sockets call it. *)
Lemma net_trigger_ok n e b : sched_wf (n_kernel n) -> is_Some (events (n_kernel n) !! e) ->
  exists k, net_trigger n e b = Ret (n <| n_kernel := k |>) /\ advance (n_kernel n) k /\ wakes (n_kernel n) k e.
Proof.
  intros Hk [ev Hev]. unfold net_trigger. destruct b.
  - destruct (trigger_drop_wakes _ _ _ Hk Hev) as (k & m & -> & Ha & Hw). by exists k.
  - destruct (trigger_wakes_all _ _ _ Hk Hev) as (k & Ht & Ha & Hw). unfold trigger_all in Ht.
    destruct (trigger _ _ _ _) as [[k' m]| |]; cbn [obind] in *; try done. injection Ht as ->. by exists k.
Qed.

Definition event_of n v : Z := match sockets n !! v with Some (SDgram x) => dg_event x | _ => 0 end.

(** What a turn of [sendmsg] does: the whole message is queued, or nothing. *)
Definition send_ok n v target desc iovs flags : Prop :=
  if Z.of_nat (length (messages n target)) =? 256 then
    dgram_send_turn n v target desc iovs flags =
      Ret (if (d_flags desc &? O_NONBLOCK) || (flags &? MSG_DONTWAIT) then Some (- EWOULDBLOCK, n) else None)
  else exists n', dgram_send_turn n v target desc iovs flags = Ret (Some (Z.of_nat (length (concat iovs)), n')) /\
    messages n' target = messages n target ++ [Some (mkDatagram v (concat iovs))] /\
    (forall u, u <> target -> sockets n' !! u = sockets n !! u) /\ dgram_ok n' target /\
    advance (n_kernel n) (n_kernel n') /\ wakes (n_kernel n) (n_kernel n') (event_of n target).

(** What a turn of [recvmsg] does: the oldest message is taken, and what does not fit
    is dropped. *)
Definition recv_ok n v desc iovs flags : Prop :=
  match messages n v with
  | [] => dgram_recv_turn n v desc iovs flags =
      Ret (if (d_flags desc &? O_NONBLOCK) || (flags &? MSG_DONTWAIT) then Some (- EWOULDBLOCK, [], 0, n) else None)
  | m :: q => exists d n', m = Some d /\
      let len := Z.of_nat (length (d_data d)) in
      let k := Z.min len (foldr Z.add 0 iovs) in
      dgram_recv_turn n v desc iovs flags =
        Ret (Some (k, take (Z.to_nat k) (d_data d), if k <? len then MSG_TRUNC else 0, n')) /\
      messages n' v = q /\ (forall u, u <> v -> sockets n' !! u = sockets n !! u) /\ dgram_ok n' v /\
      advance (n_kernel n) (n_kernel n') /\ wakes (n_kernel n) (n_kernel n') (event_of n (from d))
  end.

Lemma messages_put n v x k : messages (put_dgram v x n <| n_kernel := k |>) v = contents (dg_ring x).
Proof. unfold messages. simpl. by rewrite lookup_insert_eq. Qed.

Lemma dgram_ok_put n v x r k : sockets n !! v = Some (SDgram x) -> is_Some (events (n_kernel n) !! dg_event x) ->
  advance (n_kernel n) k -> wf r -> size r = 256 ->
  Forall (fun m => exists d, m = Some d /\ Z.of_nat (length (d_data d)) < 4294967296) (contents r) ->
  dgram_ok (put_dgram v (x <| dg_ring := r |>) n <| n_kernel := k |>) v.
Proof.
  intros Hv [ev Hev] Ha Hr Hs Hf. exists (x <| dg_ring := r |>). simpl. rewrite lookup_insert_eq.
  destruct (adv_events _ _ Ha _ _ Hev) as (ev' & Hev' & _). split_and!; eauto.
Qed.

Lemma dgram_send n v target desc iovs flags : sched_wf (n_kernel n) -> dgram_ok n target ->
  Z.of_nat (length (concat iovs)) < 4294967296 -> send_ok n v target desc iovs flags.
Proof.
  intros Hk (x & Hx & Hwf & Hsz & Hall & Hev) Hlen. unfold send_ok, dgram_send_turn.
  assert (messages n target = contents (dg_ring x)) as Hm by (unfold messages; by rewrite Hx).
  assert (event_of n target = dg_event x) as He by (unfold event_of; by rewrite Hx).
  rewrite Hm, He, (dgram_of_Ret _ _ _ Hx). cbn [obind]. pose proof (length_contents _ Hwf) as Hlc.
  assert (is_full (dg_ring x) = (Z.of_nat (length (contents (dg_ring x))) =? 256)) as Hfull
    by (unfold is_full; by rewrite Hlc, Hsz).
  rewrite Hfull. destruct (Z.eqb_spec (Z.of_nat (length (contents (dg_ring x)))) 256) as [|Hnf].
  { by destruct (_ || _)%bool. }
  rewrite Z.geb_leb, (proj2 (Z.leb_gt _ _)) by lia.
  set (d := mkDatagram v (concat iovs)). destruct (write (dg_ring x) [Some d] 1) as [k r] eqn:Hw.
  destruct (write_spec _ [Some d] 1 _ _ Hwf ltac:(simpl; lia) Hw) as (Hn & Hwf' & Hs' & Hc).
  pose proof Hwf as (_ & _ & _ & _ & Hle). rewrite free_count_eq in Hn by done.
  assert (k = 1) as -> by lia. cbn [assert obind].
  destruct (net_trigger_ok (put_dgram target (x <| dg_ring := r |>) n) (dg_event x) false Hk Hev) as (k' & -> & Ha & Hwk).
  cbn [obind]. eexists. split; [reflexivity|]. split; [rewrite messages_put; exact Hc|].
  split; [intros u Hu; simpl; by rewrite lookup_insert_ne|]. split; [|done].
  apply dgram_ok_put; try done; [congruence|]. rewrite Hc. apply Forall_app. split; [done|].
  constructor; [|constructor]. by exists d.
Qed.

Lemma dgram_recv n v desc iovs flags : sched_wf (n_kernel n) -> dgram_ok n v -> Forall (fun len => 0 <= len) iovs ->
  (forall d, Some d ∈ messages n v -> exists y, sockets n !! from d = Some (SDgram y) /\ is_Some (events (n_kernel n) !! dg_event y)) ->
  recv_ok n v desc iovs flags.
Proof.
  intros Hk (x & Hx & Hwf & Hsz & Hall & Hev) Hi Hfrom. unfold recv_ok, dgram_recv_turn.
  assert (messages n v = contents (dg_ring x)) as Hm by (unfold messages; by rewrite Hx).
  rewrite Hm in *. rewrite (dgram_of_Ret _ _ _ Hx). cbn [obind].
  destruct (contents (dg_ring x)) as [|m q] eqn:Hq.
  { rewrite (proj2 (contents_nil_iff _ Hwf) Hq). by destruct (_ || _)%bool. }
  assert (is_empty (dg_ring x) = false) as ->.
  { destruct (is_empty _) eqn:E; [|done]. apply (contents_nil_iff _ Hwf) in E. congruence. }
  apply Forall_cons in Hall as [(d & -> & Hd) Hall].
  destruct (read (dg_ring x) 1) as [[k out] r] eqn:Hr. destruct (read_out (dg_ring x) 1 k out r Hwf ltac:(lia) Hr) as [Hout Ht].
  destruct (truncate_spec (dg_ring x) 1 k r Hwf ltac:(lia) Ht) as (Hn & Hwf' & Hdata & Hc & _).
  rewrite <- length_contents, Hq in Hn by done. cbn [length] in Hn. assert (k = 1) as -> by lia.
  rewrite Hq in Hout, Hc. simpl in Hout, Hc. subst out. cbn [assert obind Z.eqb Pos.eqb].
  change (head (Some d :: take 0 q) ≫= id) with (Some d). cbn [deref obind].
  destruct (copy_out_spec (d_data d) iovs 0 Hi Hd ltac:(lia)) as (m & -> & Hmin).
  rewrite Z.sub_0_r, drop_0, Z.add_0_l in *.
  destruct (Hfrom d) as (y & Hy & Hevy); [left|].
  assert (exists y', dgram_of (put_dgram v (x <| dg_ring := r |>) n) (from d) = Ret y' /\ dg_event y' = dg_event y) as (y' & -> & Hye).
  { unfold dgram_of. simpl. destruct (decide (from d = v)) as [Hfv|].
    - rewrite Hfv, lookup_insert_eq in *. rewrite Hx in Hy. injection Hy as <-. by eexists.
    - rewrite lookup_insert_ne, Hy by done. by eexists. }
  cbn [obind]. rewrite Hye.
  destruct (net_trigger_ok (put_dgram v (x <| dg_ring := r |>) n) (dg_event y) false Hk Hevy) as (k' & -> & Ha & Hwk).
  cbn [obind]. eexists d, _. split; [done|]. rewrite <- Hmin. split; [reflexivity|]. split; [rewrite messages_put; exact Hc|].
  split; [intros u Hu; simpl; by rewrite lookup_insert_ne|]. split.
  { apply dgram_ok_put; try done; [|by rewrite Hc]. unfold size in *. by rewrite Hdata. }
  split; [done|]. unfold event_of. by rewrite Hy.
Qed.
End datagrams.

(** C16. Datagrams keep their boundaries and their order. A queue that is not full takes
    each message whole, at its end; a receive takes the oldest message, gives as many
    of its bytes as the buffers hold, in order, drops the rest and says so
    (MSG_TRUNC); other sockets are not touched. The receiver's event, or that of the
    sender of the message taken, is triggered. *)
Theorem datagrams_in_order {D} (n : net D) (v : Z) : sched_wf (n_kernel n) -> dgram_ok n v ->
  (forall sender desc iovs flags, Z.of_nat (length (concat iovs)) < 4294967296 ->
    send_ok n sender v desc iovs flags) /\
  (forall desc iovs flags, Forall (fun len => 0 <= len) iovs ->
    (forall d, Some d ∈ messages n v -> exists y, sockets n !! from d = Some (SDgram y) /\
       is_Some (events (n_kernel n) !! dg_event y)) ->
    recv_ok n v desc iovs flags).
Proof. intros Hk Hv. split; intros; [by apply dgram_send|by apply dgram_recv]. Qed.

(** ** The error paths of stream sockets *)

Section stream_errors.
Context {D : Type}.
Implicit Types (n : net D) (v : Z) (x : LocalStreamSocket).

Lemma stream_of_Ret n v x : sockets n !! v = Some (SStream x) -> stream_of n v = Ret x.
Proof. intros Hv. unfold stream_of. by rewrite Hv. Qed.

Definition credentials_message (c : cmsghdr) : Prop := cmsg_level c = SOL_SOCKET /\ cmsg_type c = SCM_CREDENTIALS.

(** Before the loops. *)
Lemma stream_begin_errors n v x : sockets n !! v = Some (SStream x) -> sockets n !! 0 = None ->
  (forall namelen cmsgs, namelen <> 0 -> stream_send_begin n v namelen cmsgs = Ret (Some (- EISCONN), n)) /\
  (peer x = 0 -> stream_send_begin n v 0 [] = Ret (Some (- ENOTCONN), n)) /\
  (peer x = 0 \/ s_ring x = None -> stream_recv_begin n v 0 = Ret (Some (- ENOTCONN), [], 0, n)) /\
  (forall c cmsgs, peer x = 0 -> credentials_message c -> stream_send_begin n v 0 (c :: cmsgs) = Undef).
Proof.
  intros Hx H0. pose proof (stream_of_Ret _ _ _ Hx) as Hs. unfold stream_send_begin. split; [|split; [|split]].
  - intros namelen cmsgs Hn. by rewrite (proj2 (Z.eqb_neq _ _) Hn).
  - intros Hp. cbn [Z.eqb negb send_control obind]. rewrite Hs. cbn [obind]. by rewrite Hp.
  - intros Hp. unfold stream_recv_begin. rewrite Hs. change (0 >? 0) with false. cbn [obind].
    assert (put_stream v (x <| ancillary_ring_buffer := ancillary_ring_buffer x |>) n = n) as ->.
    { unfold put_stream. replace (x <| ancillary_ring_buffer := ancillary_ring_buffer x |>) with x by (by destruct x).
      destruct n. simpl in *. by rewrite insert_id. }
    destruct (s_ring x); [|done]. destruct Hp as [->|]; done.
  - intros c cmsgs Hp [Hl Ht]. cbn [Z.eqb negb send_control]. rewrite Hl, Ht, !Z.eqb_refl. cbn [andb].
    rewrite Hs. cbn [obind]. rewrite Hp. unfold stream_of. by rewrite H0.
Qed.

(** In the loops: the ring [r] is the peer's for a send, the socket's own for a receive. *)
Lemma stream_send_errors n v x y r desc iovs flags : sockets n !! v = Some (SStream x) ->
  sockets n !! peer x = Some (SStream y) -> s_ring y = Some r ->
  (is_full r = true -> stream_send_turn n v desc iovs flags =
    Ret (if (d_flags desc &? O_NONBLOCK) || (flags &? MSG_DONTWAIT) then Some (- EWOULDBLOCK, n) else None)) /\
  (is_full r = false -> is_seqpacket x = true -> 0 < free_count r < 4 -> stream_send_turn n v desc iovs flags = Panic).
Proof.
  intros Hx Hy Hr. unfold stream_send_turn. rewrite (stream_of_Ret _ _ _ Hx). cbn [obind].
  rewrite (stream_of_Ret _ _ _ Hy). cbn [obind]. rewrite Hr. cbn [deref obind]. split.
  - intros ->. by destruct (_ || _)%bool.
  - intros -> -> Hf. destruct (write r _ 4) as [k r'] eqn:Hw.
    assert (k = free_count r) as ->; [|by rewrite (proj2 (Z.eqb_neq _ _)) by lia].
    unfold write in Hw. injection Hw as <- _. rewrite klib.min_Zmin. lia.
Qed.

Lemma stream_recv_errors n v x r desc iovs flags : sockets n !! v = Some (SStream x) -> sockets n !! 0 = None ->
  s_ring x = Some r ->
  (is_empty r = true -> stream_recv_turn n v desc iovs flags =
    Ret (if (d_flags desc &? O_NONBLOCK) || (flags &? MSG_DONTWAIT) then Some (- EWOULDBLOCK, [], 0, n) else None)) /\
  (is_empty r = false -> is_seqpacket x = false -> peer x = 0 -> v <> 0 -> stream_recv_turn n v desc iovs flags = Undef).
Proof.
  intros Hx H0 Hr. unfold stream_recv_turn. rewrite (stream_of_Ret _ _ _ Hx). cbn [obind]. rewrite Hr. cbn [deref obind]. split.
  - intros ->. by destruct (_ || _)%bool.
  - intros -> -> Hp Hv. cbn [obind]. destruct (recv_iovs None iovs 0 r) as [[k out] r']. cbn [obind].
    unfold stream_of. simpl. rewrite lookup_insert_ne by congruence. by rewrite Hp, H0.
Qed.
End stream_errors.


(** ** Concrete sockets *)

Definition empty_vfs : vfs unit := mkVfs ∅ ∅ 0 0 tt zero_time 1000.
Definition full_ring (room : Z) : RingBuffer Z := mkRing 0 (16 - room) (replicate 16 0).
Definition packet_socket (p : Z) (r : RingBuffer Z) : LocalStreamSocket :=
  LocalStreamSocket_init 100 true <| peer := p |> <| s_ring := Some r |>.
(** Two packet sockets, the ring of the second with two bytes left; a datagram socket. *)
Definition sample_net : net unit :=
  mkNet sample empty_vfs
    {[1 := SStream (packet_socket 2 (full_ring 16)); 2 := SStream (packet_socket 1 (full_ring 2));
      3 := SDgram (LocalDatagramSocket_init 101)]}.


Lemma datagrams_in_order_witness : exists n', dgram_send_turn sample_net 3 3 read_end [[104]; [105]] 0 = Ret (Some (2, n')) /\
  messages n' 3 = [Some (mkDatagram 3 [104; 105])].
Proof.
  destruct (datagrams_in_order sample_net 3) as [Hs _].
  - exact sample_wf.
  - exists (LocalDatagramSocket_init 101). split; [reflexivity|]. destruct (wf_empty (replicate 256 (@None Datagram))) as [Hw Hc].
    + rewrite length_replicate. split; reflexivity.
    + exists 72057594037927936. reflexivity.
    + split; [exact Hw|]. split; [reflexivity|]. split; [|vm_compute; eauto].
      change (dg_ring (LocalDatagramSocket_init 101)) with (empty_ring (replicate 256 (@None Datagram))). rewrite Hc. constructor.
  - specialize (Hs 3 read_end [[104]; [105]] 0 ltac:(reflexivity)). destruct Hs as (n' & Hr & Hm & _).
    exists n'. split; [exact Hr|exact Hm].
Defined.

(** A socket that closes while its peer waits to read leaves it asleep: no event is
    triggered, and no thread is woken. *)
Lemma stream_close_wakes_nobody {D} (n n' : net D) v : stream_close n v = Ret n' -> n_kernel n' = n_kernel n.
Proof. unfold stream_close. intros H. inv_ret. destruct (_ =? 0); inv_ret; done. Qed.
