(* ===== verification/Printf.v ===== *)
(** * Formatted output: klib/cstdio.hpp and klib/cstdio.cpp

    [vprintf_template] calls its [put] once per character, in order: it is the function
    from the format and the arguments to the characters put and the count it returns.
    An argument is a slot of the [va_list]: a word, of which an [int] is the low half,
    or a pointer to bytes. A call that never returns is [Ret None].

    The last part proves what a format prints: a format is written out of pieces, and
    the text of a number is given by its numeral, defined on its own. *)

From S2P Require Import Prelude CString Algorithm.
From Stdlib Require Ascii String.

(** The bytes of a literal, and the byte of a character. *)
Definition bytes (s : string) : list Z := map (fun a => Z.of_N (Ascii.N_of_ascii a)) (String.list_ascii_of_string s).
Definition chr (c : string) : Z := default 0 (head (bytes c)).
Arguments bytes s%_string.
Arguments chr c%_string.

Module klib_printf.

Inductive arg := Word (z : Z) | Str (s : mem).

(** The variables of a directive. *)
Record options := mkOptions {
  alt_form : bool;
  long_int : bool;
  padding : Z;              (* usize *)
  is_zero_padding : bool;
  s_length : Z;             (* usize *)
  has_s_length : bool
}.
#[export] Instance eta_options : Settable options := fun o =>
  mkOptions (alt_form o) (long_int o) (padding o) (is_zero_padding o) (s_length o) (has_s_length o).
Definition no_options : options := mkOptions false false 0 false 0 false.

(** [va_arg] of a word, and what is left. *)
Definition va_word (args : list arg) : outcome (Z * list arg) :=
  match args with Word z :: args => Ret (u64 z, args) | _ => Undef end.
Definition va_pointer (args : list arg) : outcome (mem * list arg) :=
  match args with Str s :: args => Ret (s, args) | _ => Undef end.

Definition is_digit (c : Z) : bool := (48 <=? c) && (c <=? 57).

(** [while (format[i] >= '0' && format[i] <= '9')] *)
Fixpoint read_padding (format : mem) (padding : Z) : outcome (Z * mem) :=
  match format with
  | [] => Undef
  | c :: rest => if is_digit c then read_padding rest (u64 (padding * 10 + (c - 48))) else Ret (padding, format)
  end.

(** [used[d]] *)
Definition digit_char (high : bool) (d : Z) : Z :=
  if d <? 10 then 48 + d else (if high then 65 else 97) + (d - 10).

(** The loop [for (int di = digits; di >= 0; di--)]. *)
Fixpoint put_digits (high : bool) (value base : Z) (di : nat) : list Z :=
  digit_char high (Nat.iter di (fun v => v / base) value mod base) ::
  match di with O => [] | S di => put_digits high value base di end.

Definition base_of (c : Z) : Z :=
  if (c =? chr "x") || (c =? chr "X") then 16 else if c =? chr "o" then 8 else 10.
Definition prefix_of (o : options) (c : Z) : list Z :=
  if negb (alt_form o) then [] else
  if (c =? chr "x") || (c =? chr "X") then bytes "0x" else if c =? chr "o" then bytes "0" else [].

(** The conversions [u], [d], [o], [x] and [X]: what is put, and what is added to
    [written]. The sign is put without being counted. *)
Definition put_number (o : options) (c : Z) (word : Z) : outcome (list Z * Z) :=
  let base := base_of c in
  let prefix := prefix_of o c in
  let value := if long_int o then word else u32 word in
  let negative := (c =? chr "d") && ((if long_int o then i64 value else i32 value) <? 0) in
  let sign := if negative then bytes "-" else [] in
  let value := if negative then u64 (if long_int o then i64 (- i64 value) else i32 (- i32 value)) else value in
  let! digits := deref (klib.num_digits value base) in
  let pad := if negb (padding o =? 0) && (padding o >? digits) then padding o - digits - 1 else 0 in
  let out := put_digits (c =? chr "X") value base (Z.to_nat digits) in
  Ret (prefix ++ sign ++ replicate (Z.to_nat pad) (if is_zero_padding o then chr "0" else chr " ") ++ out,
       Z.of_nat (length prefix) + pad + Z.of_nat (length out)).

(** [for (usize i = 0; i < s_length; i++) put(str[i]);] *)
Fixpoint put_counted (s : mem) (n : nat) : outcome (list Z) :=
  match n with
  | O => Ret []
  | S n => let! c := deref (head s) in let! out := put_counted (tail s) n in Ret (c :: out)
  end.
Fixpoint put_string (s : mem) : outcome (list Z) :=
  match s with
  | [] => Undef
  | c :: s => if c =? 0 then Ret [] else let! out := put_string s in Ret (c :: out)
  end.

(** What a directive has put and counted, and where it leaves the format and the
    arguments. *)
Definition finished := (list Z * Z * mem * list arg)%type.

(** A turn of [while (1)] on a directive: [inl] when the loop goes on, [inr] when the
    directive is done. A character that means nothing is not passed over. *)
Definition directive_turn (o : options) (format : mem) (args : list arg)
    : outcome ((options * mem * list arg) + finished) :=
  let! c := deref (head format) in
  let next := tail format in
  if c =? chr "#" then Ret (inl (o <| alt_form := true |>, next, args))
  else if c =? chr "0" then Ret (inl (o <| is_zero_padding := true |>, next, args))
  else if c =? chr "l" then Ret (inl (o <| long_int := true |>, next, args))
  else if c =? chr "." then
    let! c := deref (head next) in
    if c =? chr "*" then
      let! (n, args) := va_word args in
      Ret (inl (o <| has_s_length := true |> <| s_length := n |>, tail next, args))
    else Ret (inl (o, next, args))
  else if c =? chr "*" then
    let! (n, args) := va_word args in Ret (inl (o <| padding := n |>, next, args))
  else if existsb (Z.eqb c) (bytes "udoxX") then
    let! (word, args) := va_word args in
    let! (out, written) := put_number o c word in
    Ret (inr (out, written, next, args))
  else if c =? chr "c" then
    let! (word, args) := va_word args in Ret (inr ([u8 word], 1, next, args))
  else if c =? chr "s" then
    let! (str, args) := va_pointer args in
    let! out := if has_s_length o then put_counted str (Z.to_nat (s_length o)) else put_string str in
    Ret (inr (out, Z.of_nat (length out), next, args))
  else if (49 <=? c) && (c <=? 57) then
    let! (n, next) := read_padding next (c - 48) in Ret (inl (o <| padding := n |>, next, args))
  else Ret (inl (o, format, args)).

(** The loop, [fuel] turns of it. *)
Fixpoint directive (fuel : nat) (o : options) (format : mem) (args : list arg) : outcome (option finished) :=
  match fuel with
  | O => Ret None
  | S fuel =>
      let! r := directive_turn o format args in
      match r with
      | inl (o, format, args) => directive fuel o format args
      | inr f => Ret (Some f)
      end
  end.

(** The loop over the format: what is put and [written]. Each turn passes over a
    character at least. *)
Fixpoint vprintf_loop (fuel : nat) (format : mem) (args : list arg) (written : Z) : outcome (option (Z * list Z)) :=
  match fuel with
  | O => Ret None
  | S fuel =>
      let! c := deref (head format) in
      if c =? 0 then Ret (Some (written, [])) else
      let! r :=
        if c =? chr "%" then directive (length format) no_options (tail format) args
        else Ret (Some ([c], 1, tail format, args)) in
      match r with
      | None => Ret None
      | Some (out, n, format, args) =>
          let! r := vprintf_loop fuel format args (i32 (written + n)) in
          Ret (match r with None => None | Some (written, rest) => Some (written, out ++ rest) end)
      end
  end.
Definition vprintf_template (format : mem) (args : list arg) : outcome (option (Z * list Z)) :=
  vprintf_loop (length format) format args 0.

(** The [put] of [snprintf]. *)
Definition buffer_put (size : Z) (b : outcome (mem * Z)) (c : Z) : outcome (mem * Z) :=
  let! (buffer, i) := b in
  if i <? u64 (size - 1) then
    let! _ := deref (buffer !! Z.to_nat i) in Ret (<[Z.to_nat i := c]> buffer, i + 1)
  else Ret (buffer, i).
Definition snprintf (buffer : mem) (size : Z) (format : mem) (args : list arg) : outcome (option (Z * mem)) :=
  let! r := vprintf_template format args in
  match r with
  | None => Ret None
  | Some (written, out) =>
      let! (buffer, i) := foldl (buffer_put size) (Ret (buffer, 0)) out in
      let! _ := deref (buffer !! Z.to_nat i) in
      Ret (Some (written, <[Z.to_nat i := 0]> buffer))
  end.

End klib_printf.
Import klib_printf.

(** ** Numerals *)

(** The digits of [v] in a base, the most significant first. *)
Fixpoint numeral_loop (fuel : nat) (base v : Z) : list Z :=
  match fuel with
  | O => []
  | S fuel => if v <? base then [v] else numeral_loop fuel base (v / base) ++ [v mod base]
  end.
Definition numeral (base v : Z) : list Z := numeral_loop 65 base v.
Definition value_of (base : Z) (ds : list Z) : Z := foldl (fun acc d => acc * base + d) 0 ds.

Lemma numeral_loop_ok fuel base v : 2 <= base -> 0 <= v < 2 ^ Z.of_nat (S fuel) ->
  let ds := numeral_loop (S fuel) base v in
  value_of base ds = v /\ Forall (fun d => 0 <= d < base) ds /\ (ds = [v] \/ exists d ds', ds = d :: ds' /\ 0 < d).
Proof.
  intros Hb. revert v. induction fuel as [|fuel IH]; intros v Hv; cbn [numeral_loop]; case_if;
    try (split_and!; [unfold value_of; simpl; lia|by repeat constructor; lia|by left]).
  { change (2 ^ Z.of_nat 1) with 2 in Hv. lia. }
  assert (Hq : 0 < v / base) by (apply Z.div_str_pos; lia).
  destruct (IH (v / base)) as (Hval & Hds & Hhd).
  { split; [lia|]. apply Z.div_lt_upper_bound; [lia|]. rewrite (Nat2Z.inj_succ (S fuel)), Z.pow_succ_r in Hv by lia. nia. }
  cbn [numeral_loop] in Hval, Hds, Hhd. split_and!.
  - unfold value_of in *. rewrite foldl_app, Hval. simpl. pose proof (Z.div_mod v base ltac:(lia)). lia.
  - apply Forall_app. split; [done|]. constructor; [|done]. apply Z.mod_pos_bound. lia.
  - right. destruct Hhd as [->|(d & ds' & -> & ?)]; simpl; eauto.
Qed.

Lemma put_digits_snoc high v base n :
  put_digits high v base (S n) = put_digits high (v / base) base n ++ [digit_char high (v mod base)].
Proof.
  induction n as [|n IH]; [done|].
  change (put_digits high v base (S (S n))) with
    (digit_char high (Nat.iter (S (S n)) (fun v => v / base) v mod base) :: put_digits high v base (S n)).
  rewrite IH, Nat.iter_succ_r. done.
Qed.

(** The digits the loop puts are those of the numeral. *)
Lemma put_digits_numeral fuel high base v n : 2 <= base -> 0 <= v < 2 ^ Z.of_nat fuel ->
  v < base ^ (Z.of_nat n + 1) -> (n = 0%nat \/ base ^ Z.of_nat n <= v) ->
  put_digits high v base n = map (digit_char high) (numeral_loop (S fuel) base v).
Proof.
  intros Hb. revert v n. induction fuel as [|fuel IH]; intros v n Hv Hlt Hge.
  - change (2 ^ Z.of_nat 0) with 1 in Hv. assert (v = 0) as -> by lia.
    assert (n = 0%nat) as ->. { destruct Hge as [|Hge]; [done|]. pose proof (Z.pow_pos_nonneg base (Z.of_nat n)). lia. }
    cbn [numeral_loop]. replace (0 <? base) with true by lia. simpl. by rewrite Z.mod_0_l by lia.
  - rewrite Nat2Z.inj_succ, Z.pow_succ_r in Hv by lia. cbn [numeral_loop]. case_if.
    + assert (n = 0%nat) as ->.
      { destruct n; [done|]. destruct Hge as [|Hge]; [done|]. rewrite Nat2Z.inj_succ, Z.pow_succ_r in Hge by lia.
        pose proof (Z.pow_pos_nonneg base (Z.of_nat n)). nia. }
      simpl. by rewrite Z.mod_small by lia.
    + destruct n as [|n]; [change (base ^ (Z.of_nat 0 + 1)) with (base ^ 1) in Hlt; lia|].
      rewrite put_digits_snoc, map_app, (IH (v / base) n); [done|..].
      * split; [apply Z.div_pos; lia|]. apply Z.div_lt_upper_bound; nia.
      * apply Z.div_lt_upper_bound; [lia|]. rewrite <- Z.pow_succ_r by lia. by replace (Z.succ (Z.of_nat n + 1)) with (Z.of_nat (S n) + 1) by lia.
      * destruct Hge as [|Hge]; [done|]. right. apply Z.div_le_lower_bound; [lia|].
        by rewrite Nat2Z.inj_succ, Z.pow_succ_r in Hge by lia.
Qed.

Lemma length_put_digits high v base n : length (put_digits high v base n) = S n.
Proof. by induction n as [|n IH]; simpl; [|rewrite IH]. Qed.

Lemma num_digits_numeral high base v : 2 <= base -> 0 <= v < 18446744073709551616 ->
  exists n, klib.num_digits v base = Some n /\ 0 <= n < 65 /\
    put_digits high v base (Z.to_nat n) = map (digit_char high) (numeral base v) /\
    Z.of_nat (length (numeral base v)) = n + 1.
Proof.
  intros Hb Hv.
  assert (exists n, klib.num_digits v base = Some n /\ 0 <= n < 65 /\ v < base ^ (n + 1) /\ (n = 0 \/ base ^ n <= v))
    as (n & Hn & Hr & Hlt & Hge).
  { destruct (decide (v = 0)) as [->|].
    - exists 0. split_and!; try lia. unfold klib.num_digits. cbn [klib.num_digits_loop]. by rewrite Z.div_0_l by lia.
    - destruct (klib.num_digits_loop_spec 64 0 v base Hb) as (m & Hm & Hr & Hlt & Hge); [done|lia|lia|].
      rewrite Z.add_0_l in Hm. exists m. split_and!; try done; lia. }
  exists n. split; [done|]. split; [done|].
  assert (put_digits high v base (Z.to_nat n) = map (digit_char high) (numeral base v)) as Hd.
  { apply put_digits_numeral; [done|done|by rewrite Z2Nat.id by lia|]. rewrite Z2Nat.id by lia. destruct Hge; [left; lia|by right]. }
  split; [done|]. apply (f_equal length) in Hd. rewrite length_put_digits, length_map in Hd. lia.
Qed.

(** ** The pieces of a format *)

Inductive width := NoWidth | Digits (w : Z) | Star (w : Z).
Inductive piece :=
| Lit (c : Z)                                                          (** a character *)
| Number (alt zero long : bool) (w : width) (c : Z) (word : Z)         (** [%#0wlc] *)
| Char (word : Z)                                                      (** [%c] *)
| Text (s rest : list Z)                                               (** [%s], of [s] *)
| Slice (n : Z) (s : mem).                                             (** [%.*s] *)

Definition opt (b : bool) (s : string) : list Z := if b then bytes s else [].
Definition width_format (w : width) : list Z :=
  match w with NoWidth => [] | Digits w => map (digit_char false) (numeral 10 w) | Star _ => bytes "*" end.
Definition width_of (w : width) : Z := match w with NoWidth => 0 | Digits w | Star w => w end.
Definition width_ok (w : width) : Prop :=
  match w with NoWidth => True | Digits w => 0 < w < 2147483648 | Star w => 0 <= w < 2147483648 end.
Definition width_args (w : width) : list arg := match w with Star w => [Word w] | _ => [] end.
Definition format_of (p : piece) : list Z :=
  match p with
  | Lit c => [c]
  | Number alt zero long w c _ => bytes "%" ++ opt alt "#" ++ opt zero "0" ++ width_format w ++ opt long "l" ++ [c]
  | Char _ => bytes "%c"
  | Text _ _ => bytes "%s"
  | Slice _ _ => bytes "%.*s"
  end.
Definition args_of (p : piece) : list arg :=
  match p with
  | Lit _ => []
  | Number _ _ _ w _ word => width_args w ++ [Word word]
  | Char word => [Word word]
  | Text s rest => [Str (s ++ 0 :: rest)]
  | Slice n s => [Word n; Str s]
  end.

(** The number an argument stands for. *)
Definition number (c : Z) (long : bool) (word : Z) : Z :=
  if c =? chr "d" then if long then i64 word else i32 word else if long then u64 word else u32 word.
Definition magnitude (c : Z) (long : bool) (word : Z) : list Z :=
  numeral (base_of c) (Z.abs (number c long word)).
Definition text_of (p : piece) : list Z :=
  match p with
  | Lit c => [c]
  | Number alt zero long w c word =>
      let ds := magnitude c long word in
      prefix_of (no_options <| alt_form := alt |>) c ++ opt (number c long word <? 0) "-" ++
      replicate (Z.to_nat (width_of w) - length ds) (chr (if zero then "0" else " ")) ++ map (digit_char (c =? chr "X")) ds
  | Char word => [u8 word]
  | Text s _ => s
  | Slice n s => take (Z.to_nat n) s
  end.
(** A minus sign is not counted. *)
Definition uncounted (p : piece) : Z :=
  match p with Number _ _ long _ c word => if number c long word <? 0 then 1 else 0 | _ => 0 end.

(** [%d] of the least 32-bit number is left out: its negation does not fit. *)
Definition piece_ok (p : piece) : Prop :=
  match p with
  | Lit c => c <> 0 /\ c <> chr "%"
  | Number _ _ long w c word =>
      c ∈ bytes "udoxX" /\ 0 <= word < 18446744073709551616 /\
      width_ok w /\
      ~ (c = chr "d" /\ long = false /\ i32 word = - 2147483648)
  | Char _ => True
  | Text s _ => Forall (fun c => c <> 0) s
  | Slice n s => 0 <= n <= Z.of_nat (length s) /\ n < 2147483648
  end.

(** ** What is printed *)

Section directives.
Implicit Types (o : options) (format : mem) (args : list arg) (f : finished) (k : nat).

Definition ends k o format args f := exists n, (n <= k)%nat /\ directive n o format args = Ret (Some f).

Lemma directive_more n m o format args f : (n <= m)%nat ->
  directive n o format args = Ret (Some f) -> directive m o format args = Ret (Some f).
Proof.
  revert m o format args. induction n as [|n IH]; intros m o format args Hm; [done|].
  destruct m as [|m]; [lia|]. cbn [directive]. destruct (directive_turn o format args) as [[[[o' format'] args']|]| |]; try done.
  intros H. simpl in *. apply IH; [lia|done].
Qed.

Lemma ends_directive k m o format args f : ends k o format args f -> (k <= m)%nat ->
  directive m o format args = Ret (Some f).
Proof. intros (n & Hn & H) Hm. eapply directive_more; [|done]. lia. Qed.

Lemma ends_turn k o format args o' format' args' f :
  directive_turn o format args = Ret (inl (o', format', args')) ->
  ends k o' format' args' f -> ends (S k) o format args f.
Proof. intros H (n & Hn & Hd). exists (S n). split; [lia|]. cbn [directive]. rewrite H. exact Hd. Qed.

Lemma ends_now k o format args f :
  directive_turn o format args = Ret (inr f) -> ends (S k) o format args f.
Proof. intros H. exists 1%nat. split; [lia|]. cbn [directive]. by rewrite H. Qed.

Lemma ends_flag (b : bool) (s : string) k o o' format args f :
  (b = true -> forall format, directive_turn o (bytes s ++ format) args = Ret (inl (o', format, args))) ->
  (b = false -> o' = o) ->
  ends k o' format args f -> (b = true -> length (bytes s) = 1%nat) ->
  ends (length (opt b s) + k) o (opt b s ++ format) args f.
Proof.
  intros Ht Hb H Hl. destruct b; simpl; [|by rewrite <- Hb by done]. rewrite Hl by done. eapply ends_turn; [by apply Ht|done].
Qed.
Lemma ends_more k k' o format args f : ends k o format args f -> (k <= k')%nat -> ends k' o format args f.
Proof. intros (n & Hn & ?) Hk. exists n. split; [lia|done]. Qed.
End directives.

(** The digits of a width are read back. *)
Lemma foldl_bound (ds : list Z) p : 0 <= p -> Forall (fun d => 0 <= d < 10) ds ->
  p <= foldl (fun acc d => acc * 10 + d) p ds.
Proof.
  revert p. induction ds as [|d ds IH]; intros p Hp Hds; [simpl; lia|].
  apply Forall_cons in Hds as [Hd Hds]. simpl. specialize (IH (p * 10 + d) ltac:(lia) Hds). lia.
Qed.

Lemma read_padding_digits ds format p : 0 <= p -> Forall (fun d => 0 <= d < 10) ds ->
  foldl (fun acc d => acc * 10 + d) p ds < 18446744073709551616 ->
  (exists c rest, format = c :: rest /\ is_digit c = false) ->
  read_padding (map (digit_char false) ds ++ format) p = Ret (foldl (fun acc d => acc * 10 + d) p ds, format).
Proof.
  intros Hp Hds Hlt (c & rest & -> & Hc). revert p Hp Hlt.
  induction ds as [|d ds IH]; intros p Hp Hlt; simpl; [by rewrite Hc|].
  apply Forall_cons in Hds as [Hd Hds]. specialize (IH Hds). simpl in Hlt.
  assert (digit_char false d = 48 + d) as -> by (unfold digit_char; by replace (d <? 10) with true by lia).
  replace (is_digit (48 + d)) with true by (unfold is_digit; lia).
  replace (48 + d - 48) with d by lia.
  pose proof (foldl_bound ds (p * 10 + d) ltac:(lia) Hds). rewrite u64_small by lia. apply IH; lia.
Qed.

Lemma ends_width w k o rest args f : width_ok w -> padding o = 0 ->
  (exists c format, rest = c :: format /\ is_digit c = false) ->
  ends k (o <| padding := width_of w |>) rest args f ->
  ends (length (width_format w) + k) o (width_format w ++ rest) (width_args w ++ args) f.
Proof.
  intros Hw Ho Hrest Hf. destruct w as [|w|w]; simpl in *.
  - destruct o. simpl in *. by subst.
  - apply (ends_more (S k)).
    2: { rewrite length_map. destruct (num_digits_numeral false 10 w) as (n & _ & ? & _ & ?); lia. }
    apply (ends_turn _ _ _ _ (o <| padding := w |>) rest args); [|done].
    unfold numeral. destruct (numeral_loop_ok 64 10 w) as (Hval & Hds & Hhd); [lia|change (Z.of_nat 65) with 65; lia|].
    assert (exists d ds, numeral_loop 65 10 w = d :: ds /\ 0 < d) as (d & ds & Heq & Hd).
    { destruct Hhd as [->|(d & ds & -> & Hd)]; eauto with lia. }
    rewrite Heq in *. apply Forall_cons in Hds as [Hd' Hds].
    assert (read_padding (map (digit_char false) ds ++ rest) d = Ret (w, rest)) as Hread.
    { unfold value_of in Hval. simpl in Hval. rewrite <- Hval. apply read_padding_digits; [lia|done|lia|done]. }
    assert (d ∈ [1; 2; 3; 4; 5; 6; 7; 8; 9]) as Hin by (rewrite !elem_of_cons; lia).
    transitivity (let! (n, next) := read_padding (map (digit_char false) ds ++ rest) d in
                  Ret (inl (B := finished) (o <| padding := n |>, next, args))); [|by rewrite Hread].
    rewrite !elem_of_cons in Hin. clear -Hin.
    by destruct Hin as [-> | [-> | [-> | [-> | [-> | [-> | [-> | [-> | [-> | []%elem_of_nil]]]]]]]]].
  - apply (ends_turn _ _ _ _ (o <| padding := w |>) rest args); [|done].
    unfold directive_turn. simpl. by rewrite u64_small by lia.
Qed.

(** The value converted is the absolute value of the number. *)
Lemma magnitude_value c (long : bool) word : 0 <= word < 18446744073709551616 ->
  ~ (c = chr "d" /\ long = false /\ i32 word = - 2147483648) ->
  let value := if long then word else u32 word in
  let negative := (c =? chr "d") && ((if long then i64 value else i32 value) <? 0) in
  negative = (number c long word <? 0) /\
  (if negative then u64 (if long then i64 (- i64 value) else i32 (- i32 value)) else value) = Z.abs (number c long word) /\
  Z.abs (number c long word) < 18446744073709551616.
Proof.
  intros Hw Hmin. cbv zeta. unfold number. destruct (Z.eqb_spec c (chr "d")) as [->|Hc]; simpl.
  - destruct long.
    + split; [done|]. case_if; word.
    + assert (i32 word <> - 2147483648) by tauto. replace (i32 (u32 word)) with (i32 word) by word.
      split; [done|]. case_if; word.
  - destruct long; (split; [|word]); symmetry; apply Z.ltb_ge; word.
Qed.

Lemma put_number_text o c word : c ∈ bytes "udoxX" -> 0 <= word < 18446744073709551616 ->
  0 <= padding o < 2147483648 -> ~ (c = chr "d" /\ long_int o = false /\ i32 word = - 2147483648) ->
  let ds := magnitude c (long_int o) word in
  let out := prefix_of o c ++ opt (number c (long_int o) word <? 0) "-" ++
    replicate (Z.to_nat (padding o) - length ds) (chr (if is_zero_padding o then "0" else " ")) ++
    map (digit_char (c =? chr "X")) ds in
  put_number o c word = Ret (out, Z.of_nat (length out) - (if number c (long_int o) word <? 0 then 1 else 0)).
Proof.
  intros Hc Hword Hp Hmin. cbv zeta. unfold put_number, magnitude.
  destruct (magnitude_value c (long_int o) word Hword Hmin) as (-> & -> & Hlt).
  assert (2 <= base_of c) by (unfold base_of; repeat case_if; lia).
  destruct (num_digits_numeral (c =? chr "X") (base_of c) (Z.abs (number c (long_int o) word))) as (n & -> & Hn & Hds & Hlen);
    [done|lia|].
  cbn [deref obind]. rewrite Hds. f_equal. set (ds := numeral _ _) in *.
  replace (Z.to_nat (if negb (padding o =? 0) && (padding o >? n) then padding o - n - 1 else 0))
    with (Z.to_nat (padding o) - length ds)%nat by (destruct (_ && _)%bool eqn:E; zbool; lia).
  f_equal.
  - destruct (is_zero_padding o); done.
  - rewrite !length_app, length_replicate, !length_map.
    destruct (number _ _ _ <? 0); simpl length; destruct (_ && _)%bool eqn:E; zbool; lia.
Qed.

Lemma ends_conversion o c word rest args k : c ∈ bytes "udoxX" -> 0 <= word < 18446744073709551616 ->
  0 <= padding o < 2147483648 -> ~ (c = chr "d" /\ long_int o = false /\ i32 word = - 2147483648) ->
  let out := prefix_of o c ++ opt (number c (long_int o) word <? 0) "-" ++
    replicate (Z.to_nat (padding o) - length (magnitude c (long_int o) word)) (chr (if is_zero_padding o then "0" else " ")) ++
    map (digit_char (c =? chr "X")) (magnitude c (long_int o) word) in
  ends (S k) o (c :: rest) (Word word :: args)
    (out, Z.of_nat (length out) - (if number c (long_int o) word <? 0 then 1 else 0), rest, args).
Proof.
  intros Hc Hw Hp Hmin. cbv zeta. apply ends_now.
  pose proof (put_number_text o c word Hc Hw Hp Hmin) as Ht. cbv zeta in Ht.
  transitivity (let! (out, written) := put_number o c word in
                Ret (inr (A := options * mem * list arg) (out, written, rest, args))); [|by rewrite Ht].
  rewrite <- (u64_small word Hw) at 2. clear -Hc. apply list_elem_of_In in Hc.
  by destruct Hc as [<- | [<- | [<- | [<- | [<- | []]]]]].
Qed.

(** A directive puts the text of its piece. *)
Lemma ends_piece p rest args : piece_ok p -> match p with Lit _ => False | _ => True end ->
  ends (length (tail (format_of p))) no_options (tail (format_of p) ++ rest) (args_of p ++ args)
    (text_of p, Z.of_nat (length (text_of p)) - uncounted p, rest, args).
Proof.
  destruct p as [c|alt zero long w c word|word|s more|n s]; intros Hok _Hp.
  - done.
  - destruct Hok as (Hc & Hword & Hw & Hmin). simpl args_of. simpl tail. rewrite <- !app_assoc, !length_app.
    apply (ends_flag _ _ _ _ (no_options <| alt_form := alt |>)); [by intros ->|by intros ->| |done].
    apply (ends_flag _ _ _ _ (no_options <| alt_form := alt |> <| is_zero_padding := zero |>)); [by intros ->|by intros ->| |done].
    apply ends_width; [done|done| |].
    { destruct long; simpl; [by exists 108; eauto|]. exists c, rest. split; [done|]. apply list_elem_of_In in Hc.
      by destruct Hc as [<- | [<- | [<- | [<- | [<- | []]]]]]. }
    apply (ends_flag _ _ _ _ (no_options <| alt_form := alt |> <| is_zero_padding := zero |>
      <| padding := width_of w |> <| long_int := long |>)); [by intros ->|by intros ->| |done].
    apply ends_conversion; [done|done| |done]. simpl. destruct w; simpl in *; lia.
  - apply (ends_now 0). unfold directive_turn. simpl. by replace (u8 (u64 word)) with (u8 word) by word.
  - apply (ends_now 0). unfold directive_turn. simpl.
    assert (put_string (s ++ 0 :: more) = Ret s) as ->; [|by rewrite Z.sub_0_r].
    induction s as [|c s IH]; [done|]. apply Forall_cons in Hok as [Hc Hok]. simpl.
    replace (c =? 0) with false by lia. by rewrite IH.
  - apply (ends_turn _ _ _ _ (no_options <| has_s_length := true |> <| s_length := n |>) (bytes "s" ++ rest) (Str s :: args)).
    { simpl in *. unfold directive_turn. simpl. by rewrite u64_small by lia. }
    apply ends_now. simpl. unfold directive_turn. simpl.
    assert (forall k s, (k <= length s)%nat -> put_counted s k = Ret (take k s)) as Hput.
    { clear. induction k as [|k IH]; intros s Hs; [done|]. destruct s as [|c s]; simpl in *; [lia|]. by rewrite IH by lia. }
    rewrite Hput by (simpl in *; lia). simpl. by rewrite Z.sub_0_r.
Qed.

(** A format made of pieces, with its terminator, its arguments and what it prints. *)
Definition format_all (ps : list piece) : mem := concat (map format_of ps).
Definition args_all (ps : list piece) : list arg := concat (map args_of ps).
Definition text_all (ps : list piece) : list Z := concat (map text_of ps).
Definition counted (ps : list piece) : Z := foldr (fun p n => Z.of_nat (length (text_of p)) - uncounted p + n) 0 ps.

Lemma counted_piece p : 0 <= Z.of_nat (length (text_of p)) - uncounted p <= Z.of_nat (length (text_of p)).
Proof.
  destruct p as [|alt zero long w c word| | |]; simpl; try lia.
  rewrite !length_app. destruct (number c long word <? 0); simpl; lia.
Qed.

Lemma format_nonempty p : piece_ok p -> exists c format, format_of p = c :: format /\ c <> 0 /\
  (if c =? chr "%" then match p with Lit _ => False | _ => True end else p = Lit c).
Proof.
  intros Hok. destruct p as [c|alt zero long w c word|word|s more|n s]; simpl in *;
    try (eexists _, _; split_and!; [reflexivity|done|done]).
  exists c, []. split_and!; try tauto. replace (c =? chr "%") with false; [done|]. symmetry. apply Z.eqb_neq. tauto.
Qed.

Lemma vprintf_loop_prints ps fuel rest args written : Forall piece_ok ps -> (length ps < fuel)%nat ->
  0 <= written -> written + Z.of_nat (length (text_all ps)) < 2147483648 ->
  vprintf_loop fuel (format_all ps ++ 0 :: rest) (args_all ps ++ args) written =
    Ret (Some (written + counted ps, text_all ps)).
Proof.
  intros Hok. revert fuel written. induction ps as [|p ps IH]; intros fuel written Hf Hw Hlt.
  { destruct fuel as [|fuel]; simpl in *; [lia|]. by rewrite Z.add_0_r. }
  apply Forall_cons in Hok as [Hp Hok]. destruct fuel as [|fuel]; [simpl in Hf; lia|]. simpl in Hf.
  destruct (format_nonempty p Hp) as (c & format & Heq & Hc & Hcase).
  unfold format_all, args_all, text_all in *. simpl in *. rewrite length_app in Hlt.
  pose proof (counted_piece p) as Hn.
  assert (forall n, n = Z.of_nat (length (text_of p)) - uncounted p ->
    (let! r := vprintf_loop fuel (concat (map format_of ps) ++ 0 :: rest) (concat (map args_of ps) ++ args) (i32 (written + n)) in
     Ret (match r with None => None | Some (written, rest) => Some (written, text_of p ++ rest) end)) =
    Ret (Some (written + (n + counted ps), text_of p ++ concat (map text_of ps)))) as Hrest.
  { intros n ->. replace (i32 (written + (Z.of_nat (length (text_of p)) - uncounted p)))
      with (written + (Z.of_nat (length (text_of p)) - uncounted p)) by word.
    rewrite IH; [|done|lia|lia|lia]. simpl. do 3 f_equal. lia. }
  rewrite <- !app_assoc, Heq. cbn [app vprintf_loop head deref obind].
  replace (c =? 0) with false by lia. destruct (c =? chr "%") eqn:E.
  - assert (ends (length (tail (format_of p))) no_options (tail (format_of p) ++ (concat (map format_of ps) ++ 0 :: rest))
      (args_of p ++ (concat (map args_of ps) ++ args)) (text_of p, Z.of_nat (length (text_of p)) - uncounted p,
        concat (map format_of ps) ++ 0 :: rest, concat (map args_of ps) ++ args)) as Hends by by apply ends_piece.
    rewrite Heq in Hends. simpl tail in *.
    rewrite (ends_directive _ _ _ _ _ _ Hends) by (simpl; rewrite length_app; lia). simpl. by apply Hrest.
  - subst p. simpl in Heq. injection Heq as <-. simpl. by apply (Hrest 1).
Qed.

Lemma buffer_puts size out buffer i : 0 < size < 18446744073709551616 -> size <= Z.of_nat (length buffer) ->
  (Z.of_nat i <= size - 1) ->
  foldl (buffer_put size) (Ret (buffer, Z.of_nat i)) out =
    Ret (splice i (take (Z.to_nat (size - 1) - i) out) buffer, Z.of_nat (i + length (take (Z.to_nat (size - 1) - i) out))).
Proof.
  intros Hs. revert buffer i. induction out as [|c out IH]; intros buffer i Hb Hi.
  { rewrite take_nil, splice_nil. simpl. by rewrite Nat.add_0_r. }
  cbn [foldl buffer_put obind]. rewrite u64_small by lia. destruct (Z.ltb_spec (Z.of_nat i) (size - 1)) as [Hlt|Hge].
  - rewrite Nat2Z.id. destruct (lookup_lt_is_Some_2 buffer i) as [x Hx]; [lia|]. rewrite Hx. cbn [deref obind].
    replace (Z.of_nat i + 1) with (Z.of_nat (S i)) by lia. rewrite IH by (rewrite ?length_insert; lia).
    replace (Z.to_nat (size - 1) - i)%nat with (S (Z.to_nat (size - 1) - S i)) by lia. cbn [take length].
    do 2 f_equal; [|lia]. set (l := take _ out). assert (length l <= Z.to_nat (size - 1) - S i)%nat by (unfold l; rewrite length_take; lia).
    apply list_eq. intros j. rewrite !lookup_splice by (rewrite ?length_insert; simpl; lia). simpl.
    repeat case_decide; try lia.
    + replace (j - i)%nat with (S (j - S i)) by lia. done.
    + assert (j = i) as -> by lia. rewrite Nat.sub_diag. rewrite list_lookup_insert_eq by lia. done.
    + by rewrite list_lookup_insert_ne by lia.
  - replace (Z.to_nat (size - 1) - i)%nat with 0%nat by lia. cbn [take]. rewrite splice_nil. simpl. rewrite Nat.add_0_r.
    rewrite IH by lia. replace (Z.to_nat (size - 1) - i)%nat with 0%nat by lia. by rewrite take_0, splice_nil, Nat.add_0_r.
Qed.

(** Reading a number back, digit by digit. *)
Definition digit_value (c : Z) : Z := if c <? 65 then c - 48 else if c <? 97 then c - 55 else c - 87.
Definition read_number (base : Z) (s : list Z) : Z := value_of base (map digit_value s).

Lemma read_number_chars high base ds : base <= 16 -> Forall (fun d => 0 <= d < base) ds ->
  read_number base (map (digit_char high) ds) = value_of base ds.
Proof.
  intros Hb Hds. unfold read_number. rewrite map_map. f_equal. induction Hds as [|d ds Hd Hds IH]; [done|].
  simpl. rewrite IH. f_equal. unfold digit_value, digit_char.
  destruct (d <? 10) eqn:?, high; zbool; repeat case_if; lia.
Qed.

(** C20. [printf] prints what its format says. For a format made of characters, numbers in
    base 8, 10 and 16 with their flags and widths, characters, strings and counted
    strings, the loops end, the arguments are taken in order, the text of each piece is
    put in order, and what is returned is its length less the minus signs. [snprintf]
    stores as much of it as fits before a terminator, within the buffer. The digits of a
    number, after its prefix, sign and padding, are the shortest ones that read back as
    its absolute value. *)
Theorem printf_prints ps rest args : Forall piece_ok ps -> Z.of_nat (length (text_all ps)) < 2147483648 ->
  let format := format_all ps ++ 0 :: rest in
  vprintf_template format (args_all ps ++ args) = Ret (Some (counted ps, text_all ps)) /\
  (forall buffer size, 0 < size < 18446744073709551616 -> size <= Z.of_nat (length buffer) ->
     snprintf buffer size format (args_all ps ++ args) =
       Ret (Some (counted ps, splice 0 (take (Z.to_nat (size - 1)) (text_all ps) ++ [0]) buffer))) /\
  (forall alt zero long w c word, Number alt zero long w c word ∈ ps ->
     exists before digits, text_of (Number alt zero long w c word) = before ++ digits /\
       width_of w <= Z.of_nat (length (text_of (Number alt zero long w c word))) /\
       read_number (base_of c) digits = Z.abs (number c long word) /\
       (length digits = 1%nat \/ head digits <> Some (chr "0"))).
Proof.
  intros Hok Hlen format.
  assert (vprintf_template format (args_all ps ++ args) = Ret (Some (counted ps, text_all ps))) as Hv.
  { apply vprintf_loop_prints; [done| |lia|lia]. unfold format, format_all. rewrite length_app. simpl. clear -Hok.
    induction Hok as [|p ps Hp Hps IH]; simpl; [lia|]. rewrite length_app.
    destruct (format_nonempty p Hp) as (c & f & -> & _). simpl. lia. }
  split; [done|split].
  - intros buffer size Hs Hb. unfold snprintf. rewrite Hv. cbn [obind].
    change (Ret (buffer, 0)) with (Ret (buffer, Z.of_nat 0)). rewrite (buffer_puts size (text_all ps) buffer 0) by lia. cbn [obind]. rewrite Nat.sub_0_r, Nat2Z.id. simpl Nat.add.
    set (l := take _ _). assert (length l <= Z.to_nat (size - 1))%nat by (unfold l; rewrite length_take; lia).
    destruct (lookup_lt_is_Some_2 (splice 0 l buffer) (length l)) as [x ->]; [rewrite length_splice; lia|]. cbn [deref obind].
    do 3 f_equal. unfold splice. simpl. rewrite <- app_assoc. simpl.
    rewrite insert_app_r_alt by lia. rewrite Nat.sub_diag, length_app. simpl.
    destruct (drop (length l) buffer) as [|y d] eqn:E; [apply (f_equal length) in E; rewrite length_drop in E; simpl in E; lia|].
    simpl. do 2 f_equal. rewrite <- drop_drop, E. done.
  - intros alt zero long w c word Hin. rewrite Forall_forall in Hok. destruct (Hok _ Hin) as (Hc & Hw & Hwidth & Hmin).
    assert (2 <= base_of c <= 16) by (unfold base_of; repeat case_if; lia).
    destruct (magnitude_value c long word Hw Hmin) as (_ & _ & Hlt).
    destruct (numeral_loop_ok 64 (base_of c) (Z.abs (number c long word))) as (Hval & Hds & Hhd); [lia|change (Z.of_nat 65) with 65; lia|].
    exists (prefix_of (no_options <| alt_form := alt |>) c ++ opt (number c long word <? 0) "-" ++
      replicate (Z.to_nat (width_of w) - length (magnitude c long word)) (chr (if zero then "0" else " "))),
      (map (digit_char (c =? chr "X")) (magnitude c long word)).
    unfold text_of. cbv zeta. split; [by rewrite <- !app_assoc|].
    split; [rewrite !length_app, length_replicate, !length_map; lia|].
    split; [rewrite read_number_chars by (done || lia); exact Hval|].
    unfold magnitude, numeral. destruct Hhd as [->|(d & ds & Heq & Hd)]; [by left|right]. rewrite Heq in *. simpl.
    apply Forall_cons in Hds as [Hd' _]. intros [= Heq']. unfold digit_char in Heq'.
    change (chr "0") with 48 in Heq'. destruct (d <? 10) eqn:?, (c =? chr "X"); zbool; lia.
Qed.

Lemma printf_prints_witness :
  let ps := [Lit 120; Number false true false (Digits 6) (chr "d") 4294967254; Lit 32;
             Number true false true NoWidth (chr "X") 48879; Text (bytes "ok") []] in
  let format := bytes "x%06d %#lX%s" ++ [0] in
  let args := [Word 4294967254; Word 48879; Str (bytes "ok" ++ [0])] in
  vprintf_template format args = Ret (Some (16, bytes "x-000042 0xBEEFok")) /\
  snprintf (replicate 8 1) 8 format args = Ret (Some (16, bytes "x-00004" ++ [0])).
Proof.
  intros ps format args. destruct (printf_prints ps [] []) as (Hv & Hs & _).
  - repeat constructor; try (vm_compute; done); vm_compute; intuition congruence.
  - vm_compute. done.
  - split; [exact Hv|]. exact (Hs (replicate 8 1) 8 ltac:(lia) ltac:(simpl; lia)).
Defined.

(** ** Where it departs from printf *)

(** A character that is no directive is never passed over: the loop goes on for ever,
    for "%%" and "%z" as for a % at the end of the format. *)
Lemma unknown_directive_never_ends c format fuel o args :
  c ∉ bytes "#0l.*udoxXcs123456789" -> directive fuel o (c :: format) args = Ret None.
Proof.
  intros Hc. induction fuel as [|fuel IH]; [done|]. cbn [directive].
  assert (directive_turn o (c :: format) args = Ret (inl (o, c :: format, args))) as ->; [|exact IH]. clear IH.
  set (l := bytes _) in Hc. vm_compute in l. subst l. rewrite !elem_of_cons, elem_of_nil in Hc.
  unfold directive_turn. cbn [head deref obind].
  repeat match goal with
  | |- context [chr ?s] => let v := eval vm_compute in (chr s) in change (chr s) with v
  | |- context [c =? ?n] => replace (c =? n) with false by lia
  end.
  replace (existsb (Z.eqb c) (bytes "udoxX")) with false.
  2: { symmetry. apply not_true_iff_false. intros (x & Hx & ->%Z.eqb_eq)%existsb_exists. simpl in Hx. lia. }
  replace ((49 <=? c) && (c <=? 57)) with false by lia. done.
Qed.

(** So [mem::dma::debug_stats] (mem/dma.cpp) does not get past its second message. *)
Lemma dma_stats_never_printed used total :
  vprintf_template (bytes "  Total: %zu MB" ++ [10; 0]) [Word total] = Ret None /\
  vprintf_template (bytes "  Used:  %zu MB (%zu%%)" ++ [10; 0]) [Word used; Word total] = Ret None.
Proof. by split. Qed.

(** [%.*s] does not stop at the end of a string shorter than its count. *)
Lemma counted_string_overruns : vprintf_template (bytes "%.*s" ++ [0]) [Word 5; Str (bytes "hi" ++ [0])] = Undef.
Proof. reflexivity. Qed.

(** A field width of [%s] is ignored, a precision of a number is taken for its width, and
    blanks come after the sign. *)
Lemma widths_misread :
  vprintf_template (bytes "%8s|%.3u|%4d" ++ [0]) [Str (bytes "hi" ++ [0]); Word 7; Word 4294967289] =
    Ret (Some (11, bytes "hi|  7|-   7")).
Proof. reflexivity. Qed.

(** [snprintf] with size 0 takes it for 2^64 bytes. *)
Lemma snprintf_size_zero : snprintf (replicate 2 1) 0 (bytes "abc" ++ [0]) [] = Undef.
Proof. reflexivity. Qed.
