(* ===== verification/Dev.v ===== *)
(** * Device nodes: dev/devnode, dev/simple_char.hpp, dev/io_service

    Device numbers, the table of drivers that [mknod] makes nodes from, the devices
    that are nothing but a [read] and a [write], and the queue of the I/O thread. The
    ports and the memory behind /dev/port and /dev/mem are arguments. *)

From S2P Require Import Prelude Algorithm Vfs Tmpfs Sched VfsCalls.
From Stdlib Require Import Btauto.

Module dev.

(** ** Device numbers *)

(** The masks [~0xFFF] and [~0xFF] of 32 bits. *)
Definition major_dev_id (dev_id : Z) : Z :=
  Z.land (Z.shiftr dev_id 8) 4095 .| (u32 (Z.shiftr dev_id 32) &~ 4095).
Definition minor_dev_id (dev_id : Z) : Z :=
  Z.land dev_id 255 .| (u32 (Z.shiftr dev_id 12) &~ 255).
Definition make_dev_id (major_id minor_id : Z) : Z :=
  Z.land minor_id 255 .| Z.shiftl (Z.land major_id 4095) 8 .|
  u64 (Z.shiftl (minor_id &~ 255) 12) .| u64 (Z.shiftl (major_id &~ 4095) 32).

(** ** The drivers *)

(** What the closure of a [NodeInitializer] makes. *)
Inductive CharDevNode :=
| MemDevNode | NullDevNode | PortDevNode | ZeroDevNode | FullDevNode
| RandomDevNode (state : Z)
| TTYDevNode | ConsoleDevNode | PseudoTerminalMultiplexer
| FramebufferDevNode | KeyboardDevNode | MouseDevNode.

Record NodeInitializer (T : Type) := mkInitializer { dev_id : Z; create : T }.
Arguments mkInitializer {T}. Arguments dev_id {T}. Arguments create {T}.

Section registry.
Context {T : Type}.

Definition register_node_initializer (major minor : Z) (create : T) (initializers : list (NodeInitializer T))
    : list (NodeInitializer T) := initializers ++ [mkInitializer (make_dev_id major minor) create].

(** The loop of [create_node]; the node keeps its number. *)
Fixpoint create_node (initializers : list (NodeInitializer T)) (id : Z) : option (T * Z) :=
  match initializers with
  | [] => None
  | initializer :: rest => if dev_id initializer =? id then Some (create initializer, id) else create_node rest id
  end.
End registry.

(** A [RandomDevNode] starts from 1337. *)
Definition random_init : CharDevNode := RandomDevNode 1337.

(** [name] is used by nothing. *)
Definition init_devices : list (NodeInitializer CharDevNode) :=
  let register major minor create l := register_node_initializer major minor create l in
  register 13 65 MouseDevNode (register 13 64 KeyboardDevNode (register 29 0 FramebufferDevNode
  (register 5 2 PseudoTerminalMultiplexer (register 5 1 ConsoleDevNode (register 5 0 TTYDevNode
  (register 1 9 random_init (register 1 8 random_init (register 1 7 FullDevNode (register 1 5 ZeroDevNode
  (register 1 4 PortDevNode (register 1 3 NullDevNode (register 1 1 MemDevNode [])))))))))))).

(** ** Reading and writing *)

Definition ENOSPC : Z := 28.

(** The generator: [state ^= state << 13] and so on. *)
Definition xorshift (state : Z) : Z :=
  let state := Z.lxor state (u32 (Z.shiftl state 13)) in
  let state := Z.lxor state (Z.shiftr state 17) in
  Z.lxor state (u32 (Z.shiftl state 5)).
Fixpoint random_read (n : nat) (state : Z) : list Z * Z :=
  match n with
  | O => ([], state)
  | S n =>
      let state := xorshift state in
      let (out, last) := random_read n state in
      (Z.land state 255 :: out, last)
  end.

(** [for (usize i = 0; i < actual_count; i++) buf[i] = cpu::in<u8>(offset + i);], where a
    port of 16 bits is read by [port]. *)
Definition port_count (offset count : Z) : Z :=
  if u64 (offset + count) >? 65536 then 65536 - offset else count.
Fixpoint port_read (port : Z -> Z) (offset : Z) (n : nat) : list Z :=
  match n with O => [] | S n => port (u16 offset) :: port_read port (offset + 1) n end.
Fixpoint port_write (offset : Z) (buf : list Z) : list (Z * Z) :=
  match buf with [] => [] | b :: buf => (u16 offset, b) :: port_write (offset + 1) buf end.

(** [memcpy] from and to physical memory, byte by byte. *)
Fixpoint mem_read (m : gmap Z Z) (addr : Z) (n : nat) : outcome (list Z) :=
  match n with
  | O => Ret []
  | S n => let! b := deref (m !! addr) in let! out := mem_read m (addr + 1) n in Ret (b :: out)
  end.
Fixpoint mem_write (m : gmap Z Z) (addr : Z) (buf : list Z) : outcome (gmap Z Z) :=
  match buf with
  | [] => Ret m
  | b :: buf => let! _ := deref (m !! addr) in mem_write (<[addr := b]> m) (addr + 1) buf
  end.

Section devices.
Context (port : Z -> Z).

(** The result, the bytes read and the device after it; the nodes of other files have
    their own calls. *)
Definition dev_read (d : CharDevNode) (m : gmap Z Z) (count offset : Z) : outcome (Z * list Z * CharDevNode) :=
  match d with
  | NullDevNode => Ret (0, [], d)
  | ZeroDevNode | FullDevNode => Ret (count, replicate (Z.to_nat count) 0, d)
  | MemDevNode => let! out := mem_read m offset (Z.to_nat count) in Ret (count, out, d)
  | PortDevNode =>
      if offset >=? 65536 then Ret (0, [], d) else
      let n := port_count offset count in Ret (n, port_read port offset (Z.to_nat n), d)
  | RandomDevNode state => let (out, state) := random_read (Z.to_nat count) state in Ret (count, out, RandomDevNode state)
  | _ => Undef
  end.

(** The result, the memory and the ports written. *)
Definition dev_write (d : CharDevNode) (m : gmap Z Z) (buf : list Z) (offset : Z) : outcome (Z * gmap Z Z * list (Z * Z)) :=
  let count := Z.of_nat (length buf) in
  match d with
  | NullDevNode | ZeroDevNode | RandomDevNode _ => Ret (count, m, [])
  | FullDevNode => Ret (- ENOSPC, m, [])
  | MemDevNode => let! m := mem_write m offset buf in Ret (count, m, [])
  | PortDevNode =>
      if offset >=? 65536 then Ret (0, m, []) else
      let n := port_count offset count in Ret (n, m, port_write offset (take (Z.to_nat n) buf))
  | _ => Undef
  end.

(** [CharDevNode::seek] and [SeekableCharDevNode::seek]; [position + offset] is
    of 64 bits. *)
Definition dev_seek (d : CharDevNode) (position offset whence : Z) : Z :=
  match d with
  | NullDevNode | ZeroDevNode | FullDevNode | RandomDevNode _ => 0
  | MemDevNode | PortDevNode =>
      if whence =? SEEK_SET then offset else if whence =? SEEK_CUR then i64 (position + offset) else - EINVAL
  | _ => - ESPIPE
  end.
End devices.

(** ** The I/O service *)

(** A task is its function and two arguments. *)
Record IoService := mkIoService { task_list : list (Z * Z * Z); queue_event : Z }.
#[export] Instance eta_IoService : Settable IoService := fun s => mkIoService (task_list s) (queue_event s).

Definition push (task : Z * Z * Z) (s : IoService) (k : kernel) : outcome (IoService * kernel) :=
  let s := s <| task_list ::= fun l => l ++ [task] |> in
  let! (k, _) := trigger k (queue_event s) true INT_MAX in
  Ret (s, k).
Definition pop (s : IoService) : option (Z * Z * Z) * IoService :=
  match task_list s with [] => (None, s) | task :: rest => (Some task, s <| task_list := rest |>) end.

End dev.
Import dev.

(** ** Properties *)

Lemma testbit_u w x n : 0 < w -> 0 <= n -> Z.testbit (x mod 2 ^ w) n = Z.testbit x n && (n <? w).
Proof.
  intros Hw Hn. destruct (Z.ltb_spec n w).
  - rewrite Z.mod_pow2_bits_low by lia. by rewrite andb_true_r.
  - rewrite Z.mod_pow2_bits_high by lia. by rewrite andb_false_r.
Qed.
Lemma testbit_ones w n : 0 <= w -> 0 <= n -> Z.testbit (Z.ones w) n = (n <? w).
Proof.
  intros Hw Hn. destruct (Z.ltb_spec n w); [by rewrite Z.ones_spec_low by lia|by rewrite Z.ones_spec_high by lia].
Qed.
Lemma testbit_word w x n : 0 < w -> 0 <= x < 2 ^ w -> w <= n -> Z.testbit x n = false.
Proof. intros Hw Hx Hn. rewrite <- (Z.mod_small x (2 ^ w)) by lia. by rewrite Z.mod_pow2_bits_high by lia. Qed.

(** The bits of a device number: 8 of the minor, 12 of the major, and the rest of both. *)
Lemma testbit_dev major minor n : 0 <= n ->
  Z.testbit (make_dev_id major minor) n =
    (Z.testbit minor n && (n <? 8)) || (Z.testbit major (n - 8) && (8 <=? n) && (n <? 20)) ||
    (Z.testbit minor (n - 12) && (20 <=? n) && (n <? 64)) || (Z.testbit major (n - 32) && (44 <=? n) && (n <? 64)).
Proof.
  intros Hn. unfold make_dev_id, u64. change 255 with (Z.ones 8). change 4095 with (Z.ones 12).
  change 18446744073709551616 with (2 ^ 64).
  rewrite !Z.lor_spec, !testbit_u, !Z.shiftl_spec, !Z.land_spec, testbit_ones by lia. f_equal; [f_equal; [f_equal|]|].
  - destruct (Z.leb_spec 8 n); [rewrite testbit_ones by lia|rewrite !(Z.testbit_neg_r _ (n - 8)) by lia; done].
    rewrite andb_true_r. f_equal. apply eq_bool_prop_intro. rewrite !Is_true_true. lia.
  - destruct (Z.leb_spec 12 n); [|rewrite (Z.testbit_neg_r _ (n - 12)), (Z.testbit_neg_r minor) by lia; done].
    rewrite Z.ldiff_spec, testbit_ones by lia. rewrite <- !andb_assoc. do 2 f_equal.
    apply eq_bool_prop_intro. rewrite !Is_true_true, negb_true_iff. lia.
  - destruct (Z.leb_spec 32 n); [|rewrite (Z.testbit_neg_r _ (n - 32)), (Z.testbit_neg_r major) by lia; done].
    rewrite Z.ldiff_spec, testbit_ones by lia. rewrite <- !andb_assoc. do 2 f_equal.
    apply eq_bool_prop_intro. rewrite !Is_true_true, negb_true_iff. lia.
Qed.

(** Settles the comparisons that the context decides. *)
Ltac decide_range :=
  repeat match goal with
  | |- context [?a <? ?b] => first [replace (a <? b) with true by lia | replace (a <? b) with false by lia]
  | |- context [?a <=? ?b] => first [replace (a <=? b) with true by lia | replace (a <=? b) with false by lia]
  end.

(** A device number holds its major and minor numbers, all 32 bits of each, and so
    the table gives each number the device registered for it, the first if there are
    several, and none to a number that was not. *)
Theorem device_numbers major minor : 0 <= major < 4294967296 -> 0 <= minor < 4294967296 ->
  major_dev_id (make_dev_id major minor) = major /\ minor_dev_id (make_dev_id major minor) = minor /\
  (forall T (create : T) l,
     create_node (register_node_initializer major minor create l) (make_dev_id major minor) =
       match create_node l (make_dev_id major minor) with
       | Some d => Some d | None => Some (create, make_dev_id major minor)
       end /\
     forall M m, 0 <= M < 4294967296 -> 0 <= m < 4294967296 -> (M, m) <> (major, minor) ->
       create_node (register_node_initializer major minor create l) (make_dev_id M m) =
         create_node l (make_dev_id M m)).
Proof.
  assert (forall M m, 0 <= M < 4294967296 -> 0 <= m < 4294967296 ->
    major_dev_id (make_dev_id M m) = M /\ minor_dev_id (make_dev_id M m) = m) as Hback.
  { intros M m HM Hm. change 4294967296 with (2 ^ 32) in *.
    pose proof (fun n => testbit_word 32 M n ltac:(lia) HM) as HbM. pose proof (fun n => testbit_word 32 m n ltac:(lia) Hm) as Hbm.
    unfold major_dev_id, minor_dev_id, u32. change 255 with (Z.ones 8). change 4095 with (Z.ones 12).
    change 4294967296 with (2 ^ 32).
    split; apply Z.bits_inj'; intros n Hn; rewrite Z.lor_spec, Z.land_spec, Z.ldiff_spec, testbit_u, !Z.shiftr_spec, testbit_ones,
      !testbit_dev by lia.
    - replace (n + 8 - 8) with n by lia. replace (n + 32 - 32) with n by lia.
      destruct (decide (n < 12)); [|rewrite (Hbm (n + 32 - 12)) by lia; destruct (decide (n < 32)); [|rewrite (HbM n) by lia]];
        decide_range; btauto.
    - replace (n + 12 - 12) with n by lia.
      destruct (decide (n < 8)); [|destruct (decide (n < 32)); [|rewrite (Hbm n) by lia]]; decide_range; btauto. }
  intros HM Hm. destruct (Hback _ _ HM Hm) as [Hmaj Hmin]. split; [done|]. split; [done|].
  intros T create l. unfold register_node_initializer.
  assert (forall M m id, @create_node T (l ++ [mkInitializer (make_dev_id M m) create]) id =
    match create_node l id with Some d => Some d
    | None => if make_dev_id M m =? id then Some (create, id) else None end) as Happ.
  { intros M m id. induction l as [|i l IH]; simpl; [by case_match|]. destruct (dev_id i =? id); [done|exact IH]. }
  rewrite Happ, Z.eqb_refl. split; [done|]. intros M' m' HM' Hm' Hne. rewrite Happ.
  destruct (Hback _ _ HM' Hm') as [Hmaj' Hmin']. case_match; [done|].
  destruct (Z.eqb_spec (make_dev_id major minor) (make_dev_id M' m')) as [Heq|]; [|done].
  rewrite Heq in Hmaj, Hmin. congruence.
Qed.

Lemma device_numbers_witness :
  major_dev_id (make_dev_id 29 70000) = 29 /\ minor_dev_id (make_dev_id 29 70000) = 70000 /\
  create_node init_devices (make_dev_id 1 3) = Some (NullDevNode, 259).
Proof.
  destruct (device_numbers 29 70000) as (? & ? & _); [lia|lia|]. split_and!; [done|done|vm_compute; reflexivity].
Defined.

(** The generator never gets stuck at 0. *)
Lemma lxor_shift_nonzero s a : 0 < a -> 0 < s < 4294967296 -> Z.lxor s (u32 (Z.shiftl s a)) <> 0.
Proof.
  intros Ha Hs H%Z.lxor_eq. enough (forall n : nat, Z.testbit s (Z.of_nat n) = false) as Hz.
  { assert (s = 0); [|lia]. apply Z.bits_inj'. intros n Hn. rewrite Z.bits_0. rewrite <- (Z2Nat.id n) by lia. apply Hz. }
  intros n. induction (lt_wf n) as [n _ IH]. rewrite H. unfold u32. change 4294967296 with (2 ^ 32).
  rewrite testbit_u, Z.shiftl_spec by lia. destruct (decide (Z.of_nat n < a)) as [|Hn].
  - by rewrite Z.testbit_neg_r by lia.
  - replace (Z.of_nat n - a) with (Z.of_nat (Z.to_nat (Z.of_nat n - a))) by lia. by rewrite IH by lia.
Qed.
Lemma lxor_range a b : 0 <= a < 4294967296 -> 0 <= b < 4294967296 -> 0 <= Z.lxor a b < 4294967296.
Proof.
  intros Ha Hb. assert (0 <= Z.lxor a b) by (apply Z.lxor_nonneg; lia). split; [done|].
  change 4294967296 with (2 ^ 32) in *. rewrite <- (Z.mod_small (Z.lxor a b) (2 ^ 32)); [apply Z.mod_pos_bound; lia|].
  split; [done|]. destruct (decide (Z.lxor a b = 0)) as [->|]; [lia|]. apply Z.log2_lt_pow2; [lia|].
  pose proof (Z.log2_lxor a b ltac:(lia) ltac:(lia)).
  assert (forall x, 0 <= x < 2 ^ 32 -> Z.log2 x < 32) as Hlog.
  { intros x Hx. destruct (decide (x = 0)) as [->|]; [by vm_compute|]. apply Z.log2_lt_pow2; lia. }
  pose proof (Hlog a Ha). pose proof (Hlog b Hb). lia.
Qed.
Lemma xorshift_nonzero s : 0 < s < 4294967296 -> 0 < xorshift s < 4294967296.
Proof.
  assert (forall a s, 0 < a -> 0 < s < 4294967296 -> 0 < Z.lxor s (u32 (Z.shiftl s a)) < 4294967296) as Hl.
  { intros a x Ha Hx. pose proof (lxor_shift_nonzero x a Ha Hx). pose proof (lxor_range x (u32 (Z.shiftl x a)) ltac:(lia) ltac:(word)). lia. }
  intros Hs. unfold xorshift. pose proof (Hl 13 s ltac:(lia) Hs) as H1. set (x := Z.lxor s _) in *.
  assert (0 < Z.lxor x (Z.shiftr x 17) < 4294967296) as H2; [|by apply Hl].
  rewrite Z.shiftr_div_pow2 by lia. change (2 ^ 17) with 131072.
  pose proof (lxor_range x (x / 131072) ltac:(lia) ltac:(lia)).
  assert (Z.lxor x (x / 131072) <> 0); [|lia]. intros Heq%Z.lxor_eq. lia.
Qed.

(** But every node of /dev/urandom starts from the same state, so a process that opens
    one knows the bytes that another reads. *)
Lemma urandom_is_constant port m :
  dev_read port random_init m 4 0 = Ret (4, fst (random_read 4 1337), RandomDevNode (snd (random_read 4 1337))) /\
  create_node init_devices (make_dev_id 1 9) = Some (RandomDevNode 1337, make_dev_id 1 9).
Proof. split; [|vm_compute; reflexivity]. reflexivity. Qed.
