(* ===== verification/Tty.v ===== *)
(** * Terminals: dev/tty/tty, dev/tty/pty, dev/tty/console

    A terminal is its settings, as the bytes user space reads and writes, and the
    process group in its foreground. A pseudoterminal is two ends with a ring buffer
    each; what the master writes goes through the line discipline to the slave, and
    back. The console's keyboard and screen are arguments. *)

From S2P Require Import Prelude Algorithm CString Vector RingBuffer Links Vfs Tmpfs Context Cred Sched FdTable VfsCalls VfsTree Process Wait Objects Printf.

Module tty.

(** ** Data *)

(** [termios] is the 44 bytes of a [ktermios]: four words of flags, the line, 19 control
    characters and two speeds; [winsize] is 8 bytes. *)
Record Terminal := mkTerminal {
  termios : mem;
  winsize : mem;
  foreground_process_group : Z;
  t_session : Z
}.
#[export] Instance eta_Terminal : Settable Terminal := fun t =>
  mkTerminal (termios t) (winsize t) (foreground_process_group t) (t_session t).

Record PseudoTerminalEnd := mkEnd {
  terminal : Z;
  peer : Z;
  pty_event : Z;
  pty_ring : RingBuffer Z;
  pts_num : Z;
  slave : bool;
  packet_mode : bool
}.
#[export] Instance eta_PseudoTerminalEnd : Settable PseudoTerminalEnd := fun e =>
  mkEnd (terminal e) (peer e) (pty_event e) (pty_ring e) (pts_num e) (slave e) (packet_mode e).

(** [controlling_terminal] is the member of [Session], by session: a vnode. *)
Record ttys := mkTtys {
  t_krn : kernel;
  terminals : gmap Z Terminal;
  ptys : gmap Z PseudoTerminalEnd;
  pty_bitmap : Bitmap.t;
  controlling_terminal : gmap Z Z
}.
#[export] Instance eta_ttys : Settable ttys := fun s =>
  mkTtys (t_krn s) (terminals s) (ptys s) (pty_bitmap s) (controlling_terminal s).

Definition put_terminal (t : Z) (x : Terminal) (s : ttys) : ttys := s <| terminals ::= <[t := x]> |>.
Definition put_pty (e : Z) (x : PseudoTerminalEnd) (s : ttys) : ttys := s <| ptys ::= <[e := x]> |>.

(** ** Settings (Linux ABI) *)

Definition c_iflag (t : Terminal) : Z := word_at 4 0 (termios t).
Definition c_oflag (t : Terminal) : Z := word_at 4 4 (termios t).
Definition c_lflag (t : Terminal) : Z := word_at 4 12 (termios t).
Definition c_cc (t : Terminal) (i : nat) : Z := default 0 (termios t !! (17 + i)%nat).

Definition INLCR := 64.
Definition IGNCR := 128.
Definition ICRNL := 256.
Definition ONLCR := 4.
Definition ISIG := 1.
Definition ICANON := 2.
Definition ECHO := 8.
Definition VINTR : nat := 0.
Definition VQUIT : nat := 1.
Definition VERASE : nat := 2.
Definition VKILL : nat := 3.
Definition VEOF : nat := 4.
Definition VMIN : nat := 6.
Definition VSTART : nat := 8.
Definition VSTOP : nat := 9.
Definition VSUSP : nat := 10.
Definition SIGINT := 2.
Definition SIGQUIT := 3.
Definition SIGTSTP := 20.
Definition SIGWINCH := 28.

(** [Terminal::Terminal], on the memory [m] of the new object: the members it does not
    set keep what was there. *)
Definition Terminal_init (m : Terminal) : Terminal :=
  let cc i v l := <[(17 + i)%nat := v]> l in
  let word off v l := splice off (le_bytes 4 v) l in
  m <| termios ::= fun l =>
    cc VSUSP 26 (cc VSTOP 19 (cc VSTART 17 (cc VEOF 4 (cc VKILL 21 (cc VERASE 8 (cc VQUIT 28 (cc VINTR 3 (cc VMIN 1
    (word 40%nat 38400 (word 36%nat 38400 (word 8%nat 0 (word 12%nat (ECHO .| ICANON .| ISIG) (word 4%nat ONLCR (word 0%nat ICRNL l)))))))))))))) |>.

(** ** The line discipline *)

(** A [char] is signed, a control character is not. *)
Definition is_cc (t : Terminal) (c : Z) (i : nat) : bool := i8 c =? c_cc t i.

Definition process_output_char (t : Terminal) (c : Z) : list Z :=
  (if (c =? 10) && (c_oflag t &? ONLCR) then [13] else []) ++ [c].

(** The characters put, and the signal sent to the foreground group. *)
Definition process_input_char (t : Terminal) (c : Z) : list Z * option Z :=
  if (c =? 13) && (c_iflag t &? IGNCR) then ([], None) else
  let before := if (c =? 13) && (c_iflag t &? ICRNL) then [10]
                else if (c =? 10) && (c_iflag t &? INLCR) then [13] else [] in
  let signal := if is_cc t c VINTR then Some SIGINT else if is_cc t c VQUIT then Some SIGQUIT
                else if is_cc t c VSUSP then Some SIGTSTP else None in
  match (if c_lflag t &? ISIG then signal else None) with
  | Some signal => (before, Some signal)
  | None => (before ++ [c], None)
  end.

(** [foreground_process_group->send_signal(signal)]. *)
Definition signal_foreground (t : Terminal) (signal : Z) (k : kernel) : outcome kernel :=
  if foreground_process_group t =? 0 then Undef else group_send_signal k (foreground_process_group t) signal.

(** [put] for each of some characters: whether one of them was refused. *)
Fixpoint put_all (cs : list Z) (r : RingBuffer Z) : bool * RingBuffer Z :=
  match cs with
  | [] => (false, r)
  | c :: cs =>
      let (n, r) := write r [c] 1 in
      let (e, r) := put_all cs r in
      ((n =? 0) || e, r)
  end.

(** The loop of [write] over the characters: how many it passes over. A character of
    which a part was refused is not counted. *)
Fixpoint write_chars (process : Z -> list Z * option Z) (send : Z -> kernel -> outcome kernel)
    (buf : list Z) (i : Z) (r : RingBuffer Z) (k : kernel) : outcome (Z * RingBuffer Z * kernel) :=
  match buf with
  | [] => Ret (i, r, k)
  | c :: buf =>
      let (cs, signal) := process c in
      let (refused, r) := put_all cs r in
      let! k := match signal with Some signal => send signal k | None => Ret k end in
      if refused then Ret (i, r, k) else write_chars process send buf (i + 1) r k
  end.

(** ** Pseudoterminals *)

Definition PTY_MAX : Z := 256.

(** The loop of the constructor: the lowest free number, if any, is taken. *)
Fixpoint take_pts (n : nat) (i : Z) (b : Bitmap.t) : outcome (Z * Bitmap.t) :=
  match n with
  | O => Ret (-1, b)
  | S n =>
      let! used := Bitmap.get b i in
      if used then take_pts n (i + 1) b
      else let! b := Bitmap.set b i true in Ret (i, b)
  end.
Definition PseudoTerminalEnd_init (term event : Z) (is_slave : bool) (b : Bitmap.t) : outcome (PseudoTerminalEnd * Bitmap.t) :=
  let! (n, b) := if is_slave then take_pts (Z.to_nat PTY_MAX) 0 b else Ret (-1, b) in
  Ret (mkEnd term 0 event (empty_ring (replicate 4096 0)) n is_slave false, b).

Definition pty_of (s : ttys) (e : Z) : outcome PseudoTerminalEnd := deref (ptys s !! e).

(** [read], up to its wait or to its end. *)
Definition pty_read_turn (e : Z) (desc : FileDescription) (count : Z) (s : ttys) : outcome (option (Z * list Z * ttys)) :=
  let! x := pty_of s e in
  if is_empty (pty_ring x) then
    if d_flags desc &? O_NONBLOCK then Ret (Some (- EWOULDBLOCK, [], s)) else Ret None
  else
    let '(n, out, r) :=
      if packet_mode x && (count >? 0) then
        let '(n, out, r) := read (pty_ring x) (count - 1) in (n + 1, 0 :: out, r)
      else read (pty_ring x) count in
    let s := put_pty e (x <| pty_ring := r |>) s in
    let! y := pty_of s (peer x) in
    let! k := trigger_all (t_krn s) (pty_event y) in
    Ret (Some (n, out, s <| t_krn := k |>)).

(** [write], likewise. *)
Definition pty_write_turn (e : Z) (desc : FileDescription) (buf : list Z) (s : ttys) : outcome (option (Z * ttys)) :=
  let! x := pty_of s e in
  let! y := pty_of s (peer x) in
  if is_full (pty_ring y) then
    if d_flags desc &? O_NONBLOCK then Ret (Some (- EWOULDBLOCK, s)) else Ret None
  else
    let! t := deref (terminals s !! terminal x) in
    let! (i, r, k) :=
      if slave x then write_chars (fun c => (process_output_char t c, None)) (signal_foreground t) buf 0 (pty_ring y) (t_krn s)
      else write_chars (process_input_char t) (signal_foreground t) buf 0 (pty_ring y) (t_krn s) in
    let! k := trigger_all k (pty_event y) in
    Ret (Some (i, put_pty (peer x) (y <| pty_ring := r |>) s <| t_krn := k |>)).

Definition pty_poll (e : Z) (events : Z) (s : ttys) : outcome Z :=
  let! x := pty_of s e in
  let revents := if (events &? POLLIN) && negb (is_empty (pty_ring x)) then POLLIN else 0 in
  if events &? POLLOUT then
    let! y := pty_of s (peer x) in
    Ret (if negb (is_full (pty_ring y)) then revents .| POLLOUT else revents)
  else Ret revents.

(** ** Control (Linux ABI) *)

Definition TCGETS := 21505.
Definition TCSETS := 21506.
Definition TCSETSW := 21507.
Definition TCSETSF := 21508.
Definition TIOCSCTTY := 21518.
Definition TIOCGPGRP := 21519.
Definition TIOCSPGRP := 21520.
Definition TIOCGWINSZ := 21523.
Definition TIOCSWINSZ := 21524.
Definition TIOCPKT := 21536.
Definition TIOCGSID := 21545.
Definition TCGETS2 := 2150388778.
Definition TCSETS2 := 1076646955.
Definition TCSETSW2 := 1076646956.
Definition TCSETSF2 := 1076646957.
Definition TIOCGPTN := 2147767344.
Definition TIOCSPTLCK := 1074025521.
Definition TIOCGPKT := 2147767352.
Definition O_NOCTTY := 256.

(** The [int] that [arg] points to, read and written. *)
Definition arg_int (arg : mem) : outcome Z :=
  if decide (4 <= length arg)%nat then Ret (i32 (word_at 4 0 arg)) else Undef.
Definition store_int (z : Z) (arg : mem) : outcome mem := memcpy arg (le_bytes 4 (u32 z)) 4.

(** The session of a process. *)
Definition session_of (k : kernel) (p : Z) : outcome Z :=
  let! pr := deref (processes k !! p) in
  let! g := deref (group pr) in
  let! gr := deref (groups k !! g) in
  Ret (session gr).

Definition set_controlling_terminal (t p vnode : Z) (s : ttys) : outcome ttys :=
  let! l := session_leader (t_krn s) p in
  if negb (p =? l) then Ret s else
  let! se := session_of (t_krn s) p in
  let! pr := deref (processes (t_krn s) !! p) in
  let! g := deref (group pr) in
  let! x := deref (terminals s !! t) in
  Ret (put_terminal t (x <| t_session := se |> <| foreground_process_group := g |>)
         (s <| controlling_terminal ::= <[se := vnode]> |>)).

Definition on_open (t p vnode d_flags : Z) (s : ttys) : outcome ttys :=
  if d_flags &? O_NOCTTY then Ret s else set_controlling_terminal t p vnode s.

(** [tty_ioctl] of process [p]: the result, the argument's memory and the state after. *)
Definition tty_ioctl (t p vnode cmd : Z) (arg : mem) (s : ttys) : outcome (Z * mem * ttys) :=
  let! x := deref (terminals s !! t) in
  let k := t_krn s in
  let one_of l := existsb (Z.eqb cmd) l in
  if cmd =? TIOCGWINSZ then let! arg := memcpy arg (winsize x) 8 in Ret (0, arg, s)
  else if cmd =? TIOCSWINSZ then
    let! w := memcpy (winsize x) arg 8 in
    let x := x <| winsize := w |> in
    let! k := if negb (foreground_process_group x =? 0) then group_send_signal k (foreground_process_group x) SIGWINCH else Ret k in
    Ret (0, arg, put_terminal t x s <| t_krn := k |>)
  else if cmd =? TCGETS then let! arg := memcpy arg (termios x) 36 in Ret (0, arg, s)
  else if one_of [TCSETS; TCSETSW; TCSETSF] then
    let! m := memcpy (termios x) arg 36 in Ret (0, arg, put_terminal t (x <| termios := m |>) s)
  else if cmd =? TCGETS2 then let! arg := memcpy arg (termios x) 44 in Ret (0, arg, s)
  else if one_of [TCSETS2; TCSETSW2; TCSETSF2] then
    let! m := memcpy (termios x) arg 44 in Ret (0, arg, put_terminal t (x <| termios := m |>) s)
  else if cmd =? TIOCGPGRP then
    let! se := session_of k p in
    if negb (default 0 (controlling_terminal s !! se) =? vnode) then Ret (- ENOTTY, arg, s)
    else if foreground_process_group x =? 0 then Ret (- ENOTTY, arg, s)
    else
      let! gr := deref (groups k !! foreground_process_group x) in
      let! leader := deref (processes k !! leader_process gr) in
      let! arg := store_int (pid leader) arg in Ret (0, arg, s)
  else if cmd =? TIOCSPGRP then
    let! id := arg_int arg in
    let! q := process_of_tid k id in
    match q with
    | None => Ret (- ESRCH, arg, s)
    | Some q =>
        let! theirs := session_of k q in
        let! ours := session_of k p in
        if negb (theirs =? ours) then Ret (- EPERM, arg, s) else
        let! pr := deref (processes k !! q) in
        let! g := deref (group pr) in
        Ret (0, arg, put_terminal t (x <| foreground_process_group := g |>) s)
    end
  else if cmd =? TIOCGSID then
    if t_session x =? 0 then Ret (- ENOTTY, arg, s) else
    let! se := deref (sessions k !! t_session x) in
    let! lg := deref (groups k !! leader_group se) in
    let! leader := deref (processes k !! leader_process lg) in
    let! arg := store_int (pid leader) arg in Ret (0, arg, s)
  else if cmd =? TIOCSCTTY then
    let! s := set_controlling_terminal t p vnode s in Ret (0, arg, s)
  else Ret (- EINVAL, arg, s).

(** [PseudoTerminalEnd::ioctl]. *)
Definition pty_ioctl (e p vnode cmd : Z) (arg : mem) (s : ttys) : outcome (Z * mem * ttys) :=
  let! x := pty_of s e in
  if cmd =? TIOCGPTN then let! arg := store_int (pts_num x) arg in Ret (0, arg, s)
  else if cmd =? TIOCSPTLCK then Ret (0, arg, s)
  else if cmd =? TIOCPKT then
    if slave x then Ret (- ENOTTY, arg, s)
    else let! n := arg_int arg in Ret (0, arg, put_pty e (x <| packet_mode := negb (n =? 0) |>) s)
  else if cmd =? TIOCGPKT then
    let! arg := store_int (if packet_mode x then 1 else 0) arg in Ret (0, arg, s)
  else if (cmd =? TIOCGPGRP) && negb (slave x) then let! arg := store_int 0 arg in Ret (0, arg, s)
  else tty_ioctl (terminal x) p vnode cmd arg s.

(** [TTYDevNode::open]: the description moves to the controlling terminal. *)
Definition tty_open (p : Z) (desc : FileDescription) (s : ttys) : outcome (Z * FileDescription) :=
  let! se := session_of (t_krn s) p in
  let v := default 0 (controlling_terminal s !! se) in
  if v =? 0 then Ret (- ENXIO, desc) else Ret (0, desc <| d_vnode := v |>).

(** ** The multiplexer *)

Section multiplexer.
Context {D : Type} `{FilesystemOps D} `{VNodeOps D} (depth : nat).

(** The entry "/dev/pts/n" for the slave [sl], owned by thread [th]. *)
Definition publish (path : mem) (sl : Z) (th : Thread) (f : vfs D) : outcome (Z * vfs D) :=
  let! (e, f) := path_to_entry depth path 0 true f in
  let! en := deref (entries f !! e) in
  if negb (e_vnode en =? 0) then Ret (- EEXIST, f)
  else if e_parent en =? 0 then Ret (- ENOENT, f)
  else
    let! f := set_entry_vnode f e sl in
    let! f := entry_create (put_vnode sl (VNode_init CHAR_DEVICE) f) e CHAR_DEVICE
                (eid (uids (cred th))) (eid (gids (cred th))) 384 in
    Ret (0, f).

(** [PseudoTerminalMultiplexer::open] by thread [t]: a terminal [term] on memory [fresh],
    and the ends [m] and [sl] with their events. What a failure deletes is not kept. *)
Definition ptmx_open (fresh : Terminal) (term m sl t : Z) (desc : FileDescription) (s : ttys) (f : vfs D)
    : outcome (Z * FileDescription * ttys * vfs D) :=
  let! th := deref (threads (t_krn s) !! t) in
  let (e1, k) := new_event (t_krn s) in
  let! (master, b) := PseudoTerminalEnd_init term e1 false (pty_bitmap s) in
  let (e2, k) := new_event k in
  let! (slave_end, b) := PseudoTerminalEnd_init term e2 true b in
  let s := s <| t_krn := k |> <| pty_bitmap := b |> in
  if pts_num slave_end =? -1 then Ret (- ENOENT, desc, s, f) else
  let! path := klib_printf.snprintf (replicate 64 0) 64 (bytes "/dev/pts/%d" ++ [0]) [klib_printf.Word (pts_num slave_end)] in
  let! (_, path) := deref path in
  let! (err, f) := publish path sl th f in
  if err <? 0 then Ret (err, desc, s, f) else
  let s := put_terminal term (Terminal_init fresh)
             (put_pty m (master <| peer := sl |> <| pts_num := pts_num slave_end |>)
             (put_pty sl (slave_end <| peer := m |>) s)) in
  let desc := desc <| d_vnode := m |> in
  let! s := on_open term (process th) m (d_flags desc) s in
  Ret (0, desc, s, f).
End multiplexer.

(** ** The console *)

(** The state of the keyboard that [process_input_event] asks for, and whether the kernel
    draws a terminal. *)
Record modifiers := mkModifiers { is_shift : bool; is_caps : bool; is_ctrl : bool; kernel_terminal_enabled : bool }.
Record InputEvent := mkInputEvent { ie_type : Z; ie_code : Z; ie_value : Z }.

Definition EV_KEY := 1.
Definition ESC : Z := 27.

Definition keycode_map : list Z :=
  let zeros n := replicate n 0 in
  [0; 27] ++ bytes "1234567890-=" ++ [8; 9] ++ bytes "qwertyuiop[]" ++ [10; 0] ++
  bytes "asdfghjkl;'`" ++ [0] ++ bytes "\zxcvbnm,./" ++ [0] ++ bytes "*" ++ [0] ++ bytes " " ++ zeros 16%nat ++
  bytes "-" ++ zeros 3%nat ++ bytes "+" ++ zeros 49%nat.

Definition key_sequence (code : Z) : option (list Z) :=
  let arrow s := Some (ESC :: bytes s) in
  let fkey c := Some [143; c] in
  if code =? 103 then arrow "[A" else if code =? 105 then arrow "[D" else if code =? 106 then arrow "[C"
  else if code =? 108 then arrow "[B" else if code =? 59 then fkey 80 else if code =? 60 then fkey 81
  else if code =? 61 then fkey 82 else if code =? 62 then fkey 83 else if code =? 63 then arrow "[15~"
  else if code =? 64 then arrow "[17~" else if code =? 65 then arrow "[18~" else if code =? 66 then arrow "[19~"
  else if code =? 67 then arrow "[20~" else if code =? 68 then arrow "[21~" else if code =? 87 then arrow "[23~"
  else if code =? 88 then arrow "[24~" else None.

Definition shifted (c : Z) : Z :=
  let from := bytes "1234567890/\,.'][;-=" in
  let to := bytes "!@#$%^&*()?|<>" ++ [34] ++ bytes "}{:_+" in
  match list_find (Z.eqb c) from with
  | Some (i, _) => default c (to !! i)
  | None => c
  end.

(** The character of a key, a byte. *)
Definition key_char (m : modifiers) (c : Z) : Z :=
  let c := if is_shift m then shifted c else c in
  let c := if is_caps m && (97 <=? c) && (c <=? 122) then c - 97 + 65 else c in
  if is_ctrl m then u8 (c - 97 + 65 - 64) else c.

Definition console_put (r : RingBuffer Z) (cs : list Z) : RingBuffer Z :=
  foldl (fun r c => snd (write_truncate r [c] 1)) r cs.

(** [process_input_event] on the console's terminal and buffer. *)
Definition process_input_event (m : modifiers) (t : Terminal) (ev : InputEvent) (r : RingBuffer Z) (k : kernel)
    : outcome (RingBuffer Z * kernel) :=
  if negb (kernel_terminal_enabled m) then Ret (r, k)
  else if negb (ie_type ev =? EV_KEY) || (ie_value ev =? 0) then Ret (r, k)
  else match key_sequence (ie_code ev) with
  | Some cs => Ret (snd (write_truncate r cs (Z.of_nat (length cs))), k)
  | None =>
      if ie_code ev >=? 128 then Ret (r, k) else
      let! c := deref (keycode_map !! Z.to_nat (ie_code ev)) in
      if c =? 0 then Ret (r, k) else
      let (cs, signal) := process_input_char t (key_char m c) in
      let r := console_put r cs in
      match signal with
      | Some signal => let! k := signal_foreground t signal k in Ret (r, k)
      | None => Ret (r, k)
      end
  end.

(** A turn of [read]; a console never refuses to wait. *)
Definition console_read_turn (r : RingBuffer Z) (count : Z) : option (Z * list Z * RingBuffer Z) :=
  if is_empty r then None else Some (read r count).
Definition console_write (buf : mem) (count : Z) : outcome (option (Z * list Z)) :=
  klib_printf.vprintf_template (bytes "%.*s" ++ [0]) [klib_printf.Word (u32 count); klib_printf.Str buf].
Definition console_poll (r : RingBuffer Z) (events : Z) : Z :=
  if (events &? POLLIN) && negb (is_empty r) then POLLIN else 0.

End tty.

