(* ===== verification/TtyProps.v ===== *)
(** * Properties of terminals

    The line discipline of a pseudoterminal as a map on characters, and its two ends as
    queues of them. *)

From S2P Require Import Prelude Algorithm CString RingBuffer Links Context Cred Vector Sched SchedFacts SchedLinks SchedProps FdTable Process Wait Objects Printf Tty.
Import tty.

(** ** What a write transfers *)

Definition room (r : RingBuffer Z) : nat := Z.to_nat (size r) - length (contents r).

Lemma room_full r : wf r -> is_full r = bool_decide (room r = 0%nat).
Proof.
  intros Hwf. pose proof (length_contents r Hwf) as Hl. pose proof Hwf as (Hs & _ & _ & _ & Hle).
  unfold is_full, room. apply eq_bool_prop_intro. rewrite bool_decide_spec, Is_true_true. lia.
Qed.

Lemma put_all_spec cs r : wf r ->
  exists r', put_all cs r = (negb (bool_decide (length cs <= room r)%nat), r') /\ wf r' /\ size r' = size r /\
    contents r' = contents r ++ take (room r) cs.
Proof.
  revert r. induction cs as [|c cs IH]; intros r Hwf; cbn [put_all].
  - exists r. rewrite take_nil, app_nil_r. split_and!; [|done..]. by rewrite bool_decide_eq_true_2 by (simpl; lia).
  - destruct (write r [c] 1) as [n r1] eqn:Hw.
    destruct (write_spec r [c] 1 n r1 Hwf ltac:(simpl; lia) Hw) as (Hn & Hwf1 & Hsz & Hc).
    rewrite free_count_eq in Hn by done. pose proof (length_contents r Hwf) as Hl.
    pose proof Hwf as (Hs & _ & _ & _ & Hle).
    destruct (IH r1 Hwf1) as (r' & -> & Hwf' & Hsz' & Hc'). exists r'.
    assert (room r1 = room r - Z.to_nat n)%nat as Hroom.
    { unfold room. rewrite Hsz, Hc, length_app, length_take. simpl length. lia. }
    rewrite Hroom in *. split_and!; [|done|lia|].
    + f_equal. destruct (decide (room r = 0%nat)) as [Hz|Hnz]; unfold room in *.
      * replace (n =? 0) with true by lia. cbn [orb]. by rewrite bool_decide_eq_false_2 by (cbn [length]; lia).
      * assert (n = 1) as -> by lia. cbn [orb Z.eqb]. f_equal. apply bool_decide_ext. cbn [length]. lia.
    + rewrite Hc', Hc, <- app_assoc. f_equal. destruct (decide (room r = 0%nat)) as [Hz|Hnz].
      * rewrite Hz. assert (n = 0) as -> by (unfold room in *; lia). done.
      * assert (n = 1) as -> by (unfold room in *; lia). destruct (room r) as [|m]; [done|]. simpl. by rewrite Nat.sub_0_r.
Qed.

Section discipline.
Context (process : Z -> list Z * option Z) (send : Z -> kernel -> outcome kernel).

Definition expand (buf : list Z) : list Z := concat (map (fun c => fst (process c)) buf).

(** With room for [free] characters: how many of the buffer are passed over, and the
    signals sent on the way. *)
Fixpoint accepted (free : nat) (buf : list Z) : nat :=
  match buf with
  | [] => 0
  | c :: buf => if decide (length (fst (process c)) <= free)%nat
                then S (accepted (free - length (fst (process c))) buf) else 0
  end.
Fixpoint signals (free : nat) (buf : list Z) : list Z :=
  match buf with
  | [] => []
  | c :: buf => option_list (snd (process c)) ++
      if decide (length (fst (process c)) <= free)%nat then signals (free - length (fst (process c))) buf else []
  end.
Fixpoint send_all (l : list Z) (k : kernel) : outcome kernel :=
  match l with [] => Ret k | x :: l => let! k := send x k in send_all l k end.

Lemma write_chars_spec buf r : wf r ->
  exists r', wf r' /\ size r' = size r /\ contents r' = contents r ++ take (room r) (expand buf) /\
    forall i k, write_chars process send buf i r k =
      let! k := send_all (signals (room r) buf) k in Ret (i + Z.of_nat (accepted (room r) buf), r', k).
Proof.
  revert r. induction buf as [|c buf IH]; intros r Hwf.
  { exists r. change (expand []) with (@nil Z). rewrite take_nil, app_nil_r. split_and!; [done..|]. intros i k. simpl. by rewrite Z.add_0_r. }
  cbn [write_chars accepted signals]. unfold expand. cbn [map concat]. fold (expand buf).
  destruct (process c) as [cs signal]. cbn [fst snd].
  destruct (put_all_spec cs r Hwf) as (r1 & Hput & Hwf1 & Hsz1 & Hc1).
  assert (forall (f : kernel -> outcome (Z * RingBuffer Z * kernel)) l k,
    (let! k := send_all (option_list signal ++ l) k in f k) =
    (let! k := match signal with Some s => send s k | None => Ret k end in let! k := send_all l k in f k)) as Hsend.
  { intros f l k. destruct signal as [x|]; simpl; [|done]. by destruct (send x k). }
  destruct (decide (length cs <= room r)%nat) as [Hfit|Hfit].
  - assert (room r1 = room r - length cs)%nat as Hroom.
    { unfold room in *. rewrite Hsz1, Hc1, length_app, length_take. lia. }
    destruct (IH r1 Hwf1) as (r' & Hwf' & Hsz' & Hc' & Hrun). exists r'. split_and!; [done|lia| |].
    + rewrite Hc', Hc1, Hroom, <- app_assoc. f_equal. rewrite take_app. by rewrite (take_ge cs) by done.
    + intros i k. rewrite Hput, bool_decide_eq_true_2 by done. cbn [negb]. rewrite Hsend.
      destruct (match signal with Some s => send s k | None => Ret k end) as [k1| |]; [|done|done]. cbn [obind].
      rewrite Hrun, Hroom. destruct (send_all _ k1); [|done|done]. cbn [obind]. do 3 f_equal. lia.
  - exists r1. split_and!; [done|done| |].
    + rewrite Hc1. f_equal. rewrite take_app. replace (room r - length cs)%nat with 0%nat by lia. by rewrite app_nil_r.
    + intros i k. rewrite Hput, bool_decide_eq_false_2 by done. cbn [negb]. rewrite app_nil_r. specialize (Hsend (fun k => Ret (i, r1, k)) [] k).
      rewrite app_nil_r in Hsend. rewrite Z.add_0_r, Hsend. done.
Qed.
End discipline.

(** Everything fits: all is passed over. *)
Lemma accepted_all process free buf : (length (expand process buf) <= free)%nat -> accepted process free buf = length buf.
Proof.
  unfold expand. revert free. induction buf as [|c buf IH]; intros free H; [done|]. simpl in *. rewrite length_app in H.
  rewrite decide_True by lia. f_equal. apply IH. lia.
Qed.

(** The characters an end sends, and the signals they raise. *)
Definition discipline (s : ttys) (x : PseudoTerminalEnd) (t : Terminal) (c : Z) : list Z * option Z :=
  if slave x then (process_output_char t c, None) else process_input_char t c.

(** The two ends of a pseudoterminal: [x] at [e], and [y] the other. *)
Record ends_of (s : ttys) (e : Z) (x y : PseudoTerminalEnd) (t : Terminal) : Prop := {
  eo_x : ptys s !! e = Some x;
  eo_y : ptys s !! peer x = Some y;
  eo_back : peer y = e;
  eo_ne : e <> peer x;
  eo_t : terminals s !! terminal x = Some t;
  eo_wf : wf (pty_ring y)
}.

Lemma pty_write_room s e x y t desc buf : ends_of s e x y t -> room (pty_ring y) <> 0%nat ->
  let d := discipline s x t in let free := room (pty_ring y) in
  exists r, wf r /\ size r = size (pty_ring y) /\ contents r = contents (pty_ring y) ++ take free (expand d buf) /\
    pty_write_turn e desc buf s =
      let! k := send_all (signal_foreground t) (signals d free buf) (t_krn s) in
      let! k := trigger_all k (pty_event y) in
      Ret (Some (Z.of_nat (accepted d free buf), put_pty (peer x) (y <| pty_ring := r |>) s <| t_krn := k |>)).
Proof.
  intros [Hx Hy Hb Hne Ht Hwf] Hroom d free.
  destruct (write_chars_spec d (signal_foreground t) buf (pty_ring y) Hwf) as (r & Hwf' & Hsz & Hc & Hrun).
  exists r. split_and!; [done..|]. unfold pty_write_turn, pty_of. rewrite Hx. cbn [deref obind]. rewrite Hy. cbn [deref obind].
  rewrite (room_full _ Hwf), (bool_decide_eq_false_2 _ Hroom), Ht. cbn [deref obind].
  assert ((if slave x then write_chars (fun c => (process_output_char t c, None)) (signal_foreground t) buf 0 (pty_ring y) (t_krn s)
           else write_chars (process_input_char t) (signal_foreground t) buf 0 (pty_ring y) (t_krn s)) =
          write_chars d (signal_foreground t) buf 0 (pty_ring y) (t_krn s)) as ->.
  { subst d. unfold discipline. by destruct (slave x). }
  rewrite Hrun. destruct (send_all _ _ _) as [k| |]; done.
Qed.

Lemma pty_read_contents s e x y t desc count : ends_of s e x y t -> 0 <= count -> contents (pty_ring y) <> [] ->
  let header := if packet_mode y && (count >? 0) then [0] else [] in
  let out := take (Z.to_nat count - length header) (contents (pty_ring y)) in
  exists r, wf r /\ size r = size (pty_ring y) /\ contents (pty_ring y) = out ++ contents r /\
    pty_read_turn (peer x) desc count s =
      let! k := trigger_all (t_krn s) (pty_event x) in
      Ret (Some (Z.of_nat (length (header ++ out)), header ++ out, put_pty (peer x) (y <| pty_ring := r |>) s <| t_krn := k |>)).
Proof.
  intros [Hx Hy Hb Hne Ht Hwf] Hcount Hsome header out. set (n := count - Z.of_nat (length header)).
  assert (0 <= n) by (subst n header; destruct (packet_mode y); simpl; [destruct (Z.gtb_spec count 0); simpl|]; lia).
  destruct (read (pty_ring y) n) as [[m got] r] eqn:Hr.
  destruct (read_out _ _ _ _ _ Hwf ltac:(done) Hr) as [Hgot Htr].
  destruct (truncate_spec _ _ _ _ Hwf ltac:(done) Htr) as (Hm & Hwf' & Hdata & Hc & _).
  pose proof (length_contents _ Hwf) as Hl.
  assert (got = out) as ->.
  { rewrite Hgot. subst out. destruct (decide (n <= data_count (pty_ring y))).
    - f_equal. subst n. lia.
    - rewrite !take_ge by lia. done. }
  assert (Z.of_nat (length out) = m) as Hlen by (rewrite Hgot, length_take; lia).
  exists r. split_and!; [done|by unfold size; rewrite Hdata|by rewrite Hc, Hgot, take_drop|].
  unfold pty_read_turn, pty_of. rewrite Hy. cbn [deref obind].
  replace (is_empty (pty_ring y)) with false.
  2: { symmetry. unfold is_empty. destruct (contents (pty_ring y)); [done|]. simpl in Hl. lia. }
  assert ((if packet_mode y && (count >? 0) then let '(n, out, r) := read (pty_ring y) (count - 1) in (n + 1, 0 :: out, r)
           else read (pty_ring y) count) = (Z.of_nat (length (header ++ out)), header ++ out, r)) as ->.
  { subst n header. destruct (packet_mode y && (count >? 0)); simpl in *.
    - change (Z.of_nat 1) with 1 in Hr. rewrite Hr. do 2 f_equal. lia.
    - rewrite Z.sub_0_r in Hr. rewrite Hr. by rewrite Hlen. }
  simpl. rewrite Hb, lookup_insert_ne, Hx by done. done.
Qed.

(** C21. A pseudoterminal is two queues of characters with the line discipline between.
    What an end writes goes to the other's queue, each character as what the
    discipline makes of it (the slave's newlines with a return before them; the
    master's returns and newlines translated, and its control characters turned into
    signals to the foreground group, in order), up to the room there is; the result
    counts the characters of which all was taken, the whole buffer when it fits. A full
    queue makes the writer wait, or fail with EWOULDBLOCK. A read takes the oldest
    characters of the queue, after a 0 in packet mode, and waits or fails likewise when
    there are none. *)
Theorem pty_discipline s e x y t desc : ends_of s e x y t ->
  let d := discipline s x t in let free := room (pty_ring y) in
  (forall buf, match free with
   | O => pty_write_turn e desc buf s = if d_flags desc &? O_NONBLOCK then Ret (Some (- EWOULDBLOCK, s)) else Ret None
   | S _ => exists r, wf r /\ contents r = contents (pty_ring y) ++ take free (expand d buf) /\
       pty_write_turn e desc buf s =
         (let! k := send_all (signal_foreground t) (signals d free buf) (t_krn s) in
          let! k := trigger_all k (pty_event y) in
          Ret (Some (Z.of_nat (accepted d free buf), put_pty (peer x) (y <| pty_ring := r |>) s <| t_krn := k |>))) /\
       (length (expand d buf) <= free -> accepted d free buf = length buf)%nat
   end) /\
  (forall count, 0 <= count ->
   match contents (pty_ring y) with
   | [] => pty_read_turn (peer x) desc count s =
             if d_flags desc &? O_NONBLOCK then Ret (Some (- EWOULDBLOCK, [], s)) else Ret None
   | queue => let header := if packet_mode y && (count >? 0) then [0] else [] in
       let out := take (Z.to_nat count - length header) queue in
       exists r, wf r /\ queue = out ++ contents r /\
         pty_read_turn (peer x) desc count s =
           let! k := trigger_all (t_krn s) (pty_event x) in
           Ret (Some (Z.of_nat (length (header ++ out)), header ++ out,
                      put_pty (peer x) (y <| pty_ring := r |>) s <| t_krn := k |>))
   end).
Proof.
  intros Hends d free. pose proof Hends as [Hx Hy _ _ _ Hwf]. split.
  - intros buf. destruct free as [|n] eqn:Hfree.
    + unfold pty_write_turn, pty_of. rewrite Hx. cbn [deref obind]. rewrite Hy. cbn [deref obind].
      by rewrite (room_full _ Hwf), (bool_decide_eq_true_2 _ Hfree).
    + destruct (pty_write_room s e x y t desc buf Hends) as (r & Hwf' & _ & Hc & Hrun); [unfold free in Hfree; lia|].
      exists r. rewrite <- Hfree. split_and!; [done..|]. by apply accepted_all.
  - intros count Hcount. pose proof (pty_read_contents s e x y t desc count Hends Hcount) as Hread.
    destruct (contents (pty_ring y)) as [|c q] eqn:Hq.
    + unfold pty_read_turn, pty_of. rewrite Hy. cbn [deref obind]. unfold is_empty.
      rewrite <- (length_contents _ Hwf), Hq. done.
    + destruct Hread as (r & Hwf' & _ & Hc & Hrun); [done|]. cbv zeta. exists r. done.
Qed.

(** ** A terminal with its settings as the constructor leaves them *)

Definition sample_terminal : Terminal := Terminal_init (mkTerminal (replicate 44 0) (replicate 8 0) 0 0).
Definition sample_end (other : Z) (is_slave : bool) : PseudoTerminalEnd :=
  mkEnd 1 other 100 (empty_ring (replicate 4096 0)) 0 is_slave false.
Definition sample_ttys : ttys :=
  mkTtys sample {[1 := sample_terminal]} {[10 := sample_end 11 false; 11 := sample_end 10 true]} (Bitmap.init 256) ∅.
Definition blocking_fd : FileDescription := mkDescription 10 0 0 0 1.

Lemma sample_ends e other is_slave : (e, other, is_slave) ∈ [(10, 11, false); (11, 10, true)] ->
  ends_of sample_ttys e (sample_end other is_slave) (sample_end e (negb is_slave)) sample_terminal.
Proof.
  rewrite !elem_of_cons. intros [[= -> -> ->] | [[= -> -> ->] | []%elem_of_nil]]; (split; try done);
    apply wf_empty; [done|by exists 4503599627370496|done|by exists 4503599627370496].
Qed.

(** The master types "hi", a return and ^D; the slave reads it. *)
Lemma pty_discipline_witness :
  exists r k, pty_write_turn 10 blocking_fd [104; 105; 13; 4] sample_ttys =
      Ret (Some (4, put_pty 11 (sample_end 10 true <| pty_ring := r |>) sample_ttys <| t_krn := k |>)) /\
    contents r = [104; 105; 10; 13; 4].
Proof.
  destruct (pty_discipline sample_ttys 10 (sample_end 11 false) (sample_end 10 true) sample_terminal blocking_fd)
    as [Hw _]; [apply (sample_ends 10 11 false); by left|].
  destruct (Hw [104; 105; 13; 4]) as (r & _ & Hc & Hrun & _).
  exists r, (ret_of sample (trigger_all sample 100)). split; [|rewrite Hc; vm_compute; reflexivity]. rewrite Hrun.
  assert (send_all (signal_foreground sample_terminal)
    (signals (discipline sample_ttys (sample_end 11 false) sample_terminal) 4096 [104; 105; 13; 4]) sample = Ret sample) as Hs
    by (vm_compute; reflexivity).
  assert (room (pty_ring (sample_end 10 true)) = 4096%nat) as Hroom by (vm_compute; reflexivity).
  rewrite Hroom. cbn [t_krn sample_ttys]. rewrite Hs. cbn [obind pty_event sample_end].
  assert (trigger_all sample 100 = Ret (ret_of sample (trigger_all sample 100))) as Ht by (vm_compute; reflexivity).
  rewrite Ht at 1. reflexivity.
Defined.

(** ** What the terminal does not do *)

(** A return translated to a newline is delivered as well: the slave reads both. *)
Lemma return_delivered_twice : process_input_char sample_terminal 13 = ([10; 13], None).
Proof. reflexivity. Qed.

(** With room for one character, the return before a newline is stored and the newline is
    not counted: the slave, which writes it again, sends two returns. *)
Definition nearly_full : RingBuffer Z := mkRing 1 4096 (replicate 4096 0).
Lemma newline_split :
  (let! (i, r, _) := write_chars (fun c => (process_output_char sample_terminal c, None)) (fun _ k => Ret k) [10] 0 nearly_full sample in
   let '(_, _, r) := read r 4095 in
   let! (j, r, _) := write_chars (fun c => (process_output_char sample_terminal c, None)) (fun _ k => Ret k) [10] 0 r sample in
   Ret (i, j, contents r)) = Ret (0, 1, [13; 13; 10]).
Proof. vm_compute. reflexivity. Qed.

(** An interrupt character with no group in the foreground uses a null pointer. *)
Lemma interrupt_without_foreground k :
  process_input_char sample_terminal 3 = ([], Some SIGINT) /\ signal_foreground sample_terminal SIGINT k = Undef.
Proof. done. Qed.

(** Any process puts its group in the foreground of any terminal it has open, be it the
    controlling terminal of its session or not. *)
Lemma foreground_taken t p vnode arg s x id se pr g :
  terminals s !! t = Some x -> arg_int arg = Ret id -> process_of_tid (t_krn s) id = Ret (Some p) ->
  session_of (t_krn s) p = Ret se -> processes (t_krn s) !! p = Some pr -> group pr = Some g ->
  tty_ioctl t p vnode TIOCSPGRP arg s = Ret (0, arg, put_terminal t (x <| foreground_process_group := g |>) s).
Proof.
  intros Hx Harg Hq Hse Hpr Hg. unfold tty_ioctl. rewrite Hx. cbn. rewrite Harg. cbn. rewrite Hq. cbn. rewrite Hse. cbn.
  rewrite Z.eqb_refl. cbn. rewrite Hpr. cbn. by rewrite Hg.
Qed.

(** With caps lock on, Ctrl and c is not the interrupt character. *)
Lemma caps_lock_breaks_control :
  key_char (mkModifiers false false true true) 99 = 3 /\ key_char (mkModifiers false true true true) 99 = 227.
Proof. done. Qed.
