(* ===== verification/Exec.v ===== *)
(** * Executing a program: userland/elf, and [user_exec] of sched/sched.cpp

    User memory is what user space sees of it: the ranges mapped and the byte at each
    address, new pages being zero. The virtual memory that keeps it so is that of
    Vmm.v. An access outside the ranges is [Undef]. *)

From S2P Require Import Prelude Algorithm CString Links Context Cred Vector Sched FdTable Vfs VfsCalls Signal Isr.

Module exec.

(** ** User memory *)

Record space := mkSpace { maps : list (Z * Z); byte_at : Z -> Z }.
#[export] Instance eta_space : Settable space := fun s => mkSpace (maps s) (byte_at s).

(** A new address space: nothing is mapped. *)
Definition empty_space : space := mkSpace [] (fun _ => 0).
Definition mapped (s : space) (a : Z) : bool := existsb (fun '(b, l) => (b <=? a) && (a <? b + l)) (maps s).
Definition map_pages (base length : Z) (s : space) : space := s <| maps ::= cons (base, length) |>.

Definition in_range (s : space) (a : Z) (n : nat) : bool :=
  forallb (fun i => mapped s (a + Z.of_nat i)) (seq 0 n).
Definition store (a : Z) (bs : list Z) (s : space) : outcome space :=
  if in_range s a (length bs) then
    Ret (s <| byte_at ::= fun m x =>
           if (a <=? x) && (x <? a + Z.of_nat (length bs)) then nth (Z.to_nat (x - a)) bs 0 else m x |>)
  else Undef.
Definition fetch (a : Z) (n : nat) (s : space) : outcome (list Z) :=
  if in_range s a n then Ret (map (fun i => byte_at s (a + Z.of_nat i)) (seq 0 n)) else Undef.

(** ** userland/elf.cpp *)

(** A [Header] of 64 bytes and a [ProgramHeader] of 56, as read. *)
Definition e_type (h : mem) : Z := word_at 2 16 h.
Definition e_arch (h : mem) : Z := word_at 2 18 h.
Definition entry_addr (h : mem) : Z := word_at 8 24 h.
Definition ph_table_offset (h : mem) : Z := word_at 8 32 h.
Definition ph_entry_size (h : mem) : Z := word_at 2 54 h.
Definition ph_count (h : mem) : Z := word_at 2 56 h.
Definition p_type (ph : mem) : Z := word_at 4 0 ph.
Definition p_offset (ph : mem) : Z := word_at 8 8 ph.
Definition p_virt_addr (ph : mem) : Z := word_at 8 16 ph.
Definition p_file_size (ph : mem) : Z := word_at 8 32 ph.
Definition p_mem_size (ph : mem) : Z := word_at 8 40 ph.

Record Auxval := mkAuxval { at_entry : Z; at_phdr : Z; at_phent : Z; at_phnum : Z }.
#[export] Instance eta_Auxval : Settable Auxval := fun a =>
  mkAuxval (at_entry a) (at_phdr a) (at_phent a) (at_phnum a).
Definition no_auxval : Auxval := mkAuxval 0 0 0 0.

Definition PT_LOAD := 1.
Definition PT_INTERP := 3.
Definition PT_PHDR := 6.
Definition ET_EXEC := 2.
Definition EM_X86_64 := 62.

Section load.
Context {D : Type} `{VNodeOps D} (fresh : nat -> mem).

(** [file->read(nullptr, dst, count, offset)] into [dst], a buffer of the kernel. *)
Definition file_read (v : Z) (dst : mem) (count offset : Z) (f : vfs D) : outcome (mem * vfs D) :=
  let! (_, bytes, f) := v_read v None count offset f in Ret (splice 0 bytes dst, f).
(** The same into user memory. *)
Definition user_read (v a count offset : Z) (s : space) (f : vfs D) : outcome (space * vfs D) :=
  let! (_, bytes, f) := v_read v None count offset f in
  let! s := store a bytes s in Ret (s, f).

(** What [load] computes as it goes. *)
Record loading := mkLoading {
  l_space : space; l_vfs : vfs D;
  file_virt_base : Z; l_phdr : Z; ld_path : option mem; first_free_virt : Z
}.
#[local] Instance eta_loading : Settable loading := fun l =>
  mkLoading (l_space l) (l_vfs l) (file_virt_base l) (l_phdr l) (ld_path l) (first_free_virt l).

(** The loop over the pages of a segment, from page [i]. *)
Fixpoint load_pages (n : nat) (v : Z) (ph : mem) (base i file_page_count total : Z) (l : loading) : outcome (Z * loading) :=
  match n with
  | O => Ret (total, l)
  | S n =>
      let misalign := Z.land (p_virt_addr ph) 4095 in
      let page_virt := u64 (base + i * PAGE_SIZE) in
      let dst := u64 (klib.align_down base PAGE_SIZE + i * PAGE_SIZE) in
      let! s := store dst (replicate (Z.to_nat PAGE_SIZE) 0) (l_space l) in
      let! (total, s, f) :=
        if i <? file_page_count then
          let offset := u64 (p_offset ph + i * PAGE_SIZE) in
          let '(dst, offset, size) :=
            if i =? 0 then (u64 (dst + misalign), offset, PAGE_SIZE - misalign)
            else (dst, u64 (offset - misalign), PAGE_SIZE) in
          let size := if i =? u64 (file_page_count - 1) then u64 (p_file_size ph - total) else size in
          let! (s, f) := user_read v dst size offset s (l_vfs l) in
          Ret (u64 (total + size), s, f)
        else Ret (total, s, l_vfs l) in
      let free := if page_virt >=? first_free_virt l then u64 (page_virt + PAGE_SIZE) else first_free_virt l in
      load_pages n v ph base (i + 1) file_page_count total (l <| l_space := s |> <| l_vfs := f |> <| first_free_virt := free |>)
  end.

Definition load_segment (v load_base : Z) (ph : mem) (l : loading) : outcome loading :=
  let misalign := Z.land (p_virt_addr ph) 4095 in
  let mem_page_count := u64 (p_mem_size ph + misalign + PAGE_SIZE - 1) / PAGE_SIZE in
  let file_page_count := u64 (p_file_size ph + misalign + PAGE_SIZE - 1) / PAGE_SIZE in
  let base := u64 (load_base + p_virt_addr ph) in
  let l := l <| file_virt_base ::= fun b => klib.min b base |>
             <| l_space ::= map_pages (klib.align_down base PAGE_SIZE) (u64 (mem_page_count * PAGE_SIZE)) |> in
  let! (total, l) := load_pages (Z.to_nat mem_page_count) v ph base 0 file_page_count 0 l in
  let! _ := assert (total =? p_file_size ph) in
  Ret l.

(** [fresh n]: what is in a new array of [n] bytes. *)
Definition load_header (v load_base : Z) (want_ld : bool) (ph : mem) (l : loading) : outcome loading :=
  if p_type ph =? PT_LOAD then load_segment v load_base ph l
  else if p_type ph =? PT_PHDR then Ret (l <| l_phdr := u64 (load_base + p_virt_addr ph) |>)
  else if p_type ph =? PT_INTERP then
    if want_ld then
      let! (path, f) := file_read v (fresh (Z.to_nat (p_file_size ph + 1))) (p_file_size ph) (p_offset ph) (l_vfs l) in
      Ret (l <| ld_path := Some path |> <| l_vfs := f |>)
    else Ret l
  else Ret l.

Fixpoint load_headers (n : nat) (v load_base : Z) (want_ld : bool) (header : mem) (i : Z) (l : loading) : outcome loading :=
  match n with
  | O => Ret l
  | S n =>
      let! (ph, f) := file_read v (replicate 56 0) 56 (u64 (ph_table_offset header + i * ph_entry_size header)) (l_vfs l) in
      let! l := load_header v load_base want_ld ph (l <| l_vfs := f |>) in
      load_headers n v load_base want_ld header (i + 1) l
  end.

Definition is_elf (h : mem) : bool :=
  bool_decide (take 4 h = [127; 69; 76; 70]) && (nth 4 h 0 =? 2) && (nth 5 h 0 =? 1) &&
  (e_arch h =? EM_X86_64) && ((nth 7 h 0 =? 0) || (nth 7 h 0 =? 3)).

(** [load]: [-ENOEXEC], or the auxiliary values and the state after. *)
Definition load (s : space) (v load_base : Z) (want_ld : bool) (first_free : Z) (f : vfs D)
    : outcome (vfs D * (Z + Auxval * option mem * Z * space)) :=
  let! (header, f) := file_read v (replicate 64 0) 64 0 f in
  if negb (is_elf header) then Ret (f, inl (- ENOEXEC)) else
  let load_base := if e_type header =? ET_EXEC then 0 else load_base in
  let! l := load_headers (Z.to_nat (ph_count header)) v load_base want_ld header 0
              (mkLoading s f 18446744073709551615 0 None first_free) in
  let phdr := if l_phdr l =? 0 then u64 (file_virt_base l + ph_table_offset header) else l_phdr l in
  Ret (l_vfs l, inr (mkAuxval (u64 (load_base + entry_addr header)) phdr (ph_entry_size header) (ph_count header),
                     ld_path l, klib.align_up (first_free_virt l) PAGE_SIZE, l_space l)).
End load.

(** ** Scripts *)

(** [for (; buf[i] == ' '; i++);] and the loops up to a space or the end. *)
Fixpoint skip_spaces (buf : mem) : outcome mem :=
  match buf with
  | [] => Undef
  | c :: rest => if c =? 32 then skip_spaces rest else Ret buf
  end.
Fixpoint take_word (buf : mem) : outcome (mem * mem) :=
  match buf with
  | [] => Undef
  | c :: rest =>
      if (c =? 0) || (c =? 32) then Ret ([], buf) else let! (w, rest) := take_word rest in Ret (c :: w, rest)
  end.

(** The interpreter and its argument in the first line of a script; [None]: it is no
    script. *)
Definition parse_shebang (buf : mem) : outcome (option (mem * option mem)) :=
  match list_find (fun c => c = 10) buf with
  | None => Ret None
  | Some (i, _) =>
      let buf := <[i := 0]> buf in
      if negb (nth 0 buf 0 =? 35) || negb (nth 1 buf 0 =? 33) then Ret None else
      let! buf := skip_spaces (drop 2 buf) in
      let! c := deref (head buf) in
      if c =? 0 then Ret None else
      let! (path, buf) := take_word buf in
      if (length path =? 0)%nat then Ret None else
      let! (arg, _) := take_word buf in
      Ret (Some (path ++ [0], if (length arg =? 0)%nat then None else Some (arg ++ [0])))
  end.

(** ** The first stack of a program *)

Definition AT_PHDR := 3.
Definition AT_PHENT := 4.
Definition AT_PHNUM := 5.
Definition AT_PAGESZ := 6.
Definition AT_FLAGS := 8.
Definition AT_ENTRY := 9.
Definition AT_UID := 11.
Definition AT_EUID := 12.
Definition AT_GID := 13.
Definition AT_EGID := 14.
Definition AT_SECURE := 23.
Definition AT_RANDOM := 25.
Definition AT_EXECFN := 31.

(** [stack -= length + 1; memcpy(stack, str, length)]: the terminator is not stored. *)
Definition push_string (str : mem) (st : space * Z) : outcome (space * Z) :=
  let (s, stack) := st in
  let! n := strlen str in
  let stack := u64 (stack - Z.of_nat n - 1) in
  let! s := store stack (take n str) s in
  Ret (s, stack).
(** The loops from the last string to the first. *)
Fixpoint push_strings (strs : list mem) (st : space * Z) : outcome (space * Z) :=
  match strs with
  | [] => Ret st
  | str :: strs => let! st := push_strings strs st in push_string str st
  end.

Definition store_word (a w : Z) (s : space) : outcome space := store a (le_bytes 8 (u64 w)) s.
(** [*(--stack) = w] *)
Definition push_word (w : Z) (st : space * Z) : outcome (space * Z) :=
  let (s, stack) := st in
  let stack := u64 (stack - 8) in
  let! s := store_word stack w s in Ret (s, stack).
(** [stack -= 2; stack[0] = type; stack[1] = value;] *)
Definition push_aux (tv : Z * Z) (st : space * Z) : outcome (space * Z) :=
  let (s, stack) := st in
  let stack := u64 (stack - 16) in
  let! s := store_word stack (fst tv) s in
  let! s := store_word (u64 (stack + 8)) (snd tv) s in
  Ret (s, stack).
Fixpoint push_auxv (l : list (Z * Z)) (st : space * Z) : outcome (space * Z) :=
  match l with [] => Ret st | tv :: l => let! st := push_aux tv st in push_auxv l st end.

(** [stack[i] = current_str_addr; current_str_addr += strlen(str) + 1;] for each string. *)
Fixpoint store_pointers (strs : list mem) (a current_str_addr : Z) (s : space) : outcome (space * Z) :=
  match strs with
  | [] => Ret (s, current_str_addr)
  | str :: strs =>
      let! s := store_word a current_str_addr s in
      let! n := strlen str in
      store_pointers strs (u64 (a + 8)) (u64 (current_str_addr + Z.of_nat n + 1)) s
  end.

(** The pointers to the strings, below a null one. *)
Definition push_pointers (strs : list mem) (start : Z) (st : space * Z) : outcome (space * Z) :=
  let! (s, stack) := push_word 0 st in
  let stack := u64 (stack - 8 * Z.of_nat (length strs)) in
  let! (s, _) := store_pointers strs stack start s in
  Ret (s, stack).

Record startup := mkStartup { rsp0 : Z; arg_start : Z; arg_end : Z; env_start : Z; env_end : Z }.

Definition auxv_of (cr : Cred) (auxv : Auxval) (execfn random_data : Z) : list (Z * Z) :=
  [(AT_EXECFN, execfn); (AT_RANDOM, random_data); (AT_SECURE, 0);
   (AT_EGID, eid (gids cr)); (AT_GID, rid (gids cr)); (AT_EUID, eid (uids cr)); (AT_UID, rid (uids cr));
   (AT_ENTRY, at_entry auxv); (AT_FLAGS, 0); (AT_PHNUM, at_phnum auxv); (AT_PHENT, at_phent auxv);
   (AT_PHDR, at_phdr auxv); (AT_PAGESZ, PAGE_SIZE)].

(** From [uptr *stack = thread->user_stack] to the count of arguments; [extra] is the
    interpreter of a script and its argument. *)
Definition build_stack (s : space) (top : Z) (path : mem) (extra argv envp : list mem) (cr : Cred) (auxv : Auxval)
    : outcome (space * startup) :=
  let random_data := u64 (top - 16) in
  let! s := store random_data (replicate 16 175) s in
  let! (s, stack) := push_string path (s, random_data) in
  let execfn := stack in
  let env_end := stack in
  let! (s, stack) := push_strings envp (s, stack) in
  let env_start := stack in
  let arg_end := stack in
  let! (s, stack) := push_strings (extra ++ argv) (s, stack) in
  let arg_start := stack in
  let stack := klib.align_down stack 16 in
  let num := Z.of_nat (length argv + length envp + length extra) in
  let stack := if negb (Z.land (num + 1) 1 =? 0) then u64 (stack - 8) else stack in
  let! st := push_word 0 (s, stack) in
  let! st := push_word 0 st in
  let! st := push_auxv (auxv_of cr auxv execfn random_data) st in
  let! st := push_pointers envp env_start st in
  let! st := push_pointers (extra ++ argv) arg_start st in
  let! (s, stack) := push_word (Z.of_nat (length (extra ++ argv))) st in
  Ret (s, mkStartup stack arg_start arg_end env_start env_end).

(** ** Starting *)

Definition ELIBBAD : Z := 80.

Definition user_stack_size : Z := 8388608.
Definition user_binary_base : Z := 94557999988736.
Definition user_linker_base : Z := 138538465099776.
Definition user_mmap_base : Z := 139637976727552.

(** [Thread::init_user] of thread [t] while [active] runs. [reset] is what loading the
    default control words does to the FPU; a thread without an area has no state in it. *)
Definition init_user (reset : list Z -> list Z) (extended_state_size : nat) (k : kernel) (c : CPU) (active t entry new_stack : Z)
    : outcome (kernel * CPU) :=
  let! th := deref (threads k !! t) in
  let th := th <| gpr_state := zero_regs <| cs := 35 |> <| ds := 27 |> <| es := 27 |> <| ss := 27 |>
                                         <| rflags := 514 |> <| rip := entry |> |>
               <| gs_base := self c |> <| fs_base := 0 |> <| extended_state := replicate extended_state_size 0 |> in
  let k := put_thread t th k in
  let! a := deref (threads k !! active) in
  let k := match extended_state a with [] => k | _ => put_thread active (a <| extended_state := fpu c |>) k end in
  let! th := deref (threads k !! t) in
  let c := c <| fpu := reset (extended_state th) |> in
  let k := put_thread t (th <| extended_state := fpu c |>) k in
  let! a := deref (threads k !! active) in
  let c := match extended_state a with [] => c | x => c <| fpu := x |> end in
  let! th := deref (threads k !! t) in
  Ret (put_thread t (th <| thread_user_stack := new_stack |> <| gpr_state ::= fun g => g <| rsp := new_stack |> |>
                        <| saved_user_stack := new_stack |>) k, c).

Section user_exec.
Context {D : Type} `{FilesystemOps D} `{VNodeOps D} (depth : nat) (fresh : nat -> mem)
  (reset : list Z -> list Z) (extended_state_size : nat).

(** The entry of a program and its vnode, or an error; [bad] is the error for a vnode of
    the wrong type. *)
Definition find_program (path : mem) (start : Z) (bad : NodeType -> option Z) (f : vfs D) : outcome ((Z + Z * Z) * vfs D) :=
  let! (e, f) := path_to_entry depth path start true f in
  let! en := deref (entries f !! e) in
  if e_vnode en =? 0 then Ret (inl (- ENOENT), f) else
  let! vn := deref (vnodes f !! e_vnode en) in
  Ret (match bad (node_type vn) with Some err => inl err | None => inr (e, e_vnode en) end, f).
Definition not_regular (t : NodeType) : option Z := if decide (t = REGULAR) then None else Some (- EACCES).
Definition is_directory (t : NodeType) : option Z := if decide (t = DIRECTORY) then Some (- EISDIR) else None.
Definition starting_point (path : mem) (cwd : Z) : outcome Z :=
  let! c := deref (head path) in Ret (if negb (c =? slash) then cwd else 0).

(** What is loaded of a program: its entry, the strings a script adds to its arguments,
    and what [load] gives. *)
Record program := mkProgram {
  executable : Z; extra_args : list mem; p_auxv : Auxval; p_ld : option mem; p_free : Z; p_space : space
}.

(** The program at entry [e] is loaded, or the interpreter if it is a script. *)
Definition load_program (e v cwd : Z) (f : vfs D) : outcome ((Z + program) * vfs D) :=
  let! (f, r) := load fresh empty_space v user_binary_base true 0 f in
  match r with
  | inr (auxv, ld, free, s) => Ret (inr (mkProgram e [] auxv ld free s), f)
  | inl err =>
      let! (buf, f) := file_read v (replicate 256 0) 256 0 f in
      let! script := parse_shebang buf in
      match script with
      | None => Ret (inl err, f)
      | Some (interpreter, arg) =>
          let! (r, f) := find_program interpreter cwd not_regular f in
          match r with
          | inl err => Ret (inl err, f)
          | inr (e, v) =>
              let! (f, r) := load fresh empty_space v user_binary_base true 0 f in
              Ret (match r with
                   | inl err => inl err
                   | inr (auxv, ld, free, s) => inr (mkProgram e (interpreter :: option_list arg) auxv ld free s)
                   end, f)
          end
      end
  end.

(** The dynamic linker [ld], on top of the program: its entry. *)
Definition load_linker (prog : program) (ld : mem) (cwd : Z) (f : vfs D) : outcome ((Z + Z * space) * vfs D) :=
  let! start := starting_point ld cwd in
  let! (r, f) := find_program ld start is_directory f in
  match r with
  | inl err => Ret (inl err, f)
  | inr (_, v) =>
      let! (f, r) := load fresh (p_space prog) v user_linker_base false (p_free prog) f in
      Ret (match r with
           | inl err => inl (if err =? - ENOEXEC then - ELIBBAD else err)
           | inr (auxv, _, _, s) => inr (at_entry auxv, s)
           end, f)
  end.


(** What a failure leaves: init, and no other process, keeps the new address space. *)
Definition exec_failed (k : kernel) (p pagemap' mmap : Z) : outcome kernel :=
  let! pr := deref (processes k !! p) in
  Ret (if pid pr =? 1 then put_process p (pr <| pagemap := Some pagemap' |> <| mmap_anon_base := mmap |>) k else k).

(** The last part: the stack, the registers, and what a new program does not inherit. *)
Definition start_program (k : kernel) (c : CPU) (active p t entry : Z) (path : mem) (argv envp : list mem) (prog : program)
    (s : space) (pagemap' : Z) : outcome (space * startup * kernel * CPU) :=
  let s := map_pages user_mmap_base user_stack_size s in
  let top := user_mmap_base + user_stack_size in
  let! (k, c) := init_user reset extended_state_size k c active t entry top in
  let! th := deref (threads k !! t) in
  let c := c <| fs_register := fs_base th |> in
  let! (s, st) := build_stack s top path (extra_args prog) argv envp (cred th) (p_auxv prog) in
  let k := put_thread t (th <| thread_user_stack := rsp0 st |> <| gpr_state ::= fun g => g <| rsp := rsp0 st |> |>
                            <| saved_user_stack := rsp0 st |>) k in
  let! pr := deref (processes k !! p) in
  let k := put_process p (pr <| mmap_anon_base := top + 65536 |> <| exe := executable prog |>
                             <| pagemap := Some pagemap' |>) k in
  let! k := close_on_exec k p in
  let! pr := deref (processes k !! p) in
  let k := put_process p (pr <| signal_actions ::= map (fun _ => mkSigaction 0 0 0 0) |>
                             <| has_performed_execve := true |>) k in
  let! th := deref (threads k !! t) in
  let k := put_thread t (th <| ss_sp := 0 |> <| ss_flags := SS_DISABLE |> <| ss_size := 0 |>) k in
  Ret (s, st, k, c <| user_stack := rsp0 st |>).

(** [user_exec] while [active] runs; [pagemap'] is the new address space. *)
Definition user_exec (k : kernel) (c : CPU) (active p : Z) (path : mem) (argv envp : list mem) (pagemap' : Z) (f : vfs D)
    : outcome (Z * option (space * startup) * kernel * CPU * vfs D) :=
  let! pr := deref (processes k !! p) in
  let! start := starting_point path (cwd pr) in
  let! (r, f) := find_program path start not_regular f in
  match r with
  | inl err => Ret (err, None, k, c, f)
  | inr (e, v) =>
      let! t := get_main_thread k p in
      let! (r, f) := load_program e v (cwd pr) f in
      match r with
      | inl err => let! k := exec_failed k p pagemap' 0 in Ret (err, None, k, c, f)
      | inr prog =>
          let argv := match extra_args prog, argv with _ :: _, _ :: rest => path :: rest | _, _ => argv end in
          let k := put_process p (pr <| brk := u64 (p_free prog + 805306368) |>) k in
          let! (r, f) := match p_ld prog with
                         | None => Ret (inr (at_entry (p_auxv prog), p_space prog), f)
                         | Some ld => load_linker prog ld (cwd pr) f
                         end in
          match r with
          | inl err => let! k := exec_failed k p pagemap' (p_free prog) in Ret (err, None, k, c, f)
          | inr (entry, s) =>
              let! (s, st, k, c) := start_program k c active p t entry path argv envp prog s pagemap' in
              Ret (0, Some (s, st), k, c, f)
          end
      end
  end.

(** [syscall_execve] of the running thread [t], whose registers at the return are those of
    the new program. *)
Definition syscall_execve (k : kernel) (c : CPU) (t : Z) (path : mem) (argv envp : list mem) (pagemap' : Z) (f : vfs D)
    : outcome (Z * option (space * startup) * kernel * CPU * vfs D) :=
  let! th := deref (threads k !! t) in
  let! (ret, started, k, c, f) := user_exec k c t (process th) path argv envp pagemap' f in
  if ret <? 0 then Ret (ret, started, k, c, f) else
  let! th := deref (threads k !! t) in
  let regs := zero_regs <| rcx := rip (gpr_state th) |> <| r11 := rflags (gpr_state th) |> in
  Ret (0, started, put_thread t (th <| syscall_state := regs |>) k, c, f).
End user_exec.

End exec.
