(* ===== verification/ExecProps.v ===== *)
(** * Properties of executing a program

    The first stack of a program read back by the program, and the segments of a
    program in memory. *)

From S2P Require Import Prelude Algorithm CString Links Context Cred Vector Sched Exec.
Import exec.

(** ** A stack that grows down through zeroed memory *)

(** From [lo] to [top] memory is [l], below it is zero down to [base]. *)
Record stack_at (s : space) (base top lo : Z) (l : list Z) : Prop := {
  st_base : 0 < base <= lo;
  st_top : lo + Z.of_nat (length l) = top;
  st_end : top < 9223372036854775808;
  st_mapped : forall a, base <= a < top -> mapped s a = true;
  st_bytes : forall j b, l !! j = Some b -> byte_at s (lo + Z.of_nat j) = b;
  st_zero : forall a, base <= a < lo -> byte_at s a = 0
}.

Lemma in_range_true s a n : (forall i, (i < n)%nat -> mapped s (a + Z.of_nat i) = true) -> in_range s a n = true.
Proof.
  intros H. apply forallb_forall. intros i Hi. apply H. apply in_seq in Hi. lia.
Qed.

Lemma lookup_splice_mid {A} (off : nat) (bs l : list A) j : (off + length bs <= length l)%nat ->
  splice off bs l !! j = if decide (off <= j < off + length bs)%nat then bs !! (j - off)%nat else l !! j.
Proof. apply lookup_splice. Qed.

(** A store inside what is already there. *)
Lemma store_inside s base top lo l off bs : stack_at s base top lo l -> (off + length bs <= length l)%nat ->
  exists s', store (lo + Z.of_nat off) bs s = Ret s' /\ stack_at s' base top lo (splice off bs l) /\
    forall a, a < lo \/ top <= a -> byte_at s' a = byte_at s a.
Proof.
  intros [Hb Ht He Hm Hl Hz] Hoff. unfold store. rewrite in_range_true by (intros i Hi; apply Hm; lia).
  eexists. split; [done|]. split.
  - split; [done|by rewrite length_splice|done|exact Hm| |].
    + intros j b Hj. rewrite lookup_splice in Hj by done. simpl.
      pose proof (lookup_lt_Some (splice off bs l) j b) as Hlt. rewrite lookup_splice, length_splice in Hlt by done. specialize (Hlt Hj).
      case_decide as Hin.
      * replace (_ && _)%bool with true by lia. replace (Z.to_nat (lo + Z.of_nat j - (lo + Z.of_nat off))) with (j - off)%nat by lia.
        by apply nth_lookup_Some.
      * replace (_ && _)%bool with false by lia. by apply Hl.
    + intros a Ha. simpl. replace (_ && _)%bool with false by lia. by apply Hz.
  - intros a Ha. simpl. by replace (_ && _)%bool with false by lia.
Qed.

(** Room made below, which is zero. *)
Lemma descend s base top lo l k : stack_at s base top lo l -> base <= lo - Z.of_nat k ->
  stack_at s base top (lo - Z.of_nat k) (replicate k 0 ++ l).
Proof.
  intros [Hb Ht He Hm Hl Hz] Hk. split; [lia|rewrite length_app, length_replicate; lia|done|done| |].
  - intros j b Hj. apply lookup_app_Some in Hj as [[-> Hj]%lookup_replicate | [Hlen Hj]].
    + apply Hz. lia.
    + rewrite length_replicate in *. rewrite <- (Hl _ _ Hj). f_equal. lia.
  - intros a Ha. apply Hz. lia.
Qed.

Lemma splice_replicate k (bs l : list Z) : (length bs <= k)%nat ->
  splice 0 bs (replicate k 0 ++ l) = bs ++ replicate (k - length bs) 0 ++ l.
Proof.
  intros Hk. unfold splice. simpl. f_equal. rewrite drop_app_le by (rewrite length_replicate; lia). by rewrite drop_replicate.
Qed.

Lemma store_below s base top lo l k bs : stack_at s base top lo l -> (length bs <= k)%nat -> base <= lo - Z.of_nat k ->
  exists s', store (lo - Z.of_nat k) bs s = Ret s' /\ stack_at s' base top (lo - Z.of_nat k) (bs ++ replicate (k - length bs) 0 ++ l) /\
    forall a, a < base \/ top <= a -> byte_at s' a = byte_at s a.
Proof.
  intros Hs Hk Hlo. pose proof (descend _ _ _ _ _ _ Hs Hlo) as Hd.
  destruct (store_inside _ _ _ _ _ 0 bs Hd) as (s' & Hst & Hs' & Ho); [rewrite length_app, length_replicate; lia|].
  exists s'. rewrite Z.add_0_r in Hst. rewrite splice_replicate in Hs' by done. split_and!; [done..|].
  intros a Ha. apply Ho. lia.
Qed.

(** What [st] holds is [l], and nothing outside the stack has changed since [s0]. *)
Definition stacked (s0 : space) (base top : Z) (st : space * Z) (l : list Z) : Prop :=
  stack_at (fst st) base top (snd st) l /\ forall a, a < base \/ top <= a -> byte_at (fst st) a = byte_at s0 a.

Section stack.
Context (s0 : space) (base top : Z).
Abbreviation stacked := (stacked s0 base top).
(** There is room for [n] bytes. *)
Definition room_for (st : space * Z) (n : nat) : Prop := base <= snd st - Z.of_nat n.

Lemma stacked_u64 st l n : stacked st l -> room_for st n -> u64 (snd st - Z.of_nat n) = snd st - Z.of_nat n.
Proof. unfold room_for. intros [[Hb Ht He _ _ _] _] Hr. apply u64_small. lia. Qed.

Lemma push_string_ok t rest st l : stacked st l -> chars t -> room_for st (length t + 1) ->
  exists st', push_string (cstr t rest) st = Ret st' /\ stacked st' (t ++ [0] ++ l) /\ snd st' = snd st - Z.of_nat (length t + 1).
Proof.
  intros Hst Ht Hr. pose proof (stacked_u64 _ _ _ Hst Hr) as Hu. destruct st as [s lo]. destruct Hst as [Hs Ho].
  unfold push_string. rewrite strlen_cstr by done. cbn [obind fst snd] in *.
  replace (lo - Z.of_nat (length t) - 1) with (lo - Z.of_nat (length t + 1)) by lia. rewrite Hu.
  unfold cstr. rewrite take_app_length.
  destruct (store_below s base top lo l (length t + 1) t Hs) as (s' & -> & Hs' & Ho'); [lia|done|].
  replace (length t + 1 - length t)%nat with 1%nat in Hs' by lia.
  eexists. split; [done|]. split; [|done]. split; [done|]. intros a Ha. rewrite Ho' by done. by apply Ho.
Qed.

(** Strings as the stack holds them. *)
Definition strings (ts : list (list Z)) : list Z := concat (map (fun t => t ++ [0]) ts).

Lemma push_strings_ok ts rests st l : length rests = length ts -> stacked st l -> Forall chars ts -> room_for st (length (strings ts)) ->
  exists st', push_strings (zip_with cstr ts rests) st = Ret st' /\ stacked st' (strings ts ++ l) /\
    snd st' = snd st - Z.of_nat (length (strings ts)).
Proof.
  revert rests. induction ts as [|t ts IH]; intros rests Hlen Hst Hts Hr.
  { exists st. simpl. split; [done|]. split; [done|lia]. }
  destruct rests as [|rest rests]; [done|]. apply Forall_cons in Hts as [Ht Hts]. unfold strings in *. simpl in *.
  rewrite !length_app in Hr. simpl in Hr.
  destruct (IH rests) as (st1 & -> & Hst1 & Hlo1); [lia|done|done|unfold room_for in *; lia|]. cbn [obind].
  destruct (push_string_ok t rest st1 _ Hst1 Ht) as (st2 & -> & Hst2 & Hlo2); [unfold room_for in *; lia|].
  exists st2. split; [done|]. split; [by rewrite <- !app_assoc in *|]. rewrite !length_app. simpl. lia.
Qed.

Definition word (w : Z) : list Z := le_bytes 8 w.
Definition words (ws : list Z) : list Z := concat (map word ws).
Lemma length_word w : length (word w) = 8%nat.
Proof. apply length_le_bytes. Qed.
Lemma length_words ws : length (words ws) = (8 * length ws)%nat.
Proof. unfold words. induction ws as [|w ws IH]; [done|]. cbn [map concat]. rewrite length_app, length_word, IH. simpl. lia. Qed.
Definition is_word (w : Z) : Prop := 0 <= w < 18446744073709551616.

Lemma push_word_ok w st l : stacked st l -> is_word w -> room_for st 8 ->
  exists st', push_word w st = Ret st' /\ stacked st' (word w ++ l) /\ snd st' = snd st - 8.
Proof.
  intros Hst Hw Hr. pose proof (stacked_u64 _ _ _ Hst Hr) as Hu. destruct st as [s lo]. destruct Hst as [Hs Ho].
  unfold push_word, store_word. cbn [fst snd] in *. change (Z.of_nat 8) with 8 in *. rewrite Hu, (u64_small w Hw). fold (word w).
  destruct (store_below s base top lo l 8 (word w) Hs) as (s' & Hst' & Hs' & Ho'); [by rewrite length_word|done|].
  change (Z.of_nat 8) with 8 in *. rewrite Hst'. rewrite length_word in Hs'. simpl in Hs'.
  eexists. split; [done|]. split; [|done]. split; [done|]. intros a Ha. rewrite Ho' by done. by apply Ho.
Qed.

Lemma stack_inside s lo l pre mid post w : stack_at s base top lo l ->
  l = pre ++ mid ++ post -> length mid = 8%nat ->
  exists s', store (lo + Z.of_nat (length pre)) (word w) s = Ret s' /\ stack_at s' base top lo (pre ++ word w ++ post) /\
    forall a, a < base \/ top <= a -> byte_at s' a = byte_at s a.
Proof.
  intros Hs -> Hmid.
  destruct (store_inside s base top lo _ (length pre) (word w) Hs) as (s' & Hst & Hs' & Ho).
  { rewrite !length_app, length_word. lia. }
  exists s'. split; [done|]. split.
  - unfold splice in Hs'. rewrite take_app_length, length_word in Hs'.
    rewrite drop_app_add, <- Hmid, drop_app_length in Hs'. done.
  - intros a Ha. apply Ho. destruct Hs as [Hb Ht _ _ _ _]. lia.
Qed.

Definition pair_words (tv : Z * Z) : list Z := word (fst tv) ++ word (snd tv).

Lemma push_aux_ok tv st l : stacked st l -> is_word (fst tv) -> is_word (snd tv) -> room_for st 16 ->
  exists st', push_aux tv st = Ret st' /\ stacked st' (pair_words tv ++ l) /\ snd st' = snd st - 16.
Proof.
  intros Hst Hf Hv Hr. pose proof (stacked_u64 _ _ _ Hst Hr) as Hu. destruct st as [s lo]. destruct Hst as [Hs Ho].
  unfold push_aux, store_word. cbn [fst snd] in *. change (Z.of_nat 16) with 16 in *. rewrite Hu, (u64_small _ Hf).
  pose proof (descend _ _ _ _ _ 16 Hs Hr) as Hd. change (Z.of_nat 16) with 16 in *.
  destruct (stack_inside _ _ _ [] (replicate 8 0) (replicate 8 0 ++ l) (fst tv) Hd) as (s1 & Hst1 & Hs1 & Ho1); [done|done|].
  change (Z.of_nat (length [])) with 0 in Hst1. rewrite Z.add_0_r in Hst1. unfold word at 1 in Hst1. rewrite Hst1. cbn [obind].
  destruct Hs as [Hb Ht He _ _ _]. unfold room_for in Hr. simpl in Hr.
  destruct (stack_inside _ _ _ (word (fst tv)) (replicate 8 0) l (snd tv) Hs1) as (s2 & Hst2 & Hs2 & Ho2); [done|done|].
  rewrite length_word in Hst2. change (Z.of_nat 8) with 8 in Hst2.
  rewrite (u64_small (lo - 16 + 8)), (u64_small _ Hv) by lia. unfold word at 1 in Hst2. rewrite Hst2. eexists. split; [done|]. split; [|done].
  split; [unfold pair_words; by rewrite <- app_assoc|]. cbn [fst]. intros a Ha. rewrite Ho2, Ho1 by done. by apply Ho.
Qed.
Lemma push_auxv_ok tvs st l : stacked st l -> Forall (fun tv => is_word (fst tv) /\ is_word (snd tv)) tvs ->
  room_for st (16 * length tvs) ->
  exists st', push_auxv tvs st = Ret st' /\ stacked st' (concat (map pair_words (rev tvs)) ++ l) /\
    snd st' = snd st - Z.of_nat (16 * length tvs).
Proof.
  revert st l. induction tvs as [|tv tvs IH]; intros st l Hst Hw Hr.
  { exists st. simpl. split; [done|]. split; [done|lia]. }
  apply Forall_cons in Hw as [[Hf Hv] Hw]. unfold room_for in *. simpl length in *.
  destruct (push_aux_ok tv st l Hst Hf Hv) as (st1 & Hp & Hst1 & Hlo1); [unfold room_for; lia|]. cbn [push_auxv]. rewrite Hp. cbn [obind].
  destruct (IH st1 _ Hst1 Hw) as (st2 & Hp2 & Hst2 & Hlo2); [lia|]. exists st2. split; [done|]. split; [|lia].
  cbn [rev]. rewrite map_app, concat_app. cbn [map concat]. by rewrite app_nil_r, <- app_assoc.
Qed.

(** The addresses of strings from [cur] on. *)
Fixpoint pointers (ts : list (list Z)) (cur : Z) : list Z :=
  match ts with [] => [] | t :: ts => cur :: pointers ts (cur + Z.of_nat (length t) + 1) end.
Lemma length_pointers ts cur : length (pointers ts cur) = length ts.
Proof. revert cur. induction ts; intros cur; simpl; auto. Qed.

Lemma store_pointers_ok ts rests s lo before cur l : length rests = length ts -> Forall chars ts ->
  stack_at s base top lo (before ++ replicate (8 * length ts) 0 ++ l) ->
  0 <= cur -> cur + Z.of_nat (length (strings ts)) < 9223372036854775808 ->
  exists s' cur', store_pointers (zip_with cstr ts rests) (lo + Z.of_nat (length before)) cur s = Ret (s', cur') /\
    stack_at s' base top lo (before ++ words (pointers ts cur) ++ l) /\
    forall a, a < base \/ top <= a -> byte_at s' a = byte_at s a.
Proof.
  revert rests s before cur. induction ts as [|t ts IH]; intros rests s before cur Hlen Hts Hs Hcur Hend.
  { exists s, cur. done. }
  destruct rests as [|rest rests]; [done|]. apply Forall_cons in Hts as [Ht Hts].
  unfold strings in Hend. cbn [map concat] in Hend. fold (strings ts) in Hend. rewrite !length_app in Hend. simpl in Hend.
  replace (8 * length (t :: ts))%nat with (8 + 8 * length ts)%nat in Hs by (simpl; lia).
  rewrite replicate_add, <- app_assoc in Hs. pose proof Hs as [Hb Htop He _ _ _]. rewrite !length_app, !length_replicate in Htop.
  destruct (stack_inside _ _ _ before (replicate 8 0) (replicate (8 * length ts) 0 ++ l) cur Hs) as (s1 & Hst1 & Hs1 & Ho1); [done|done|].
  cbn [zip_with store_pointers]. unfold store_word. rewrite (u64_small cur) by lia. unfold word at 1 in Hst1. rewrite Hst1.
  cbn [obind]. rewrite strlen_cstr by done. cbn [obind].
  rewrite (u64_small (lo + Z.of_nat (length before) + 8)) by lia. rewrite u64_small by lia.
  rewrite app_assoc in Hs1.
  destruct (IH rests s1 (before ++ word cur) (cur + Z.of_nat (length t) + 1)) as (s2 & cur' & Hp & Hs2 & Ho2); [by injection Hlen|done|done|lia|lia|].
  rewrite length_app, length_word in Hp. replace (lo + Z.of_nat (length before + 8)) with (lo + Z.of_nat (length before) + 8) in Hp by lia.
  exists s2, cur'. split; [done|]. split; [|intros a Ha; by rewrite Ho2, Ho1].
  unfold words in *. simpl. by rewrite <- !app_assoc in *.
Qed.

Lemma push_pointers_ok ts rests start st l : length rests = length ts -> Forall chars ts -> stacked st l ->
  room_for st (8 * length ts + 8) -> 0 <= start -> start + Z.of_nat (length (strings ts)) < 9223372036854775808 ->
  exists st', push_pointers (zip_with cstr ts rests) start st = Ret st' /\
    stacked st' (words (pointers ts start) ++ word 0 ++ l) /\ snd st' = snd st - Z.of_nat (8 * length ts + 8).
Proof.
  intros Hlen Hts Hst Hr Hstart Hend. unfold push_pointers, room_for in *.
  destruct (push_word_ok 0 st l Hst) as ([s lo] & -> & [Hs Ho] & Hlo); [done|unfold room_for; lia|]. cbn [obind fst snd] in *.
  rewrite length_zip_with_l_eq by done. replace (8 * Z.of_nat (length ts)) with (Z.of_nat (8 * length ts)) by lia.
  pose proof Hs as [Hb Htop He _ _ _].
  pose proof (descend _ _ _ _ _ (8 * length ts) Hs ltac:(lia)) as Hd. rewrite u64_small by lia.
  destruct (store_pointers_ok ts rests s (lo - Z.of_nat (8 * length ts)) [] start (word 0 ++ l)) as (s' & cur' & Hp & Hs' & Ho'); try done.
  change (Z.of_nat (length [])) with 0 in Hp. rewrite Z.add_0_r in Hp. rewrite Hp. cbn [obind].
  eexists. split; [done|]. split; [|simpl; lia]. split; [done|]. cbn [fst]. intros a Ha. rewrite Ho' by done. by apply Ho.
Qed.

Lemma store_first s lo l k bs : stack_at s base top lo l -> (length bs <= k)%nat -> base <= lo - Z.of_nat k ->
  (forall a, a < base \/ top <= a -> byte_at s a = byte_at s0 a) ->
  exists s', store (lo - Z.of_nat k) bs s = Ret s' /\ stacked (s', lo - Z.of_nat k) (bs ++ replicate (k - length bs) 0 ++ l).
Proof.
  intros Hs Hk Hlo Ho. destruct (store_below s base top lo l k bs Hs Hk Hlo) as (s' & -> & Hs' & Ho').
  exists s'. split; [done|]. split; [done|]. cbn [fst]. intros a Ha. rewrite Ho' by done. by apply Ho.
Qed.

Lemma align_down_16 a : 0 <= a < 9223372036854775808 ->
  exists k, klib.align_down a 16 = a - Z.of_nat k /\ (k < 16)%nat /\ (a - Z.of_nat k) mod 16 = 0.
Proof.
  intros Ha. unfold klib.align_down. exists (Z.to_nat (a mod 16)). case_if; rewrite ?u64_small; lia.
Qed.
End stack.

(** ** What the program finds there *)

Definition view_word (s : space) (a : Z) : outcome Z := let! b := fetch a 8 s in Ret (le_value b).
Fixpoint view_string (fuel : nat) (s : space) (a : Z) : outcome (list Z) :=
  match fuel with
  | O => Undef
  | S fuel =>
      let! b := fetch a 1 s in
      let! c := deref (head b) in
      if c =? 0 then Ret [] else let! t := view_string fuel s (a + 1) in Ret (c :: t)
  end.
(** A table of pointers up to the null one, and the address after it. *)
Fixpoint view_table (fuel : nat) (s : space) (a : Z) : outcome (list Z * Z) :=
  match fuel with
  | O => Undef
  | S fuel =>
      let! w := view_word s a in
      if w =? 0 then Ret ([], a + 8) else let! (ws, a) := view_table fuel s (a + 8) in Ret (w :: ws, a)
  end.
Fixpoint view_aux (fuel : nat) (s : space) (a : Z) : outcome (list (Z * Z)) :=
  match fuel with
  | O => Undef
  | S fuel =>
      let! t := view_word s a in
      let! v := view_word s (a + 8) in
      if t =? 0 then Ret [] else let! l := view_aux fuel s (a + 16) in Ret ((t, v) :: l)
  end.
Fixpoint view_strings (fuel : nat) (s : space) (ws : list Z) : outcome (list (list Z)) :=
  match ws with
  | [] => Ret []
  | w :: ws => let! t := view_string fuel s w in let! ts := view_strings fuel s ws in Ret (t :: ts)
  end.

(** What the start-up code of a program reads: its arguments, its environment and the
    auxiliary vector. *)
Definition view_stack (fuel : nat) (s : space) (rsp : Z) : outcome (list (list Z) * list (list Z) * list (Z * Z)) :=
  let! argc := view_word s rsp in
  let! (argv, a) := view_table fuel s (rsp + 8) in
  let! _ := assert (argc =? Z.of_nat (length argv)) in
  let! (envp, a) := view_table fuel s a in
  let! aux := view_aux fuel s a in
  let! args := view_strings fuel s argv in
  let! env := view_strings fuel s envp in
  Ret (args, env, aux).

Section view.
Context (s : space) (base top lo : Z) (l : list Z) (Hs : stack_at s base top lo l).

Lemma fetch_mid pre mid post : l = pre ++ mid ++ post -> fetch (lo + Z.of_nat (length pre)) (length mid) s = Ret mid.
Proof.
  intros Hl. destruct Hs as [Hb Ht He Hm Hbytes _]. rewrite Hl, !length_app in Ht. unfold fetch.
  rewrite in_range_true by (intros i Hi; apply Hm; lia). f_equal.
  apply list_eq. intros j. rewrite list_lookup_fmap. destruct (decide (j < length mid)%nat) as [Hj|Hj].
  - rewrite lookup_seq_lt by done. destruct (lookup_lt_is_Some_2 mid j Hj) as [b Hb']. rewrite Hb'. simpl. f_equal.
    rewrite <- (Hbytes (length pre + j)%nat b).
    + f_equal. lia.
    + rewrite Hl, lookup_app_r by lia. replace (length pre + j - length pre)%nat with j by lia. by apply lookup_app_l_Some.
  - rewrite lookup_seq_ge by lia. rewrite (proj2 (lookup_ge_None mid j)) by lia. done.
Qed.

Lemma view_word_mid pre w post : l = pre ++ word w ++ post -> is_word w -> view_word s (lo + Z.of_nat (length pre)) = Ret w.
Proof.
  intros Hl Hw. unfold view_word. pose proof (fetch_mid _ _ _ Hl) as Hf. rewrite length_word in Hf. rewrite Hf. cbn [obind].
  f_equal. apply le_value_bytes. exact Hw.
Qed.

Lemma view_string_mid t pre post fuel : l = pre ++ t ++ 0 :: post -> chars t -> (length t < fuel)%nat ->
  view_string fuel s (lo + Z.of_nat (length pre)) = Ret t.
Proof.
  revert pre fuel. induction t as [|c t IH]; intros pre fuel Hl Ht Hf; (destruct fuel as [|fuel]; [simpl in Hf; lia|]); cbn [view_string].
  - pose proof (fetch_mid pre [0] post Hl) as Hb. cbn [length] in Hb. by rewrite Hb.
  - apply Forall_cons in Ht as [Hc Ht]. pose proof (fetch_mid pre [c] (t ++ 0 :: post) Hl) as Hb.
    cbn [length] in Hb. rewrite Hb. cbn [obind head deref].
    rewrite (proj2 (Z.eqb_neq c 0) Hc). specialize (IH (pre ++ [c]) fuel). rewrite length_app in IH. simpl length in *.
    replace (lo + Z.of_nat (length pre + 1)) with (lo + Z.of_nat (length pre) + 1) in IH by lia.
    rewrite IH; [done|by rewrite <- app_assoc|done|lia].
Qed.

Lemma view_table_mid ws pre post fuel : l = pre ++ words ws ++ word 0 ++ post -> Forall (fun w => is_word w /\ w <> 0) ws ->
  (length ws < fuel)%nat ->
  view_table fuel s (lo + Z.of_nat (length pre)) = Ret (ws, lo + Z.of_nat (length pre + 8 * length ws + 8)).
Proof.
  revert pre fuel. induction ws as [|w ws IH]; intros pre fuel Hl Hw Hf; (destruct fuel as [|fuel]; [simpl in Hf; lia|]); cbn [view_table].
  - rewrite (view_word_mid pre 0 post Hl) by done. cbn. do 2 f_equal. lia.
  - apply Forall_cons in Hw as [[Hw Hnz] Hws]. unfold words in Hl. cbn [map concat] in Hl. fold (words ws) in Hl. rewrite <- app_assoc in Hl.
    rewrite (view_word_mid pre w _ Hl) by done. cbn [obind]. rewrite (proj2 (Z.eqb_neq w 0) Hnz).
    specialize (IH (pre ++ word w) fuel). rewrite length_app, length_word in IH. simpl length in *.
    replace (lo + Z.of_nat (length pre + 8)) with (lo + Z.of_nat (length pre) + 8) in IH by lia.
    rewrite IH; [|by rewrite <- app_assoc|done|lia]. cbn [obind]. do 2 f_equal. lia.
Qed.

Lemma view_aux_mid tvs pre post fuel : l = pre ++ concat (map pair_words tvs) ++ word 0 ++ word 0 ++ post ->
  Forall (fun tv => is_word (fst tv) /\ is_word (snd tv) /\ fst tv <> 0) tvs -> (length tvs < fuel)%nat ->
  view_aux fuel s (lo + Z.of_nat (length pre)) = Ret tvs.
Proof.
  revert pre fuel. induction tvs as [|[t v] tvs IH]; intros pre fuel Hl Hw Hf; (destruct fuel as [|fuel]; [simpl in Hf; lia|]); cbn [view_aux].
  - rewrite (view_word_mid pre 0 _ Hl) by done. cbn [obind]. cbn [map concat app] in Hl.
    pose proof (view_word_mid (pre ++ word 0) 0 post) as Hv. rewrite length_app, length_word in Hv.
    replace (lo + Z.of_nat (length pre + 8)) with (lo + Z.of_nat (length pre) + 8) in Hv by lia.
    rewrite Hv; [done|by rewrite <- app_assoc|done].
  - apply Forall_cons in Hw as [(Ht & Hv & Hnz) Hws]. cbn [map concat fst snd] in *. unfold pair_words in Hl at 1. cbn [fst snd] in Hl.
    rewrite <- !app_assoc in Hl. rewrite (view_word_mid pre t _ Hl Ht). cbn [obind].
    pose proof (view_word_mid (pre ++ word t) v) as Hv'. rewrite length_app, length_word in Hv'.
    replace (lo + Z.of_nat (length pre + 8)) with (lo + Z.of_nat (length pre) + 8) in Hv' by lia.
    rewrite (Hv' (concat (map pair_words tvs) ++ word 0 ++ word 0 ++ post)); [|by rewrite <- app_assoc|done]. cbn [obind].
    rewrite (proj2 (Z.eqb_neq t 0) Hnz).
    specialize (IH (pre ++ word t ++ word v) fuel). rewrite !length_app, !length_word in IH. simpl length in *.
    replace (lo + Z.of_nat (length pre + (8 + 8))) with (lo + Z.of_nat (length pre) + 16) in IH by lia.
    rewrite IH; [done|by rewrite <- !app_assoc|done|lia].
Qed.

Lemma view_strings_mid ts pre post fuel : l = pre ++ strings ts ++ post -> Forall chars ts ->
  (length (strings ts) < fuel)%nat ->
  view_strings fuel s (pointers ts (lo + Z.of_nat (length pre))) = Ret ts.
Proof.
  revert pre. induction ts as [|t ts IH]; intros pre Hl Hts Hf; [done|]. apply Forall_cons in Hts as [Ht Hts].
  unfold strings in *. cbn [map concat] in *. fold (strings ts) in *. rewrite !length_app in Hf. simpl in Hf. rewrite <- !app_assoc in Hl.
  cbn [pointers view_strings]. rewrite (view_string_mid t pre (strings ts ++ post)); [|done|done|lia]. cbn [obind].
  specialize (IH (pre ++ t ++ [0])). rewrite !length_app in IH. simpl length in IH.
  replace (lo + Z.of_nat (length pre + (length t + 1))) with (lo + Z.of_nat (length pre) + Z.of_nat (length t) + 1) in IH by lia.
  rewrite IH; [done|by rewrite <- !app_assoc|done|lia].
Qed.
End view.

(** A C string in memory, and its text. *)
Definition is_string (m : mem) (t : list Z) : Prop := exists rest, m = cstr t rest /\ chars t.

Lemma strings_zip ms ts : Forall2 is_string ms ts ->
  exists rests, ms = zip_with cstr ts rests /\ length rests = length ts /\ Forall chars ts.
Proof.
  induction 1 as [|m t ms ts (rest & -> & Ht) _ (rests & -> & Hl & Hts)]; [by exists []|].
  exists (rest :: rests). simpl. auto.
Qed.

(** The bytes a start needs: 13 auxiliary values, the tables, the strings, and at most 24
    bytes of padding. *)
Definition stack_need (args env : list (list Z)) (path : list Z) : nat :=
  (16 + (length path + 1) + length (strings env) + length (strings args) + 24 + 16 + 208 +
   (8 * length env + 8) + (8 * length args + 8) + 8)%nat.

Definition auxval_ok (auxv : Auxval) : Prop :=
  is_word (at_entry auxv) /\ is_word (at_phdr auxv) /\ is_word (at_phent auxv) /\ is_word (at_phnum auxv).
Definition ids_ok (cr : Cred) : Prop :=
  is_word (eid (gids cr)) /\ is_word (rid (gids cr)) /\ is_word (eid (uids cr)) /\ is_word (rid (uids cr)).

Lemma auxv_words cr auxv a b : ids_ok cr -> auxval_ok auxv -> is_word a -> is_word b ->
  Forall (fun tv => is_word (fst tv) /\ is_word (snd tv) /\ fst tv <> 0) (auxv_of cr auxv a b).
Proof.
  intros (? & ? & ? & ?) (? & ? & ? & ?) ? ?. unfold auxv_of.
  repeat (constructor; [cbn [fst snd]; split; [vm_compute; split; congruence|]; split; [done || (vm_compute; split; congruence)|done]|]).
  constructor.
Qed.

(** What [build_stack] leaves, from the stack pointer up. *)
Lemma build_stack_image s0 base top path tp extra argv args envp env cr auxv :
  stack_at s0 base top top [] -> is_string path tp -> Forall2 is_string (extra ++ argv) args -> Forall2 is_string envp env ->
  ids_ok cr -> auxval_ok auxv -> base + Z.of_nat (stack_need args env tp) <= top ->
  exists s st pad, build_stack s0 top path extra argv envp cr auxv = Ret (s, st) /\
    rsp0 st mod 16 = 0 /\ (pad < 24)%nat /\
    let execfn := top - 16 - Z.of_nat (length tp + 1) in
    env_end st = execfn /\ env_start st = execfn - Z.of_nat (length (strings env)) /\
    arg_end st = env_start st /\ arg_start st = arg_end st - Z.of_nat (length (strings args)) /\
    stacked s0 base top (s, rsp0 st)
      (word (Z.of_nat (length args)) ++ words (pointers args (arg_start st)) ++ word 0 ++
       words (pointers env (env_start st)) ++ word 0 ++
       concat (map pair_words (rev (auxv_of cr auxv execfn (top - 16)))) ++ word 0 ++ word 0 ++
       replicate pad 0 ++ strings args ++ strings env ++ tp ++ [0] ++ replicate 16 175).
Proof.
  intros Hs0 (rp & -> & Htp) Hargs Henv Hids Haux Hneed. unfold stack_need in Hneed.
  destruct (strings_zip _ _ Hargs) as (ra & Hza & Hla & Hta). destruct (strings_zip _ _ Henv) as (re & -> & Hle & Hte).
  assert (length (extra ++ argv) = length args) as Hlen by (rewrite Hza; apply length_zip_with_l_eq; lia).
  assert (length (zip_with cstr env re) = length env) as Hlenv by (apply length_zip_with_l_eq; lia).
  pose proof Hs0 as [Hb Htop He _ _ _]. unfold build_stack.
  rewrite (u64_small (top - 16)) by lia.
  destruct (store_first s0 base top s0 top [] 16 (replicate 16 175) Hs0) as (s1 & Hst1 & Hs1); [done|lia|done|].
  change (Z.of_nat 16) with 16 in *. rewrite Hst1. cbn [obind]. cbn [length replicate Nat.sub app] in Hs1.
  destruct (push_string_ok s0 base top tp rp (s1, top - 16) _ Hs1 Htp) as ([s2 p2] & -> & Hs2 & Hp2); [unfold room_for; simpl; lia|].
  cbn [obind fst snd] in *.
  destruct (push_strings_ok s0 base top env re (s2, p2) _ Hle Hs2 Hte) as ([s3 p3] & -> & Hs3 & Hp3); [unfold room_for; simpl; lia|].
  cbn [obind fst snd] in *. rewrite Hza.
  destruct (push_strings_ok s0 base top args ra (s3, p3) _ Hla Hs3 Hta) as ([s4 p4] & -> & Hs4 & Hp4); [unfold room_for; simpl; lia|].
  cbn [obind fst snd] in *.
  assert (0 <= p4 < 9223372036854775808) as Hp4r by lia.
  destruct (align_down_16 p4 Hp4r) as (k & Hk & Hk16 & Hmod). rewrite Hk.
  set (num := Z.of_nat (length argv + length (zip_with cstr env re) + length extra)).
  assert (num = Z.of_nat (length args + length env)) as Hnum by (rewrite length_app in Hlen; unfold num in *; lia).
  set (pad := (k + (if negb (Z.land (num + 1) 1 =? 0)%Z then 8 else 0))%nat).
  assert (pad < 24)%nat as Hpad by (unfold pad; destruct (negb _); lia).
  assert ((if negb (Z.land (num + 1) 1 =? 0) then u64 (p4 - Z.of_nat k - 8) else p4 - Z.of_nat k) = p4 - Z.of_nat pad) as ->.
  { unfold pad. destruct (negb _); rewrite ?u64_small; lia. }
  assert (stacked s0 base top (s4, p4 - Z.of_nat pad) (replicate pad 0 ++ strings args ++ strings env ++ tp ++ [0] ++ replicate 16 175)) as Hs5.
  { destruct Hs4 as [Hs4 Ho4]. split; [|exact Ho4]. cbn [fst snd] in *. apply descend; [|lia]. done. }
  destruct (push_word_ok s0 base top 0 _ _ Hs5) as (st6 & Hr6 & Hs6 & Hp6); [done|unfold room_for; simpl; lia|]. rewrite Hr6. cbn [obind fst snd] in *.
  destruct (push_word_ok s0 base top 0 _ _ Hs6) as (st7 & Hr7 & Hs7 & Hp7); [done|unfold room_for; simpl; lia|]. rewrite Hr7. cbn [obind fst snd] in *.
  assert (length (auxv_of cr auxv p2 (top - 16)) = 13%nat) as Hl13 by done.
  destruct (push_auxv_ok s0 base top (auxv_of cr auxv p2 (top - 16)) _ _ Hs7) as (st8 & Hr8 & Hs8 & Hp8).
  { eapply Forall_impl; [apply auxv_words; [done|done|unfold is_word; lia|unfold is_word; lia]|]. simpl. tauto. }
  { rewrite Hl13. unfold room_for. lia. }
  rewrite Hr8. rewrite Hl13 in Hp8. cbn [obind].
  destruct (push_pointers_ok s0 base top env re p3 _ _ Hle Hte Hs8) as (st9 & Hr9 & Hs9 & Hp9); [unfold room_for; lia|lia|lia|].
  rewrite Hr9. cbn [obind].
  destruct (push_pointers_ok s0 base top args ra p4 _ _ Hla Hta Hs9) as (st10 & Hr10 & Hs10 & Hp10); [unfold room_for; lia|lia|lia|].
  rewrite Hr10. cbn [obind]. rewrite <- Hza, Hlen.
  destruct (push_word_ok s0 base top (Z.of_nat (length args)) _ _ Hs10) as ([s11 p11] & Hr11 & Hs11 & Hp11); [unfold is_word; lia|unfold room_for; lia|].
  rewrite Hr11. cbn [obind fst snd] in *.
  exists s11, (mkStartup p11 p4 p3 p3 p2), pad. split; [done|]. cbn [rsp0 env_end env_start arg_end arg_start].
  assert (p2 = top - 16 - Z.of_nat (length tp + 1)) as Hp2' by lia.
  split; [|split; [done|split; [done|split; [lia|split; [done|split; [lia|]]]]]].
  - assert (p11 = p4 - Z.of_nat pad - 8 * (31 + num)) as -> by lia. unfold pad. clear -Hmod.
    change 1 with (Z.ones 1) at 2. rewrite Z.land_ones by lia. change (2 ^ 1) with 2.
    destruct (Z.eqb_spec ((num + 1) mod 2) 0); simpl negb; cbn iota; rewrite Nat2Z.inj_add; simpl Z.of_nat; lia.
  - rewrite <- Hp2'. rewrite <- ?app_assoc in Hs11. exact Hs11.
Qed.

Lemma pointers_words ts cur : 0 < cur -> cur + Z.of_nat (length (strings ts)) < 9223372036854775808 ->
  Forall (fun w => is_word w /\ w <> 0) (pointers ts cur).
Proof.
  revert cur. induction ts as [|t ts IH]; intros cur Hc He; [constructor|]. unfold strings in He. cbn [map concat] in He. fold (strings ts) in He.
  rewrite !length_app in He. simpl in He. constructor; [unfold is_word; lia|]. apply IH; lia.
Qed.
Lemma length_pair_words tvs : length (concat (map pair_words tvs)) = (16 * length tvs)%nat.
Proof.
  induction tvs as [|tv tvs IH]; [done|]. cbn [map concat]. rewrite length_app, IH. unfold pair_words. rewrite length_app, !length_word. simpl. lia.
Qed.
Lemma length_strings_le ts : (length ts <= length (strings ts))%nat.
Proof. induction ts as [|t ts IH]; [done|]. unfold strings in *. simpl. rewrite !length_app. simpl. lia. Qed.

(** The tables of pointers and values at the bottom of a stack. *)
Definition tables (args env : list (list Z)) (a e : Z) (tvs : list (Z * Z)) (pad : nat) : list Z :=
  word (Z.of_nat (length args)) ++ words (pointers args a) ++ word 0 ++ words (pointers env e) ++ word 0 ++
  concat (map pair_words tvs) ++ word 0 ++ word 0 ++ replicate pad 0.

Lemma length_tables args env a e tvs pad :
  length (tables args env a e tvs pad) = (8 + (8 * length args + 8) + (8 * length env + 8) + 16 * length tvs + 16 + pad)%nat.
Proof.
  unfold tables. rewrite !length_app, !length_word, !length_words, !length_pointers, length_pair_words, length_replicate. lia.
Qed.

Section image.
Context (s : space) (base top lo : Z) (args env : list (list Z)) (a e : Z) (tvs : list (Z * Z)) (pad : nat) (tp random : list Z).
Let R := tables args env a e tvs pad.
Let l := R ++ strings args ++ strings env ++ tp ++ 0 :: random.
Context (Hs : stack_at s base top lo l) (Hta : Forall chars args) (Hte : Forall chars env) (Htp : chars tp) (fuel : nat)
  (Hfuel : (length (strings args) + length (strings env) + length tp + length tvs < fuel)%nat).

(** The strings follow the tables. *)
Lemma view_image_strings : lo + Z.of_nat (length R) = a -> a + Z.of_nat (length (strings args)) = e ->
  view_strings fuel s (pointers args a) = Ret args /\ view_strings fuel s (pointers env e) = Ret env /\
  view_string fuel s (e + Z.of_nat (length (strings env))) = Ret tp /\
  fetch a (length (strings args)) s = Ret (strings args) /\ fetch e (length (strings env)) s = Ret (strings env).
Proof.
  intros Ha He.
  assert (l = (R ++ strings args) ++ strings env ++ tp ++ 0 :: random) as Hl2 by (unfold l; by rewrite <- !app_assoc).
  assert (l = ((R ++ strings args) ++ strings env) ++ tp ++ 0 :: random) as Hl3 by (unfold l; by rewrite <- !app_assoc).
  assert (lo + Z.of_nat (length (R ++ strings args)) = e) as He' by (rewrite length_app; lia).
  pose proof (view_strings_mid s base top lo l Hs args R _ fuel eq_refl Hta ltac:(lia)) as Hva. rewrite Ha in Hva.
  pose proof (view_strings_mid s base top lo l Hs env _ _ fuel Hl2 Hte ltac:(lia)) as Hve. rewrite He' in Hve.
  pose proof (view_string_mid s base top lo l Hs tp _ _ fuel Hl3 Htp ltac:(lia)) as Hvx.
  rewrite length_app, Nat2Z.inj_add, Z.add_assoc, He' in Hvx.
  pose proof (fetch_mid s base top lo l Hs R _ _ eq_refl) as Hfa. rewrite Ha in Hfa.
  pose proof (fetch_mid s base top lo l Hs _ _ _ Hl2) as Hfe. rewrite He' in Hfe. done.
Qed.

(** The tables, and through them the strings. *)
Lemma view_image_tables : Forall (fun tv => is_word (fst tv) /\ is_word (snd tv) /\ fst tv <> 0) tvs ->
  lo + Z.of_nat (length R) = a -> a + Z.of_nat (length (strings args)) = e ->
  view_stack fuel s lo = Ret (args, env, tvs).
Proof.
  intros Htvs Ha He. destruct (view_image_strings Ha He) as (Hva & Hve & _). pose proof Hs as [Hb Htop Hend _ _ _].
  pose proof (length_strings_le args). pose proof (length_strings_le env).
  pose proof (length_tables args env a e tvs pad) as HlR. fold R in HlR. unfold l in Htop. rewrite !length_app in Htop.
  assert (0 < a) as Ha0 by lia.
  set (rest := strings args ++ strings env ++ tp ++ 0 :: random) in *.
  set (A := word (Z.of_nat (length args))). set (P := words (pointers args a)). set (Q := words (pointers env e)).
  set (V := concat (map pair_words tvs)).
  assert (l = A ++ P ++ word 0 ++ (Q ++ word 0 ++ V ++ word 0 ++ word 0 ++ replicate pad 0) ++ rest) as Hl1
    by (unfold l, R, tables; by rewrite <- !app_assoc).
  assert (l = (A ++ P ++ word 0) ++ Q ++ word 0 ++ (V ++ word 0 ++ word 0 ++ replicate pad 0) ++ rest) as Hl2
    by (unfold l, R, tables; by rewrite <- !app_assoc).
  assert (l = (A ++ P ++ word 0 ++ Q ++ word 0) ++ V ++ word 0 ++ word 0 ++ replicate pad 0 ++ rest) as Hl3
    by (unfold l, R, tables; by rewrite <- !app_assoc).
  assert (length A = 8 /\ length P = 8 * length args /\ length Q = 8 * length env /\ length (word 0) = 8)%nat as (HlA & HlP & HlQ & Hl0).
  { unfold A, P, Q. by rewrite !length_words, !length_pointers, !length_word. }
  unfold view_stack.
  pose proof (view_word_mid s base top lo l Hs [] _ _ Hl1 ltac:(unfold is_word; lia)) as Hw.
  change (Z.of_nat (length [])) with 0 in Hw. rewrite Z.add_0_r in Hw. rewrite Hw. cbn [obind].
  pose proof (view_table_mid s base top lo l Hs _ A _ fuel Hl1 (pointers_words args a ltac:(lia) ltac:(lia))) as Hta'.
  rewrite length_pointers, HlA in Hta'. change (Z.of_nat 8) with 8 in Hta'. rewrite Hta' by lia. cbn [obind].
  rewrite length_pointers, Z.eqb_refl. cbn [assert obind].
  pose proof (view_table_mid s base top lo l Hs _ _ _ fuel Hl2 (pointers_words env e ltac:(lia) ltac:(lia))) as Hte'.
  rewrite length_pointers, !length_app, HlA, HlP, Hl0 in Hte'.
  replace (8 + (8 * length args + 8))%nat with (8 + 8 * length args + 8)%nat in Hte' by lia. rewrite Hte' by lia. cbn [obind].
  pose proof (view_aux_mid s base top lo l Hs _ _ _ fuel Hl3 Htvs ltac:(lia)) as Hv'.
  rewrite !length_app, HlA, HlP, HlQ, Hl0 in Hv'.
  replace (8 + (8 * length args + (8 + (8 * length env + 8))))%nat with (8 + 8 * length args + 8 + 8 * length env + 8)%nat in Hv' by lia.
  rewrite Hv', Hva, Hve. done.
Qed.
End image.

(** C18. A program finds its arguments. When they fit, [build_stack] stays within the
    stack, leaves the stack pointer a multiple of 16, and what the program's start-up
    code reads from there on (the count, the two tables up to their null pointers, the
    strings they point to, the auxiliary vector up to AT_NULL) is the arguments, those
    a script adds first, the environment, and the auxiliary values, among them the
    address of the path. The two areas of strings that the process remembers for procfs
    hold them. *)
Theorem program_finds_arguments s0 base top path tp extra argv args envp env cr auxv fuel :
  stack_at s0 base top top [] -> is_string path tp -> Forall2 is_string (extra ++ argv) args -> Forall2 is_string envp env ->
  ids_ok cr -> auxval_ok auxv -> base + Z.of_nat (stack_need args env tp) <= top -> (stack_need args env tp < fuel)%nat ->
  let execfn := top - 16 - Z.of_nat (length tp + 1) in
  exists s st, build_stack s0 top path extra argv envp cr auxv = Ret (s, st) /\
    rsp0 st mod 16 = 0 /\ base <= rsp0 st /\
    view_stack fuel s (rsp0 st) = Ret (args, env, rev (auxv_of cr auxv execfn (top - 16))) /\
    view_string fuel s execfn = Ret tp /\
    fetch (arg_start st) (Z.to_nat (arg_end st - arg_start st)) s = Ret (strings args) /\
    fetch (env_start st) (Z.to_nat (env_end st - env_start st)) s = Ret (strings env) /\
    (forall a, a < base \/ top <= a -> byte_at s a = byte_at s0 a).
Proof.
  intros Hs0 Hpath Hargs Henv Hids Haux Hneed Hfuel execfn.
  destruct (build_stack_image s0 base top path tp extra argv args envp env cr auxv) as (s & st & pad & Hb & Hmod & Hpad & He1 & He2 & Ha1 & Ha2 & Hs & Ho);
    [done..|]. fold execfn in He1, Hs. exists s, st.
  destruct (strings_zip _ _ Hargs) as (_ & _ & _ & Hta). destruct (strings_zip _ _ Henv) as (_ & _ & _ & Hte).
  destruct Hpath as (_ & _ & Htp). set (tvs := rev (auxv_of cr auxv execfn (top - 16))) in *.
  assert (stack_at s base top (rsp0 st) (tables args env (arg_start st) (env_start st) tvs pad ++
    strings args ++ strings env ++ tp ++ 0 :: replicate 16 175)) as Hst.
  { unfold tables. rewrite <- !app_assoc. exact Hs. }
  pose proof Hst as [Hbase Htop Hend _ _ _]. pose proof Hs0 as [Hb0 _ _ _ _ _]. unfold stack_need in *.
  assert (length tvs = 13%nat) as Hl13 by done.
  assert (rsp0 st + Z.of_nat (length (tables args env (arg_start st) (env_start st) tvs pad)) = arg_start st) as HR.
  { rewrite !length_app in Htop. cbn [length] in Htop. rewrite length_replicate in Htop. lia. }
  assert (Forall (fun tv => is_word (fst tv) /\ is_word (snd tv) /\ fst tv <> 0) tvs) as Htvs.
  { unfold tvs. apply Forall_rev. apply auxv_words; [done|done|unfold is_word, execfn; lia|unfold is_word; lia]. }
  destruct (view_image_strings s base top _ args env _ _ tvs pad tp _ Hst Hta Hte Htp fuel ltac:(lia) HR ltac:(lia)) as (_ & _ & Hx & Hfa & Hfe).
  split_and!; [done|done|lia| | | | |].
  - eapply view_image_tables; try done; lia.
  - by replace execfn with (env_start st + Z.of_nat (length (strings env))) by lia.
  - by replace (Z.to_nat (arg_end st - arg_start st)) with (length (strings args)) by lia.
  - by replace (Z.to_nat (env_end st - env_start st)) with (length (strings env)) by lia.
  - intros a Ha. by apply Ho.
Qed.

(** The stack of a new process is such a stack. *)
Lemma new_stack s : (forall a, user_mmap_base <= a < user_mmap_base + user_stack_size -> byte_at s a = 0) ->
  stack_at (map_pages user_mmap_base user_stack_size s) user_mmap_base (user_mmap_base + user_stack_size)
    (user_mmap_base + user_stack_size) [].
Proof.
  intros Hz. split; [done|simpl; lia|done| |done|done].
  intros a Ha. unfold mapped, map_pages. cbn [maps upd existsb]. replace (_ && _)%bool with true by lia. done.
Qed.

Definition sample_cred : Cred := mkCred (mkIdSet 0 0 0 0) (mkIdSet 0 0 0 0) [].

Lemma program_finds_arguments_witness :
  exists s st, build_stack (map_pages user_mmap_base user_stack_size empty_space) (user_mmap_base + user_stack_size)
      [47; 97; 0] [] [[97; 0]; [45; 120; 0]] [[80; 61; 47; 0]] sample_cred (mkAuxval 4096 64 56 2) = Ret (s, st) /\
    exists aux, view_stack 1000 s (rsp0 st) = Ret ([[97]; [45; 120]], [[80; 61; 47]], aux) /\ length aux = 13%nat.
Proof.
  destruct (program_finds_arguments (map_pages user_mmap_base user_stack_size empty_space) user_mmap_base
    (user_mmap_base + user_stack_size) [47; 97; 0] [47; 97] [] [[97; 0]; [45; 120; 0]] [[97]; [45; 120]] [[80; 61; 47; 0]] [[80; 61; 47]]
    sample_cred (mkAuxval 4096 64 56 2) 1000) as (s & st & Hb & _ & _ & Hv & _).
  - by apply new_stack.
  - exists []. split; [done|by repeat constructor].
  - repeat constructor; exists []; (split; [done|by repeat constructor]).
  - repeat constructor. exists []. split; [done|by repeat constructor].
  - repeat split; vm_compute; congruence.
  - repeat split; vm_compute; congruence.
  - vm_compute. congruence.
  - vm_compute. lia.
  - exists s, st. split; [exact Hb|]. eexists. split; [exact Hv|done].
Defined.

(** ** Scripts *)

Lemma take_word_stops buf w rest : take_word buf = Ret (w, rest) -> exists c tl, rest = c :: tl /\ (c = 0 \/ c = 32).
Proof.
  revert w. induction buf as [|c buf IH]; intros w Hw; [done|]. simpl in Hw. destruct ((c =? 0) || (c =? 32)) eqn:Hc.
  - injection Hw as _ <-. exists c, buf. split; [done|]. lia.
  - apply obind_Ret in Hw as ([w' r'] & Hw & [= <- <-]). by apply (IH w').
Qed.

(** The argument of the interpreter is never found: the search for its end starts at the
    space before it. *)
Lemma shebang_argument_dropped buf path arg : parse_shebang buf = Ret (Some (path, arg)) -> arg = None.
Proof.
  intros Hp. unfold parse_shebang in Hp. destruct (list_find _ _) as [[i ?]|]; [|done].
  destruct (_ || _)%bool; [done|]. apply obind_Ret in Hp as (b & _ & Hp). apply obind_Ret in Hp as (c & _ & Hp).
  destruct (c =? 0); [done|]. apply obind_Ret in Hp as ([w r] & Hw & Hp). destruct (length w =? 0)%nat; [done|].
  apply take_word_stops in Hw as (c' & tl & -> & Hc). destruct Hc as [-> | ->]; simpl in Hp; by injection Hp as _ <-.
Qed.
