(* ===== verification/ElfProps.v ===== *)
(** * Properties of loading a program *)

From S2P Require Import Prelude Algorithm CString TimeSpec Vfs Exec.
Import exec.

(** ** A segment in memory *)

Lemma store_ok s x bs : (forall a, x <= a < x + Z.of_nat (length bs) -> mapped s a = true) ->
  exists s', store x bs s = Ret s' /\ maps s' = maps s /\
    forall a, byte_at s' a = if decide (x <= a < x + Z.of_nat (length bs)) then nth (Z.to_nat (a - x)) bs 0 else byte_at s a.
Proof.
  intros Hm. unfold store, in_range. rewrite (proj2 (forallb_forall _ _)).
  - eexists. split; [done|]. split; [done|]. intros a. simpl. case_decide as Ha.
    + by replace (_ && _)%bool with true by lia.
    + by replace (_ && _)%bool with false by lia.
  - intros i Hi%in_seq. apply Hm. lia.
Qed.

Lemma nth_replicate_same n (x : Z) i : nth i (replicate n x) x = x.
Proof. rewrite nth_lookup. destruct (replicate n x !! i) eqn:E; [by apply lookup_replicate in E as [-> _]|done]. Qed.

Section segment.
Context {D : Type} `{VNodeOps D}.
Context (v : Z) (ph : mem) (data : list Z) (f : vfs D) (load_base : Z).
(** Reading the file gives its bytes and changes nothing. *)
Context (Hread : forall count offset, 0 <= count -> 0 <= offset -> offset + count <= Z.of_nat (length data) ->
  v_read v None count offset f = Ret (count, take (Z.to_nat count) (drop (Z.to_nat offset) data), f)).

Let F := p_file_size ph.
Let N := p_mem_size ph.
Let O := p_offset ph.
Let M := Z.land (p_virt_addr ph) 4095.
Let base := load_base + p_virt_addr ph.
Let AB := base - M.

(** A segment of a file on pages of its own: it lies in the file, is no longer than its
    memory, and its addresses do not wrap. *)
Record segment_ok : Prop := {
  sg_base : 0 <= load_base /\ load_base mod 4096 = 0;
  sg_addr : 0 <= p_virt_addr ph;
  sg_size : 0 <= F <= N;
  sg_file : 0 <= O /\ O + F <= Z.of_nat (length data);
  sg_end : base + N < 4611686018427387904 /\ O + F < 4611686018427387904
}.

(** The byte of the segment at an address. *)
Definition segment_byte (a : Z) : Z :=
  if decide (base <= a < base + F) then nth (Z.to_nat (O + (a - base))) data 0 else 0.

Lemma misalign_range : 0 <= p_virt_addr ph -> 0 <= M < 4096 /\ M = p_virt_addr ph mod 4096.
Proof.
  intros Ha. unfold M. change 4095 with (Z.ones 12). rewrite Z.land_ones by lia. change (2 ^ 12) with 4096. lia.
Qed.

Lemma align_base : segment_ok -> klib.align_down base PAGE_SIZE = AB /\ AB mod 4096 = 0.
Proof.
  intros [[Hb Hmod] Ha Hs _ [He _]]. destruct (misalign_range Ha) as [Hr Hm]. unfold AB.
  assert (base = load_base + p_virt_addr ph) as Hbase by done. unfold N in *. clearbody M base.
  pose proof (klib.align_down_spec base PAGE_SIZE ltac:(done) ltac:(lia)) as Hd.
  revert Hd. unfold PAGE_SIZE. intros Hd. lia.
Qed.

(** File bytes read before page [i]. *)
Definition loaded (i : Z) : Z := if decide (i = 0) then 0 else Z.min F (i * 4096 - M).

Definition file_pages : Z := (F + M + 4095) / 4096.
Definition mem_pages : Z := (N + M + 4095) / 4096.

Lemma page_part i : segment_ok -> 0 <= i < file_pages ->
  let '(dst, offset, size) :=
    if i =? 0 then (u64 (u64 (AB + i * PAGE_SIZE) + M), u64 (O + i * PAGE_SIZE), PAGE_SIZE - M)
    else (u64 (AB + i * PAGE_SIZE), u64 (u64 (O + i * PAGE_SIZE) - M), PAGE_SIZE) in
  dst = base + loaded i /\ offset = O + loaded i /\
  (if i =? u64 (file_pages - 1) then u64 (F - loaded i) else size) = loaded (i + 1) - loaded i /\
  0 <= loaded i <= loaded (i + 1) /\ loaded (i + 1) <= F /\
  AB + i * 4096 <= base + loaded i /\ base + loaded (i + 1) <= AB + (i + 1) * 4096.
Proof.
  intros [[Hb Hmod] Ha Hs Hf [He He']] Hi. destruct (misalign_range Ha) as [Hr Hm].
  unfold file_pages, loaded, PAGE_SIZE, AB in *. unfold N in *.
  assert (base = load_base + p_virt_addr ph) as Hbase by done. clearbody M F O base.
  rewrite (u64_small ((F + M + 4095) / 4096 - 1)) by lia.
  destruct (Z.eqb_spec i 0) as [->|Hne].
  - rewrite !decide_True by done. rewrite decide_False by lia.
    rewrite !u64_small by (rewrite ?u64_small by lia; lia). destruct (Z.eqb_spec 0 ((F + M + 4095) / 4096 - 1)); rewrite ?u64_small; lia.
  - rewrite !decide_False by lia. rewrite !u64_small by (rewrite ?u64_small by lia; lia).
    destruct (Z.eqb_spec i ((F + M + 4095) / 4096 - 1)); rewrite ?u64_small; lia.
Qed.

Lemma loaded_all i : segment_ok -> 0 <= i -> file_pages <= i -> loaded i = F.
Proof.
  intros [[Hb Hmod] Ha Hs Hf [He He']] Hi Hge. destruct (misalign_range Ha) as [Hr Hm].
  unfold file_pages, loaded in *. case_decide; lia.
Qed.

Lemma segment_byte_page i a : segment_ok -> 0 <= i -> AB + i * 4096 <= a < AB + (i + 1) * 4096 ->
  segment_byte a = if decide (base + loaded i <= a < base + loaded (i + 1)) then nth (Z.to_nat (O + (a - base))) data 0 else 0.
Proof.
  intros [[Hb Hmod] Ha Hs Hf [He He']] Hi Hp. destruct (misalign_range Ha) as [Hr Hm].
  unfold segment_byte, loaded, AB in *. destruct (decide (i = 0)) as [->|];
    [rewrite (decide_False (P := 0 + 1 = 0)) by lia|rewrite (decide_False (P := i + 1 = 0)) by lia];
    repeat case_decide; try done; lia.
Qed.

Lemma user_read_ok s a count offset : 0 <= count -> 0 <= offset -> offset + count <= Z.of_nat (length data) ->
  (forall x, a <= x < a + count -> mapped s x = true) ->
  exists s', user_read v a count offset s f = Ret (s', f) /\ maps s' = maps s /\
    forall x, byte_at s' x = if decide (a <= x < a + count) then nth (Z.to_nat (offset + (x - a))) data 0 else byte_at s x.
Proof.
  intros Hc Ho Hl Hm. unfold user_read. rewrite Hread by done. cbn [obind].
  assert (Z.of_nat (length (take (Z.to_nat count) (drop (Z.to_nat offset) data))) = count) as Hlen
    by (rewrite length_take, length_drop; lia).
  destruct (store_ok s a (take (Z.to_nat count) (drop (Z.to_nat offset) data))) as (s' & -> & Hms & Hb).
  { rewrite Hlen. done. }
  exists s'. split; [done|]. split; [done|]. intros x. rewrite Hb, Hlen. case_decide; [|done].
  rewrite !nth_lookup, lookup_take_lt by lia. rewrite lookup_drop. do 2 f_equal. lia.
Qed.

(** What page [i] of the segment does. *)
Lemma load_pages_step n i l : segment_ok -> 0 <= i < mem_pages -> l_vfs l = f ->
  (forall a, AB <= a < AB + mem_pages * 4096 -> mapped (l_space l) a = true) ->
  exists l', load_pages (S n) v ph base i file_pages (loaded i) l = load_pages n v ph base (i + 1) file_pages (loaded (i + 1)) l' /\
    l_vfs l' = f /\ maps (l_space l') = maps (l_space l) /\
    (forall a, byte_at (l_space l') a =
       if decide (AB + i * 4096 <= a < AB + (i + 1) * 4096) then segment_byte a else byte_at (l_space l) a) /\
    first_free_virt l' > base + i * 4096 /\
    first_free_virt l <= first_free_virt l' <= Z.max (first_free_virt l) (base + (i + 1) * 4096).
Proof.
  intros Hok Hi Hv Hm. pose proof (align_base Hok) as [Hal Hmod]. pose proof (page_part i Hok) as Hpart.
  destruct (misalign_range (sg_addr Hok)) as [Hr _].
  assert (u64 (AB + i * PAGE_SIZE) = AB + i * 4096 /\ u64 (base + i * PAGE_SIZE) = base + i * 4096 /\
          u64 (base + i * PAGE_SIZE + PAGE_SIZE) = base + i * 4096 + 4096) as (Hdst & Hpv & Hfree).
  { destruct Hok as [[? ?] ? ? ? [? ?]]. unfold mem_pages, PAGE_SIZE, AB, N in *. 
    assert (base = load_base + p_virt_addr ph) by done. clearbody base M. rewrite !u64_small; lia. }
  cbn [load_pages]. rewrite Hal. fold M O F. rewrite Hdst, Hpv.
  destruct (store_ok (l_space l) (AB + i * 4096) (replicate (Z.to_nat PAGE_SIZE) 0)) as (s1 & -> & Hm1 & Hb1).
  { rewrite length_replicate. unfold PAGE_SIZE. intros a Ha. apply Hm. lia. }
  rewrite length_replicate in Hb1. cbn [obind].
  assert (forall a, (if decide (AB + i * 4096 <= a < AB + i * 4096 + Z.of_nat (Z.to_nat PAGE_SIZE))
                     then nth (Z.to_nat (a - (AB + i * 4096))) (replicate (Z.to_nat PAGE_SIZE) 0) 0 else byte_at (l_space l) a)
                  = if decide (AB + i * 4096 <= a < AB + (i + 1) * 4096) then 0 else byte_at (l_space l) a) as Hz.
  { intros a. unfold PAGE_SIZE. rewrite nth_replicate_same. repeat case_decide; try done; lia. }
  setoid_rewrite Hz in Hb1. clear Hz.
  destruct (Z.ltb_spec i file_pages) as [Hlt|Hge].
  - rewrite Hdst in Hpart. specialize (Hpart ltac:(lia)).
    destruct (if i =? 0 then _ else _) as [[dst offset] size]. destruct Hpart as (-> & -> & -> & Hl0 & HlF & Hin1 & Hin2).
    destruct (user_read_ok s1 (base + loaded i) (loaded (i + 1) - loaded i) (O + loaded i)) as (s2 & Hrd & Hm2 & Hb2).
    + lia.
    + destruct Hok as [? ? ? [? ?] ?]. lia.
    + destruct Hok as [? ? ? [? ?] ?]. lia.
    + intros x Hx. unfold mapped. rewrite Hm1. apply Hm. lia.
    + rewrite Hv, Hrd. cbn [obind]. eexists. split.
      { rewrite u64_small by (destruct Hok as [? ? ? ? [? ?]]; lia).
        replace (loaded i + (loaded (i + 1) - loaded i)) with (loaded (i + 1)) by lia. reflexivity. }
      simpl. split; [done|]. split; [congruence|]. split.
      { intros a. rewrite Hb2, Hb1. case_decide as Hp.
        - rewrite decide_True by lia. rewrite (segment_byte_page i) by (done || lia). rewrite decide_True by lia. f_equal. lia.
        - case_decide as Hp'; [|done]. rewrite (segment_byte_page i) by (done || lia). by rewrite decide_False by lia. }
      unfold PAGE_SIZE in *. rewrite Hfree. case_if; lia.
  - cbn [obind]. eexists. rewrite (loaded_all i), (loaded_all (i + 1)) by (done || lia). split; [reflexivity|].
    simpl. split; [done|]. split; [done|]. split.
    { intros a. rewrite Hb1. case_decide as Hp; [|done].
      rewrite (segment_byte_page i), (loaded_all i), (loaded_all (i + 1)) by (done || lia). by rewrite decide_False by lia. }
    unfold PAGE_SIZE in *. rewrite Hfree. case_if; lia.
Qed.

Lemma load_pages_ok n : forall i l, segment_ok -> 0 <= i -> i + Z.of_nat n = mem_pages -> l_vfs l = f ->
  (forall a, AB <= a < AB + mem_pages * 4096 -> mapped (l_space l) a = true) ->
  exists l', load_pages n v ph base i file_pages (loaded i) l = Ret (loaded mem_pages, l') /\
    l_vfs l' = f /\ maps (l_space l') = maps (l_space l) /\
    (forall a, byte_at (l_space l') a =
       if decide (AB + i * 4096 <= a < AB + mem_pages * 4096) then segment_byte a else byte_at (l_space l) a) /\
    (0 < Z.of_nat n -> first_free_virt l' > base + (mem_pages - 1) * 4096) /\
    first_free_virt l <= first_free_virt l' <= Z.max (first_free_virt l) (base + mem_pages * 4096).
Proof.
  induction n as [|n IH]; intros i l Hok Hi Hn Hv Hm.
  - replace i with mem_pages by lia. exists l. repeat split; try done; try lia.
    intros a. by rewrite decide_False by lia.
  - destruct (load_pages_step n i l) as (l1 & -> & Hv1 & Hm1 & Hb1 & Hf1 & Hf1'); [done|lia|done|done|].
    destruct (IH (i + 1) l1) as (l2 & -> & Hv2 & Hm2 & Hb2 & Hf2 & Hf2'); [done|lia|lia|done| |].
    { intros a Ha. unfold mapped. rewrite Hm1. by apply Hm. }
    exists l2. split; [done|]. split; [done|]. split; [congruence|]. split.
    { intros a. rewrite Hb2, Hb1. repeat case_decide; try done; lia. }
    split; [|lia]. intros _. destruct n; [|apply Hf2; lia]. replace (mem_pages - 1) with i by lia. lia.
Qed.
End segment.

(** The segment a loader promises: its pages are mapped and hold the bytes of the file,
    then zeros. *)
Record segment_in (s : space) (ph : mem) (data : list Z) (load_base : Z) : Prop := {
  si_mapped a : load_base + p_virt_addr ph <= a < load_base + p_virt_addr ph + p_mem_size ph -> mapped s a = true;
  si_file i b : 0 <= i < p_file_size ph -> data !! Z.to_nat (p_offset ph + i) = Some b ->
    byte_at s (load_base + p_virt_addr ph + i) = b;
  si_zero i : p_file_size ph <= i < p_mem_size ph -> byte_at s (load_base + p_virt_addr ph + i) = 0
}.

(** The pages from the one with the first byte of the segment to the one with the last. *)
Definition segment_start (ph : mem) (load_base : Z) : Z := load_base + p_virt_addr ph - Z.land (p_virt_addr ph) 4095.
Definition segment_length (ph : mem) : Z := mem_pages ph * 4096.

Lemma segment_bounds ph load_base data : segment_ok ph data load_base -> 0 < p_mem_size ph ->
  segment_start ph load_base <= load_base + p_virt_addr ph /\
  load_base + p_virt_addr ph + p_mem_size ph <= segment_start ph load_base + segment_length ph /\
  0 < mem_pages ph /\ 0 <= segment_start ph load_base /\ segment_length ph <= p_mem_size ph + 8192.
Proof.
  intros [[Hb ?] Ha Hs _ _] Hpos. destruct (misalign_range ph load_base Ha) as [Hr HM].
  unfold segment_start, segment_length, mem_pages.
  assert (Z.land (p_virt_addr ph) 4095 <= p_virt_addr ph) by (rewrite HM; apply Z.mod_le; lia). lia.
Qed.

(** A file whose vnode reads its bytes. *)
Definition reads_as {D} `{VNodeOps D} (v : Z) (data : list Z) (f : vfs D) : Prop :=
  forall count offset, 0 <= count -> 0 <= offset -> offset + count <= Z.of_nat (length data) ->
  v_read v None count offset f = Ret (count, take (Z.to_nat count) (drop (Z.to_nat offset) data), f).

Definition data_file : VNodeOps (list Z) := {|
  v_open v d s := Ret (0, s);
  v_read v d count offset s := Ret (count, take (Z.to_nat count) (drop (Z.to_nat offset) (priv s)), s);
  v_write v d buf offset s := Ret (- ENOTSUP, s);
  v_seek v d position offset whence s := Ret (- ENOTSUP);
  v_truncate v d len s := Ret (- EINVAL, s)
|}.

(** C19. Loading a segment ([load_segment]): for a segment within the file that is no
    longer in the file than in memory, at any alignment, the loop over its pages ends with
    exactly the bytes of the segment read, so that the assertion after it holds; the
    segment's addresses are mapped and hold the file's bytes followed by zeros; nothing
    outside the segment's pages changes; and the next free address, rounded up as [load]
    does, is not below the end of the segment nor below what it was. *)
Theorem segment_loaded {D} `{VNodeOps D} v load_base ph data f (l : loading) :
  reads_as v data f -> segment_ok ph data load_base -> 0 < p_mem_size ph -> l_vfs l = f ->
  0 <= first_free_virt l < 4611686018427387904 ->
  exists l', load_segment v load_base ph l = Ret l' /\ l_vfs l' = f /\
    segment_in (l_space l') ph data load_base /\
    (forall a, a < segment_start ph load_base \/ segment_start ph load_base + segment_length ph <= a ->
       mapped (l_space l') a = mapped (l_space l) a /\ byte_at (l_space l') a = byte_at (l_space l) a) /\
    load_base + p_virt_addr ph + p_mem_size ph <= klib.align_up (first_free_virt l') PAGE_SIZE /\
    first_free_virt l <= first_free_virt l'.
Proof.
  intros Hread Hok Hpos Hv Hfree. destruct (align_base _ _ _ Hok) as [Hal Hmod].
  pose proof (misalign_range ph load_base (sg_addr _ _ _ Hok)) as [Hr HM]. destruct (Hok) as [[Hb ?] ? Hs Hf [He He']].
  unfold load_segment. rewrite (u64_small (load_base + p_virt_addr ph)) by lia. rewrite Hal.
  assert (u64 (p_mem_size ph + Z.land (p_virt_addr ph) 4095 + PAGE_SIZE - 1) / PAGE_SIZE = mem_pages ph) as ->
    by (unfold mem_pages, PAGE_SIZE; rewrite u64_small by lia; f_equal; lia).
  assert (u64 (p_file_size ph + Z.land (p_virt_addr ph) 4095 + PAGE_SIZE - 1) / PAGE_SIZE = file_pages ph) as ->
    by (unfold file_pages, PAGE_SIZE; rewrite u64_small by lia; f_equal; lia).
  fold (segment_start ph load_base) in *. change PAGE_SIZE with 4096. fold (segment_length ph).
  destruct (segment_bounds ph load_base data Hok Hpos) as (Hstart & Hend & Hpages & Hstart0 & Hlen).
  rewrite (u64_small (segment_length ph)) by lia.
  set (l0 := l <| file_virt_base ::= _ |> <| l_space ::= _ |>).
  destruct (load_pages_ok v ph data f load_base Hread (Z.to_nat (mem_pages ph)) 0 l0) as (l' & Hl & Hv' & Hm & Hbs & Hff & Hmono);
    [done|done|lia|done| |].
  { intros a Ha. unfold mapped, l0. simpl. apply orb_true_iff. left. unfold segment_start, segment_length in *. lia. }
  replace (loaded ph 0) with 0 in Hl by (unfold loaded; by rewrite decide_True). rewrite Hl. cbn [obind].
  assert (file_pages ph <= mem_pages ph) as Hle by (unfold file_pages, mem_pages; lia).
  rewrite (loaded_all ph data load_base) by (done || lia). rewrite Z.eqb_refl. cbn [assert obind].
  fold (segment_start ph load_base) in Hbs. fold (segment_length ph) in Hbs.
  exists l'. split; [done|]. split; [done|]. split; [|split; [|split]].
  - split.
    + intros a Ha. unfold mapped. rewrite Hm. simpl. apply orb_true_iff. left. lia.
    + intros i b Hi Hb'. rewrite Hbs, decide_True by lia. unfold segment_byte. rewrite decide_True by lia.
      apply nth_lookup_Some. rewrite <- Hb'. f_equal. lia.
    + intros i Hi. rewrite Hbs, decide_True by lia. unfold segment_byte. by rewrite decide_False by lia.
  - intros a Ha. rewrite Hbs, decide_False by lia. split; [|done].
    unfold mapped. rewrite Hm. simpl. by replace (_ && _)%bool with false by lia.
  - unfold l0 in Hmono. simpl in Hmono. clear l0 Hl Hbs Hm.
    pose proof (klib.align_up_spec (first_free_virt l') 4096 ltac:(lia) ltac:(lia)) as Hup.
    specialize (Hff ltac:(lia)). unfold segment_length in *.
    enough (segment_start ph load_base + mem_pages ph * 4096 <= klib.align_up (first_free_virt l') 4096) by lia.
    assert (segment_start ph load_base + (mem_pages ph - 1) * 4096 < klib.align_up (first_free_virt l') 4096)
      as Hlt by (unfold segment_start in *; lia).
    specialize (Hup ltac:(lia)). clear - Hlt Hmod Hup. lia.
  - unfold l0 in Hmono. simpl in Hmono. lia.
Qed.

(** Three bytes of a file at an address in the middle of a page. *)
Definition sample_segment : mem :=
  le_bytes 4 1 ++ le_bytes 4 5 ++ le_bytes 8 64 ++ le_bytes 8 4196 ++ le_bytes 8 0 ++ le_bytes 8 3 ++ le_bytes 8 10 ++ le_bytes 8 4096.
Definition sample_data : list Z := replicate 64 0 ++ [11; 22; 33].
Definition sample_loading : loading :=
  mkLoading empty_space (mkVfs ∅ ∅ 0 0 sample_data (mkTimeSpec 0 0) 0) 18446744073709551615 0 None 0.

Lemma segment_loaded_witness : exists l', @load_segment _ data_file 1 user_binary_base sample_segment sample_loading = Ret l' /\
  segment_in (l_space l') sample_segment sample_data user_binary_base.
Proof.
  destruct (segment_loaded (H := data_file) 1 user_binary_base sample_segment sample_data (l_vfs sample_loading) sample_loading)
    as (l' & Hl & _ & Hin & _).
  - intros count offset _ _ _. reflexivity.
  - split; vm_compute; repeat split; congruence.
  - reflexivity.
  - reflexivity.
  - vm_compute. split; congruence.
  - exists l'. by split.
Defined.

(** The pages of a segment are cleared even where they hold another segment: of two
    segments that share a page the first is lost. *)
Definition next_segment : mem :=
  le_bytes 4 1 ++ le_bytes 4 5 ++ le_bytes 8 64 ++ le_bytes 8 4300 ++ le_bytes 8 0 ++ le_bytes 8 3 ++ le_bytes 8 10 ++ le_bytes 8 4096.
Lemma shared_page_cleared :
  match @load_segment _ data_file 1 0 sample_segment sample_loading with
  | Ret l =>
      fetch 4196 3 (l_space l) = Ret [11; 22; 33] /\
      match @load_segment _ data_file 1 0 next_segment l with
      | Ret l => fetch 4300 3 (l_space l) = Ret [11; 22; 33] /\ fetch 4196 3 (l_space l) = Ret [0; 0; 0]
      | _ => False
      end
  | _ => False
  end.
Proof. vm_compute. repeat split. Qed.
