(* ===== verification/Screen.v ===== *)
(** * The text terminal: gfx/framebuffer.cpp and gfx/terminal.cpp

    The framebuffer is its memory and its geometry. A terminal writes its cells into
    [buffer] and draws them with a font; every access to the framebuffer, the cells, the
    font and the arguments of a control sequence is checked. Characters are bytes, those
    from 128 on negative as a [char]; [int]s wrap. A loop whose 16-bit counter wraps
    before its bound never ends, and is [Undef]. *)

From S2P Require Import Prelude Algorithm CString.

Module gfx.

(** ** Loops *)

(** [for (i = from; ...; i++)] of [n] turns, and downwards. *)
Fixpoint for_up {T} (n : nat) (i : Z) (body : Z -> T -> outcome T) (t : T) : outcome T :=
  match n with O => Ret t | S n => let! t := body i t in for_up n (i + 1) body t end.
Fixpoint for_down {T} (n : nat) (i : Z) (body : Z -> T -> outcome T) (t : T) : outcome T :=
  match n with O => Ret t | S n => let! t := body i t in for_down n (i - 1) body t end.
(** [for (u16 i = from; i < count + from; i++)] *)
Definition for_u16 {T} (from count : Z) (body : Z -> T -> outcome T) (t : T) : outcome T :=
  if count + from <=? 65535 then for_up (Z.to_nat count) from body t else Undef.

(** ** The framebuffer *)

Record Framebuffer := mkFramebuffer { fb_mem : list Z; fb_width : Z; fb_height : Z; pitch : Z; pixel_bytes : Z }.
#[export] Instance eta_Framebuffer : Settable Framebuffer := fun f =>
  mkFramebuffer (fb_mem f) (fb_width f) (fb_height f) (pitch f) (pixel_bytes f).

Definition store_bytes (where_ : Z) (bs : list Z) (fb : Framebuffer) : outcome Framebuffer :=
  if where_ + Z.of_nat (length bs) <=? Z.of_nat (length (fb_mem fb)) then
    Ret (fb <| fb_mem ::= splice (Z.to_nat where_) bs |>)
  else Undef.
(** The three bytes of a pixel, blue first. *)
Definition store_rgb (where_ rgb : Z) (fb : Framebuffer) : outcome Framebuffer :=
  store_bytes where_ [Z.land rgb 255; Z.land (Z.shiftr rgb 8) 255; Z.land (Z.shiftr rgb 16) 255] fb.

Definition put_pixel (x y rgb : Z) (fb : Framebuffer) : outcome Framebuffer :=
  if (x >? fb_width fb) || (y >? fb_height fb) then Ret fb
  else store_rgb (u32 (x * pixel_bytes fb + y * pitch fb)) rgb fb.

Definition fill_rect (x y w h rgb : Z) (fb : Framebuffer) : outcome Framebuffer :=
  let x := u16 x in let y := u16 y in let w := u16 w in let h := u16 h in
  for_u16 y h (fun i fb =>
    if i >=? fb_height fb then Ret fb else
    for_u16 x w (fun j fb =>
      if j >=? fb_width fb then Ret fb
      else store_rgb (u32 (pitch fb * i) + u32 (j * pixel_bytes fb)) rgb fb) fb) fb.

(** ** [FramebufferDevNode] *)

Definition fb_size (fb : Framebuffer) : Z := u32 (fb_height fb * pitch fb).
Definition fb_count (size count offset : Z) : Z := if u64 (offset + count) >? size then size - offset else count.
Definition fb_read (count offset : Z) (fb : Framebuffer) : outcome (Z * list Z) :=
  let size := fb_size fb in
  if offset >=? size then Ret (0, []) else
  let n := fb_count size count offset in
  if offset + n <=? Z.of_nat (length (fb_mem fb)) then
    Ret (n, take (Z.to_nat n) (drop (Z.to_nat offset) (fb_mem fb)))
  else Undef.
(** [count] bytes of [buf]. *)
Definition fb_write (buf : list Z) (count offset : Z) (fb : Framebuffer) : outcome (Z * Framebuffer) :=
  let size := fb_size fb in
  if offset >=? size then Ret (0, fb) else
  let n := fb_count size count offset in
  if n <=? Z.of_nat (length buf) then
    let! fb := store_bytes offset (take (Z.to_nat n) buf) fb in Ret (n, fb)
  else Undef.

(** ** Fonts *)

Record Font := mkFont { f_data : list Z; f_width : Z; f_height : Z; num_glyph : Z; bytes_per_glyph : Z }.

(** [Font::init] on a file: what the font is if it is of one of the two formats. *)
Definition Font_init (header : mem) : option Font :=
  if word_at 2 0 header =? 1078 then
    Some (mkFont (drop 4 header) 8 16 (if Z.land (word_at 1 2 header) 1 =? 0 then 256 else 512) (word_at 1 3 header))
  else if word_at 4 0 header =? 2253043058 then
    Some (mkFont (drop (Z.to_nat (word_at 4 8 header)) header) (word_at 4 28 header) (word_at 4 24 header)
            (word_at 4 16 header) (word_at 4 20 header))
  else None.

(** ** Cells *)

Definition ColoredChar (c fg bg : Z) : Z :=
  u64 (i8 c) .| Z.shiftl (Z.land fg 33554431) 8 .| Z.shiftl (Z.land bg 16777215) 40.
Definition cc_c (e : Z) : Z := Z.land e 255.
Definition cc_fg (e : Z) : Z := Z.land (Z.shiftr e 8) 33554431.
Definition cc_bg (e : Z) : Z := Z.land (Z.shiftr e 40) 16777215.

Definition rgb (r g b : Z) : Z := Z.shiftl r 16 .| Z.shiftl g 8 .| b.
Definition color_table : list Z :=
  [rgb 0 0 0; rgb 205 49 49; rgb 13 188 121; rgb 229 229 16; rgb 36 114 200; rgb 188 63 188; rgb 17 168 205; rgb 229 229 229;
   rgb 102 102 102; rgb 241 76 76; rgb 35 209 139; rgb 245 245 67; rgb 59 142 234; rgb 214 112 214; rgb 41 184 219; rgb 229 229 229].
Definition default_fg_color : Z := rgb 229 229 229.
Definition default_bg_color : Z := rgb 0 0 0.
Definition bold_flag : Z := 16777216.
Definition blank : Z := ColoredChar 32 default_fg_color default_bg_color.

(** ** The terminal *)

Record VirtualTerminal := mkTerm {
  framebuffer : Framebuffer; regular_font : Font; bold_font : Font;
  buffer : list Z;
  current_fg : Z; current_bg : Z; is_bold : bool;
  font_width : Z; font_height : Z;
  cursor_x : Z; cursor_y : Z; old_cursor_x : Z; old_cursor_y : Z;
  cursor_needs_undrawing : bool;
  csi_progress : Z; csi_args : list Z; csi_arg_index : Z; csi_arg_count : Z; csi_question_mark : bool;
  insert_mode : bool;
  width_chars : Z; height_chars : Z; pixel_width : Z; pixel_height : Z; pixel_x : Z; pixel_y : Z
}.
#[export] Instance eta_VirtualTerminal : Settable VirtualTerminal := fun t =>
  mkTerm (framebuffer t) (regular_font t) (bold_font t) (buffer t) (current_fg t) (current_bg t) (is_bold t)
    (font_width t) (font_height t) (cursor_x t) (cursor_y t) (old_cursor_x t) (old_cursor_y t) (cursor_needs_undrawing t)
    (csi_progress t) (csi_args t) (csi_arg_index t) (csi_arg_count t) (csi_question_mark t) (insert_mode t)
    (width_chars t) (height_chars t) (pixel_width t) (pixel_height t) (pixel_x t) (pixel_y t).

Definition max_csi_args : Z := 16.

(** [draw_psf_char] *)
Definition draw_psf_char (font : Font) (c cx cy offx offy fg bg : Z) (fb : Framebuffer) : outcome Framebuffer :=
  let bytes_per_line := u32 (f_width font + 7) / 8 in
  let glyph := u32 ((if c <? num_glyph font then c else 0) * bytes_per_glyph font) in
  let where_ := u32 (u32 (cy * f_height font + offy) * pitch fb + u32 (cx * f_width font + offx) * 4) in
  let! (fb, _, _) := for_up (Z.to_nat (f_height font)) 0 (fun _ '(fb, glyph, where_) =>
    let! (fb, _, _) := for_up (Z.to_nat (f_width font)) 0 (fun _ '(fb, mask, line) =>
      let! bits := deref (f_data font !! Z.to_nat glyph) in
      let! fb := store_bytes line (le_bytes 4 (if bits &? mask then fg else bg)) fb in
      Ret (fb, Z.shiftr mask 1, line + pixel_bytes fb)) (fb, Z.shiftl 1 (f_width font - 1), where_) in
    Ret (fb, glyph + bytes_per_line, where_ + pitch fb)) (fb, glyph, where_) in
  Ret fb.

Definition draw_char_at (c_x c_y c fg bg : Z) (t : VirtualTerminal) : outcome VirtualTerminal :=
  let font := if fg &? bold_flag then bold_font t else regular_font t in
  let! fb := draw_psf_char font (u32 (i8 c)) (u16 c_x) (u16 c_y) (u16 (pixel_x t)) (u16 (pixel_y t))
               (Z.land fg 16777215) bg (framebuffer t) in
  Ret (t <| framebuffer := fb |>).

Definition cell_index (t : VirtualTerminal) (c_x c_y : Z) : Z := u64 (c_y * width_chars t + c_x).
Definition cell_at (t : VirtualTerminal) (c_x c_y : Z) : outcome Z := deref (buffer t !! Z.to_nat (cell_index t c_x c_y)).

Definition set_char_at (c_x c_y c fg bg : Z) (t : VirtualTerminal) : outcome VirtualTerminal :=
  let colored_char := ColoredChar c fg bg in
  let! old := cell_at t c_x c_y in
  if old =? colored_char then Ret t else
  let! t := draw_char_at c_x c_y c fg bg (t <| buffer ::= <[Z.to_nat (cell_index t c_x c_y) := colored_char]> |>) in
  Ret (t <| cursor_needs_undrawing := false |>).

Definition set_char_at_cursor (c : Z) (t : VirtualTerminal) : outcome VirtualTerminal :=
  set_char_at (cursor_x t) (cursor_y t) c (current_fg t .| if is_bold t then bold_flag else 0) (current_bg t) t.
Definition set_blank (c_x c_y : Z) (t : VirtualTerminal) : outcome VirtualTerminal :=
  set_char_at c_x c_y 32 default_fg_color default_bg_color t.
(** A cell of the buffer put at another place. *)
Definition copy_char (old_cx old_cy new_cx new_cy : Z) (t : VirtualTerminal) : outcome VirtualTerminal :=
  let! c := cell_at t old_cx old_cy in set_char_at new_cx new_cy (cc_c c) (cc_fg c) (cc_bg c) t.

Definition move_char (old_cx old_cy new_cx new_cy : Z) (t : VirtualTerminal) : outcome VirtualTerminal :=
  let! t := copy_char old_cx old_cy new_cx new_cy t in set_blank old_cx old_cy t.

Definition scroll (t : VirtualTerminal) : outcome VirtualTerminal :=
  let w := Z.to_nat (width_chars t) in
  let last := height_chars t - 1 in
  let! t := for_up (Z.to_nat last) 0 (fun y => for_up w 0 (fun x => copy_char x (y + 1) x y)) t in
  let! t := for_up w 0 (fun x t => set_blank x last t) t in
  Ret (t <| cursor_needs_undrawing := true |>).

(** The bar of one pixel at the left of a cell. *)
Definition draw_bar (cx cy rgb : Z) (t : VirtualTerminal) : outcome VirtualTerminal :=
  let! fb := fill_rect (cx * font_width t + pixel_x t) (cy * font_height t + pixel_y t) 1 (font_height t) rgb (framebuffer t) in
  Ret (t <| framebuffer := fb |>).

Definition redraw_cursor (t : VirtualTerminal) : outcome VirtualTerminal :=
  let! t :=
    if cursor_needs_undrawing t then
      let! t := draw_bar (old_cursor_x t) (old_cursor_y t) (current_bg t) t in
      let! c := cell_at t (old_cursor_x t) (old_cursor_y t) in
      draw_char_at (old_cursor_x t) (old_cursor_y t) (cc_c c) (cc_fg c) (cc_bg c) t
    else Ret t in
  let! t := draw_bar (cursor_x t) (cursor_y t) (current_fg t) t in
  Ret (t <| old_cursor_x := cursor_x t |> <| old_cursor_y := cursor_y t |>).

Definition move_cursor (x y : Z) (t : VirtualTerminal) : outcome VirtualTerminal :=
  redraw_cursor (t <| cursor_x := x |> <| cursor_y := y |> <| cursor_needs_undrawing := true |>).

Definition redraw (t : VirtualTerminal) : outcome VirtualTerminal :=
  let! fb := fill_rect (pixel_x t) (pixel_y t) (pixel_width t) (pixel_height t) (current_bg t) (framebuffer t) in
  let! t := redraw_cursor (t <| framebuffer := fb |>) in
  for_up (Z.to_nat (height_chars t)) 0 (fun y => for_up (Z.to_nat (width_chars t)) 0 (fun x => copy_char x y x y)) t.

(** The constructor; [ox, oy] is what the old position of the cursor holds before it is
    first set. *)
Definition VirtualTerminal_init (fb : Framebuffer) (regular bold : Font) (ox oy : Z) : outcome VirtualTerminal :=
  let w := i32 (fb_width fb) / f_width regular in
  let h := i32 (fb_height fb) / f_height regular in
  redraw (mkTerm fb regular bold (replicate (Z.to_nat (w * h)) blank) default_fg_color default_bg_color false
            (f_width regular) (f_height regular) 0 0 ox oy false 0 (replicate 16 0) 0 0 false false
            w h (i32 (fb_width fb)) (i32 (fb_height fb)) 0 0).

(** ** Control sequences *)

Definition reset_control_sequence (t : VirtualTerminal) : VirtualTerminal :=
  t <| csi_progress := 0 |> <| csi_arg_index := 0 |> <| csi_arg_count := 0 |> <| csi_args := replicate 16 0 |>
    <| csi_question_mark := false |>.

Definition csi_arg (t : VirtualTerminal) (i : Z) : outcome Z := deref (csi_args t !! Z.to_nat i).

(** One argument of a sequence that ends in m. *)
Definition select_graphic (n : Z) (t : VirtualTerminal) : outcome VirtualTerminal :=
  let color i := deref (color_table !! Z.to_nat i) in
  if n =? 0 then Ret (t <| current_fg := default_fg_color |> <| current_bg := default_bg_color |> <| is_bold := false |>)
  else if n =? 1 then Ret (t <| is_bold := true |>)
  else if n =? 7 then Ret (t <| current_fg := current_bg t |> <| current_bg := current_fg t |>)
  else if n =? 22 then Ret (t <| is_bold := false |>)
  else if (n >=? 30) && (n <=? 37) then let! c := color (n - 30) in Ret (t <| current_fg := c |>)
  else if (n >=? 90) && (n <=? 97) then let! c := color (n + 8 - 90) in Ret (t <| current_fg := c |>)
  else if n =? 39 then Ret (t <| current_fg := default_fg_color |>)
  else if (n >=? 40) && (n <=? 47) then let! c := color (n - 40) in Ret (t <| current_bg := c |>)
  else if n =? 49 then Ret (t <| current_bg := default_bg_color |>)
  else if (n >=? 100) && (n <=? 107) then let! c := color (n + 8 - 100) in Ret (t <| current_bg := c |>)
  else Ret t.

(** The cells a sequence that ends in J blanks. *)
Definition erase_display (n : Z) (t : VirtualTerminal) : outcome VirtualTerminal :=
  let w := width_chars t in
  let at_cursor := (cursor_y t + 1) * w + cursor_x t in
  let erase (which : Z -> bool) :=
    for_up (Z.to_nat (height_chars t)) 0 (fun y => for_up (Z.to_nat w) 0 (fun x t =>
      if which ((y + 1) * w + x) then set_blank x y t else Ret t)) t in
  if n =? 0 then erase (fun i => i >=? at_cursor)
  else if n =? 1 then erase (fun i => i <=? at_cursor)
  else if (n =? 2) || (n =? 3) then erase (fun _ => true)
  else Ret t.

(** The same for K. *)
Definition erase_line (n : Z) (t : VirtualTerminal) : outcome VirtualTerminal :=
  let y := cursor_y t in
  let set x t := set_blank x y t in
  if n =? 0 then for_up (Z.to_nat (width_chars t - cursor_x t)) (cursor_x t) set t
  else if n =? 1 then for_down (Z.to_nat (cursor_x t + 1)) (cursor_x t) set t
  else if n =? 2 then for_up (Z.to_nat (width_chars t)) 0 set t
  else Ret t.

(** [int last = ...; for (x = cursor_x; x < last; x++) ...] of P and X. *)
Definition erase_chars (t : VirtualTerminal) : outcome (Z * VirtualTerminal) :=
  let t := if csi_arg_count t =? 0 then t <| csi_args ::= <[0%nat := 1]> |> else t in
  let! n := csi_arg t 0 in
  let y := cursor_y t in
  let last := klib.clamp (i32 (cursor_x t + n)) 0 (width_chars t) in
  let! t := for_up (Z.to_nat (last - cursor_x t)) (cursor_x t) (fun x t => set_blank x y t) t in
  Ret (last, t).

Definition apply_control_sequence (code : Z) (t : VirtualTerminal) : outcome VirtualTerminal :=
  let ends s := code =? s in
  let! n := csi_arg t 0 in
  let! m := csi_arg t 1 in
  let by_ := klib.max n 1 in
  let row y := klib.clamp (i32 y) 0 (height_chars t - 1) in
  let column x := klib.clamp (i32 x) 0 (width_chars t - 1) in
  if ends 109 then
    for_up (Z.to_nat (csi_arg_index t + 1)) 0 (fun i t => let! n := csi_arg t i in select_graphic n t) t
  else if ends 74 then erase_display n t
  else if ends 75 then erase_line n t
  else if csi_question_mark t && ends 104 then Ret t
  else if csi_question_mark t && ends 108 then Ret t
  else if ends 65 then move_cursor (cursor_x t) (row (cursor_y t - by_)) t
  else if ends 66 then move_cursor (cursor_x t) (row (cursor_y t + by_)) t
  else if ends 67 then move_cursor (column (cursor_x t + by_)) (cursor_y t) t
  else if ends 68 then move_cursor (column (cursor_x t - by_)) (cursor_y t) t
  else if ends 69 then move_cursor 0 (row (cursor_y t + by_)) t
  else if ends 70 then move_cursor 0 (row (cursor_y t - by_)) t
  else if ends 71 then move_cursor (column (n - 1)) (cursor_y t) t
  else if ends 72 || ends 102 then move_cursor (column (n - 1)) (row (m - 1)) t
  else if ends 100 then move_cursor (cursor_x t) (row (n - 1)) t
  else if ends 114 then move_cursor 0 0 t
  else if ends 80 then
    let! (last, t) := erase_chars t in
    let x := cursor_x t in
    let y := cursor_y t in
    for_up (Z.to_nat (width_chars t - last)) 0 (fun i => move_char (last + i) y (x + i) y) t
  else if ends 88 then let! (_, t) := erase_chars t in Ret t
  else if ends 104 || ends 108 then Ret (if n =? 4 then t <| insert_mode := ends 104 |> else t)
  else Ret t.

(** ** Writing *)

Definition is_letter (c : Z) : bool := ((97 <=? c) && (c <=? 122)) || ((65 <=? c) && (c <=? 90)).
Definition is_digit (c : Z) : bool := (48 <=? c) && (c <=? 57).

(** A character of a control sequence, after the bracket. *)
Definition csi_char (c : Z) (t : VirtualTerminal) : outcome VirtualTerminal :=
  if is_digit c then
    let! n := csi_arg t (csi_arg_index t) in
    Ret (t <| csi_args ::= <[Z.to_nat (csi_arg_index t) := i32 (n * 10 + (c - 48))]> |>
           <| csi_arg_count := csi_arg_index t + 1 |>)
  else if is_letter c then
    let! t := apply_control_sequence c t in Ret (reset_control_sequence t)
  else if c =? 59 then
    let t := t <| csi_arg_index ::= fun i => i + 1 |> in
    let t := if csi_arg_index t >=? max_csi_args then reset_control_sequence t else t in
    let! _ := csi_arg t (csi_arg_index t) in
    Ret (t <| csi_args ::= <[Z.to_nat (csi_arg_index t) := 0]> |>)
  else if c =? 63 then Ret (t <| csi_question_mark := true |>)
  else Ret (reset_control_sequence t).

(** The switch of [write_char] but for the backspace. *)
Definition plain_char (c : Z) (t : VirtualTerminal) : outcome VirtualTerminal :=
  if c =? 9 then Ret (t <| cursor_x ::= fun x => klib.align_up (x + 1) 8 |>)
  else if c =? 13 then Ret (t <| cursor_x := 0 |>)
  else if (c =? 11) || (c =? 12) || (c =? 10) then
    Ret (t <| cursor_x := 0 |> <| cursor_y ::= fun y => y + 1 |> <| cursor_needs_undrawing := true |>)
  else if c =? 27 then Ret (t <| csi_progress := 1 |>)
  else if (c =? 7) || (c =? 0) || (c =? 127) || (c =? 14) || (c =? 15) then Ret t
  else
    let! t :=
      if insert_mode t then
        let y := cursor_y t in
        for_down (Z.to_nat (width_chars t - cursor_x t)) (width_chars t - 1) (fun i => move_char i y (i + 1) y) t
      else Ret t in
    let! t := set_char_at_cursor c t in
    Ret (t <| cursor_x ::= fun x => x + 1 |>).

(** What follows the switch. *)
Definition wrap_cursor (t : VirtualTerminal) : outcome VirtualTerminal :=
  let t := if cursor_x t >=? width_chars t then t <| cursor_x := 0 |> <| cursor_y ::= fun y => y + 1 |> else t in
  let! t :=
    if cursor_y t >=? height_chars t then
      let! t := scroll t in Ret (t <| cursor_y ::= fun y => y - 1 |>)
    else Ret t in
  let! t := redraw_cursor t in
  Ret (t <| cursor_needs_undrawing := true |>).

Definition write_char (c : Z) (t : VirtualTerminal) : outcome VirtualTerminal :=
  if csi_progress t =? 1 then
    Ret (if c =? 91 then t <| csi_progress := 2 |> else reset_control_sequence t)
  else if csi_progress t =? 2 then csi_char c t
  else if c =? 8 then
    if cursor_x t >? 0 then
      redraw_cursor (t <| cursor_x ::= fun x => x - 1 |> <| cursor_needs_undrawing := true |>)
    else Ret (t <| cursor_needs_undrawing := false |>)
  else let! t := plain_char c t in wrap_cursor t.

Fixpoint write_chars (cs : list Z) (t : VirtualTerminal) : outcome VirtualTerminal :=
  match cs with [] => Ret t | c :: cs => let! t := write_char c t in write_chars cs t end.

End gfx.
