(* ===== verification/ScreenFacts.v ===== *)
(** * Lemmas on the text terminal: loops, drawing and cells *)

From S2P Require Import Prelude Algorithm CString Screen.
Import gfx.

(** ** Loops *)

Lemma for_up_inv {T} (P : Z -> T -> Prop) n i body t :
  P i t -> (forall j t, i <= j < i + Z.of_nat n -> P j t -> exists t', body j t = Ret t' /\ P (j + 1) t') ->
  exists t', for_up n i body t = Ret t' /\ P (i + Z.of_nat n) t'.
Proof.
  revert i t. induction n as [|n IH]; intros i t Hi Hb; simpl.
  - exists t. by rewrite Z.add_0_r.
  - destruct (Hb i t) as (t1 & -> & H1); [lia|done|]. simpl.
    destruct (IH (i + 1) t1) as (t2 & -> & H2); [done|intros; apply Hb; [lia|done]|].
    exists t2. split; [done|]. by replace (i + Z.of_nat (S n)) with (i + 1 + Z.of_nat n) by lia.
Qed.

Lemma for_down_inv {T} (P : Z -> T -> Prop) n i body t :
  P i t -> (forall j t, i - Z.of_nat n < j <= i -> P j t -> exists t', body j t = Ret t' /\ P (j - 1) t') ->
  exists t', for_down n i body t = Ret t' /\ P (i - Z.of_nat n) t'.
Proof.
  revert i t. induction n as [|n IH]; intros i t Hi Hb; simpl.
  - exists t. by rewrite Z.sub_0_r.
  - destruct (Hb i t) as (t1 & -> & H1); [lia|done|]. simpl.
    destruct (IH (i - 1) t1) as (t2 & -> & H2); [done|intros; apply Hb; [lia|done]|].
    exists t2. split; [done|]. by replace (i - Z.of_nat (S n)) with (i - 1 - Z.of_nat n) by lia.
Qed.

(** ** Drawing stays in the framebuffer *)

Definition same_fb (f f' : Framebuffer) : Prop :=
  fb_width f' = fb_width f /\ fb_height f' = fb_height f /\ pitch f' = pitch f /\ pixel_bytes f' = pixel_bytes f /\
  length (fb_mem f') = length (fb_mem f).
#[export] Instance same_fb_refl : Reflexive same_fb.
Proof. by repeat split. Qed.
#[export] Instance same_fb_trans : Transitive same_fb.
Proof. intros a b c (? & ? & ? & ? & ?) (? & ? & ? & ? & ?). repeat split; congruence. Qed.

Lemma store_bytes_ok o bs fb : 0 <= o -> o + Z.of_nat (length bs) <= Z.of_nat (length (fb_mem fb)) ->
  exists fb', store_bytes o bs fb = Ret fb' /\ same_fb fb fb'.
Proof.
  intros Ho Hl. unfold store_bytes. rewrite (proj2 (Z.leb_le _ _)) by done. eexists. split; [done|].
  repeat split. simpl. rewrite length_splice; [done|lia].
Qed.

(** A framebuffer of four bytes a pixel, smaller than 4 GB. *)
Record fb_ok (fb : Framebuffer) : Prop := {
  fo_pixel : pixel_bytes fb = 4;
  fo_width : 0 <= fb_width fb <= 65535 /\ 4 * fb_width fb <= pitch fb;
  fo_height : 0 <= fb_height fb <= 65535;
  fo_mem : fb_height fb * pitch fb <= Z.of_nat (length (fb_mem fb)) < 4294967296
}.

Lemma fb_ok_same f f' : fb_ok f -> same_fb f f' -> fb_ok f'.
Proof. intros [] (Hw & Hh & Hp & Hb & Hl). split; rewrite ?Hw, ?Hh, ?Hp, ?Hb, ?Hl; done. Qed.

(** A pixel of the framebuffer lies in it. *)
Lemma pixel_in fb i j : fb_ok fb -> 0 <= i < fb_height fb -> 0 <= j < fb_width fb ->
  0 <= pitch fb * i + j * 4 /\ pitch fb * i + j * 4 + 4 <= Z.of_nat (length (fb_mem fb)).
Proof. intros [_ [? ?] ? ?] Hi Hj. nia. Qed.

Lemma fill_rect_ok x y w h rgb fb : fb_ok fb -> u16 x + u16 w <= 65535 -> u16 y + u16 h <= 65535 ->
  exists fb', fill_rect x y w h rgb fb = Ret fb' /\ same_fb fb fb'.
Proof.
  intros Hok Hx Hy. unfold fill_rect, for_u16 at 1. rewrite (proj2 (Z.leb_le _ _)) by lia.
  assert (0 <= u16 x /\ 0 <= u16 y) as [Hx0 Hy0] by word.
  apply (for_up_inv (fun _ f => same_fb fb f)); [done|]. intros i f Hi Hf.
  destruct (Z.geb_spec i (fb_height f)) as [|Hih]; [by exists f|].
  unfold for_u16. rewrite (proj2 (Z.leb_le _ _)) by lia. destruct Hf as (? & Hfh & Hf). rewrite Hfh in Hih.
  assert (same_fb fb f) as Hs by done. clear Hf Hfh.
  apply (for_up_inv (fun _ f => same_fb fb f)); [done|]. clear f Hs H. intros j f Hj Hf.
  destruct (Z.geb_spec j (fb_width f)) as [|Hjw]; [by exists f|].
  pose proof (fb_ok_same _ _ Hok Hf) as Hok'. destruct (pixel_in f i j) as [H0 H1]; [done|destruct Hf as (_ & -> & _); lia|lia|].
  destruct (store_bytes_ok (u32 (pitch f * i) + u32 (j * pixel_bytes f))
    [Z.land rgb 255; Z.land (Z.shiftr rgb 8) 255; Z.land (Z.shiftr rgb 16) 255] f) as (f' & Hs & Hf').
  - word.
  - destruct Hok' as [-> [? ?] ? ?]. simpl length. assert (0 <= pitch f * i) by nia. word.
  - exists f'. split; [exact Hs|by etrans].
Qed.

(** ** Glyphs *)

(** A font whose glyphs are of [fw] by [fh] and lie in its data. *)
Record font_ok (fw fh : Z) (f : Font) : Prop := {
  fn_size : f_width f = fw /\ f_height f = fh;
  fn_glyphs : 0 < num_glyph f /\ fh * ((fw + 7) / 8) <= bytes_per_glyph f;
  fn_data : num_glyph f * bytes_per_glyph f <= Z.of_nat (length (f_data f)) < 4294967296
}.

(** The glyph drawn, and where: the cell is in the grid, the grid in the framebuffer. *)
Lemma glyph_place fb fw fh w h cx cy : fb_ok fb -> 0 < fw -> 0 < fh -> w * fw <= fb_width fb -> h * fh <= fb_height fb ->
  0 <= cx < w -> 0 <= cy < h ->
  u32 (u32 (u16 cy * fh + u16 0) * pitch fb + u32 (u16 cx * fw + u16 0) * 4) = cy * fh * pitch fb + cx * fw * 4 /\
  forall y x, 0 <= y < fh -> 0 <= x < fw ->
    0 <= cy * fh * pitch fb + cx * fw * 4 + y * pitch fb + x * 4 /\
    cy * fh * pitch fb + cx * fw * 4 + y * pitch fb + x * 4 + 4 <= Z.of_nat (length (fb_mem fb)).
Proof.
  intros Hok Hw Hh Hgw Hgh Hx Hy.
  assert (cx * fw + fw <= fb_width fb /\ cy * fh + fh <= fb_height fb /\ 0 <= cx * fw /\ 0 <= cy * fh /\ cx <= cx * fw /\ cy <= cy * fh)
    as (Hcx & Hcy & Hcx0 & Hcy0 & Hcxl & Hcyl) by nia.
  assert (forall y x, 0 <= y < fh -> 0 <= x < fw ->
    0 <= cy * fh * pitch fb + cx * fw * 4 + y * pitch fb + x * 4 /\
    cy * fh * pitch fb + cx * fw * 4 + y * pitch fb + x * 4 + 4 <= Z.of_nat (length (fb_mem fb))) as Hin.
  { intros y x Hyr Hxr. pose proof (pixel_in fb (cy * fh + y) (cx * fw + x) Hok ltac:(lia) ltac:(lia)). lia. }
  split; [|done]. destruct (Hin 0 0) as [H0 H1]; [lia|lia|]. destruct Hok as [_ [[? ?] ?] [? ?] [? ?]].
  unfold u16. rewrite (Z.mod_small cy), (Z.mod_small cx), (Z.mod_small 0) by lia. rewrite !Z.add_0_r.
  unfold u32. rewrite (Z.mod_small (cy * fh)), (Z.mod_small (cx * fw)) by lia. apply Z.mod_small. lia.
Qed.

Lemma glyph_bits f fw fh c y : font_ok fw fh f -> 0 < fw -> 0 <= y < fh -> 0 <= c ->
  exists bits, f_data f !! Z.to_nat (u32 ((if c <? num_glyph f then c else 0) * bytes_per_glyph f) + y * ((fw + 7) / 8)) = Some bits.
Proof.
  intros [_ [Hn Hb] [Hd Hl]] Hw Hy Hc. apply lookup_lt_is_Some.
  set (g := if c <? num_glyph f then c else 0). assert (0 <= g < num_glyph f) as Hg by (unfold g; case_if; lia).
  assert (0 <= (fw + 7) / 8) by lia. assert (y * ((fw + 7) / 8) + (fw + 7) / 8 <= fh * ((fw + 7) / 8)) by nia.
  assert (0 <= (fw + 7) / 8 * fh) by nia. assert (1 <= (fw + 7) / 8) by lia.
  assert (g * bytes_per_glyph f + bytes_per_glyph f <= num_glyph f * bytes_per_glyph f /\ 0 <= g * bytes_per_glyph f) as [? ?] by nia.
  unfold u32. rewrite Z.mod_small by lia. nia.
Qed.

Lemma draw_psf_char_ok fb font fw fh w h c cx cy fg bg : fb_ok fb -> font_ok fw fh font -> 0 < fw -> 0 < fh ->
  w * fw <= fb_width fb -> h * fh <= fb_height fb -> 0 <= cx < w -> 0 <= cy < h -> 0 <= c ->
  exists fb', draw_psf_char font c (u16 cx) (u16 cy) (u16 0) (u16 0) fg bg fb = Ret fb' /\ same_fb fb fb'.
Proof.
  intros Hok Hfont Hw Hh Hgw Hgh Hx Hy Hc. destruct (glyph_place fb fw fh w h cx cy) as [Hplace Hin]; try done.
  unfold draw_psf_char. destruct (fn_size _ _ _ Hfont) as [-> ->]. rewrite Hplace.
  assert (u32 (fw + 7) / 8 = (fw + 7) / 8) as ->.
  { destruct Hok as [_ [[? ?] ?] _ _]. assert (fw <= w * fw) by nia. unfold u32. rewrite Z.mod_small; lia. }
  set (g0 := u32 (_ * _)). set (where_ := cy * fh * pitch fb + cx * fw * 4) in *.
  edestruct (for_up_inv (fun y (s : Framebuffer * Z * Z) => let '(f, g, l) := s in
      same_fb fb f /\ g = g0 + y * ((fw + 7) / 8) /\ l = where_ + y * pitch fb)
    (Z.to_nat fh) 0) as ([[f g] l] & -> & Hf & _); [|..|cbn [obind]; by exists f].
  { simpl. repeat split; lia. }
  intros y [[f g] l] Hy' (Hf & -> & ->). destruct (glyph_bits font fw fh c y) as [bits Hbits]; [done|lia|lia|done|].
  fold g0 in Hbits. rewrite Hbits. destruct (Hf) as (_ & _ & Hp & _ & _).
  edestruct (for_up_inv (fun x (s : Framebuffer * Z * Z) => let '(f, m, l) := s in
      same_fb fb f /\ l = where_ + y * pitch fb + x * 4) (Z.to_nat fw) 0)
    as ([[f' m] l] & -> & Hf' & _); [..|cbn [obind]].
  - simpl. split; [done|lia].
  - intros x [[f' m] l] Hx' [Hf' ->]. cbn [deref obind]. destruct (Hin y x) as [H0 H1]; [lia|lia|].
    pose proof Hf' as (_ & _ & Hp' & Hpx & Hl').
    destruct (store_bytes_ok (where_ + y * pitch fb + x * 4) (le_bytes 4 (if bits &? m then fg else bg)) f')
      as (f2 & -> & Hf2); [done|rewrite length_le_bytes; lia|]. cbn [obind]. eexists. split; [done|].
    simpl. split; [by etrans|]. destruct Hf2 as (_ & _ & _ & -> & _). rewrite Hpx, (fo_pixel _ Hok). lia.
  - eexists. split; [done|]. simpl. split; [done|]. destruct Hf' as (_ & _ & -> & _). lia.
Qed.

(** ** Cells *)

(** The cells of a terminal lie in its framebuffer, its fonts fit them. *)
Record grid_ok (t : VirtualTerminal) : Prop := {
  go_fb : fb_ok (framebuffer t);
  go_font : 0 < font_width t /\ 0 < font_height t;
  go_regular : font_ok (font_width t) (font_height t) (regular_font t);
  go_bold : font_ok (font_width t) (font_height t) (bold_font t);
  go_width : 0 < width_chars t /\ width_chars t * font_width t <= fb_width (framebuffer t);
  go_height : 0 < height_chars t /\ height_chars t * font_height t <= fb_height (framebuffer t);
  go_pixel : pixel_x t = 0 /\ pixel_y t = 0;
  go_cells : Z.of_nat (length (buffer t)) = width_chars t * height_chars t;
  go_old : 0 <= old_cursor_x t < width_chars t /\ 0 <= old_cursor_y t < height_chars t
}.

(** The terminal [t] with the cells [b]: what it shows and remembers of the cursor it
    last drew may have changed. *)
Definition redrawn (t t' : VirtualTerminal) (b : list Z) : Prop :=
  exists fb u ox oy, same_fb (framebuffer t) fb /\ 0 <= ox < width_chars t /\ 0 <= oy < height_chars t /\
    t' = t <| framebuffer := fb |> <| buffer := b |> <| cursor_needs_undrawing := u |>
           <| old_cursor_x := ox |> <| old_cursor_y := oy |>.

Lemma redrawn_refl t : grid_ok t -> redrawn t t (buffer t).
Proof. intros Ht. exists (framebuffer t), (cursor_needs_undrawing t), (old_cursor_x t), (old_cursor_y t). destruct (go_old _ Ht). by destruct t. Qed.
Lemma redrawn_trans t1 t2 t3 b b' : redrawn t1 t2 b -> redrawn t2 t3 b' -> redrawn t1 t3 b'.
Proof.
  intros (f & u & ox & oy & Hf & Hx & Hy & ->) (f' & u' & ox' & oy' & Hf' & Hx' & Hy' & ->). simpl in *.
  exists f', u', ox', oy'. split; [by etrans|]. done.
Qed.
Lemma redrawn_grid t t' b : grid_ok t -> redrawn t t' b -> length b = length (buffer t) -> grid_ok t'.
Proof.
  intros Ht (f & u & ox & oy & Hf & Hx & Hy & ->) Hl. destruct Ht as [Hfb ? ? ? ? ? ? Hc ?].
  pose proof Hf as (Hw & Hh & _). split; simpl; rewrite ?Hw, ?Hh, ?Hl; try done. by apply (fb_ok_same (framebuffer t)).
Qed.
Lemma redrawn_buffer t t' b : redrawn t t' b -> buffer t' = b.
Proof. by intros (? & ? & ? & ? & _ & _ & _ & ->). Qed.

(** The place of a cell in the buffer. *)
Definition place (t : VirtualTerminal) (x y : Z) : nat := Z.to_nat (y * width_chars t + x).

Lemma place_range t x y : grid_ok t -> 0 <= x < width_chars t -> 0 <= y < height_chars t ->
  0 <= y * width_chars t + x < width_chars t * height_chars t /\
  Z.to_nat (cell_index t x y) = place t x y /\ (place t x y < length (buffer t))%nat.
Proof.
  intros [[_ [[? ?] ?] [? ?] _] [? ?] _ _ [? ?] [? ?] _ Hc _] Hx Hy.
  assert (0 <= y * width_chars t + x < width_chars t * height_chars t) as Hr by nia. split; [done|].
  assert (width_chars t <= 65535 /\ height_chars t <= 65535) as [Hw Hh] by nia.
  assert (width_chars t * height_chars t <= 4294836225) by nia.
  unfold place, cell_index. rewrite u64_small by lia. split; [done|lia].
Qed.

Lemma cell_at_ok t x y : grid_ok t -> 0 <= x < width_chars t -> 0 <= y < height_chars t ->
  exists e, cell_at t x y = Ret e /\ buffer t !! place t x y = Some e.
Proof.
  intros Ht Hx Hy. destruct (place_range t x y Ht Hx Hy) as (_ & Hi & Hl).
  unfold cell_at. rewrite Hi. destruct (lookup_lt_is_Some_2 _ _ Hl) as [e He]. exists e. by rewrite He.
Qed.

Lemma draw_char_at_ok t x y c fg bg : grid_ok t -> 0 <= x < width_chars t -> 0 <= y < height_chars t ->
  exists t', draw_char_at x y c fg bg t = Ret t' /\ redrawn t t' (buffer t).
Proof.
  intros Ht Hx Hy. unfold draw_char_at. destruct (Ht) as [? [? ?] ? ? [? ?] [? ?] [-> ->] _ [? ?]].
  edestruct (draw_psf_char_ok (framebuffer t) (if fg &? bold_flag then bold_font t else regular_font t)
    (font_width t) (font_height t) (width_chars t) (height_chars t)) as (fb & -> & Hfb); try done.
  - by destruct (fg &? bold_flag).
  - word.
  - cbn [obind]. eexists. split; [done|]. exists fb, (cursor_needs_undrawing t), (old_cursor_x t), (old_cursor_y t).
    split; [done|]. split; [done|]. split; [done|]. by destruct t.
Qed.

Lemma set_char_at_ok t x y c fg bg : grid_ok t -> 0 <= x < width_chars t -> 0 <= y < height_chars t ->
  exists t', set_char_at x y c fg bg t = Ret t' /\ redrawn t t' (<[place t x y := ColoredChar c fg bg]> (buffer t)).
Proof.
  intros Ht Hx Hy. unfold set_char_at. destruct (cell_at_ok t x y Ht Hx Hy) as (e & -> & He). cbn [obind].
  destruct (place_range t x y Ht Hx Hy) as (_ & -> & Hl).
  destruct (Z.eqb_spec e (ColoredChar c fg bg)) as [->|Hne].
  { rewrite list_insert_id by done. exists t. split; [done|]. by apply redrawn_refl. }
  assert (grid_ok (t <| buffer ::= <[place t x y := ColoredChar c fg bg]> |>)) as Ht'.
  { destruct Ht. split; try done. simpl. by rewrite length_insert. }
  destruct (draw_char_at_ok _ x y c fg bg Ht' Hx Hy) as (t' & -> & (f & u & ox & oy & Hf & Hox & Hoy & ->)). cbn [obind].
  eexists. split; [done|]. exists f, false, ox, oy. done.
Qed.

Lemma draw_bar_ok t x y rgb : grid_ok t -> 0 <= x < width_chars t -> 0 <= y < height_chars t ->
  exists t', draw_bar x y rgb t = Ret t' /\ redrawn t t' (buffer t).
Proof.
  intros Ht Hx Hy. unfold draw_bar. destruct (Ht) as [Hfb [? ?] ? ? [? ?] [? ?] [-> ->] _ [? ?]]. rewrite !Z.add_0_r.
  assert (0 <= x * font_width t /\ x * font_width t + font_width t <= fb_width (framebuffer t) /\
          0 <= y * font_height t /\ y * font_height t + font_height t <= fb_height (framebuffer t)) as (? & ? & ? & ?) by nia.
  destruct (Hfb) as [_ [[? ?] ?] [? ?] _].
  destruct (fill_rect_ok (x * font_width t) (y * font_height t) 1 (font_height t) rgb (framebuffer t)) as (fb & -> & Hs); [done|word|word|].
  cbn [obind]. eexists. split; [done|]. exists fb, (cursor_needs_undrawing t), (old_cursor_x t), (old_cursor_y t).
  split; [done|]. split; [done|]. split; [done|]. by destruct t.
Qed.

(** What drawing does not change. *)
Lemma redrawn_same t t' b : redrawn t t' b ->
  width_chars t' = width_chars t /\ height_chars t' = height_chars t /\ cursor_x t' = cursor_x t /\ cursor_y t' = cursor_y t.
Proof. by intros (? & ? & ? & ? & _ & _ & _ & ->). Qed.

Lemma place_same t t' b x y : redrawn t t' b -> place t' x y = place t x y.
Proof. intros (Hw & _)%redrawn_same. unfold place. by rewrite Hw. Qed.

(** [redrawn] through one more operation on it. *)
Lemma redrawn_step t t1 b op b' : grid_ok t -> redrawn t t1 b -> length b = length (buffer t) ->
  (grid_ok t1 -> exists t2, op t1 = Ret t2 /\ redrawn t1 t2 b') -> exists t2, op t1 = Ret t2 /\ redrawn t t2 b'.
Proof.
  intros Ht H1 Hl Hop. destruct Hop as (t2 & E & H2); [by eapply redrawn_grid|].
  exists t2. split; [done|]. by eapply redrawn_trans.
Qed.

Lemma redraw_cursor_ok t : grid_ok t -> 0 <= cursor_x t < width_chars t -> 0 <= cursor_y t < height_chars t ->
  exists t', redraw_cursor t = Ret t' /\ redrawn t t' (buffer t).
Proof.
  intros Ht Hx Hy. unfold redraw_cursor. destruct (go_old _ Ht) as [Hox Hoy].
  assert (exists t1, (if cursor_needs_undrawing t then
      let! t := draw_bar (old_cursor_x t) (old_cursor_y t) (current_bg t) t in
      let! c := cell_at t (old_cursor_x t) (old_cursor_y t) in
      draw_char_at (old_cursor_x t) (old_cursor_y t) (cc_c c) (cc_fg c) (cc_bg c) t else Ret t) = Ret t1 /\
    redrawn t t1 (buffer t)) as (t1 & -> & H1).
  { case_if; [|exists t; split; [done|by apply redrawn_refl]].
    destruct (draw_bar_ok t (old_cursor_x t) (old_cursor_y t) (current_bg t)) as (t1 & -> & H1); [done..|]. cbn [obind].
    pose proof (redrawn_grid _ _ _ Ht H1 eq_refl) as Ht1. destruct (go_old _ Ht1) as [Hx1 Hy1].
    destruct (cell_at_ok t1 (old_cursor_x t1) (old_cursor_y t1)) as (c & -> & _); [done..|]. cbn [obind].
    destruct (draw_char_at_ok t1 (old_cursor_x t1) (old_cursor_y t1) (cc_c c) (cc_fg c) (cc_bg c)) as (t2 & -> & H2); [done..|].
    exists t2. split; [done|]. rewrite (redrawn_buffer _ _ _ H1) in H2. by eapply redrawn_trans. }
  cbn [obind]. pose proof (redrawn_grid _ _ _ Ht H1 eq_refl) as Ht1. destruct (redrawn_same _ _ _ H1) as (Hw & Hh & Hcx & Hcy).
  destruct (draw_bar_ok t1 (cursor_x t1) (cursor_y t1) (current_fg t1)) as (t2 & -> & H2); [done|lia|lia|]. cbn [obind].
  eexists. split; [done|]. rewrite (redrawn_buffer _ _ _ H1) in H2. destruct (redrawn_trans _ _ _ _ _ H1 H2) as (f & u & ox & oy & Hf & _ & _ & ->).
  exists f, u, (cursor_x t), (cursor_y t). done.
Qed.

Definition set_cursor (x y : Z) (t : VirtualTerminal) : VirtualTerminal := t <| cursor_x := x |> <| cursor_y := y |>.

Lemma grid_ok_cursor t x y u : grid_ok t -> grid_ok (set_cursor x y t <| cursor_needs_undrawing := u |>).
Proof. by intros []. Qed.

Lemma move_cursor_ok t x y : grid_ok t -> 0 <= x < width_chars t -> 0 <= y < height_chars t ->
  exists t', move_cursor x y t = Ret t' /\ redrawn (set_cursor x y t) t' (buffer t).
Proof.
  intros Ht Hx Hy. destruct (redraw_cursor_ok (set_cursor x y t <| cursor_needs_undrawing := true |>)) as (t' & E & f & u & ox & oy & H).
  - by apply grid_ok_cursor.
  - done.
  - done.
  - exists t'. split; [exact E|]. by exists f, u, ox, oy.
Qed.

(** ** Blanking *)

(** The cells from place [lo] to before [hi], blank. *)
Definition erase (lo hi : Z) (b : list Z) : list Z :=
  imap (fun k e => if (lo <=? Z.of_nat k) && (Z.of_nat k <? hi) then blank else e) b.

Lemma length_erase lo hi b : length (erase lo hi b) = length b.
Proof. apply length_imap. Qed.
Lemma erase_empty lo hi b : hi <= lo -> erase lo hi b = b.
Proof.
  intros Hle. apply list_eq. intros k. unfold erase. rewrite list_lookup_imap.
  destruct (b !! k); [|done]. simpl. by replace (_ && _)%bool with false by lia.
Qed.
Lemma erase_up lo k b : lo <= Z.of_nat k -> (k < length b)%nat ->
  <[k := blank]> (erase lo (Z.of_nat k) b) = erase lo (Z.of_nat k + 1) b.
Proof.
  intros Hlo Hk. apply list_eq. intros j. unfold erase. destruct (decide (j = k)) as [->|].
  - rewrite list_lookup_insert_eq by (by rewrite length_imap). rewrite list_lookup_imap.
    destruct (lookup_lt_is_Some_2 _ _ Hk) as [e ->]. simpl. by replace (_ && _)%bool with true by lia.
  - rewrite list_lookup_insert_ne by done. rewrite !list_lookup_imap. destruct (b !! j); [|done]. simpl.
    by replace ((lo <=? Z.of_nat j) && (Z.of_nat j <? Z.of_nat k + 1))%bool with ((lo <=? Z.of_nat j) && (Z.of_nat j <? Z.of_nat k))%bool by lia.
Qed.
Lemma erase_down k hi b : Z.of_nat k < hi -> (k < length b)%nat ->
  <[k := blank]> (erase (Z.of_nat k + 1) hi b) = erase (Z.of_nat k) hi b.
Proof.
  intros Hhi Hk. apply list_eq. intros j. unfold erase. destruct (decide (j = k)) as [->|].
  - rewrite list_lookup_insert_eq by (by rewrite length_imap). rewrite list_lookup_imap.
    destruct (lookup_lt_is_Some_2 _ _ Hk) as [e ->]. simpl. by replace (_ && _)%bool with true by lia.
  - rewrite list_lookup_insert_ne by done. rewrite !list_lookup_imap. destruct (b !! j); [|done]. simpl.
    by replace ((Z.of_nat k + 1 <=? Z.of_nat j) && (Z.of_nat j <? hi))%bool with ((Z.of_nat k <=? Z.of_nat j) && (Z.of_nat j <? hi))%bool by lia.
Qed.

(** One more cell set. *)
Lemma set_step t t1 b x y c fg bg : grid_ok t -> redrawn t t1 b -> length b = length (buffer t) ->
  0 <= x < width_chars t -> 0 <= y < height_chars t ->
  exists t2, set_char_at x y c fg bg t1 = Ret t2 /\ redrawn t t2 (<[place t x y := ColoredChar c fg bg]> b).
Proof.
  intros Ht H1 Hl Hx Hy. destruct (redrawn_same _ _ _ H1) as (Hw & Hh & _).
  eapply redrawn_step; [done..|]. intros Ht1. rewrite <- (redrawn_buffer _ _ _ H1), <- (place_same _ _ _ x y H1).
  apply set_char_at_ok; [done|lia|lia].
Qed.
Lemma blank_step t t1 b x y : grid_ok t -> redrawn t t1 b -> length b = length (buffer t) ->
  0 <= x < width_chars t -> 0 <= y < height_chars t ->
  exists t2, set_blank x y t1 = Ret t2 /\ redrawn t t2 (<[place t x y := blank]> b).
Proof. apply set_step. Qed.

Lemma erase_row_up t t0 b x y n : grid_ok t -> redrawn t t0 b -> length b = length (buffer t) ->
  0 <= x -> x + Z.of_nat n <= width_chars t -> 0 <= y < height_chars t ->
  exists t', for_up n x (fun x t => set_blank x y t) t0 = Ret t' /\
    redrawn t t' (erase (y * width_chars t + x) (y * width_chars t + x + Z.of_nat n) b).
Proof.
  intros Ht H0 Hl Hx Hn Hy.
  destruct (for_up_inv (fun i t' => redrawn t t' (erase (y * width_chars t + x) (y * width_chars t + i) b)) n x
    (fun x t => set_blank x y t) t0) as (t' & E & H').
  - by rewrite erase_empty by lia.
  - intros i t1 Hi H1. destruct (place_range t i y) as (Hp & _ & Hpl); [done|lia|done|].
    destruct (blank_step t t1 _ i y Ht H1) as (t2 & E & H2); [by rewrite length_erase|lia|done|].
    exists t2. split; [done|]. unfold place in *.
    replace (y * width_chars t + i) with (Z.of_nat (Z.to_nat (y * width_chars t + i))) in H2 by lia.
    rewrite Nat2Z.id, erase_up in H2 by lia.
    by replace (y * width_chars t + (i + 1)) with (Z.of_nat (Z.to_nat (y * width_chars t + i)) + 1) by lia.
  - exists t'. split; [done|]. by rewrite <- Z.add_assoc.
Qed.

Lemma erase_row_down t y : grid_ok t -> 0 <= cursor_x t < width_chars t -> 0 <= y < height_chars t ->
  exists t', for_down (Z.to_nat (cursor_x t + 1)) (cursor_x t) (fun x t => set_blank x y t) t = Ret t' /\
    redrawn t t' (erase (y * width_chars t) (y * width_chars t + cursor_x t + 1) (buffer t)).
Proof.
  intros Ht Hx Hy.
  destruct (for_down_inv (fun i t' => redrawn t t' (erase (y * width_chars t + i + 1) (y * width_chars t + cursor_x t + 1) (buffer t)))
    (Z.to_nat (cursor_x t + 1)) (cursor_x t) (fun x t => set_blank x y t) t) as (t' & E & H').
  - rewrite erase_empty by lia. by apply redrawn_refl.
  - intros i t1 Hi H1. destruct (place_range t i y) as (Hp & _ & Hpl); [done|lia|done|].
    destruct (blank_step t t1 _ i y Ht H1) as (t2 & E & H2); [by rewrite length_erase|lia|done|].
    exists t2. split; [done|]. unfold place in *.
    replace (y * width_chars t + i + 1) with (Z.of_nat (Z.to_nat (y * width_chars t + i)) + 1) in H2 by lia.
    rewrite erase_down in H2 by lia.
    by replace (y * width_chars t + (i - 1) + 1) with (Z.of_nat (Z.to_nat (y * width_chars t + i))) by lia.
  - exists t'. split; [done|].
    by replace (y * width_chars t + (cursor_x t - Z.of_nat (Z.to_nat (cursor_x t + 1))) + 1) with (y * width_chars t) in H' by lia.
Qed.

(** A whole pass over the cells that blanks those of a range of places. *)
Lemma erase_cells t lo hi (which : Z -> Z -> bool) : grid_ok t -> 0 <= lo ->
  (forall x y, 0 <= x < width_chars t -> 0 <= y < height_chars t -> which x y = (lo <=? y * width_chars t + x) && (y * width_chars t + x <? hi)) ->
  exists t', for_up (Z.to_nat (height_chars t)) 0 (fun y => for_up (Z.to_nat (width_chars t)) 0 (fun x t1 =>
      if which x y then set_blank x y t1 else Ret t1)) t = Ret t' /\
    redrawn t t' (erase lo hi (buffer t)).
Proof.
  intros Ht Hlo Hwhich. set (P k t' := redrawn t t' (erase lo (Z.min hi k) (buffer t))).
  destruct (for_up_inv (fun y => P (y * width_chars t)) (Z.to_nat (height_chars t)) 0
    (fun y => for_up (Z.to_nat (width_chars t)) 0 (fun x t1 =>
      if which x y then set_blank x y t1 else Ret t1)) t) as (t' & E & H').
  - unfold P. rewrite erase_empty by lia. by apply redrawn_refl.
  - intros y t1 Hy H1. destruct (go_width _ Ht) as [Hw _].
    destruct (for_up_inv (fun x => P (y * width_chars t + x)) (Z.to_nat (width_chars t)) 0 (fun x t1 =>
      if which x y then set_blank x y t1 else Ret t1) t1) as (t2 & E2 & H2).
    + by rewrite Z.add_0_r.
    + intros x t2 Hx H2. destruct (place_range t x y) as (Hp & _ & Hpl); [done|lia|lia|]. unfold place in Hpl.
      set (k := y * width_chars t + x) in *. replace (y * width_chars t + (x + 1)) with (k + 1) by lia. rewrite Hwhich by lia. fold k.
      destruct (Z.leb_spec lo k) as [Hk|Hk]; [destruct (Z.ltb_spec k hi) as [Hk'|Hk']|]; simpl.
      * destruct (blank_step t t2 _ x y Ht H2) as (t3 & E3 & H3); [by rewrite length_erase|lia|lia|].
        exists t3. split; [done|]. unfold P, place in *. fold k in H3. rewrite !Z.min_r in * by lia.
        replace k with (Z.of_nat (Z.to_nat k)) in H3 by lia. rewrite Nat2Z.id, erase_up in H3 by lia.
        by replace (k + 1) with (Z.of_nat (Z.to_nat k) + 1) by lia.
      * exists t2. split; [done|]. unfold P in *. by rewrite !Z.min_l in * by lia.
      * exists t2. split; [done|]. unfold P in *. rewrite erase_empty in * by lia. done.
    + exists t2. split; [done|]. replace ((y + 1) * width_chars t) with (y * width_chars t + (0 + Z.of_nat (Z.to_nat (width_chars t)))) by lia. done.
  - exists t'. split; [done|]. unfold P in H'. destruct (go_height _ Ht) as [Hh _]. destruct (go_width _ Ht) as [Hw _].
    replace (erase lo hi (buffer t)) with (erase lo (Z.min hi ((0 + Z.of_nat (Z.to_nat (height_chars t))) * width_chars t)) (buffer t)); [done|].
    pose proof (go_cells _ Ht) as Hc. rewrite Z2Nat.id, Z.add_0_l, Z.mul_comm, <- Hc by lia. apply list_eq. intros k. unfold erase. rewrite !list_lookup_imap.
    destruct (buffer t !! k) eqn:Hk; [|done]. apply lookup_lt_Some in Hk. simpl.
    by replace (Z.of_nat k <? Z.min hi (Z.of_nat (length (buffer t)))) with (Z.of_nat k <? hi) by lia.
Qed.

(** ** Encoded characters *)

Lemma char_bits c n : 0 <= n ->
  Z.testbit (u64 (i8 c)) n = if n <? 8 then Z.testbit c n else (n <? 64) && Z.testbit c 7.
Proof.
  intros Hn. assert (i8 c = i8 (c mod 256)) as -> by (unfold i8; rewrite Zplus_mod_idemp_l; done).
  assert (forall m, 0 <= m < 8 -> Z.testbit c m = Z.testbit (c mod 256) m) as Hm.
  { intros m Hm. change 256 with (2 ^ 8). by rewrite Z.mod_pow2_bits_low by lia. }
  rewrite (Hm 7) by lia. replace (if n <? 8 then Z.testbit c n else _) with
    (if n <? 8 then Z.testbit (c mod 256) n else (n <? 64) && Z.testbit (c mod 256) 7)
    by (destruct (Z.ltb_spec n 8); [by rewrite Hm by lia|done]).
  assert (0 <= c mod 256 < 256) as Hr by lia. clear Hm. revert Hr. generalize (c mod 256). clear c. intros c Hr.
  destruct (Z.ltb_spec n 64) as [Hn'|Hn'].
  - assert (forallb (fun c => forallb (fun n => eqb (Z.testbit (u64 (i8 c)) n)
      (if n <? 8 then Z.testbit c n else Z.testbit c 7)) (seqZ 0 64)) (seqZ 0 256) = true) as Hall by (vm_compute; done).
    rewrite forallb_forall in Hall. specialize (Hall c ltac:(apply list_elem_of_In, elem_of_seqZ; lia)).
    rewrite forallb_forall in Hall. specialize (Hall n ltac:(apply list_elem_of_In, elem_of_seqZ; lia)).
    by apply eqb_prop in Hall.
  - replace (n <? 8) with false by lia. simpl. apply Z.bits_above_log2; [apply u64_range|].
    pose proof (u64_range (i8 c)). destruct (decide (u64 (i8 c) = 0)) as [->|]; [simpl; lia|].
    apply Z.log2_lt_pow2; [lia|]. assert (2 ^ 64 <= 2 ^ n) by (apply Z.pow_le_mono_r; lia). lia.
Qed.

Lemma cell_bits c fg bg n : 0 <= n ->
  Z.testbit (ColoredChar c fg bg) n =
    if n <? 8 then Z.testbit c n
    else ((n <? 64) && Z.testbit c 7) || ((n <? 33) && Z.testbit fg (n - 8)) || ((40 <=? n) && (n <? 64) && Z.testbit bg (n - 40)).
Proof.
  intros Hn. unfold ColoredChar. rewrite !Z.lor_spec, char_bits, !Z.shiftl_spec by lia.
  change 33554431 with (Z.ones 25). change 16777215 with (Z.ones 24). rewrite !Z.land_spec.
  destruct (Z.ltb_spec n 8) as [H8|H8].
  - rewrite !(Z.testbit_neg_r _ (n - _)) by lia. simpl. by rewrite !orb_false_r.
  - rewrite (Z.testbit_ones _ (n - 8)) by lia. rewrite (Z.testbit_ones _ (n - 40)) by lia.
    replace ((0 <=? n - 8) && (n - 8 <? 25))%bool with (n <? 33) by lia.
    replace ((0 <=? n - 40) && (n - 40 <? 24))%bool with ((40 <=? n) && (n <? 64))%bool by lia.
    by rewrite (andb_comm (Z.testbit fg _)), (andb_comm (Z.testbit bg _)).
Qed.

Definition is_cell (e : Z) : Prop := exists c fg bg, e = ColoredChar c fg bg.

(** What is read from a cell encodes to it again. *)
Lemma cell_recode e : is_cell e -> ColoredChar (cc_c e) (cc_fg e) (cc_bg e) = e.
Proof.
  intros (c & fg & bg & He). apply Z.bits_inj'. intros n Hn. rewrite cell_bits by done. unfold cc_c, cc_fg, cc_bg.
  change 255 with (Z.ones 8). change 33554431 with (Z.ones 25). change 16777215 with (Z.ones 24).
  rewrite !Z.land_spec. rewrite (Z.testbit_ones 8 n), (Z.testbit_ones 8 7) by lia.
  destruct (Z.ltb_spec n 8) as [H8|H8].
  { replace (0 <=? n) with true by lia. by rewrite andb_true_r. }
  change ((0 <=? 7) && (7 <? 8))%bool with true. rewrite andb_true_r.
  assert (forall m, m <= n -> 0 <= m -> Z.testbit (Z.shiftr e m) (n - m) = Z.testbit e n) as Hsh
    by (intros m ? ?; rewrite Z.shiftr_spec by lia; f_equal; lia).
  rewrite (Hsh 8) by lia. rewrite (Z.testbit_ones 25) by lia. rewrite (Z.testbit_ones 24) by lia.
  assert (Z.testbit e 7 = Z.testbit c 7) as -> by (rewrite He, cell_bits by lia; done).
  assert (40 <= n -> Z.testbit (Z.shiftr e 40) (n - 40) = Z.testbit e n) as Hsh' by (intros; apply Hsh; lia).
  assert (Z.testbit e n = ((n <? 64) && Z.testbit c 7) || ((n <? 33) && Z.testbit fg (n - 8)) || ((40 <=? n) && (n <? 64) && Z.testbit bg (n - 40))) as Hen
    by (rewrite He, cell_bits by lia; by replace (n <? 8) with false by lia).
  replace ((0 <=? n - 8) && (n - 8 <? 25))%bool with (n <? 33) by lia.
  replace ((0 <=? n - 40) && (n - 40 <? 24))%bool with ((40 <=? n) && (n <? 64))%bool by lia.
  destruct (Z.leb_spec 40 n) as [H40|H40]; [rewrite Hsh' by done|]; rewrite Hen;
    destruct (Z.testbit c 7), (Z.testbit fg _), (Z.testbit bg _), (Z.ltb_spec n 64), (Z.ltb_spec n 33); try done; lia.
Qed.

Lemma blank_cell : is_cell blank.
Proof. by eexists _, _, _. Qed.
#[export] Hint Resolve blank_cell : core.

Lemma erase_cell lo hi b : Forall is_cell b -> Forall is_cell (erase lo hi b).
Proof.
  intros Hb. apply Forall_lookup. intros k e. unfold erase. rewrite list_lookup_imap. intros He.
  destruct (b !! k) eqn:Hk; [|done]. injection He as <-. case_if; [done|]. by eapply Forall_lookup in Hb.
Qed.

(** ** Copying *)

Lemma copy_step t t1 b x y x' y' e : grid_ok t -> redrawn t t1 b -> length b = length (buffer t) -> Forall is_cell b ->
  0 <= x < width_chars t -> 0 <= y < height_chars t -> 0 <= x' < width_chars t -> 0 <= y' < height_chars t ->
  b !! place t x y = Some e ->
  exists t2, copy_char x y x' y' t1 = Ret t2 /\ redrawn t t2 (<[place t x' y' := e]> b).
Proof.
  intros Ht H1 Hl Hb Hx Hy Hx' Hy' He. unfold copy_char. destruct (redrawn_same _ _ _ H1) as (Hw & Hh & _).
  destruct (cell_at_ok t1 x y) as (e' & -> & He'); [by eapply redrawn_grid|lia|lia|].
  rewrite (redrawn_buffer _ _ _ H1), (place_same _ _ _ _ _ H1), He in He'. injection He' as <-. cbn [obind].
  destruct (set_step t t1 b x' y' (cc_c e) (cc_fg e) (cc_bg e)) as (t2 & E & H2); try done.
  exists t2. split; [done|]. rewrite cell_recode in H2; [done|]. by eapply Forall_lookup in Hb.
Qed.

(** The cells a line up, a blank line after them. *)
Definition scroll_up (w : Z) (b : list Z) : list Z := drop (Z.to_nat w) b ++ replicate (Z.to_nat w) blank.

Lemma length_scroll_up w b : 0 <= w <= Z.of_nat (length b) -> length (scroll_up w b) = length b.
Proof. intros H. unfold scroll_up. rewrite length_app, length_drop, length_replicate. lia. Qed.
Lemma scroll_up_cell w b : Forall is_cell b -> Forall is_cell (scroll_up w b).
Proof. intros Hb. apply Forall_app_2; [by apply Forall_drop|by apply Forall_replicate]. Qed.

(** The first [k] cells copied from a line below. *)
Definition raised (w : Z) (k : nat) (b : list Z) : list Z := take k (drop (Z.to_nat w) b) ++ drop k b.
Lemma lookup_raised w k b j : (k + Z.to_nat w <= length b)%nat ->
  raised w k b !! j = if decide (j < k)%nat then b !! (Z.to_nat w + j)%nat else b !! j.
Proof.
  intros Hk. unfold raised. case_decide.
  - rewrite lookup_app_l by (rewrite length_take, length_drop; lia). by rewrite lookup_take_lt, lookup_drop by lia.
  - rewrite lookup_app_r by (rewrite length_take; lia). rewrite length_take, length_drop, lookup_drop. f_equal. lia.
Qed.
Lemma length_raised w k b : (k + Z.to_nat w <= length b)%nat -> length (raised w k b) = length b.
Proof. intros H. unfold raised. rewrite length_app, length_take, !length_drop. lia. Qed.
Lemma raised_cell w k b : Forall is_cell b -> Forall is_cell (raised w k b).
Proof. intros Hb. apply Forall_app_2; [by apply Forall_take, Forall_drop|by apply Forall_drop]. Qed.
Lemma raised_step w k b e : 0 <= w -> (k + Z.to_nat w < length b)%nat -> raised w k b !! (Z.to_nat w + k)%nat = Some e ->
  <[k := e]> (raised w k b) = raised w (S k) b.
Proof.
  intros Hw Hk He. rewrite lookup_raised, decide_False in He by lia. apply list_eq. intros j. rewrite (lookup_raised w (S k)) by lia.
  destruct (decide (j = k)) as [->|].
  - rewrite list_lookup_insert_eq, decide_True by (rewrite ?length_raised; lia). done.
  - rewrite list_lookup_insert_ne, lookup_raised by (done || lia). repeat case_decide; try done; lia.
Qed.

Lemma copies_raise t : grid_ok t -> Forall is_cell (buffer t) ->
  exists t', for_up (Z.to_nat (height_chars t - 1)) 0 (fun y => for_up (Z.to_nat (width_chars t)) 0 (fun x => copy_char x (y + 1) x y)) t = Ret t' /\
    redrawn t t' (raised (width_chars t) (Z.to_nat ((height_chars t - 1) * width_chars t)) (buffer t)).
Proof.
  intros Ht Hc. destruct (go_width _ Ht) as [Hw _]. destruct (go_height _ Ht) as [Hh _]. pose proof (go_cells _ Ht) as Hcells.
  set (P k t' := redrawn t t' (raised (width_chars t) (Z.to_nat k) (buffer t))).
  destruct (for_up_inv (fun y => P (y * width_chars t)) (Z.to_nat (height_chars t - 1)) 0
    (fun y => for_up (Z.to_nat (width_chars t)) 0 (fun x => copy_char x (y + 1) x y)) t) as (t' & E & H').
  - unfold P, raised. simpl. by apply redrawn_refl.
  - intros y t1 Hy H1.
    destruct (for_up_inv (fun x => P (y * width_chars t + x)) (Z.to_nat (width_chars t)) 0 (fun x => copy_char x (y + 1) x y) t1) as (t2 & E2 & H2).
    + by rewrite Z.add_0_r.
    + intros x t2 Hx H2. destruct (place_range t x (y + 1)) as (Hp & _ & Hpl); [done|lia|lia|].
      set (k := y * width_chars t + x) in *. unfold P in H2. assert (0 <= k) by nia.
      assert (place t x (y + 1) = (Z.to_nat (width_chars t) + Z.to_nat k)%nat) as Hpl' by (unfold place, k; lia).
      assert (length (raised (width_chars t) (Z.to_nat k) (buffer t)) = length (buffer t)) as Hlen by (apply length_raised; lia).
      destruct (lookup_lt_is_Some_2 (raised (width_chars t) (Z.to_nat k) (buffer t)) (place t x (y + 1))) as [e He]; [lia|].
      destruct (copy_step t t2 _ x (y + 1) x y e Ht H2) as (t3 & E3 & H3); try done; try lia.
      { by apply raised_cell. }
      exists t3. split; [done|]. unfold P. replace (place t x y) with (Z.to_nat k) in H3 by (unfold place, k; lia).
      rewrite Hpl' in He. rewrite raised_step in H3 by (done || lia).
      by replace (Z.to_nat (y * width_chars t + (x + 1))) with (S (Z.to_nat k)) by lia.
    + exists t2. split; [done|]. replace ((y + 1) * width_chars t) with (y * width_chars t + (0 + Z.of_nat (Z.to_nat (width_chars t)))) by lia. done.
  - exists t'. split; [done|]. unfold P in H'. by rewrite Z2Nat.id, Z.add_0_l in H' by lia.
Qed.

Lemma scroll_ok t : grid_ok t -> Forall is_cell (buffer t) ->
  exists t', scroll t = Ret t' /\ redrawn t t' (scroll_up (width_chars t) (buffer t)).
Proof.
  intros Ht Hc. destruct (go_width _ Ht) as [Hw _]. destruct (go_height _ Ht) as [Hh _]. pose proof (go_cells _ Ht) as Hcells.
  unfold scroll. destruct (copies_raise t Ht Hc) as (t1 & -> & H1). cbn [obind].
  set (k := Z.to_nat ((height_chars t - 1) * width_chars t)) in *.
  assert (k + Z.to_nat (width_chars t) = length (buffer t))%nat as Hk by (unfold k; nia).
  assert ((height_chars t - 1) * width_chars t = Z.of_nat k) as Hkz by (unfold k; nia).
  destruct (erase_row_up t t1 _ 0 (height_chars t - 1) (Z.to_nat (width_chars t)) Ht H1) as (t2 & -> & H2);
    [by rewrite length_raised by lia|lia|lia|lia|]. cbn [obind]. eexists. split; [done|].
  assert (erase ((height_chars t - 1) * width_chars t + 0) ((height_chars t - 1) * width_chars t + 0 + Z.of_nat (Z.to_nat (width_chars t)))
    (raised (width_chars t) k (buffer t)) = scroll_up (width_chars t) (buffer t)) as <-.
  { rewrite Hkz. clear H2. clearbody k. apply list_eq. intros j. unfold erase, scroll_up. rewrite list_lookup_imap, lookup_raised by lia.
    destruct (decide (j < k)%nat).
    - rewrite lookup_app_l by (rewrite length_drop; lia). rewrite lookup_drop. destruct (buffer t !! _); [|done].
      simpl. by replace (_ && _)%bool with false by lia.
    - rewrite lookup_app_r by (rewrite length_drop; lia). rewrite length_drop.
      destruct (decide (j < length (buffer t))%nat).
      + destruct (lookup_lt_is_Some_2 (buffer t) j) as [e ->]; [done|]. simpl. rewrite (proj2 (Z.leb_le _ _)), (proj2 (Z.ltb_lt _ _)) by lia. simpl.
        symmetry. apply lookup_replicate_2. lia.
      + rewrite lookup_ge_None_2 by lia. symmetry. apply lookup_ge_None_2. rewrite length_replicate. lia. }
  destruct H2 as (f & u & ox & oy & Hf & Hox & Hoy & ->). by exists f, true, ox, oy.
Qed.

(** ** Deleting characters *)

(** The cells from place [lo] on are those [n] further, up to place [hi], and blank after:
    the first [i] steps of the loop. *)
Definition deleting (lo n i : Z) (b : list Z) : list Z :=
  imap (fun k e =>
    let k := Z.of_nat k in
    if (lo <=? k) && (k <? lo + i) then if n =? 0 then blank else default blank (b !! Z.to_nat (k + n))
    else if (lo + n <=? k) && (k <? lo + n + i) then blank else e) b.
Definition delete_cells (lo n hi : Z) (b : list Z) : list Z :=
  imap (fun k e =>
    let k := Z.of_nat k in
    if (lo <=? k) && (k <? hi) then if (n =? 0) || (hi <=? k + n) then blank else default blank (b !! Z.to_nat (k + n))
    else e) b.

Lemma deleting_start lo n b : deleting lo n 0 b = b.
Proof.
  apply list_eq. intros k. unfold deleting. rewrite list_lookup_imap. destruct (b !! k); [|done]. simpl.
  replace (_ && _)%bool with false by lia. by replace (_ && _)%bool with false by lia.
Qed.
Lemma deleting_end lo n hi b : 0 <= n -> lo + n <= hi ->
  deleting lo n (hi - (lo + n)) (erase lo (lo + n) b) = delete_cells lo n hi b.
Proof.
  intros Hn Hhi. apply list_eq. intros k. unfold deleting, delete_cells, erase. rewrite !list_lookup_imap.
  destruct (b !! k) as [e|]; [|done]. simpl. f_equal.
  destruct (Z.leb_spec lo (Z.of_nat k)) as [Hlo|Hlo]; simpl.
  2:{ by replace (lo + n <=? Z.of_nat k) with false by lia. }
  destruct (Z.ltb_spec (Z.of_nat k) (lo + (hi - (lo + n)))) as [Hk|Hk].
  - replace (Z.of_nat k <? hi) with true by lia. destruct (Z.eqb_spec n 0); [done|].
    replace (hi <=? Z.of_nat k + n) with false by lia. simpl.
    destruct (b !! Z.to_nat (Z.of_nat k + n)); [|done]. simpl.
    rewrite Z2Nat.id by lia. replace (Z.of_nat k + n <? lo + n) with false by lia. by rewrite andb_false_r.
  - replace (hi <=? Z.of_nat k + n) with true by lia. rewrite orb_true_r.
    replace (Z.of_nat k <? lo + n + (hi - (lo + n))) with (Z.of_nat k <? hi) by lia.
    destruct (Z.leb_spec (lo + n) (Z.of_nat k)); destruct (Z.ltb_spec (Z.of_nat k) hi); simpl; try done;
      destruct (Z.ltb_spec (Z.of_nat k) (lo + n)); try done; lia.
Qed.
Lemma length_deleting lo n i b : length (deleting lo n i b) = length b.
Proof. apply length_imap. Qed.
Lemma deleting_step lo n i b e : 0 <= lo -> 0 <= n -> 0 <= i -> b !! Z.to_nat (lo + n + i) = Some e ->
  <[Z.to_nat (lo + n + i) := blank]> (<[Z.to_nat (lo + i) := e]> (deleting lo n i b)) = deleting lo n (i + 1) b.
Proof.
  intros Hlo Hn Hi He. pose proof (lookup_lt_Some _ _ _ He) as Hlt. apply list_eq. intros k.
  destruct (decide (k = Z.to_nat (lo + n + i))) as [->|Hne].
  { rewrite list_lookup_insert_eq by (by rewrite length_insert, length_deleting). unfold deleting.
    rewrite list_lookup_imap, He. simpl. rewrite Z2Nat.id by lia. destruct (Z.eqb_spec n 0) as [->|Hn0].
    - by replace (_ && _)%bool with true by lia.
    - replace (_ && _)%bool with false by lia. by replace (_ && _)%bool with true by lia. }
  rewrite list_lookup_insert_ne by done. destruct (decide (k = Z.to_nat (lo + i))) as [->|Hne'].
  - assert (n <> 0) by (intros ->; apply Hne; f_equal; lia).
    rewrite list_lookup_insert_eq by (rewrite length_deleting; lia). unfold deleting. rewrite list_lookup_imap.
    destruct (lookup_lt_is_Some_2 b (Z.to_nat (lo + i))) as [e' ->]; [lia|]. simpl.
    rewrite Z2Nat.id by lia. replace (_ && _)%bool with true by lia. replace (n =? 0) with false by lia.
    replace (Z.to_nat (lo + i + n)) with (Z.to_nat (lo + n + i)) by lia. by rewrite He.
  - rewrite list_lookup_insert_ne by done. unfold deleting. rewrite !list_lookup_imap. destruct (b !! k); [|done]. simpl.
    replace ((lo <=? Z.of_nat k) && (Z.of_nat k <? lo + (i + 1)))%bool with ((lo <=? Z.of_nat k) && (Z.of_nat k <? lo + i))%bool by lia.
    by replace ((lo + n <=? Z.of_nat k) && (Z.of_nat k <? lo + n + (i + 1)))%bool with ((lo + n <=? Z.of_nat k) && (Z.of_nat k <? lo + n + i))%bool by lia.
Qed.

Lemma default_cell b k : Forall is_cell b -> is_cell (default blank (b !! k)).
Proof. intros Hb. destruct (b !! k) eqn:E; [by eapply Forall_lookup in Hb|done]. Qed.
Lemma imap_cells f (b : list Z) : (forall k e, b !! k = Some e -> is_cell (f k e)) -> Forall is_cell (imap f b).
Proof.
  intros Hf. apply Forall_lookup. intros k e. rewrite list_lookup_imap. intros He.
  destruct (b !! k) eqn:Hk; [|done]. injection He as <-. by apply Hf.
Qed.
Lemma deleting_cell lo n i b : Forall is_cell b -> Forall is_cell (deleting lo n i b).
Proof.
  intros Hb. apply imap_cells. intros k e He. simpl.
  repeat (case_if; auto using default_cell). all: try done. all: try (by apply default_cell). all: by eapply Forall_lookup in Hb.
Qed.
Lemma delete_cells_cell lo n hi b : Forall is_cell b -> Forall is_cell (delete_cells lo n hi b).
Proof.
  intros Hb. apply imap_cells. intros k e He. simpl.
  repeat (case_if; auto using default_cell). all: try done. all: try (by apply default_cell). all: by eapply Forall_lookup in Hb.
Qed.

Lemma moves_delete t t0 b x y last : grid_ok t -> redrawn t t0 b -> length b = length (buffer t) -> Forall is_cell b ->
  0 <= x <= last -> last <= width_chars t -> 0 <= y < height_chars t ->
  exists t', for_up (Z.to_nat (width_chars t - last)) 0 (fun i => move_char (last + i) y (x + i) y) t0 = Ret t' /\
    redrawn t t' (deleting (y * width_chars t + x) (last - x) (width_chars t - last) b).
Proof.
  intros Ht H0 Hl Hc Hx Hlast Hy. set (lo := y * width_chars t + x). assert (0 <= lo) as Hlo by (unfold lo; nia).
  destruct (for_up_inv (fun i t' => redrawn t t' (deleting lo (last - x) i b)) (Z.to_nat (width_chars t - last)) 0
    (fun i => move_char (last + i) y (x + i) y) t0) as (t' & E & H').
  - by rewrite deleting_start.
  - intros i t1 Hi H1. destruct (place_range t (last + i) y) as (Hp & _ & Hpl); [done|lia|done|].
    assert (place t (last + i) y = Z.to_nat (lo + (last - x) + i)) as Hpe by (unfold place, lo; f_equal; lia).
    destruct (lookup_lt_is_Some_2 b (Z.to_nat (lo + (last - x) + i))) as [e He]; [lia|].
    destruct (copy_step t t1 _ (last + i) y (x + i) y e Ht H1) as (t2 & E2 & H2); try done; try lia.
    { by rewrite length_deleting. } { by apply deleting_cell. }
    { rewrite Hpe. unfold deleting. rewrite list_lookup_imap, He. simpl. unfold lo in *. rewrite Z2Nat.id by lia.
      replace (_ && _)%bool with false by lia. by replace (_ && _)%bool with false by lia. }
    unfold move_char. rewrite E2. cbn [obind].
    destruct (blank_step t t2 _ (last + i) y Ht H2) as (t3 & E3 & H3); [by rewrite length_insert, length_deleting|lia|done|].
    exists t3. split; [done|]. rewrite Hpe in H3. replace (place t (x + i) y) with (Z.to_nat (lo + i)) in H3 by (unfold place, lo; f_equal; lia).
    rewrite deleting_step in H3; [done|lia|lia|lia|done].
  - exists t'. split; [done|]. by replace (0 + Z.of_nat (Z.to_nat (width_chars t - last))) with (width_chars t - last) in H' by lia.
Qed.
