(* ===== verification/ScreenProps.v ===== *)
(** * Properties of the text terminal

    A screen is what a program that writes to the terminal thinks of: cells, a cursor,
    the colours to write with, and the control sequence in the middle of which it is.
    The terminal implements it for every text, within its buffers. *)

From S2P Require Import Prelude Algorithm CString Screen ScreenFacts.
Import gfx.

(** ** The screen *)

(** A sequence has its arguments [before] the one being read, [cur]; whether a digit was
    read, and whether a question mark was. *)
Inductive sequence := Idle | Escape | Csi (before : list Z) (cur : Z) (given private : bool).

Record screen := mkScreen {
  cells : list Z; col : Z; row : Z; fg : Z; bg : Z; bold : bool; pending : sequence
}.
#[export] Instance eta_screen : Settable screen := fun s =>
  mkScreen (cells s) (col s) (row s) (fg s) (bg s) (bold s) (pending s).

(** Arguments below this are added to a cursor without overflow. *)
Definition max_number : Z := 2147418112.

Definition graphic (n : Z) (s : screen) : screen :=
  let color i := nth (Z.to_nat i) color_table 0 in
  if n =? 0 then s <| fg := default_fg_color |> <| bg := default_bg_color |> <| bold := false |>
  else if n =? 1 then s <| bold := true |>
  else if n =? 7 then s <| fg := bg s |> <| bg := fg s |>
  else if n =? 22 then s <| bold := false |>
  else if (30 <=? n) && (n <=? 37) then s <| fg := color (n - 30) |>
  else if (90 <=? n) && (n <=? 97) then s <| fg := color (n - 82) |>
  else if n =? 39 then s <| fg := default_fg_color |>
  else if (40 <=? n) && (n <=? 47) then s <| bg := color (n - 40) |>
  else if n =? 49 then s <| bg := default_bg_color |>
  else if (100 <=? n) && (n <=? 107) then s <| bg := color (n - 92) |>
  else s.

Section screen.
(** The columns and lines. *)
Context (w h : Z).

Definition in_screen (s : screen) : Prop := 0 <= col s < w /\ 0 <= row s < h.
Definition line_start (s : screen) : Z := row s * w.
Definition line_end (s : screen) : Z := row s * w + w.
Definition here (s : screen) : Z := row s * w + col s.

(** The cursor back on the screen: past the right margin it goes to the next line, past
    the last line everything goes up. *)
Definition settle (s : screen) : screen :=
  let s := if col s >=? w then s <| col := 0 |> <| row := row s + 1 |> else s in
  if row s >=? h then s <| cells := scroll_up w (cells s) |> <| row := row s - 1 |> else s.

Definition at_column (x : Z) (s : screen) : screen := s <| col := Z.max 0 (Z.min (w - 1) x) |>.
Definition at_line (y : Z) (s : screen) : screen := s <| row := Z.max 0 (Z.min (h - 1) y) |>.

(** The sequence of a letter with its arguments. *)
Definition control (code : Z) (args : list Z) (given : bool) (s : screen) : screen :=
  let n := nth 0 args 0 in
  let m := nth 1 args 0 in
  let step := Z.max n 1 in
  let count := Z.min (if given then n else 1) (w - col s) in
  let ends c := code =? c in
  if ends 109 then foldl (fun s n => graphic n s) s args
  else if ends 74 then
    s <| cells := if n =? 0 then erase (here s) (w * h) (cells s)
                  else if n =? 1 then erase 0 (here s + 1) (cells s)
                  else if (n =? 2) || (n =? 3) then erase 0 (w * h) (cells s) else cells s |>
  else if ends 75 then
    s <| cells := if n =? 0 then erase (here s) (line_end s) (cells s)
                  else if n =? 1 then erase (line_start s) (here s + 1) (cells s)
                  else if n =? 2 then erase (line_start s) (line_end s) (cells s) else cells s |>
  else if ends 65 then at_line (row s - step) s
  else if ends 66 then at_line (row s + step) s
  else if ends 67 then at_column (col s + step) s
  else if ends 68 then at_column (col s - step) s
  else if ends 69 then at_line (row s + step) (s <| col := 0 |>)
  else if ends 70 then at_line (row s - step) (s <| col := 0 |>)
  else if ends 71 then at_column (n - 1) s
  else if ends 72 || ends 102 then at_line (m - 1) (at_column (n - 1) s)
  else if ends 100 then at_line (n - 1) s
  else if ends 114 then s <| col := 0 |> <| row := 0 |>
  else if ends 80 then s <| cells := delete_cells (here s) count (line_end s) (cells s) |>
  else if ends 88 then s <| cells := erase (here s) (here s + count) (cells s) |>
  else s.

Definition plain (c : Z) (s : screen) : screen :=
  if c =? 9 then s <| col := (col s / 8 + 1) * 8 |>
  else if c =? 13 then s <| col := 0 |>
  else if (10 <=? c) && (c <=? 12) then s <| col := 0 |> <| row := row s + 1 |>
  else if c =? 27 then s <| pending := Escape |>
  else if existsb (Z.eqb c) [0; 7; 14; 15; 127] then s
  else s <| cells ::= <[Z.to_nat (here s) := ColoredChar c (fg s .| if bold s then bold_flag else 0) (bg s)]> |>
         <| col := col s + 1 |>.

(** A character. [None]: it is outside what the screen promises, a number too large or
    the mode in which characters are inserted. *)
Definition screen_char (c : Z) (s : screen) : option screen :=
  match pending s with
  | Idle =>
      Some (if c =? 8 then if col s >? 0 then s <| col := col s - 1 |> else s else settle (plain c s))
  | Escape => Some (s <| pending := if c =? 91 then Csi [] 0 false false else Idle |>)
  | Csi before cur given private =>
      if is_digit c then
        let cur := cur * 10 + (c - 48) in
        if cur <? max_number then Some (s <| pending := Csi before cur true private |>) else None
      else if is_letter c then
        let args := before ++ [cur] in
        if (c =? 104) && negb private && (nth 0 args 0 =? 4) then None
        else Some (control c args given s <| pending := Idle |>)
      else if c =? 59 then
        Some (s <| pending := if (length before <? 15)%nat then Csi (before ++ [cur]) 0 given private else Idle |>)
      else if c =? 63 then Some (s <| pending := Csi before cur given true |>)
      else Some (s <| pending := Idle |>)
  end.

Fixpoint screen_chars (cs : list Z) (s : screen) : option screen :=
  match cs with [] => Some s | c :: cs => match screen_char c s with Some s => screen_chars cs s | None => None end end.
End screen.

(** ** The terminal shows the screen *)

(** The state of the parser. *)
Definition reads (t : VirtualTerminal) (p : sequence) : Prop :=
  let fresh := csi_args t = replicate 16 0 /\ csi_arg_index t = 0 /\ csi_arg_count t = 0 /\ csi_question_mark t = false in
  match p with
  | Idle => csi_progress t = 0 /\ fresh
  | Escape => csi_progress t = 1 /\ fresh
  | Csi before cur given private =>
      csi_progress t = 2 /\ csi_args t = (before ++ [cur]) ++ replicate (15 - length before) 0 /\
      csi_arg_index t = Z.of_nat (length before) /\ (length before <= 15)%nat /\ (csi_arg_count t =? 0) = negb given /\
      csi_question_mark t = private /\ Forall (fun n => 0 <= n < max_number) (before ++ [cur])
  end.

Record mirrors (t : VirtualTerminal) (s : screen) : Prop := {
  mi_grid : grid_ok t;
  mi_insert : insert_mode t = false;
  mi_cells : buffer t = cells s;
  mi_cell : Forall is_cell (cells s);
  mi_cursor : cursor_x t = col s /\ cursor_y t = row s;
  mi_color : current_fg t = fg s /\ current_bg t = bg s /\ is_bold t = bold s;
  mi_reads : reads t (pending s)
}.
Definition shows (t : VirtualTerminal) (s : screen) : Prop :=
  mirrors t s /\ in_screen (width_chars t) (height_chars t) s.

Lemma mirrors_redrawn t t' s b : mirrors t s -> redrawn t t' b -> length b = length (buffer t) -> Forall is_cell b ->
  mirrors t' (s <| cells := b |>).
Proof.
  intros [Hg Hi Hc Hcc Hcur Hcol Hr] H Hl Hb. pose proof (redrawn_grid _ _ _ Hg H Hl).
  destruct H as (f & u & ox & oy & Hf & Hox & Hoy & ->). by split.
Qed.

Lemma redraw_shows t s x y : mirrors t s -> 0 <= x < width_chars t -> 0 <= y < height_chars t ->
  exists t', move_cursor x y t = Ret t' /\ shows t' (s <| col := x |> <| row := y |>) /\ width_chars t' = width_chars t /\ height_chars t' = height_chars t.
Proof.
  intros Hm Hx Hy. destruct (move_cursor_ok t x y (mi_grid _ _ Hm) Hx Hy) as (t' & -> & H). exists t'. split; [done|].
  assert (mirrors (set_cursor x y t) (s <| col := x |> <| row := y |>)) as Hm'.
  { destruct Hm. split; try done. by apply (grid_ok_cursor t x y (cursor_needs_undrawing t)). }
  pose proof (mirrors_redrawn _ _ _ _ Hm' H eq_refl) as Hs. destruct (redrawn_same _ _ _ H) as (Hw & Hh & _).
  split; [|done]. split.
  - replace (s <| col := x |> <| row := y |>) with (s <| col := x |> <| row := y |> <| cells := buffer t |>); [apply Hs|].
    + rewrite (mi_cells _ _ Hm). apply Hm.
    + rewrite (mi_cells _ _ Hm). by destruct s.
  - unfold in_screen. simpl. rewrite Hw, Hh. done.
Qed.

(** The size of a terminal is that of another. *)
Definition same_size (t t' : VirtualTerminal) : Prop := width_chars t' = width_chars t /\ height_chars t' = height_chars t.

Lemma mirrors_cells t s : mirrors t s -> length (buffer t) = length (cells s) /\ Z.of_nat (length (cells s)) = width_chars t * height_chars t.
Proof. intros Hm. rewrite <- (mi_cells _ _ Hm). split; [done|]. apply go_cells, Hm. Qed.

(** Cells changed by an operation, the cursor where it was. *)
Lemma cells_changed t s t' b : shows t s -> redrawn t t' b -> length b = length (buffer t) -> Forall is_cell b ->
  shows t' (s <| cells := b |>) /\ same_size t t'.
Proof.
  intros [Hm Hin] H Hl Hb. pose proof (mirrors_redrawn _ _ _ _ Hm H Hl Hb). destruct (redrawn_same _ _ _ H) as (Hw & Hh & _).
  split; [|done]. split; [done|]. unfold in_screen. rewrite Hw, Hh. exact Hin.
Qed.

Lemma cells_same (s : screen) b : b = cells s -> s <| cells := b |> = s.
Proof. intros ->. by destruct s. Qed.

Lemma redraw_cursor_shows t s : shows t s -> exists t', redraw_cursor t = Ret t' /\ shows t' s /\ same_size t t' /\ forall u, shows (t' <| cursor_needs_undrawing := u |>) s.
Proof.
  intros [Hm [Hx Hy]]. destruct (mi_cursor _ _ Hm) as [Hcx Hcy].
  destruct (redraw_cursor_ok t) as (t' & -> & H); [apply Hm|lia|lia|]. exists t'. split; [done|].
  assert (forall t2, redrawn t t2 (buffer t) -> shows t2 s /\ same_size t t2) as Hany.
  { intros t2 H2. rewrite <- (cells_same s (buffer t)) by apply Hm. apply cells_changed; [by split|done|done|].
    rewrite (mi_cells _ _ Hm). apply Hm. }
  destruct (Hany t' H). split; [done|]. split; [done|]. intros u. apply Hany.
  destruct H as (f & u' & ox & oy & Hf & Hox & Hoy & ->). by exists f, u, ox, oy.
Qed.

(** ** The end of a character *)

Lemma scroll_shows t s : mirrors t s -> row s = height_chars t -> 0 <= col s < width_chars t ->
  exists t', scroll t = Ret t' /\ same_size t t' /\
    shows (t' <| cursor_y ::= fun y => y - 1 |>) (s <| cells := scroll_up (width_chars t) (cells s) |> <| row := row s - 1 |>).
Proof.
  intros Hm Hr Hc. pose proof (mi_grid _ _ Hm) as Hg. destruct (go_width _ Hg) as [Hw _]. destruct (go_height _ Hg) as [Hh _].
  destruct (mirrors_cells _ _ Hm) as [Hl1 Hl2]. destruct (scroll_ok t Hg) as (t2 & -> & H2); [rewrite (mi_cells _ _ Hm); apply Hm|].
  rewrite (mi_cells _ _ Hm) in H2. destruct (redrawn_same _ _ _ H2) as (Hw2 & Hh2 & Hx2 & Hy2). exists t2. split; [done|]. split; [done|].
  assert (mirrors t2 (s <| cells := scroll_up (width_chars t) (cells s) |>)) as Hm2.
  { eapply mirrors_redrawn; [done|done| |apply scroll_up_cell, Hm]. rewrite length_scroll_up; [done|]. rewrite Hl2. nia. }
  split.
  - destruct Hm2 as [Hg2 ? ? ? [? ?] ? ?]. split; try done; [by destruct Hg2|]. simpl in *. split; congruence.
  - unfold in_screen. simpl. lia.
Qed.

Lemma wrap_ok t s : mirrors t s -> 0 <= col s -> 0 <= row s < height_chars t \/ (row s = height_chars t /\ col s < width_chars t) ->
  exists t', wrap_cursor t = Ret t' /\ shows t' (settle (width_chars t) (height_chars t) s) /\ same_size t t'.
Proof.
  intros Hm Hc Hr. destruct (mi_cursor _ _ Hm) as [Hcx Hcy]. pose proof (mi_grid _ _ Hm) as Hg.
  destruct (go_width _ Hg) as [Hw _]. destruct (go_height _ Hg) as [Hh _]. unfold wrap_cursor, settle. rewrite Hcx.
  set (t1 := if col s >=? width_chars t then _ else t). set (s1 := if col s >=? width_chars t then _ else s).
  assert (mirrors t1 s1 /\ same_size t t1 /\ 0 <= col s1 < width_chars t /\ 0 <= row s1 <= height_chars t) as (Hm1 & [Hw1 Hh1] & Hc1 & Hr1).
  { unfold t1, s1. destruct (Z.geb_spec (col s) (width_chars t)).
    - split; [|split; [done|simpl; lia]]. destruct Hm. split; try done; [by destruct mi_grid0|]. simpl. by rewrite Hcy.
    - split; [done|]. split; [done|]. lia. }
  clearbody t1 s1. destruct (mi_cursor _ _ Hm1) as [Hcx1 Hcy1]. rewrite Hcy1, Hh1.
  assert (exists t2, (if row s1 >=? height_chars t then let! t := scroll t1 in Ret (t <| cursor_y ::= fun y => y - 1 |>) else Ret t1) = Ret t2 /\
    shows t2 (if row s1 >=? height_chars t then s1 <| cells := scroll_up (width_chars t) (cells s1) |> <| row := row s1 - 1 |> else s1) /\ same_size t t2)
    as (t2 & -> & H2 & Hs2).
  { destruct (Z.geb_spec (row s1) (height_chars t)) as [Hlast|Hlast].
    - destruct (scroll_shows t1 s1 Hm1) as (t2 & -> & [Hw2 Hh2] & H2); [lia|lia|]. cbn [obind]. eexists. split; [done|].
      rewrite Hw1 in H2. split; [done|]. split; simpl; congruence.
    - exists t1. split; [done|]. split; [|done]. split; [done|]. unfold in_screen. lia. }
  cbn [obind]. destruct (redraw_cursor_shows _ _ H2) as (t3 & -> & _ & [Hw3 Hh3] & H3). cbn [obind].
  eexists. split; [done|]. split; [apply H3|]. destruct Hs2. split; simpl; congruence.
Qed.

Definition settles (t : VirtualTerminal) (s : screen) : Prop :=
  0 <= col s /\ (0 <= row s < height_chars t \/ (row s = height_chars t /\ col s < width_chars t)).

Lemma tab_stop x : 0 <= x < 65535 -> klib.align_up (x + 1) 8 = (x / 8 + 1) * 8.
Proof. intros Hx. destruct (klib.align_up_spec (x + 1) 8) as (? & ? & ?); lia. Qed.

Lemma grid_small t : grid_ok t -> 0 < width_chars t <= 65535 /\ 0 < height_chars t <= 65535.
Proof.
  intros Hg. destruct (go_font _ Hg). destruct (go_width _ Hg). destruct (go_height _ Hg).
  destruct (fo_width _ (go_fb _ Hg)) as [? _]. destruct (fo_height _ (go_fb _ Hg)). nia.
Qed.

Lemma mirrors_cursor t s x y u : mirrors t s ->
  mirrors (t <| cursor_x := x |> <| cursor_y := y |> <| cursor_needs_undrawing := u |>) (s <| col := x |> <| row := y |>).
Proof. intros []. split; try done. by destruct mi_grid0. Qed.

Lemma mirrors_at t s t' s' x y u : mirrors t s -> (cursor_x t = col s -> cursor_y t = row s ->
    t' = t <| cursor_x := x |> <| cursor_y := y |> <| cursor_needs_undrawing := u |> /\ s' = s <| col := x |> <| row := y |>) ->
  mirrors t' s'.
Proof. intros Hm He. destruct (mi_cursor _ _ Hm). destruct He as [-> ->]; [done..|]. by apply mirrors_cursor. Qed.
Ltac mirror x y u Hm :=
  apply (mirrors_at _ _ _ _ x y u Hm);
  let Hx := fresh in let Hy := fresh in intros Hx Hy; split;
  repeat match goal with t : VirtualTerminal |- _ => destruct t | s : screen |- _ => destruct s end;
  simpl in *; subst; done.

Lemma put_ok t s c : shows t s -> exists t', (let! t := set_char_at_cursor c t in Ret (t <| cursor_x ::= fun x => x + 1 |>)) = Ret t' /\
  same_size t t' /\
  mirrors t' (s <| cells ::= <[Z.to_nat (here (width_chars t) s) := ColoredChar c (fg s .| if bold s then bold_flag else 0) (bg s)]> |>
                <| col := col s + 1 |>).
Proof.
  intros [Hm [Hx Hy]]. destruct (mi_cursor _ _ Hm) as [Hcx Hcy]. destruct (mi_color _ _ Hm) as (Hfg & Hbg & Hbold).
  unfold set_char_at_cursor. rewrite Hcx, Hcy, Hfg, Hbg, Hbold.
  destruct (set_char_at_ok t (col s) (row s) c (fg s .| (if bold s then bold_flag else 0)) (bg s)) as (t1 & -> & H1); [apply Hm|done|done|].
  cbn [obind]. eexists. split; [done|]. destruct (redrawn_same _ _ _ H1) as (Hw1 & Hh1 & Hx1 & Hy1). split; [done|].
  unfold place in H1. fold (here (width_chars t) s) in H1. rewrite (mi_cells _ _ Hm) in H1.
  eapply mirrors_redrawn in H1; [|done|by rewrite length_insert, (mi_cells _ _ Hm)|].
  2:{ apply Forall_insert; [apply Hm|]. by eexists _, _, _. }
  destruct H1 as [Hg1 ? ? ? [? ?] ? ?]. split; try done; [by destruct Hg1|]. simpl in *. split; [congruence|done].
Qed.

Lemma plain_ok t s c : shows t s -> pending s = Idle ->
  exists t', plain_char c t = Ret t' /\ same_size t t' /\ mirrors t' (plain (width_chars t) c s) /\ settles t (plain (width_chars t) c s).
Proof.
  intros Hs Hp. destruct (Hs) as [Hm [Hx Hy]]. destruct (mi_cursor _ _ Hm) as [Hcx Hcy]. destruct (grid_small _ (mi_grid _ _ Hm)) as [Hw Hh].
  unfold plain_char, plain, settles. destruct (Z.eqb_spec c 9) as [->|H9].
  { eexists. split; [done|]. split; [done|]. simpl. split; [|lia]. rewrite Hcx, tab_stop by lia.
    mirror ((col s / 8 + 1) * 8) (row s) (cursor_needs_undrawing t) Hm. }
  destruct (Z.eqb_spec c 13) as [->|H13].
  { eexists. split; [done|]. split; [done|]. simpl. split; [|lia]. mirror 0 (row s) (cursor_needs_undrawing t) Hm. }
  replace ((c =? 11) || (c =? 12) || (c =? 10))%bool with ((10 <=? c) && (c <=? 12))%bool by lia.
  destruct ((10 <=? c) && (c <=? 12)) eqn:Hnl.
  { eexists. split; [done|]. split; [done|]. simpl. split; [|lia]. mirror 0 (row s + 1) true Hm. }
  destruct (Z.eqb_spec c 27) as [->|H27].
  { eexists. split; [done|]. split; [done|]. simpl. split; [|lia]. destruct Hm as [Hg ? ? ? ? ? Hr]. rewrite Hp in Hr.
    split; try done; [by destruct Hg|]. simpl. split; [done|]. apply Hr. }
  replace (existsb (Z.eqb c) [0; 7; 14; 15; 127]) with ((c =? 7) || (c =? 0) || (c =? 127) || (c =? 14) || (c =? 15))%bool by (simpl; lia).
  destruct ((c =? 7) || (c =? 0) || (c =? 127) || (c =? 14) || (c =? 15)) eqn:Hctl.
  { exists t. split; [done|]. split; [done|]. split; [done|]. lia. }
  rewrite (mi_insert _ _ Hm). cbn [obind]. destruct (put_ok t s c Hs) as (t' & -> & Hsz & H'). exists t'. split; [done|].
  split; [done|]. split; [done|]. simpl. lia.
Qed.

Lemma idle_ok t s c : shows t s -> pending s = Idle ->
  exists t', write_char c t = Ret t' /\ same_size t t' /\
    shows t' (if c =? 8 then if col s >? 0 then s <| col := col s - 1 |> else s
              else settle (width_chars t) (height_chars t) (plain (width_chars t) c s)).
Proof.
  intros Hs Hp. destruct (Hs) as [Hm [Hx Hy]]. pose proof (mi_reads _ _ Hm) as Hr. rewrite Hp in Hr. destruct Hr as [Hpr _].
  destruct (mi_cursor _ _ Hm) as [Hcx Hcy]. unfold write_char. rewrite Hpr. change (0 =? 1) with false. change (0 =? 2) with false. cbv iota.
  destruct (Z.eqb_spec c 8) as [->|H8].
  - rewrite Hcx. destruct (Z.gtb_spec (col s) 0) as [Hpos|Hz].
    + destruct (redraw_cursor_shows (t <| cursor_x ::= fun x => x - 1 |> <| cursor_needs_undrawing := true |>) (s <| col := col s - 1 |>))
        as (t' & -> & H' & Hsz & _).
      { split; [|unfold in_screen; simpl; lia]. mirror (col s - 1) (row s) true Hm. }
      exists t'. done.
    + eexists. split; [done|]. split; [done|]. split; [|done]. mirror (col s) (row s) false Hm.
  - destruct (plain_ok t s c Hs Hp) as (t1 & -> & [Hw1 Hh1] & Hm1 & Hc1 & Hr1). cbn [obind].
    destruct (wrap_ok t1 _ Hm1 Hc1) as (t2 & -> & H2 & [Hw2 Hh2]); [by rewrite Hw1, Hh1|].
    exists t2. rewrite Hw1, Hh1 in H2. split; [done|]. split; [split; congruence|done].
Qed.

(** ** Control sequences *)

Lemma reset_redrawn t t' b : redrawn t t' b -> redrawn (reset_control_sequence t) (reset_control_sequence t') b.
Proof. intros (f & u & ox & oy & Hf & Hx & Hy & ->). by exists f, u, ox, oy. Qed.
Lemma shows_reset t s : shows t s -> shows (reset_control_sequence t) (s <| pending := Idle |>).
Proof. intros [[Hg ? ? ? ? ? _] ?]. split; [|done]. split; try done. by destruct Hg. Qed.

(** The terminal after a sequence that changed cells, or moved the cursor. *)
Lemma cells_reset t s t' b : shows t s -> redrawn t t' b -> length b = length (buffer t) -> Forall is_cell b ->
  same_size t t' /\ shows (reset_control_sequence t') (s <| cells := b |> <| pending := Idle |>).
Proof.
  intros Hs H Hl Hb. destruct (redrawn_same _ _ _ H) as (Hw & Hh & _). split; [done|].
  destruct (cells_changed _ _ _ _ (shows_reset _ _ Hs) (reset_redrawn _ _ _ H) Hl Hb) as [H' _]. exact H'.
Qed.
Lemma move_reset t s x y : shows t s -> 0 <= x < width_chars t -> 0 <= y < height_chars t ->
  exists t', move_cursor x y t = Ret t' /\ same_size t t' /\
    shows (reset_control_sequence t') (s <| col := x |> <| row := y |> <| pending := Idle |>).
Proof.
  intros [Hm _] Hx Hy. destruct (redraw_shows t s x y Hm Hx Hy) as (t' & -> & H & Hw & Hh). exists t'.
  split; [done|]. split; [done|]. by apply shows_reset in H.
Qed.

(** The arguments, 0 where none was given. *)
Lemma arg_ok t before cur given private i : reads t (Csi before cur given private) -> 0 <= i < 16 ->
  csi_arg t i = Ret (nth (Z.to_nat i) (before ++ [cur]) 0) /\ 0 <= nth (Z.to_nat i) (before ++ [cur]) 0 < max_number.
Proof.
  intros (_ & Ha & _ & Hl & _ & _ & Hn) Hi. unfold csi_arg. rewrite Ha. rewrite nth_lookup.
  destruct ((before ++ [cur]) !! Z.to_nat i) as [n|] eqn:E.
  - rewrite (lookup_app_l_Some _ _ _ _ E). split; [done|]. simpl. by eapply Forall_lookup in Hn.
  - pose proof E as E'. apply lookup_ge_None in E. rewrite length_app in E. simpl in E. rewrite lookup_app_r by (rewrite length_app; simpl; lia).
    rewrite lookup_replicate_2 by (rewrite length_app; simpl; lia). split; [done|]. unfold max_number. simpl. lia.
Qed.

Lemma clamp_ok x hi : - 2147483648 <= x < 2147483648 -> 0 <= hi -> klib.clamp (i32 x) 0 hi = Z.max 0 (Z.min hi x).
Proof.
  intros Hx Hhi. assert (i32 x = x) as -> by word. unfold klib.clamp, klib.min, klib.max.
  destruct (Z.ltb_spec x 0).
  - destruct (Z.ltb_spec hi 0); lia.
  - destruct (Z.ltb_spec hi x); lia.
Qed.
Lemma max_ok n : klib.max n 1 = Z.max n 1.
Proof. unfold klib.max. case_if; lia. Qed.

(** Colours. *)
Lemma color_ok i : 0 <= i < 16 -> color_table !! Z.to_nat i = Some (nth (Z.to_nat i) color_table 0).
Proof.
  intros Hi. rewrite nth_lookup. destruct (color_table !! Z.to_nat i) eqn:E; [done|].
  apply lookup_ge_None in E. simpl in E. lia.
Qed.

Lemma select_ok t s n : shows t s ->
  exists t', select_graphic n t = Ret t' /\ same_size t t' /\ shows t' (graphic n s).
Proof.
  intros [Hm Hin]. destruct (mi_color _ _ Hm) as (Hfg & Hbg & Hbold). unfold select_graphic, graphic.
  rewrite !Z.geb_leb. replace (n + 8 - 90) with (n - 82) by lia. replace (n + 8 - 100) with (n - 92) by lia.
  repeat match goal with |- context [if ?b then _ else _] => destruct b eqn:? end; zbool;
    try rewrite color_ok by lia; cbn [deref obind]; (eexists; split; [done|]; split; [done|]; split; [|exact Hin]);
    destruct Hm as [Hg ? ? ? ? ? Hr]; split; try done; try (by destruct Hg); simpl; by rewrite ?Hfg, ?Hbg.
Qed.

Lemma graphic_pending n s : pending (graphic n s) = pending s.
Proof. unfold graphic. by repeat case_if. Qed.

Lemma select_all t s before cur given private : shows t s -> pending s = Csi before cur given private ->
  exists t', for_up (Z.to_nat (csi_arg_index t + 1)) 0 (fun i t => let! n := csi_arg t i in select_graphic n t) t = Ret t' /\
    same_size t t' /\ shows (reset_control_sequence t') (foldl (fun s n => graphic n s) s (before ++ [cur]) <| pending := Idle |>).
Proof.
  intros Hs Hp. pose proof (mi_reads _ _ (proj1 Hs)) as Hr. rewrite Hp in Hr. pose proof Hr as (_ & _ & Hi & Hl & _).
  set (args := before ++ [cur]). set (after k := foldl (fun s n => graphic n s) s (take k args)).
  assert (forall k, pending (after k) = pending s) as Hpend.
  { intros k. unfold after. generalize (take k args) s. intros l. induction l as [|n l IH]; intros s'; [done|]. simpl. by rewrite IH, graphic_pending. }
  destruct (for_up_inv (fun i t' => same_size t t' /\ shows t' (after (Z.to_nat i))) (Z.to_nat (csi_arg_index t + 1)) 0
    (fun i t => let! n := csi_arg t i in select_graphic n t) t) as (t' & E & [Hsz H']).
  - split; [done|]. done.
  - intros i t1 Hi1 [[Hw1 Hh1] H1]. pose proof (mi_reads _ _ (proj1 H1)) as Hr1. rewrite Hpend, Hp in Hr1.
    destruct (arg_ok _ _ _ _ _ i Hr1) as [-> _]; [lia|]. cbn [obind]. fold args.
    destruct (select_ok t1 _ (nth (Z.to_nat i) args 0) H1) as (t2 & -> & [Hw2 Hh2] & H2). exists t2. split; [done|].
    split; [split; congruence|]. unfold after in *. replace (Z.to_nat (i + 1)) with (S (Z.to_nat i)) by lia.
    destruct (lookup_lt_is_Some_2 args (Z.to_nat i)) as [n Hn]; [unfold args; rewrite length_app; simpl; lia|].
    rewrite (take_S_r _ _ _ Hn), foldl_app. simpl. by rewrite (nth_lookup_Some _ _ _ _ Hn) in H2.
  - exists t'. split; [done|]. split; [done|]. apply shows_reset in H'. unfold after in H'. rewrite take_ge in H'; [done|].
    unfold args. rewrite length_app. simpl. lia.
Qed.

(** Erasing. *)
Lemma erase_display_ok t s n : shows t s ->
  exists t', erase_display n t = Ret t' /\ same_size t t' /\
    shows (reset_control_sequence t') (s <| cells := if n =? 0 then erase (here (width_chars t) s) (width_chars t * height_chars t) (cells s)
      else if n =? 1 then erase 0 (here (width_chars t) s + 1) (cells s)
      else if (n =? 2) || (n =? 3) then erase 0 (width_chars t * height_chars t) (cells s) else cells s |> <| pending := Idle |>).
Proof.
  intros Hs. destruct (Hs) as [Hm [Hx Hy]]. destruct (mi_cursor _ _ Hm) as [Hcx Hcy]. unfold erase_display. rewrite Hcx, Hcy.
  pose proof (mi_grid _ _ Hm) as Hg. destruct (grid_small _ Hg) as [Hw Hh]. assert (0 <= here (width_chars t) s) by (unfold here; nia).
  assert (forall which lo hi, 0 <= lo -> (forall x y, 0 <= x < width_chars t -> 0 <= y < height_chars t ->
      which ((y + 1) * width_chars t + x) = (lo <=? y * width_chars t + x) && (y * width_chars t + x <? hi)) ->
    exists t', for_up (Z.to_nat (height_chars t)) 0 (fun y => for_up (Z.to_nat (width_chars t)) 0 (fun x t1 =>
      if which ((y + 1) * width_chars t + x) then set_blank x y t1 else Ret t1)) t = Ret t' /\ same_size t t' /\
      shows (reset_control_sequence t') (s <| cells := erase lo hi (cells s) |> <| pending := Idle |>)) as Hall.
  { intros which lo hi Hlo Hwhich. destruct (erase_cells t lo hi (fun x y => which ((y + 1) * width_chars t + x)) Hg Hlo Hwhich) as (t' & E & H').
    exists t'. split; [exact E|]. rewrite (mi_cells _ _ Hm) in H'. apply (cells_reset t s t'); [done|done| |apply erase_cell, Hm].
    by rewrite length_erase, (mi_cells _ _ Hm). }
  unfold here in *.
  destruct (n =? 0); [|destruct (n =? 1); [|destruct (_ || _)%bool]].
  - apply (Hall (fun i => i >=? (row s + 1) * width_chars t + col s)); [done|]. intros x y Hx' Hy'.
    rewrite Z.geb_leb. destruct (place_range t x y Hg Hx' Hy') as [Hp _]. lia.
  - apply (Hall (fun i => i <=? (row s + 1) * width_chars t + col s)); [done|]. intros x y Hx' Hy'.
    destruct (place_range t x y Hg Hx' Hy') as [Hp _]. lia.
  - apply (Hall (fun _ => true)); [done|]. intros x y Hx' Hy'. destruct (place_range t x y Hg Hx' Hy') as [Hp _]. lia.
  - exists t. split; [done|]. split; [done|]. rewrite cells_same by done. by apply shows_reset.
Qed.

Lemma erase_line_ok t s n : shows t s ->
  exists t', erase_line n t = Ret t' /\ same_size t t' /\
    shows (reset_control_sequence t') (s <| cells := if n =? 0 then erase (here (width_chars t) s) (line_end (width_chars t) s) (cells s)
      else if n =? 1 then erase (line_start (width_chars t) s) (here (width_chars t) s + 1) (cells s)
      else if n =? 2 then erase (line_start (width_chars t) s) (line_end (width_chars t) s) (cells s) else cells s |> <| pending := Idle |>).
Proof.
  intros Hs. destruct (Hs) as [Hm [Hx Hy]]. destruct (mi_cursor _ _ Hm) as [Hcx Hcy]. unfold erase_line, here, line_start, line_end.
  pose proof (mi_grid _ _ Hm) as Hg. rewrite Hcy.
  assert (forall op lo hi, (exists t', op = Ret t' /\ redrawn t t' (erase lo hi (buffer t))) ->
    exists t', op = Ret t' /\ same_size t t' /\ shows (reset_control_sequence t') (s <| cells := erase lo hi (cells s) |> <| pending := Idle |>)) as Hall.
  { intros op lo hi (t' & -> & H'). exists t'. split; [done|]. rewrite (mi_cells _ _ Hm) in H'. apply (cells_reset t s t'); [done|done| |apply erase_cell, Hm].
    by rewrite length_erase, (mi_cells _ _ Hm). }
  destruct (n =? 0); [|destruct (n =? 1); [|destruct (n =? 2)]].
  - apply Hall. rewrite Hcx. destruct (erase_row_up t t (buffer t) (col s) (row s) (Z.to_nat (width_chars t - col s)) Hg) as (t' & -> & H');
      [by apply redrawn_refl|done|lia|lia|done|]. exists t'. split; [done|].
    by replace (row s * width_chars t + col s + Z.of_nat (Z.to_nat (width_chars t - col s))) with (row s * width_chars t + width_chars t) in H' by lia.
  - apply Hall. destruct (erase_row_down t (row s) Hg) as (t' & -> & H'); [lia|done|]. exists t'. split; [done|]. by rewrite Hcx in H'.
  - apply Hall. destruct (erase_row_up t t (buffer t) 0 (row s) (Z.to_nat (width_chars t)) Hg) as (t' & -> & H');
      [by apply redrawn_refl|done|lia|lia|done|]. exists t'. split; [done|]. rewrite Z.add_0_r in H'.
    by replace (Z.of_nat (Z.to_nat (width_chars t))) with (width_chars t) in H' by lia.
  - exists t. split; [done|]. split; [done|]. rewrite cells_same by done. by apply shows_reset.
Qed.

(** The terminal with 1 for a missing count. *)
Definition counted (t : VirtualTerminal) : VirtualTerminal :=
  if csi_arg_count t =? 0 then t <| csi_args ::= <[0%nat := 1]> |> else t.

Lemma counted_shows t s t' b : shows t s -> redrawn (counted t) t' b -> length b = length (buffer t) -> Forall is_cell b ->
  same_size t t' /\ shows (reset_control_sequence t') (s <| cells := b |> <| pending := Idle |>).
Proof.
  intros Hs H Hl Hb.
  assert (same_size t (counted t) /\ reset_control_sequence (counted t) = reset_control_sequence t) as [[Hw Hh] Hr]
    by (unfold counted; by case_if).
  destruct (redrawn_same _ _ _ H) as (Hw' & Hh' & _). split; [split; congruence|].
  apply reset_redrawn in H. rewrite Hr in H. destruct (cells_changed _ _ _ _ (shows_reset _ _ Hs) H Hl Hb) as [H' _]. exact H'.
Qed.

Lemma erase_chars_ok t s before cur given private : shows t s -> pending s = Csi before cur given private ->
  let count := Z.min (if given then nth 0 (before ++ [cur]) 0 else 1) (width_chars t - col s) in
  exists t', erase_chars t = Ret (col s + count, t') /\ 0 <= count /\ col s + count <= width_chars t /\
    grid_ok (counted t) /\ width_chars (counted t) = width_chars t /\ height_chars (counted t) = height_chars t /\ buffer (counted t) = cells s /\
    cursor_x t' = col s /\ cursor_y t' = row s /\ width_chars t' = width_chars t /\
    redrawn (counted t) t' (erase (here (width_chars t) s) (here (width_chars t) s + count) (cells s)).
Proof.
  intros Hs Hp count. destruct (Hs) as [Hm [Hx Hy]]. destruct (mi_cursor _ _ Hm) as [Hcx Hcy]. pose proof (mi_grid _ _ Hm) as Hg.
  destruct (grid_small _ Hg) as [Hw Hh]. pose proof (mi_reads _ _ Hm) as Hr. rewrite Hp in Hr.
  destruct (arg_ok _ _ _ _ _ 0 Hr ltac:(lia)) as [Ha Hn]. change (Z.to_nat 0) with 0%nat in *. set (n := nth 0 (before ++ [cur]) 0) in *.
  assert (grid_ok (counted t) /\ width_chars (counted t) = width_chars t /\ height_chars (counted t) = height_chars t /\
    buffer (counted t) = cells s /\ cursor_x (counted t) = col s /\ cursor_y (counted t) = row s /\
    csi_arg (counted t) 0 = Ret (if given then n else 1)) as (Hg0 & Hw0 & Hh0 & Hb0 & Hx0 & Hy0 & Ha0).
  { destruct Hr as (_ & Hargs & _ & _ & Hgiven & _). unfold counted. rewrite Hgiven. destruct given; simpl.
    - split; [exact Hg|]. split; [done|]. split; [done|]. split; [apply Hm|]. done.
    - split; [by destruct Hg|]. split; [done|]. split; [done|]. split; [apply Hm|]. split; [done|]. split; [done|].
      unfold csi_arg. simpl. rewrite Hargs. by destruct before. }
  unfold erase_chars. fold (counted t). rewrite Ha0, Hx0, Hy0, Hw0. cbn [obind].
  rewrite clamp_ok by (destruct given; unfold max_number in *; lia).
  replace (Z.max 0 (Z.min (width_chars t) (col s + (if given then n else 1)))) with (col s + count) by (unfold count; destruct given; lia).
  assert (0 <= count <= width_chars t - col s) as Hcount by (unfold count; destruct given; lia). clearbody count.
  destruct (erase_row_up (counted t) (counted t) (buffer (counted t)) (col s) (row s) (Z.to_nat (col s + count - col s)) Hg0) as (t' & -> & H');
    [by apply redrawn_refl|done|lia|lia|lia|]. cbn [obind]. exists t'. destruct (redrawn_same _ _ _ H') as (? & ? & ? & ?).
  repeat (split; [done || lia|]).
  rewrite Hw0, Hb0 in H'. unfold here. by replace (row s * width_chars t + col s + Z.of_nat (Z.to_nat (col s + count - col s))) with (row s * width_chars t + col s + count) in H' by lia.
Qed.

Lemma delete_chars_ok t s before cur given private : shows t s -> pending s = Csi before cur given private ->
  exists t', (let! (last, t) := erase_chars t in
    for_up (Z.to_nat (width_chars t - last)) 0 (fun i => move_char (last + i) (cursor_y t) (cursor_x t + i) (cursor_y t)) t) = Ret t' /\
    same_size t t' /\
    shows (reset_control_sequence t') (s <| cells := delete_cells (here (width_chars t) s)
      (Z.min (if given then nth 0 (before ++ [cur]) 0 else 1) (width_chars t - col s)) (line_end (width_chars t) s) (cells s) |> <| pending := Idle |>).
Proof.
  intros Hs Hp. destruct (Hs) as [Hm [Hx Hy]].
  destruct (erase_chars_ok t s _ _ _ _ Hs Hp) as (t1 & -> & Hc0 & Hcw & Hg0 & Hw0 & Hh0 & Hb0 & Hx1 & Hy1 & Hw1 & H1'). cbn [obind]. rewrite Hx1, Hy1, Hw1. set (count := Z.min _ _) in *.
  destruct (moves_delete (counted t) t1 _ (col s) (row s) (col s + count) Hg0 H1') as (t2 & E & H2'); try done; try lia.
  { by rewrite length_erase, Hb0. } { apply erase_cell, Hm. }
  rewrite Hw0 in E, H2'. exists t2. split; [exact E|]. unfold line_end, here in *.
  replace (col s + count - col s) with count in H2' by lia.
  replace (width_chars t - (col s + count)) with (row s * width_chars t + width_chars t - (row s * width_chars t + col s + count)) in H2' by lia.
  rewrite deleting_end in H2' by lia. eapply counted_shows; [done|done| |apply delete_cells_cell, Hm].
  unfold delete_cells. by rewrite length_imap, (mi_cells _ _ Hm).
Qed.

(** Letters. *)
Lemma control_ok t s code before cur given private : shows t s -> pending s = Csi before cur given private ->
  (code =? 104) && negb private && (nth 0 (before ++ [cur]) 0 =? 4) = false ->
  exists t', apply_control_sequence code t = Ret t' /\ same_size t t' /\
    shows (reset_control_sequence t') (control (width_chars t) (height_chars t) code (before ++ [cur]) given s <| pending := Idle |>).
Proof.
  intros Hs Hp Hins. destruct (Hs) as [Hm [Hx Hy]]. destruct (mi_cursor _ _ Hm) as [Hcx Hcy]. pose proof (mi_grid _ _ Hm) as Hg.
  destruct (grid_small _ Hg) as [Hw Hh]. pose proof (mi_reads _ _ Hm) as Hr. rewrite Hp in Hr.
  destruct (arg_ok _ _ _ _ _ 0 Hr ltac:(lia)) as [Ha Hn]. destruct (arg_ok _ _ _ _ _ 1 Hr ltac:(lia)) as [Ha1 Hn1].
  change (Z.to_nat 0) with 0%nat in *. change (Z.to_nat 1) with 1%nat in *.
  unfold apply_control_sequence, control. rewrite Ha, Ha1. cbn [obind]. rewrite max_ok, Hcx, Hcy.
  assert (csi_question_mark t = private) as -> by apply Hr. unfold max_number in *.
  set (n := nth 0 (before ++ [cur]) 0) in *. set (m := nth 1 (before ++ [cur]) 0) in *.
  destruct (code =? 109); [by apply (select_all _ _ _ _ given private)|]. destruct (code =? 74); [by apply erase_display_ok|].
  destruct (code =? 75); [by apply erase_line_ok|].
  assert (forall t', t' = t -> shows (reset_control_sequence t') (s <| pending := Idle |>)) as Hsame by (intros ? ->; by apply shows_reset).
  destruct (private && (code =? 104)) eqn:H1.
  { exists t. split; [done|]. split; [done|]. zbool. subst code. by apply Hsame. }
  destruct (private && (code =? 108)) eqn:H2.
  { exists t. split; [done|]. split; [done|]. zbool. subst code. by apply Hsame. }
  rewrite !clamp_ok by lia.
  repeat match goal with
  | |- exists t', (if ?b then _ else _) = _ /\ _ => destruct b eqn:?
  | |- exists t', move_cursor ?x ?y t = _ /\ _ => apply (move_reset t s x y); [exact Hs|lia|lia]
  end.
  - by apply (delete_chars_ok _ _ _ _ _ _ Hs Hp).
  - destruct (erase_chars_ok t s _ _ _ _ Hs Hp) as (t1 & -> & _ & _ & _ & _ & _ & _ & _ & _ & _ & H1'). cbn [obind]. exists t1. split; [done|].
    eapply counted_shows; [done|done| |apply erase_cell, Hm]. by rewrite length_erase, (mi_cells _ _ Hm).
  - eexists. split; [done|]. destruct (n =? 4); [|split; [done|by apply Hsame]].
    assert ((code =? 104) = false) as -> by (revert Hins H1; by destruct private, (code =? 104)). split; [done|].
    replace (t <| insert_mode := false |>) with t by (rewrite <- (mi_insert _ _ Hm); by destruct t). by apply Hsame.
  - exists t. split; [done|]. split; [done|]. by apply Hsame.
Qed.

(** ** Parsing *)

(** A terminal whose parser alone changed. *)
Lemma shows_parser t s t' p : shows t s -> reset_control_sequence t' = reset_control_sequence t -> reads t' p ->
  shows t' (s <| pending := p |>) /\ same_size t t'.
Proof.
  intros [Hm Hin] Hr Hp.
  assert (framebuffer t' = framebuffer t /\ width_chars t' = width_chars t /\ height_chars t' = height_chars t) as (_ & Hw & Hh)
    by (injection Hr; done).
  split; [|done]. split; [|unfold in_screen; simpl; rewrite Hw, Hh; exact Hin].
  destruct (shows_reset t s (conj Hm Hin)) as [[Hg Hi Hc Hcc Hcur Hcol _] _]. rewrite <- Hr in *.
  split; try done. by destruct Hg.
Qed.

Lemma insert_last {A} (l : list A) x y rest : <[length l := y]> ((l ++ [x]) ++ rest) = (l ++ [y]) ++ rest.
Proof. rewrite <- !app_assoc. rewrite insert_app_r_alt by done. by rewrite Nat.sub_diag. Qed.

Lemma csi_ok t s c s' : shows t s -> screen_char (width_chars t) (height_chars t) c s = Some s' ->
  (exists before cur given private, pending s = Csi before cur given private) ->
  exists t', csi_char c t = Ret t' /\ same_size t t' /\ shows t' s'.
Proof.
  intros Hs Hstep (before & cur & given & private & Hp). pose proof (mi_reads _ _ (proj1 Hs)) as Hr. rewrite Hp in Hr.
  unfold screen_char in Hstep. rewrite Hp in Hstep. unfold csi_char.
  destruct (Hr) as (Hpr & Ha & Hi & Hl & Hg & Hq & Hn). rewrite Hi.
  assert (forall t', (exists p, s' = s <| pending := p |> /\ reads t' p) -> reset_control_sequence t' = reset_control_sequence t ->
    exists t'', Ret t' = Ret t'' /\ same_size t t'' /\ shows t'' s') as Hpars.
  { intros t' (p & -> & Hp') Ht. exists t'. split; [done|]. apply and_comm. by apply shows_parser. }
  destruct (is_digit c) eqn:Hd.
  { destruct (cur * 10 + (c - 48) <? max_number) eqn:Hlt; [|done]. injection Hstep as <-. destruct (arg_ok _ _ _ _ _ (Z.of_nat (length before)) Hr) as [-> Hcur]; [lia|].
    rewrite Nat2Z.id in *. rewrite (nth_lookup_Some (before ++ [cur]) (length before) 0 cur) in *
      by (rewrite lookup_app_r, Nat.sub_diag by lia; done).
    cbn [obind]. apply Hpars; [|done]. eexists. split; [done|]. unfold is_digit, max_number in *. zbool.
    assert (i32 (cur * 10 + (c - 48)) = cur * 10 + (c - 48)) as -> by word.
    split; [done|]. split; [simpl; by rewrite Ha, insert_last|]. split; [done|]. split; [done|]. split; [simpl; lia|]. split; [done|].
    apply Forall_app in Hn as [Hn _]. apply Forall_app_2; [done|]. constructor; [|done]. unfold max_number. lia. }
  destruct (is_letter c) eqn:Hlet.
  { destruct ((c =? 104) && negb private && (nth 0 (before ++ [cur]) 0 =? 4)) eqn:Hins; [done|]. injection Hstep as <-.
    destruct (control_ok t s c before cur given private Hs Hp Hins) as (t' & -> & Hsz & H'). cbn [obind]. by eexists. }
  destruct (c =? 59).
  { injection Hstep as <-. simpl csi_arg_index. rewrite Hi. unfold max_csi_args. destruct (Nat.ltb_spec (length before) 15) as [Hlt|Hge].
    - replace (_ >=? 16) with false by lia.
      destruct (arg_ok t before cur given private (Z.of_nat (length before) + 1) Hr ltac:(lia)) as [Hc _]. unfold csi_arg in *. simpl. rewrite Hi, Hc.
      cbn [obind]. apply Hpars; [|done]. eexists. split; [done|]. split; [done|]. split; [|split; [|split; [|split; [done|split; [done|]]]]]; simpl.
      + rewrite Ha. replace (Z.to_nat (Z.of_nat (length before) + 1)) with (length (before ++ [cur])) by (rewrite length_app; simpl; lia).
        replace (15 - length before)%nat with (S (15 - length (before ++ [cur]))) by (rewrite length_app; simpl; lia).
        cbn [replicate]. rewrite (cons_middle 0), (app_assoc _ [0]). apply insert_last.
      + rewrite length_app. simpl. lia.
      + rewrite length_app. simpl. lia.
      + apply Forall_app_2; [done|]. by constructor.
    - replace (_ >=? 16) with true by lia. unfold csi_arg. simpl. apply Hpars; [|done]. by exists Idle. }
  destruct (c =? 63).
  { injection Hstep as <-. apply Hpars; [|done]. eexists. split; [done|]. done. }
  injection Hstep as <-. apply Hpars; [|done]. by exists Idle.
Qed.

Lemma char_ok t s c s' : shows t s -> screen_char (width_chars t) (height_chars t) c s = Some s' ->
  exists t', write_char c t = Ret t' /\ same_size t t' /\ shows t' s'.
Proof.
  intros Hs Hstep. pose proof (mi_reads _ _ (proj1 Hs)) as Hr. destruct (pending s) as [| |before cur given private] eqn:Hp.
  - unfold screen_char in Hstep. rewrite Hp in Hstep. injection Hstep as <-. by apply idle_ok.
  - unfold screen_char in Hstep. rewrite Hp in Hstep. injection Hstep as <-. unfold write_char. destruct Hr as [-> Hfresh]. simpl.
    eexists. split; [done|]. apply and_comm. apply shows_parser; [done| |].
    + by destruct (c =? 91).
    + destruct (c =? 91); [|done]. destruct Hfresh as (Ha & Hi & Hc & Hq). split; [done|].
      split; [exact Ha|]. split; [exact Hi|]. split; [simpl; lia|]. split; [simpl; by rewrite Hc|]. split; [exact Hq|]. by constructor.
  - destruct Hr as [Hpr _]. unfold write_char. rewrite Hpr. change (2 =? 1) with false. change (2 =? 2) with true. cbv iota.
    apply (csi_ok t s); [done|done|]. by eexists _, _, _, _.
Qed.

Lemma chars_ok cs : forall t s s', shows t s -> screen_chars (width_chars t) (height_chars t) cs s = Some s' ->
  exists t', write_chars cs t = Ret t' /\ same_size t t' /\ shows t' s'.
Proof.
  induction cs as [|c cs IH]; intros t s s' Hs Hrun; simpl in *; [by injection Hrun as <-; exists t|].
  destruct (screen_char _ _ c s) as [s1|] eqn:Hstep; [|done].
  destruct (char_ok t s c s1 Hs Hstep) as (t1 & -> & [Hw Hh] & H1). cbn [obind].
  destruct (IH t1 s1 s' H1) as (t2 & -> & [Hw2 Hh2] & H2); [by rewrite Hw, Hh|]. exists t2. split; [done|]. split; [split; congruence|done].
Qed.

(** ** The first screen *)

Definition empty_screen (w h : Z) : screen :=
  mkScreen (replicate (Z.to_nat (w * h)) blank) 0 0 default_fg_color default_bg_color false Idle.

Lemma redraw_cursor_fresh t : cursor_needs_undrawing t = false ->
  redraw_cursor t = redraw_cursor (t <| old_cursor_x := 0 |> <| old_cursor_y := 0 |>).
Proof. intros Hn. destruct t. simpl in Hn. subst. unfold redraw_cursor, draw_bar. cbn -[fill_rect]. by destruct (fill_rect _ _ _ _ _ _). Qed.

(** Drawing the cells again changes none. *)
Lemma redraw_cells t s : shows t s ->
  exists t', for_up (Z.to_nat (height_chars t)) 0 (fun y => for_up (Z.to_nat (width_chars t)) 0 (fun x => copy_char x y x y)) t = Ret t' /\
    shows t' s /\ same_size t t'.
Proof.
  intros Hs. destruct (Hs) as [Hm _]. pose proof (mi_grid _ _ Hm) as Hg.
  destruct (for_up_inv (fun _ t' => redrawn t t' (buffer t)) (Z.to_nat (height_chars t)) 0
    (fun y => for_up (Z.to_nat (width_chars t)) 0 (fun x => copy_char x y x y)) t) as (t' & -> & H').
  - by apply redrawn_refl.
  - intros y t1 Hy H1. apply (for_up_inv (fun _ t' => redrawn t t' (buffer t))); [done|]. intros x t2 Hx H2.
    destruct (place_range t x y) as (_ & _ & Hl); [done|lia|lia|]. destruct (lookup_lt_is_Some_2 _ _ Hl) as [e He].
    destruct (copy_step t t2 _ x y x y e Hg H2) as (t3 & E & H3); try done; try lia.
    { rewrite (mi_cells _ _ Hm). apply Hm. }
    exists t3. split; [done|]. by rewrite list_insert_id in H3.
  - exists t'. split; [done|]. rewrite (mi_cells _ _ Hm) in H'.
    destruct (cells_changed t s t' (cells s) Hs H') as [H Hsz]; [by rewrite (mi_cells _ _ Hm)|apply Hm|].
    by rewrite cells_same in H.
Qed.

Lemma init_shows fb fw fh regular bold ox oy : fb_ok fb -> font_ok fw fh regular -> font_ok fw fh bold ->
  0 < fw <= fb_width fb -> 0 < fh <= fb_height fb ->
  exists t, VirtualTerminal_init fb regular bold ox oy = Ret t /\ width_chars t = fb_width fb / fw /\ height_chars t = fb_height fb / fh /\
    shows t (empty_screen (fb_width fb / fw) (fb_height fb / fh)).
Proof.
  intros Hfb Hreg Hbold Hw Hh. destruct (fn_size _ _ _ Hreg) as [Hfw Hfh]. destruct (fo_width _ Hfb) as [Hwid _]. pose proof (fo_height _ Hfb) as Hhei.
  unfold VirtualTerminal_init, redraw. rewrite Hfw, Hfh. assert (i32 (fb_width fb) = fb_width fb) as -> by word. assert (i32 (fb_height fb) = fb_height fb) as -> by word.
  set (w := fb_width fb / fw). set (h := fb_height fb / fh).
  assert (0 < w /\ w * fw <= fb_width fb /\ 0 < h /\ h * fh <= fb_height fb) as (Hw0 & Hwf & Hh0 & Hhf).
  { unfold w, h. pose proof (Z.mul_div_le (fb_width fb) fw ltac:(lia)). pose proof (Z.mul_div_le (fb_height fb) fh ltac:(lia)).
    pose proof (Z.div_str_pos (fb_width fb) fw ltac:(lia)). pose proof (Z.div_str_pos (fb_height fb) fh ltac:(lia)). lia. }
  simpl pixel_x. simpl pixel_y. simpl pixel_width. simpl pixel_height. simpl current_bg. simpl framebuffer.
  destruct (fill_rect_ok 0 0 (fb_width fb) (fb_height fb) default_bg_color fb Hfb) as (fb1 & -> & Hfb1); [word|word|]. cbn [obind].
  rewrite redraw_cursor_fresh by done. simpl.
  set (t0 := mkTerm fb1 _ _ _ _ _ _ _ _ _ _ _ _ _ _ _ _ _ _ _ _ _ _ _ _ _).
  assert (shows t0 (empty_screen w h)) as H0.
  { pose proof Hfb1 as (Hw1 & Hh1 & _). split; [split; try done|done].
    - split; simpl; rewrite ?Hw1, ?Hh1; try done; try lia; [by apply (fb_ok_same fb)|]. rewrite length_replicate. nia.
    - by apply Forall_replicate. }
  destruct (redraw_cursor_shows t0 _ H0) as (t1 & -> & H1 & [Hw1 Hh1] & _). cbn [obind].
  destruct (redraw_cells t1 _ H1) as (t2 & -> & H2 & [Hw2 Hh2]). exists t2. split; [done|]. rewrite Hw2, Hw1, Hh2, Hh1. done.
Qed.


(** A screen of four columns and two lines, with a font of two by two. *)
Definition small_font : Font := mkFont [1; 2] 2 2 1 2.
Definition small_fb : Framebuffer := mkFramebuffer (replicate 128 0) 8 4 32 4.
Definition run (cs : list Z) : outcome VirtualTerminal :=
  let! t := VirtualTerminal_init small_fb small_font small_font 0 0 in write_chars cs t.

(** "abcde", the first line scrolled away, the cursor to the left, the rest erased. *)
Definition sample_text : list Z := [97; 98; 99; 100; 101; 10; 102; 103; 27; 91; 50; 68; 104; 27; 91; 75].


(** ** Where the terminal departs from what it means to do *)

(** The sequence that puts the cursor at a line and column takes them in the wrong order. *)
Lemma cursor_position_swapped :
  exists t, run [27; 91; 50; 59; 49; 72] = Ret t /\ cursor_x t = 1 /\ cursor_y t = 0.
Proof. eexists. split; [vm_compute; reflexivity|done]. Qed.

(** In insert mode a character on the last line is moved past the end of the buffer. *)
Lemma insert_overruns : run [27; 91; 52; 104; 10; 97] = Undef.
Proof. by vm_compute. Qed.
(** So it is when the count of a deletion wraps to a negative number. *)
Lemma delete_overruns : run ([10; 97; 27; 91] ++ [52; 50; 57; 52; 57; 54; 55; 50; 57; 53] ++ [80]) = Undef.
Proof. by vm_compute. Qed.
(** A count that overflows moves the cursor to the other end. *)
Lemma move_overflows : exists t, run ([10; 27; 91] ++ [50; 49; 52; 55; 52; 56; 51; 54; 52; 55] ++ [66]) = Ret t /\ cursor_y t = 0.
Proof. eexists. split; [vm_compute; reflexivity|done]. Qed.
(** Deleting zero characters blanks the rest of the line. *)
Lemma delete_zero_blanks : exists t, run [97; 98; 99; 13; 27; 91; 48; 80] = Ret t /\ map cc_c (take 4 (buffer t)) = [32; 32; 32; 32].
Proof. eexists. split; [vm_compute; reflexivity|done]. Qed.

(** A character above 127 loses its colours, which are those of the sign extension. *)
Lemma high_character_colors c fg bg : 128 <= c < 256 ->
  cc_fg (ColoredChar c fg bg) = 33554431 /\ cc_bg (ColoredChar c fg bg) = 16777215.
Proof.
  intros Hc. assert (Z.testbit c 7 = true) as Hb.
  { destruct (decide (Z.testbit c 7 = true)) as [|Hn]; [done|]. apply not_true_is_false in Hn.
    apply Z.testbit_false in Hn; [|lia]. change (2 ^ 7) with 128 in Hn. lia. }
  unfold cc_fg, cc_bg. change 33554431 with (Z.ones 25). change 16777215 with (Z.ones 24).
  split; apply Z.bits_inj'; intros n Hn; rewrite Z.land_spec, Z.shiftr_spec, cell_bits, Hb, !Z.testbit_ones by lia.
  - replace (n + 8 <? 8) with false by lia. destruct (Z.ltb_spec n 25).
    + replace (n + 8 <? 64) with true by lia. simpl. by replace (0 <=? n) with true by lia.
    + by rewrite !andb_false_r.
  - replace (n + 40 <? 8) with false by lia. destruct (Z.ltb_spec n 24).
    + replace (n + 40 <? 64) with true by lia. simpl. by replace (0 <=? n) with true by lia.
    + by rewrite !andb_false_r.
Qed.

(** [put_pixel] takes the line after the last for one of the framebuffer. *)
Lemma put_pixel_overruns : put_pixel 0 4 0 small_fb = Undef.
Proof. by vm_compute. Qed.
(** A write of so much that its end wraps is not cut at the end of the framebuffer. *)
Lemma fb_write_wraps fb buf offset : 0 < offset < fb_size fb -> Z.of_nat (length buf) < 18446744073709551615 ->
  fb_write buf 18446744073709551615 offset fb = Undef.
Proof.
  intros Ho Hb. unfold fb_write, fb_count. replace (offset >=? fb_size fb) with false by lia.
  assert (fb_size fb < 4294967296) by (unfold fb_size; word).
  replace (u64 (offset + 18446744073709551615) >? fb_size fb) with false by word.
  by replace (18446744073709551615 <=? Z.of_nat (length buf)) with false by lia.
Qed.
