(* ===== verification/Input.v ===== *)
(** * Input devices: dev/input/input, dev/input/evdev, dev/input/ps2

    A device queues the events of one report and hands them, with a report marker,
    to the ring buffer of each of its listeners; the listeners are the open event
    nodes, the console and the debug keys. The numbers of keys, events and requests are
    those of Linux's input headers. *)

From S2P Require Import Prelude Algorithm CString RingBuffer Links Sched Objects Printf Tty.

Module input.

(** ** Data *)

Record InputEvent := mkInputEvent { time : Z * Z; type : Z; code : Z; value : Z }.

(** What the callbacks of listeners work on: the kernel, the readings of the clock
    still to come, the console's buffer and terminal, whether the kernel draws a
    terminal, and how often the debug keys have printed the threads. *)
Record world := mkWorld {
  w_krn : kernel;
  w_clock : nat -> Z * Z;
  w_console : RingBuffer Z;
  w_terminal : tty.Terminal;
  w_drawn : bool;
  w_threads_printed : Z
}.
#[export] Instance eta_world : Settable world := fun w =>
  mkWorld (w_krn w) (w_clock w) (w_console w) (w_terminal w) (w_drawn w) (w_threads_printed w).

(** [get_clock(CLOCK_REALTIME).to_timeval()]. *)
Definition get_time (w : world) : (Z * Z) * world :=
  (w_clock w 0%nat, w <| w_clock ::= fun c n => c (S n) |>).

(** A callback is called with [priv], through which it finds its listener's buffer
    and the keyboard: the keys down and the caps lock. *)
Definition callback_t : Type :=
  Bitmap.t -> bool -> RingBuffer InputEvent -> world -> outcome (RingBuffer InputEvent * world).

Record InputListener := mkListener { callback : option callback_t; event_buffer : RingBuffer InputEvent }.
#[export] Instance eta_InputListener : Settable InputListener := fun l =>
  mkListener (callback l) (event_buffer l).

(** [listeners] are the listeners at their addresses and [listeners_list] the list that
    links them; [event] the event of [sched]; the strings are C strings and [id] the bytes of
    the [input_id]. [caps_lock] is the member of [KeyboardDevice]. *)
Record InputDevice := mkDevice {
  name : mem; phys : mem; uniq : mem;
  id : list Z;
  event : Z;
  listeners : gmap Z InputListener;
  listeners_list : list Z;
  dev_buffer : RingBuffer InputEvent;
  prop_bitmap : Bitmap.t;
  ev_bitmap : Bitmap.t; key_bitmap : Bitmap.t; rel_bitmap : Bitmap.t; abs_bitmap : Bitmap.t;
  msc_bitmap : Bitmap.t; led_bitmap : Bitmap.t; snd_bitmap : Bitmap.t; ff_bitmap : Bitmap.t;
  sw_bitmap : Bitmap.t;
  key_status : Bitmap.t; led_status : Bitmap.t; snd_status : Bitmap.t; sw_status : Bitmap.t;
  caps_lock : bool
}.
#[export] Instance eta_InputDevice : Settable InputDevice := fun d =>
  mkDevice (name d) (phys d) (uniq d) (id d) (event d) (listeners d) (listeners_list d) (dev_buffer d)
    (prop_bitmap d) (ev_bitmap d) (key_bitmap d) (rel_bitmap d) (abs_bitmap d) (msc_bitmap d)
    (led_bitmap d) (snd_bitmap d) (ff_bitmap d) (sw_bitmap d) (key_status d) (led_status d)
    (snd_status d) (sw_status d) (caps_lock d).

Definition EV_SYN := 0.
Definition EV_KEY := 1.
Definition EV_REL := 2.
Definition EV_ABS := 3.
Definition EV_MSC := 4.
Definition EV_SW := 5.
Definition EV_LED := 17.
Definition EV_SND := 18.
Definition EV_FF := 21.
Definition EV_MAX := 31.
Definition SYN_REPORT := 0.
Definition SYN_DROPPED := 3.
Definition KEY_CNT := 768.
Definition KEY_LEFTCTRL := 29.
Definition KEY_LEFTSHIFT := 42.
Definition KEY_RIGHTSHIFT := 54.
Definition KEY_LEFTALT := 56.
Definition KEY_RIGHTCTRL := 97.
Definition KEY_RIGHTALT := 100.
Definition KEY_DELETE := 111.
Definition BTN_LEFT := 272.
Definition BTN_RIGHT := 273.
Definition BTN_MIDDLE := 274.
Definition BTN_SIDE := 275.
Definition BTN_EXTRA := 276.
Definition REL_X := 0.
Definition REL_Y := 1.
Definition REL_WHEEL := 8.

(** ** Devices and listeners *)

(** [InputDevice()]; [s] is what the buffer's memory holds. *)
Definition InputDevice_init (e : Z) (s : list InputEvent) : InputDevice :=
  let unspecified := bytes "(unspecified)" ++ [0] in
  let b := Bitmap.init in
  mkDevice unspecified unspecified unspecified (replicate 8 0) e ∅ [] (empty_ring s)
    (b 32) (b 32) (b KEY_CNT) (b 16) (b 64) (b 8) (b 16) (b 8) (b 128) (b 17)
    (b KEY_CNT) (b 16) (b 8) (b 17) false.

(** [l] is the address [new] gave and [s] what its memory holds. *)
Definition create_listener (l : Z) (s : list InputEvent) (cb : option callback_t) (d : InputDevice)
    : outcome InputDevice :=
  let! ls := link_tail l (listeners_list d) in
  Ret (d <| listeners ::= <[l := mkListener cb (empty_ring s)]> |> <| listeners_list := ls |>).

Definition remove_listener (l : Z) (d : InputDevice) : outcome InputDevice :=
  let! ls := unlink l (listeners_list d) in
  Ret (d <| listeners ::= delete l |> <| listeners_list := ls |>).

Inductive turn :=
| Wait                                            (** it waits for the device's event *)
| Return (ret : Z) (buf : list InputEvent) (l : InputListener).

(** A turn of the loop of [InputListener::read]; a wait that returns [-EINTR] ends it. *)
Definition listener_read (l : InputListener) (count : Z) (blocking : bool) : turn :=
  if is_empty (event_buffer l) then (if blocking then Wait else Return (- EWOULDBLOCK) [] l)
  else let '(n, out, r) := read (event_buffer l) count in Return n out (l <| event_buffer := r |>).

Definition listener_poll (l : InputListener) (events : Z) : Z :=
  if (events &? POLLIN) && negb (is_empty (event_buffer l)) then POLLIN else 0.

Definition push_event (type code value : Z) (d : InputDevice) (w : world) : InputDevice * world :=
  let (now, w) := get_time w in
  (d <| dev_buffer ::= fun r => snd (write_truncate r [mkInputEvent now type code value] 1) |>, w).

(** The body of [LIST_FOR_EACH] for the listener at [l]. *)
Definition deliver (evs : list InputEvent) (num_events : Z) (d : InputDevice) (l : Z) (w : world)
    : outcome (InputDevice * world) :=
  let! x := deref (listeners d !! l) in
  let b := event_buffer x in
  let (b, w) :=
    if free_count b <? num_events then
      let b := snd (truncate b (RingBuffer.data_count b)) in
      let (now, w) := get_time w in
      (snd (write b [mkInputEvent now EV_SYN SYN_DROPPED 0] 1), w)
    else (b, w) in
  let b := snd (write b evs num_events) in
  let! (b, w) :=
    match callback x with
    | Some f => f (key_status d) (caps_lock d) b w
    | None => Ret (b, w)
    end in
  Ret (d <| listeners ::= <[l := x <| event_buffer := b |>]> |>, w).

Fixpoint deliver_all (evs : list InputEvent) (num_events : Z) (ls : list Z) (d : InputDevice) (w : world)
    : outcome (InputDevice * world) :=
  match ls with
  | [] => Ret (d, w)
  | l :: ls =>
      let! (d, w) := deliver evs num_events d l w in
      deliver_all evs num_events ls d w
  end.

Definition flush_events (d : InputDevice) (w : world) : outcome (InputDevice * world) :=
  let (d, w) := if is_empty (dev_buffer d) then (d, w) else push_event EV_SYN SYN_REPORT 0 d w in
  let '(num_events, evs, r) := read (dev_buffer d) 128 in
  let d := d <| dev_buffer := r |> in
  let! (d, w) := deliver_all evs num_events (listeners_list d) d w in
  let! k := trigger_all (w_krn w) (event d) in
  Ret (d, w <| w_krn := k |>).

(** ** Keyboards *)

Definition either_key (keys : Bitmap.t) (a b : Z) : outcome bool :=
  let! x := Bitmap.get keys a in if x then Ret true else Bitmap.get keys b.
Definition is_ctrl (keys : Bitmap.t) := either_key keys KEY_LEFTCTRL KEY_RIGHTCTRL.
Definition is_shift (keys : Bitmap.t) := either_key keys KEY_LEFTSHIFT KEY_RIGHTSHIFT.
Definition is_alt (keys : Bitmap.t) := either_key keys KEY_LEFTALT KEY_RIGHTALT.
Definition is_caps (keys : Bitmap.t) (caps_lock : bool) : outcome bool :=
  let! s := is_shift keys in Ret (xorb caps_lock s).

(** The callback of the debug keys; a turn of its loop takes one event from the buffer, so
    a turn more than it holds is enough. *)
Fixpoint debug_loop (fuel : nat) (keys : Bitmap.t) (r : RingBuffer InputEvent) (w : world)
    : outcome (RingBuffer InputEvent * world) :=
  match fuel with
  | O => Undef
  | S fuel =>
      let '(n, out, r) := read r 1 in
      if n =? 0 then Ret (r, w) else
      let! ev := deref (head out) in
      if negb (type ev =? EV_KEY) || (value ev =? 0) then Ret (r, w) else
      let! shift := is_shift keys in
      let! alt := if shift then is_alt keys else Ret false in
      let w := if alt && (code ev =? KEY_DELETE) then w <| w_threads_printed ::= Z.succ |> else w in
      debug_loop fuel keys r w
  end.
Definition debug_callback : callback_t := fun keys _ r w =>
  debug_loop (S (Z.to_nat (RingBuffer.data_count r))) keys r w.

(** The callback of the console. *)
Fixpoint console_loop (fuel : nat) (keys : Bitmap.t) (caps_lock : bool) (r : RingBuffer InputEvent) (w : world)
    : outcome (RingBuffer InputEvent * world) :=
  match fuel with
  | O => Undef
  | S fuel =>
      let '(n, out, r) := read r 1 in
      if n =? 0 then Ret (r, w) else
      let! ev := deref (head out) in
      let! shift := is_shift keys in
      let! caps := is_caps keys caps_lock in
      let! ctrl := is_ctrl keys in
      let! (b, k) := tty.process_input_event (tty.mkModifiers shift caps ctrl (w_drawn w)) (w_terminal w)
                       (tty.mkInputEvent (type ev) (code ev) (value ev)) (w_console w) (w_krn w) in
      console_loop fuel keys caps_lock r (w <| w_console := b |> <| w_krn := k |>)
  end.
Definition console_callback : callback_t := fun keys caps r w =>
  console_loop (S (Z.to_nat (RingBuffer.data_count r))) keys caps r w.

(** ** PS/2 *)

Fixpoint set_bits (b : Bitmap.t) (l : list Z) : outcome Bitmap.t :=
  match l with
  | [] => Ret b
  | i :: l => let! b := Bitmap.set b i true in set_bits b l
  end.

Definition input_id (bustype vendor product version : Z) : list Z :=
  le_bytes 2 bustype ++ le_bytes 2 vendor ++ le_bytes 2 product ++ le_bytes 2 version.

Record Keyboard := mkKeyboard { kb_device : InputDevice; extended : bool }.

Definition Keyboard_init (e : Z) (s : list InputEvent) : outcome Keyboard :=
  let d := InputDevice_init e s in
  let! ev := set_bits (ev_bitmap d) [EV_SYN; EV_KEY; EV_LED] in
  let! keys := set_bits (key_bitmap d) (filter (fun key => key <> 84) (seqZ 1 127)) in
  let! leds := set_bits (led_bitmap d) [0; 1; 2] in
  Ret (mkKeyboard (d <| name := bytes "PS/2 Keyboard" ++ [0] |> <| phys := bytes "ps2kbd/input0" ++ [0] |>
         <| id := input_id 17 1 1 1 |> <| ev_bitmap := ev |> <| key_bitmap := keys |> <| led_bitmap := leds |>) false).

Definition extended_keycode (keycode : Z) : Z :=
  if keycode =? 28 then 96 else if keycode =? 29 then KEY_RIGHTCTRL else if keycode =? 53 then 98
  else if keycode =? 56 then KEY_RIGHTALT else if keycode =? 71 then 102 else if keycode =? 72 then 103
  else if keycode =? 73 then 104 else if keycode =? 75 then 105 else if keycode =? 77 then 106
  else if keycode =? 79 then 107 else if keycode =? 80 then 108 else if keycode =? 81 then 109
  else if keycode =? 82 then 110 else if keycode =? 83 then KEY_DELETE else keycode.

(** [Keyboard::irq], with the byte [read_data] returned; the end of the interrupt is
    signalled by [eoi] in any case. *)
Definition keyboard_irq (scancode : Z) (kb : Keyboard) (w : world) : outcome (Keyboard * world) :=
  let d := kb_device kb in
  if scancode =? 224 then Ret (mkKeyboard d true, w) else
  let release := scancode &? 128 in
  let keycode := Z.land scancode 127 in
  let keycode := if extended kb then extended_keycode keycode else keycode in
  let! down := Bitmap.get (key_status d) keycode in
  let is_repeat := negb release && down in
  let! keys := if is_repeat then Ret (key_status d) else Bitmap.set (key_status d) keycode (negb release) in
  let (d, w) := push_event EV_KEY keycode (if is_repeat then 2 else if release then 0 else 1)
                  (d <| key_status := keys |>) w in
  let! (d, w) := flush_events d w in
  Ret (mkKeyboard d false, w).

Record Mouse := mkMouse {
  ms_device : InputDevice; has_wheel : bool; has_five_buttons : bool; ms_data : list Z; data_count : Z
}.
#[export] Instance eta_Mouse : Settable Mouse := fun m =>
  mkMouse (ms_device m) (has_wheel m) (has_five_buttons m) (ms_data m) (data_count m).

(** The constructor, with the three identities [identify] reports. *)
Definition Mouse_init (e : Z) (s : list InputEvent) (id1 id2 id3 : Z) : outcome Mouse :=
  let d := InputDevice_init e s in
  let! _ := assert (id1 =? 0) in
  let wheel := id2 =? 3 in
  let five := wheel && (id3 =? 4) in
  let! ev := set_bits (ev_bitmap d) [EV_SYN; EV_KEY; EV_REL] in
  let! keys := set_bits (key_bitmap d)
                 ([BTN_LEFT; BTN_RIGHT; BTN_MIDDLE] ++ if five then [BTN_SIDE; BTN_EXTRA] else []) in
  let! rel := set_bits (rel_bitmap d) ([REL_X; REL_Y] ++ if wheel then [REL_WHEEL] else []) in
  Ret (mkMouse (d <| name := bytes "PS/2 Mouse" ++ [0] |> <| phys := bytes "ps2mouse/input0" ++ [0] |>
         <| id := input_id 17 2 1 1 |> <| ev_bitmap := ev |> <| key_bitmap := keys |> <| rel_bitmap := rel |>)
         wheel five (replicate 4 0) 0).

Definition process_button (index : Z) (state : bool) (d : InputDevice) (w : world) : outcome (InputDevice * world) :=
  let! old_state := Bitmap.get (key_status d) index in
  if Bool.eqb state old_state then Ret (d, w) else
  let! keys := Bitmap.set (key_status d) index state in
  Ret (push_event EV_KEY index (if state then 1 else 0) (d <| key_status := keys |>) w).

Definition push_motion (axis v : Z) (d : InputDevice) (w : world) : InputDevice * world :=
  if v =? 0 then (d, w) else push_event EV_REL axis (u32 v) d w.

(** A whole packet: the buttons, the motion and the wheel. *)
Definition mouse_packet (m : Mouse) (b0 b1 b2 b3 : Z) (w : world) : outcome (InputDevice * world) :=
  let! (d, w) := process_button BTN_LEFT (b0 &? 1) (ms_device m) w in
  let! (d, w) := process_button BTN_RIGHT (b0 &? 2) d w in
  let! (d, w) := process_button BTN_MIDDLE (b0 &? 4) d w in
  let! (d, w) :=
    if has_five_buttons m then
      let! (d, w) := process_button BTN_SIDE (b3 &? 16) d w in
      process_button BTN_EXTRA (b3 &? 32) d w
    else Ret (d, w) in
  let (d, w) := push_motion REL_X (b1 - (if b0 &? 16 then 256 else 0)) d w in
  let (d, w) := push_motion REL_Y (- (b2 - (if b0 &? 32 then 256 else 0))) d w in
  let (d, w) := if has_wheel m then push_motion REL_WHEEL (Z.land b3 7 * (if b3 &? 8 then 1 else -1)) d w
                else (d, w) in
  flush_events d w.

(** [Mouse::irq], with the byte [read_data] returned. *)
Definition mouse_irq (byte : Z) (m : Mouse) (w : world) : outcome (Mouse * world) :=
  let! _ := deref (ms_data m !! Z.to_nat (data_count m)) in
  let m := m <| ms_data ::= <[Z.to_nat (data_count m) := byte]> |> in
  let! b0 := deref (ms_data m !! 0%nat) in
  if negb (b0 &? 8) then Ret (m <| data_count := 0 |>, w) else
  let m := m <| data_count ::= Z.succ |> in
  if negb (data_count m =? if has_wheel m then 4 else 3) then Ret (m, w) else
  let m := m <| data_count := 0 |> in
  let! b1 := deref (ms_data m !! 1%nat) in
  let! b2 := deref (ms_data m !! 2%nat) in
  let! b3 := deref (ms_data m !! 3%nat) in
  let! (d, w) := mouse_packet m b0 b1 b2 b3 w in
  Ret (m <| ms_device := d |>, w).

(** ** Event nodes *)

Definition _IOC_DIR (cmd : Z) : Z := Z.land (Z.shiftr cmd 30) 3.
Definition _IOC_TYPE (cmd : Z) : Z := Z.land (Z.shiftr cmd 8) 255.
Definition _IOC_NR (cmd : Z) : Z := Z.land cmd 255.
Definition _IOC_SIZE (cmd : Z) : Z := Z.land (Z.shiftr cmd 16) 16383.
Definition _IOC (dir type nr size : Z) : Z :=
  Z.shiftl dir 30 .| Z.shiftl type 8 .| nr .| Z.shiftl size 16.
Definition EVIOC_MASK_SIZE (cmd : Z) : Z := cmd &~ Z.shiftl 16383 16.
(** A request of type ['E'] that reads. *)
Definition EVIOC (nr size : Z) : Z := _IOC 2 69 nr size.

Definition copy_string (target : mem) (target_size : Z) (str : mem) : outcome (Z * mem) :=
  let! target := strncpy target str (Z.to_nat target_size) in
  let! n := strlen str in
  Ret (klib.min (Z.of_nat n + 1) target_size, target).

(** The bytes of the words of a bitmap. *)
Definition bitmap_bytes (b : Bitmap.t) : mem := flat_map (le_bytes 8) (Bitmap.data b).

Definition copy_bitmap (target : mem) (target_size : Z) (b : Bitmap.t) (bitmap_len : Z) : outcome (Z * mem) :=
  let copied := klib.min (klib.align_up bitmap_len 8 / 8) target_size in
  let! target := memcpy target (bitmap_bytes b) (Z.to_nat copied) in
  Ret (copied, target).

Definition evdev_bits (d : InputDevice) (ev : Z) : option (Bitmap.t * Z) :=
  if ev =? 0 then Some (ev_bitmap d, 31) else if ev =? EV_KEY then Some (key_bitmap d, 767)
  else if ev =? EV_REL then Some (rel_bitmap d, 15) else if ev =? EV_ABS then Some (abs_bitmap d, 63)
  else if ev =? EV_MSC then Some (msc_bitmap d, 7) else if ev =? EV_LED then Some (led_bitmap d, 15)
  else if ev =? EV_SND then Some (snd_bitmap d, 7) else if ev =? EV_FF then Some (ff_bitmap d, 127)
  else if ev =? EV_SW then Some (sw_bitmap d, 16) else None.

(** [arg] is the memory the argument points to. *)
Definition evdev_ioctl (d : InputDevice) (cmd : Z) (arg : mem) : outcome (Z * mem) :=
  if cmd =? EVIOC 1 4 then let! arg := memcpy arg (le_bytes 4 65537) 4 in Ret (0, arg)
  else if cmd =? EVIOC 2 8 then let! arg := memcpy arg (id d) 8 in Ret (0, arg)
  else if (cmd =? EVIOC 132 4) || (cmd =? _IOC 1 69 144 4) then Ret (0, arg) else
  let size := _IOC_SIZE cmd in
  let masked := EVIOC_MASK_SIZE cmd in
  if masked =? EVIOC 6 0 then copy_string arg size (name d)
  else if masked =? EVIOC 7 0 then copy_string arg size (phys d)
  else if masked =? EVIOC 8 0 then copy_string arg size (uniq d)
  else if masked =? EVIOC 9 0 then copy_bitmap arg size (prop_bitmap d) 32
  else if masked =? EVIOC 24 0 then copy_bitmap arg size (key_status d) KEY_CNT
  else if masked =? EVIOC 25 0 then copy_bitmap arg size (led_status d) 16
  else if masked =? EVIOC 26 0 then copy_bitmap arg size (snd_status d) 8
  else if masked =? EVIOC 27 0 then copy_bitmap arg size (sw_status d) 17
  else if negb (_IOC_TYPE cmd =? 69) then Ret (- EINVAL, arg)
  else if (_IOC_DIR cmd =? 2) && (_IOC_NR cmd &~ EV_MAX =? 32) then
    match evdev_bits d (Z.land (_IOC_NR cmd) EV_MAX) with
    | Some (b, len) => copy_bitmap arg size b len
    | None => Ret (- EINVAL, arg)
    end
  else Ret (- EINVAL, arg).

(** [open], [close], [read] and [poll] of a description whose [priv] is [l]. *)
Definition evdev_open (l : Z) (s : list InputEvent) (d : InputDevice) : outcome (Z * InputDevice) :=
  let! d := create_listener l s None d in Ret (0, d).
Definition evdev_close (l : Z) (d : InputDevice) : outcome InputDevice := remove_listener l d.

(** A turn of the read: [None] when it waits. *)
Definition evdev_read (l count : Z) (nonblock : bool) (d : InputDevice)
    : outcome (option (Z * list InputEvent * InputDevice)) :=
  let! x := deref (listeners d !! l) in
  match listener_read x (count / 24) (negb nonblock) with
  | Wait => Ret None
  | Return ret buf x =>
      Ret (Some (if ret <? 0 then ret else ret * 24, buf, d <| listeners ::= <[l := x]> |>))
  end.
Definition evdev_poll (l events : Z) (d : InputDevice) : outcome Z :=
  let! x := deref (listeners d !! l) in Ret (listener_poll x events).

End input.
