(* ===== verification/InputFacts.v ===== *)
(** * Input devices: buffers, keys, delivery

    The invariant of a device and its listeners; what pushing events, flushing them and
    calling the listeners back do to it. *)

From S2P Require Import Prelude Algorithm CString RingBuffer Links Sched SchedFacts SchedLinks SchedProps TimeProps Printf Tty Input.

Import input.

(** ** Buffers and keys *)

(** An event without its time. *)
Definition untimed (ev : InputEvent) : Z * Z * Z := (type ev, code ev, value ev).
Definition queued (r : RingBuffer InputEvent) : list (Z * Z * Z) := map untimed (contents r).
Definition buffer_ok (r : RingBuffer InputEvent) : Prop := wf r /\ size r = 128.

(** The bits set among the first [n] are those of [K]; the keys down are those of [K]. *)
Definition bits_are (n : Z) (b : Bitmap.t) (K : gset Z) : Prop :=
  forall i, 0 <= i < n -> Bitmap.get b i = Ret (bool_decide (i ∈ K)).
Definition keys_down : Bitmap.t -> gset Z -> Prop := bits_are KEY_CNT.

Lemma buffer_ok_empty s : length s = 128%nat -> buffer_ok (empty_ring s) /\ queued (empty_ring s) = [].
Proof.
  intros Hs. destruct (wf_empty s) as [Hwf Hc]; [lia|rewrite Hs; by exists 144115188075855872|].
  unfold buffer_ok, queued, size. rewrite Hc. simpl. by rewrite Hs.
Qed.

Lemma length_queued r : buffer_ok r -> Z.of_nat (length (queued r)) = RingBuffer.data_count r.
Proof. intros [Hwf _]. unfold queued. by rewrite length_map, length_contents. Qed.

Lemma queued_bound r : buffer_ok r -> Z.of_nat (length (queued r)) <= 128.
Proof. intros Hb. rewrite length_queued by done. destruct Hb as [(_ & _ & _ & _ & ?) <-]. done. Qed.

Lemma write_queued r evs : buffer_ok r ->
  let r' := snd (write r evs (Z.of_nat (length evs))) in
  buffer_ok r' /\ queued r' = take 128 (queued r ++ map untimed evs).
Proof.
  intros Hb. pose proof (length_queued r Hb) as Hl. pose proof (queued_bound r Hb). destruct Hb as [Hwf Hs].
  destruct (write r evs _) as [n r'] eqn:E. apply write_spec in E as (Hn & Hwf' & Hs' & Hc); [|done|lia].
  rewrite free_count_eq, Hs in Hn by done. cbv zeta. cbn [snd]. split; [split; congruence|].
  unfold queued in *. rewrite Hc, map_app. rewrite length_map in *. rewrite take_app, length_map.
  rewrite (take_ge (map untimed (contents r))) by (rewrite length_map; lia). f_equal.
  rewrite <- !fmap_take. f_equal. destruct (decide (Z.of_nat (length evs) <= 128 - RingBuffer.data_count r)).
  - rewrite !take_ge by lia. done.
  - f_equal. lia.
Qed.

Lemma truncate_queued r count : buffer_ok r -> 0 <= count ->
  let r' := snd (truncate r count) in buffer_ok r' /\ queued r' = drop (Z.to_nat count) (queued r).
Proof.
  intros [Hwf Hs] Hc. destruct (truncate r count) as [n r'] eqn:E.
  destruct (truncate_spec r count n r' Hwf Hc E) as (Hn & Hwf' & Hd & Hcon & _). cbv zeta. cbn [snd].
  split; [split; [done|unfold size in *; congruence]|]. unfold queued. rewrite Hcon, skipn_map. f_equal.
  pose proof (length_contents r Hwf). destruct (decide (count <= RingBuffer.data_count r)).
  - f_equal. lia.
  - rewrite !drop_ge by lia. done.
Qed.

Lemma write_truncate_queued r ev : buffer_ok r ->
  let r' := snd (write_truncate r [ev] 1) in
  buffer_ok r' /\ queued r' = drop (length (queued r) + 1 - 128) (queued r) ++ [untimed ev].
Proof.
  intros Hb. pose proof (length_queued r Hb) as Hl. pose proof (queued_bound r Hb). unfold write_truncate.
  rewrite free_count_eq by apply Hb. rewrite (proj2 Hb).
  set (r1 := if _ <? _ then _ else _).
  assert (buffer_ok r1 /\ queued r1 = drop (length (queued r) + 1 - 128) (queued r)) as [Hb1 Hq1].
  { unfold r1. destruct (Z.ltb_spec (128 - RingBuffer.data_count r) 1).
    - destruct (truncate_queued r 1 Hb ltac:(lia)) as [? ->]. split; [done|]. f_equal. lia.
    - split; [done|]. by replace (length (queued r) + 1 - 128)%nat with 0%nat by lia. }
  destruct (write_queued r1 [ev] Hb1) as [Hb' Hq']. split; [exact Hb'|]. etrans; [exact Hq'|].
  rewrite Hq1, take_ge; [done|]. rewrite length_app, length_drop. simpl. lia.
Qed.

Lemma bits_are_set n b K i v : bits_are n b K -> 0 <= i < n ->
  exists b', Bitmap.set b i v = Ret b' /\ bits_are n b' (if v then {[i]} ∪ K else K ∖ {[i]}).
Proof.
  intros Hb Hi. pose proof (Hb i Hi) as Hg. unfold Bitmap.get in Hg.
  destruct (Bitmap.set b i v) as [b'| |] eqn:E;
    [|unfold Bitmap.set in E; by destruct (Bitmap.data b !! _)..].
  exists b'. split; [done|]. intros j Hj. rewrite (Bitmap.set_get b i j v b') by (done || lia).
  rewrite (Hb j Hj). destruct (decide (i = j)) as [<-|Hij]; f_equal.
  - destruct v; [rewrite bool_decide_true by set_solver|rewrite bool_decide_false by set_solver]; done.
  - destruct v; apply bool_decide_ext; set_solver.
Qed.

Lemma keys_down_set b K i v : keys_down b K -> 0 <= i < KEY_CNT ->
  exists b', Bitmap.set b i v = Ret b' /\ keys_down b' (if v then {[i]} ∪ K else K ∖ {[i]}).
Proof. apply bits_are_set. Qed.

Lemma bits_are_init n : 0 < n < 65536 -> bits_are n (Bitmap.init n) ∅.
Proof.
  intros Hn i Hi. unfold Bitmap.get, Bitmap.init, Bitmap.bits_per_usize, klib.bits_to. cbn [Bitmap.data].
  pose proof (klib.align_up_spec n 64 ltac:(lia) ltac:(lia) ltac:(lia)). rewrite lookup_replicate_2 by lia.
  cbn [obind deref]. rewrite Z.shiftr_0_l. by rewrite bool_decide_false by set_solver.
Qed.
Lemma keys_down_init : keys_down (Bitmap.init KEY_CNT) ∅.
Proof. apply bits_are_init. done. Qed.

(** ** Devices *)

Record device_ok (d : InputDevice) : Prop := {
  ok_buffer : buffer_ok (dev_buffer d);
  ok_list : NoDup (listeners_list d);
  ok_listeners l : l ∈ listeners_list d -> exists x, listeners d !! l = Some x /\ buffer_ok (event_buffer x)
}.

(** [d] with other events queued and other keys down. *)
Definition same_device (d d' : InputDevice) : Prop :=
  d' = d <| dev_buffer := dev_buffer d' |> <| key_status := key_status d' |>.

#[export] Instance same_device_preorder : PreOrder same_device.
Proof.
  split; [intros d; by destruct d|]. unfold same_device. intros a b c Hb Hc. rewrite Hc, Hb. done.
Qed.

Lemma same_device_ok d d' : device_ok d -> same_device d d' -> buffer_ok (dev_buffer d') -> device_ok d'.
Proof. intros [_ Hl Hx] -> Hb. by split. Qed.

(** [d], with the keys of [K] down, has [q] queued. *)
Definition reports (d : InputDevice) (K : gset Z) (q : list (Z * Z * Z)) : Prop :=
  buffer_ok (dev_buffer d) /\ queued (dev_buffer d) = q /\ keys_down (key_status d) K.

Lemma push_event_spec t c v d w d' w' K q : push_event t c v d w = (d', w') -> reports d K q ->
  reports d' K (drop (length q + 1 - 128) q ++ [(t, c, v)]) /\ same_device d d' /\ w_krn w' = w_krn w.
Proof.
  intros [= <- <-] (Hb & <- & Hk). unfold reports. simpl.
  destruct (write_truncate_queued (dev_buffer d) (mkInputEvent (w_clock w 0%nat) t c v) Hb) as [Hb' Hq].
  split; [split; [exact Hb'|split; [exact Hq|exact Hk]]|]. split; [by destruct d|done].
Qed.

(** ** Delivery *)

Definition dropped : Z * Z * Z := (EV_SYN, SYN_DROPPED, 0).
Definition report : Z * Z * Z := (EV_SYN, SYN_REPORT, 0).

(** What a listener that had [old] unread has after [batch]. *)
Definition after_delivery (old batch : list (Z * Z * Z)) : list (Z * Z * Z) :=
  if (128 <? length old + length batch)%nat then take 128 (dropped :: batch) else old ++ batch.

(** A callback that always returns, may wake threads and leaves a buffer. *)
Definition callback_ok (f : callback_t) : Prop := forall keys K caps b w,
  keys_down keys K -> buffer_ok b -> sched_wf (w_krn w) ->
  exists b' w', f keys caps b w = Ret (b', w') /\ buffer_ok b' /\ advance (w_krn w) (w_krn w').

(** [x'] is [x] after [batch]; a callback has read what it read. *)
Definition delivered (d : InputDevice) (batch : list (Z * Z * Z)) (x x' : InputListener) : Prop :=
  callback x' = callback x /\ buffer_ok (event_buffer x') /\
  match callback x with
  | None => queued (event_buffer x') = after_delivery (queued (event_buffer x)) batch
  | Some f => exists b w1 w2, f (key_status d) (caps_lock d) b w1 = Ret (event_buffer x', w2) /\
                queued b = after_delivery (queued (event_buffer x)) batch
  end.

Definition callbacks_ok (d : InputDevice) : Prop := forall l x f,
  listeners d !! l = Some x -> callback x = Some f -> callback_ok f.

Lemma deliver_spec evs d l x w K : listeners d !! l = Some x -> buffer_ok (event_buffer x) ->
  callbacks_ok d -> keys_down (key_status d) K -> sched_wf (w_krn w) -> (length evs <= 128)%nat ->
  exists x' w', deliver evs (Z.of_nat (length evs)) d l w = Ret (d <| listeners ::= <[l := x']> |>, w') /\
    delivered d (map untimed evs) x x' /\ advance (w_krn w) (w_krn w').
Proof.
  intros Hx Hb Hc Hk Hw Hl. unfold deliver. rewrite Hx. cbn [obind deref].
  set (p := if _ <? _ then _ else _).
  assert (exists b w1, p = (b, w1) /\ w_krn w1 = w_krn w /\
    buffer_ok (snd (write b evs (Z.of_nat (length evs)))) /\
    queued (snd (write b evs (Z.of_nat (length evs)))) = after_delivery (queued (event_buffer x)) (map untimed evs))
    as (b & w1 & -> & Hw1 & Hb1 & Hq1).
  { pose proof (length_queued _ Hb) as Hn. pose proof (queued_bound _ Hb). unfold p, after_delivery.
    rewrite free_count_eq, (proj2 Hb), length_map by apply Hb.
    destruct (Z.ltb_spec (128 - RingBuffer.data_count (event_buffer x)) (Z.of_nat (length evs)));
      (destruct (Nat.ltb_spec 128 (length (queued (event_buffer x)) + length evs)); [|]); try lia.
    - destruct (get_time w) as [now w1] eqn:Eg. injection Eg as <- <-. eexists _, _. split; [done|]. split; [done|].
      destruct (truncate_queued _ (RingBuffer.data_count (event_buffer x)) Hb (data_count_nonneg _)) as [Hb1 Hq1].
      rewrite drop_ge in Hq1 by lia. set (b1 := snd (truncate _ _)) in *.
      destruct (write_queued b1 [mkInputEvent (w_clock w 0%nat) EV_SYN SYN_DROPPED 0] Hb1) as [Hb2 Hq2].
      destruct (write_queued _ evs Hb2) as [Hb3 Hq3]. split; [exact Hb3|]. etrans; [exact Hq3|].
      rewrite Hq2, Hq1. done.
    - eexists _, _. split; [done|]. split; [done|].
      destruct (write_queued _ evs Hb) as [Hb3 Hq3]. split; [exact Hb3|]. rewrite Hq3, take_ge; [done|]. rewrite length_app, length_map. lia. }
  unfold delivered. destruct (callback x) as [f|] eqn:Hf.
  - destruct (Hc _ _ _ Hx Hf (key_status d) K (caps_lock d) _ w1 Hk Hb1) as (b' & w' & He & Hb' & Ha); [by rewrite Hw1|].
    rewrite He. cbn [obind]. eexists _, w'. split; [done|]. simpl. rewrite Hw1 in Ha.
    split; [|done]. split; [done|]. split; [done|]. eauto.
  - cbn [obind]. eexists _, w1. split; [done|]. simpl. split; [done|]. by rewrite Hw1.
Qed.

Lemma deliver_all_spec evs ls d w K : NoDup ls ->
  (forall l, l ∈ ls -> exists x, listeners d !! l = Some x /\ buffer_ok (event_buffer x)) ->
  callbacks_ok d -> keys_down (key_status d) K -> sched_wf (w_krn w) -> (length evs <= 128)%nat ->
  exists m w', deliver_all evs (Z.of_nat (length evs)) ls d w = Ret (d <| listeners := m |>, w') /\
    advance (w_krn w) (w_krn w') /\
    (forall l, l ∉ ls -> m !! l = listeners d !! l) /\
    (forall l x, l ∈ ls -> listeners d !! l = Some x ->
       exists x', m !! l = Some x' /\ delivered d (map untimed evs) x x').
Proof.
  revert d w. induction ls as [|l ls IH]; intros d w Hnd Hls Hc Hk Hw Hl.
  - exists (listeners d), w. split; [by destruct d|]. split; [done|]. split; [done|]. intros ?? []%elem_of_nil.
  - apply NoDup_cons in Hnd as [Hnl Hnd]. destruct (Hls l) as (x & Hx & Hb); [left|].
    destruct (deliver_spec evs d l x w K Hx Hb Hc Hk Hw Hl) as (x' & w1 & Hd & Hx' & Ha). simpl. rewrite Hd. cbn [obind].
    destruct (IH (d <| listeners ::= <[l := x']> |>) w1) as (m & w' & He & Ha' & Hout & Hin); try done.
    + intros l' Hl'. destruct (Hls l') as (y & Hy & Hyb); [by right|]. exists y. simpl.
      rewrite lookup_insert_ne; [done|congruence].
    + intros l' y f. simpl. rewrite lookup_insert. case_decide as Hl'; [|by apply Hc].
      intros [= <-] Hf. subst. eapply Hc; [exact Hx|]. by rewrite <- (proj1 Hx').
    + by apply (adv_wf _ _ Ha).
    + exists m, w'. split; [done|]. split; [by etrans|]. simpl in Hout, Hin. split.
      * intros l' [? ?]%not_elem_of_cons. rewrite Hout, lookup_insert_ne; done || congruence.
      * intros l' y [->|Hl']%elem_of_cons Hy.
        { rewrite Hout, lookup_insert_eq by done. simplify_eq. eauto. }
        apply Hin; [done|]. rewrite lookup_insert_ne; [done|congruence].
Qed.

(** The report a device with [q] queued makes. *)
Definition batch_of (q : list (Z * Z * Z)) : list (Z * Z * Z) :=
  match q with [] => [] | _ => drop (length q + 1 - 128) q ++ [report] end.

Lemma read_all_queued r n evs r' : buffer_ok r -> read r 128 = (n, evs, r') ->
  n = Z.of_nat (length evs) /\ map untimed evs = queued r /\ buffer_ok r' /\ queued r' = [].
Proof.
  intros Hb He. pose proof (length_queued r Hb). pose proof (queued_bound r Hb). destruct Hb as [Hwf Hs].
  apply read_out in He as [-> Ht]; [|done|lia]. apply truncate_spec in Ht as (-> & Hwf' & Hd & Hc & _); [|done|lia].
  unfold queued in *. rewrite length_map in *. rewrite take_ge by lia.
  split; [lia|]. split; [done|]. split; [split; [done|unfold size in *; congruence]|]. rewrite Hc, drop_ge by lia. done.
Qed.

Lemma flush_spec d w K q : device_ok d -> callbacks_ok d -> reports d K q ->
  sched_wf (w_krn w) -> is_Some (events (w_krn w) !! event d) ->
  exists d' w', flush_events d w = Ret (d', w') /\ reports d' K [] /\ device_ok d' /\
    advance (w_krn w) (w_krn w') /\ wakes (w_krn w) (w_krn w') (event d) /\
    listeners_list d' = listeners_list d /\
    forall l x, l ∈ listeners_list d -> listeners d !! l = Some x ->
      exists x', listeners d' !! l = Some x' /\ delivered d (batch_of q) x x'.
Proof.
  intros Hd Hc Hr Hw [ev Hev]. unfold flush_events. set (p := if is_empty _ then _ else _).
  assert (exists d1 w1, p = (d1, w1) /\ reports d1 K (batch_of q) /\ same_device d d1 /\
    key_status d1 = key_status d /\ w_krn w1 = w_krn w)
    as (d1 & w1 & -> & Hr1 & Hs & Hks & Hw1).
  { unfold p. destruct Hr as (Hb & Hq & Hk). destruct (is_empty (dev_buffer d)) eqn:He.
    - apply contents_nil_iff in He; [|apply Hb]. exists d, w. unfold queued in Hq. rewrite He in Hq. subst q.
      split; [done|]. split; [split; [done|split; [by unfold queued; rewrite He|done]]|]. done.
    - destruct (push_event _ _ _ d w) as [d1 w1] eqn:Ep. eexists _, _. split; [done|].
      assert (q <> []) as Hne.
      { intros ->. apply (f_equal negb) in He. rewrite (proj2 (contents_nil_iff _ (proj1 Hb))) in He; [done|].
        by apply map_eq_nil in Hq. }
      pose proof Ep as Ep'. injection Ep' as Hd1 _.
      destruct (push_event_spec _ _ _ _ _ _ _ K q Ep) as (H1 & H2 & H3); [done|].
      split; [by destruct q|]. split; [done|]. split; [by rewrite <- Hd1|done]. }
  destruct Hr1 as (Hb1 & Hq1 & Hk1). destruct (read (dev_buffer d1) 128) as [[n evs] r] eqn:Er.
  destruct (read_all_queued _ _ _ _ Hb1 Er) as (-> & Hevs & Hbr & Hqr). rewrite Hq1 in Hevs.
  pose proof (queued_bound _ Hb1) as Hle. rewrite Hq1, <- Hevs, length_map in Hle.
  set (d2 := d1 <| dev_buffer := r |>).
  assert (listeners d2 = listeners d /\ listeners_list d2 = listeners_list d /\ key_status d2 = key_status d /\
          caps_lock d2 = caps_lock d /\ event d2 = event d) as (E1 & E2 & E3 & E4 & E5) by (unfold d2; rewrite Hs; simpl; by rewrite <- Hks).
  destruct (deliver_all_spec evs (listeners_list d2) d2 w1 K) as (m & w2 & -> & Ha & _ & Hin).
  { rewrite E2. apply (ok_list _ Hd). }
  { rewrite E1, E2. apply (ok_listeners _ Hd). }
  { intros l x f. rewrite E1. apply Hc. }
  { rewrite E3. apply Hr. }
  { by rewrite Hw1. }
  { lia. }
  cbn [obind]. rewrite Hw1 in Ha. destruct (adv_events _ _ Ha _ _ Hev) as (ev' & Hev' & Hle').
  destruct (trigger_wakes_all _ _ _ (adv_wf _ _ Ha Hw) Hev') as (k' & Ht & Ha' & Hwk).
  change (event (d2 <| listeners := m |>)) with (event d2). rewrite E5, Ht. cbn [obind].
  eexists _, _. split; [done|]. rewrite Hevs in Hin.
  assert (forall l x, l ∈ listeners_list d -> listeners d !! l = Some x ->
    exists x', m !! l = Some x' /\ delivered d (batch_of q) x x') as Hdel.
  { intros l x Hl Hx. destruct (Hin l x) as (x' & Hx' & Hdx); [by rewrite E2|by rewrite E1|].
    exists x'. split; [done|]. unfold delivered in *. by rewrite E3, E4 in Hdx. }
  split; [split; [done|split; [done|exact Hk1]]|].
  split. { split; [done|simpl; rewrite Hs; apply (ok_list _ Hd)|]. simpl. intros l Hl.
    assert (l ∈ listeners_list d) as Hl' by (rewrite Hs in Hl; done).
    destruct (ok_listeners _ Hd l Hl') as (x & Hx & _). destruct (Hdel l x Hl' Hx) as (x' & ? & _ & ? & _). eauto. }
  split; [by etrans|]. split; [by eapply advance_wakes|]. split; [simpl; by rewrite Hs|]. exact Hdel.
Qed.

(** ** Pushing *)

(** From [K] and [q], a device reports [evs] and has the keys of [K'] down. *)
Definition pushed (d : InputDevice) (w : world) (K : gset Z) (q evs : list (Z * Z * Z)) (K' : gset Z)
    (d' : InputDevice) (w' : world) : Prop :=
  reports d' K' (q ++ evs) /\ same_device d d' /\ w_krn w' = w_krn w.

Lemma pushed_nil d w K q : reports d K q -> pushed d w K q [] K d w.
Proof. intros. unfold pushed. by rewrite app_nil_r. Qed.

Lemma pushed_app d w K q evs1 K1 d1 w1 evs2 K2 d2 w2 :
  pushed d w K q evs1 K1 d1 w1 -> pushed d1 w1 K1 (q ++ evs1) evs2 K2 d2 w2 ->
  pushed d w K q (evs1 ++ evs2) K2 d2 w2.
Proof.
  intros (_ & Hs & Hw) (Hr & Hs' & Hw'). unfold pushed. rewrite app_assoc.
  split; [done|]. split; [by etrans|congruence].
Qed.

Lemma push_event_pushed t c v d w K q d' w' : reports d K q -> (length q < 128)%nat ->
  push_event t c v d w = (d', w') -> pushed d w K q [(t, c, v)] K d' w'.
Proof.
  intros Hr Hl He. destruct (push_event_spec _ _ _ _ _ _ _ _ _ He Hr) as (H & Hs & Hw).
  replace (length q + 1 - 128)%nat with 0%nat in H by lia. done.
Qed.

(** What a change of a key to [state] reports, and the keys down after it. *)
Definition key_events (K : gset Z) (key : Z) (state : bool) : list (Z * Z * Z) :=
  if Bool.eqb state (bool_decide (key ∈ K)) then [] else [(EV_KEY, key, if state then 1 else 0)].
Definition hold (key : Z) (state : bool) (K : gset Z) : gset Z :=
  if state then {[key]} ∪ K else K ∖ {[key]}.
Definition motion_events (axis v : Z) : list (Z * Z * Z) :=
  if v =? 0 then [] else [(EV_REL, axis, u32 v)].

Lemma same_device_keys d b : same_device d (d <| key_status := b |>).
Proof. by destruct d. Qed.

Lemma process_button_pushed key state d w K q : reports d K q -> (length q < 128)%nat -> 0 <= key < KEY_CNT ->
  exists d' w', process_button key state d w = Ret (d', w') /\
    pushed d w K q (key_events K key state) (hold key state K) d' w'.
Proof.
  intros Hr Hl Hk. pose proof Hr as (Hb & Hq & Hkeys). unfold process_button, key_events. rewrite Hkeys by done. cbn [obind].
  destruct (Bool.eqb state _) eqn:E.
  - exists d, w. split; [done|]. assert (hold key state K = K) as ->; [|by apply pushed_nil].
    apply Bool.eqb_prop in E. unfold hold. destruct state; symmetry in E.
    + apply bool_decide_eq_true in E. set_solver.
    + apply bool_decide_eq_false in E. set_solver.
  - destruct (keys_down_set _ K key state Hkeys Hk) as (b' & -> & Hb'). cbn [obind].
    destruct (push_event _ _ _ _ w) as [d' w'] eqn:Ep. exists d', w'. split; [done|].
    apply (push_event_pushed _ _ _ _ _ (hold key state K) q) in Ep as (H1 & H2 & H3); [|split_and!; done|done].
    split; [done|]. split; [|done]. etrans; [apply same_device_keys|done].
Qed.

Lemma push_motion_pushed axis v d w K q d' w' : reports d K q -> (length q < 128)%nat ->
  push_motion axis v d w = (d', w') -> pushed d w K q (motion_events axis v) K d' w'.
Proof.
  intros Hr Hl. unfold push_motion, motion_events. destruct (v =? 0).
  - intros [= <- <-]. by apply pushed_nil.
  - by apply push_event_pushed.
Qed.

(** A flush after pushes. *)
Lemma flush_pushed d w K evs K' d1 w1 : device_ok d -> callbacks_ok d -> sched_wf (w_krn w) ->
  is_Some (events (w_krn w) !! event d) -> pushed d w K [] evs K' d1 w1 ->
  exists d' w', flush_events d1 w1 = Ret (d', w') /\ reports d' K' [] /\ device_ok d' /\
    advance (w_krn w) (w_krn w') /\ wakes (w_krn w) (w_krn w') (event d) /\
    forall l x, l ∈ listeners_list d -> listeners d !! l = Some x ->
      exists x', listeners d' !! l = Some x' /\
        delivered (d <| key_status := key_status d1 |>) (batch_of evs) x x'.
Proof.
  intros Hd Hc Hw He (Hr & Hs & Hw1). simpl in Hr.
  destruct (flush_spec d1 w1 K' evs) as (d' & w' & Hf & Hr' & Hd' & Ha & Hwk & _ & Hl); try done.
  - by eapply same_device_ok; [| |apply Hr].
  - intros l x f. rewrite Hs. apply Hc.
  - by rewrite Hw1.
  - rewrite Hw1, Hs. done.
  - exists d', w'. rewrite Hw1 in Ha, Hwk. split; [done|]. split; [done|]. split; [done|]. split; [done|].
    split; [rewrite Hs in Hwk; done|]. intros l x Hin Hx.
    destruct (Hl l x) as (x' & Hx' & Hdel); [rewrite Hs; done|rewrite Hs; done|]. exists x'. split; [done|].
    unfold delivered in *. replace (caps_lock d1) with (caps_lock d) in Hdel by (rewrite Hs; done). exact Hdel.
Qed.

(** ** The invariant of a device *)

Lemma InputDevice_init_ok e s : length s = 128%nat ->
  device_ok (InputDevice_init e s) /\ reports (InputDevice_init e s) ∅ [].
Proof.
  intros Hs. destruct (buffer_ok_empty s Hs). split.
  - split; [done|constructor|]. intros l []%elem_of_nil.
  - split; [done|]. split; [done|]. apply keys_down_init.
Qed.

Lemma create_listener_ok l s cb d : device_ok d -> l ∉ listeners_list d -> length s = 128%nat ->
  exists d', create_listener l s cb d = Ret d' /\ device_ok d' /\ listeners_list d' = listeners_list d ++ [l] /\
    listeners d' !! l = Some (mkListener cb (empty_ring s)) /\
    (forall l', l' <> l -> listeners d' !! l' = listeners d !! l').
Proof.
  intros [Hb Hnd Hls] Hl Hs. unfold create_listener. rewrite link_tail_Ret by done. cbn [obind].
  eexists. split; [done|]. simpl. split; [split; simpl|].
  - done.
  - by apply NoDup_snoc.
  - intros l' [Hl'| ->%list_elem_of_singleton]%elem_of_app.
    + rewrite lookup_insert_ne by (intros ->; done). by apply Hls.
    + rewrite lookup_insert_eq. eexists. split; [done|]. by apply buffer_ok_empty.
  - split; [done|]. split; [apply lookup_insert_eq|]. intros l' Hne. by apply lookup_insert_ne.
Qed.

Lemma remove_listener_ok l d : device_ok d -> l ∈ listeners_list d ->
  exists d', remove_listener l d = Ret d' /\ device_ok d' /\ l ∉ listeners_list d' /\
    (forall l', l' <> l -> (l' ∈ listeners_list d' <-> l' ∈ listeners_list d) /\ listeners d' !! l' = listeners d !! l').
Proof.
  intros [Hb Hnd Hls] Hl. unfold remove_listener. rewrite unlink_Ret by done. cbn [obind].
  eexists. split; [done|]. simpl. split; [split; simpl|split].
  - done.
  - by apply NoDup_filter.
  - intros l' [Hne Hl']%list_elem_of_filter. rewrite lookup_delete_ne by done. by apply Hls.
  - by intros [? _]%list_elem_of_filter.
  - intros l' Hne. rewrite list_elem_of_filter, lookup_delete_ne by done. tauto.
Qed.

(** ** The debug keys *)

Lemma either_key_down b K i j : keys_down b K -> 0 <= i < KEY_CNT -> 0 <= j < KEY_CNT ->
  either_key b i j = Ret (bool_decide (i ∈ K) || bool_decide (j ∈ K)).
Proof. intros Hb Hi Hj. unfold either_key. rewrite (Hb i Hi). cbn [obind]. by destruct (bool_decide _); [|rewrite (Hb j Hj)]. Qed.

Lemma read_one r n out r' : buffer_ok r -> read r 1 = (n, out, r') -> buffer_ok r' /\
  ((n = 0 /\ queued r = []) \/ exists ev, n = 1 /\ out = [ev] /\ queued r = untimed ev :: queued r').
Proof.
  intros Hb Hr. pose proof Hb as [Hwf Hs]. apply read_out in Hr as [-> Ht]; [|done|lia].
  destruct (truncate_queued r 1 Hb ltac:(lia)) as [Hb' Hq']. rewrite Ht in Hb', Hq'. cbn [snd] in *. split; [done|].
  apply truncate_spec in Ht as (-> & _); [|done|lia]. pose proof (length_contents r Hwf) as Hl.
  unfold queued in *. destruct (contents r) as [|ev l]; simpl in *; [left; split; [lia|done]|].
  right. exists ev. replace (Z.min 1 _) with 1 by lia. split_and!; try done. rewrite Hq'. done.
Qed.

Lemma debug_loop_ok fuel keys K r w : keys_down keys K -> buffer_ok r -> (length (queued r) < fuel)%nat ->
  exists r' w', debug_loop fuel keys r w = Ret (r', w') /\ buffer_ok r' /\ w_krn w' = w_krn w.
Proof.
  intros Hk. revert r w. induction fuel as [|fuel IH]; intros r w Hb Hf; [lia|]. cbn [debug_loop].
  destruct (read r 1) as [[n out] r1] eqn:Er. apply read_one in Er as [Hb1 [[-> _]|(ev & -> & -> & Hq)]]; [eauto| |done].
  cbn [obind deref head]. destruct (_ || _); [eauto|]. unfold is_shift, is_alt.
  rewrite !(either_key_down keys K) by (done || (unfold KEY_CNT; unfold KEY_LEFTSHIFT, KEY_RIGHTSHIFT, KEY_LEFTALT, KEY_RIGHTALT; lia)).
  cbn [obind]. rewrite Hq in Hf. cbn [length] in Hf.
  destruct (_ || _); cbn [obind]; (edestruct (IH r1) as (r' & w' & -> & ? & Hw); [done|lia|]);
    (exists r', w'; split; [done|]; split; [done|]; rewrite Hw; by case_if).
Qed.

Lemma debug_callback_ok : callback_ok debug_callback.
Proof.
  intros keys K caps b w Hk Hb _. unfold debug_callback.
  destruct (debug_loop_ok (S (Z.to_nat (RingBuffer.data_count b))) keys K b w Hk Hb) as (r' & w' & -> & ? & Hw).
  - rewrite <- length_queued by done. lia.
  - exists r', w'. by rewrite Hw.
Qed.

(** ** Examples *)

Definition no_event : InputEvent := mkInputEvent (0, 0) 0 0 0.
Definition blank_events : list InputEvent := replicate 128 no_event.
Definition sample_terminal : tty.Terminal := tty.Terminal_init (tty.mkTerminal [] [] (-1) (-1)).
Definition sample_world : world :=
  mkWorld sample (fun n => (Z.of_nat n, 0)) (empty_ring (replicate 4096 0)) sample_terminal true 0.
(** Two listeners: an event node at 1, the debug keys at 2. *)
Definition sample_device : InputDevice :=
  let d := InputDevice_init 100 blank_events in
  ret_of d (let! d := create_listener 1 blank_events None d in create_listener 2 blank_events (Some debug_callback) d).

Lemma sample_device_ok : device_ok sample_device /\ callbacks_ok sample_device /\ reports sample_device ∅ [].
Proof.
  destruct (InputDevice_init_ok 100 blank_events eq_refl) as [Hd Hr].
  destruct (create_listener_ok 1 blank_events None _ Hd) as (d1 & H1 & Hd1 & El1 & Hx1 & Ho1); [apply not_elem_of_nil|done|].
  destruct (create_listener_ok 2 blank_events (Some debug_callback) d1 Hd1) as (d2 & H2 & Hd2 & El2 & Hx2 & Ho2);
    [rewrite El1; apply not_elem_of_cons; split; [done|apply not_elem_of_nil]|done|].
  assert (sample_device = d2) as -> by (unfold sample_device; rewrite H1; cbn [obind]; by rewrite H2).
  split; [done|]. split.
  - intros l x f. destruct (decide (l = 2)) as [->|]; [|rewrite Ho2 by done].
    { rewrite Hx2. intros [= <-] [= <-]. apply debug_callback_ok. }
    destruct (decide (l = 1)) as [->|]; [rewrite Hx1; by intros [= <-]|]. by rewrite Ho1.
  - unfold create_listener in *. inv_ret. done.
Qed.
