(* ===== verification/InputProps.v ===== *)
(** * Input devices: what programs read

    Every listener is given each report whole, or told that it missed some; the packets
    of a PS/2 mouse are the buttons and the motion they encode. *)

From S2P Require Import Prelude Algorithm CString RingBuffer Links Sched SchedFacts SchedLinks SchedProps TimeProps Printf Tty Input InputFacts.

Import input.

(** ** Any sequence of events *)

Fixpoint push_all (evs : list (Z * Z * Z)) (d : InputDevice) (w : world) : InputDevice * world :=
  match evs with
  | [] => (d, w)
  | (t, c, v) :: evs => let (d, w) := push_event t c v d w in push_all evs d w
  end.

Lemma push_all_pushed evs d w K q d' w' : reports d K q -> (length q + length evs <= 128)%nat ->
  push_all evs d w = (d', w') -> pushed d w K q evs K d' w'.
Proof.
  revert d w q. induction evs as [|[[t c] v] evs IH]; intros d w q Hr Hl; cbn [push_all length] in *.
  - intros [= <- <-]. by apply pushed_nil.
  - destruct (push_event t c v d w) as [d1 w1] eqn:Ep. apply (push_event_pushed _ _ _ _ _ _ _ _ _ Hr) in Ep; [|lia].
    intros Hp. change ((t, c, v) :: evs) with ([(t, c, v)] ++ evs). eapply pushed_app; [exact Ep|].
    apply IH; [apply Ep|rewrite length_app; simpl; lia|exact Hp].
Qed.

(** C23.  Whatever a device reports, every listener without a callback (an open event
    node) that had [old] unread has the whole report after it, closed by a report marker, or,
    when its buffer has no room, a marker that events were dropped and then the report; a read
    returns the oldest of them in order, [-EWOULDBLOCK] or a wait only when there is nothing. The
    device's own queue is empty again and everyone asleep on its event runs. The report is
    of at most 126 events: of the 128 that fit with the marker, the last would be lost when
    events were dropped. *)
Theorem listeners_get_reports d w K evs : device_ok d -> callbacks_ok d -> reports d K [] ->
  sched_wf (w_krn w) -> is_Some (events (w_krn w) !! event d) -> evs <> [] -> (length evs <= 126)%nat ->
  let (d1, w1) := push_all evs d w in
  exists d' w', flush_events d1 w1 = Ret (d', w') /\ reports d' K [] /\ device_ok d' /\
    wakes (w_krn w) (w_krn w') (event d) /\
    forall l x, l ∈ listeners_list d -> listeners d !! l = Some x -> callback x = None ->
      exists x', listeners d' !! l = Some x' /\
        let old := queued (event_buffer x) in
        let new := (if (length old + length evs <? 128)%nat then old else [dropped]) ++ evs ++ [report] in
        queued (event_buffer x') = new /\
        forall count blocking, 0 < count -> exists n out y, listener_read x' count blocking = Return n out y /\
          map untimed out = take (Z.to_nat count) new /\ n = Z.of_nat (length out) /\
          queued (event_buffer y) = drop (Z.to_nat count) new.
Proof.
  intros Hd Hc Hr Hw He Hne Hl. destruct (push_all evs d w) as [d1 w1] eqn:Ep.
  apply (push_all_pushed _ _ _ _ _ _ _ Hr) in Ep; [|simpl; lia].
  destruct (flush_pushed _ _ _ _ _ _ _ Hd Hc Hw He Ep) as (d' & w' & Hf & Hr' & Hd' & _ & Hwk & Hdel).
  exists d', w'. split; [done|]. split; [done|]. split; [done|]. split; [done|]. intros l x Hin Hx Hcb.
  destruct (Hdel l x Hin Hx) as (x' & Hx' & _ & Hb & Hq). exists x'. split; [done|]. rewrite Hcb in Hq.
  assert (queued (event_buffer x') = (if (length (queued (event_buffer x)) + length evs <? 128)%nat
    then queued (event_buffer x) else [dropped]) ++ evs ++ [report]) as Hnew.
  { rewrite Hq. unfold after_delivery, batch_of. destruct evs as [|ev evs]; [done|].
    replace (length (ev :: evs) + 1 - 128)%nat with 0%nat by lia. rewrite drop_0, length_app.
    change (length [report]) with 1%nat.
    destruct (Nat.ltb_spec 128 (length (queued (event_buffer x)) + (length (ev :: evs) + 1)));
      (destruct (Nat.ltb_spec (length (queued (event_buffer x)) + length (ev :: evs)) 128)); try lia; [|done].
    rewrite take_ge; [done|]. rewrite length_cons, length_app. change (length [report]) with 1%nat. lia. }
  cbv zeta. rewrite <- Hnew. split; [done|]. intros count blocking Hcount. unfold listener_read.
  destruct (is_empty (event_buffer x')) eqn:Hem.
  { apply contents_nil_iff in Hem; [|apply Hb]. unfold queued in Hnew at 1. rewrite Hem in Hnew.
    symmetry in Hnew. apply app_eq_nil in Hnew as [_ Hnil]. apply app_eq_nil in Hnil as [_ ?]. done. }
  destruct (read (event_buffer x') count) as [[n out] r] eqn:Er. eexists _, _, _. split; [done|].
  apply read_out in Er as [-> Ht]; [|apply Hb|lia].
  pose proof (truncate_queued _ count Hb ltac:(lia)) as [_ Hq']. rewrite Ht in Hq'. cbn [snd] in Hq'.
  apply truncate_spec in Ht as (-> & _); [|apply Hb|lia].
  pose proof (length_contents _ (proj1 Hb)) as Hlen. simpl. split; [|split; [|done]].
  - unfold queued. rewrite <- firstn_map. destruct (decide (count <= RingBuffer.data_count (event_buffer x'))).
    + f_equal. lia.
    + rewrite !take_ge; [done|rewrite length_map; lia..].
  - rewrite length_take. lia.
Qed.

Lemma listeners_get_reports_witness :
  let (d1, w1) := push_all [(EV_KEY, 30, 1)] sample_device sample_world in
  exists d' w', flush_events d1 w1 = Ret (d', w') /\ exists x', listeners d' !! 1 = Some x' /\
    queued (event_buffer x') = [(EV_KEY, 30, 1); report].
Proof.
  destruct sample_device_ok as (Hd & Hc & Hr).
  pose proof (listeners_get_reports sample_device sample_world ∅ [(EV_KEY, 30, 1)] Hd Hc Hr sample_wf) as H.
  destruct (push_all _ _ _) as [d1 w1].
  destruct H as (d' & w' & Hf & _ & _ & _ & Hl); [eexists; reflexivity|done|simpl; lia|].
  exists d', w'. split; [exact Hf|]. destruct (Hl 1 (mkListener None (empty_ring blank_events))) as (x' & Hx & Hq & _).
  - change (listeners_list sample_device) with [1; 2]. left.
  - reflexivity.
  - reflexivity.
  - exists x'. split; [exact Hx|]. rewrite Hq. vm_compute. reflexivity.
Defined.

(** ** PS/2 mice *)

Lemma length_key_events K key st : (length (key_events K key st) <= 1)%nat.
Proof. unfold key_events. destruct (Bool.eqb _ _); simpl; lia. Qed.
Lemma length_motion_events a v : (length (motion_events a v) <= 1)%nat.
Proof. unfold motion_events. destruct (v =? 0); simpl; lia. Qed.

(** The buttons and what has moved; [dy] is up, [wheel] towards the user. *)
Record packet := mkPacket { left : bool; right : bool; middle : bool; side : bool; extra : bool; dx : Z; dy : Z; wheel : Z }.

Definition bit (b : bool) (n : Z) : Z := if b then n else 0.
Definition packet_bytes (has_wheel : bool) (p : packet) : list Z :=
  [8 + bit (left p) 1 + bit (right p) 2 + bit (middle p) 4 + bit (dx p <? 0) 16 + bit (dy p <? 0) 32;
   dx p mod 256; dy p mod 256] ++
  if has_wheel then [wheel p + bit (side p) 16 + bit (extra p) 32] else [].

Definition packet_buttons (five : bool) (p : packet) : list (Z * bool) :=
  [(BTN_LEFT, left p); (BTN_RIGHT, right p); (BTN_MIDDLE, middle p)] ++
  if five then [(BTN_SIDE, side p); (BTN_EXTRA, extra p)] else [].
Fixpoint buttons_events (K : gset Z) (l : list (Z * bool)) : list (Z * Z * Z) :=
  match l with
  | [] => []
  | (key, st) :: l => key_events K key st ++ buttons_events (hold key st K) l
  end.
Definition buttons_held (K : gset Z) (l : list (Z * bool)) : gset Z := foldl (fun K '(key, st) => hold key st K) K l.

(** What a packet reports on a mouse whose buttons held are those of [K]. *)
Definition packet_events (has_wheel five : bool) (K : gset Z) (p : packet) : list (Z * Z * Z) :=
  buttons_events K (packet_buttons five p) ++ motion_events REL_X (dx p) ++ motion_events REL_Y (- dy p) ++
  if has_wheel then motion_events REL_WHEEL (- wheel p) else [].

Fixpoint process_buttons (l : list (Z * bool)) (d : InputDevice) (w : world) : outcome (InputDevice * world) :=
  match l with
  | [] => Ret (d, w)
  | (key, st) :: l => let! (d, w) := process_button key st d w in process_buttons l d w
  end.

Lemma process_buttons_pushed l d w K q : reports d K q -> (length q + length l <= 128)%nat ->
  Forall (fun x => 0 <= fst x < KEY_CNT) l ->
  exists d' w', process_buttons l d w = Ret (d', w') /\ pushed d w K q (buttons_events K l) (buttons_held K l) d' w'.
Proof.
  revert d w K q. induction l as [|[key st] l IH]; intros d w K q Hr Hl Hk; cbn [process_buttons buttons_events length] in *.
  - eexists _, _. split; [done|]. by apply pushed_nil.
  - inversion Hk as [|? ? Hkey Hrest]; subst.
    destruct (process_button_pushed key st d w K q Hr ltac:(lia) Hkey) as (d1 & w1 & -> & Hp). cbn [obind].
    pose proof (length_key_events K key st).
    destruct (IH d1 w1 (hold key st K) (q ++ key_events K key st)) as (d' & w' & -> & Hp'); [apply Hp|rewrite length_app; lia|done|].
    eexists _, _. split; [done|]. by eapply pushed_app.
Qed.

Lemma length_buttons_events K l : (length (buttons_events K l) <= length l)%nat.
Proof.
  revert K. induction l as [|[key st] l IH]; intros K; simpl; [lia|]. rewrite length_app.
  pose proof (length_key_events K key st). specialize (IH (hold key st K)). lia.
Qed.

(** The motions after the buttons. *)
Fixpoint push_motions (l : list (Z * Z)) (d : InputDevice) (w : world) : InputDevice * world :=
  match l with
  | [] => (d, w)
  | (axis, v) :: l => let (d, w) := push_motion axis v d w in push_motions l d w
  end.
Definition motions_events (l : list (Z * Z)) : list (Z * Z * Z) := flat_map (fun '(axis, v) => motion_events axis v) l.

Lemma push_motions_pushed l d w K q d' w' : reports d K q -> (length q + length l <= 128)%nat ->
  push_motions l d w = (d', w') -> pushed d w K q (motions_events l) K d' w'.
Proof.
  revert d w q. induction l as [|[axis v] l IH]; intros d w q Hr Hl; cbn [push_motions length] in *.
  - intros [= <- <-]. by apply pushed_nil.
  - destruct (push_motion axis v d w) as [d1 w1] eqn:Ep. apply (push_motion_pushed _ _ _ _ _ _ _ _ Hr) in Ep; [|lia].
    intros Hp. pose proof (length_motion_events axis v). cbn [motions_events flat_map].
    eapply pushed_app; [exact Ep|]. apply IH; [apply Ep|rewrite length_app; lia|exact Hp].
Qed.

(** The bits of a packet. *)
Lemma first_byte l r m x y : let b := 8 + bit l 1 + bit r 2 + bit m 4 + bit x 16 + bit y 32 in
  (b &? 1) = l /\ (b &? 2) = r /\ (b &? 4) = m /\ (b &? 8) = true /\ (b &? 16) = x /\ (b &? 32) = y.
Proof. destruct l, r, m, x, y; vm_compute; done. Qed.
Lemma last_byte z s e : 0 <= z <= 7 -> let b := z + bit s 16 + bit e 32 in
  (b &? 16) = s /\ (b &? 32) = e /\ Z.land b 7 * (if b &? 8 then 1 else -1) = - z.
Proof.
  intros Hz. assert (z = 0 \/ z = 1 \/ z = 2 \/ z = 3 \/ z = 4 \/ z = 5 \/ z = 6 \/ z = 7) as Hs by lia.
  destruct s, e; repeat destruct Hs as [->|Hs]; subst; vm_compute; done.
Qed.
Lemma motion_byte v : -256 <= v <= 255 -> v mod 256 - (if v <? 0 then 256 else 0) = v.
Proof. intros Hv. destruct (Z.ltb_spec v 0); lia. Qed.

Lemma mouse_packet_pushed m p w K q : reports (ms_device m) K q -> (length q < 100)%nat ->
  -256 <= dx p <= 255 -> -256 <= dy p <= 255 -> 0 <= wheel p <= 7 ->
  forall b0 b1 b2 b3, [b0; b1; b2; b3] = packet_bytes true p \/ has_wheel m = false /\ has_five_buttons m = false /\ [b0; b1; b2] = packet_bytes false p ->
  exists d w', mouse_packet m b0 b1 b2 b3 w = flush_events d w' /\
    pushed (ms_device m) w K q (packet_events (has_wheel m) (has_five_buttons m) K p)
      (buttons_held K (packet_buttons (has_five_buttons m) p)) d w'.
Proof.
  intros Hr Hq Hx Hy Hz b0 b1 b2 b3 Hb.
  destruct (process_buttons_pushed (packet_buttons (has_five_buttons m) p) (ms_device m) w K q Hr) as (d1 & w1 & Hbs & Hp).
  { unfold packet_buttons. destruct (has_five_buttons m); simpl; lia. }
  { unfold packet_buttons. apply Forall_app. split; [|destruct (has_five_buttons m)]; repeat constructor; done. }
  pose proof (length_buttons_events K (packet_buttons (has_five_buttons m) p)) as Hlb.
  assert (length (packet_buttons (has_five_buttons m) p) <= 5)%nat as Hl5
    by (unfold packet_buttons; destruct (has_five_buttons m); simpl; lia).
  set (ms := [(REL_X, dx p); (REL_Y, - dy p)] ++ if has_wheel m then [(REL_WHEEL, - wheel p)] else []).
  destruct (push_motions ms d1 w1) as [d2 w2] eqn:Hms. exists d2, w2.
  pose proof (push_motions_pushed ms d1 w1 _ _ d2 w2 (proj1 Hp)) as Hp2. split.
  - destruct (first_byte (left p) (right p) (middle p) (dx p <? 0) (dy p <? 0)) as (F1 & F2 & F4 & _ & F16 & F32).
    assert (b0 = 8 + bit (left p) 1 + bit (right p) 2 + bit (middle p) 4 + bit (dx p <? 0) 16 + bit (dy p <? 0) 32 /\
            b1 = dx p mod 256 /\ b2 = dy p mod 256) as (-> & -> & ->).
    { destruct Hb as [[= -> -> -> _]|(_ & _ & [= -> -> ->])]; done. }
    cbv zeta in F1, F2, F4, F16, F32. unfold mouse_packet. rewrite F1, F2, F4, F16, F32, !motion_byte by done. clear F1 F2 F4 F16 F32.
    unfold packet_buttons in Hbs. cbn [app process_buttons] in Hbs.
    destruct (process_button BTN_LEFT (left p) _ _) as [[da wa]| |]; try done. cbn [obind] in *.
    destruct (process_button BTN_RIGHT (right p) _ _) as [[db wb]| |]; try done. cbn [obind] in *.
    destruct (process_button BTN_MIDDLE (middle p) _ _) as [[dc wc]| |]; try done. cbn [obind] in *.
    destruct Hb as [[= ->]|(Hw & Hf & _)].
    + destruct (last_byte (wheel p) (side p) (extra p) Hz) as (G16 & G32 & Gw). cbv zeta in G16, G32, Gw. rewrite G16, G32, Gw.
      assert (exists dd wd, (if has_five_buttons m then let! (d, w) := process_button BTN_SIDE (side p) dc wc in
        process_button BTN_EXTRA (extra p) d w else Ret (dc, wc)) = Ret (dd, wd) /\ (dd, wd) = (d1, w1)) as (dd & wd & -> & [= -> ->]).
      { destruct (has_five_buttons m); cbn [process_buttons] in Hbs.
        - destruct (process_button BTN_SIDE (side p) _ _) as [[de we]| |]; try done. cbn [obind] in *.
          destruct (process_button BTN_EXTRA (extra p) _ _) as [[df wf]| |]; try done. cbn [obind] in *. simplify_eq. eauto.
        - simplify_eq. eauto. }
      cbn [obind]. unfold ms in Hms. cbn [push_motions app] in Hms.
      destruct (push_motion REL_X (dx p) _ _) as [de we]. destruct (push_motion REL_Y _ _ _) as [df wf].
      destruct (has_wheel m); cbn [push_motions] in Hms; [|by simplify_eq].
      destruct (push_motion REL_WHEEL _ _ _) as [dg wg]. by simplify_eq.
    + rewrite Hf in Hbs |- *. cbn [process_buttons obind] in *. simplify_eq. unfold ms in Hms. rewrite Hw in Hms |- *.
      cbn [push_motions app] in Hms.
      destruct (push_motion REL_X (dx p) _ _) as [de we]. destruct (push_motion REL_Y _ _ _) as [df wf]. by simplify_eq.
  - eapply pushed_app; [exact Hp|].
    assert (motion_events REL_X (dx p) ++ motion_events REL_Y (- dy p) ++
      (if has_wheel m then motion_events REL_WHEEL (- wheel p) else []) = motions_events ms) as ->.
    { unfold ms, motions_events. destruct (has_wheel m); simpl; by rewrite ?app_nil_r. }
    apply Hp2; [|exact Hms]. rewrite length_app.
    assert (length ms <= 3)%nat by (unfold ms; destruct (has_wheel m); simpl; lia). lia.
Qed.

(** A mouse between packets, with the buttons of [K] held. *)
Record ready (m : Mouse) (K : gset Z) : Prop := {
  ready_device : device_ok (ms_device m);
  ready_callbacks : callbacks_ok (ms_device m);
  ready_reports : reports (ms_device m) K [];
  ready_data : length (ms_data m) = 4%nat;
  ready_count : data_count m = 0;
  ready_five : has_five_buttons m = true -> has_wheel m = true
}.

Fixpoint mouse_irqs (bytes : list Z) (m : Mouse) (w : world) : outcome (Mouse * world) :=
  match bytes with
  | [] => Ret (m, w)
  | b :: bytes => let! (m, w) := mouse_irq b m w in mouse_irqs bytes m w
  end.

(** A byte that does not end its packet, and one that does. *)
Lemma mouse_irq_more byte d (hw hf : bool) (ms : list Z) (n : nat) w b0 : (n < length ms)%nat ->
  <[n := byte]> ms !! 0%nat = Some b0 -> (b0 &? 8) = true -> Z.of_nat n + 1 <> (if hw then 4 else 3) ->
  mouse_irq byte (mkMouse d hw hf ms (Z.of_nat n)) w = Ret (mkMouse d hw hf (<[n := byte]> ms) (Z.of_nat n + 1), w).
Proof.
  intros Hn H0 H8 Hne. destruct (lookup_lt_is_Some_2 _ _ Hn) as [y Hy]. unfold mouse_irq, upd. cbn [ms_data data_count].
  rewrite Nat2Z.id, Hy. cbn [obind deref]. rewrite H0. cbn [obind deref]. rewrite H8. simpl.
  rewrite (proj2 (Z.eqb_neq _ _)) by (unfold Z.succ; lia). done.
Qed.

Lemma mouse_irq_last byte d (hw hf : bool) (ms : list Z) (n : nat) w b0 b1 b2 b3 : (n < length ms)%nat ->
  <[n := byte]> ms = [b0; b1; b2; b3] -> (b0 &? 8) = true -> Z.of_nat n + 1 = (if hw then 4 else 3) ->
  mouse_irq byte (mkMouse d hw hf ms (Z.of_nat n)) w =
    let! (d', w) := mouse_packet (mkMouse d hw hf [b0; b1; b2; b3] 0) b0 b1 b2 b3 w in
    Ret (mkMouse d' hw hf [b0; b1; b2; b3] 0, w).
Proof.
  intros Hn H0 H8 He. destruct (lookup_lt_is_Some_2 _ _ Hn) as [y Hy]. unfold mouse_irq, upd. cbn [ms_data data_count].
  rewrite Nat2Z.id, Hy. cbn [obind deref]. rewrite H0. cbn [obind deref lookup list_lookup]. rewrite H8. simpl.
  rewrite (proj2 (Z.eqb_eq _ _)) by (unfold Z.succ; lia). done.
Qed.

(** The interrupts of a packet's bytes. *)
Lemma mouse_irqs_packet m K p w : ready m K -> 0 <= wheel p <= 7 ->
  exists b0 b1 b2 b3 m1, mouse_irqs (packet_bytes (has_wheel m) p) m w =
      (let! (d, w) := mouse_packet m1 b0 b1 b2 b3 w in Ret (m1 <| ms_device := d |>, w)) /\
    m1 = m <| ms_data := [b0; b1; b2; b3] |> /\
    ([b0; b1; b2; b3] = packet_bytes true p \/
     has_wheel m = false /\ has_five_buttons m = false /\ [b0; b1; b2] = packet_bytes false p).
Proof.
  intros Hm Hz. destruct m as [d hw hf ms n]. pose proof (ready_data _ _ Hm) as Hl. pose proof (ready_count _ _ Hm) as Hn.
  pose proof (ready_five _ _ Hm) as Hf. cbn [has_wheel has_five_buttons ms_data data_count] in *. subst n.
  destruct ms as [|a [|b [|c [|e [|? ?]]]]]; try done.
  destruct (first_byte (left p) (right p) (middle p) (dx p <? 0) (dy p <? 0)) as (_ & _ & _ & F8 & _).
  unfold packet_bytes. cbv zeta in F8.
  set (b0 := 8 + _ + _ + _ + _ + _) in *. set (b1 := dx p mod 256). set (b2 := dy p mod 256). set (b3 := wheel p + _ + _).
  cbn [app mouse_irqs]. change (mkMouse d hw hf [a; b; c; e] 0) with (mkMouse d hw hf [a; b; c; e] (Z.of_nat 0)).
  rewrite (mouse_irq_more b0 d hw hf [a; b; c; e] 0 w b0) by (done || (simpl; lia) || (destruct hw; lia)). cbn [obind].
  change (Z.of_nat 0 + 1) with (Z.of_nat 1).
  rewrite (mouse_irq_more b1 d hw hf _ 1 w b0) by (done || (simpl; lia) || (destruct hw; lia)). cbn [obind].
  change (Z.of_nat 1 + 1) with (Z.of_nat 2). destruct hw.
  - rewrite (mouse_irq_more b2 d true hf _ 2 w b0) by (done || (simpl; lia)). cbn [obind mouse_irqs].
    change (Z.of_nat 2 + 1) with (Z.of_nat 3).
    rewrite (mouse_irq_last b3 d true hf _ 3 w b0 b1 b2 b3) by (done || (simpl; lia)).
    exists b0, b1, b2, b3. eexists. split; [|split; [done|by left]]. unfold upd. cbn [ms_data].
    by destruct (mouse_packet _ _ _ _ _ _) as [[]| |].
  - rewrite (mouse_irq_last b2 d false hf _ 2 w b0 b1 b2 e) by (done || (simpl; lia)).
    exists b0, b1, b2, e. eexists. split; [|split; [done|right]].
    + unfold upd. by destruct (mouse_packet _ _ _ _ _ _) as [[]| |].
    + split; [done|]. split; [|done]. by destruct hf; [specialize (Hf eq_refl)|].
Qed.


(** A wheel mouse with an event node at 1. *)
Definition sample_mouse : Mouse :=
  mkMouse (ret_of sample_device (create_listener 1 blank_events None (InputDevice_init 100 blank_events)))
    true false [0; 0; 0; 0] 0.

Lemma sample_mouse_ready : ready sample_mouse ∅.
Proof.
  destruct (InputDevice_init_ok 100 blank_events eq_refl) as [Hd Hr].
  destruct (create_listener_ok 1 blank_events None _ Hd) as (d1 & H1 & Hd1 & _ & Hx1 & Ho1); [apply not_elem_of_nil|done|].
  unfold sample_mouse. rewrite H1. cbn [ret_of]. split; try done.
  - intros l x f. cbn [ms_device]. destruct (decide (l = 1)) as [->|]; [rewrite Hx1; by intros [= <-]|]. by rewrite Ho1.
  - unfold create_listener in H1. inv_ret. done.
Qed.


(** The event nodes of a state: what the listener at 1 has unread. *)
Definition unread (d : InputDevice) : list (Z * Z * Z) :=
  match listeners d !! 1 with Some x => queued (event_buffer x) | None => [] end.

(** A wheel turned one step away from the user, -1 in four bits, is reported as seven steps. *)
Lemma wheel_up_is_seven :
  (let! (m, _) := mouse_irqs [8; 0; 0; 15] sample_mouse sample_world in Ret (unread (ms_device m))) =
    Ret [(EV_REL, REL_WHEEL, 7); report].
Proof. vm_compute. reflexivity. Qed.

(** ** PS/2 keyboards *)

Fixpoint keyboard_irqs (bytes : list Z) (kb : Keyboard) (w : world) : outcome (Keyboard * world) :=
  match bytes with
  | [] => Ret (kb, w)
  | b :: bytes => let! (kb, w) := keyboard_irq b kb w in keyboard_irqs bytes kb w
  end.

(** A key reports 1 when it goes down, 2 while it repeats and 0 when it goes up. *)
Definition key_value (K : gset Z) (key : Z) (release : bool) : Z :=
  if release then 0 else if bool_decide (key ∈ K) then 2 else 1.

(** The bits of a scan code. *)
Lemma scancode_bits key release : 0 < key < 96 -> let sc := key + bit release 128 in
  sc <> 224 /\ (sc &? 128) = release /\ Z.land sc 127 = key.
Proof.
  intros Hk. assert (Forall (fun key => (key + 128 <> 224 /\ flag (key + 128) 128 = true /\ Z.land (key + 128) 127 = key) /\
    (key + 0 <> 224 /\ flag (key + 0) 128 = false /\ Z.land (key + 0) 127 = key)) (seqZ 1 95)) as Hall
    by (apply (bool_decide_unpack _); vm_compute; done).
  rewrite Forall_forall in Hall. destruct (Hall key) as [H1 H0]; [apply elem_of_seqZ; lia|]. by destruct release.
Qed.

(** The interrupt of a scan code of an ordinary key. *)
Lemma keyboard_irq_spec key release d K w : device_ok d -> callbacks_ok d -> reports d K [] ->
  sched_wf (w_krn w) -> is_Some (events (w_krn w) !! event d) -> 0 < key < 96 ->
  exists d' w', keyboard_irq (key + bit release 128) (mkKeyboard d false) w = Ret (mkKeyboard d' false, w') /\
    device_ok d' /\ reports d' (hold key (negb release) K) [] /\ sched_wf (w_krn w') /\
    forall l x, l ∈ listeners_list d -> listeners d !! l = Some x -> callback x = None ->
      exists x', listeners d' !! l = Some x' /\ queued (event_buffer x') =
        after_delivery (queued (event_buffer x)) [(EV_KEY, key, key_value K key release); report].
Proof.
  intros Hd Hc Hr Hw He Hk. unfold keyboard_irq. cbn [kb_device extended].
  destruct (scancode_bits key release Hk) as (Hne & Hrel & Hkey). rewrite (proj2 (Z.eqb_neq _ _) Hne), Hrel, Hkey.
  pose proof Hr as (Hb & Hq & Hkeys). assert (0 <= key < KEY_CNT) as Hrange by (unfold KEY_CNT; lia).
  rewrite (Hkeys key Hrange). cbn [obind].
  set (rep := negb release && _).
  assert (exists b, (if rep then Ret (key_status d) else Bitmap.set (key_status d) key (negb release)) = Ret b /\
    keys_down b (hold key (negb release) K)) as (b & -> & Hkb).
  { destruct (keys_down_set _ K key (negb release) Hkeys Hrange) as (b & Hset & Hb'). unfold rep.
    destruct release, (bool_decide_reflect (key ∈ K)) as [Hin|Hin]; cbn [negb andb]; try by exists b.
    exists (key_status d). split; [done|]. cbn [hold]. by replace ({[key]} ∪ K) with K by set_solver. }
  cbn [obind]. destruct (push_event _ _ _ _ w) as [d1 w1] eqn:Ep.
  apply (push_event_pushed _ _ _ _ _ (hold key (negb release) K) []) in Ep as Hp; [|done|simpl; lia].
  assert (pushed d w K [] [(EV_KEY, key, key_value K key release)] (hold key (negb release) K) d1 w1) as Hp'.
  { destruct Hp as (H1 & H2 & H3). split; [|split; [|done]].
    - replace (key_value K key release) with (if rep then 2 else if release then 0 else 1); [done|].
      unfold rep, key_value. by destruct release, (bool_decide _).
    - etrans; [apply same_device_keys|done]. }
  destruct (flush_pushed _ _ _ _ _ _ _ Hd Hc Hw He Hp') as (d' & w' & -> & Hr' & Hd' & Ha & _ & Hl). cbn [obind].
  exists d', w'. split; [done|]. split; [done|]. split; [done|]. split; [by apply (adv_wf _ _ Ha)|].
  intros l x Hin Hx Hcb. destruct (Hl l x Hin Hx) as (x' & Hx' & _ & _ & Hq'). exists x'. rewrite Hcb in Hq'. done.
Qed.

Definition sample_keyboard (d : InputDevice) : Keyboard := mkKeyboard d false.

(** The shift that keyboards send around an arrow, after the extension byte, is taken for the
    left shift key. *)
Lemma fake_shift_pressed :
  (let! (kb, _) := keyboard_irqs [224; 42] (sample_keyboard sample_device) sample_world in
   let! s := is_shift (key_status (kb_device kb)) in Ret (unread (kb_device kb), s)) =
    Ret ([(EV_KEY, KEY_LEFTSHIFT, 1); report], true).
Proof. vm_compute. reflexivity. Qed.

(** The debug keys, shift and alt and delete together, print nothing once any key has been
    released: the callback stops at the release and is a report behind from then on. *)
Lemma debug_keys_lag :
  (let! (_, w) := keyboard_irqs [42; 56; 224; 83] (sample_keyboard sample_device) sample_world in
   Ret (w_threads_printed w)) = Ret 1 /\
  (let! (_, w) := keyboard_irqs [30; 30 + 128; 42; 56; 224; 83] (sample_keyboard sample_device) sample_world in
   Ret (w_threads_printed w)) = Ret 0.
Proof. split; vm_compute; reflexivity. Qed.

(** The console listens: what is typed. *)
Definition console_device : InputDevice :=
  let d := InputDevice_init 100 blank_events in
  ret_of d (create_listener 1 blank_events (Some console_callback) d).
Definition typed (scancodes : list Z) : outcome (list Z) :=
  let! (_, w) := keyboard_irqs scancodes (sample_keyboard console_device) sample_world in Ret (contents (w_console w)).

Example typing : typed [42; 35; 35 + 128; 42 + 128; 23; 23 + 128] = Ret (bytes "Hi").
Proof. vm_compute. reflexivity. Qed.

(** Caps lock does nothing: no key sets it. *)
Lemma caps_lock_does_nothing : typed [58; 58 + 128; 35; 35 + 128] = Ret (bytes "h").
Proof. vm_compute. reflexivity. Qed.
