(* ===== verification/Hid.v ===== *)
(** * USB keyboards and mice: dev/input/usbhid

    The report descriptor of a device, a sequence of items, is read into the fields of
    its reports; each report is then read field by field and turned into input events. *)

From S2P Require Import Prelude Algorithm CString RingBuffer Sched Printf Input.

Module usbhid.
Import input.

(** The key of each usage of the keyboard page. *)
Definition usb_to_linux_keycode_table : list Z :=
  [240; 240; 240; 240; 30; 48; 46; 32; 18; 33; 34; 35; 23; 36; 37; 38;
   50; 49; 24; 25; 16; 19; 31; 20; 22; 47; 17; 45; 21; 44; 2; 3;
   4; 5; 6; 7; 8; 9; 10; 11; 28; 1; 14; 15; 57; 12; 13; 26;
   27; 43; 43; 39; 40; 41; 51; 52; 53; 58; 59; 60; 61; 62; 63; 64;
   65; 66; 67; 68; 87; 88; 210; 70; 119; 110; 102; 104; 111; 107; 109; 106;
   105; 108; 103; 69; 98; 55; 74; 78; 96; 79; 80; 81; 75; 76; 77; 71;
   72; 73; 82; 83; 86; 127; 116; 117; 183; 184; 185; 186; 187; 188; 189; 190;
   191; 192; 193; 194; 240; 138; 139; 353; 128; 129; 131; 137; 133; 135; 136; 113;
   115; 114; 240; 240; 240; 121; 240; 89; 93; 124; 92; 95; 240; 240; 240; 240;
   122; 123; 90; 91; 85; 240; 240; 240; 240; 222; 99; 223; 355; 240; 240; 240;
   240; 240; 240; 240; 240; 240; 240; 240; 240; 240; 240; 240; 240; 240; 240; 240;
   240; 240; 240; 240; 240; 240; 179; 180; 240; 240; 240; 240; 240; 240; 240; 240;
   240; 240; 240; 240; 240; 240; 240; 240; 240; 240; 240; 240; 240; 240; 240; 240;
   240; 240; 240; 240; 240; 240; 240; 118; 240; 240; 240; 240; 240; 240; 240; 240;
   29; 42; 56; 125; 97; 54; 100; 126; 240; 240; 240; 240; 240; 240; 240; 240;
   240; 240; 240; 240; 240; 240; 240; 240; 240; 240; 240; 240; 240; 240; 240; 240].

Record InputItem := mkItem {
  size_bits : Z;
  type : Z; code : Z;                     (** of a variable *)
  usage_min : Z; usage_max : Z;           (** of an array *)
  is_array : bool; is_constant : bool;
  previous_value : Z
}.
#[export] Instance eta_InputItem : Settable InputItem := fun x =>
  mkItem (size_bits x) (type x) (code x) (usage_min x) (usage_max x) (is_array x) (is_constant x)
    (previous_value x).

Record Device := mkHid { hid_device : InputDevice; input_items : list InputItem; report_protocol_usable : bool }.
#[export] Instance eta_Device : Settable Device := fun x =>
  mkHid (hid_device x) (input_items x) (report_protocol_usable x).

(** ** The report descriptor *)

(** The global state, the local state, the items so far and whether all is valid; the
    logical minimum and maximum are read and not used. *)
Record parser := mkParser {
  usage_page : Z;
  report_size : Z;
  report_count : Z;
  usages : list Z;
  usage_minimum : Z; usage_maximum : Z;
  items : list InputItem;
  usable : bool
}.
#[export] Instance eta_parser : Settable parser := fun p =>
  mkParser (usage_page p) (report_size p) (report_count p) (usages p) (usage_minimum p) (usage_maximum p)
    (items p) (usable p).

(** The data of an item at [i]; the loop goes from [offset] for [n] bytes. *)
Fixpoint item_data (data : mem) (length i : Z) (offset : nat) (n : nat) : outcome Z :=
  match n with
  | O => Ret 0
  | S n =>
      if i + Z.of_nat offset >=? length then Ret 0 else
      let! b := deref (data !! Z.to_nat (i + Z.of_nat offset + 1)) in
      let! rest := item_data data length i (S offset) n in
      Ret (u32 (Z.shiftl b (Z.of_nat offset * 8)) .| rest)
  end.

(** The event of a usage; type 0 when there is none. *)
Definition usage_event (usage : Z) : outcome (Z * Z) :=
  if Z.shiftr usage 16 =? 7 then
    let! code := deref (usb_to_linux_keycode_table !! Z.to_nat (Z.land usage 255)) in Ret (EV_KEY, code)
  else Ret (
    if usage =? 589825 then (EV_KEY, BTN_LEFT) else if usage =? 589826 then (EV_KEY, BTN_RIGHT)
    else if usage =? 589827 then (EV_KEY, BTN_MIDDLE) else if usage =? 589828 then (EV_KEY, BTN_SIDE)
    else if usage =? 589829 then (EV_KEY, BTN_EXTRA)
    else if usage =? 65584 then (EV_REL, REL_X) else if usage =? 65585 then (EV_REL, REL_Y)
    else if usage =? 65592 then (EV_REL, REL_WHEEL) else (0, 0)).

(** The usage of the [i]th field of a variable item. *)
Definition field_usage (p : parser) (i : nat) : option Z :=
  match usages p !! i with
  | Some usage => Some usage
  | None =>
      match last (usages p) with
      | Some usage => Some usage
      | None => if negb (usage_minimum p =? 0)
                then Some (klib.min (u32 (usage_minimum p + Z.of_nat i)) (usage_maximum p)) else None
      end
  end.

(** The loop over the fields of a variable item, from the [i]th, with [n] to go. *)
Fixpoint variable_fields (i n : nat) (p : parser) : outcome parser :=
  match n with
  | O => Ret p
  | S n =>
      match field_usage p i with
      | None => Ret (p <| usable := false |>)
      | Some usage =>
          let! (type, code) := usage_event usage in
          variable_fields (S i) n
            (p <| items ::= fun l => l ++ [mkItem (report_size p) type code 0 0 false false 0] |>)
      end
  end.

Definition input_item (data : Z) (p : parser) : outcome parser :=
  if Z.testbit data 0 then
    Ret (p <| items ::= fun l => l ++ [mkItem (u32 (report_size p * report_count p)) 0 0 0 0 false true 0] |>)
  else if negb (Z.testbit data 1) then
    Ret (p <| items ::= fun l => l ++ replicate (Z.to_nat (report_count p))
           (mkItem (report_size p) 0 0 (usage_minimum p) (usage_maximum p) true false 0) |>)
  else variable_fields 0 (Z.to_nat (report_count p)) p.

(** The effect of one item, with the size its first byte gives. *)
Definition apply_item (item_type item_tag item_size data : Z) (p : parser) : outcome parser :=
  if item_type =? 0 then
    let! p := if item_tag =? 8 then input_item data p else Ret p in
    Ret (p <| usages := [] |> <| usage_minimum := 0 |> <| usage_maximum := 0 |>)
  else if item_type =? 1 then
    Ret (if item_tag =? 0 then p <| usage_page := data |> else if item_tag =? 7 then p <| report_size := data |>
         else if item_tag =? 9 then p <| report_count := data |> else p)
  else if item_type =? 2 then
    let usage := if item_size =? 4 then data else data .| u32 (Z.shiftl (usage_page p) 16) in
    Ret (if item_tag =? 0 then p <| usages ::= fun l => l ++ [usage] |>
         else if item_tag =? 1 then p <| usage_minimum := usage |>
         else if item_tag =? 2 then p <| usage_maximum := usage |> else p)
  else Ret (p <| usable := false |>).

(** [for (u16 i = 0; i < length; i++)] with [fuel] turns; [None] when they are not enough.
    A descriptor is of at most a page, so [length] turns are. *)
Fixpoint parse_loop (fuel : nat) (data : mem) (length i : Z) (p : parser) : outcome (option parser) :=
  if length <=? i then Ret (Some p) else
  match fuel with
  | O => Ret None
  | S fuel =>
      let! item := deref (data !! Z.to_nat i) in
      let item_size := Z.land item 3 in
      let item_size := if item_size =? 3 then 4 else item_size in
      let! v := item_data data length i 0 (Z.to_nat item_size) in
      let! p := apply_item (Z.land (Z.shiftr item 2) 3) (Z.land (Z.shiftr item 4) 15) item_size v p in
      parse_loop fuel data length (u16 (u16 (i + item_size) + 1)) p
  end.

(** Whether each field can be read, from the bit [bit_offset] on. *)
Fixpoint fields_supported (bit_offset : Z) (l : list InputItem) : bool :=
  match l with
  | [] => true
  | x :: l =>
      ((type x =? 0) || (size_bits x =? 1) ||
       ((bit_offset mod 8 =? 0) && ((size_bits x =? 8) || (size_bits x =? 16)))) &&
      fields_supported (u32 (bit_offset + size_bits x)) l
  end.

(** [for (u32 usage = min; usage <= max; usage++)] with [fuel] turns. *)
Fixpoint array_keys (fuel : nat) (usage max : Z) (keys : Bitmap.t) : outcome (option Bitmap.t) :=
  if max <? usage then Ret (Some keys) else
  match fuel with
  | O => Ret None
  | S fuel =>
      let! keys :=
        if Z.shiftr usage 16 =? 7 then
          let! code := deref (usb_to_linux_keycode_table !! Z.to_nat (Z.land usage 255)) in
          Bitmap.set keys code true
        else Ret keys in
      array_keys fuel (u32 (usage + 1)) max keys
  end.

(** What the device can report. *)
Fixpoint announce (fuel : nat) (l : list InputItem) (d : InputDevice) : outcome (option InputDevice) :=
  match l with
  | [] => Ret (Some d)
  | x :: l =>
      if is_array x then
        let! keys := array_keys fuel (usage_min x) (usage_max x) (key_bitmap d) in
        match keys with
        | None => Ret None
        | Some keys => announce fuel l (d <| key_bitmap := keys |>)
        end
      else if type x =? 0 then announce fuel l d else
      let! ev := Bitmap.set (ev_bitmap d) (type x) true in
      let d := d <| ev_bitmap := ev |> in
      if type x =? EV_KEY then
        let! keys := Bitmap.set (key_bitmap d) (code x) true in announce fuel l (d <| key_bitmap := keys |>)
      else if type x =? EV_REL then
        let! rel := Bitmap.set (rel_bitmap d) (code x) true in announce fuel l (d <| rel_bitmap := rel |>)
      else Panic
  end.

Definition parser_init (l : list InputItem) : parser := mkParser 0 0 0 [] 0 0 l true.

Definition parse_report_descriptor (fuel : nat) (data : mem) (length : Z) (h : Device) : outcome (option Device) :=
  let! p := parse_loop fuel data length 0 (parser_init (input_items h)) in
  match p with
  | None => Ret None
  | Some p =>
      if negb (usable p && fields_supported 0 (items p)) then
        Ret (Some (h <| input_items := [] |> <| report_protocol_usable := false |>))
      else
        let! d := announce fuel (items p) (hid_device h) in
        Ret (option_map (fun d => mkHid d (items p) true) d)
  end.

(** ** Reports *)

Definition i16 (z : Z) : Z := (z + 32768) mod 65536 - 32768.

(** The value of a field at the bit [bit_offset]; [None] when the report ends before it. *)
Definition field_value (data : mem) (data_length bit_offset : Z) (x : InputItem) : outcome (option Z) :=
  let byte_offset := bit_offset / 8 in
  if byte_offset >=? data_length then Ret None else
  let! b := deref (data !! Z.to_nat byte_offset) in
  if size_bits x =? 1 then
    if 32 <=? bit_offset then Undef
    else Ret (Some (if b &? Z.shiftl 1 bit_offset then 1 else 0))
  else if bit_offset mod 8 =? 0 then
    if size_bits x =? 8 then Ret (Some (i8 b))
    else if size_bits x =? 16 then
      if byte_offset + 1 >=? data_length then Ret None else
      let! b1 := deref (data !! Z.to_nat (byte_offset + 1)) in
      Ret (Some (i16 (b .| u16 (Z.shiftl b1 8))))
    else Undef
  else Ret (Some 0).

Definition key_of_usage (usage : Z) : outcome Z :=
  deref (usb_to_linux_keycode_table !! Z.to_nat (Z.land usage 255)).

(** The events of one field. *)
Definition field_event (x : InputItem) (value : Z) (d : InputDevice) (w : world)
    : outcome (InputItem * InputDevice * world) :=
  if is_array x then
    let usage := u32 (usage_min x + value) in
    let old_usage := u32 (usage_min x + previous_value x) in
    if Z.shiftr usage 16 =? 7 then
      let! keycode := key_of_usage usage in
      let! old_keycode := key_of_usage old_usage in
      if value =? previous_value x then Ret (x, d, w) else
      let! keys := Bitmap.set (key_status d) keycode true in
      let! keys := Bitmap.set keys old_keycode false in
      let (d, w) := push_event EV_KEY keycode 1 (d <| key_status := keys |>) w in
      let (d, w) := push_event EV_KEY old_keycode 0 d w in
      Ret (x <| previous_value := value |>, d, w)
    else Ret (x, d, w)
  else if is_constant x then Ret (x, d, w)
  else if type x =? EV_KEY then
    let! (d, w) := process_button (code x) (negb (value =? 0)) d w in Ret (x, d, w)
  else if type x =? EV_REL then
    let (d, w) := push_motion (code x) value d w in Ret (x, d, w)
  else Ret (x, d, w).

Fixpoint event_loop (data : mem) (data_length bit_offset : Z) (l : list InputItem) (d : InputDevice) (w : world)
    : outcome (list InputItem * InputDevice * world) :=
  match l with
  | [] => Ret ([], d, w)
  | x :: rest =>
      let! value := field_value data data_length bit_offset x in
      match value with
      | None => Ret (l, d, w)
      | Some value =>
          let! (x, d, w) := field_event x value d w in
          let! (rest, d, w) := event_loop data data_length (u32 (bit_offset + size_bits x)) rest d w in
          Ret (x :: rest, d, w)
      end
  end.

(** [Device::event]. *)
Definition event (data : mem) (data_length : Z) (h : Device) (w : world) : outcome (Device * world) :=
  let! (l, d, w) := event_loop data data_length 0 (input_items h) (hid_device h) w in
  let! (d, w) := flush_events d w in
  Ret (mkHid d l (report_protocol_usable h), w).

Definition hid_init (nm ph : mem) (vendor e : Z) (s : list InputEvent) : outcome Device :=
  let d := InputDevice_init e s in
  let! ev := Bitmap.set (ev_bitmap d) EV_SYN true in
  Ret (mkHid (d <| name := nm |> <| phys := ph |> <| id := input_id 3 vendor 1 1 |> <| ev_bitmap := ev |>) [] false).
Definition Mouse_init (e : Z) (s : list InputEvent) : outcome Device :=
  hid_init (bytes "USB Mouse" ++ [0]) (bytes "usbmouse/input0" ++ [0]) 2 e s.
Definition Keyboard_init (e : Z) (s : list InputEvent) : outcome Device :=
  hid_init (bytes "USB Keyboard" ++ [0]) (bytes "usbkbd/input0" ++ [0]) 1 e s.

End usbhid.
