(* ===== verification/HidProps.v ===== *)
(** * USB keyboards and mice: descriptors and reports *)

From S2P Require Import Prelude Algorithm CString RingBuffer Links Sched SchedFacts SchedLinks SchedProps TimeProps Printf Tty Input InputFacts Hid.

Import input usbhid.

(** ** Bytes as numbers *)

Definition is_bytes (l : list Z) : Prop := Forall (fun b => 0 <= b < 256) l.

Lemma le_value_range l : is_bytes l -> 0 <= le_value l < 256 ^ Z.of_nat (length l).
Proof.
  induction 1 as [|b l Hb _ IH]; [done|]. unfold le_value in *. cbn [foldr length].
  rewrite Nat2Z.inj_succ, Z.pow_succ_r by lia. nia.
Qed.

Lemma lor_shiftl_add b v n : 0 <= n -> 0 <= b < 2 ^ n -> 0 <= v -> Z.lor b (Z.shiftl v n) = b + Z.shiftl v n.
Proof.
  intros Hn Hb Hv. pose proof (Z.add_lor_land b (Z.shiftl v n)).
  assert (Z.land b (Z.shiftl v n) = 0); [|lia]. apply Z.bits_inj'. intros i Hi. rewrite Z.land_spec, Z.bits_0, Z.shiftl_spec by done.
  destruct (decide (i < n)); [by rewrite (Z.testbit_neg_r v) by lia; rewrite andb_false_r|].
  destruct (decide (b = 0)) as [->|]; [by rewrite Z.bits_0|].
  rewrite (Z.bits_above_log2 b); [done|lia|]. apply Z.log2_lt_pow2; [lia|]. eapply Z.lt_le_trans; [apply Hb|].
  apply Z.pow_le_mono_r; lia.
Qed.

(** Byte [k] of a number. *)
Lemma le_value_byte l k : is_bytes l -> (le_value l / 256 ^ Z.of_nat k) mod 256 = default 0 (l !! k).
Proof.
  intros Hl. revert k. induction Hl as [|b l Hb Hl IH]; intros k.
  - change (le_value []) with 0. by rewrite Z.div_0_l by lia.
  - change (le_value (b :: l)) with (b + 256 * le_value l). destruct k as [|k]; cbn [lookup list_lookup].
    + simpl. rewrite Z.div_1_r. lia.
    + rewrite Nat2Z.inj_succ, Z.pow_succ_r, <- Z.div_div by lia.
      replace ((b + 256 * le_value l) / 256) with (le_value l) by lia. apply IH.
Qed.

(** ** Descriptors *)

(** An item as its fields; the size of its data is 0, 1, 2 or 4. *)
Record short_item := mkShort { s_type : Z; s_tag : Z; s_data : list Z }.
Definition short_ok (it : short_item) : Prop :=
  0 <= s_type it < 4 /\ 0 <= s_tag it < 16 /\ is_bytes (s_data it) /\
  (length (s_data it) = 0%nat \/ length (s_data it) = 1%nat \/ length (s_data it) = 2%nat \/ length (s_data it) = 4%nat).
Definition size_code (n : nat) : Z := if (n =? 4)%nat then 3 else Z.of_nat n.
Definition encode_item (it : short_item) : list Z :=
  (s_tag it * 16 + s_type it * 4 + size_code (length (s_data it))) :: s_data it.

(** What a sequence of items means. *)
Fixpoint interpret (its : list short_item) (p : parser) : outcome parser :=
  match its with
  | [] => Ret p
  | it :: its =>
      let! p := apply_item (s_type it) (s_tag it) (Z.of_nat (length (s_data it))) (le_value (s_data it)) p in
      interpret its p
  end.

Lemma item_data_value data length i bs off : is_bytes bs -> 0 <= i ->
  (forall k, (k < List.length bs)%nat -> data !! Z.to_nat (i + Z.of_nat (off + k) + 1) = bs !! k) ->
  i + Z.of_nat off + Z.of_nat (List.length bs) <= length -> (off + List.length bs <= 4)%nat ->
  item_data data length i off (List.length bs) = Ret (Z.shiftl (le_value bs) (Z.of_nat off * 8)).
Proof.
  revert off. induction bs as [|b bs IH]; intros off Hbs Hi Hk Hl Ho.
  - cbn [List.length item_data]. by rewrite Z.shiftl_0_l.
  - cbn [List.length item_data] in *. inversion Hbs as [|? ? Hb Hbs']; subst.
    destruct (Z.geb_spec (i + Z.of_nat off) length); [lia|].
    pose proof (Hk 0%nat ltac:(lia)) as H0. rewrite Nat.add_0_r in H0. rewrite H0. cbn [deref obind lookup list_lookup].
    rewrite (IH (S off)); [|done..| |lia|lia].
    2:{ intros k Hlt. etrans; [|exact (Hk (S k) ltac:(lia))]. do 2 f_equal. lia. }
    cbn [obind]. f_equal. change (le_value (b :: bs)) with (b + 256 * le_value bs).
    pose proof (le_value_range bs Hbs'). rewrite !Z.shiftl_mul_pow2 by lia.
    assert (off = 0 \/ off = 1 \/ off = 2 \/ off = 3)%nat as Hoff by lia.
    assert (0 < 2 ^ (Z.of_nat off * 8) <= 16777216) as Hp by (destruct Hoff as [->|[->|[->| ->]]]; simpl; lia).
    unfold u32. rewrite Z.mod_small by nia. replace (Z.of_nat (S off) * 8) with (8 + Z.of_nat off * 8) by lia.
    rewrite <- Z.shiftl_mul_pow2, Z.pow_add_r by lia.
    replace (le_value bs * (2 ^ 8 * 2 ^ (Z.of_nat off * 8))) with (Z.shiftl (le_value bs * 256) (Z.of_nat off * 8))
      by (rewrite Z.shiftl_mul_pow2 by lia; lia).
    rewrite <- Z.shiftl_lor, <- Z.shiftl_mul_pow2 by lia. f_equal.
    pose proof (lor_shiftl_add b (le_value bs) 8 ltac:(lia) Hb ltac:(lia)) as Hlor.
    rewrite Z.shiftl_mul_pow2 in Hlor by lia. change (2 ^ 8) with 256 in Hlor. lia.
Qed.

(** Reading the bytes of well-formed items, with anything before and after them. *)
Lemma parse_loop_items its pre rest p fuel : Forall short_ok its ->
  Z.of_nat (length pre + length (flat_map encode_item its)) <= 4096 -> (length its <= fuel)%nat ->
  parse_loop fuel (pre ++ flat_map encode_item its ++ rest)
    (Z.of_nat (length pre + length (flat_map encode_item its))) (Z.of_nat (length pre)) p =
  let! p := interpret its p in Ret (Some p).
Proof.
  intros Hits. revert pre p fuel. induction Hits as [|it its Hit Hits IH]; intros pre p fuel Hl Hf.
  - cbn [flat_map interpret obind length] in *. rewrite Nat.add_0_r.
    destruct fuel; cbn [parse_loop]; by rewrite (proj2 (Z.leb_le _ _)) by lia.
  - destruct fuel as [|fuel]; [simpl in Hf; lia|]. cbn [flat_map interpret] in *. rewrite length_app in *.
    destruct Hit as (Hty & Htag & Hb & Hn). pose proof (le_value_range _ Hb) as Hv.
    set (n := length (s_data it)) in *. set (hd := s_tag it * 16 + s_type it * 4 + size_code n).
    assert (length (encode_item it) = S n) as Hle by done. rewrite Hle in *. cbn [parse_loop].
    destruct (Z.leb_spec (Z.of_nat (length pre + (S n + length (flat_map encode_item its)))) (Z.of_nat (length pre))); [lia|].
    assert ((pre ++ (encode_item it ++ flat_map encode_item its) ++ rest) !! Z.to_nat (Z.of_nat (length pre)) = Some hd) as ->.
    { rewrite Nat2Z.id, lookup_app_r, Nat.sub_diag by lia. done. }
    cbn [deref obind].
    assert (Z.land hd 3 = size_code n /\ Z.land (Z.shiftr hd 2) 3 = s_type it /\ Z.land (Z.shiftr hd 4) 15 = s_tag it)
      as (-> & -> & ->).
    { assert (0 <= size_code n < 4) as Hs by (unfold size_code; destruct Hn as [Hn|[Hn|[Hn|Hn]]]; rewrite Hn; simpl; lia).
      unfold hd. set (c := size_code n) in *. clearbody c. change 3 with (Z.ones 2). change 15 with (Z.ones 4).
      rewrite !Z.land_ones, !Z.shiftr_div_pow2 by lia. change (2 ^ 2) with 4. change (2 ^ 4) with 16. lia. }
    assert ((if size_code n =? 3 then 4 else size_code n) = Z.of_nat n) as ->
      by (unfold size_code; destruct Hn as [Hn|[Hn|[Hn|Hn]]]; rewrite Hn; done).
    rewrite Nat2Z.id. unfold n. rewrite item_data_value; try done; try lia.
    + cbn [obind]. rewrite Z.shiftl_0_r. destruct (apply_item _ _ _ _ p) as [p'| |]; [|done..]. cbn [obind].
      specialize (IH (pre ++ encode_item it) p' fuel). rewrite length_app, Hle, <- app_assoc in IH.
      fold n. replace (u16 (u16 (Z.of_nat (length pre) + Z.of_nat n) + 1)) with (Z.of_nat (length pre + S n)) by word.
      rewrite <- IH by (simpl in Hf; lia). rewrite <- app_assoc. f_equal. lia.
    + intros k Hk. rewrite lookup_app_r by lia. replace (Z.to_nat _ - length pre)%nat with (S k) by lia.
      rewrite <- app_assoc. etrans; [|apply (lookup_app_l (s_data it)); done]. done.
Qed.

(** ** Layouts *)

(** Fields of some usages of a page, of [size] bits each, or padding. *)
Inductive group :=
| Fields (page size : Z) (us : list Z)
| Padding (bits : Z).

Definition group_ok (g : group) : Prop :=
  match g with
  | Fields page size us => 0 <= page < 65536 /\ 0 < size < 256 /\ (length us < 256)%nat /\ Forall (fun u => 0 <= u < 65536) us
  | Padding bits => 0 < bits < 256
  end.

(** How a device describes the group, and the fields it stands for. *)
Definition group_items (g : group) : list short_item :=
  match g with
  | Fields page size us =>
      [mkShort 1 0 (le_bytes 2 page); mkShort 1 7 [size]; mkShort 1 9 [Z.of_nat (length us)]] ++
      map (fun u => mkShort 2 0 (le_bytes 2 u)) us ++ [mkShort 0 8 [2]]
  | Padding bits => [mkShort 1 7 [bits]; mkShort 1 9 [1]; mkShort 0 8 [1]]
  end.
Definition usage_field (size usage : Z) : InputItem :=
  let '(t, c) := ret_of (0, 0) (usage_event usage) in mkItem size t c 0 0 false false 0.
Definition group_fields (g : group) : list InputItem :=
  match g with
  | Fields page size us => map (fun u => usage_field size (page * 65536 + u)) us
  | Padding bits => [mkItem bits 0 0 0 0 false true 0]
  end.

(** The bytes of a layout's descriptor, and its fields. *)
Definition descriptor (gs : list group) : list Z := flat_map encode_item (flat_map group_items gs).
Definition fields (gs : list group) : list InputItem := flat_map group_fields gs.

Lemma table_codes : Forall (fun c => 0 <= c < 768) usb_to_linux_keycode_table.
Proof. apply (bool_decide_unpack _). vm_compute. done. Qed.

Lemma key_of_usage_Ret usage : exists c, key_of_usage usage = Ret c /\ 0 <= c < KEY_CNT.
Proof.
  unfold key_of_usage. assert (0 <= Z.land usage 255 < 256).
  { change 255 with (Z.ones 8). rewrite Z.land_ones by lia. apply Z.mod_pos_bound. lia. }
  destruct (lookup_lt_is_Some_2 usb_to_linux_keycode_table (Z.to_nat (Z.land usage 255))) as [c Hc].
  { change (length usb_to_linux_keycode_table) with 256%nat. lia. }
  exists c. rewrite Hc. split; [done|]. exact (Forall_lookup_1 _ _ _ _ table_codes Hc).
Qed.

(** An event is a key, an axis or none. *)
Definition event_ok (t c : Z) : Prop := t = 0 \/ t = EV_KEY /\ 0 <= c < KEY_CNT \/ t = EV_REL /\ 0 <= c < 16.

Lemma usage_event_Ret usage : exists t c, usage_event usage = Ret (t, c) /\ event_ok t c.
Proof.
  unfold usage_event. destruct (_ =? 7).
  - destruct (key_of_usage_Ret usage) as (c & Hc & ?). unfold key_of_usage in Hc. rewrite Hc. cbn [obind].
    exists EV_KEY, c. split; [done|]. right. by left.
  - unfold event_ok, EV_KEY, EV_REL, KEY_CNT. repeat (destruct (_ =? _); [eexists _, _; split; [done|]; unfold BTN_LEFT, BTN_RIGHT, BTN_MIDDLE, BTN_SIDE, BTN_EXTRA, REL_X, REL_Y, REL_WHEEL; lia|]).
    eexists _, _. split; [done|]. by left.
Qed.

Lemma interpret_app its1 its2 p : interpret (its1 ++ its2) p = let! p := interpret its1 p in interpret its2 p.
Proof.
  revert p. induction its1 as [|it its1 IH]; intros p; [done|]. cbn [app interpret].
  destruct (apply_item _ _ _ _ p); [|done..]. cbn [obind]. apply IH.
Qed.

Lemma interpret_usages us p : Forall (fun u => 0 <= u < 65536) us -> 0 <= usage_page p < 65536 ->
  interpret (map (fun u => mkShort 2 0 (le_bytes 2 u)) us) p =
    Ret (p <| usages ::= fun l => l ++ map (fun u => usage_page p * 65536 + u) us |>).
Proof.
  intros Hus Hp. revert p Hp. induction Hus as [|u us Hu _ IH]; intros p Hp.
  - cbn [map interpret]. destruct p. unfold upd. simpl. by rewrite app_nil_r.
  - cbn [map interpret s_type s_tag s_data]. rewrite le_value_bytes by (simpl; lia).
    change (Z.of_nat (length (le_bytes 2 u))) with 2. unfold apply_item. cbn [Z.eqb Pos.eqb obind].
    replace (u .| u32 (Z.shiftl (usage_page p) 16)) with (usage_page p * 65536 + u).
    + rewrite IH by done. f_equal. destruct p. unfold upd. simpl. by rewrite <- app_assoc.
    + unfold u32. rewrite Z.shiftl_mul_pow2 by lia. change (2 ^ 16) with 65536. rewrite Z.mod_small by lia.
      pose proof (lor_shiftl_add u (usage_page p) 16) as H. rewrite Z.shiftl_mul_pow2 in H by lia.
      change (2 ^ 16) with 65536 in H. rewrite H by lia. lia.
Qed.

Lemma variable_fields_usages n i p : (i + n = length (usages p))%nat ->
  variable_fields i n p =
    Ret (p <| items ::= fun l => l ++ map (usage_field (report_size p)) (drop i (usages p)) |>).
Proof.
  revert i p. induction n as [|n IH]; intros i p Hi; cbn [variable_fields].
  - rewrite drop_ge by lia. destruct p. unfold upd. simpl. by rewrite app_nil_r.
  - destruct (lookup_lt_is_Some_2 (usages p) i) as [u Hu]; [lia|].
    rewrite (drop_S _ _ _ Hu). unfold field_usage. rewrite Hu.
    destruct (usage_event_Ret u) as (t & c & He & _). rewrite He. cbn [obind]. rewrite IH by (destruct p; unfold upd; simpl in *; lia).
    f_equal. destruct p. unfold upd. cbn in *. rewrite <- app_assoc. unfold usage_field at 2. rewrite He. done.
Qed.

(** The local state is clear. *)
Definition local_clear (p : parser) : Prop := usages p = [] /\ usage_minimum p = 0 /\ usage_maximum p = 0.

Lemma interpret_group g p : group_ok g -> local_clear p ->
  exists p', interpret (group_items g) p = Ret p' /\ local_clear p' /\
    items p' = items p ++ group_fields g /\ usable p' = usable p.
Proof.
  destruct p as [pg sz ct us mn mx its ok]. destruct g as [page size us'|bits]; intros Hg (Hu & _); simpl in Hu; subst us.
  - destruct Hg as (Hpg & Hs & Hl & Hus). cbn [group_items app interpret s_type s_tag s_data].
    rewrite le_value_bytes by (simpl; lia). unfold apply_item at 1. cbn [Z.eqb Pos.eqb obind].
    unfold apply_item at 1. cbn [Z.eqb Pos.eqb obind]. unfold apply_item at 1. cbn [Z.eqb Pos.eqb obind].
    rewrite interpret_app, interpret_usages by (try done; simpl; lia). cbn [obind interpret s_type s_tag s_data].
    unfold apply_item. cbn [Z.eqb Pos.eqb obind]. unfold input_item.
    change (le_value [2]) with 2. cbn [Z.testbit Pos.testbit Pos.pred_N N.pred Z.to_N negb].
    rewrite variable_fields_usages.
    + cbn [obind]. eexists. split; [done|]. split; [done|]. split; [|done]. unfold upd. cbn.
      f_equal. rewrite drop_0, map_map. by rewrite Z.add_0_r.
    + unfold upd. cbn. rewrite length_map. lia.
  - cbn [group_items interpret s_type s_tag s_data]. eexists. split; [reflexivity|].
    split; [done|]. split; [|done]. unfold upd. cbn. do 2 f_equal. simpl in Hg. unfold u32. rewrite Z.mod_small by lia.
    f_equal. lia.
Qed.

Lemma interpret_layout gs p : Forall group_ok gs -> local_clear p ->
  exists p', interpret (flat_map group_items gs) p = Ret p' /\ items p' = items p ++ fields gs /\ usable p' = usable p.
Proof.
  intros Hgs. revert p. induction Hgs as [|g gs Hg _ IH]; intros p Hp.
  - exists p. unfold fields. simpl. by rewrite app_nil_r.
  - cbn [flat_map]. rewrite interpret_app. destruct (interpret_group g p Hg Hp) as (p1 & -> & Hp1 & Hi1 & Hu1). cbn [obind].
    destruct (IH p1 Hp1) as (p2 & -> & Hi2 & Hu2). exists p2. split; [done|].
    split; [|congruence]. rewrite Hi2, Hi1. unfold fields. cbn [flat_map]. by rewrite app_assoc.
Qed.

(** ** What a device announces *)

(** A field that is not of an array and whose event there is. *)
Definition field_ok (x : InputItem) : Prop := is_array x = false /\ event_ok (type x) (code x).

(** The types of event, and the codes of a type, that fields have. *)
Definition types_of (l : list InputItem) (T : gset Z) : gset Z :=
  foldl (fun T x => if type x =? 0 then T else {[type x]} ∪ T) T l.
Definition codes_of (t : Z) (l : list InputItem) (C : gset Z) : gset Z :=
  foldl (fun C x => if type x =? t then {[code x]} ∪ C else C) C l.

(** The types, keys and axes a device announces. *)
Definition announces (d : InputDevice) (T K R : gset Z) : Prop :=
  bits_are 32 (ev_bitmap d) T /\ bits_are KEY_CNT (key_bitmap d) K /\ bits_are 16 (rel_bitmap d) R.

Lemma announce_fields fuel l d T K R : Forall field_ok l -> announces d T K R ->
  exists d', announce fuel l d = Ret (Some d') /\
    announces d' (types_of l T) (codes_of EV_KEY l K) (codes_of EV_REL l R).
Proof.
  intros Hl. revert d T K R. induction Hl as [|x l [Ha He] _ IH]; intros d T K R Hd; cbn [announce].
  - by exists d.
  - rewrite Ha. unfold types_of, codes_of. cbn [foldl]. pose proof Hd as (H1 & H2 & H3).
    destruct He as [Ht|[[Ht Hc]|[Ht Hc]]]; rewrite Ht.
    + by apply IH.
    + destruct (bits_are_set 32 (ev_bitmap d) T EV_KEY true H1 ltac:(done)) as (b1 & Hb1 & Hb1'). change (EV_KEY =? 0) with false.
      cbv iota. rewrite Hb1. cbn [obind]. change (EV_KEY =? EV_KEY) with true. cbv iota.
      destruct (bits_are_set KEY_CNT (key_bitmap d) K (code x) true H2 Hc) as (b2 & Hb2 & Hb2').
      unfold upd. cbn [key_bitmap]. rewrite Hb2. cbn [obind]. by apply IH.
    + destruct (bits_are_set 32 (ev_bitmap d) T EV_REL true H1 ltac:(done)) as (b1 & Hb1 & Hb1'). change (EV_REL =? 0) with false.
      cbv iota. rewrite Hb1. cbn [obind]. change (EV_REL =? EV_KEY) with false. change (EV_REL =? EV_REL) with true. cbv iota.
      destruct (bits_are_set 16 (rel_bitmap d) R (code x) true H3 Hc) as (b2 & Hb2 & Hb2').
      unfold upd. cbn [rel_bitmap]. rewrite Hb2. cbn [obind]. by apply IH.
Qed.

Lemma layout_fields_ok gs : Forall field_ok (fields gs).
Proof.
  unfold fields. apply Forall_flat_map, Forall_true. intros [page size us|bits]; cbn [group_fields].
  - apply Forall_map, Forall_true. intros u. unfold usage_field.
    destruct (usage_event_Ret (page * 65536 + u)) as (t & c & -> & He). split; [done|exact He].
  - constructor; [|constructor]. split; [done|]. by left.
Qed.

Lemma le_bytes_is_bytes n z : is_bytes (le_bytes n z).
Proof. revert z. induction n as [|n IH]; intros z; simpl; constructor; [lia|apply IH]. Qed.

Lemma group_items_ok g : group_ok g -> Forall short_ok (group_items g).
Proof.
  assert (forall l, is_bytes l -> (length l = 1 \/ length l = 2)%nat -> forall ty tag, 0 <= ty < 4 -> 0 <= tag < 16 -> short_ok (mkShort ty tag l)) as Hs
    by (intros l Hb Hl ty tag ? ?; split_and!; simpl; try done; tauto).
  assert (forall b, 0 <= b < 256 -> is_bytes [b]) as Hone by (intros b Hb; apply Forall_singleton; done).
  destruct g as [page size us|bits]; cbn [group_items group_ok].
  - intros (Hp & Hz & Hn & Hu). cbn [app]. constructor; [|constructor; [|constructor; [|apply Forall_app; split]]].
    + apply Hs; [apply le_bytes_is_bytes|by right|lia|lia].
    + apply Hs; [apply Hone; lia|by left|lia|lia].
    + apply Hs; [apply Hone; lia|by left|lia|lia].
    + apply Forall_map, Forall_true. intros u. apply Hs; [apply le_bytes_is_bytes|by right|lia|lia].
    + apply Forall_singleton, Hs; [apply Hone; lia|by left|lia|lia].
  - intros Hb. constructor; [|constructor; [|apply Forall_singleton]]; (apply Hs; [apply Hone; lia|by left|lia|lia]).
Qed.

(** C25.  A report descriptor gives back the layout it describes: for any sequence of
    groups of fields and padding, the bytes of their descriptor are read, to the end, as
    exactly their fields in order, each with its size and the key or axis of its usage, and
    nothing past the descriptor is looked at; the device announces the types, keys and axes
    of the fields beside those it had. The layout must be one the driver supports and its
    descriptor fit a page. *)
Theorem descriptor_read gs rest h T K R fuel : Forall group_ok gs -> Z.of_nat (length (descriptor gs)) <= 4096 ->
  fields_supported 0 (fields gs) = true -> input_items h = [] -> announces (hid_device h) T K R -> (4096 <= fuel)%nat ->
  exists h', parse_report_descriptor fuel (descriptor gs ++ rest) (Z.of_nat (length (descriptor gs))) h = Ret (Some h') /\
    input_items h' = fields gs /\ report_protocol_usable h' = true /\
    announces (hid_device h') (types_of (fields gs) T) (codes_of EV_KEY (fields gs) K) (codes_of EV_REL (fields gs) R).
Proof.
  intros Hgs Hl Hsup Hi Ha Hf. unfold parse_report_descriptor. rewrite Hi.
  assert (Forall short_ok (flat_map group_items gs)) as Hok.
  { apply Forall_flat_map. eapply Forall_impl; [exact Hgs|]. apply group_items_ok. }
  assert (length (flat_map group_items gs) <= length (descriptor gs))%nat as Hlen.
  { unfold descriptor. clear. induction (flat_map group_items gs) as [|it l IH]; [done|]. cbn [flat_map length].
    rewrite length_app. cbn [encode_item length]. lia. }
  pose proof (parse_loop_items _ [] rest (parser_init []) fuel Hok Hl ltac:(lia)) as Hp. cbn [app length Nat.add] in Hp.
  change (Z.of_nat 0) with 0 in Hp. fold (descriptor gs) in Hp. rewrite Hp.
  destruct (interpret_layout gs (parser_init []) Hgs) as (p' & -> & Hits & Hus); [done|]. cbn [obind].
  cbn [parser_init items app] in Hits. rewrite Hus, Hits, Hsup. cbn [parser_init usable andb negb].
  destruct (announce_fields fuel (fields gs) (hid_device h) T K R (layout_fields_ok gs) Ha) as (d' & -> & Hd'). cbn [obind option_map].
  eexists. split; [done|]. by split.
Qed.

(** ** Reports *)

(** The number in the [size] bits of a report from the bit [off] on, signed unless it is one bit. *)
Definition signed (size v : Z) : Z := if v <? 2 ^ (size - 1) then v else v - 2 ^ size.
Definition bits_at (report : list Z) (off size : Z) : Z := (le_value report / 2 ^ off) mod 2 ^ size.
Definition report_value (report : list Z) (off : Z) (x : InputItem) : Z :=
  if size_bits x =? 1 then bits_at report off 1 else signed (size_bits x) (bits_at report off (size_bits x)).

(** The fields that the driver reads right: bits are in the first byte and other fields are bytes or
    words at byte boundaries; padding may also lie between boundaries. [len] is the length of the report. *)
Fixpoint readable (len off : Z) (l : list InputItem) : bool :=
  match l with
  | [] => true
  | x :: l =>
      (0 <? size_bits x) && (off + size_bits x <=? 8 * len) &&
      (if size_bits x =? 1 then off <? 8
       else if off mod 8 =? 0 then (size_bits x =? 8) || (size_bits x =? 16) else type x =? 0) &&
      readable len (off + size_bits x) l
  end.

(** The events of the fields from the bit [off] on, and the keys held after them. *)
Fixpoint report_events (K : gset Z) (report : list Z) (off : Z) (l : list InputItem) : list (Z * Z * Z) :=
  match l with
  | [] => []
  | x :: l =>
      let v := report_value report off x in
      if type x =? EV_KEY then
        key_events K (code x) (negb (v =? 0)) ++
        report_events (hold (code x) (negb (v =? 0)) K) report (off + size_bits x) l
      else (if type x =? EV_REL then motion_events (code x) v else []) ++
        report_events K report (off + size_bits x) l
  end.
Fixpoint report_held (K : gset Z) (report : list Z) (off : Z) (l : list InputItem) : gset Z :=
  match l with
  | [] => K
  | x :: l =>
      report_held (if type x =? EV_KEY then hold (code x) (negb (report_value report off x =? 0)) K else K)
        report (off + size_bits x) l
  end.

Lemma byte_bits b off : 0 <= b < 256 -> 0 <= off < 8 ->
  (if b &? Z.shiftl 1 off then 1 else 0) = (b / 2 ^ off) mod 2.
Proof.
  intros Hb Ho. assert (Forall (fun off => Forall (fun b => (if flag b (Z.shiftl 1 off) then 1 else 0) = (b / 2 ^ off) mod 2)
    (seqZ 0 256)) (seqZ 0 8)) as Hall by (apply (bool_decide_unpack _); vm_compute; done).
  rewrite Forall_forall in Hall. specialize (Hall off). rewrite Forall_forall in Hall.
  apply Hall; apply elem_of_seqZ; lia.
Qed.

Lemma le_value_low l off : is_bytes l -> 0 <= off < 8 -> (le_value l / 2 ^ off) mod 2 = (default 0 (l !! 0%nat) / 2 ^ off) mod 2.
Proof.
  intros Hl Ho. destruct l as [|b l]; [done|]. change (le_value (b :: l)) with (b + 256 * le_value l). cbn [lookup list_lookup default].
  replace 256 with (2 ^ (8 - off) * 2 ^ off) by (rewrite <- Z.pow_add_r by lia; by replace (8 - off + off) with 8 by lia).
  replace (b + 2 ^ (8 - off) * 2 ^ off * le_value l) with (b + (2 ^ (8 - off) * le_value l) * 2 ^ off) by lia.
  rewrite Z.div_add by (apply Z.pow_nonzero; lia). change (default 0 (Some b)) with b.
  replace (8 - off) with (1 + (7 - off)) by lia. rewrite Z.pow_add_r by lia. change (2 ^ 1) with 2.
  replace (b / 2 ^ off + 2 * 2 ^ (7 - off) * le_value l) with (b / 2 ^ off + (2 ^ (7 - off) * le_value l) * 2) by lia.
  apply Z.mod_add. lia.
Qed.

Lemma field_value_read report rest off x : is_bytes report -> 0 <= off ->
  readable (Z.of_nat (length report)) off [x] = true ->
  exists v, field_value (report ++ rest) (Z.of_nat (length report)) off x = Ret (Some v) /\
    (type x <> 0 -> v = report_value report off x).
Proof.
  intros Hr Hoff Hx. cbn [readable] in Hx. rewrite andb_true_r in Hx.
  apply andb_prop in Hx as [Hx Hk]. apply andb_prop in Hx as [Hp%Z.ltb_lt Hl%Z.leb_le].
  unfold field_value, report_value, bits_at. assert (off / 8 < Z.of_nat (length report)) as Hin by lia.
  destruct (Z.geb_spec (off / 8) (Z.of_nat (length report))); [lia|].
  destruct (lookup_lt_is_Some_2 report (Z.to_nat (off / 8))) as [b Hb]; [lia|].
  rewrite lookup_app_l, Hb by lia. cbn [deref obind]. pose proof (Forall_lookup_1 _ _ _ _ Hr Hb) as Hbb. cbv beta in Hbb.
  destruct (Z.eqb_spec (size_bits x) 1) as [H1|H1].
  { apply Z.ltb_lt in Hk. destruct (Z.leb_spec 32 off); [lia|]. eexists. split; [done|]. intros _.
    rewrite byte_bits by lia. change (2 ^ 1) with 2. rewrite le_value_low by (done || lia).
    replace (Z.to_nat (off / 8)) with 0%nat in Hb by lia. by rewrite Hb. }
  destruct (Z.eqb_spec (off mod 8) 0) as [Ha|Ha].
  2:{ apply Z.eqb_eq in Hk. eexists. split; [done|]. done. }
  assert (2 ^ off = 256 ^ Z.of_nat (Z.to_nat (off / 8))) as Hpow.
  { change 256 with (2 ^ 8). rewrite <- Z.pow_mul_r by lia. f_equal. lia. }
  pose proof (le_value_byte report (Z.to_nat (off / 8)) Hr) as Hv. rewrite Hb in Hv. change (default 0 (Some b)) with b in Hv.
  rewrite Hpow. destruct (Z.eqb_spec (size_bits x) 8) as [H8|H8].
  { eexists. split; [done|]. intros _. rewrite H8. change (2 ^ 8) with 256. rewrite Hv. unfold signed, i8.
    change (2 ^ (8 - 1)) with 128. change (2 ^ 8) with 256. destruct (Z.ltb_spec b 128); lia. }
  rewrite orb_false_l in Hk. apply Z.eqb_eq in Hk as H16. rewrite H16, Z.eqb_refl.
  destruct (Z.geb_spec (off / 8 + 1) (Z.of_nat (length report))); [lia|].
  destruct (lookup_lt_is_Some_2 report (Z.to_nat (off / 8 + 1))) as [b1 Hb1]; [lia|].
  rewrite lookup_app_l, Hb1 by lia. cbn [deref obind]. pose proof (Forall_lookup_1 _ _ _ _ Hr Hb1) as Hbb1. cbv beta in Hbb1.
  eexists. split; [done|]. intros _.
  pose proof (le_value_byte report (S (Z.to_nat (off / 8))) Hr) as Hv1.
  replace (S (Z.to_nat (off / 8))) with (Z.to_nat (off / 8 + 1)) in Hv1 at 2 by lia. rewrite Hb1 in Hv1. change (default 0 (Some b1)) with b1 in Hv1.
  rewrite Nat2Z.inj_succ, Z.pow_succ_r, (Z.mul_comm 256), <- Z.div_div in Hv1 by lia.
  set (q := le_value report / 256 ^ Z.of_nat (Z.to_nat (off / 8))) in *. change (2 ^ 16) with 65536.
  pose proof (lor_shiftl_add b b1 8 ltac:(lia) ltac:(simpl; lia) ltac:(lia)) as Hlor.
  rewrite Z.shiftl_mul_pow2 in * by lia. change (2 ^ 8) with 256 in *. unfold u16. rewrite (Z.mod_small (b1 * 256)) by lia.
  rewrite Hlor. unfold signed, i16. change (2 ^ (16 - 1)) with 32768. change (2 ^ 16) with 65536.
  replace (q mod 65536) with (b + b1 * 256) by lia. destruct (Z.ltb_spec (b + b1 * 256) 32768); lia.
Qed.

(** Fields of variables, constant ones without an event. *)
Definition field_plain (x : InputItem) : Prop := field_ok x /\ (is_constant x = true -> type x = 0).

Lemma layout_fields_plain gs : Forall field_plain (fields gs).
Proof.
  apply Forall_and. split; [apply layout_fields_ok|]. unfold fields. apply Forall_flat_map, Forall_true.
  intros [page size us|bits]; cbn [group_fields].
  - apply Forall_map, Forall_true. intros u. unfold usage_field. by destruct (ret_of _ _).
  - by apply Forall_singleton.
Qed.

Lemma field_event_pushed x v d w K q : field_plain x -> reports d K q -> (length q < 128)%nat ->
  exists d' w', field_event x v d w = Ret (x, d', w') /\
    pushed d w K q
      (if type x =? EV_KEY then key_events K (code x) (negb (v =? 0))
       else if type x =? EV_REL then motion_events (code x) v else [])
      (if type x =? EV_KEY then hold (code x) (negb (v =? 0)) K else K) d' w'.
Proof.
  intros [[Ha He] Hc] Hr Hl. unfold field_event. rewrite Ha. destruct (is_constant x).
  - rewrite Hc by done. exists d, w. split; [done|]. by apply pushed_nil.
  - destruct He as [->|[[-> Hk]|[-> Hk]]].
    + exists d, w. split; [done|]. by apply pushed_nil.
    + change (EV_KEY =? EV_KEY) with true. cbv iota.
      destruct (process_button_pushed (code x) (negb (v =? 0)) d w K q Hr Hl Hk) as (d' & w' & -> & Hp). cbn [obind]. by exists d', w'.
    + change (EV_REL =? EV_KEY) with false. change (EV_REL =? EV_REL) with true. cbv iota.
      destruct (push_motion (code x) v d w) as [d' w'] eqn:Ep. exists d', w'. split; [done|]. by eapply push_motion_pushed.
Qed.

Lemma event_loop_pushed report rest l off d w K q : is_bytes report -> Z.of_nat (length report) <= 4096 ->
  Forall field_plain l -> 0 <= off -> readable (Z.of_nat (length report)) off l = true ->
  reports d K q -> (length q + length l <= 128)%nat ->
  exists d' w', event_loop (report ++ rest) (Z.of_nat (length report)) off l d w = Ret (l, d', w') /\
    pushed d w K q (report_events K report off l) (report_held K report off l) d' w'.
Proof.
  intros Hb Hlen Hl. revert off d w K q. induction Hl as [|x l Hx _ IH]; intros off d w K q Hoff Hread Hr Hq.
  - exists d, w. split; [done|]. by apply pushed_nil.
  - cbn [event_loop report_events report_held length] in *.
    assert (readable (Z.of_nat (length report)) off [x] = true /\ readable (Z.of_nat (length report)) (off + size_bits x) l = true /\
      0 < size_bits x /\ off + size_bits x <= 8 * 4096) as (Hx1 & Hread' & Hs & Hend).
    { cbn [readable] in Hread |- *. apply andb_prop in Hread as [Hread ->]. rewrite Hread.
      apply andb_prop in Hread as [[H1%Z.ltb_lt H2%Z.leb_le]%andb_prop _]. split_and!; done || lia. }
    destruct (field_value_read report rest off x Hb Hoff Hx1) as (v & -> & Hv). cbn [obind].
    destruct (field_event_pushed x v d w K q Hx Hr ltac:(lia)) as (d1 & w1 & -> & Hp). cbn [obind].
    replace (u32 (off + size_bits x)) with (off + size_bits x) by word.
    set (K1 := if type x =? EV_KEY then hold _ _ _ else _) in Hp.
    set (evs := if type x =? EV_KEY then key_events _ _ _ else _) in Hp.
    assert (length evs <= 1)%nat as He1.
    { unfold evs, key_events, motion_events. repeat case_match; simpl; lia. }
    destruct (IH (off + size_bits x) d1 w1 K1 (q ++ evs)) as (d' & w' & -> & Hp'); [lia|done|apply Hp|rewrite length_app; lia|].
    cbn [obind]. exists d', w'. split; [done|]. pose proof (pushed_app _ _ _ _ _ _ _ _ _ _ _ _ Hp Hp') as Happ.
    unfold evs, K1 in Happ. destruct (Z.eqb_spec (type x) EV_KEY) as [Ht|Ht].
    + rewrite <- Hv by (rewrite Ht; done). exact Happ.
    + destruct (Z.eqb_spec (type x) EV_REL) as [Ht'|Ht']; [rewrite <- Hv by (rewrite Ht'; done)|]; exact Happ.
Qed.

Lemma length_report_events K report off l : (length (report_events K report off l) <= length l)%nat.
Proof.
  revert K off. induction l as [|x l IH]; intros K off; [done|]. cbn [report_events length].
  destruct (type x =? EV_KEY); rewrite length_app.
  - specialize (IH (hold (code x) (negb (report_value report off x =? 0)) K) (off + size_bits x)).
    unfold key_events. case_match; simpl; lia.
  - specialize (IH K (off + size_bits x)). unfold motion_events. repeat case_match; simpl; lia.
Qed.


(** ** A mouse *)

(** Three buttons and five bits of padding, then two motions and a wheel of a byte each. *)
Definition mouse_layout : list group := [Fields 9 1 [1; 2; 3]; Padding 5; Fields 1 8 [48; 49; 56]].
Definition new_mouse : Device := ret_of (mkHid sample_device [] false) (usbhid.Mouse_init 100 blank_events).

Lemma new_mouse_announces : announces (hid_device new_mouse) {[0]} ∅ ∅.
Proof.
  destruct (bits_are_set 32 (Bitmap.init 32) ∅ EV_SYN true (bits_are_init 32 ltac:(lia)) ltac:(done)) as (b & Hb & Hb').
  assert (ev_bitmap (hid_device new_mouse) = b) as Hev.
  { unfold new_mouse, usbhid.Mouse_init, hid_init. cbn [InputDevice_init ev_bitmap]. rewrite Hb. done. }
  split; [rewrite Hev; replace ({[0]} : gset Z) with ({[EV_SYN]} ∪ ∅ : gset Z) by set_solver; exact Hb'|].
  split; apply (bits_are_init _); done.
Qed.

Lemma descriptor_read_witness :
  exists h, parse_report_descriptor 4096 (descriptor mouse_layout ++ [0]) (Z.of_nat (length (descriptor mouse_layout))) new_mouse = Ret (Some h) /\
    input_items h = fields mouse_layout /\ Bitmap.get (key_bitmap (hid_device h)) BTN_MIDDLE = Ret true.
Proof.
  destruct (descriptor_read mouse_layout [0] new_mouse {[0]} ∅ ∅ 4096) as (h & Hp & Hi & _ & _ & Hk & _).
  - repeat constructor; simpl; lia.
  - vm_compute. discriminate.
  - vm_compute. reflexivity.
  - vm_compute. reflexivity.
  - exact new_mouse_announces.
  - lia.
  - exists h. split; [exact Hp|]. split; [exact Hi|]. rewrite (Hk BTN_MIDDLE) by (unfold BTN_MIDDLE, KEY_CNT; lia). vm_compute. reflexivity.
Defined.

Definition sample_hid (l : list InputItem) : Device := mkHid sample_device l true.


(** ** What the driver misreads *)

(** The events that reports of a device with the fields [l] queue at an event node, and the keys held. *)
Fixpoint run_reports (rs : list (list Z)) (h : Device) (w : world) : outcome (Device * world) :=
  match rs with
  | [] => Ret (h, w)
  | r :: rs => let! (h, w) := usbhid.event r (Z.of_nat (length r)) h w in run_reports rs h w
  end.
Definition node_events (h : Device) : list (Z * Z * Z) :=
  match listeners (hid_device h) !! 1 with Some x => queued (event_buffer x) | None => [] end.
Definition reported (l : list InputItem) (rs : list (list Z)) : outcome (list (Z * Z * Z)) :=
  let! (h, _) := run_reports rs (sample_hid l) sample_world in Ret (node_events h).

(** A button after the first byte never goes down: the bit's place in the report is used as
    its place in the byte. *)
Lemma late_button_never_pressed :
  fields_supported 0 (fields [Fields 1 8 [48]; Fields 9 1 [1]]) = true /\
  reported (fields [Fields 1 8 [48]; Fields 9 1 [1]]) [[0; 1]] = Ret [].
Proof. split; vm_compute; reflexivity. Qed.

(** Two slots for the keys down, of any usage of the keyboard page. *)
Definition key_slots : list InputItem := replicate 2 (mkItem 8 0 0 458752 459007 true false 0).

(** A key that moves to another slot when one before it is released is reported up while it
    is held; every press and release comes with one of the unknown key 240. *)
Lemma held_key_released :
  (let! (h, _) := run_reports [[4; 5]; [5; 0]] (sample_hid key_slots) sample_world in
   let! b := Bitmap.get (key_status (hid_device h)) 48 in Ret (node_events h, b)) =
    Ret ([(EV_KEY, 30, 1); (EV_KEY, 240, 0); (EV_KEY, 48, 1); (EV_KEY, 240, 0); InputFacts.report;
          (EV_KEY, 48, 1); (EV_KEY, 30, 0); (EV_KEY, 240, 1); (EV_KEY, 48, 0); InputFacts.report], false).
Proof. vm_compute. reflexivity. Qed.

(** A key of the second half of the page is not seen in a slot: its usage is taken as negative. *)
Lemma modifier_in_slot_ignored : reported key_slots [[224; 0]] = Ret [].
Proof. vm_compute. reflexivity. Qed.

(** Padding of half a byte at a byte boundary passes the checks and reaches the code
    that is marked unreachable. *)
Lemma padding_reaches_unreachable :
  fields_supported 0 (fields [Padding 4; Padding 4; Fields 1 8 [48]]) = true /\
  reported (fields [Padding 4; Padding 4; Fields 1 8 [48]]) [[0; 1]] = Undef.
Proof. split; vm_compute; reflexivity. Qed.

(** An item cut off at the end of its descriptor is read one byte past it. *)
Lemma descriptor_overrun : parse_report_descriptor 9 [117] 1 new_mouse = Undef.
Proof. vm_compute. reflexivity. Qed.

(** A keyboard that only has slots does not announce that it has keys. *)
Lemma slots_not_announced :
  (let! h := parse_report_descriptor 512 (flat_map encode_item
      [mkShort 1 0 [7]; mkShort 1 7 [8]; mkShort 1 9 [2]; mkShort 2 1 [0]; mkShort 2 2 [255]; mkShort 0 8 [0]]) 12 new_mouse in
   match h with
   | Some h => let! a := Bitmap.get (key_bitmap (hid_device h)) 30 in
               let! b := Bitmap.get (ev_bitmap (hid_device h)) EV_KEY in Ret (input_items h, a, b)
   | None => Undef
   end) = Ret (key_slots, true, false).
Proof. vm_compute. reflexivity. Qed.

(** A slot whose greatest usage is the greatest number of 32 bits keeps the driver busy
    forever: no number of turns ends the loop over its usages. *)
Lemma array_keys_diverge fuel usage keys K : keys_down keys K -> 0 <= usage < 4294967296 ->
  array_keys fuel usage 4294967295 keys = Ret None.
Proof.
  revert usage keys K. induction fuel as [|fuel IH]; intros usage keys K Hk Hu; cbn [array_keys];
    rewrite (proj2 (Z.ltb_ge _ _)) by lia; [done|].
  assert (0 <= u32 (usage + 1) < 4294967296) by word. destruct (_ =? 7); [|by eapply IH].
  destruct (key_of_usage_Ret usage) as (c & Hc & Hr). unfold key_of_usage in Hc. rewrite Hc. cbn [obind].
  destruct (keys_down_set keys K c true Hk Hr) as (b & -> & Hb). cbn [obind]. by eapply IH.
Qed.

Lemma greedy_slot_hangs fuel : (8 <= fuel)%nat ->
  parse_report_descriptor fuel (flat_map encode_item
    [mkShort 1 7 [8]; mkShort 1 9 [1]; mkShort 2 2 [255; 255; 255; 255]; mkShort 0 8 [0]]) 11 new_mouse = Ret None.
Proof.
  intros Hf. unfold parse_report_descriptor.
  set (its := [mkShort 1 7 [8]; mkShort 1 9 [1]; mkShort 2 2 [255; 255; 255; 255]; mkShort 0 8 [0]]).
  assert (parse_loop fuel (flat_map encode_item its) 11 0 (parser_init []) =
    Ret (Some (mkParser 0 8 1 [] 0 0 [mkItem 8 0 0 0 4294967295 true false 0] true))) as Hp.
  { assert (Forall short_ok its) as Hok by (repeat constructor; simpl; lia).
    etrans; [exact (parse_loop_items its [] [] (parser_init []) fuel Hok ltac:(vm_compute; discriminate) ltac:(simpl; lia))|].
    reflexivity. }
  change (input_items new_mouse) with (@nil InputItem). rewrite Hp.
  cbn [obind usable items fields_supported andb type size_bits Z.eqb orb negb announce is_array usage_min usage_max].
  erewrite array_keys_diverge; [done|apply new_mouse_announces|lia].
Qed.
