(* ===== verification/Initramfs.v ===== *)
(** * The boot archive: fs/initramfs

    The kernel's first files come from a tar archive in memory: headers of 512 bytes, each
    followed by its file's bytes in whole blocks of 512. An archive laid out from records loads
    as those records, in order. *)

From S2P Require Import Prelude Algorithm CString TimeSpec Links Vfs Tmpfs Printf Dev.

Module initramfs.

(** ** Headers *)

(** A member of [USTARHeader] is its offset; a pointer to it is the memory from there on. *)
Definition h_name : nat := 0.
Definition h_mode : nat := 100.
Definition h_size : nat := 124.
Definition h_mtime : nat := 136.
Definition h_typeflag : nat := 156.
Definition h_linkname : nat := 157.
Definition h_magic : nat := 257.
Definition h_devmajor : nat := 329.
Definition h_devminor : nat := 337.
Definition h_prefix : nat := 345.

(** The loop of [octal_to_bin]; a [char] is signed. *)
Fixpoint octal_loop (str : mem) (len : nat) (value : Z) : outcome Z :=
  match str with
  | [] => Undef
  | c :: str =>
      if c =? 0 then Ret value else
      match len with
      | O => Ret value
      | S len => octal_loop str len (u64 (value * 8 + (i8 c - 48)))
      end
  end.
Definition octal_to_bin (str : mem) (len : nat) : outcome Z := octal_loop str (len - 1) 0.

(** [memcpy] into the middle of an array. *)
Definition copy_at (dst : mem) (off : nat) (src : mem) (n : nat) : outcome mem :=
  if decide (n <= length src /\ off + n <= length dst)%nat then Ret (splice off (take n src) dst) else Undef.

Definition read_path (dest name prefix : mem) : outcome mem :=
  let! c := deref (head prefix) in
  if c =? 0 then let! dest := copy_at dest 0 name 100 in copy_at dest 100 [0] 1 else
  let! prefix_len := strnlen prefix 155 in
  let! dest := copy_at dest 0 prefix prefix_len in
  let! dest := copy_at dest prefix_len [slash] 1 in
  let! dest := copy_at dest (prefix_len + 1) name 100 in
  copy_at dest 256 [0] 1.

(** What [load_into] takes from a header. *)
Record header := mkHeader {
  f_size : Z; f_dev : Z; f_mode : Z; f_mtime : TimeSpec;
  f_path : mem; f_link_path : mem; f_type : Z
}.

Definition read_header (h : mem) : outcome header :=
  let at_ n := drop n h in
  let! size := octal_to_bin (at_ h_size) 12 in
  let! dev_major := octal_to_bin (at_ h_devmajor) 8 in
  let! dev_minor := octal_to_bin (at_ h_devminor) 8 in
  let! mode := octal_to_bin (at_ h_mode) 8 in
  let! mtime := octal_to_bin (at_ h_mtime) 12 in
  let! current_path := read_path (replicate 257 0) (at_ h_name) (at_ h_prefix) in
  let! current_link_path := read_path (replicate 257 0) (at_ h_linkname) (at_ h_prefix) in
  let! typeflag := deref (h !! h_typeflag) in
  Ret (mkHeader size (dev.make_dev_id (u32 dev_major) (u32 dev_minor)) mode (from_seconds mtime)
         current_path current_link_path typeflag).

(** ** Loading *)

Section load.
Context {D : Type} `{FilesystemOps D} `{VNodeOps D}.
(** [CharDevNode::create_node] and [BlockDevNode::create_node] in the store of vnodes: the new
    vnode, or null. *)
Context (char_node block_node : Z -> vfs D -> Z * vfs D) (depth : nat).
Implicit Types s : vfs D.

Definition set_entry_vnode (e v : Z) s : outcome (vfs D) :=
  let! en := deref (entries s !! e) in Ret (put_entry e (en <| e_vnode := v |>) s).

Definition entry_write (e : Z) (buf : list Z) s : outcome (vfs D) :=
  let! (v, _) := vnode_of s e in
  let! (_, s) := v_write v None buf 0 s in Ret s.

(** The three times of the entry's vnode, when there is one. *)
Definition set_times (e : Z) (mtime : TimeSpec) s : outcome (vfs D) :=
  let! en := deref (entries s !! e) in
  if e_vnode en =? 0 then Ret s else
  let! vn := deref (vnodes s !! e_vnode en) in
  Ret (put_vnode (e_vnode en) (vn <| creation_time := mtime |> <| modification_time := mtime |>
                                  <| access_time := mtime |>) s).

(** The [switch] on the type; [contents] is the memory after the header. *)
Definition create_node (dir e : Z) (h : header) (contents : mem) s : outcome (vfs D) :=
  let t := f_type h in
  if (t =? 48) || (t =? 0) then
    let! s := entry_create s e REGULAR 0 0 (f_mode h) in
    if Z.of_nat (length contents) <? f_size h then Undef
    else entry_write e (take (Z.to_nat (f_size h)) contents) s
  else if t =? 49 then
    let! (target, s) := path_to_entry depth (f_link_path h) dir true s in
    let! ten := deref (entries s !! target) in
    let! s := set_entry_vnode e (e_vnode ten) s in
    let! _ := assert (negb (e_vnode ten =? 0)) in
    entry_create s e HARD_LINK no_id no_id no_id
  else if t =? 50 then
    let! s := entry_create s e SYMLINK 0 0 511 in
    let! n := strlen (f_link_path h) in
    entry_write e (take n (f_link_path h)) s
  else if t =? 51 then
    let (v, s) := char_node (f_dev h) s in
    let! s := set_entry_vnode e v s in
    entry_create s e CHAR_DEVICE 0 0 (f_mode h)
  else if t =? 52 then
    let (v, s) := block_node (f_dev h) s in
    let! s := set_entry_vnode e v s in
    entry_create s e BLOCK_DEVICE 0 0 (f_mode h)
  else if t =? 53 then entry_create s e DIRECTORY 0 0 (f_mode h)
  else Ret s.

(** The body of the loop for one header. *)
Definition load_record (dir : Z) (h : header) (contents : mem) s : outcome (vfs D) :=
  let! c := strcmp (f_path h) (bytes "./" ++ [0]) in
  if c =? 0 then Ret s else
  let! (e, s) := path_to_entry depth (f_path h) dir true s in
  let! en := deref (entries s !! e) in
  let! _ := assert (e_vnode en =? 0) in
  let! s := create_node dir e h contents s in
  if f_type h =? 49 then Ret s else set_times e (f_mtime h) s.

(** [file] is the memory from [file_addr] on, [current] an offset in it. [None]: the turns
    [fuel] gives were not enough. *)
Fixpoint load_loop (fuel : nat) (dir : Z) (file : mem) (file_size current : Z) s : outcome (option (vfs D)) :=
  match fuel with
  | O => Ret None
  | S fuel =>
      let here := drop (Z.to_nat current) file in
      let! magic := memcmp_eq (drop h_magic here) (bytes "ustar") 5 in
      if negb magic then Ret (Some s) else
      let! h := read_header here in
      let! s := load_record dir h (drop 512 here) s in
      let current := u64 (current + 512 + klib.align_up (f_size h) 512) in
      if current >=? file_size then Ret (Some s) else load_loop fuel dir file file_size current s
  end.

(** A turn of the loop goes on by a block at least. *)
Definition load_into (dir : Z) (file : mem) (file_size : Z) s : outcome (option (vfs D)) :=
  load_loop (S (Z.to_nat (file_size / 512))) dir file file_size 0 s.
End load.

End initramfs.

(** ** Archives *)

Section archives.
Import initramfs.

(** A record: the strings of its header, its numbers, the fields the loader ignores and its file. *)
Record record := mkRecord {
  r_name : list Z; r_prefix : list Z; r_link : list Z;
  r_mode : Z; r_mtime : Z; r_major : Z; r_minor : Z;
  r_type : Z;
  r_uid : list Z; r_gid : list Z; r_sum : list Z;
  r_data : list Z
}.

Definition pad (n : nat) (l : list Z) : list Z := l ++ replicate (n - length l) 0.
(** [n] octal digits. *)
Fixpoint octal (n : nat) (v : Z) : list Z :=
  match n with
  | O => []
  | S n => (48 + v / 8 ^ Z.of_nat n mod 8) :: octal n v
  end.
Definition octal_field (width : nat) (v : Z) : list Z := octal (width - 1) v ++ [0].

Definition header_fields (r : record) : list (list Z) :=
  [pad 100 (r_name r); octal_field 8 (r_mode r); r_uid r; r_gid r; octal_field 12 (Z.of_nat (length (r_data r)));
   octal_field 12 (r_mtime r); r_sum r; [r_type r]; pad 100 (r_link r); bytes "ustar" ++ [0]; bytes "00";
   replicate 32 0; replicate 32 0; octal_field 8 (r_major r); octal_field 8 (r_minor r); pad 155 (r_prefix r); replicate 12 0].
Definition blocks (n : nat) : nat := Z.to_nat (klib.align_up (Z.of_nat n) 512).
Definition encode_record (r : record) : list Z := concat (header_fields r) ++ pad (blocks (length (r_data r))) (r_data r).
Definition archive (rs : list record) : list Z := flat_map encode_record rs.

Record record_ok (r : record) : Prop := {
  ok_name : (length (r_name r) <= 100)%nat;
  ok_prefix : (length (r_prefix r) <= 155)%nat /\ chars (r_prefix r);
  ok_link : (length (r_link r) <= 100)%nat;
  ok_mode : 0 <= r_mode r < 8 ^ 7;
  ok_mtime : 0 <= r_mtime r < 8 ^ 11;
  ok_major : 0 <= r_major r < 8 ^ 7;
  ok_minor : 0 <= r_minor r < 8 ^ 7;
  ok_ignored : length (r_uid r) = 8%nat /\ length (r_gid r) = 8%nat /\ length (r_sum r) = 8%nat;
  ok_data : Z.of_nat (length (r_data r)) < 8 ^ 11
}.

(** The path of a name: after the prefix, when there is one. *)
Definition full_path (r : record) (name : list Z) : mem :=
  pad 257 (match r_prefix r with [] => name | prefix => prefix ++ slash :: name end).
Definition header_of (r : record) : header :=
  mkHeader (Z.of_nat (length (r_data r))) (dev.make_dev_id (r_major r) (r_minor r)) (r_mode r)
    (from_seconds (r_mtime r)) (full_path r (r_name r)) (full_path r (r_link r)) (r_type r).

(** *** The fields of a header *)

Lemma length_pad n l : (length l <= n)%nat -> length (pad n l) = n.
Proof. intros. unfold pad. rewrite length_app, length_replicate. lia. Qed.

Lemma length_octal n v : length (octal n v) = n.
Proof. induction n as [|n IH]; simpl; congruence. Qed.

Lemma length_octal_field n v : (0 < n)%nat -> length (octal_field n v) = n.
Proof. intros. unfold octal_field. rewrite length_app, length_octal. simpl. lia. Qed.

Lemma octal_loop_digits n v rest len acc : 0 <= v < 8 ^ Z.of_nat n -> (n <= len)%nat -> 0 <= acc ->
  (acc + 1) * 8 ^ Z.of_nat n <= 18446744073709551616 ->
  octal_loop (octal n v ++ 0 :: rest) len acc = Ret (acc * 8 ^ Z.of_nat n + v).
Proof.
  assert (forall v, 0 <= v -> octal_loop (octal n v ++ 0 :: rest) len acc = Ret (acc * 8 ^ Z.of_nat n + v mod 8 ^ Z.of_nat n) ->
    0 <= v < 8 ^ Z.of_nat n -> octal_loop (octal n v ++ 0 :: rest) len acc = Ret (acc * 8 ^ Z.of_nat n + v)) as Hred.
  { intros w _ -> Hw. by rewrite Z.mod_small. }
  intros Hv Hl Ha Hb. apply Hred; [lia| |done]. clear Hred. destruct Hv as [Hv _].
  revert len acc Hl Ha Hb. induction n as [|n IH]; intros len acc Hl Ha Hb.
  - simpl. rewrite Z.mod_1_r. f_equal. lia.
  - destruct len as [|len]; [lia|]. cbn [octal app octal_loop]. rewrite Nat2Z.inj_succ, Z.pow_succ_r in * by lia.
    assert (0 < 8 ^ Z.of_nat n) as Hp by lia.
    set (p := 8 ^ Z.of_nat n) in *. pose proof (Z.mod_pos_bound (v / p) 8 ltac:(lia)) as Hd. set (d := v / p mod 8) in *.
    rewrite (proj2 (Z.eqb_neq _ _)) by lia. unfold i8. replace ((48 + d + 128) mod 256 - 128 - 48) with d by lia.
    rewrite u64_small by nia. rewrite IH by (lia || nia). f_equal.
    replace (v mod (8 * p)) with (v mod p + p * d); [lia|]. unfold d. rewrite (Z.mul_comm 8 p), Z.rem_mul_r by lia. done.
Qed.

Lemma octal_to_bin_field width v rest : (0 < width < 20)%nat -> 0 <= v < 8 ^ Z.of_nat (width - 1) ->
  octal_to_bin (octal_field width v ++ rest) width = Ret v.
Proof.
  intros Hw Hv. unfold octal_to_bin, octal_field. rewrite <- app_assoc. cbn [app].
  rewrite octal_loop_digits; [f_equal; lia|done|lia|lia|]. rewrite Z.add_0_l, Z.mul_1_l.
  etrans; [apply (Z.pow_le_mono_r 8 _ 18); lia|]. vm_compute. discriminate.
Qed.

(** The memory from a field on. *)
Lemma drop_fields (k : nat) (fs : list (list Z)) (rest : list Z) : drop (sum_list (length <$> take k fs)) (concat fs ++ rest) = concat (drop k fs) ++ rest.
Proof.
  revert k. induction fs as [|f fs IH]; intros [|k]; try done. cbn [take fmap list_fmap sum_list concat drop].
  cbn. rewrite <- app_assoc, drop_app_add'. exact (IH k). done.
Qed.

Definition widths : list nat := [100; 8; 8; 8; 12; 12; 8; 1; 100; 6; 2; 32; 32; 8; 8; 155; 12]%nat.

Lemma header_widths r : record_ok r -> length <$> header_fields r = widths.
Proof.
  intros [Hn [Hp _] Hl _ _ _ _ (Hu & Hg & Hs) _]. cbn [header_fields fmap list_fmap].
  rewrite !length_pad, !length_octal_field, Hu, Hg, Hs by lia. done.
Qed.

Lemma header_at k r rest : record_ok r ->
  drop (sum_list (take k widths)) (concat (header_fields r) ++ rest) = concat (drop k (header_fields r)) ++ rest.
Proof. intros Hr. rewrite <- (header_widths r Hr), <- fmap_take. apply drop_fields. Qed.

Lemma length_header r : record_ok r -> length (concat (header_fields r)) = 512%nat.
Proof.
  intros Hr. rewrite length_concat. change (map length (header_fields r)) with (length <$> header_fields r).
  rewrite header_widths by done. reflexivity.
Qed.

(** *** Paths *)

Lemma pad_pad n k m l : (length l <= k)%nat -> (length m + k <= n)%nat -> pad n (m ++ pad k l) = pad n (m ++ l).
Proof.
  intros Hl Hn. unfold pad. rewrite !length_app, length_replicate, <- !app_assoc. do 2 f_equal.
  rewrite <- replicate_add. f_equal. lia.
Qed.

Lemma copy_at_pad n m l rest : (length m + length l <= n)%nat ->
  copy_at (pad n m) (length m) (l ++ rest) (length l) = Ret (pad n (m ++ l)).
Proof.
  intros Hn. unfold copy_at. rewrite decide_True by (rewrite length_pad, length_app by lia; lia).
  f_equal. rewrite take_app_length. unfold splice, pad. rewrite take_app_length, length_app.
  rewrite <- app_assoc. do 2 f_equal. rewrite drop_app_add', drop_replicate by done. f_equal. lia.
Qed.

Lemma copy_at_end m : (length m <= 256)%nat -> copy_at (pad 257 m) 256 [0] 1 = Ret (pad 257 m).
Proof.
  intros Hm. unfold copy_at. rewrite decide_True by (rewrite length_pad by lia; simpl; lia). f_equal.
  apply list_eq. intros i. rewrite lookup_splice by (rewrite length_pad by lia; simpl; lia).
  case_decide as Hi; [|done]. cbn [take length] in *. replace (i - 256)%nat with 0%nat by lia.
  unfold pad. rewrite lookup_app_r, lookup_replicate_2 by lia. done.
Qed.

Lemma strnlen_pad l rest : chars l -> (length l <= 155)%nat -> strnlen (pad 155 l ++ rest) 155 = Ret (length l).
Proof.
  intros Hl Hn. assert (forall k, (length l <= k)%nat ->
    strnlen ((l ++ replicate (k - length l) 0) ++ rest) k = Ret (length l)) as H; [|by apply H].
  clear Hn. induction Hl as [|c l Hc _ IH]; intros k Hk.
  - destruct k; [done|]. reflexivity.
  - destruct k as [|k]; [simpl in Hk; lia|]. cbn [app strnlen head tail deref obind length].
    rewrite (proj2 (Z.eqb_neq c 0)) by done. cbn [length] in Hk. change (S k - S (length l))%nat with (k - length l)%nat.
    rewrite IH by lia. done.
Qed.

Lemma read_path_spec name prefix X Y : (length name <= 100)%nat -> (length prefix <= 155)%nat -> chars prefix ->
  read_path (replicate 257 0) (pad 100 name ++ X) (pad 155 prefix ++ Y) =
    Ret (pad 257 (match prefix with [] => name | _ => prefix ++ slash :: name end)).
Proof.
  intros Hn Hp Hc. unfold read_path. change (replicate 257 0) with (pad 257 []).
  destruct prefix as [|c p].
  - assert (head (pad 155 [] ++ Y) = Some 0) as -> by done. cbn [deref obind Z.eqb].
    pose proof (copy_at_pad 257 [] (pad 100 name) X) as H. rewrite length_pad in H by done. cbn [app length] in H.
    rewrite H by lia. cbn [obind].
    pose proof (pad_pad 257 100 [] name Hn ltac:(simpl; lia)) as Hpp. cbn [app] in Hpp. rewrite Hpp.
    unfold copy_at. rewrite decide_True by (rewrite length_pad by lia; simpl; lia). f_equal.
    apply list_eq. intros i. rewrite lookup_splice by (rewrite length_pad by lia; simpl; lia).
    case_decide as Hi; [|done]. cbn [take length] in *. replace (i - 100)%nat with 0%nat by lia.
    unfold pad. rewrite lookup_app_r, lookup_replicate_2 by lia. done.
  - assert (c <> 0) as Hc0 by (by apply Forall_inv in Hc). set (pf := c :: p) in *.
    assert (head (pad 155 pf ++ Y) = Some c) as -> by done. cbn [deref obind]. rewrite (proj2 (Z.eqb_neq c 0)) by done.
    rewrite strnlen_pad by done. cbn [obind].
    pose proof (copy_at_pad 257 [] pf (replicate (155 - length pf) 0 ++ Y)) as H. cbn [app length] in H.
    unfold pad at 2. rewrite <- app_assoc, H by lia. cbn [obind].
    pose proof (copy_at_pad 257 pf [slash] []) as H2. rewrite app_nil_r in H2. change (length [slash]) with 1%nat in H2.
    rewrite H2 by lia. cbn [obind]. clear H H2.
    pose proof (copy_at_pad 257 (pf ++ [slash]) (pad 100 name) X) as H. rewrite length_pad, length_app in H by done.
    change (length [slash]) with 1%nat in H. rewrite H by lia. cbn [obind].
    rewrite (pad_pad 257 100 (pf ++ [slash]) name) by (try rewrite length_app; cbn [length]; lia). rewrite <- app_assoc. cbn [app].
    apply copy_at_end. rewrite length_app. cbn [length]. lia.
Qed.

Lemma read_header_fields r rest : record_ok r -> read_header (concat (header_fields r) ++ rest) = Ret (header_of r).
Proof.
  intros Hr. pose proof Hr as [Hn [Hp Hc] Hl Hmode Hmtime Hmajor Hminor _ Hdata]. unfold read_header.
  assert (drop h_size (concat (header_fields r) ++ rest) = concat (drop 4 (header_fields r)) ++ rest) as -> by exact (header_at 4 r rest Hr).
  assert (drop h_devmajor (concat (header_fields r) ++ rest) = concat (drop 13 (header_fields r)) ++ rest) as -> by exact (header_at 13 r rest Hr).
  assert (drop h_devminor (concat (header_fields r) ++ rest) = concat (drop 14 (header_fields r)) ++ rest) as -> by exact (header_at 14 r rest Hr).
  assert (drop h_mode (concat (header_fields r) ++ rest) = concat (drop 1 (header_fields r)) ++ rest) as -> by exact (header_at 1 r rest Hr).
  assert (drop h_mtime (concat (header_fields r) ++ rest) = concat (drop 5 (header_fields r)) ++ rest) as -> by exact (header_at 5 r rest Hr).
  assert (drop h_name (concat (header_fields r) ++ rest) = concat (drop 0 (header_fields r)) ++ rest) as -> by exact (header_at 0 r rest Hr).
  assert (drop h_linkname (concat (header_fields r) ++ rest) = concat (drop 8 (header_fields r)) ++ rest) as -> by exact (header_at 8 r rest Hr).
  assert (drop h_prefix (concat (header_fields r) ++ rest) = concat (drop 15 (header_fields r)) ++ rest) as -> by exact (header_at 15 r rest Hr).
  assert ((concat (header_fields r) ++ rest) !! h_typeflag = Some (r_type r)) as ->.
  { rewrite <- (Nat.add_0_r h_typeflag), <- lookup_drop.
    assert (drop h_typeflag (concat (header_fields r) ++ rest) = concat (drop 7 (header_fields r)) ++ rest) as -> by exact (header_at 7 r rest Hr).
    done. }
  cbn [header_fields drop concat]. rewrite <- !(app_assoc _ _ rest).
  rewrite !octal_to_bin_field by (done || (split; [lia|]; exact Hdata) || lia). cbn [obind].
  rewrite !read_path_spec by done. cbn [obind deref]. unfold header_of, full_path.
  assert (u32 (r_major r) = r_major r /\ u32 (r_minor r) = r_minor r) as [-> ->]
    by (unfold u32; change (8 ^ 7) with 2097152 in *; rewrite !Z.mod_small by lia; done).
  by destruct (r_prefix r).
Qed.

(** *** The loop *)

(** An archive ends, or goes on with empty blocks. *)
Definition ended (rs : list record) (trailer : list Z) : Prop :=
  trailer = [] /\ rs <> [] \/ exists n, trailer = replicate (258 + n) 0.

Lemma magic_there r rest : record_ok r -> memcmp_eq (drop h_magic (concat (header_fields r) ++ rest)) (bytes "ustar") 5 = Ret true.
Proof.
  intros Hr. assert (drop h_magic (concat (header_fields r) ++ rest) = concat (drop 9 (header_fields r)) ++ rest) as -> by exact (header_at 9 r rest Hr).
  reflexivity.
Qed.

Lemma blocks_spec n : Z.of_nat n < 8 ^ 11 ->
  klib.align_up (Z.of_nat n) 512 = Z.of_nat (blocks n) /\ (n <= blocks n < n + 512)%nat.
Proof.
  intros Hn. change (8 ^ 11) with 8589934592 in Hn.
  destruct (klib.align_up_spec (Z.of_nat n) 512) as (H1 & _ & H2); [lia..|]. unfold blocks. lia.
Qed.

Lemma length_encode r : record_ok r -> length (encode_record r) = (512 + blocks (length (r_data r)))%nat.
Proof.
  intros Hr. unfold encode_record. destruct (blocks_spec _ (ok_data r Hr)) as [_ Hb].
  rewrite length_app, length_header, length_pad by (done || lia). done.
Qed.

Section loop.
Context {D : Type} `{FilesystemOps D} `{VNodeOps D}.
Context (char_node block_node : Z -> vfs D -> Z * vfs D) (depth : nat).

(** The records, one after the other. *)
Fixpoint load_records (dir : Z) (rs : list record) (s : vfs D) : outcome (vfs D) :=
  match rs with
  | [] => Ret s
  | r :: rs =>
      let! s := load_record char_node block_node depth dir (header_of r) (r_data r) s in
      load_records dir rs s
  end.

(** A file is its bytes, whatever follows them. *)
Lemma load_record_contents dir r rest s :
  load_record char_node block_node depth dir (header_of r) (r_data r ++ rest) s =
  load_record char_node block_node depth dir (header_of r) (r_data r) s.
Proof.
  unfold load_record, initramfs.create_node. cbn [f_size header_of]. rewrite length_app, Nat2Z.id, take_app_length, take_ge by lia.
  rewrite !(proj2 (Z.ltb_ge _ _)) by lia. done.
Qed.

Lemma load_loop_archive (fuel : nat) dir pre rs trailer s : Forall record_ok rs -> (length rs < fuel)%nat ->
  ended rs trailer ->
  Z.of_nat (length (pre ++ archive rs ++ trailer)) < 9223372036854775808 ->
  load_loop char_node block_node depth fuel dir (pre ++ archive rs ++ trailer)
    (Z.of_nat (length (pre ++ archive rs ++ trailer))) (Z.of_nat (length pre)) s =
  let! s := load_records dir rs s in Ret (Some s).
Proof.
  intros Hrs. revert fuel pre s. induction Hrs as [|r rs Hr Hrs IH]; intros fuel pre s Hf Ht Hlen.
  - destruct fuel as [|fuel]; [simpl in Hf; lia|]. destruct Ht as [[_ []]|[n ->]]; [done|]. cbn [load_loop archive flat_map app load_records obind].
    rewrite Nat2Z.id, drop_app_length. rewrite drop_replicate. reflexivity.
  - destruct fuel as [|fuel]; [simpl in Hf; lia|]. pose proof (length_encode r Hr) as Hle.
    destruct (blocks_spec _ (ok_data r Hr)) as [Hal Hb].
    set (file := pre ++ archive (r :: rs) ++ trailer) in *.
    assert (file = (pre ++ encode_record r) ++ archive rs ++ trailer) as Hsplit.
    { unfold file, archive. cbn [flat_map]. by rewrite <- !app_assoc. }
    assert (exists X, drop (length pre) file = concat (header_fields r) ++ r_data r ++ X) as [X HX].
    { rewrite Hsplit, <- app_assoc, drop_app_length. unfold encode_record, pad. rewrite <- !app_assoc. eauto. }
    assert (length file = length (pre ++ encode_record r) + length (archive rs ++ trailer))%nat as Hlf by (by rewrite Hsplit, length_app).
    clearbody file. cbn [load_loop load_records]. rewrite Nat2Z.id, HX.
    rewrite magic_there by done. cbn [obind negb]. rewrite read_header_fields by done. cbn [obind].
    rewrite <- (length_header r Hr) at 1. rewrite drop_app_length, load_record_contents.
    destruct (load_record _ _ _ _ _ _ s) as [s1| |]; [|done..]. cbn [obind f_size header_of]. rewrite Hal.
    replace (u64 (Z.of_nat (length pre) + 512 + Z.of_nat (blocks (length (r_data r))))) with
      (Z.of_nat (length (pre ++ encode_record r))) by (rewrite length_app, Hle in *; rewrite u64_small; lia).
    destruct (Z.geb_spec (Z.of_nat (length (pre ++ encode_record r))) (Z.of_nat (length file))) as [Hge|Hge].
    + rewrite Hlf, length_app in Hge. destruct rs as [|r' rs]; [done|].
      inversion Hrs as [|? ? Hr' _]; subst. pose proof (length_encode r' Hr') as Hle'. unfold archive in Hge. cbn [flat_map] in Hge.
      rewrite !length_app, Hle' in Hge. lia.
    + specialize (IH fuel (pre ++ encode_record r) s1 ltac:(simpl in Hf; lia)). rewrite <- Hsplit in IH. apply IH; [|done].
      destruct Ht as [[-> _]|Ht]; [|by right]. left. split; [done|]. intros ->. rewrite Hlf in Hge.
      change (length (archive [] ++ [])) with 0%nat in Hge. rewrite Nat.add_0_r in Hge. clear -Hge. lia.
Qed.
End loop.


(** *** Examples *)

(** tmpfs; no devices. *)
#[local] Instance example_files : VNodeOps tmpfs := tmpfs_vnode_ops (fun n => replicate n 170) VNode_defaults.
Definition no_node (id : Z) (s : vfs tmpfs) : Z * vfs tmpfs := (0, s).

Definition entry_of (name : string) (t : Z) (link : string) (d : string) : record :=
  mkRecord (bytes name) [] (bytes link) 420 1700000000 0 0 t (replicate 8 48) (replicate 8 48) (replicate 8 48) (bytes d).
Definition example_records : list record :=
  [entry_of "./" 53 "" ""; entry_of "etc/" 53 "" ""; entry_of "etc/motd" 48 "" "hello"; entry_of "motd" 50 "etc/motd" "";
   entry_of "again" 49 "etc/motd" ""].

(** The bytes of the file at a path. *)
Definition file_at (path : string) (s : vfs tmpfs) : outcome (list Z) :=
  let! (e, s) := path_to_entry 9 (bytes path ++ [0]) 0 true s in
  let! (v, _) := vnode_of s e in
  let! (_, data, _) := v_read v None 100 0 s in Ret data.

Lemma entry_of_ok name t link d : (String.length name <= 100)%nat -> (String.length link <= 100)%nat ->
  Z.of_nat (String.length d) < 8 ^ 11 -> record_ok (entry_of name t link d).
Proof.
  assert (forall x, length (bytes x) = String.length x) as Hl.
  { intros x. unfold bytes. rewrite length_map. induction x; simpl; congruence. }
  intros Hn Hk Hd. split; cbn [entry_of r_name r_prefix r_link r_mode r_mtime r_major r_minor r_uid r_gid r_sum r_data];
    rewrite ?Hl; try done; try lia. by split; [simpl; lia|constructor].
Qed.


(** The prefix of a record's name is put before its link's target, too. *)
Lemma link_gets_prefix :
  f_link_path (header_of (mkRecord (bytes "a") (bytes "usr/share") (bytes "b") 420 0 0 0 50 [] [] [] [])) = pad 257 (bytes "usr/share/b").
Proof. vm_compute. reflexivity. Qed.

(** A path that is there already stops the kernel. *)
Lemma duplicate_panics :
  load_into no_node no_node 9 (root root_fs) (archive [entry_of "a" 48 "" ""; entry_of "a" 48 "" ""]) 1024 root_fs = Panic.
Proof. vm_compute. reflexivity. Qed.

(** A size with a character below the digits is negative: the loader looks at the same
    header again for ever. *)
Definition stuck_archive : list Z :=
  let h := archive [entry_of "./" 53 "" ""] in splice h_size (bytes "/000" ++ [0]) h.
Lemma bad_size_never_ends fuel (s : vfs tmpfs) :
  load_loop no_node no_node 9 fuel (root root_fs) stuck_archive 512 0 s = Ret None.
Proof.
  assert (exists h, read_header (drop (Z.to_nat 0) stuck_archive) = Ret h /\
    u64 (0 + 512 + klib.align_up (f_size h) 512) = 0 /\ strcmp (f_path h) (bytes "./" ++ [0]) = Ret 0) as (h & Hh & Hz & Hp).
  { eexists. split; [vm_compute; reflexivity|]. split; vm_compute; reflexivity. }
  induction fuel as [|fuel IH]; [done|]. cbn [load_loop].
  assert (memcmp_eq (drop h_magic (drop (Z.to_nat 0) stuck_archive)) (bytes "ustar") 5 = Ret true) as -> by (vm_compute; reflexivity).
  cbn [obind negb]. rewrite Hh. cbn [obind]. unfold load_record. rewrite Hp. cbn [obind Z.eqb]. rewrite Hz. exact IH.
Qed.

End archives.
