(* ===== verification/Access.v ===== *)
(** * Access to another address space: [access_memory] of mem/vmm.cpp

    The kernel reads the arguments of a process through its page tables, page by page. A
    read gives the bytes the processor would find at those addresses. *)

From S2P Require Import Prelude Algorithm Vector Links Sched FdTable Pmm PmmProps Isr Vmm VmmTables VmmFault.
Import mem.

Module access.

(** A page is 512 words; its bytes, the lowest of a word first. *)
Definition word_bytes (w : Z) : list Z := map (fun i => Z.shiftr w (8 * Z.of_nat i) mod 256) (seq 0 8).
Definition page_bytes (ws : list Z) : list Z := flat_map word_bytes ws.
Definition bytes_word (bs : list Z) : Z := foldr (fun b w => b + 256 * w) 0 bs.
Fixpoint words_of (n : nat) (bs : list Z) : list Z :=
  match n with
  | O => []
  | S n => bytes_word (take 8 bs) :: words_of n (drop 8 bs)
  end.

(** [memcpy] from and to the page at [phy]. *)
Definition page_read (s : machine) (phy offset count : Z) : outcome (list Z) :=
  let! ws := deref (phys s !! phy) in
  if offset + count <=? PAGE_SIZE then Ret (take (Z.to_nat count) (drop (Z.to_nat offset) (page_bytes ws))) else Undef.
Definition page_write (s : machine) (phy offset : Z) (bs : list Z) : outcome machine :=
  let! ws := deref (phys s !! phy) in
  if offset + Z.of_nat (List.length bs) <=? PAGE_SIZE
  then Ret (s <| phys ::= <[phy := words_of 512 (splice (Z.to_nat offset) bs (page_bytes ws))]> |>) else Undef.

Section access.
Context (read_page : FileDescription -> Z -> list Z) (fuel : nat).

(** The loop over the pages; [target] is the buffer. *)
Fixpoint access_loop (turns : nat) (s : machine) (g start end_ end_page page_virt transferred : Z)
    (target : list Z) (write : bool) : outcome (Z * list Z * machine) :=
  if page_virt >? end_page then Ret (transferred, target, s) else
  match turns with
  | O => Undef
  | S turns =>
      let offset := if page_virt <? start then start - page_virt else 0 in
      let bytes_in_page := u64 (PAGE_SIZE - offset) in
      let bytes_in_page := if u64 (page_virt + PAGE_SIZE) >=? end_
                           then u64 (bytes_in_page - (u64 (page_virt + PAGE_SIZE) - end_)) else bytes_in_page in
      if bytes_in_page =? 0 then Ret (transferred, target, s) else
      let! (page_phy, s) := get_physical_addr read_page fuel s g page_virt in
      if page_phy =? - EFAULT then Ret (if transferred =? 0 then - EFAULT else transferred, target, s) else
      let! (target, s) :=
        if write then
          if transferred + bytes_in_page <=? Z.of_nat (List.length target) then
            let! s := page_write s page_phy offset
                        (take (Z.to_nat bytes_in_page) (drop (Z.to_nat transferred) target)) in
            Ret (target, s)
          else Undef
        else
          let! bs := page_read s page_phy offset bytes_in_page in
          if transferred + bytes_in_page <=? Z.of_nat (List.length target)
          then Ret (splice (Z.to_nat transferred) bs target, s) else Undef in
      access_loop turns s g start end_ end_page (u64 (page_virt + PAGE_SIZE)) (transferred + bytes_in_page) target write
  end.

(** The pages of the interval, and a turn to leave the loop; an interval that ends with
    the last page of the address space makes it go round. *)
Definition access_memory (s : machine) (g virt : Z) (target : list Z) (count : Z) (write : bool)
    : outcome (Z * list Z * machine) :=
  let end_ := u64 (virt + count) in
  let start_page := klib.align_down virt PAGE_SIZE in
  let end_page := klib.align_down end_ PAGE_SIZE in
  access_loop (Z.to_nat (count / PAGE_SIZE + 2)) s g virt end_ end_page start_page 0 target write.
End access.

End access.
Import access.

(** ** What is at an address *)

(** The frame the page tables give an address, and the byte there. *)
Definition frame_of (s : machine) (g virt : Z) : Z := Z.land (pte s g virt) ADDR_MASK.
Definition user_byte (s : machine) (g virt : Z) : Z :=
  default 0 (ws ← phys s !! frame_of s g virt; page_bytes ws !! Z.to_nat (virt mod PAGE_SIZE)).
Definition user_bytes (s : machine) (g virt : Z) (n : nat) : list Z :=
  map (fun i => user_byte s g (virt + Z.of_nat i)) (seq 0 n).

(** A page of memory is mapped at the address. *)
Definition present (s : machine) (g virt : Z) : Prop :=
  pte s g virt &? PAGE_PRESENT = true /\ page_ok (phys s) (frame_of s g virt).
(** Nothing is, nor does a range cover it: a page fault there fails. *)
Definition absent (s : machine) (g virt : Z) : Prop :=
  pte s g virt &? PAGE_PRESENT = false /\ lookup_range s g virt = Ret None.

Lemma length_page_bytes ws : List.length (page_bytes ws) = (8 * List.length ws)%nat.
Proof.
  induction ws as [|w ws IH]; [done|]. unfold page_bytes in *. cbn [flat_map].
  rewrite length_app, IH. unfold word_bytes. rewrite length_map, length_seq. simpl. lia.
Qed.

Lemma same_page s g v1 v2 : v1 / PAGE_SIZE = v2 / PAGE_SIZE -> pte s g v1 = pte s g v2.
Proof. intros H. unfold pte. rewrite (indices_of_page v1 v2); [done|]. unfold page_of. by rewrite H. Qed.

Lemma length_user_bytes s g virt n : List.length (user_bytes s g virt n) = n.
Proof. unfold user_bytes. by rewrite length_map, length_seq. Qed.

Lemma user_bytes_nil s g virt : user_bytes s g virt 0 = [].
Proof. done. Qed.

Lemma lookup_user_bytes s g virt n i : (i < n)%nat -> user_bytes s g virt n !! i = Some (user_byte s g (virt + Z.of_nat i)).
Proof. intros Hi. unfold user_bytes. rewrite list_lookup_fmap, lookup_seq_lt by done. done. Qed.

Lemma user_bytes_app s g virt n k :
  user_bytes s g virt (n + k) = user_bytes s g virt n ++ user_bytes s g (virt + Z.of_nat n) k.
Proof.
  apply list_eq. intros i. destruct (decide (i < n)%nat).
  - rewrite lookup_app_l by (rewrite length_user_bytes; lia). by rewrite !lookup_user_bytes by lia.
  - rewrite lookup_app_r by (rewrite length_user_bytes; lia). rewrite length_user_bytes.
    destruct (decide (i < n + k)%nat).
    + rewrite !lookup_user_bytes by lia. do 2 f_equal. lia.
    + rewrite !lookup_ge_None_2 by (rewrite length_user_bytes; lia). done.
Qed.

Lemma splice_splice {A} (off : nat) (a b l : list A) : (off + List.length a + List.length b <= List.length l)%nat ->
  splice (off + List.length a) b (splice off a l) = splice off (a ++ b) l.
Proof.
  intros Hl. apply list_eq. intros i. rewrite !lookup_splice by (rewrite ?length_splice, ?length_app; lia).
  rewrite length_app. repeat case_decide; try lia.
  - rewrite lookup_app_r by lia. f_equal. lia.
  - by rewrite lookup_app_l by lia.
  - done.
Qed.

(** Reading part of a page that is present. *)
Lemma page_read_bytes s g page offset count :
  present s g page -> page mod PAGE_SIZE = 0 -> 0 <= offset -> 0 < count -> offset + count <= PAGE_SIZE ->
  page_read s (frame_of s g page) offset count = Ret (user_bytes s g (page + offset) (Z.to_nat count)).
Proof.
  intros [_ (ws & Hws & Hlen)] Hp Ho Hc Hle. unfold page_read. rewrite Hws. cbn [deref obind].
  rewrite (proj2 (Z.leb_le _ _)) by lia. f_equal. apply list_eq. intros i.
  pose proof (length_page_bytes ws) as Hlb. rewrite Hlen in Hlb. unfold PAGE_SIZE in *.
  destruct (decide (i < Z.to_nat count)%nat).
  - rewrite lookup_user_bytes by lia. rewrite lookup_take_lt, lookup_drop by lia.
    unfold user_byte. assert (frame_of s g (page + offset + Z.of_nat i) = frame_of s g page) as ->.
    { unfold frame_of. f_equal. apply same_page. unfold PAGE_SIZE. lia. }
    rewrite Hws. cbn [mbind option_bind]. unfold PAGE_SIZE.
    replace (Z.to_nat ((page + offset + Z.of_nat i) mod 4096)) with (Z.to_nat offset + i)%nat by lia.
    destruct (lookup_lt_is_Some_2 (page_bytes ws) (Z.to_nat offset + i)) as [b Hb]; [lia|]. by rewrite Hb.
  - rewrite !lookup_ge_None_2; [done|rewrite length_user_bytes; lia|rewrite length_take; lia].
Qed.

(** ** Reads *)

Section reads.
Context (read_page : FileDescription -> Z -> list Z) (fuel : nat).
Context (s : machine) (own : gmap Z owner) (g : Z) (m : Pagemap).
Hypothesis Hwf : tables_wf s own.
Hypothesis Hg : pagemaps s !! g = Some m.
Hypothesis Hfree : (4 <= free_count s)%nat.

Lemma get_present n page : present s g page -> get_physical_addr read_page n s g page = Ret (frame_of s g page, s).
Proof.
  intros [Hp _]. unfold get_physical_addr, frame_of.
  destruct (find_existing s own g page m Hwf Hg) as [[_ H0]|(a & gx & px & Hf & Ho & _ & _ & Hr)].
  - rewrite H0 in Hp. done.
  - rewrite Hf. cbn [obind]. rewrite read_word_ok by (apply pt_index_range || by eapply owned_page_ok). cbn [obind].
    rewrite (pte_reaches _ _ _ _ Hr) in *. by rewrite Hp.
Qed.

Lemma get_absent page : absent s g page -> user_virt page ->
  exists s', get_physical_addr read_page (S fuel) s g page = Ret (- EFAULT, s') /\ forall g' v, pte s' g' v = pte s g' v.
Proof.
  intros [Hp Hl] Hu. unfold get_physical_addr.
  destruct (fault_refused read_page s own g page Hwf (ex_intro _ m Hg) Hu Hfree fuel (or_intror Hl)) as (s' & Hs' & Hpte).
  exists s'. split; [|done].
  destruct (find_existing s own g page m Hwf Hg) as [[Hf _]|(a & gx & px & Hf & Ho & _ & _ & Hr)]; rewrite Hf; cbn [obind]; [done|].
  rewrite read_word_ok by (apply pt_index_range || by eapply owned_page_ok). cbn [obind].
  rewrite <- (pte_reaches _ _ _ _ Hr), Hp. done.
Qed.

(** Where a read of [start, end_) stops: at its end, or at a page that is absent. *)
Definition stops (start end_ lim : Z) : Prop :=
  lim = end_ \/ lim < end_ /\ (lim = start \/ lim mod PAGE_SIZE = 0) /\ absent s g (lim / PAGE_SIZE * PAGE_SIZE).
Definition result (start end_ lim : Z) : Z :=
  if lim =? end_ then end_ - start else if lim =? start then - EFAULT else lim - start.

Lemma access_loop_reads start end_ lim : 0 <= start -> start <= lim <= end_ -> end_ < 140737488355328 ->
  stops start end_ lim -> (forall v, start <= v < lim -> present s g (v / PAGE_SIZE * PAGE_SIZE)) ->
  forall turns page target, page mod PAGE_SIZE = 0 -> start - PAGE_SIZE < page -> 0 <= page ->
    page <= lim \/ lim = end_ -> end_ - page < Z.of_nat turns * PAGE_SIZE ->
    page < end_ + PAGE_SIZE -> end_ - start <= Z.of_nat (List.length target) ->
    let pos := Z.min lim (Z.max page start) in
    exists s', access_loop read_page (S fuel) turns s g start end_ (end_ / PAGE_SIZE * PAGE_SIZE) page (pos - start) target false =
      Ret (result start end_ lim, splice (Z.to_nat (pos - start)) (user_bytes s g pos (Z.to_nat (lim - pos))) target, s') /\
      forall g' v, pte s' g' v = pte s g' v.
Proof.
  unfold PAGE_SIZE. intros H0 Hlim Hend Hstop Hpres turns.
  assert (lim = end_ \/ lim < end_ /\ (lim = start \/ lim mod 4096 = 0)) as Hal by (unfold stops, PAGE_SIZE in Hstop; tauto).
  induction turns as [|turns IH]; intros page target Hp Hs Hp0 Hpl Ht Hpe Hlen; cbn zeta; cbn [access_loop];
    unfold PAGE_SIZE in *; destruct (Z.gtb_spec page (end_ / 4096 * 4096)) as [Hgt|Hle].
  1, 3: exists s; split; [|done]; assert (lim = end_) as -> by lia; rewrite (Z.min_l end_) by lia;
    unfold result; rewrite Z.eqb_refl, Z.sub_diag; change (Z.to_nat 0) with 0%nat; rewrite user_bytes_nil; by rewrite splice_nil.
  { exfalso. lia. }
  set (offset := if page <? start then start - page else 0).
  assert (page + offset = Z.max page start /\ 0 <= offset < 4096) as [Hoff Ho] by (unfold offset; destruct (Z.ltb_spec page start); lia).
  rewrite (u64_small (4096 - offset)), (u64_small (page + 4096)) by lia.
  set (q := Z.max page start) in *.
  set (bytes := if page + 4096 >=? end_ then u64 (4096 - offset - (page + 4096 - end_)) else 4096 - offset).
  assert (bytes = Z.min (page + 4096) end_ - q) as Hb.
  { unfold bytes. destruct (Z.geb_spec (page + 4096) end_); [rewrite u64_small by lia|]; lia. }
  destruct (Z.eqb_spec bytes 0) as [Hz|Hz].
  { exists s. split; [|done]. assert (lim = end_) as -> by lia. rewrite (Z.min_l end_) by lia.
    unfold result. rewrite Z.eqb_refl, Z.sub_diag. change (Z.to_nat 0) with 0%nat. rewrite user_bytes_nil. by rewrite splice_nil. }
  destruct (decide (q = lim)) as [Hq|Hq].
  - destruct Hstop as [Hl|(Hl & _ & Habs)]; [lia|]. unfold PAGE_SIZE in Habs.
    assert (lim / 4096 * 4096 = page) as Hpg by lia. rewrite Hpg in Habs.
    destruct (get_absent page Habs) as (s' & Hs' & Hpte); [unfold user_virt; lia|].
    exists s'. split; [|done]. rewrite Hs'. cbn [obind]. rewrite Z.eqb_refl, Hq, Z.min_id, Z.sub_diag.
    change (Z.to_nat 0) with 0%nat. rewrite user_bytes_nil, splice_nil. unfold result.
    rewrite (proj2 (Z.eqb_neq lim end_)) by lia.
    destruct (Z.eqb_spec (lim - start) 0), (Z.eqb_spec lim start); done || lia.
  - assert (q < lim) as Hql by lia. rewrite (Z.min_r lim q) by lia.
    assert (page + 4096 <= lim \/ lim = end_) as Hl by lia.
    pose proof (Hpres q ltac:(lia)) as Hpg. replace (q / 4096 * 4096) with page in Hpg by lia.
    rewrite (get_present _ page Hpg). cbn [obind].
    assert (0 <= frame_of s g page) as Hf by (unfold frame_of; apply Z.land_nonneg; right; done).
    unfold EFAULT. rewrite (proj2 (Z.eqb_neq (frame_of s g page) _)) by lia.
    rewrite page_read_bytes by (unfold PAGE_SIZE; (done || lia)). cbn [obind].
    rewrite (proj2 (Z.leb_le (q - start + bytes) _)) by lia. cbn [obind].
    rewrite Hoff.
    destruct (IH (page + 4096) (splice (Z.to_nat (q - start)) (user_bytes s g q (Z.to_nat bytes)) target))
      as (s' & Hs' & Hpte); [lia|lia|lia|lia|lia|lia|rewrite length_splice; rewrite ?length_user_bytes; lia|].
    cbn zeta in Hs'. replace (Z.min lim (Z.max (page + 4096) start)) with (q + bytes) in Hs' by lia.
    exists s'. split; [|done]. replace (q - start + bytes) with (q + bytes - start) by lia. rewrite Hs'. do 3 f_equal.
    replace (Z.to_nat (lim - q)) with (Z.to_nat bytes + Z.to_nat (lim - (q + bytes)))%nat by lia.
    rewrite user_bytes_app, Z2Nat.id by lia.
    replace (Z.to_nat (q + bytes - start)) with (Z.to_nat (q - start) + List.length (user_bytes s g q (Z.to_nat bytes)))%nat
      by (rewrite length_user_bytes; lia).
    apply splice_splice. rewrite !length_user_bytes. lia.
Qed.

(** What the kernel reads of another address space are the bytes the processor would find
    there: those of the whole interval, or those before the first page that nothing is mapped at. *)
Lemma access_memory_reads virt count target lim :
  0 <= virt -> 0 <= count -> virt + count < 140737488355328 -> count <= Z.of_nat (List.length target) ->
  virt <= lim <= virt + count -> stops virt (virt + count) lim ->
  (forall v, virt <= v < lim -> present s g (v / PAGE_SIZE * PAGE_SIZE)) ->
  exists s', access_memory read_page (S fuel) s g virt target count false =
    Ret (result virt (virt + count) lim, splice 0 (user_bytes s g virt (Z.to_nat (lim - virt))) target, s') /\
    forall g' v, pte s' g' v = pte s g' v.
Proof.
  intros H0 Hc Hend Hlen Hlim Hstop Hpres. unfold access_memory. rewrite (u64_small (virt + count)) by lia.
  rewrite !klib.align_down_page by lia. unfold PAGE_SIZE in *.
  destruct (access_loop_reads virt (virt + count) lim H0 Hlim Hend Hstop Hpres (Z.to_nat (count / 4096 + 2))
    (virt / 4096 * 4096) target) as (s' & Hs' & Hpte); unfold PAGE_SIZE; [lia..|].
  cbn zeta in Hs'. unfold PAGE_SIZE in Hs'. replace (Z.min lim (Z.max (virt / 4096 * 4096) virt)) with virt in Hs' by lia.
  rewrite Z.sub_diag in Hs'. exists s'. split; [exact Hs'|done].
Qed.
End reads.
