(* ===== verification/Procfs.v ===== *)
(** * procfs (fs/procfs.hpp, fs/procfs.cpp): files that print the state of the kernel

    An [InfoNode] has no contents of its own: a read at offset 0 prints them anew, through a
    buffer of 1024 characters, into the node's storage, and reads on serve what was printed.
    What the files tell is in [system]: the machine with its threads, processes and page
    tables, and what the rest of the kernel keeps that the machine has no place for. *)

From S2P Require Import Prelude Algorithm CString TimeSpec Cred Vector Links Sched Pmm Vmm Access Vfs Tmpfs VfsTree Mount Printf Process Wait.
Module procfs.

(** ** Data *)

(** What the lambdas given to the nodes print, with the pointers they capture. *)
Inductive info :=
| Self | Thread_self | Mounts_link | Kernel_cmdline | Uptime | Meminfo | Kernel_stat
| Thread_stat (thread process : Z) | Thread_status (thread process : Z)
| Maps (process : Z) | Cmdline (process : Z) | Environ (process : Z)
| Cwd (process : Z) | Exe (process : Z) | Root_link | Mounts | Statm.

(** The members of [InfoNode] that outlive a call. *)
Record InfoNode := mkInfo { print_contents : info; has_contents : bool }.
(** The buffer and the counter a call prints through, and the node's data. *)
Record output := mkOutput { temp_buffer : list Z; total_written : Z; contents : NodeData }.
#[export] Instance eta_output : Settable output := fun o => mkOutput (temp_buffer o) (total_written o) (contents o).

(** The addresses [Process] keeps of its arguments and its environment. *)
Record arguments := mkArguments { arg_start : Z; arg_end : Z; env_start : Z; env_end : Z }.

Record system := mkSystem {
  mach : mem.machine;
  current_thread : Z;
  boottime : TimeSpec; realtime : TimeSpec;
  kernel_cmdline : mem;
  thread_names : gmap Z mem;
  process_arguments : gmap Z arguments;
  mount_list : list mount_info;
  driver_names : gmap Z mem
}.
#[export] Instance eta_system : Settable system := fun y =>
  mkSystem (mach y) (current_thread y) (boottime y) (realtime y) (kernel_cmdline y) (thread_names y)
    (process_arguments y) (mount_list y) (driver_names y).

(** The private part of the tree: [fs_global], the nodes and their data, and the members of
    processes and threads that point to their directories. *)
Record procfs := mkProcfs {
  fs_global : Z; root_entry : Z; last_inode_num : Z;
  node_data : gmap Z NodeData;
  infos : gmap Z InfoNode;
  procfs_dir : gmap Z Z; procfs_task_dir : gmap Z Z; thread_procfs_dir : gmap Z Z;
  sys : system
}.
#[export] Instance eta_procfs : Settable procfs := fun d =>
  mkProcfs (fs_global d) (root_entry d) (last_inode_num d) (node_data d) (infos d) (procfs_dir d) (procfs_task_dir d)
    (thread_procfs_dir d) (sys d).

Definition ARG_MAX : Z := 131072.
Definition temp_buffer_size : nat := 1024.

Definition kern_of (s : vfs procfs) : kernel := mem.kern (mach (sys (priv s))).
Definition data_of (s : vfs procfs) (v : Z) : outcome (Z * NodeData) :=
  let! vn := deref (vnodes s !! v) in
  let! d := deref (node_data (priv s) !! fs_data vn) in
  Ret (fs_data vn, d).
Definition put_data (d : Z) (nd : NodeData) (s : vfs procfs) : vfs procfs :=
  s <| priv ::= fun t => t <| node_data ::= <[d := nd]> |> |>.

(** ** Filesystem *)

Definition procfs_lookup (fs e : Z) (s : vfs procfs) : outcome (vfs procfs) := Ret s.
Definition procfs_remove (fs e : Z) (s : vfs procfs) : outcome (vfs procfs) := Ret s.

Definition procfs_create (fs e : Z) (new_node_type : NodeType) (s : vfs procfs) : outcome (vfs procfs) :=
  let! en := deref (entries s !! e) in
  let! s := if e_vnode en =? 0 then
              let! _ := assert (bool_decide (new_node_type <> HARD_LINK)) in
              let v := next_addr s in
              let s := put_vnode v (VNode_init new_node_type) s <| next_addr ::= Z.add 1 |> in
              Ret (put_entry e (en <| e_vnode := v |>) s)
            else Ret s in
  let! (v, vn) := vnode_of s e in
  let clock := realtime (sys (priv s)) in
  let d := next_addr s in
  let inode := last_inode_num (priv s) in
  let vn := vn <| v_fs := fs |> <| creation_time := clock |> <| modification_time := clock |>
               <| access_time := clock |> <| fs_data := d |> in
  Ret (put_vnode v vn s <| next_addr ::= Z.add 1 |>
         <| priv ::= fun t => t <| node_data ::= <[d := mkNodeData inode [] 0]> |> <| last_inode_num := u64 (inode + 1) |> |>).

#[export] Instance procfs_ops : FilesystemOps procfs := {
  fs_lookup := procfs_lookup; fs_create := procfs_create; fs_remove := procfs_remove
}.

Definition procfs_stat (s : vfs procfs) (v : Z) : outcome fs_stat_fields :=
  let! (_, nd) := data_of s v in
  let! vn := deref (vnodes s !! v) in
  let sz := if decide (node_type vn = DIRECTORY) then sizeof_Entry else i64 (size nd) in
  Ret (mkStat (inode_num nd) sz PAGE_SIZE (i64 (Z.quot (i64 (sz + PAGE_SIZE - 1)) PAGE_SIZE)) 1).

Fixpoint readdir_loop (s : vfs procfs) (children : list Z) (i count max_size cursor : Z) (acc : list Dirent)
    : outcome (list Dirent * Z * Z) :=
  match children with
  | [] => Ret (acc, i, count)
  | c :: children =>
      let! ce := deref (entries s !! c) in
      if (i <? cursor) || (e_vnode ce =? 0) then readdir_loop s children (i + 1) count max_size cursor acc
      else
        let! name_len := strlen (e_name ce) in
        let entry_len := klib.align_up (sizeof_Dirent + Z.of_nat name_len + 1) 8 in
        if count + entry_len >? max_size then Ret (acc, i, count) else
        let! (_, nd) := data_of s (e_vnode ce) in
        let! vn := deref (vnodes s !! e_vnode ce) in
        let d := mkDirent (inode_num nd) i (u16 entry_len) (d_type_from_node_type (node_type vn)) (take (name_len + 1) (e_name ce)) in
        readdir_loop s children (i + 1) (count + entry_len) max_size cursor (acc ++ [d])
  end.
Definition procfs_readdir (s : vfs procfs) (e max_size cursor : Z) : outcome (list Dirent * Z * Z) :=
  let! en := deref (entries s !! e) in
  readdir_loop s (children_list en) 0 0 max_size cursor [].

Definition PROC_SUPER_MAGIC : Z := 40864.
Definition procfs_statfs (buf : statfs) : statfs :=
  mkStatfs PROC_SUPER_MAGIC PAGE_SIZE (f_blocks buf) (f_bfree buf) (f_bavail buf) (f_files buf) (f_ffree buf)
    98784247808 255 PAGE_SIZE.

Definition procfs_mount (mount_entry : Z) (s : vfs procfs) : outcome (Z * vfs procfs) :=
  let! en := deref (entries s !! mount_entry) in
  Ret (fs_global (priv s), put_entry mount_entry (en <| redirect := root_entry (priv s) |>) s).

(** ** Printing *)

Section printing.
Context (uninit : nat -> list Z) (read_page : FileDescription -> Z -> list Z) (faults depth : nat).

(** The same code as tmpfs's. *)
Definition grow_to (nd : NodeData) (len : Z) : outcome NodeData :=
  let nd := nd <| size := len |> in
  if capacity nd <? size nd then
    match grow_capacity grow_fuel (capacity nd) (size nd) with
    | Some cap => Ret (nd <| storage := realloc uninit (storage nd) cap |>)
    | None => Undef
    end
  else Ret nd.

Definition write_contents (nd : NodeData) (buf : list Z) (offset : Z) : outcome NodeData :=
  let count := Z.of_nat (length buf) in
  if count =? 0 then Ret nd else
  let! nd := if u64 (offset + count) >? size nd then grow_to nd (u64 (offset + count)) else Ret nd in
  let! st := storage_write (storage nd) offset buf in
  Ret (nd <| storage := st |>).

Definition flush_temp_buffer (o : output) : outcome output :=
  let! nd := write_contents (contents o) (temp_buffer o) (total_written o) in
  Ret (o <| contents := nd |> <| total_written ::= fun n => n + Z.of_nat (length (temp_buffer o)) |> <| temp_buffer := [] |>).

Definition print_char (o : output) (c : Z) : outcome output :=
  let o := o <| temp_buffer ::= fun l => l ++ [c] |> in
  if (length (temp_buffer o) =? temp_buffer_size)%nat then flush_temp_buffer o else Ret o.

(** The characters a lambda puts, one after the other. *)
Fixpoint put_chars (o : output) (cs : list Z) : outcome output :=
  match cs with
  | [] => Ret o
  | c :: cs => let! o := print_char o c in put_chars o cs
  end.

(** The escapes of a literal. *)
Fixpoint unescape (s : list Z) : list Z :=
  match s with
  | c :: ((d :: s) as rest) => if c =? 92 then (if d =? chr "n" then 10 else 9) :: unescape s else c :: unescape rest
  | s => s
  end.
Definition esc (s : string) : list Z := unescape (bytes s).
Arguments esc s%_string.

(** What [info_node_printf] puts; none of the formats below makes it go round for ever. *)
Definition info_node_printf (format : string) (args : list klib_printf.arg) : outcome (list Z) :=
  let! r := klib_printf.vprintf_template (esc format ++ [0]) args in
  match r with Some (_, out) => Ret out | None => Undef end.
Arguments info_node_printf format%_string args.
Abbreviation Word := klib_printf.Word.
Abbreviation Str := klib_printf.Str.

(** What statements put one after the other. *)
Fixpoint join (l : list (outcome (list Z))) : outcome (list Z) :=
  match l with
  | [] => Ret []
  | x :: l => let! a := x in let! b := join l in Ret (a ++ b)
  end.

(** A line of [meminfo]. *)
Definition print_value (name : string) (value : Z) : outcome (list Z) :=
  info_node_printf "%s%8lu kB\n" [Str (bytes name ++ [0]); Word (value / 1024)].
Arguments print_value name%_string value.

Definition state_char (st : State) : Z :=
  match st with READY | RUNNING => chr "R" | BLOCKED => chr "S" | STOPPED => chr "T" | ZOMBIE => chr "Z" end.
Definition state_name (st : State) : mem :=
  bytes match st with
        | READY | RUNNING => "R (running)" | BLOCKED => "S (sleeping)" | STOPPED => "T (stopped)" | ZOMBIE => "Z (zombie)"
        end ++ [0].

Definition pid_of (k : kernel) (p : Z) : outcome Z := let! pr := deref (processes k !! p) in Ret (pid pr).

Definition thread_stat (y : system) (t p : Z) : outcome (list Z) :=
  let k := mem.kern (mach y) in
  let! th := deref (threads k !! t) in
  let! pr := deref (processes k !! p) in
  let! name := deref (thread_names y !! t) in
  let! parent := pid_of k (parent pr) in
  let! g := deref (group pr) in
  let! gr := deref (groups k !! g) in
  let! leader := pid_of k (leader_process gr) in
  let! l := session_leader k p in
  let! session := pid_of k l in
  join [info_node_printf "%d (%s) %c %d %d %d"
          [Word (pid pr); Str name; Word (state_char (state th)); Word parent; Word leader; Word session];
        Ret (concat (replicate (52 - 6) (bytes " 0")));
        Ret [10]].

Definition print_ids (format : string) (i : IdSet) : outcome (list Z) :=
  info_node_printf format [Word (rid i); Word (eid i); Word (sid i); Word (fsid i)].
Arguments print_ids format%_string i.

Definition thread_status (y : system) (t p : Z) : outcome (list Z) :=
  let k := mem.kern (mach y) in
  let! th := deref (threads k !! t) in
  let! pr := deref (processes k !! p) in
  let! name := deref (thread_names y !! t) in
  let c := cred th in
  join ([info_node_printf "Name:\t%s\n" [Str name];
         info_node_printf "Umask:\t%#03o\n" [Word (umask pr)];
         info_node_printf "State:\t%s\n" [Str (state_name (state th))];
         info_node_printf "Tgid:\t%d\n" [Word (pid pr)];
         info_node_printf "Ngid:\t%d\n" [Word 0];
         info_node_printf "Pid:\t%d\n" [Word (tid th)];
         let! parent := pid_of k (parent pr) in info_node_printf "PPid:\t%d\n" [Word parent];
         info_node_printf "TracerPid:\t%d\n" [Word 0];
         print_ids "Uid:\t%d\t%d\t%d\t%d\n" (uids c);
         print_ids "Gid:\t%d\t%d\t%d\t%d\n" (gids c);
         info_node_printf "FDSize:\t%d\n" [Word (m_capacity (file_descriptors pr))];
         info_node_printf "Groups:\t" []] ++
        map (fun g => info_node_printf "%d " [Word g]) (cred_groups c) ++ [Ret [10]]).

(** [MappedRange::print]. *)
Definition print_range (s : vfs procfs) (x : mem.MappedRange) : outcome (list Z) :=
  let flags := mem.page_flags x in
  let! r := klib_printf.vprintf_template (bytes "%08lx-%08lx r%c%cp %08lx %02x:%02x %u" ++ [0])
    [Word (mem.base x); Word (mem.end_ x); Word (if flags &? mem.PAGE_WRITABLE then chr "w" else chr "-");
     Word (if flags &? mem.PAGE_NO_EXECUTE then chr "-" else chr "x"); Word (mem.file_offset x); Word 0; Word 0; Word 0] in
  match r with
  | None => Undef
  | Some (written, out) =>
      join [Ret out; Ret (replicate (Z.to_nat (72 - written)) 32);
            match mem.type x with
            | mem.DIRECT => info_node_printf "direct to %#lX" [Word (mem.phy_base x)]
            | mem.FILE =>
                let! d := deref (mem.file x) in
                let! fd := deref (descriptions (kern_of s) !! d) in
                if d_entry fd =? 0 then Ret [] else print_path depth s (d_entry fd)
            | _ => Ret []
            end;
            Ret [10]]
  end.
(** [Pagemap::print]. *)
Definition print_pagemap (s : vfs procfs) (g : Z) : outcome (list Z) :=
  let! m := mem.get_pagemap (mach (sys (priv s))) g in
  join (map (fun r => let! x := mem.get_range (mach (sys (priv s))) r in print_range s x) (mem.range_list m)).

Definition print_mount (y : system) (f : mount_info) : outcome (list Z) :=
  let! source := deref (mount_source f) in
  let! target := deref (mount_target f) in
  let! name := deref (driver_names y !! m_driver f) in
  info_node_printf "%s %s %s rw 0 0\n" [Str source; Str target; Str name].

(** The lambdas that put characters. *)
Definition info_text (i : info) (s : vfs procfs) : outcome (list Z) :=
  let y := sys (priv s) in
  let k := kern_of s in
  let stats := pmm.stats (mem.pmm_state (mach y)) in
  match i with
  | Self =>
      let! th := deref (threads k !! current_thread y) in
      let! n := pid_of k (process th) in info_node_printf "%d" [Word n]
  | Thread_self =>
      let! th := deref (threads k !! current_thread y) in
      let! n := pid_of k (process th) in info_node_printf "%d/task/%d" [Word n; Word (tid th)]
  | Mounts_link => info_node_printf "self/mounts" []
  | Kernel_cmdline => info_node_printf "%s\n" [Str (kernel_cmdline y)]
  | Uptime => info_node_printf "%lu.%lu 0.00\n" [Word (seconds (boottime y)); Word (nanoseconds (boottime y) / 10000000)]
  | Meminfo =>
      join [print_value "MemTotal:       " (u64 (pmm.total_pages_usable stats * PAGE_SIZE));
            print_value "MemFree:        " (u64 (pmm.total_free_pages stats * PAGE_SIZE));
            print_value "MemAvailable:   " (u64 (pmm.total_free_pages stats * PAGE_SIZE));
            print_value "Buffers:        " 0; print_value "Cached:         " 0;
            print_value "SwapCached:     " 0; print_value "Slab:           " 0]
  | Kernel_stat =>
      join [info_node_printf "cpu  0 0 0 0 0 0 0 0 0 0\n" []; info_node_printf "cpu0 0 0 0 0 0 0 0 0 0 0\n" [];
            info_node_printf "intr 0 0 0 0 0 0 0 0 0 0\n" []; info_node_printf "ctxt 30000\n" [];
            info_node_printf "btime %lu\n" [Word (seconds (realtime y) - seconds (boottime y))];
            info_node_printf "processes 100\n" []; info_node_printf "procs_running 5\n" [];
            info_node_printf "procs_blocked 0\n" []; info_node_printf "softirq 0 0 0 0 0 0 0 0 0 0 0\n" []]
  | Thread_stat t p => thread_stat y t p
  | Thread_status t p => thread_status y t p
  | Maps p =>
      let! pr := deref (processes k !! p) in
      match pagemap pr with Some g => print_pagemap s g | None => Ret [] end
  | Cwd p => let! pr := deref (processes k !! p) in print_path depth s (cwd pr)
  | Exe p => let! pr := deref (processes k !! p) in print_path depth s (exe pr)
  | Root_link => Ret [slash]
  | Mounts => join (map (print_mount y) (mount_list y))
  | Statm => info_node_printf "%d %d %d %d %d %d %d" (map Word [2000; 1000; 1000; 10; 0; 20; 0])
  | Cmdline _ | Environ _ => Ret []
  end.

(** Those of [cmdline] and [environ], which fill the storage themselves. *)
Definition fill_from_memory (p : Z) (from to : arguments -> Z) (s : vfs procfs) (o : output) : outcome (output * vfs procfs) :=
  let y := sys (priv s) in
  let! pr := deref (processes (kern_of s) !! p) in
  match pagemap pr with
  | None => Ret (o, s)
  | Some g =>
      let! a := deref (process_arguments y !! p) in
      if to a <=? from a then Ret (o, s) else
      let count := to a - from a in
      if count >? ARG_MAX then Ret (o, s) else
      let! nd := grow_to (contents o) count in
      let! (ret, bytes, m) := access.access_memory read_page faults (mach y) g (from a) (storage nd) count false in
      Ret (o <| contents := nd <| storage := bytes |> <| size := if ret <? 0 then 0 else ret |> |>,
           s <| priv ::= fun d => d <| sys := y <| mach := m |> |> |>)
  end.

Definition print (i : info) (s : vfs procfs) (o : output) : outcome (output * vfs procfs) :=
  match i with
  | Cmdline p => fill_from_memory p arg_start arg_end s o
  | Environ p => fill_from_memory p env_start env_end s o
  | _ => let! cs := info_text i s in let! o := put_chars o cs in Ret (o, s)
  end.

(** ** Reading *)

Definition generate_contents (v : Z) (i : info) (s : vfs procfs) : outcome (Z * vfs procfs) :=
  let! (d, nd) := data_of s v in
  let! (o, s) := print i s (mkOutput [] 0 nd) in
  let! o := flush_temp_buffer o in
  Ret (total_written o, put_data d (contents o) s).

Definition info_read (v : Z) (n : InfoNode) (count offset : Z) (s : vfs procfs) : outcome (Z * list Z * vfs procfs) :=
  let! s := if negb (has_contents n) || (offset =? 0) then
              let! (_, s) := generate_contents v (print_contents n) s in
              Ret (s <| priv ::= fun t => t <| infos ::= <[v := mkInfo (print_contents n) true]> |> |>)
            else Ret s in
  let! (_, nd) := data_of s v in
  if offset >=? size nd then Ret (0, [], s) else
  let actual_count := if u64 (offset + count) >? size nd then size nd - offset else count in
  let! bytes := storage_read (storage nd) offset actual_count in
  Ret (i64 actual_count, bytes, s).

Definition info_seek (v : Z) (position offset whence : Z) (s : vfs procfs) : outcome Z :=
  let! (_, nd) := data_of s v in
  Ret (if whence =? SEEK_SET then offset
       else if whence =? SEEK_CUR then i64 (position + offset)
       else if whence =? SEEK_END then i64 (size nd + offset)
       else if whence =? SEEK_DATA then if u64 offset >=? size nd then - ENXIO else offset
       else if whence =? SEEK_HOLE then if u64 offset >=? size nd then - ENXIO else i64 (size nd)
       else - EINVAL).

(** A directory is a [Node], which overrides nothing. *)
#[export] Instance procfs_vnode_ops : VNodeOps procfs := {
  v_open v d s := Ret (0, s);
  v_read v d count offset s :=
    match infos (priv s) !! v with Some n => info_read v n count offset s | None => v_read (VNodeOps := VNode_defaults) v d count offset s end;
  v_write v d buf offset s := v_write (VNodeOps := VNode_defaults) v d buf offset s;
  v_seek v d position offset whence s :=
    match infos (priv s) !! v with
    | Some _ => info_seek v position offset whence s
    | None => v_seek (VNodeOps := VNode_defaults) v d position offset whence s
    end;
  v_truncate v d len s := v_truncate (VNodeOps := VNode_defaults) v d len s
}.

(** ** The tree *)

(** [create_entry] of a new [InfoNode]. *)
Definition create_info (dir : Z) (name : string) (i : info) (type : NodeType) (uid gid mode : Z) (s : vfs procfs)
    : outcome (vfs procfs) :=
  let v := next_addr s in
  let s := put_vnode v (VNode_init type) s <| next_addr ::= Z.add 1 |>
             <| priv ::= fun t => t <| infos ::= <[v := mkInfo i false]> |> |> in
  let! (_, s) := create_entry s dir (bytes name ++ [0]) v uid gid mode in Ret s.
Arguments create_info dir name%_string i type uid gid mode s.

(** [Filesystem::Filesystem]; the object is at address [fs]. [fs_global] is not set yet. *)
Definition Filesystem_init (s : vfs procfs) : outcome (Z * vfs procfs) :=
  let fs := next_addr s in
  let s := s <| next_addr ::= Z.add 1 |> <| priv ::= fun t => t <| last_inode_num := 2 |> |> in
  let! (r, s) := construct s 0 0 [0] 0 in
  let s := s <| priv ::= fun t => t <| root_entry := r |> |> in
  let! s := procfs_create fs r DIRECTORY s in
  let! (v, vn) := vnode_of s r in
  let s := put_vnode v (vn <| fs_mounted_here := fs_global (priv s) |> <| v_uid := 0 |> <| v_gid := 0 |> <| v_mode := 365 |>) s in
  let! s := create_info r "self" Self SYMLINK 0 0 511 s in
  let! s := create_info r "thread-self" Thread_self SYMLINK 0 0 511 s in
  let! s := create_info r "mounts" Mounts_link SYMLINK 0 0 511 s in
  let! s := create_info r "cmdline" Kernel_cmdline REGULAR 0 0 292 s in
  let! s := create_info r "uptime" Uptime REGULAR 0 0 292 s in
  let! s := create_info r "meminfo" Meminfo REGULAR 0 0 292 s in
  let! s := create_info r "stat" Kernel_stat REGULAR 0 0 292 s in
  Ret (fs, s).

(** [Driver::Driver]. *)
Definition Driver_init (s : vfs procfs) : outcome (vfs procfs) :=
  let! (fs, s) := Filesystem_init s in Ret (s <| priv ::= fun t => t <| fs_global := fs |> |>).

Definition create_thread_process_common (t p dir : Z) (s : vfs procfs) : outcome (vfs procfs) :=
  let! th := deref (threads (kern_of s) !! t) in
  let uid := rid (uids (cred th)) in
  let gid := rid (gids (cred th)) in
  let! s := create_info dir "stat" (Thread_stat t p) REGULAR uid gid 292 s in
  create_info dir "status" (Thread_status t p) REGULAR uid gid 292 s.

(** The directory named after a number. *)
Definition create_numbered_dir (parent_dir number uid gid : Z) (s : vfs procfs) : outcome (Z * vfs procfs) :=
  let! str := klib_printf.snprintf (replicate 11 0) 11 (bytes "%d" ++ [0]) [Word number] in
  match str with
  | None => Undef
  | Some (_, str) =>
      let! (dir, s) := lookup_child s parent_dir str in
      let! en := deref (entries s !! dir) in
      let! _ := assert (e_vnode en =? 0) in
      let! s := entry_create s dir DIRECTORY uid gid 365 in
      Ret (dir, s)
  end.

Definition create_process_dir (p : Z) (s : vfs procfs) : outcome (vfs procfs) :=
  let! t := get_main_thread (kern_of s) p in
  let! th := deref (threads (kern_of s) !! t) in
  let uid := rid (uids (cred th)) in
  let gid := rid (gids (cred th)) in
  let! pr := deref (processes (kern_of s) !! p) in
  let! (dir, s) := create_numbered_dir (root_entry (priv s)) (pid pr) uid gid s in
  let s := s <| priv ::= fun d => d <| procfs_dir ::= <[p := dir]> |> |> in
  let! (task_dir, s) := lookup_child s dir (bytes "task" ++ [0]) in
  let s := s <| priv ::= fun d => d <| procfs_task_dir ::= <[p := task_dir]> |> |> in
  let! s := entry_create s task_dir DIRECTORY uid gid 365 in
  let! s := create_info dir "maps" (Maps p) REGULAR uid gid 292 s in
  let! s := create_info dir "cmdline" (Cmdline p) REGULAR uid gid 292 s in
  let! s := create_info dir "environ" (Environ p) REGULAR uid gid 292 s in
  let! s := create_info dir "cwd" (Cwd p) SYMLINK uid gid 63 s in
  let! s := create_info dir "exe" (Exe p) SYMLINK uid gid 63 s in
  let! s := create_info dir "root" Root_link SYMLINK uid gid 63 s in
  let! s := create_info dir "mounts" Mounts REGULAR uid gid 292 s in
  let! s := create_info dir "statm" Statm REGULAR uid gid 292 s in
  create_thread_process_common t p dir s.

Definition create_thread_dir (t : Z) (s : vfs procfs) : outcome (vfs procfs) :=
  let! th := deref (threads (kern_of s) !! t) in
  let uid := rid (uids (cred th)) in
  let gid := rid (gids (cred th)) in
  let! task_dir := deref (procfs_task_dir (priv s) !! process th) in
  let! (dir, s) := create_numbered_dir task_dir (tid th) uid gid s in
  let s := s <| priv ::= fun d => d <| thread_procfs_dir ::= <[t := dir]> |> |> in
  create_thread_process_common t (process th) dir s.
End printing.

#[export] Instance procfs_info : FilesystemInfo procfs := {
  fs_stat fs v s := procfs_stat s v;
  fs_readdir fs e max_size cursor s := procfs_readdir s e max_size cursor
}.

End procfs.
