(* ===== verification/ProcfsProps.v ===== *)
(** * procfs: what reads of its files return

    The storage of a node is what its last printing left: the text printed, then, when the
    text before was longer, the rest of that text. *)

From S2P Require Import Prelude Algorithm CString TimeSpec Vector Links Sched Pmm Vmm VmmTables VmmFault Access.
From S2P Require Import Vfs Tmpfs TmpfsProps Process SchedProps Printf Procfs.
Import procfs.

(** ** Storage *)

(** The node's text. *)
Abbreviation shows nd l := (holds nd (Some <$> l)).
(** [a] printed over [b]. *)
Definition over (a b : list Z) : list Z := a ++ drop (length a) b.

Lemma length_over a b : length (over a b) = Nat.max (length a) (length b).
Proof. unfold over. rewrite length_app, length_drop. lia. Qed.

Lemma shows_text nd l : shows nd l -> size nd = Z.of_nat (length l) /\ (length l <= length (storage nd))%nat /\ take (length l) (storage nd) = l.
Proof.
  intros [Hs Hr Hb]. rewrite length_fmap in *. split_and!; [done..|].
  apply (list_eq_Forall2 (take (length l) (storage nd)) l). rewrite Forall2_fmap_r in Hb. eapply Forall2_impl; [exact Hb|]. intros x y H. exact H.
Qed.

Lemma text_shows nd l : size nd = Z.of_nat (length l) -> (length l <= length (storage nd))%nat ->
  take (length l) (storage nd) = l -> shows nd l.
Proof.
  intros Hs Hr Ht. split; rewrite ?length_fmap; [done..|]. rewrite Ht. rewrite Forall2_fmap_r. apply Forall_Forall2_diag, Forall_true. done.
Qed.

(** What a read serves of a text. *)
Lemma serve nd l count offset : shows nd l -> Z.of_nat (length l) <= max_size ->
  0 <= count < 9223372036854775808 -> (offset <= length l)%nat ->
  forall (s : vfs procfs),
  (if Z.of_nat offset >=? size nd then Ret (0, [], s) else
   let actual_count := if u64 (Z.of_nat offset + count) >? size nd then size nd - Z.of_nat offset else count in
   let! bytes := storage_read (storage nd) (Z.of_nat offset) actual_count in
   Ret (i64 actual_count, bytes, s)) =
  Ret (Z.of_nat (length (take (Z.to_nat count) (drop offset l))), take (Z.to_nat count) (drop offset l), s).
Proof.
  intros Hh Hm Hc Ho s. destruct (shows_text _ _ Hh) as (Hs & Hr & Ht). unfold max_size in *. rewrite Hs, Z.geb_leb.
  destruct (Z.leb_spec (Z.of_nat (length l)) (Z.of_nat offset)).
  { by rewrite drop_ge, take_nil by lia. }
  rewrite u64_small by lia. cbn zeta.
  set (n := Z.to_nat (if Z.of_nat offset + count >? Z.of_nat (length l) then Z.of_nat (length l) - Z.of_nat offset else count)).
  assert ((if Z.of_nat offset + count >? Z.of_nat (length l) then Z.of_nat (length l) - Z.of_nat offset else count) = Z.of_nat n /\
    n = min (Z.to_nat count) (length l - offset)) as [-> Hn].
  { unfold n. destruct (Z.gtb_spec (Z.of_nat offset + count) (Z.of_nat (length l))); lia. }
  clearbody n. unfold storage_read. rewrite (proj2 (Z.leb_le _ _)) by lia. cbn [obind]. rewrite !Nat2Z.id.
  assert (take n (drop offset (storage nd)) = take (Z.to_nat count) (drop offset l)) as Heq.
  { rewrite <- Ht at 1. apply list_eq. intros j. destruct (decide (j < n)%nat).
    - rewrite !lookup_take_lt, !lookup_drop, lookup_take_lt by lia. done.
    - rewrite !lookup_ge_None_2; [done| |]; rewrite length_take, length_drop, ?length_take; lia. }
  rewrite Heq. rewrite length_take, length_drop, i64_small by lia. do 3 f_equal. lia.
Qed.

Section props.
Context (uninit : nat -> list Z) (Huninit : forall n, length (uninit n) = n).
Context (read_page : FileDescription -> Z -> list Z).
Context (faults depth : nat).

Lemma write_contents_spec nd l buf off : shows nd l -> (off <= length l)%nat ->
  Z.of_nat (off + length buf) <= max_size -> Z.of_nat (length l) <= max_size ->
  exists nd', write_contents uninit nd buf (Z.of_nat off) = Ret nd' /\ shows nd' (take off l ++ buf ++ drop (off + length buf) l).
Proof.
  intros Hh Ho Hm Hl. unfold write_contents. destruct (decide (buf = [])) as [->|Hne].
  { exists nd. split; [done|]. cbn [app length]. by rewrite Nat.add_0_r, take_drop. }
  assert (0 < length buf)%nat by (destruct buf; simpl; [done|lia]).
  rewrite (proj2 (Z.eqb_neq _ _)) by lia. rewrite <- Nat2Z.inj_add. unfold max_size in *. rewrite u64_small by lia.
  assert (exists nd1, (if Z.of_nat (off + length buf) >? size nd
      then procfs.grow_to uninit nd (Z.of_nat (off + length buf)) else Ret nd) = Ret nd1 /\
    holds nd1 (extend (off + length buf) (Some <$> l))) as (nd1 & -> & Hh1).
  { pose proof (holds_size _ _ Hh) as Hs. rewrite length_fmap in Hs.
    destruct (Z.gtb_spec (Z.of_nat (off + length buf)) (size nd)) as [Hgt|Hle]; rewrite Hs in *.
    - apply (grow_to_spec uninit Huninit); [done|rewrite length_fmap; lia|unfold max_size; lia].
    - exists nd. split; [done|]. unfold extend. rewrite length_fmap. replace (off + length buf - length l)%nat with 0%nat by lia.
      by rewrite app_nil_r. }
  cbn [obind]. destruct (holds_write nd1 _ off buf Hh1 Hne) as (st & -> & Hh2).
  { unfold extend. rewrite length_app, length_replicate, length_fmap. lia. }
  cbn [obind]. eexists. split; [done|].
  assert (splice off (Some <$> buf) (extend (off + length buf) (Some <$> l)) =
    Some <$> (take off l ++ buf ++ drop (off + length buf) l)) as Heq; [|by rewrite <- Heq].
  unfold splice, extend. rewrite !fmap_app, fmap_take, fmap_drop, length_fmap.
  rewrite take_app_le by (rewrite length_fmap; lia). do 2 f_equal. rewrite drop_app, !length_fmap, (drop_ge (replicate _ _)), app_nil_r; [done|].
  rewrite length_replicate. lia.
Qed.

(** *** Printing *)

(** [pre] has been put so far: a part is in the storage, the rest in the buffer. *)
Definition printing (o : output) (pre old : list Z) : Prop :=
  exists w, total_written o = Z.of_nat w /\ (w <= length pre)%nat /\ temp_buffer o = drop w pre /\
    (length pre - w < temp_buffer_size)%nat /\ shows (contents o) (over (take w pre) old).

Lemma flush_text o pre old w : total_written o = Z.of_nat w -> (w <= length pre)%nat -> temp_buffer o = drop w pre ->
  shows (contents o) (over (take w pre) old) ->
  Z.of_nat (length pre) <= max_size -> Z.of_nat (length old) <= max_size ->
  exists o', flush_temp_buffer uninit o = Ret o' /\ total_written o' = Z.of_nat (length pre) /\ temp_buffer o' = [] /\
    shows (contents o') (over pre old).
Proof.
  intros Ht Hw Hb Hs Hp Ho. unfold flush_temp_buffer. rewrite Ht, Hb.
  assert (length (take w pre) = w) as Htw by (rewrite length_take; lia).
  destruct (write_contents_spec _ _ (drop w pre) w Hs) as (nd' & -> & Hs');
    [rewrite length_over; lia|rewrite length_drop; lia|rewrite length_over; lia|].
  cbn [obind]. eexists. split; [done|]. cbn [total_written upd eta_output temp_buffer contents].
  rewrite Ht, length_drop. split_and!; [lia|done|].
  assert (take w (over (take w pre) old) ++ drop w pre ++ drop (w + length (drop w pre)) (over (take w pre) old) = over pre old) as <-; [|by rewrite length_drop in *].
  unfold over. rewrite Htw, take_app_le, (take_ge (take w pre)) by lia.
  rewrite app_assoc, take_drop. f_equal. rewrite length_drop. replace (w + (length pre - w))%nat with (length pre) by lia.
  rewrite drop_app, (drop_ge (take w pre)) by lia. cbn [app]. rewrite drop_drop, Htw. f_equal. lia.
Qed.

Lemma put_chars_spec cs : forall o pre old, printing o pre old ->
  Z.of_nat (length pre + length cs) <= max_size -> Z.of_nat (length old) <= max_size ->
  exists o', put_chars uninit o cs = Ret o' /\ printing o' (pre ++ cs) old.
Proof.
  induction cs as [|c cs IH]; intros o pre old Hp Hl Ho; cbn [put_chars].
  { exists o. by rewrite app_nil_r. }
  destruct Hp as (w & Ht & Hw & Hb & Hn & Hs). cbn [length] in Hl.
  assert (exists o1, print_char uninit o c = Ret o1 /\ printing o1 (pre ++ [c]) old) as (o1 & -> & Hp1).
  { unfold print_char. set (o1 := o <| temp_buffer ::= fun l => l ++ [c] |>).
    assert (temp_buffer o1 = drop w (pre ++ [c])) as Hb1 by (change (temp_buffer o ++ [c] = drop w (pre ++ [c])); by rewrite Hb, drop_app_le by lia).
    assert (shows (contents o1) (over (take w (pre ++ [c])) old)) as Hs1 by (by rewrite take_app_le by lia).
    assert (length (pre ++ [c]) = S (length pre)) as Hlen by (rewrite length_app; cbn [length]; lia).
    assert (total_written o1 = Z.of_nat w) as Ht1 by done. clearbody o1. cbn zeta.
    rewrite Hb1, length_drop, Hlen. destruct (Nat.eqb_spec (S (length pre) - w) temp_buffer_size) as [He|He].
    - destruct (flush_text o1 (pre ++ [c]) old w Ht1 ltac:(lia) Hb1 Hs1) as (o' & -> & Ht' & Hb' & Hs'); [lia|lia|].
      exists o'. split; [done|]. exists (length (pre ++ [c])).
      split_and!; [done|lia|by rewrite drop_ge by lia|unfold temp_buffer_size; lia|by rewrite take_ge by lia].
    - eexists. split; [done|]. exists w. split_and!; [done|lia|done|unfold temp_buffer_size in *; lia|done]. }
  cbn [obind]. destruct (IH o1 (pre ++ [c]) old Hp1) as (o' & -> & Hp'); [rewrite length_app; cbn [length]; lia|done|].
  exists o'. split; [done|]. by rewrite <- app_assoc in Hp'.
Qed.

(** *** Nodes *)

Definition is_text (i : info) : Prop := match i with Cmdline _ | Environ _ => False | _ => True end.

(** Vnode [v] prints [i]; its storage shows [l], and whether it has been printed. *)
Definition is_info (s : vfs procfs) (v : Z) (i : info) (l : list Z) (has : bool) : Prop :=
  exists vn nd, vnodes s !! v = Some vn /\ node_data (priv s) !! fs_data vn = Some nd /\
    infos (priv s) !! v = Some (mkInfo i has) /\ shows nd l /\ Z.of_nat (length l) <= max_size.

#[local] Instance ops : VNodeOps procfs := procfs_vnode_ops uninit read_page faults depth.

Lemma print_text i s o : is_text i ->
  print uninit read_page faults depth i s o = let! cs := info_text depth i s in let! o := put_chars uninit o cs in Ret (o, s).
Proof. by destruct i. Qed.

Lemma read_start s v d i old has cs count : is_info s v i old has -> is_text i -> info_text depth i s = Ret cs ->
  Z.of_nat (length cs) <= max_size -> 0 <= count < 9223372036854775808 ->
  let text := over cs old in
  exists s', v_read v d count 0 s = Ret (Z.of_nat (length (take (Z.to_nat count) text)), take (Z.to_nat count) text, s') /\
    is_info s' v i text true.
Proof.
  intros (vn & nd & Hv & Hd & Hi & Hh & Hl) Hti Hcs Hm Hc. cbn zeta.
  cbn [v_read ops procfs_vnode_ops]. rewrite Hi. unfold info_read. cbn [has_contents print_contents]. rewrite orb_true_r.
  unfold generate_contents, data_of. rewrite Hv. cbn [deref obind]. rewrite Hd. cbn [deref obind].
  rewrite print_text by done. rewrite Hcs. cbn [obind].
  destruct (put_chars_spec cs (mkOutput [] 0 nd) [] old) as (o & -> & (w & Ht & Hw & Hb & _ & Hs)); [|done|done|].
  { exists 0%nat. unfold over. cbn [length app take]. rewrite drop_0. split_and!; [done..|unfold temp_buffer_size; lia|done]. }
  cbn [obind]. destruct (flush_text o cs old w Ht Hw Hb Hs Hm Hl) as (o' & -> & _ & _ & Hs'). cbn [obind].
  set (s1 := put_data (fs_data vn) (contents o') s <| priv ::= fun t => t <| infos ::= <[v := mkInfo i true]> |> |>).
  assert (vnodes s1 !! v = Some vn /\ node_data (priv s1) !! fs_data vn = Some (contents o') /\
    infos (priv s1) !! v = Some (mkInfo i true)) as (Hv1 & Hd1 & Hi1).
  { split_and!; [done|apply lookup_insert_eq|apply lookup_insert_eq]. }
  clearbody s1. rewrite Hv1. cbn [deref obind]. rewrite Hd1. cbn [deref obind].
  assert (Z.of_nat (length (over cs old)) <= max_size) as Hlo by (rewrite length_over; lia).
  pose proof (serve (contents o') (over cs old) count 0 Hs' Hlo Hc ltac:(lia) s1) as Hserve. rewrite drop_0 in Hserve.
  exists s1. split; [exact Hserve|]. exists vn, (contents o'). done.
Qed.

Lemma read_on s v d i l count offset : is_info s v i l true -> 0 <= count < 9223372036854775808 ->
  (0 < offset <= length l)%nat ->
  v_read v d count (Z.of_nat offset) s =
    Ret (Z.of_nat (length (take (Z.to_nat count) (drop offset l))), take (Z.to_nat count) (drop offset l), s).
Proof.
  intros (vn & nd & Hv & Hd & Hi & Hh & Hl) Hc Ho. cbn [v_read ops procfs_vnode_ops]. rewrite Hi.
  unfold info_read. cbn [has_contents negb orb]. rewrite (proj2 (Z.eqb_neq _ _)) by lia. cbn [obind].
  unfold data_of. rewrite Hv. cbn [deref obind]. rewrite Hd. cbn [deref obind].
  apply (serve nd l count offset Hh Hl Hc ltac:(lia) s).
Qed.

(** *** A file read in turns *)

(** The kernel is in another state. *)
Definition in_system (y : system) (s : vfs procfs) : vfs procfs := s <| priv ::= fun t => t <| sys := y |> |>.

(** A program reads a file from an offset on, some bytes at a time; at each read the
    kernel is in the state given. *)
Fixpoint read_in_turns (v : Z) (offset : Z) (turns : list (system * Z)) (s : vfs procfs) : outcome (list Z) :=
  match turns with
  | [] => Ret []
  | (y, count) :: turns =>
      let! (n, bytes, s) := v_read v None count offset (in_system y s) in
      let! rest := read_in_turns v (offset + n) turns s in Ret (bytes ++ rest)
  end.

Lemma in_system_info y s v i l has : is_info s v i l has -> is_info (in_system y s) v i l has.
Proof. done. Qed.

Definition total (turns : list (system * Z)) : nat := sum_list (map (fun '(_, n) => Z.to_nat n) turns).

Lemma read_rest turns : forall s v i l offset, is_info s v i l true -> (0 < offset <= length l)%nat ->
  Forall (fun '(_, n) => 0 <= n < 9223372036854775808) turns ->
  read_in_turns v (Z.of_nat offset) turns s = Ret (take (total turns) (drop offset l)).
Proof.
  induction turns as [|[y n] turns IH]; intros s v i l offset Hi Ho Hn; [done|].
  inversion Hn as [|? ? Hn1 Hn2]; subst. cbn [read_in_turns].
  rewrite (read_on (in_system y s) v None i l n offset (in_system_info _ _ _ _ _ _ Hi) Hn1 Ho). cbn [obind].
  rewrite <- Nat2Z.inj_add. assert (length (take (Z.to_nat n) (drop offset l)) <= length l - offset)%nat as Hle
    by (rewrite length_take, length_drop; lia).
  rewrite (IH (in_system y s) v i l) by (done || lia). cbn [obind]. f_equal.
  change (total ((y, n) :: turns)) with (Z.to_nat n + total turns)%nat.
  rewrite length_take, length_drop in *.
  replace (drop (offset + _) l) with (drop (Nat.min (Z.to_nat n) (length l - offset)) (drop offset l)) by (rewrite drop_drop; f_equal; lia).
  destruct (decide (Z.to_nat n <= length l - offset)%nat).
  - rewrite Nat.min_l by lia. by rewrite take_take_drop.
  - rewrite Nat.min_r by lia. rewrite (take_ge (drop offset l) (Z.to_nat n)), (take_ge (drop offset l)) by (rewrite length_drop; lia).
    rewrite (drop_ge (drop offset l)), take_nil, app_nil_r by (rewrite length_drop; lia). done.
Qed.
End props.


(** *** The strings of a process *)

(** Whose memory a node shows, and the addresses. *)
Definition strings_shown (i : info) (a : arguments) : option (Z * Z * Z) :=
  match i with
  | Cmdline p => Some (p, arg_start a, arg_end a)
  | Environ p => Some (p, env_start a, env_end a)
  | _ => None
  end.

(** The memory from [from] to [to] that a read of it by the kernel can see: all of it, or what is
    before the first page nothing is mapped at. *)
Record readable (m : mem.machine) (g from to lim : Z) : Prop := {
  rd_tables : exists own, tables_wf m own;
  rd_pagemap : is_Some (mem.pagemaps m !! g);
  rd_free : (4 <= free_count m)%nat;
  rd_bounds : 0 <= from <= lim /\ lim <= to;
  rd_user : from < to < 140737488355328;
  rd_stops : stops m g from to lim;
  rd_present a : from <= a < lim -> present m g (a / PAGE_SIZE * PAGE_SIZE)
}.

Section strings.
Context (uninit : nat -> list Z) (Huninit : forall n, length (uninit n) = n).
Context (read_page : FileDescription -> Z -> list Z).
Context (faults depth : nat).

Lemma grow_shows nd l len : shows nd l -> 0 <= len <= max_size -> Z.of_nat (length l) <= max_size ->
  exists nd', procfs.grow_to uninit nd len = Ret nd' /\ len <= Z.of_nat (length (storage nd')).
Proof.
  intros Hh Hlen Hl. destruct (decide (Z.of_nat (length l) <= len)) as [Hle|Hgt].
  - destruct (grow_to_spec uninit Huninit nd (Some <$> l) (Z.to_nat len) Hh) as (nd' & Hg & Hh').
    { rewrite length_fmap. lia. } { lia. }
    rewrite Z2Nat.id in Hg by lia. exists nd'. split; [exact Hg|]. pose proof (holds_room _ _ Hh') as Hr.
    unfold extend in Hr. rewrite length_app, length_replicate, length_fmap in Hr. lia.
  - destruct (shows_text _ _ Hh) as (_ & Hr & _). unfold procfs.grow_to.
    change (capacity (nd <| size := len |>)) with (Z.of_nat (length (storage nd))). cbn [size upd eta_NodeData].
    rewrite (proj2 (Z.ltb_ge _ _)) by lia. eexists. split; [done|]. cbn [storage]. lia.
Qed.

Lemma fill_spec s p from to o old a pr g lim :
  processes (kern_of s) !! p = Some pr -> pagemap pr = Some g -> process_arguments (sys (priv s)) !! p = Some a ->
  readable (mach (sys (priv s))) g (from a) (to a) lim -> to a - from a <= ARG_MAX ->
  shows (contents o) old -> Z.of_nat (length old) <= max_size ->
  exists o' m, fill_from_memory uninit read_page (S faults) p from to s o = Ret (o', s <| priv ::= fun d => d <| sys := sys (priv s) <| mach := m |> |> |>) /\
    temp_buffer o' = temp_buffer o /\ total_written o' = total_written o /\
    shows (contents o') (user_bytes (mach (sys (priv s))) g (from a) (Z.to_nat (lim - from a))).
Proof.
  intros Hp Hg Ha [[own Hwf] [pm Hpm] Hf [Hb1 Hb2] Hu Hs Hpr] Hmax Ho Hl. unfold fill_from_memory. rewrite Hp. cbn [deref obind]. rewrite Hg, Ha.
  cbn [deref obind]. rewrite (proj2 (Z.leb_gt _ _)) by lia. rewrite Z.gtb_ltb, (proj2 (Z.ltb_ge _ _)) by lia.
  unfold ARG_MAX, max_size in *.
  destruct (grow_shows (contents o) old (to a - from a) Ho) as (nd & -> & Hlen); unfold max_size; [lia..|]. cbn [obind].
  destruct (access_memory_reads read_page faults (mach (sys (priv s))) own g pm Hwf Hpm Hf (from a) (to a - from a) (storage nd) lim)
    as (m & Hm & _); rewrite ?Zplus_minus; [lia|lia|lia|exact Hlen|lia|done|done|].
  rewrite Zplus_minus in Hm. rewrite Hm. cbn [obind]. eexists _, m. split; [reflexivity|]. cbn [temp_buffer total_written upd eta_output contents].
  split; [done|]. split; [done|].
  set (bs := user_bytes _ g (from a) _). assert (length bs = Z.to_nat (lim - from a)) as Hlb by apply length_user_bytes.
  apply text_shows; cbn [size storage upd eta_NodeData].
  - rewrite Hlb, Z2Nat.id by lia. unfold Access.result, EFAULT.
    destruct (Z.eqb_spec lim (to a)); [|destruct (Z.eqb_spec lim (from a))].
    + rewrite (proj2 (Z.ltb_ge _ _)) by lia. lia.
    + simpl. lia.
    + rewrite (proj2 (Z.ltb_ge _ _)) by lia. lia.
  - rewrite length_splice by lia. lia.
  - unfold splice. rewrite take_0. cbn [app]. by rewrite take_app_length.
Qed.
End strings.

(** C29. Reading [cmdline] or [environ] of a process from its start gives the bytes that the
    processor would find in that process's address space between the addresses kept of its
    arguments or its environment: all of them or, when some page of them is no longer mapped, those
    before it; and the file's text is just these, whatever it was before. (After an execve
    these are the strings the program was given: [program_finds_arguments] of ExecProps.v.) *)
Theorem strings_read (uninit : nat -> list Z) read_page faults depth s v i old has p from to a pr g lim d count :
  (forall n, length (uninit n) = n) ->
  is_info s v i old has -> strings_shown i a = Some (p, from, to) ->
  processes (kern_of s) !! p = Some pr -> pagemap pr = Some g -> process_arguments (sys (priv s)) !! p = Some a ->
  readable (mach (sys (priv s))) g from to lim -> to - from <= ARG_MAX -> 0 <= count < 9223372036854775808 ->
  let text := user_bytes (mach (sys (priv s))) g from (Z.to_nat (lim - from)) in
  exists s', v_read (VNodeOps := procfs_vnode_ops uninit read_page (S faults) depth) v d count 0 s =
      Ret (Z.of_nat (length (take (Z.to_nat count) text)), take (Z.to_nat count) text, s') /\
    is_info s' v i text true.
Proof.
  intros Hu (vn & nd & Hv & Hd & Hi & Hh & Hl) Hst Hp Hg Ha Hrd Hmax Hc. cbn zeta. cbn [v_read procfs_vnode_ops]. rewrite Hi.
  unfold info_read. cbn [has_contents print_contents]. rewrite orb_true_r. unfold generate_contents, data_of. rewrite Hv. cbn [deref obind].
  rewrite Hd. cbn [deref obind].
  assert (exists o m, print uninit read_page (S faults) depth i s (mkOutput [] 0 nd) = Ret (o, s <| priv ::= fun d => d <| sys := sys (priv s) <| mach := m |> |> |>) /\
    temp_buffer o = [] /\ shows (contents o) (user_bytes (mach (sys (priv s))) g from (Z.to_nat (lim - from)))) as (o & m & -> & Hb & Hs).
  { destruct i; try discriminate Hst; cbn [strings_shown] in Hst; injection Hst as -> <- <-; cbn [print].
    - destruct (fill_spec uninit Hu read_page faults s p arg_start arg_end (mkOutput [] 0 nd) old a pr g lim Hp Hg Ha Hrd Hmax Hh Hl)
        as (o & m & Hf & Hb & _ & Hs). by exists o, m.
    - destruct (fill_spec uninit Hu read_page faults s p env_start env_end (mkOutput [] 0 nd) old a pr g lim Hp Hg Ha Hrd Hmax Hh Hl)
        as (o & m & Hf & Hb & _ & Hs). by exists o, m. }
  cbn [obind]. unfold flush_temp_buffer. rewrite Hb. cbn [write_contents length obind]. 
  set (text := user_bytes _ g from _) in *.
  change (write_contents uninit (contents o) [] (total_written o)) with (Ret (contents o)). cbn [obind].
  match goal with |- context [deref (vnodes ?x !! v)] => set (s1 := x) end.
  assert (vnodes s1 !! v = Some vn /\ node_data (priv s1) !! fs_data vn = Some (contents o) /\
    infos (priv s1) !! v = Some (mkInfo i true)) as (Hv1 & Hd1 & Hi1).
  { split_and!; [done|apply lookup_insert_eq|apply lookup_insert_eq]. }
  clearbody s1. rewrite Hv1. cbn [deref obind]. rewrite Hd1. cbn [deref obind].
  assert (Z.of_nat (length text) <= max_size) as Hlt.
  { unfold text. rewrite length_user_bytes. pose proof (rd_bounds _ _ _ _ _ Hrd). unfold max_size, ARG_MAX in *. lia. }
  pose proof (serve (contents o) text count 0 Hs Hlt Hc ltac:(lia) s1) as Hserve. rewrite drop_0 in Hserve.
  exists s1. split; [exact Hserve|]. exists vn, (contents o). done.
Qed.

(** ** Examples

    Two processes, each with a thread; the first 4096 bytes of both address spaces are those of a
    file with three strings. *)

Definition example_page (fd : FileDescription) (off : Z) : list Z :=
  access.words_of 512 (bytes "cat" ++ [0] ++ bytes "motd" ++ [0] ++ bytes "HOME=/" ++ [0] ++ replicate 4080 0).
Definition example_kernel : kernel :=
  sample <| processes ::= fmap (fun pr => pr <| parent := 1 |> <| pagemap := Some 1 |>) |>
         <| descriptions := {[7 := mkDescription 0 0 0 0 1]} |>.
Definition example_unmapped : mem.machine :=
  sample_machine example_kernel <| mem.ranges := {[2 := mem.mkRange [] 65536 65536 12288 7 mem.FILE 0 (Some 7) 0]} |>.
Definition example_machine : mem.machine :=
  snd (ret_of (0, example_unmapped) (mem.handle_page_fault example_page 1 example_unmapped 1 65536)).
Definition example_args : arguments := mkArguments 65536 65545 65545 65552.
Definition example_system (boot : TimeSpec) (t : Z) : system :=
  mkSystem example_machine t boot boot (bytes "quiet" ++ [0]) {[1 := bytes "init" ++ [0]; 2 := bytes "cat" ++ [0]]}
    {[1 := example_args; 2 := example_args]} [] ∅.

#[local] Instance example_ops : VNodeOps procfs := procfs_vnode_ops (fun n => replicate n 170) example_page 1 9.

(** procfs as the root, with the directories of both processes. *)
Definition example_tree (y : system) : outcome (vfs procfs) :=
  let s := mkVfs ∅ ∅ 0 0 (mkProcfs 0 0 0 ∅ ∅ ∅ ∅ ∅ y) zero_time 4096 in
  let! (n, s) := construct s 0 0 [0] 0 in
  let! s := Driver_init s in
  let s := s <| root := root_entry (priv s) |> <| null_entry := n |> in
  let! s := create_process_dir 1 s in
  let! s := create_thread_dir 1 s in
  let! s := create_process_dir 2 s in
  create_thread_dir 2 s.

(** The vnode at a path, and what a read of it returns. *)
Definition node_at (path : string) (s : vfs procfs) : outcome (Z * vfs procfs) :=
  let! (e, s) := path_to_entry 9 (bytes path ++ [0]) 0 true s in
  let! (v, _) := vnode_of s e in Ret (v, s).
Definition read_at (path : string) (s : vfs procfs) : outcome (list Z * vfs procfs) :=
  let! (v, s) := node_at path s in
  let! (_, data, s) := v_read v None 2000 0 s in Ret (data, s).


Definition example_fs : vfs procfs :=
  ret_of (mkVfs ∅ ∅ 0 0 (mkProcfs 0 0 0 ∅ ∅ ∅ ∅ ∅ (example_system zero_time 2)) zero_time 0)
    (example_tree (example_system (mkTimeSpec 7 30000000) 2)).
Definition example_node (path : string) : Z := fst (ret_of (0, example_fs) (node_at path example_fs)).

(** A node not read yet shows nothing. *)
Lemma fresh_info (s : vfs procfs) v i vn nd : vnodes s !! v = Some vn -> node_data (priv s) !! fs_data vn = Some nd ->
  infos (priv s) !! v = Some (mkInfo i false) -> storage nd = [] -> size nd = 0 -> is_info s v i [] false.
Proof.
  intros Hv Hd Hi Hst Hsz. exists vn, nd. split_and!; [done..|apply text_shows; rewrite ?Hst; done|done].
Qed.

(** *** The text of a file is that of its first read *)

(** The thread that is read about stops between two reads. *)
Definition stopped_system : system :=
  example_system (mkTimeSpec 7 30000000) 2 <| mach := example_machine <| mem.kern := example_kernel <|
    threads ::= fmap (fun th => th <| state := STOPPED |>) |> |> |>.
Definition two_turns : list (system * Z) := [(example_system (mkTimeSpec 7 30000000) 2, 20); (stopped_system, 20)].


(** *** The arguments of a process *)

Lemma example_readable : readable example_machine 1 65536 65545 65545.
Proof.
  assert (length_page : forall fd off, List.length (example_page fd off) = 512%nat) by (intros; vm_compute; reflexivity).
  assert (tables_wf example_unmapped sample_own) as Hwf by (apply tables_wf_ranges, sample_tables_wf).
  assert (is_Some (mem.pagemaps example_unmapped !! 1)) as Hg by (eexists; vm_compute; reflexivity).
  assert (4 <= free_count example_unmapped)%nat as Hf by (apply Nat.leb_le; vm_compute; reflexivity).
  destruct (fault_file example_page length_page example_unmapped sample_own 1 65536 Hwf Hg ltac:(unfold user_virt; lia) Hf 0 2
    (mem.mkRange [] 65536 65536 12288 7 mem.FILE 0 (Some 7) 0) 7 (mkDescription 0 0 0 0 1)) as (n & s' & Hs & _ & _ & (Hwf' & _) & _);
    [vm_compute; reflexivity..| |done|done|vm_compute; reflexivity|].
  { intros q Hq. apply elem_of_nil in Hq as []. }
  assert (s' = example_machine) as -> by (unfold example_machine; by rewrite Hs).
  split.
  - exact Hwf'.
  - eexists. vm_compute. reflexivity.
  - apply Nat.leb_le. vm_compute. reflexivity.
  - lia.
  - lia.
  - by left.
  - intros a Ha. assert (a / PAGE_SIZE = 16) as -> by (unfold PAGE_SIZE; lia). split; [vm_compute; reflexivity|].
    eexists. split; [vm_compute; reflexivity|]. reflexivity.
Qed.

Lemma strings_read_witness :
  exists s', v_read (example_node "/2/cmdline") None 100 0 example_fs = Ret (9, bytes "cat" ++ [0] ++ bytes "motd" ++ [0], s').
Proof.
  assert (exists vn nd, vnodes example_fs !! example_node "/2/cmdline" = Some vn /\
    node_data (priv example_fs) !! fs_data vn = Some nd /\
    infos (priv example_fs) !! example_node "/2/cmdline" = Some (mkInfo (Cmdline 2) false) /\ storage nd = [] /\ size nd = 0)
    as (vn & nd & Hv & Hd & Hi & Hst & Hsz) by (do 2 eexists; split_and!; vm_compute; reflexivity).
  assert (exists pr, processes (kern_of example_fs) !! 2 = Some pr /\ pagemap pr = Some 1) as (pr & Hp & Hg)
    by (eexists; split; vm_compute; reflexivity).
  assert (mach (sys (priv example_fs)) = example_machine) as Hm by (vm_compute; reflexivity).
  destruct (strings_read (fun n => replicate n 170) example_page 0 9 example_fs _ (Cmdline 2) [] false 2 65536 65545 example_args
    pr 1 65545 None 100 (fun n => length_replicate n 170) (fresh_info _ _ _ _ _ Hv Hd Hi Hst Hsz) eq_refl Hp Hg) as (s' & Hr & _).
  - vm_compute. reflexivity.
  - rewrite Hm. exact example_readable.
  - unfold ARG_MAX. lia.
  - lia.
  - exists s'. etrans; [exact Hr|]. rewrite Hm. vm_compute. reflexivity.
Defined.

(** *** What goes wrong *)

(** A node's text never gets shorter: what is left of a longer one follows it. Here process 12
    has looked at /proc/self before process 5 does. *)
Definition renumbered (t : Z) : system :=
  example_system zero_time t <| mach := example_machine <| mem.kern := example_kernel
    <| threads ::= fmap (fun th => th <| tid := if tid th =? 1 then 5 else 12 |>) |>
    <| processes ::= fmap (fun pr => pr <| pid := if pid pr =? 1 then 5 else 12 |>) |> |> |>.
Definition self_seen_by (t : Z) (s : vfs procfs) : outcome (list Z * vfs procfs) :=
  let s := in_system (renumbered t) s in
  let! (e, s) := path_to_entry 9 (bytes "/self" ++ [0]) 0 false s in
  let! (v, _) := vnode_of s e in
  let! (_, data, s) := v_read v None 128 0 s in Ret (data, s).
Lemma self_stale :
  (let! s := example_tree (renumbered 2) in
   let! (first, s) := self_seen_by 2 s in
   let! (second, s) := self_seen_by 1 s in
   let! (status, _) := path_to_entry 9 (bytes "/self/status" ++ [0]) 0 true s in
   Ret (first, second, status =? null_entry s)) = Ret (bytes "12", bytes "52", true).
Proof. vm_compute. reflexivity. Qed.

(** Hundredths of seconds are not padded: 7.03 s reads as 7.3. *)
Lemma uptime_hundredths : info_text 9 Uptime example_fs = Ret (esc "7.3 0.00\n").
Proof. vm_compute. reflexivity. Qed.

(** A file kept open outlives its process, and prints from where it was. *)
Lemma stat_of_dead_process s t p : processes (kern_of s) !! p = None -> info_text 9 (Thread_stat t p) s = Undef.
Proof.
  intros Hp. cbn [info_text]. unfold thread_stat, kern_of in *. destruct (threads _ !! t); [|done]. cbn [deref obind]. by rewrite Hp.
Qed.

(** Nothing keeps the addresses below the kernel's: with its arguments moved there, by prctl, a
    process reads the memory of the kernel. *)
Definition secret_machine : mem.machine :=
  let m := ret_of example_machine (mem.map_page example_machine 0 (270 * PAGE_SIZE) 18446603336221196288 3) in
  let m := ret_of m (mem.map_kernel m 1) in
  m <| mem.phys ::= <[270 * PAGE_SIZE := access.words_of 512 (bytes "secret" ++ replicate 4090 0)]> |>.
Lemma cmdline_reads_kernel :
  (let y := example_system zero_time 2 <| mach := secret_machine |>
              <| process_arguments := {[2 := mkArguments 18446603336221196288 18446603336221196294 0 0]} |> in
   let! (v, s) := node_at "/2/cmdline" (in_system y example_fs) in
   let! (_, data, _) := v_read v None 100 0 s in Ret data) = Ret (bytes "secret").
Proof. vm_compute. reflexivity. Qed.
