(* ===== verification/Dma.v ===== *)
(** * Memory for devices: mem/dma.cpp

    32 MiB of contiguous pages are set aside once; blocks of it are handed out one after the
    other and never taken back. A pointer into it is a physical address plus [hhdm], where the
    kernel maps all of physical memory. What the calls print is left out; that most of it never
    ends is proved at the end. The pool's lock is released before any other call. *)

From S2P Require Import Prelude Algorithm Sched SchedProps CString Printf Pmm Isr Vmm VmmTables VmmFault Access.

Module dma.

Definition PAGE_CACHE_DISABLE : Z := 16.
Definition PAGE_ATTRIBUTE_TABLE : Z := 128.
Definition PAGE_WRITE_COMBINING : Z := PAGE_ATTRIBUTE_TABLE .| PAGE_CACHE_DISABLE.

(** [g_dma_pool]. *)
Record dma_pool := mkPool { pool_base : Z; pool_size : Z; pool_used : Z; initialized : bool }.
#[export] Instance eta_dma_pool : Settable dma_pool := fun p =>
  mkPool (pool_base p) (pool_size p) (pool_used p) (initialized p).

Record state := mkState { g_dma_pool : dma_pool; dma_coherent_base : Z; dma_coherent_size : Z; mach : mem.machine }.
#[export] Instance eta_state : Settable state := fun s =>
  mkState (g_dma_pool s) (dma_coherent_base s) (dma_coherent_size s) (mach s).

Section dma.
Context (hhdm : Z).

(** The pages mapped by [init]; [map_page] takes the physical address first. *)
Fixpoint map_pool (n : nat) (i virt_base : Z) (s : state) : outcome state :=
  match n with
  | O => Ret s
  | S n =>
      let phys := u64 (dma_coherent_base s + i * PAGE_SIZE) in
      let virt := u64 (virt_base + i * PAGE_SIZE) in
      let! m := mem.map_page (mach s) kernel_pagemap virt phys
                  (mem.PAGE_PRESENT .| mem.PAGE_WRITABLE .| mem.PAGE_NO_EXECUTE .| PAGE_WRITE_COMBINING) in
      map_pool n (i + 1) virt_base (s <| mach := m |>)
  end.

Definition init (s : state) : outcome state :=
  let s := s <| dma_coherent_size := 33554432 |> in
  let pages := dma_coherent_size s / PAGE_SIZE in
  let! (base, pmm) := pmm.alloc_contiguous_pages (mem.pmm_state (mach s)) pages in
  let s := s <| dma_coherent_base := base |> <| mach ::= fun m => m <| mem.pmm_state := pmm |> |> in
  if base =? 0 then Ret s else
  let! s := map_pool (Z.to_nat pages) 0 (u64 (base + hhdm)) s in
  Ret (s <| g_dma_pool := mkPool base (dma_coherent_size s) 0 true |>).

(** [memset] of whole pages. *)
Fixpoint clear_pages (n : nat) (phys : Z) (m : mem.machine) : outcome mem.machine :=
  match n with
  | O => Ret m
  | S n => let! m := mem.clear_page m phys in clear_pages n (phys + PAGE_SIZE) m
  end.

Definition align_to_page (size : Z) : Z := Z.land (u64 (size + PAGE_SIZE - 1)) 18446744073709547520.

(** The pointer, 0 when there is none, and what is stored at [phys_addr]. *)
Definition alloc_coherent (size : Z) (s : state) : outcome (Z * Z * state) :=
  let p := g_dma_pool s in
  if negb (initialized p) then Ret (0, 0, s) else
  let aligned_size := align_to_page size in
  if u64 (pool_used p + aligned_size) >? pool_size p then Ret (0, 0, s) else
  let phys := u64 (pool_base p + pool_used p) in
  let s := s <| g_dma_pool := p <| pool_used := u64 (pool_used p + aligned_size) |> |> in
  let! m := clear_pages (Z.to_nat (aligned_size / PAGE_SIZE)) phys (mach s) in
  Ret (u64 (phys + hhdm), phys, s <| mach := m |>).

Definition free_coherent (size vaddr phys_addr : Z) (s : state) : state := s.

Definition alloc_contiguous_pages (num_pages : Z) (s : state) : outcome (Z * state) :=
  let! (base, pmm) := pmm.alloc_contiguous_pages (mem.pmm_state (mach s)) num_pages in
  Ret (base, s <| mach ::= fun m => m <| mem.pmm_state := pmm |> |>).
Definition free_contiguous_pages (base num_pages : Z) (s : state) : outcome state :=
  let! pmm := pmm.free_contiguous_pages (mem.pmm_state (mach s)) base num_pages in
  Ret (s <| mach ::= fun m => m <| mem.pmm_state := pmm |> |>).

(** The loop of [mmap_buffer]; [g] is the active pagemap. *)
Definition mmap_flags : Z :=
  mem.PAGE_PRESENT .| mem.PAGE_WRITABLE .| mem.PAGE_USER .| mem.PAGE_NO_EXECUTE .| PAGE_WRITE_COMBINING.
Fixpoint mmap_loop (n : nat) (i : Z) (g phys_base virt_start : Z) (m : mem.machine) : outcome mem.machine :=
  match n with
  | O => Ret m
  | S n =>
      let phys := u64 (phys_base + i * PAGE_SIZE) in
      let virt := u64 (virt_start + i * PAGE_SIZE) in
      let! m := mem.map_page m g virt phys mmap_flags in
      mmap_loop n (i + 1) g phys_base virt_start m
  end.
Definition mmap_buffer (g : Z) (vma : option Z) (phys_base size : Z) (m : mem.machine) : outcome (Z * mem.machine) :=
  match vma with
  | None => Ret (- EINVAL, m)
  | Some r =>
      let! x := mem.get_range m r in
      let! m := mmap_loop (Z.to_nat (u64 (size + PAGE_SIZE - 1) / PAGE_SIZE)) 0 g phys_base (mem.base x) m in
      Ret (0, m)
  end.

(** Cache maintenance: nothing of the state changes. *)
Definition sync_for_cpu (phys_addr size dir : Z) (s : state) : state := s.
Definition sync_for_device (phys_addr size dir : Z) (s : state) : state := s.

Definition virt_to_phys (read_page : FileDescription -> Z -> list Z) (faults : nat) (g va : Z) (m : mem.machine)
    : outcome (Z * mem.machine) :=
  if (va >=? hhdm) && (va <? u64 (hhdm + 4294967296)) then Ret (va - hhdm, m)
  else let! (phy, m) := mem.get_physical_addr read_page faults m g va in Ret (u64 phy, m).
Definition phys_to_virt (paddr : Z) : Z := u64 (paddr + hhdm).

Definition is_coherent (paddr : Z) (s : state) : bool :=
  initialized (g_dma_pool s) &&
  ((paddr >=? dma_coherent_base s) && (paddr <? u64 (dma_coherent_base s + dma_coherent_size s))).

(** The total, what is used and what is free. *)
Definition get_dma_statistics (s : state) : Z * Z * Z :=
  let p := g_dma_pool s in (pool_size p, pool_used p, u64 (pool_size p - pool_used p)).
End dma.

End dma.
Import dma.

(** ** Blocks *)

(** The pool is set up and its pages are there. *)
Record pool_ok (s : state) : Prop := {
  po_init : initialized (g_dma_pool s) = true;
  po_base : 0 < pool_base (g_dma_pool s) /\ pool_base (g_dma_pool s) mod PAGE_SIZE = 0;
  po_used : 0 <= pool_used (g_dma_pool s) <= pool_size (g_dma_pool s) /\ pool_used (g_dma_pool s) mod PAGE_SIZE = 0;
  po_size : pool_size (g_dma_pool s) mod PAGE_SIZE = 0 /\
    pool_base (g_dma_pool s) + pool_size (g_dma_pool s) < 9223372036854775808;
  po_pages a : pool_base (g_dma_pool s) <= a < pool_base (g_dma_pool s) + pool_size (g_dma_pool s) -> a mod PAGE_SIZE = 0 ->
    is_Some (mem.phys (mach s) !! a)
}.

(** A list of requests against a pool that starts at [base] and has [room] left: the
    addresses, [None] for a request that does not fit. *)
Definition pages_for (size : Z) : Z := (size + PAGE_SIZE - 1) / PAGE_SIZE * PAGE_SIZE.
Fixpoint place (base room : Z) (sizes : list Z) : list (option Z) :=
  match sizes with
  | [] => []
  | n :: sizes =>
      if pages_for n <=? room then Some base :: place (base + pages_for n) (room - pages_for n) sizes
      else None :: place base room sizes
  end.

Fixpoint alloc_all (hhdm : Z) (sizes : list Z) (s : state) : outcome (list (Z * Z) * state) :=
  match sizes with
  | [] => Ret ([], s)
  | n :: sizes =>
      let! (vaddr, phys, s) := alloc_coherent hhdm n s in
      let! (rest, s) := alloc_all hhdm sizes s in Ret ((vaddr, phys) :: rest, s)
  end.
Definition pointer (hhdm : Z) (block : option Z) : Z * Z :=
  match block with Some a => (u64 (a + hhdm), a) | None => (0, 0) end.

Definition zeroed (m : mem.machine) (a size : Z) : Prop :=
  forall p, a <= p < a + size -> p mod PAGE_SIZE = 0 -> mem.phys m !! p = Some mem.zero_page.

Lemma align_to_page_spec size : 0 <= size < 9223372036854775808 -> align_to_page size = pages_for size.
Proof.
  intros Hs. unfold align_to_page, pages_for, PAGE_SIZE. rewrite u64_small by lia.
  change 18446744073709547520 with (Z.ldiff (Z.ones 64) (Z.ones 12)).
  replace ((size + 4096 - 1) / 4096 * 4096) with (Z.ldiff (size + 4096 - 1) (Z.ones 12)).
  - apply Z.bits_inj'. intros k Hk. rewrite Z.land_spec, !Z.ldiff_spec.
    destruct (decide (k < 64)); [rewrite (Z.ones_spec_low 64) by lia; by rewrite andb_true_l|].
    rewrite (Z.ones_spec_high 64) by lia. cbn [andb]. rewrite andb_false_r.
    rewrite Z.bits_above_log2; [done|lia|]. destruct (decide (size + 4096 - 1 = 0)) as [->|]; [simpl; lia|].
    apply Z.log2_lt_pow2; [lia|]. apply Z.lt_le_trans with (2 ^ 64); [lia|]. apply Z.pow_le_mono_r; lia.
  - rewrite Z.ldiff_ones_r by lia. rewrite Z.shiftr_div_pow2, Z.shiftl_mul_pow2 by lia. done.
Qed.

Lemma clear_pages_spec n : forall phys m, phys mod PAGE_SIZE = 0 ->
  (forall a, phys <= a < phys + Z.of_nat n * PAGE_SIZE -> a mod PAGE_SIZE = 0 -> is_Some (mem.phys m !! a)) ->
  exists m', clear_pages n phys m = Ret m' /\ zeroed m' phys (Z.of_nat n * PAGE_SIZE) /\
    forall a, a < phys \/ phys + Z.of_nat n * PAGE_SIZE <= a -> mem.phys m' !! a = mem.phys m !! a.
Proof.
  unfold zeroed, PAGE_SIZE. induction n as [|n IH]; intros phys m Ha Hm; cbn [clear_pages].
  { exists m. split; [done|]. split; [|done]. intros p Hp. lia. }
  unfold mem.clear_page. destruct (Hm phys ltac:(lia) Ha) as [ws Hws]. rewrite Hws. cbn [deref obind]. unfold PAGE_SIZE.
  set (m1 := m <| mem.phys ::= _ |>).
  assert (forall a, mem.phys m1 !! a = if decide (a = phys) then Some mem.zero_page else mem.phys m !! a) as H1.
  { intros a. unfold m1. cbn [mem.phys upd mem.machine_settable]. case_decide as Hd; [subst; apply lookup_insert_eq|by apply lookup_insert_ne]. }
  clearbody m1. destruct (IH (phys + 4096) m1) as (m' & -> & Hz & Ho); [lia| |].
  { intros a Hr Hal. rewrite H1. case_decide; [by eexists|]. apply Hm; [lia|done]. }
  exists m'. split; [done|]. split.
  - intros p Hp Hal. destruct (decide (p = phys)) as [->|].
    + rewrite Ho by lia. rewrite H1. by case_decide.
    + apply Hz; [lia|done].
  - intros a Hr. rewrite Ho by lia. rewrite H1, decide_False by lia. done.
Qed.

Lemma alloc_coherent_spec hhdm n s : pool_ok s -> 0 <= n < 4611686018427387904 ->
  let p := g_dma_pool s in
  if pages_for n <=? pool_size p - pool_used p then
    exists m', alloc_coherent hhdm n s = Ret (u64 (pool_base p + pool_used p + hhdm), pool_base p + pool_used p,
        s <| g_dma_pool := p <| pool_used := pool_used p + pages_for n |> |> <| mach := m' |>) /\
      pool_ok (s <| g_dma_pool := p <| pool_used := pool_used p + pages_for n |> |> <| mach := m' |>) /\
      zeroed m' (pool_base p + pool_used p) (pages_for n) /\
      forall a, a < pool_base p + pool_used p -> mem.phys m' !! a = mem.phys (mach s) !! a
  else alloc_coherent hhdm n s = Ret (0, 0, s).
Proof.
  intros [Hi [Hb0 Hb] [Hu Hum] [Hsm Hs] Hp] Hn. cbn zeta. unfold alloc_coherent. rewrite Hi. cbn [negb].
  rewrite align_to_page_spec by lia. assert (0 <= pages_for n < 4611686018427392000 /\ pages_for n mod PAGE_SIZE = 0) as [Hpn Hpm].
  { unfold pages_for, PAGE_SIZE. lia. }
  rewrite (u64_small (_ + pages_for n)) by lia. rewrite Z.gtb_ltb.
  destruct (Z.leb_spec (pages_for n) (pool_size (g_dma_pool s) - pool_used (g_dma_pool s))) as [Hle|Hgt].
  - rewrite (proj2 (Z.ltb_ge _ _)) by lia. rewrite !(u64_small (pool_base _ + pool_used _)) by lia.
    unfold PAGE_SIZE in *. cbn [mach upd eta_state].
    destruct (clear_pages_spec (Z.to_nat (pages_for n / 4096)) (pool_base (g_dma_pool s) + pool_used (g_dma_pool s)) (mach s))
      as (m' & Hm & Hz & Ho); unfold PAGE_SIZE in *; [lia|intros a Ha Hal; apply Hp; [lia|done]|].
    replace (Z.of_nat (Z.to_nat (pages_for n / 4096)) * 4096) with (pages_for n) in Hz, Ho by lia.
    rewrite Hm. cbn [obind]. exists m'. split; [done|]. split_and!; [|done|intros a Ha; apply Ho; lia].
    split; cbn [g_dma_pool upd eta_state pool_base pool_used pool_size initialized eta_dma_pool mach]; unfold PAGE_SIZE; [done|done|lia|done|].
    intros a Ha Hal. destruct (decide (a < pool_base (g_dma_pool s) + pool_used (g_dma_pool s) \/
      pool_base (g_dma_pool s) + pool_used (g_dma_pool s) + pages_for n <= a)) as [Hd|Hd].
    + rewrite Ho by done. by apply Hp.
    + rewrite Hz by (unfold PAGE_SIZE; lia). by eexists.
  - by rewrite (proj2 (Z.ltb_lt _ _)) by lia.
Qed.

(** The blocks handed out for any requests are those of the reference allocator: each starts
    where the last ended, on a page, within the pool, and is as long as its request rounded up to
    pages, so that no two overlap; a request that no longer fits gets a null pointer and takes
    nothing from those after it. All blocks hold zeroes, the earlier ones too when the later ones have been cleared. *)
Theorem blocks_placed hhdm sizes s : pool_ok s -> Forall (fun n => 0 <= n < 4611686018427387904) sizes ->
  let base := pool_base (g_dma_pool s) + pool_used (g_dma_pool s) in
  let blocks := place base (pool_size (g_dma_pool s) - pool_used (g_dma_pool s)) sizes in
  exists s', alloc_all hhdm sizes s = Ret (map (pointer hhdm) blocks, s') /\ pool_ok s' /\
    (forall a, a < base -> mem.phys (mach s') !! a = mem.phys (mach s) !! a) /\
    forall i a n, blocks !! i = Some (Some a) -> sizes !! i = Some n ->
      base <= a /\ a mod PAGE_SIZE = 0 /\ a + pages_for n <= pool_base (g_dma_pool s) + pool_size (g_dma_pool s) /\
      zeroed (mach s') a (pages_for n) /\
      forall j b k, (i < j)%nat -> blocks !! j = Some (Some b) -> sizes !! j = Some k -> a + pages_for n <= b.
Proof.
  intros Hok Hall. revert s Hok. induction Hall as [|n sizes Hn Hall IH]; intros s Hok; cbn zeta; cbn [place alloc_all].
  { exists s. split_and!; [done..|]. intros i a n H. by rewrite lookup_nil in H. }
  pose proof (alloc_coherent_spec hhdm n s Hok Hn) as Hal. cbn zeta in Hal.
  pose proof Hok as [Hi [Hb0 Hb] [Hu Hum] [Hsm Hs] Hp].
  assert (0 <= pages_for n /\ pages_for n mod PAGE_SIZE = 0) as [Hpn Hpm] by (unfold pages_for, PAGE_SIZE; lia).
  destruct (Z.leb_spec (pages_for n) (pool_size (g_dma_pool s) - pool_used (g_dma_pool s))) as [Hle|Hgt].
  - destruct Hal as (m' & -> & Hok' & Hz & Hold). cbn [obind].
    destruct (IH _ Hok') as (s' & Hrun & Hok2 & Hkeep & Hblk). cbn zeta in *.
    cbn [g_dma_pool upd eta_state pool_base pool_used pool_size initialized eta_dma_pool mach] in *.
    rewrite Z.add_assoc in *. replace (pool_size (g_dma_pool s) - (pool_used (g_dma_pool s) + pages_for n)) with
      (pool_size (g_dma_pool s) - pool_used (g_dma_pool s) - pages_for n) in * by lia.
    rewrite Hrun. cbn [obind]. exists s'. split_and!; [done|done|intros a Ha; rewrite Hkeep by lia; by apply Hold|].
    intros [|i] a k Hba Hk; cbn [lookup list_lookup] in Hba, Hk.
    + simplify_eq. unfold PAGE_SIZE in *. split_and!; [lia|lia|lia| |].
      * intros q Hq Hal. rewrite Hkeep by lia. by apply Hz.
      * intros [|j] b k' Hj Hb' Hk'; [lia|]. cbn [lookup list_lookup] in Hb', Hk'. destruct (Hblk j b k' Hb' Hk') as [Hle' _]. exact Hle'.
    + destruct (Hblk i a k Hba Hk) as (H1 & H2 & H3 & H4 & Hd).
      split; [clear -H1 Hpn; lia|]. split; [exact H2|]. split; [exact H3|]. split; [exact H4|].
      intros [|j] b k' Hj Hb' Hk'; [lia|]. apply (Hd j b k'); [lia|exact Hb'|exact Hk'].
  - rewrite Hal. cbn [obind]. destruct (IH s Hok) as (s' & -> & Hok2 & Hkeep & Hblk). cbn [obind].
    exists s'. split_and!; [done|done|done|]. intros [|i] a k Hba Hk; [done|]. cbn [lookup list_lookup] in Hba, Hk.
    destruct (Hblk i a k Hba Hk) as (H1 & H2 & H3 & H4 & Hd).
    split; [exact H1|]. split; [exact H2|]. split; [exact H3|]. split; [exact H4|].
    intros [|j] b k' Hj Hb' Hk'; [lia|]. apply (Hd j b k'); [lia|exact Hb'|exact Hk'].
Qed.

(** ** Examples *)

Definition small_pool : state := mkState (mkPool (300 * PAGE_SIZE) 16384 0 true) (300 * PAGE_SIZE) 16384 (sample_machine sample).
Lemma small_pool_ok : pool_ok small_pool.
Proof.
  split; cbn [small_pool g_dma_pool pool_base pool_size pool_used initialized mach]; unfold PAGE_SIZE; [done|lia|lia|lia|].
  intros a Ha Hal. assert (a = 1228800 \/ a = 1232896 \/ a = 1236992 \/ a = 1241088) as Hor by lia.
  rewrite sample_phys. clear -Hor. destruct Hor as [->|[->|[->| ->]]]; eexists; vm_compute; reflexivity.
Qed.

Lemma blocks_placed_witness :
  place (300 * PAGE_SIZE) 16384 [5000; 100000; 1; 4096; 1] = [Some 1228800; None; Some 1236992; Some 1241088; None] /\
  exists s', alloc_all 1000000000 [5000; 100000; 1; 4096; 1] small_pool =
    Ret ([(1001228800, 1228800); (0, 0); (1001236992, 1236992); (1001241088, 1241088); (0, 0)], s').
Proof.
  split; [vm_compute; reflexivity|].
  destruct (blocks_placed 1000000000 [5000; 100000; 1; 4096; 1] small_pool small_pool_ok) as (s' & Hr & _); [repeat constructor; lia|].
  exists s'. etrans; [exact Hr|]. vm_compute. reflexivity.
Defined.

(** ** What goes wrong *)

(** [map_page] is given its first two arguments the wrong way round. Mapping a buffer of one page
    for a program maps, at the address that is the buffer's physical one, the frame whose address is the one
    the program asked for, and leaves what the program asked for as it was: a program that chooses
    the address reaches any frame of memory. *)
Lemma mmap_buffer_swapped s own g m r x phys_base size :
  tables_wf s own -> mem.pagemaps s !! g = Some m -> mem.ranges s !! r = Some x -> (3 <= free_count s)%nat ->
  0 < phys_base < 140737488355328 -> 0 < size <= PAGE_SIZE -> 0 <= mem.base x < 18446744073709551616 ->
  exists s', mmap_buffer g (Some r) phys_base size s = Ret (0, s') /\
    pte s' g phys_base = Z.land (mem.base x) mem.ADDR_MASK .| mmap_flags /\
    (page_of (mem.base x) <> page_of phys_base -> pte s' g (mem.base x) = pte s g (mem.base x)).
Proof.
  intros Hwf Hm Hx Hf Hp Hs Hb. unfold mmap_buffer, mem.get_range. rewrite Hx. cbn [deref obind]. unfold PAGE_SIZE in *.
  rewrite (u64_small (size + 4096 - 1)) by lia. replace ((size + 4096 - 1) / 4096) with 1 by lia.
  change (Z.to_nat 1) with 1%nat. cbn [mmap_loop]. rewrite !Z.mul_0_l, !Z.add_0_r, !u64_small by lia.
  destruct (map_page_translates s own g (mem.base x) phys_base mmap_flags Hwf (ex_intro _ m Hm) ltac:(unfold user_virt; lia) Hf)
    as (s' & own' & -> & _ & _ & Hpte & Hother).
  cbn [obind]. exists s'. split; [done|]. split; [exact Hpte|]. intros Hne. apply Hother. by right.
Qed.

(** The pool that [init] sets up is mapped the wrong way round, too; and the message it ends with,
    like those of a failing [alloc_coherent], never ends: [%z] means nothing to [printf]. *)
Lemma init_message_never_ends megabytes base :
  klib_printf.vprintf_template (bytes "DMA: Initialized %zu MB coherent memory at %#lX" ++ [10; 0])
    [klib_printf.Word megabytes; klib_printf.Word base] = Ret None.
Proof. vm_compute. reflexivity. Qed.

(** A request that wraps moves the pool backwards: the next block is the first one again. *)
Lemma wrapped_request_overlaps :
  (let p := mkPool 1228800 16384 4096 true in
   let size := 18446744073709547520 in
   (u64 (pool_used p + align_to_page size) >? pool_size p, u64 (pool_used p + align_to_page size))) = (false, 0).
Proof. vm_compute. reflexivity. Qed.
